(* ===== verification/_CoqProject ===== *)
-Q . S2P
Prelude.v
GoFloat.v
GoCrypto.v
Shared.v
Events.v
GoTime.v
TripAggregate.v
BookingAggregate.v
FleetAggregates.v
InvoiceAggregate.v
GoMath.v
Geofence.v
Database.v
Outbox.v
Repository.v
Devices.v
Telemetry.v
TripRepository.v
FleetRepository.v
TripUseCases.v
TripSafety.v
BookingRepository.v
InvoiceRepository.v
InvoiceUseCases.v
PaymentUseCases.v
Razorpay.v
WebhookHistory.v
GeofenceStore.v
DwellWorker.v
DetentionBilling.v
RateLimit.v
Leader.v
SideTables.v
Alerts.v
AlertPipeline.v
EWayBill.v
FuelConfig.v
Fuel.v
Scorecard.v
Settlement.v
Kharcha.v
FuelClaims.v
Fastag.v
Charges.v
ClaimHistory.v
Tokens.v
Auth.v
AuthSafety.v
Experiments.v
Features.v
