(* ===== verification/Prelude.v ===== *)
(** * Avandab / MVTMS: verification of the transport ERP's transactional core

    ** The program and its parts

    The repository is the back end of a transport management system in Go: a
    modular monolith over one relational database.  A request reaches a use
    case; the use case runs its reads and writes in one unit of work, loads
    aggregates through repositories, applies an operation of the aggregate,
    saves it under an optimistic version, and writes the events the aggregate
    recorded to an outbox table in the same transaction.  A relay publishes
    the outbox to an in-memory bus.  Beside this core run the telemetry
    pipeline, which turns the frames of tracking devices into positions, and
    the geofence worker, which turns positions into zone events, detention
    windows and transitions of trips.

    ** Files, and the code they model (paths under src/)

    Foundations:
    - [Prelude]: errors, results, the state-and-error monad [SM], [preserves]
      and the tactics built on them ([run_ok], [preserve_with]), guard
      notation, lists as tables.
    - [GoFloat], [GoMath], [GoTime], [GoCrypto]: what the code uses of Go's
      [float64], [math], [strconv], [time], SHA-256, HMAC and hexadecimal
      text, executable.
    - [Shared]: internal/shared (money.go, pagination.go, tenant.go), 64-bit
      integers with their wrap-around.
    - [Database]: the tables of db/migrations, internal/repository/tx.go,
      internal/shared/uow/uow.go; the environment of a request.
    - [Repository]: the interface an aggregate repository offers (a class with
      its laws), the audit trail, and the use case find-apply-save-audit that
      the lifecycle use cases instantiate.
    - [Events], [Outbox]: internal/events, internal/shared/outbox.

    Aggregates, one Module each, a record for the aggregate, an inductive for
    its status and one definition per method: [TripAggregate],
    [BookingAggregate], [FleetAggregates], [InvoiceAggregate]
    (internal/{trip,booking,driver,vehicle,invoice,payment}/domain).

    Repositories and use cases: [TripRepository], [TripUseCases],
    [TripSafety]; [BookingRepository]; [FleetRepository]; [InvoiceRepository],
    [InvoiceUseCases]; [PaymentUseCases]; [Razorpay] (the gateway client and
    its webhook), [WebhookHistory] (what the webhook remembers over
    redeliveries, other events and restarts).  A use case [XUseCase.Execute] of the code is the definition
    [XExecute].

    Telemetry: [Devices] (internal/telemetry/device_store.go, devices.go,
    quarantine.go), [Telemetry] (ingest.go, odometer_guard.go, sync.go,
    http_ingest.go, mqtt_ingest.go).

    Geofences: [Geofence] (domain and dwell_engine.go), [GeofenceStore] (the
    repositories, config.go, zone_crud.go, detention.go), [DwellWorker]
    (infrastructure/worker/dwell_worker.go), [DetentionBilling] (these and the
    invoice use cases together).

    Components with tables of their own: [SideTables] (statements and
    transactions on such tables beside the core's, and what no transaction
    rolls back), and on top of it
    - [Alerts], [AlertPipeline]: internal/alerts (domain, channels,
      repository; engine.go, sos.go, escalator.go, flusher.go);
    - [EWayBill]: internal/ewaybill;
    - [FuelConfig], [Fuel]: internal/fuel (config.go; engine.go);
    - [Scorecard], [Settlement]: internal/service (scorecard_service.go;
      driver_settlement_service.go).  The events the fuel engine writes are
      those the scorecard weighs, and the bonus of a settlement is the
      scorecard's;
    - [Kharcha], [FuelClaims], [Fastag]: the expenses of the drivers, the
      audit of their fuel claims, and the toll tags
      (internal/service/kharcha_service.go, fuel_audit_service.go;
      internal/fastag, internal/integration/fastag).  They share one set of
      tables with the settlements, whose operations run on a view of it; the
      four are composed in [Charges] and [ClaimHistory].

    Access: [Tokens] (internal/auth/apitoken.go, reset_token.go, password.go,
    internal/middleware/csrf.go), [Auth] (internal/repository/sqlite/auth.go,
    internal/service/auth_service.go, user_service.go,
    internal/auth/session.go, internal/middleware/api_auth.go),
    [AuthSafety].

    Product: [Experiments] (internal/service/experiments_service.go,
    internal/experiments/experiments.go), [Features] (internal/features).

    Infrastructure: [RateLimit] (internal/cache/cache.go,
    internal/middleware/ratelimit.go), [Leader] (internal/leader/leader.go).

    ** How state and effects are modelled

    The state of a request is a [World]: the tables ([DB]) and the positions
    in the streams of the environment.  A table is a list of rows in rowid
    order; one SQL statement is one atomic step that may fail; a unit of work
    restores the tables when its body, a statement or the commit fails.  The
    environment [Env] supplies the readings of the clock, the identifiers, the
    session, and for every statement whether it faults and with which error:
    connection failures, locks, CHECK and FOREIGN KEY violations that a
    definition does not compute are among these faults.  Theorems quantify
    over the environment, so they hold whichever statements fail.  Instants
    are [Z], in nanoseconds from Go's zero time; columns keep what the code
    reads back.  Amounts are IEEE 754 doubles, as in the code, never reals.
    Definitions are structural or walk a list the code walks: no fuel is used
    anywhere, so every one of them returns.

    ** What the theorems show

    - Safety of trips: exclusive drivers and vehicles over every interleaving
      of the use cases and of the dwell worker; compliance at the start;
      refinement of the lifecycle by the use cases, the aggregate and the
      booking counterpart; optimistic locking.
    - Money: payments move an invoice as the aggregate says, once per
      reversal, atomically; one invoice per booking; ids, keys and totals as
      invariants of every history; round trip of the invoice through its rows;
      where the code does not keep its promise, the theorem that says so.
    - Delivery: the relay delivers at least once under every fault and drains
      when none happens; the webhook is authenticated, and an event is applied
      once over every history that leaves its id where it was put.
    - Telemetry: the outcome of every frame, replay protection, the
      consistency of the tables under every history of requests, and the
      authentication of devices; the registry keeps an IMEI on one device and
      a device on one vehicle.
    - Geofences: a type invariant of the dwell engine, debouncing of every
      reported event, invariance of the geometry under closing a ring, the
      engine's table under every sweep, the backlog that is worked off, and
      detention windows that are consistent and billed at most once.
    - Alerts: every event is on record, escalation is the one the schedules
      describe and ends but for updates that fail, alerts of one key are apart
      by the cooldown.
    - E-way bills: numbers, trips and extensions as an invariant, the
      evidence an extension needs, and the regeneration that cannot work.
    - Fuel: what an event needs to be reported, the median against outliers,
      events and alerts in step; the vehicle that is lost when its warm-up
      fails, and the snapshot that is read again and again.
    - Drivers: the score shown is the newest of the history, bounded and
      capped; settlements and their lines are consistent and say what was
      computed.
    - Expenses: over every history of claims, decisions, audits, tolls and
      settlements an expense is charged once at most, a decision is final, a
      retry is the same claim, the audit and the claim agree, and tolls are
      booked as reported; and what the errors the code drops cost.
    - Access: who a request is let in as, with the holes that are left, the
      session that was logged out, the reset link that works once, the round
      trip of the API token, and the change of a password.
    - Product: all requests for one subject are told the same variant however
      their statements interleave, an experiment never goes back, and a
      feature is decided by grants a minute old at most.
    - Infrastructure: the rate limiter implements its specification and its
      promise, the cache's janitor is invisible, one lease per worker.
    Every theorem with a hypothesis has a witness, named after it, on a
    concrete run that evaluates.

    ** Parameters

    [Columns] is a class for the text in which the SQL driver stores a time at
    an offset; [go_columns] instantiates it with Go's [String].  Device times
    keep the offset they were sent with and are ordered by that text.
    [GoMath] is a class for the approximated functions of [math]; [go_math]
    instantiates it.  [encoding/json], the HTTP transport and random secrets
    are arguments of the definitions that use them.

    ** Not modelled, and why

    HTTP handlers, templates, middleware and the wiring of cmd/ are I/O around
    the components; db/generated is modelled statement by statement where a
    repository calls it; internal/agent and internal/rag drive external
    models; list and report queries of the repositories only read.  The loops
    around the relay and the workers repeat the step that is modelled.
    Concurrency within a process is interleaving of whole units of work, which
    is what one SQLite writer gives.

    The legacy services of internal/service other than scorecard, settlements,
    expenses, fuel claims, users, logins and experiments, ETA, maintenance and
    P&L are not modelled; nor is the enforcer of Casbin.  The text in which the
    driver stores a time is also a parameter where a query delivers it as text;
    for times the server makes, and for the snapshots the dwell worker and the
    fuel engine read, which are taken to be sent in UTC, the order of those
    texts is taken to be that of the times.  Hooks, bus messages and provider
    calls of the components above are logged in their outside, in order; what
    they set off elsewhere is not composed with them.
*)
From stdpp Require Import base decidable option list strings gmap.
From Stdlib Require Import ZArith Lia.

#[export] Set Warnings "-clear-no-such-hyp".

(** ** Errors and results

    A Go [error] value.  Only one sentinel of the standard library is ever
    tested by identity in the modelled code ([sql.ErrNoRows]); every other
    error is observed through its message. *)
Inductive error : Type :=
| ErrNoRows
| Err (msg : string)
| Wrap (prefix : string) (inner : error).

(** [err.Error()]; ["%s: %w"] wrapping concatenates the messages. *)
Fixpoint error_msg (e : error) : string :=
  match e with
  | ErrNoRows => "sql: no rows in result set"
  | Err m => m
  | Wrap p e' => (p +:+ ": " +:+ error_msg e')%string
  end.

(** [errors.Is(err, sql.ErrNoRows)]. *)
Fixpoint is_no_rows (e : error) : bool :=
  match e with
  | ErrNoRows => true
  | Err _ => false
  | Wrap _ e' => is_no_rows e'
  end.

#[export] Instance error_eq_dec : EqDecision error.
Proof. solve_decision. Defined.

Inductive result (A : Type) : Type :=
| Ok (a : A)
| Fail (e : error).
Arguments Ok {A} a.
Arguments Fail {A} e.

#[export] Instance result_ret : MRet result := @Ok.
#[export] Instance result_bind : MBind result := λ A B f r,
  match r with Ok a => f a | Fail e => Fail e end.

Definition is_Ok {A} (r : result A) : bool :=
  match r with Ok _ => true | Fail _ => false end.

(** ** The state-and-error monad

    A Go method that returns [(T, error)] and mutates the world [S]: the
    state reached is kept on the error path too, as in Go. *)
Section StateMonad.
Context {S : Type}.

Definition SM (A : Type) : Type := S → result A * S.

Definition SM_ret {A} (a : A) : SM A := λ s, (Ok a, s).
Definition SM_bind {A B} (f : A → SM B) (m : SM A) : SM B := λ s,
  match m s with
  | (Ok a, s') => f a s'
  | (Fail e, s') => (Fail e, s')
  end.
Definition SM_fail {A} (e : error) : SM A := λ s, (Fail e, s).
Definition SM_lift {A} (r : result A) : SM A := λ s, (r, s).
Definition SM_get {A} (f : S → A) : SM A := λ s, (Ok (f s), s).
Definition SM_modify (f : S → S) : SM unit := λ s, (Ok tt, f s).

(** [x, err := m()]: the caller inspects the error itself. *)
Definition SM_try {A} (m : SM A) : SM (result A) := λ s,
  match m s with (r, s') => (Ok r, s') end.

(** [_, _ = m()]: the error is dropped. *)
Definition SM_ignore {A} (m : SM A) : SM unit := λ s, (Ok tt, snd (m s)).

(** [if err != nil { return ..., f(err) }]; [fmt.Errorf("p: %w", err)]. *)
Definition SM_map_err {A} (f : error → error) (m : SM A) : SM A := λ s,
  match m s with (Ok a, s') => (Ok a, s') | (Fail e, s') => (Fail (f e), s') end.
Definition SM_wrap {A} (prefix : string) (m : SM A) : SM A := SM_map_err (Wrap prefix) m.

Fixpoint SM_iter {A} (f : A → SM unit) (l : list A) : SM unit :=
  match l with
  | [] => SM_ret tt
  | x :: l' => SM_bind (λ _, SM_iter f l') (f x)
  end.
End StateMonad.
Arguments SM : clear implicits.

#[export] Instance SM_mret {S} : MRet (SM S) := @SM_ret S.
#[export] Instance SM_mbind {S} : MBind (SM S) := λ A B, @SM_bind S A B.

Declare Scope go_scope.
Delimit Scope go_scope with go.
Notation "'when' b 'fail' e ; k" := (if b then SM_fail e else k)
  (at level 10, b at level 100, e at level 100, k at level 200,
   format "'[v' 'when'  b  'fail'  e ;  '/' k ']'") : go_scope.

(** ** Symbolic execution of monadic code *)

(** [SM_bind] success and failure, the two cases of every proof that runs a
    use case step by step. *)
Lemma bind_inv {S A B} (m : SM S A) (f : A → SM S B) s r s' :
  (m ≫= f) s = (r, s') →
  (∃ e, m s = (Fail e, s') ∧ r = Fail e) ∨ (∃ a s1, m s = (Ok a, s1) ∧ f a s1 = (r, s')).
Proof. cbv [mbind SM_mbind SM_bind]. destruct (m s) as [[a|e] s1]; [eauto|intros [= <- <-]; eauto]. Qed.

Lemma bind_ok_inv {S A B} (m : SM S A) (f : A → SM S B) s b s' :
  (m ≫= f) s = (Ok b, s') → ∃ a s1, m s = (Ok a, s1) ∧ f a s1 = (Ok b, s').
Proof. cbv [mbind SM_mbind SM_bind]. destruct (m s) as [[a|e] s1]; naive_solver. Qed.

Lemma bind_fail_inv {S A B} (m : SM S A) (f : A → SM S B) s e s' :
  (m ≫= f) s = (Fail e, s') →
  m s = (Fail e, s') ∨ ∃ a s1, m s = (Ok a, s1) ∧ f a s1 = (Fail e, s').
Proof. cbv [mbind SM_mbind SM_bind]. destruct (m s) as [[a|e'] s1]; naive_solver. Qed.

Lemma bind_ok {S A B} (m : SM S A) (f : A → SM S B) s a s1 :
  m s = (Ok a, s1) → (m ≫= f) s = f a s1.
Proof. cbv [mbind SM_mbind SM_bind]. by intros ->. Qed.

Lemma bind_fail {S A B} (m : SM S A) (f : A → SM S B) s e s1 :
  m s = (Fail e, s1) → (m ≫= f) s = (Fail e, s1).
Proof. cbv [mbind SM_mbind SM_bind]. by intros ->. Qed.

Lemma map_err_ok_inv {S A} f (m : SM S A) s a s' :
  SM_map_err f m s = (Ok a, s') → m s = (Ok a, s').
Proof. unfold SM_map_err. by destruct (m s) as [[]]. Qed.

Lemma map_err_fail_inv {S A} f (m : SM S A) s e s' :
  SM_map_err f m s = (Fail e, s') → ∃ e', m s = (Fail e', s') ∧ e = f e'.
Proof. unfold SM_map_err. destruct (m s) as [[]]; [done|]. intros [= <- <-]. eauto. Qed.

(** A property of the state that a computation preserves, whatever it
    returns; it is closed under the monad's combinators. *)
Definition preserves {S A} (P : S → S → Prop) (m : SM S A) : Prop :=
  ∀ s, P s (snd (m s)).

Create HintDb go discriminated.
#[export] Hint Constants Opaque : go.
#[export] Hint Variables Opaque : go.

Section Preserves.
Context {S : Type} (P : S → S → Prop) `{!PreOrder P}.

Lemma preserves_ret {A} (a : A) : preserves P (mret a : SM S A).
Proof. intros s; cbn; reflexivity. Qed.
Lemma preserves_lift {A} (r : result A) : preserves P (SM_lift r : SM S A).
Proof. intros s; cbn; reflexivity. Qed.
Lemma preserves_fail {A} e : preserves P (SM_fail e : SM S A).
Proof. intros s; cbn; reflexivity. Qed.
Lemma preserves_get {A} (f : S → A) : preserves P (SM_get f).
Proof. intros s; cbn; reflexivity. Qed.
Lemma preserves_bind {A B} (m : SM S A) (f : A → SM S B) :
  preserves P m → (∀ a, preserves P (f a)) → preserves P (m ≫= f).
Proof.
  intros Hm Hf s. cbv [mbind SM_mbind SM_bind]. specialize (Hm s).
  destruct (m s) as [[a|e] s1]; cbn in *; [|done].
  etrans; [exact Hm|apply Hf].
Qed.
Lemma preserves_try {A} (m : SM S A) : preserves P m → preserves P (SM_try m).
Proof. intros Hm s. cbv [SM_try]. specialize (Hm s). by destruct (m s). Qed.
Lemma preserves_ignore {A} (m : SM S A) : preserves P m → preserves P (SM_ignore m).
Proof. intros Hm s. apply Hm. Qed.
Lemma preserves_map_err {A} f (m : SM S A) : preserves P m → preserves P (SM_map_err f m).
Proof. intros Hm s. cbv [SM_map_err]. specialize (Hm s). by destruct (m s) as [[]]. Qed.
Lemma preserves_iter {A} (f : A → SM S unit) l :
  (∀ a, preserves P (f a)) → preserves P (SM_iter f l).
Proof.
  intros Hf. induction l as [|x l IH]; cbn; [apply preserves_ret|].
  apply (preserves_bind (f x) (λ _, SM_iter f l)); auto.
Qed.
End Preserves.
#[export] Hint Resolve preserves_ret preserves_lift preserves_fail preserves_get
  preserves_bind preserves_try preserves_ignore preserves_map_err preserves_iter : go.

Lemma preserves_weaken {S A} (P Q : S → S → Prop) (m : SM S A) :
  (∀ s s', P s s' → Q s s') → preserves P m → preserves Q m.
Proof. intros Hpq Hm s. apply Hpq, Hm. Qed.

(** Decomposes [preserves P m] along the monad's combinators; the leaves are
    what the tactic [leaf] solves. *)
Ltac preserve_with leaf :=
  repeat lazymatch goal with
    | |- ∀ _, _ => intro
    | |- preserves _ (mret _) => apply preserves_ret; exact _
    | |- preserves _ (SM_lift _) => apply preserves_lift; exact _
    | |- preserves _ (SM_fail _) => apply preserves_fail; exact _
    | |- preserves _ (SM_get _) => apply preserves_get; exact _
    | |- preserves _ (mbind _ _) => apply preserves_bind; [exact _| |intros ?]
    | |- preserves _ (SM_iter _ _) => apply preserves_iter; [exact _|intros ?]
    | |- preserves _ (SM_try _) => apply preserves_try
    | |- preserves _ (SM_ignore _) => apply preserves_ignore
    | |- preserves _ (SM_wrap _ _) => apply preserves_map_err
    | |- preserves _ (SM_map_err _ _) => apply preserves_map_err
    | |- preserves _ (match _ with _ => _ end) => case_match
    | |- _ => solve [leaf ()]
    end.

(** Runs one hypothesis [m s = (Ok _, _)] or [(Fail _, _)] forward. *)
Ltac run_ok H :=
  let a := fresh "v" in let s := fresh "s" in
  let H1 := fresh "Hrun" in
  apply bind_ok_inv in H as (a & s & H1 & H).

Ltac go_inv H := cbv [SM_lift SM_ret SM_fail SM_get mret SM_mret] in H; simplify_eq H.
