(* ===== verification/GoFloat.v ===== *)
(** * Go's [float64]

    IEEE 754 binary64 with round-to-nearest-even, on the kernel-checked
    [SpecFloat] implementation: the four operations, comparison, the
    conversions [float64(int64)] and [int64(float64)], and [math.Round].
    The lemmas relate the operations to exact integer arithmetic. *)
From stdpp Require Import base decidable list.
From Stdlib Require Import ZArith Lia SpecFloat.
From S2P Require Import Prelude.
Open Scope Z_scope.

Definition prec := 53.
Definition emax := 1024.

Abbreviation float64 := spec_float.

Declare Scope f64_scope.
Delimit Scope f64_scope with f64.

Definition fadd : float64 → float64 → float64 := SFadd prec emax.
Definition fsub : float64 → float64 → float64 := SFsub prec emax.
Definition fmul : float64 → float64 → float64 := SFmul prec emax.
Definition fdiv : float64 → float64 → float64 := SFdiv prec emax.
Definition fneg : float64 → float64 := SFopp.
Definition fabs : float64 → float64 := SFabs.
Definition fltb : float64 → float64 → bool := SFltb.
Definition fleb : float64 → float64 → bool := SFleb.
Definition feqb : float64 → float64 → bool := SFeqb.

Infix "+" := fadd : f64_scope.
Infix "-" := fsub : f64_scope.
Infix "*" := fmul : f64_scope.
Infix "/" := fdiv : f64_scope.
Infix "<?" := fltb : f64_scope.
Infix "<=?" := fleb : f64_scope.
Infix "=?" := feqb : f64_scope.

(** [float64(i)] for an integer [i]. *)
Definition f64_of_Z (z : Z) : float64 := binary_normalize prec emax z 0 false.

Definition f0 : float64 := S754_zero false.
Definition f1 : float64 := Eval vm_compute in f64_of_Z 1.
Definition f100 : float64 := Eval vm_compute in f64_of_Z 100.

(** A decimal literal [m * 10^-d], correctly rounded. *)
Definition f64_dec (m : Z) (d : nat) : float64 :=
  fdiv (f64_of_Z m) (f64_of_Z (10 ^ Z.of_nat d)).

Definition is_finite (x : float64) : bool :=
  match x with S754_zero _ | S754_finite _ _ _ => true | _ => false end.
Definition is_nan (x : float64) : bool :=
  match x with S754_nan => true | _ => false end.
Definition valid (x : float64) : bool := valid_binary prec emax x.

(** [math.Round]: half away from zero; infinities, NaN and signed zeros are
    returned unchanged. *)
Definition fround (x : float64) : float64 :=
  match x with
  | S754_finite s m e =>
      if 0 <=? e then x
      else
        let d := 2 ^ (- e) in
        let q := (2 * Zpos m + d) / (2 * d) in
        binary_normalize prec emax (cond_Zopp s q) 0 s
  | _ => x
  end.

(** [int64(f)]: truncation toward zero.  Go leaves the conversion of an
    out-of-range value implementation-dependent; the value given is amd64's. *)
Definition min_int64 : Z := - 2 ^ 63.
Definition max_int64 : Z := 2 ^ 63 - 1.
Definition f64_to_int64 (x : float64) : Z :=
  match x with
  | S754_zero _ => 0
  | S754_finite s m e =>
      let a := if 0 <=? e then Zpos m * 2 ^ e else Zpos m / 2 ^ (- e) in
      let v := cond_Zopp s a in
      if (min_int64 <=? v) && (v <=? max_int64) then v else min_int64
  | _ => min_int64
  end.

(** ** Exact values

    A finite binary64 value is an integer multiple of [2^-1074]; [fval] is
    that integer. *)
Definition eminz : Z := -1074.

Definition fval (x : float64) : Z :=
  match x with
  | S754_finite s m e => cond_Zopp s (Zpos m * 2 ^ (e - eminz))
  | _ => 0
  end.

Lemma emin_eq : emin prec emax = eminz.
Proof. reflexivity. Qed.

Lemma fexp_eq e : fexp prec emax e = Z.max (e - 53) eminz.
Proof. reflexivity. Qed.

Lemma digits2_pos_bounds m :
  2 ^ (Zpos (digits2_pos m) - 1) <= Zpos m < 2 ^ Zpos (digits2_pos m).
Proof.
  induction m as [p IH|p IH|]; cbn [digits2_pos]; [| |cbn; lia].
  - rewrite Pos2Z.inj_succ, Z.pow_succ_r by lia.
    replace (Z.succ (Zpos (digits2_pos p)) - 1) with (Z.succ (Zpos (digits2_pos p) - 1)) by lia.
    rewrite Z.pow_succ_r by lia. lia.
  - rewrite Pos2Z.inj_succ, Z.pow_succ_r by lia.
    replace (Z.succ (Zpos (digits2_pos p)) - 1) with (Z.succ (Zpos (digits2_pos p) - 1)) by lia.
    rewrite Z.pow_succ_r by lia. lia.
Qed.

Lemma digits_le m n : 0 <= n → Zpos m < 2 ^ n → Zpos (digits2_pos m) <= n.
Proof.
  intros Hn Hm. pose proof (digits2_pos_bounds m).
  assert (2 ^ (Zpos (digits2_pos m) - 1) < 2 ^ n) by lia.
  apply Z.pow_lt_mono_r_iff in H0; lia.
Qed.

Lemma digits_ge m n : 0 <= n → 2 ^ n <= Zpos m → n < Zpos (digits2_pos m).
Proof.
  intros Hn Hm. pose proof (digits2_pos_bounds m).
  assert (2 ^ n < 2 ^ Zpos (digits2_pos m)) by lia.
  apply Z.pow_lt_mono_r_iff in H0; lia.
Qed.

(** The shape of a valid finite number: subnormal exponent, or a full
    53-bit mantissa. *)
Lemma valid_finite_inv s m e :
  valid (S754_finite s m e) = true →
  eminz <= e <= 971 ∧ Zpos m < 2 ^ 53 ∧ (eminz < e → 2 ^ 52 <= Zpos m).
Proof.
  unfold valid, valid_binary, bounded, canonical_mantissa.
  rewrite andb_true_iff, Z.eqb_eq, Z.leb_le, fexp_eq. change (emax - prec) with 971.
  unfold eminz. intros [Hc He].
  pose proof (digits2_pos_bounds m) as [Hlo Hhi].
  assert (Zpos (digits2_pos m) <= 53) by lia.
  split; [lia|]. split.
  - eapply Z.lt_le_trans; [exact Hhi|]. apply Z.pow_le_mono_r; lia.
  - intros. replace (Zpos (digits2_pos m)) with 53 in * by lia. exact Hlo.
Qed.

Lemma valid_finite s m e :
  eminz <= e <= 971 → Zpos m < 2 ^ 53 → (eminz < e → 2 ^ 52 <= Zpos m) →
  valid (S754_finite s m e) = true.
Proof.
  intros He Hm Hn. unfold valid, valid_binary, bounded, canonical_mantissa.
  rewrite andb_true_iff, Z.eqb_eq, Z.leb_le, fexp_eq. change (emax - prec) with 971.
  split; [|lia]. apply digits_le in Hm; [|lia]. unfold eminz in *.
  destruct (decide (-1074 < e)) as [Hlt|Hge]; [|lia].
  specialize (Hn Hlt). apply digits_ge in Hn; lia.
Qed.

(** ** Comparison agrees with the exact values *)
Lemma compare_pos m1 e1 m2 e2 s1 s2 :
  valid (S754_finite s1 m1 e1) = true → valid (S754_finite s2 m2 e2) = true →
  (match e1 ?= e2 with Lt => Lt | Gt => Gt | Eq => Pos.compare_cont Eq m1 m2 end)
  = (Zpos m1 * 2 ^ (e1 - eminz) ?= Zpos m2 * 2 ^ (e2 - eminz)).
Proof.
  intros (He1 & Hm1 & Hn1)%valid_finite_inv (He2 & Hm2 & Hn2)%valid_finite_inv.
  assert (Hpow : ∀ a b ma mb, eminz <= a < b → 0 < ma < 2 ^ 53 → 2 ^ 52 <= mb →
            ma * 2 ^ (a - eminz) < mb * 2 ^ (b - eminz)).
  { intros a b ma mb Hab Hma Hmb.
    assert (2 ^ (b - eminz) = 2 ^ (b - a - 1) * (2 * 2 ^ (a - eminz))) as ->.
    { rewrite <- Z.pow_succ_r, <- Z.pow_add_r by lia. f_equal. lia. }
    assert (0 < 2 ^ (a - eminz)) by (apply Z.pow_pos_nonneg; lia).
    assert (1 <= 2 ^ (b - a - 1)) by (apply (Z.pow_le_mono_r 2 0); lia).
    change (2 ^ 53) with (2 * 2 ^ 52) in Hma.
    clear -Hma Hmb H H0. revert Hma Hmb H H0.
    generalize (2 ^ (a - eminz)) as P, (2 ^ (b - a - 1)) as Q, (2 ^ 52) as K.
    intros P Q K ????. assert (K <= mb * Q) by nia. nia. }
  destruct (Z.compare_spec e1 e2) as [->|Hlt|Hgt]; symmetry.
  - assert (0 < 2 ^ (e2 - eminz)) by (apply Z.pow_pos_nonneg; lia).
    change (Pos.compare_cont Eq m1 m2) with (Zpos m1 ?= Zpos m2).
    symmetry. apply Zmult_compare_compat_r. lia.
  - apply Z.compare_lt_iff, Hpow; lia.
  - apply Z.compare_gt_iff, Hpow; lia.
Qed.

Lemma fval_pos m e : eminz <= e → 0 < Zpos m * 2 ^ (e - eminz).
Proof. intros. assert (0 < 2 ^ (e - eminz)) by (apply Z.pow_pos_nonneg; lia). lia. Qed.

Lemma SFcompare_fval x y :
  valid x = true → valid y = true → is_finite x = true → is_finite y = true →
  SFcompare x y = Some (fval x ?= fval y).
Proof.
  intros Hx Hy Fx Fy.
  destruct x as [sx| | |sx mx ex]; try discriminate Fx;
    destruct y as [sy| | |sy my ey]; try discriminate Fy; cbn [SFcompare fval].
  - reflexivity.
  - apply valid_finite_inv in Hy as (Hy & _). pose proof (fval_pos my ey ltac:(lia)) as Py.
    destruct sy; cbn [cond_Zopp]; f_equal; symmetry; (apply Z.compare_gt_iff; lia) || (apply Z.compare_lt_iff; lia).
  - apply valid_finite_inv in Hx as (Hx & _). pose proof (fval_pos mx ex ltac:(lia)) as Px.
    destruct sx; cbn [cond_Zopp]; f_equal; symmetry; (apply Z.compare_gt_iff; lia) || (apply Z.compare_lt_iff; lia).
  - pose proof (compare_pos _ _ _ _ _ _ Hx Hy) as Hc.
    apply valid_finite_inv in Hx as (Hx & _). pose proof (fval_pos mx ex ltac:(lia)) as Px.
    apply valid_finite_inv in Hy as (Hy & _). pose proof (fval_pos my ey ltac:(lia)) as Py.
    destruct sx, sy; cbn [cond_Zopp]; f_equal.
    + rewrite Z.compare_opp, (Z.compare_antisym (Zpos mx * 2 ^ (ex - eminz))), <- Hc.
      destruct (ex ?= ey); reflexivity.
    + symmetry; apply Z.compare_lt_iff; lia.
    + symmetry; apply Z.compare_gt_iff; lia.
    + exact Hc.
Qed.

(** ** Rounding *)
Lemma iter_pos_nat {A} (f : A → A) p x : iter_pos f p x = Nat.iter (Pos.to_nat p) f x.
Proof.
  assert (H : ∀ p x, iter_pos f p x = Pos.iter f x p).
  { clear. induction p as [p IH|p IH|]; intros x; cbn; [| |done].
    - rewrite !IH. rewrite Pos.iter_swap. by rewrite <- !Pos.iter_swap.
    - by rewrite !IH. }
  rewrite H. apply Pos2Nat.inj_iter.
Qed.

Lemma shr_1_m mrs : 0 <= shr_m mrs → shr_m (shr_1 mrs) = shr_m mrs / 2.
Proof.
  destruct mrs as [[|[p|p|]|p] r s]; cbn; intros; try lia; try reflexivity.
  - rewrite (Pos2Z.inj_xI p). rewrite Z.mul_comm, Z.div_add_l by lia.
    change (1 / 2) with 0. lia.
  - rewrite (Pos2Z.inj_xO p), Z.mul_comm, Z.div_mul by lia. done.
Qed.

Lemma shr_iter_m p mrs : 0 <= shr_m mrs →
  shr_m (iter_pos shr_1 p mrs) = shr_m mrs / 2 ^ Zpos p.
Proof.
  intros H. rewrite iter_pos_nat, <- (positive_nat_Z p).
  induction (Pos.to_nat p) as [|n IH]; [by rewrite Z.pow_0_r, Z.div_1_r|].
  change (Nat.iter (S n) shr_1 mrs) with (shr_1 (Nat.iter n shr_1 mrs)).
  assert (0 < 2 ^ Z.of_nat n) by (apply Z.pow_pos_nonneg; lia).
  rewrite shr_1_m, IH, Nat2Z.inj_succ, Z.pow_succ_r by
    (try lia; rewrite IH; apply Z.div_pos; lia).
  rewrite (Z.mul_comm 2), Z.div_div by lia. done.
Qed.

Lemma shr_nonneg mrs e k : 0 <= k → 0 <= shr_m mrs →
  shr_m (fst (shr mrs e k)) = shr_m mrs / 2 ^ k ∧ snd (shr mrs e k) = e + k.
Proof.
  intros Hk Hm. destruct k as [|p|p]; cbn [shr fst snd]; [|by rewrite shr_iter_m|lia].
  rewrite Z.pow_0_r, Z.div_1_r. lia.
Qed.

Lemma shr_record_of_loc_m m l : shr_m (shr_record_of_loc m l) = m.
Proof. by destruct l as [|[]]. Qed.

Lemma round_nearest_even_range m l : m <= round_nearest_even m l <= m + 1.
Proof. destruct l as [|[]]; cbn; try case_match; lia. Qed.

Definition digits (z : Z) : Z := Zdigits2 z.

Lemma digits_bounds z : 0 < z → 2 ^ (digits z - 1) <= z < 2 ^ digits z.
Proof. destruct z; try lia. intros _. apply digits2_pos_bounds. Qed.

Lemma digits_pos z : 0 < z → 0 < digits z.
Proof. destruct z; try lia. intros _. cbn. lia. Qed.

Lemma digits_eq z d : 0 < d → 2 ^ (d - 1) <= z < 2 ^ d → digits z = d.
Proof.
  intros Hd [Hlo Hhi]. assert (0 < 2 ^ (d - 1)) by (apply Z.pow_pos_nonneg; lia).
  destruct z as [|p|p]; try lia. cbn.
  apply digits_le in Hhi; [|lia]. apply digits_ge in Hlo; lia.
Qed.

(** The first shift of a rounding keeps at most 53 significant bits, and
    exactly 53 unless the exponent bottoms out. *)
Lemma first_shift m e k :
  0 < m → k = fexp prec emax (digits m + e) - e → 0 <= k →
  let m1 := m / 2 ^ k in
  0 <= m1 < 2 ^ 53 ∧ eminz <= e + k ∧ (eminz < e + k → 2 ^ 52 <= m1) ∧
  (eminz <= e → 0 < m1).
Proof.
  intros Hm Hk Hk0 m1. rewrite fexp_eq in Hk. pose proof (digits_bounds m Hm) as [Hlo Hhi].
  pose proof (digits_pos m Hm) as Hd.
  assert (Hpk : 0 < 2 ^ k) by (apply Z.pow_pos_nonneg; lia).
  unfold m1. repeat split.
  - apply Z.div_pos; lia.
  - apply Z.div_lt_upper_bound; [lia|]. eapply Z.lt_le_trans; [exact Hhi|].
    rewrite <- Z.pow_add_r by lia. apply Z.pow_le_mono_r; lia.
  - unfold eminz in *. lia.
  - intros He. apply Z.div_le_lower_bound; [lia|]. rewrite <- Z.pow_add_r by lia.
    etrans; [|exact Hlo]. apply Z.pow_le_mono_r; lia.
  - intros He. assert (k < digits m) by lia.
    apply Z.div_str_pos. split; [lia|]. etrans; [|exact Hlo]. apply Z.pow_le_mono_r; lia.
Qed.

(** The second shift renormalises a mantissa that rounded up to [2^53]. *)
Lemma second_shift m e :
  0 < m <= 2 ^ 53 → eminz <= e → (eminz < e → 2 ^ 52 <= m) →
  let k := fexp prec emax (digits m + e) - e in
  (k = 0 ∧ m < 2 ^ 53) ∨ (k = 1 ∧ m = 2 ^ 53).
Proof.
  intros Hm He Hn k. unfold k. rewrite fexp_eq.
  destruct (decide (m = 2 ^ 53)) as [->|Hne].
  - right. split; [|done]. rewrite (digits_eq (2 ^ 53) 54) by lia. unfold eminz in *. lia.
  - left. split; [|lia]. pose proof (digits_bounds m ltac:(lia)) as [Hlo Hhi].
    assert (digits m <= 53).
    { assert (Hlt : 2 ^ (digits m - 1) < 2 ^ 53) by lia. apply Z.pow_lt_mono_r_iff in Hlt; lia. }
    unfold eminz in *. destruct (decide (-1074 < e)) as [Hlt|]; [|lia].
    rewrite (digits_eq m 53) by lia. lia.
Qed.

(** What a rounding of a positive mantissa can return. *)
Lemma round_aux_spec s m e l :
  0 < m → e <= fexp prec emax (digits m + e) →
  let r := binary_round_aux prec emax s m e l in
  valid r = true ∧
  (r = S754_zero s ∨ r = S754_infinity s ∨ ∃ m' e', r = S754_finite s m' e') ∧
  (eminz <= e → r ≠ S754_zero s).
Proof.
  intros Hm He r. unfold r, binary_round_aux, shr_fexp. fold (digits m).
  set (k := fexp prec emax (digits m + e) - e).
  pose proof (first_shift m e k Hm eq_refl ltac:(lia)) as (Hm1 & He1 & Hn1 & Hz1).
  pose proof (shr_nonneg (shr_record_of_loc m l) e k ltac:(lia)) as Hs.
  rewrite shr_record_of_loc_m in Hs. specialize (Hs ltac:(lia)) as [Hs1 Hs2].
  destruct (shr _ e k) as [mrs1 e1]; cbn [fst snd] in *. subst e1. rewrite Hs1.
  pose proof (round_nearest_even_range (m / 2 ^ k) (loc_of_shr_record mrs1)) as Hr.
  set (m2 := round_nearest_even _ _) in *. fold (digits m2).
  destruct (decide (m2 = 0)) as [Hz|Hnz].
  { rewrite Hz. change (digits 0) with 0. rewrite fexp_eq.
    assert (e + k = eminz) as ->.
    { destruct (decide (eminz < e + k)) as [Hl|]; [|lia]. specialize (Hn1 Hl). lia. }
    cbn. split; [done|]. split; [by left|]. intros. specialize (Hz1 ltac:(lia)). lia. }
  pose proof (second_shift m2 (e + k) ltac:(lia) He1 ltac:(lia)) as Hk2. cbv zeta in Hk2.
  pose proof (shr_nonneg (shr_record_of_loc m2 loc_Exact) (e + k)
    (fexp prec emax (digits m2 + (e + k)) - (e + k)) ltac:(lia)) as Ht.
  rewrite shr_record_of_loc_m in Ht. specialize (Ht ltac:(lia)) as [Ht1 Ht2].
  destruct (shr _ (e + k) _) as [mrs2 e2]; cbn [fst snd] in *. subst e2. rewrite Ht1.
  change (emax - prec) with 971.
  assert (Hm3 : ∃ m3 e3, m2 / 2 ^ (fexp prec emax (digits m2 + (e + k)) - (e + k)) = Zpos m3 ∧
     e + k + (fexp prec emax (digits m2 + (e + k)) - (e + k)) = e3 ∧
     Zpos m3 < 2 ^ 53 ∧ eminz <= e3 ∧ (eminz < e3 → 2 ^ 52 <= Zpos m3)).
  { destruct Hk2 as [[-> Hlt]|[-> ->]].
    - rewrite Z.pow_0_r, Z.div_1_r. destruct m2 as [|m3|m3]; try lia.
      exists m3, (e + k). repeat split; try lia.
    - exists (2 ^ 52)%positive, (e + k + 1). repeat split; try lia. }
  destruct Hm3 as (m3 & e3 & -> & -> & Hv1 & Hv2 & Hv3).
  destruct (Z.leb_spec e3 971) as [Hle|Hgt].
  - split; [by apply valid_finite|]. split; [eauto 6|done].
  - split; [done|]. split; [eauto|done].
Qed.

Lemma iter_xO d p : Zpos (Pos.iter xO p d) = Zpos p * 2 ^ Zpos d.
Proof.
  rewrite <- (positive_nat_Z d), Pos2Nat.inj_iter.
  induction (Pos.to_nat d) as [|n IH]; [rewrite Z.pow_0_r; cbn; lia|].
  cbn [nat_rect]. rewrite Pos2Z.inj_xO, IH, Nat2Z.inj_succ, Z.pow_succ_r by lia. lia.
Qed.

Lemma shl_align_spec m e e' mz ez :
  shl_align m e e' = (mz, ez) →
  ez = Z.min e e' ∧ Zpos mz = Zpos m * 2 ^ (e - ez).
Proof.
  unfold shl_align. destruct (e' - e) as [|d|d] eqn:Hd; intros [= <- <-].
  - rewrite Z.sub_diag, Z.pow_0_r. lia.
  - rewrite Z.sub_diag, Z.pow_0_r. lia.
  - split; [lia|]. rewrite iter_xO. f_equal. f_equal. lia.
Qed.

Lemma digits_shift m k : 0 < m → 0 <= k → digits (m * 2 ^ k) = digits m + k.
Proof.
  intros Hm Hk. pose proof (digits_bounds m Hm) as [Hlo Hhi]. pose proof (digits_pos m Hm).
  apply digits_eq; [lia|].
  replace (digits m + k - 1) with (digits m - 1 + k) by lia.
  rewrite !Z.pow_add_r by lia.
  assert (0 < 2 ^ k) by (apply Z.pow_pos_nonneg; lia).
  split; [apply Z.mul_le_mono_nonneg_r|apply Z.mul_lt_mono_pos_r]; lia.
Qed.

Lemma binary_round_spec s m e :
  let r := binary_round prec emax s m e in
  valid r = true ∧
  (r = S754_zero s ∨ r = S754_infinity s ∨ ∃ m' e', r = S754_finite s m' e') ∧
  (eminz <= e → r ≠ S754_zero s).
Proof.
  unfold binary_round.
  destruct (shl_align m e _) as [mz ez] eqn:Hs. apply shl_align_spec in Hs as [Hez Hmz].
  assert (Hd : digits (Zpos mz) = digits (Zpos m) + (e - ez)).
  { rewrite Hmz. apply digits_shift; lia. }
  change (Zpos (digits2_pos m)) with (digits (Zpos m)) in Hez.
  rewrite fexp_eq in Hez.
  destruct (round_aux_spec s (Zpos mz) ez loc_Exact) as (Hv & Hc & Hz);
    [lia|rewrite fexp_eq, Hd; lia|].
  split; [exact Hv|]. split; [exact Hc|]. intros He. apply Hz. unfold eminz in *. lia.
Qed.

(** Sign of a normalised sum: the sign of the exact one. *)
Definition sign_of (x : float64) : comparison :=
  match x with
  | S754_zero _ => Eq
  | S754_finite s _ _ | S754_infinity s => if s then Lt else Gt
  | S754_nan => Eq
  end.

Lemma normalize_spec m e z :
  eminz <= e →
  let r := binary_normalize prec emax m e z in
  valid r = true ∧ is_nan r = false ∧ sign_of r = (m ?= 0).
Proof.
  intros He. destruct m as [|m|m]; cbn [binary_normalize]; [done| |].
  - destruct (binary_round_spec false m e) as (Hv & Hc & Hz). specialize (Hz He).
    destruct Hc as [Hc|[Hc|(m' & e' & Hc)]]; rewrite Hc in *; done.
  - destruct (binary_round_spec true m e) as (Hv & Hc & Hz). specialize (Hz He).
    destruct Hc as [Hc|[Hc|(m' & e' & Hc)]]; rewrite Hc in *; done.
Qed.

Lemma cond_Zopp_mul s a b : cond_Zopp s (a * b) = cond_Zopp s a * b.
Proof. destruct s; cbn; lia. Qed.

(** Subtraction never loses the sign of the exact difference: gradual
    underflow makes [x - y < 0] and [x < y] the same test. *)
Lemma fsub_spec x y :
  valid x = true → valid y = true → is_finite x = true → is_finite y = true →
  valid (fsub x y) = true ∧ is_nan (fsub x y) = false ∧
  sign_of (fsub x y) = (fval x ?= fval y).
Proof.
  intros Hx Hy Fx Fy.
  destruct x as [sx| | |sx mx ex]; try discriminate Fx;
    destruct y as [sy| | |sy my ey]; try discriminate Fy; cbn [fsub SFsub fval sign_of].
  - by destruct sx, sy.
  - split; [exact Hy|]. split; [done|].
    apply valid_finite_inv in Hy as (Hy & _). pose proof (fval_pos my ey ltac:(lia)) as Py.
    destruct sy; cbn [cond_Zopp negb]; symmetry;
      (apply Z.compare_gt_iff; lia) || (apply Z.compare_lt_iff; lia).
  - split; [exact Hx|]. split; [done|].
    apply valid_finite_inv in Hx as (Hx & _). pose proof (fval_pos mx ex ltac:(lia)) as Px.
    destruct sx; cbn [cond_Zopp]; symmetry;
      (apply Z.compare_gt_iff; lia) || (apply Z.compare_lt_iff; lia).
  - apply valid_finite_inv in Hx as (Hx & _). apply valid_finite_inv in Hy as (Hy & _).
    cbn [fsub SFsub]. set (ez := Z.min ex ey).
    destruct (shl_align mx ex ez) as [mx' ex'] eqn:Ex. apply shl_align_spec in Ex as [Ex Mx].
    destruct (shl_align my ey ez) as [my' ey'] eqn:Ey. apply shl_align_spec in Ey as [Ey My].
    cbn [fst].
    pose proof (normalize_spec (cond_Zopp sx (Zpos mx') - cond_Zopp sy (Zpos my')) ez false ltac:(lia))
      as (Hv & Hn & Hs).
    unfold fsub. cbn [SFsub]. fold ez.
    split; [exact Hv|]. split; [exact Hn|]. cbv zeta in Hs. rewrite Hs.
    assert (0 < 2 ^ (ez - eminz)) by (apply Z.pow_pos_nonneg; lia).
    replace (ex - eminz) with ((ex - ez) + (ez - eminz)) by lia.
    replace (ey - eminz) with ((ey - ez) + (ez - eminz)) by lia.
    rewrite !Z.pow_add_r by lia. rewrite !Z.mul_assoc, !cond_Zopp_mul.
    replace ex' with ez in Mx by lia. replace ey' with ez in My by lia.
    rewrite <- !cond_Zopp_mul, <- Mx, <- My, !cond_Zopp_mul.
    rewrite <- Zmult_compare_compat_r by lia.
    symmetry. apply Z.compare_sub.
Qed.

(** Addition is subtraction of the opposite. *)
Lemma fneg_valid x : valid (fneg x) = valid x.
Proof. by destruct x. Qed.
Lemma fneg_finite x : is_finite (fneg x) = is_finite x.
Proof. by destruct x. Qed.
Lemma fneg_fval x : fval (fneg x) = - fval x.
Proof. destruct x as [| | |[] m e]; cbn [fneg SFopp fval negb cond_Zopp]; lia. Qed.
Lemma fneg_involutive x : fneg (fneg x) = x.
Proof. destruct x as [[]|[]| |[] m e]; done. Qed.

Lemma fadd_valid x y :
  valid x = true → valid y = true → valid (fadd x y) = true.
Proof.
  intros Hx Hy.
  destruct x as [sx|sx| |sx mx ex], y as [sy|sy| |sy my ey]; unfold fadd; cbn [SFadd];
    try done; try (by destruct sx, sy).
  apply valid_finite_inv in Hx as (Hx & _). apply valid_finite_inv in Hy as (Hy & _).
  apply normalize_spec. lia.
Qed.

Lemma fsub_valid x y :
  valid x = true → valid y = true → valid (fsub x y) = true.
Proof.
  intros Hx Hy.
  destruct x as [sx|sx| |sx mx ex], y as [sy|sy| |sy my ey]; unfold fsub; cbn [SFsub];
    try done; try (by destruct sx, sy).
  apply valid_finite_inv in Hx as (Hx & _). apply valid_finite_inv in Hy as (Hy & _).
  apply normalize_spec. lia.
Qed.

Lemma fmul_valid x y :
  valid x = true → valid y = true → valid (fmul x y) = true.
Proof.
  intros Hx Hy.
  destruct x as [sx|sx| |sx mx ex], y as [sy|sy| |sy my ey]; unfold fmul; cbn [SFmul];
    try done.
  apply valid_finite_inv in Hx as (Hx & Hmx & Hnx).
  apply valid_finite_inv in Hy as (Hy & Hmy & Hny).
  apply round_aux_spec; [lia|].
  rewrite fexp_eq. unfold eminz in *.
  destruct (decide (ex + ey <= -1074)); [lia|].
  assert (53 <= digits (Zpos (mx * my))); [|lia].
  assert (Hb : 2 ^ 52 <= Zpos (mx * my)).
  { rewrite Pos2Z.inj_mul. destruct (decide (-1074 < ex)).
    - specialize (Hnx ltac:(lia)). nia.
    - specialize (Hny ltac:(lia)). nia. }
  apply digits_ge in Hb; [cbn; lia|lia].
Qed.

(** Results that fit are exact. *)
Lemma round_exact s m e :
  Zpos m < 2 ^ 53 → eminz <= e <= 971 →
  let r := binary_round prec emax s m e in
  is_finite r = true ∧ fval r = cond_Zopp s (Zpos m * 2 ^ (e - eminz)).
Proof.
  intros Hm He. unfold binary_round.
  destruct (shl_align m e _) as [mz ez] eqn:Hs. apply shl_align_spec in Hs as [Hez Hmz].
  assert (Hd : digits (Zpos mz) = digits (Zpos m) + (e - ez)).
  { rewrite Hmz. apply digits_shift; lia. }
  change (Zpos (digits2_pos m)) with (digits (Zpos m)) in Hez. rewrite fexp_eq in Hez.
  pose proof (digits_le m 53 ltac:(lia) Hm) as Hdm.
  change (Zpos (digits2_pos m)) with (digits (Zpos m)) in Hdm.
  assert (Hk : fexp prec emax (digits (Zpos mz) + ez) - ez = 0) by (rewrite fexp_eq, Hd; lia).
  unfold binary_round_aux, shr_fexp. fold (digits (Zpos mz)). rewrite Hk.
  cbn [shr shr_m shr_record_of_loc loc_of_shr_record round_nearest_even].
  fold (digits (Zpos mz)). rewrite Hk. cbn [shr shr_m shr_record_of_loc].
  change (emax - prec) with 971. rewrite (proj2 (Z.leb_le ez 971)) by (unfold eminz in *; lia).
  split; [done|]. cbn [fval]. rewrite Hmz, <- Z.mul_assoc, <- Z.pow_add_r by (unfold eminz in *; lia).
  do 2 f_equal. f_equal. lia.
Qed.

Lemma f64_of_Z_exact z :
  Z.abs z < 2 ^ 53 →
  is_finite (f64_of_Z z) = true ∧ fval (f64_of_Z z) = z * 2 ^ 1074.
Proof.
  intros Hz. unfold f64_of_Z. destruct z as [|m|m]; cbn [binary_normalize]; [done| |].
  - apply (round_exact false m 0); unfold eminz; lia.
  - destruct (round_exact true m 0) as [Hf Hv]; [lia|unfold eminz; lia|].
    split; [exact Hf|]. rewrite Hv. unfold eminz. cbn [cond_Zopp]. lia.
Qed.

Lemma f64_of_Z_valid z : valid (f64_of_Z z) = true.
Proof. apply normalize_spec. unfold eminz. lia. Qed.

(** [<], [<=] and [==] against the exact values. *)
Section Order.
Context (x y : float64).
Hypothesis (Vx : valid x = true) (Vy : valid y = true).
Hypothesis (Fx : is_finite x = true) (Fy : is_finite y = true).

Lemma fltb_fval : fltb x y = (fval x <? fval y).
Proof. unfold fltb, SFltb. rewrite SFcompare_fval by done. unfold Z.ltb. by destruct (_ ?= _). Qed.
Lemma fleb_fval : fleb x y = (fval x <=? fval y).
Proof. unfold fleb, SFleb. rewrite SFcompare_fval by done. unfold Z.leb. by destruct (_ ?= _). Qed.
Lemma feqb_fval : feqb x y = (fval x =? fval y).
Proof.
  unfold feqb, SFeqb. rewrite SFcompare_fval by done.
  rewrite Z.eqb_compare. by destruct (_ ?= _).
Qed.

Lemma fsub_ltb_zero : fltb (fsub x y) f0 = fltb x y.
Proof.
  destruct (fsub_spec x y Vx Vy Fx Fy) as (Hv & Hn & Hs).
  rewrite fltb_fval. unfold fltb, SFltb, f0, Z.ltb.
  destruct (fsub x y) as [s|s| |s m e]; cbn in *; try done; rewrite <- Hs; by destruct s.
Qed.
Lemma fsub_eqb_zero : feqb (fsub x y) f0 = feqb x y.
Proof.
  destruct (fsub_spec x y Vx Vy Fx Fy) as (Hv & Hn & Hs).
  rewrite feqb_fval. unfold feqb, SFeqb, f0. rewrite Z.eqb_compare.
  destruct (fsub x y) as [s|s| |s m e]; cbn in *; try done; rewrite <- Hs; by destruct s.
Qed.
End Order.

(** ** The order, on any floats that are numbers *)
Lemma SFcompare_sym x y : SFcompare y x = option_map CompOpp (SFcompare x y).
Proof.
  destruct x as [[]|[]| |[] m e], y as [[]|[]| |[] m' e']; cbn; try done.
  - rewrite (Z.compare_antisym e e'). destruct (e ?= e'); cbn; try done. rewrite (Pos.compare_cont_antisym m m' Eq). cbn. by destruct (Pos.compare_cont Eq m m').
  - rewrite (Z.compare_antisym e e'). destruct (e ?= e'); cbn; try done. rewrite (Pos.compare_cont_antisym m m' Eq). cbn. by destruct (Pos.compare_cont Eq m m').
Qed.
Lemma SFcompare_some x y : is_nan x = false → is_nan y = false → SFcompare x y <> None.
Proof. destruct x as [[]|[]| |[] m e], y as [[]|[]| |[] m' e']; cbn; try done; intros _ _; by destruct (e ?= e'). Qed.
Lemma fleb_of_not_fltb x y : is_nan x = false → is_nan y = false → fltb x y = false → fleb y x = true.
Proof.
  intros Hx Hy. unfold fltb, fleb, SFltb, SFleb. rewrite (SFcompare_sym x y).
  destruct (SFcompare x y) as [[]|] eqn:E; cbn; try done. by destruct (SFcompare_some x y Hx Hy).
Qed.
Lemma fleb_refl x : is_nan x = false → fleb x x = true.
Proof.
  intros Hx. apply fleb_of_not_fltb; [done..|]. unfold fltb, SFltb. pose proof (SFcompare_sym x x) as H.
  destruct (SFcompare x x) as [[]|]; done.
Qed.
Lemma fleb_of_fltb x y : fltb x y = true → fleb x y = true.
Proof. unfold fltb, fleb, SFltb, SFleb. by destruct (SFcompare x y) as [[]|]. Qed.
