(* ===== verification/GoCrypto.v ===== *)
(** * The cryptography the gateway code uses

    [crypto/sha256], [crypto/hmac] and [encoding/hex] of Go's standard
    library, on Go strings (byte strings): SHA-256 and HMAC-SHA256 as
    FIPS 180-4 and RFC 2104 define them, checked against their published
    test vectors, and the hexadecimal codec with its round trip. *)
From stdpp Require Import base decidable list strings option.
From Stdlib Require Import ZArith Lia String Ascii.
From S2P Require Import Prelude.
Open Scope Z_scope.

(** ** Bytes *)
Definition byte_of (z : Z) : ascii := ascii_of_N (Z.to_N (z mod 256)).
Definition byte_val (c : ascii) : Z := Z.of_N (N_of_ascii c).
Definition bytes (s : string) : list Z := map byte_val (list_ascii_of_string s).
Definition of_bytes (l : list Z) : string := string_of_list_ascii (map byte_of l).

Lemma byte_val_range c : 0 <= byte_val c < 256.
Proof. destruct c as [[] [] [] [] [] [] [] []]; split; vm_compute; congruence. Qed.

Lemma byte_of_val c : byte_of (byte_val c) = c.
Proof. destruct c as [[] [] [] [] [] [] [] []]; reflexivity. Qed.

Lemma of_bytes_bytes s : of_bytes (bytes s) = s.
Proof.
  unfold of_bytes, bytes. rewrite map_map.
  erewrite map_ext; [|intros c; apply byte_of_val].
  by rewrite map_id, string_of_list_ascii_of_string.
Qed.

(** ** SHA-256 *)
Module Sha256.

Definition w32 (z : Z) : Z := Z.land z 4294967295.
Definition rotr (n x : Z) : Z := Z.lor (Z.shiftr x n) (w32 (Z.shiftl x (32 - n))).
Definition ch (x y z : Z) : Z := Z.lxor (Z.land x y) (Z.land (Z.lxor x 4294967295) z).
Definition maj (x y z : Z) : Z := Z.lxor (Z.lxor (Z.land x y) (Z.land x z)) (Z.land y z).
Definition bsig0 (x : Z) : Z := Z.lxor (Z.lxor (rotr 2 x) (rotr 13 x)) (rotr 22 x).
Definition bsig1 (x : Z) : Z := Z.lxor (Z.lxor (rotr 6 x) (rotr 11 x)) (rotr 25 x).
Definition ssig0 (x : Z) : Z := Z.lxor (Z.lxor (rotr 7 x) (rotr 18 x)) (Z.shiftr x 3).
Definition ssig1 (x : Z) : Z := Z.lxor (Z.lxor (rotr 17 x) (rotr 19 x)) (Z.shiftr x 10).

(** The constants are the first 32 fractional bits of the cube roots of the
    first 64 primes, and of the square roots of the first eight. *)
Definition is_prime (n : Z) : bool :=
  forallb (λ d, negb (n mod Z.of_nat d =? 0)) (List.seq 2 (Z.to_nat (Z.sqrt n - 1))).
Definition primes : list Z :=
  filter (λ n, is_prime n = true) (map Z.of_nat (List.seq 2 310)).
Definition fraction_bits (root : Z → Z) (p : Z) : Z := w32 (root p).

(** The integer cube root, bit by bit from bit [n]. *)
Fixpoint cbrt_from (n : nat) (x r : Z) : Z :=
  match n with
  | O => r
  | Datatypes.S n =>
      let r' := r + 2 ^ Z.of_nat n in
      cbrt_from n x (if r' * r' * r' <=? x then r' else r)
  end.

Definition K : list Z := Eval vm_compute in
  map (fraction_bits (λ p, cbrt_from 40 (p * 2 ^ 96) 0)) primes.

Record state := mkSt { sa : Z; sb : Z; sc : Z; sd : Z; se : Z; sf : Z; sg : Z; sh : Z }.
Definition H0 : state := Eval vm_compute in
  match map (fraction_bits (λ p, Z.sqrt (p * 2 ^ 64))) primes with
  | a :: b :: c :: d :: e :: f :: g :: h :: _ => mkSt a b c d e f g h
  | _ => mkSt 0 0 0 0 0 0 0 0
  end.

(** The message schedule, newest word first. *)
Fixpoint schedule (n : nat) (w : list Z) : list Z :=
  match n with
  | O => w
  | Datatypes.S n =>
      schedule n (w32 (ssig1 (nth 1 w 0) + nth 6 w 0 + ssig0 (nth 14 w 0) + nth 15 w 0) :: w)
  end.

Definition round (s : state) (kw : Z * Z) : state :=
  let t1 := w32 (sh s + bsig1 (se s) + ch (se s) (sf s) (sg s) + fst kw + snd kw) in
  let t2 := w32 (bsig0 (sa s) + maj (sa s) (sb s) (sc s)) in
  mkSt (w32 (t1 + t2)) (sa s) (sb s) (sc s) (w32 (sd s + t1)) (se s) (sf s) (sg s).

Definition add_state (s t : state) : state :=
  mkSt (w32 (sa s + sa t)) (w32 (sb s + sb t)) (w32 (sc s + sc t)) (w32 (sd s + sd t))
    (w32 (se s + se t)) (w32 (sf s + sf t)) (w32 (sg s + sg t)) (w32 (sh s + sh t)).

Definition compress (s : state) (block : list Z) : state :=
  add_state s (foldl round s (combine K (rev (schedule 48 (rev block))))).

(** Big-endian words. *)
Definition be32 (z : Z) : list Z :=
  [Z.land (Z.shiftr z 24) 255; Z.land (Z.shiftr z 16) 255; Z.land (Z.shiftr z 8) 255; Z.land z 255].
Fixpoint words (l : list Z) : list Z :=
  match l with
  | a :: b :: c :: d :: l => (((a * 256 + b) * 256 + c) * 256 + d) :: words l
  | _ => []
  end.

(** [0x80], zeros up to 56 modulo 64, and the length in bits. *)
Definition padding (len : Z) : list Z :=
  128 :: repeat 0 (Z.to_nat ((55 - len) mod 64)) ++ be32 (len * 8 / 2 ^ 32) ++ be32 (len * 8).

Fixpoint blocks (n : nat) (w : list Z) (s : state) : state :=
  match n with
  | O => s
  | Datatypes.S n => blocks n (skipn 16 w) (compress s (firstn 16 w))
  end.

Definition digest (s : state) : list Z :=
  be32 (sa s) ++ be32 (sb s) ++ be32 (sc s) ++ be32 (sd s) ++ be32 (se s) ++ be32 (sf s) ++
  be32 (sg s) ++ be32 (sh s).

Definition sum (msg : list Z) : list Z :=
  let w := words (msg ++ padding (Z.of_nat (List.length msg))) in
  digest (blocks (Nat.div (List.length w) 16) w H0).

Lemma sum_length msg : List.length (sum msg) = 32%nat.
Proof. reflexivity. Qed.
End Sha256.

(** [sha256.Sum256]. *)
Definition sha256 (s : string) : string := of_bytes (Sha256.sum (bytes s)).

(** [hmac.New(sha256.New, key)], [Write(msg)], [Sum(nil)]. *)
Definition hmac_sha256 (key msg : string) : string :=
  let k := bytes key in
  let k := if (64 <? Z.of_nat (List.length k)) then Sha256.sum k else k in
  let k := (k ++ repeat 0 (64 - List.length k))%list in
  of_bytes (Sha256.sum (map (Z.lxor 92) k ++ Sha256.sum (map (Z.lxor 54) k ++ bytes msg))).

(** [hmac.Equal]: the comparison in constant time is the comparison. *)
Definition hmac_Equal (a b : string) : bool := String.eqb a b.

(** ** Hexadecimal *)
Definition hex_digit (n : Z) : ascii := byte_of (if n <? 10 then 48 + n else 87 + n).
Definition hex_value (c : ascii) : option Z :=
  let v := byte_val c in
  if (48 <=? v) && (v <=? 57) then Some (v - 48)
  else if (97 <=? v) && (v <=? 102) then Some (v - 87)
  else if (65 <=? v) && (v <=? 70) then Some (v - 55)
  else None.

(** [hex.EncodeToString]. *)
Fixpoint hex_encode (s : string) : string :=
  match s with
  | EmptyString => EmptyString
  | String c s =>
      String (hex_digit (byte_val c / 16)) (String (hex_digit (byte_val c mod 16)) (hex_encode s))
  end.

(** [hex.DecodeString]; [None] for its error: a byte that is no digit, or an
    odd length. *)
Fixpoint hex_decode (s : string) : option string :=
  match s with
  | EmptyString => Some EmptyString
  | String a (String b s) =>
      match hex_value a, hex_value b, hex_decode s with
      | Some x, Some y, Some t => Some (String (byte_of (16 * x + y)) t)
      | _, _, _ => None
      end
  | String _ EmptyString => None
  end.

Lemma hex_decode_encode s : hex_decode (hex_encode s) = Some s.
Proof.
  induction s as [|c s IH]; [done|]. cbn [hex_encode hex_decode]. rewrite IH.
  destruct c as [[] [] [] [] [] [] [] []]; reflexivity.
Qed.

Lemma hex_decode_length s t : hex_decode s = Some t → String.length s = (2 * String.length t)%nat.
Proof.
  revert t. induction s as [s IH] using (well_founded_induction (Wf_nat.well_founded_ltof _ String.length)).
  intros t. destruct s as [|a [|b s]]; cbn [hex_decode]; [by intros [= <-]|done|].
  destruct (hex_value a), (hex_value b), (hex_decode s) as [u|] eqn:E; try done.
  intros [= <-]. cbn. rewrite (IH s) with (t := u); [lia| |done].
  unfold Wf_nat.ltof. cbn. lia.
Qed.

(** ** Published test vectors *)
Example sha256_abc :
  hex_encode (sha256 "abc") = "ba7816bf8f01cfea414140de5dae2223b00361a396177a9cb410ff61f20015ad"%string.
Proof. vm_compute. reflexivity. Qed.

Example sha256_two_blocks :
  hex_encode (sha256 "abcdbcdecdefdefgefghfghighijhijkijkljklmklmnlmnomnopnopq")
  = "248d6a61d20638b8e5c026930c3e6039a33ce45964ff2167f6ecedd419db06c1"%string.
Proof. vm_compute. reflexivity. Qed.

Example hmac_rfc4231_2 :
  hex_encode (hmac_sha256 "Jefe" "what do ya want for nothing?")
  = "5bdcc146bf60754e6a042426089575c75a003f089d2739839dec58b964ec3843"%string.
Proof. vm_compute. reflexivity. Qed.
