(* ===== verification/Shared.v ===== *)
(** * Shared kernel: [internal/shared]

    Go's 64-bit integers and [time.Time], the string helpers the modelled
    code calls, and the shared value objects: [Money] (money.go), pagination
    (pagination.go) and the tenant of a request (tenant.go). *)
From stdpp Require Import base decidable list strings.
From Stdlib Require Import ZArith Lia Ascii String.
From S2P Require Import Prelude GoFloat.
Open Scope Z_scope.

(** ** [int64] *)
Definition wrap64 (z : Z) : Z := (z + 2 ^ 63) mod 2 ^ 64 - 2 ^ 63.

Lemma wrap64_id z : min_int64 <= z <= max_int64 → wrap64 z = z.
Proof. unfold min_int64, max_int64, wrap64. intros. rewrite Z.mod_small; lia. Qed.

Lemma wrap64_range z : min_int64 <= wrap64 z <= max_int64.
Proof.
  unfold min_int64, max_int64, wrap64.
  pose proof (Z.mod_pos_bound (z + 2 ^ 63) (2 ^ 64) ltac:(lia)). lia.
Qed.

Lemma wrap64_add_l a b : wrap64 (wrap64 a + b) = wrap64 (a + b).
Proof.
  unfold wrap64. f_equal.
  replace ((a + 2 ^ 63) mod 2 ^ 64 - 2 ^ 63 + b + 2 ^ 63)
    with ((a + 2 ^ 63) mod 2 ^ 64 + b) by lia.
  rewrite Zplus_mod_idemp_l. f_equal. lia.
Qed.

(** ** [time.Time]

    An instant, in nanoseconds since Go's zero time (January 1, year 1
    UTC); locations and the monotonic reading are not part of it. *)
Abbreviation Time := Z.
Definition time_IsZero (t : Time) : bool := t =? 0.
Definition Before (t u : Time) : bool := t <? u.
Definition hour : Z := 3600 * 10 ^ 9.
Definition day : Z := 24 * hour.
(** [t.Truncate(d)]: down to a multiple of [d] since the zero time. *)
Definition Truncate (t : Time) (d : Z) : Time := t - t mod d.

(** ** Strings *)
Definition is_space (c : Ascii.ascii) : bool :=
  bool_decide (c ∈ ["009"; "010"; "011"; "012"; "013"; " "]%char).

Fixpoint trim_left (s : string) : string :=
  match s with
  | EmptyString => ""
  | String c s' => if is_space c then trim_left s' else s
  end.

Definition str_rev (s : string) : string := String.rev s.

(** [strings.TrimSpace] on ASCII input. *)
Definition TrimSpace (s : string) : string :=
  str_rev (trim_left (str_rev (trim_left s))).

(** [strings.Contains]. *)
Fixpoint contains (s sub : string) : bool :=
  String.prefix sub s || match s with EmptyString => false | String _ s' => contains s' sub end.

Definition is_empty (s : string) : bool := String.eqb s "".
Definition len (s : string) : Z := Z.of_nat (String.length s).

(** ** Money (money.go) *)
Module Money.

Record Money := mkMoney { Amount : Z; Currency : string }.

Definition NewMoney (amount : Z) (currency : string) : result Money :=
  if is_empty currency then Fail (Err "currency is required")
  else Ok (mkMoney amount currency).

Definition FloatToMoney (val : float64) (currency : string) : Money :=
  mkMoney (f64_to_int64 (fround (fmul val f100))) currency.

Definition MoneyToFloat (m : Money) : float64 := fdiv (f64_of_Z (Amount m)) f100.

Definition Add (m other : Money) : result Money :=
  if String.eqb (Currency m) (Currency other)
  then Ok (mkMoney (wrap64 (Amount m + Amount other)) (Currency m))
  else Fail (Err "currencies must match to perform addition").

Definition Subtract (m other : Money) : result Money :=
  if String.eqb (Currency m) (Currency other)
  then Ok (mkMoney (wrap64 (Amount m - Amount other)) (Currency m))
  else Fail (Err "currencies must match to perform subtraction").

Definition Multiply (m : Money) (multiplier : Z) : Money :=
  mkMoney (wrap64 (Amount m * multiplier)) (Currency m).

Definition Equals (m other : Money) : bool :=
  (Amount m =? Amount other) && String.eqb (Currency m) (Currency other).

Definition IsZero (m : Money) : bool := Amount m =? 0.

(** The range invariant of the [int64] amount. *)
Definition money_wf (m : Money) : Prop := min_int64 <= Amount m <= max_int64.

(** addition and subtraction are inverse on every pair of amounts of one
    currency, overflow included, and stay in [int64]. *)
Theorem add_subtract a b s :
  money_wf a → Add a b = Ok s → Subtract s b = Ok a ∧ money_wf s.
Proof.
  unfold Add, Subtract. destruct (String.eqb_spec (Currency a) (Currency b)) as [Hc|]; [|done].
  intros Ha [= <-]. cbn. rewrite (proj2 (String.eqb_eq _ _) Hc). split.
  - do 2 f_equal. destruct a as [x c]; cbn in *. f_equal.
    rewrite <- Z.add_opp_r, wrap64_add_l.
    replace (x + Amount b + - Amount b) with x by lia. by apply wrap64_id.
  - apply wrap64_range.
Qed.

Lemma add_subtract_witness :
  let a := mkMoney max_int64 "INR" in
  let b := mkMoney 1 "INR" in
  Add a b = Ok (mkMoney min_int64 "INR") ∧
  Subtract (mkMoney min_int64 "INR") b = Ok a ∧ money_wf (mkMoney min_int64 "INR").
Proof.
  intros a b. split; [reflexivity|].
  apply (add_subtract a b (mkMoney min_int64 "INR")); [|reflexivity].
  vm_compute. by split.
Defined.

Lemma Equals_spec a b : Equals a b = true ↔ a = b.
Proof.
  unfold Equals. rewrite andb_true_iff, Z.eqb_eq, String.eqb_eq.
  destruct a, b; cbn. split; [intros [-> ->]; done|by intros [= -> ->]].
Qed.

End Money.

(** ** Pagination (pagination.go) *)
Module Pagination.

Record QueryParams := mkQueryParams {
  Search : string; Status : string; SortBy : string; SortOrder : string;
  Page : Z; PerPage : Z }.

Definition NormalizedPage (q : QueryParams) : Z :=
  if Page q <=? 0 then 1 else Page q.

Definition NormalizedPerPage (q : QueryParams) : Z :=
  if PerPage q <=? 0 then 10 else if 100 <? PerPage q then 100 else PerPage q.

Definition Offset (q : QueryParams) : Z :=
  wrap64 (wrap64 (NormalizedPage q - 1) * NormalizedPerPage q).

Record PagedResult (T : Type) := mkPagedResult {
  Items : list T; TotalCount : Z; ResPage : Z; ResPerPage : Z; TotalPages : Z }.
Arguments mkPagedResult {T}. Arguments TotalPages {T}.

Definition NewPagedResult {T} (items : list T) (total : Z) (params : QueryParams)
    : PagedResult T :=
  let perPage := NormalizedPerPage params in
  let totalPages := Z.quot (wrap64 (wrap64 (total + perPage) - 1)) perPage in
  let totalPages := if totalPages =? 0 then 1 else totalPages in
  mkPagedResult items total (NormalizedPage params) perPage totalPages.

Lemma NormalizedPerPage_range q : 1 <= NormalizedPerPage q <= 100.
Proof. unfold NormalizedPerPage. repeat case_match; lia. Qed.

Lemma NormalizedPage_pos q : 1 <= NormalizedPage q.
Proof. unfold NormalizedPage. case_match; lia. Qed.

(** Below the overflow bound the offset is the exact product. *)
Lemma Offset_exact q :
  Page q <= 2 ^ 56 → Offset q = (NormalizedPage q - 1) * NormalizedPerPage q.
Proof.
  intros Hp. pose proof (NormalizedPerPage_range q). pose proof (NormalizedPage_pos q).
  assert (NormalizedPage q <= 2 ^ 56) by (unfold NormalizedPage; case_match; lia).
  unfold Offset. rewrite (wrap64_id (_ - 1)) by (unfold min_int64, max_int64; lia).
  apply wrap64_id. unfold min_int64, max_int64. nia.
Qed.

Lemma TotalPages_exact {T} (items : list T) total q :
  0 <= total <= 2 ^ 56 →
  TotalPages (NewPagedResult items total q)
  = Z.max 1 ((total + NormalizedPerPage q - 1) / NormalizedPerPage q).
Proof.
  intros Ht. pose proof (NormalizedPerPage_range q) as Hr. unfold NewPagedResult. cbn [TotalPages].
  set (p := NormalizedPerPage q) in *.
  rewrite (wrap64_id (total + p)) by (unfold min_int64, max_int64; lia).
  rewrite wrap64_id by (unfold min_int64, max_int64; lia).
  rewrite Z.quot_div_nonneg by lia.
  assert (0 <= (total + p - 1) / p) by (apply Z.div_pos; lia).
  case_match; lia.
Qed.

(** The page that shows row [i]. *)
Definition page_of (q : QueryParams) (i : Z) : Z := i / NormalizedPerPage q + 1.
Definition with_Page (q : QueryParams) (p : Z) : QueryParams :=
  mkQueryParams (Search q) (Status q) (SortBy q) (SortOrder q) p (PerPage q).

(** every row is on exactly one page: among pages 1 to 2^56 the only one
    whose window [Offset, Offset + PerPage) holds row [i] is [page_of q i],
    for every page size a client can ask for. *)
Theorem page_of_unique q i p :
  0 <= i → 1 <= p → p <= 2 ^ 56 →
  Offset (with_Page q p) <= i < Offset (with_Page q p) + NormalizedPerPage q ↔ p = page_of q i.
Proof.
  intros Hi Hp Hb. rewrite Offset_exact by (cbn; lia).
  change (NormalizedPerPage (with_Page q p)) with (NormalizedPerPage q).
  replace (NormalizedPage (with_Page q p)) with p
    by (unfold NormalizedPage; cbn; case_match; lia).
  pose proof (NormalizedPerPage_range q). unfold page_of.
  set (n := NormalizedPerPage q) in *. split.
  - intros Hr. assert (p - 1 = i / n); [|lia].
    apply (Z.div_unique i n (p - 1) (i - (p - 1) * n)); lia.
  - intros ->. pose proof (Z.div_mod i n ltac:(lia)). pose proof (Z.mod_pos_bound i n ltac:(lia)).
    replace (i / n + 1 - 1) with (i / n) by lia. lia.
Qed.

Lemma page_of_unique_witness :
  let q := mkQueryParams "" "" "" "" 1 25 in
  Offset (with_Page q 3) <= 60 < Offset (with_Page q 3) + NormalizedPerPage q ↔ 3 = page_of q 60.
Proof. intros q. apply (page_of_unique q 60 3); lia. Defined.

End Pagination.

(** ** Tenant of a request (tenant.go) *)
Definition DefaultTenant : string := "1".

Definition NewTenantID (id : string) : result string :=
  if is_empty id then Fail (Err "tenant ID cannot be empty") else Ok id.

(** [ctx.Value(TenantIDKey)] is the argument; it fails closed. *)
Definition TenantIDFromContext (val : option string) : string :=
  match val with Some t => if is_empty t then "" else t | None => "" end.

Definition TenantRequired (val : option string) : result string :=
  let t := TenantIDFromContext val in
  if is_empty t then Fail (Err "tenant not set in context") else Ok t.
