(* ===== verification/Events.v ===== *)
(** * Domain events and the event bus

    The event structs the aggregates append to their [events []any] slice
    (declared at the end of each [*_aggregate.go]), the canonical catalog of
    [internal/events/events.go], the naming rule of
    [internal/shared/outbox/outbox.go], and the in-memory bus of
    [internal/events/bus.go]. *)
From stdpp Require Import base decidable list strings gmap.
From Stdlib Require Import ZArith Lia String.
From S2P Require Import Prelude GoFloat Shared.
Open Scope Z_scope.
Open Scope string_scope.

(** ** Event structs *)
(** [telemetry.PositionEvent] (internal/telemetry/contracts.go). *)
Record Position := mkPosition {
  pos_EventID : string; pos_TenantID : string; pos_DeviceIMEI : string; pos_VehicleID : string;
  pos_DriverID : string; pos_TripID : string; pos_Latitude : float64; pos_Longitude : float64;
  pos_Speed : float64; pos_Heading : float64; pos_Ignition : option bool; pos_EngineHours : option float64;
  pos_Accuracy : option float64; pos_FuelLevel : option float64; pos_Odometer : option float64;
  pos_DeviceTime : Time; pos_ReceivedAt : Time }.

(** [application.GeofenceAlertEvent] (internal/geofence/application/alerts.go). *)
Record GeofenceAlert := mkGeofenceAlert {
  al_TenantID : string; al_VehicleID : string; al_TripID : string; al_GeofenceID : string;
  al_ZoneKind : string; al_AlertType : string; al_Severity : string; al_Latitude : float64;
  al_Longitude : float64; al_Details : string; al_Timestamp : Time }.

Inductive Event : Type :=
| TripCreatedEvent (TripID TenantID TripNumber : string) (OccurredAt : Time)
| TripScheduledEvent (TripID TenantID : string) (OccurredAt : Time)
| TripAssignedEvent (TripID TenantID DriverID VehicleID : string) (OccurredAt : Time)
| TripStartedEvent (TripID TenantID : string) (OccurredAt : Time)
| TripReachedPickupEvent (TripID TenantID : string) (OccurredAt : Time)
| TripInTransitEvent (TripID TenantID : string) (OccurredAt : Time)
| TripDeliveredEvent (TripID TenantID : string) (OccurredAt : Time)
| TripCompletedEvent (TripID TenantID : string) (OccurredAt : Time)
| TripCancelledEvent (TripID TenantID : string) (OccurredAt : Time)
| BookingCreatedEvent (BookingID TenantID BookingNumber : string) (OccurredAt : Time)
| BookingConfirmedEvent (BookingID TenantID : string) (OccurredAt : Time)
| BookingCancelledEvent (BookingID TenantID : string) (OccurredAt : Time)
| BookingUpdatedEvent (BookingID TenantID : string) (OccurredAt : Time)
| BookingCompletedEvent (BookingID TenantID : string) (OccurredAt : Time)
| DriverCreatedEvent (ID TenantID DriverDisplayID Phone LicenseNumber : string) (CreatedAt : Time)
| DriverUpdatedEvent (ID TenantID Status : string) (UpdatedAt : Time)
| VehicleCreatedEvent (ID TenantID RegistrationNumber VehicleNumber : string) (CreatedAt : Time)
| VehicleUpdatedEvent (ID TenantID Status RegistrationNumber : string) (UpdatedAt : Time)
| InvoiceGeneratedEvent (ID TenantID InvoiceNumber : string) (Total : float64) (CreatedAt : Time)
| InvoicePaymentUpdatedEvent (ID TenantID PaymentStatus : string) (UpdatedAt : Time)
| InvoicePaymentAppliedEvent (ID TenantID : string) (Amount PaidAmount : float64)
    (PaymentStatus : string) (OccurredAt : Time)
| InvoiceIssuedEvent (ID TenantID : string) (DueDate OccurredAt : Time)
| InvoiceVoidedEvent (ID TenantID : string) (OccurredAt : Time)
| PaymentReceivedEvent (ID TenantID InvoiceID : string) (Amount : float64) (CreatedAt : Time)
| PositionEvent (p : Position)
| GeofenceAlertEvent (a : GeofenceAlert).

(** The dynamic type of an event: its package and type name.  (A pointer
    prints as its target does, after the last dot.) *)
Record GoType := mkGoType { pkg_path : string; type_name : string }.
#[export] Instance GoType_eq_dec : EqDecision GoType.
Proof. solve_decision. Defined.

Definition trip_pkg := "internal/trip/domain/aggregate".
Definition booking_pkg := "internal/booking/domain/aggregate".
Definition driver_pkg := "internal/driver/domain/aggregate".
Definition vehicle_pkg := "internal/vehicle/domain/aggregate".
Definition invoice_pkg := "internal/invoice/domain/aggregate".
Definition payment_pkg := "internal/payment/domain/aggregate".
Definition telemetry_pkg := "internal/telemetry".
Definition geofence_pkg := "internal/geofence/application".

Definition type_of (ev : Event) : GoType :=
  match ev with
  | TripCreatedEvent _ _ _ _ => mkGoType trip_pkg "TripCreatedEvent"
  | TripScheduledEvent _ _ _ => mkGoType trip_pkg "TripScheduledEvent"
  | TripAssignedEvent _ _ _ _ _ => mkGoType trip_pkg "TripAssignedEvent"
  | TripStartedEvent _ _ _ => mkGoType trip_pkg "TripStartedEvent"
  | TripReachedPickupEvent _ _ _ => mkGoType trip_pkg "TripReachedPickupEvent"
  | TripInTransitEvent _ _ _ => mkGoType trip_pkg "TripInTransitEvent"
  | TripDeliveredEvent _ _ _ => mkGoType trip_pkg "TripDeliveredEvent"
  | TripCompletedEvent _ _ _ => mkGoType trip_pkg "TripCompletedEvent"
  | TripCancelledEvent _ _ _ => mkGoType trip_pkg "TripCancelledEvent"
  | BookingCreatedEvent _ _ _ _ => mkGoType booking_pkg "BookingCreatedEvent"
  | BookingConfirmedEvent _ _ _ => mkGoType booking_pkg "BookingConfirmedEvent"
  | BookingCancelledEvent _ _ _ => mkGoType booking_pkg "BookingCancelledEvent"
  | BookingUpdatedEvent _ _ _ => mkGoType booking_pkg "BookingUpdatedEvent"
  | BookingCompletedEvent _ _ _ => mkGoType booking_pkg "BookingCompletedEvent"
  | DriverCreatedEvent _ _ _ _ _ _ => mkGoType driver_pkg "DriverCreatedEvent"
  | DriverUpdatedEvent _ _ _ _ => mkGoType driver_pkg "DriverUpdatedEvent"
  | VehicleCreatedEvent _ _ _ _ _ => mkGoType vehicle_pkg "VehicleCreatedEvent"
  | VehicleUpdatedEvent _ _ _ _ _ => mkGoType vehicle_pkg "VehicleUpdatedEvent"
  | InvoiceGeneratedEvent _ _ _ _ _ => mkGoType invoice_pkg "InvoiceGeneratedEvent"
  | InvoicePaymentUpdatedEvent _ _ _ _ => mkGoType invoice_pkg "InvoicePaymentUpdatedEvent"
  | InvoicePaymentAppliedEvent _ _ _ _ _ _ => mkGoType invoice_pkg "InvoicePaymentAppliedEvent"
  | InvoiceIssuedEvent _ _ _ _ => mkGoType invoice_pkg "InvoiceIssuedEvent"
  | InvoiceVoidedEvent _ _ _ => mkGoType invoice_pkg "InvoiceVoidedEvent"
  | PaymentReceivedEvent _ _ _ _ _ => mkGoType payment_pkg "PaymentReceivedEvent"
  | PositionEvent _ => mkGoType telemetry_pkg "PositionEvent"
  | GeofenceAlertEvent _ => mkGoType geofence_pkg "GeofenceAlertEvent"
  end.

(** [encoding/json] refuses NaN and infinities, and years outside 0..9999;
    no other field of an event can make [json.Marshal] fail. *)
Definition year10000 : Time := (3652059 * day)%Z.
Definition json_time (t : Time) : bool := ((-366 * day <=? t) && (t <? year10000))%Z.
Definition json_float (x : float64) : bool := is_finite x.

Definition json_opt_float (x : option float64) : bool :=
  match x with Some x => json_float x | None => true end.

Definition json_position (p : Position) : bool :=
  json_float (pos_Latitude p) && json_float (pos_Longitude p) && json_float (pos_Speed p) &&
  json_float (pos_Heading p) && json_opt_float (pos_EngineHours p) && json_opt_float (pos_Accuracy p) &&
  json_opt_float (pos_FuelLevel p) && json_opt_float (pos_Odometer p) && json_time (pos_DeviceTime p) &&
  json_time (pos_ReceivedAt p).

Definition json_ok (ev : Event) : bool :=
  match ev with
  | TripCreatedEvent _ _ _ t | TripScheduledEvent _ _ t | TripAssignedEvent _ _ _ _ t
  | TripStartedEvent _ _ t | TripReachedPickupEvent _ _ t | TripInTransitEvent _ _ t
  | TripDeliveredEvent _ _ t | TripCompletedEvent _ _ t | TripCancelledEvent _ _ t
  | BookingCreatedEvent _ _ _ t | BookingConfirmedEvent _ _ t | BookingCancelledEvent _ _ t
  | BookingUpdatedEvent _ _ t | BookingCompletedEvent _ _ t
  | DriverCreatedEvent _ _ _ _ _ t | DriverUpdatedEvent _ _ _ t
  | VehicleCreatedEvent _ _ _ _ t | VehicleUpdatedEvent _ _ _ _ t
  | InvoicePaymentUpdatedEvent _ _ _ t | InvoiceVoidedEvent _ _ t => json_time t
  | InvoiceGeneratedEvent _ _ _ x t | PaymentReceivedEvent _ _ _ x t => json_float x && json_time t
  | InvoicePaymentAppliedEvent _ _ a p _ t => json_float a && json_float p && json_time t
  | InvoiceIssuedEvent _ _ d t => json_time d && json_time t
  | PositionEvent p => json_position p
  | GeofenceAlertEvent a =>
      json_float (al_Latitude a) && json_float (al_Longitude a) && json_time (al_Timestamp a)
  end.

(** ** The canonical catalog (events.go) *)
Definition BookingCreated := "booking.created".
Definition BookingConfirmed := "booking.confirmed".
Definition BookingCancelled := "booking.cancelled".
Definition BookingCompleted := "booking.completed".
Definition TripCreated := "trip.created".
Definition TripScheduled := "trip.scheduled".
Definition TripAssigned := "trip.assigned".
Definition TripStarted := "trip.started".
Definition TripCompleted := "trip.completed".
Definition TripCancelled := "trip.cancelled".
Definition RazorpayPaymentFailed := "razorpay.payment_failed".
Definition GeofenceZoneBreach := "geofence.zone_breach".

Definition EventTypeOf : list (GoType * string) :=
  let b := mkGoType "internal/domain/booking" in
  let t := mkGoType "internal/domain/trip" in
  [ (b "BookingCreatedEvent", BookingCreated); (b "BookingConfirmedEvent", BookingConfirmed);
    (b "BookingCancelledEvent", BookingCancelled); (b "BookingCompletedEvent", BookingCompleted);
    (t "TripCreatedEvent", TripCreated); (t "TripScheduledEvent", TripScheduled);
    (t "TripAssignedEvent", TripAssigned); (t "TripStartedEvent", TripStarted);
    (t "TripCompletedEvent", TripCompleted); (t "TripCancelledEvent", TripCancelled);
    (mkGoType geofence_pkg "GeofenceAlertEvent", GeofenceZoneBreach) ].

(** [getEventTypeName]: the catalog entry of the dynamic type, else the type
    name after the last dot of ["%T"]. *)
Definition getEventTypeName (ev : Event) : string :=
  match List.find (λ p, bool_decide (fst p = type_of ev)) EventTypeOf with
  | Some (_, name) => name
  | None => type_name (type_of ev)
  end.

(** ** The in-memory bus (bus.go)

    Handlers may fail or panic; either way [dispatch] logs and the next
    handler runs.  A registration is identified by its pointer, here a
    number that is never reused. *)
Section Bus.
Context {Payload S : Type}.

Inductive outcome := HandlerOk | HandlerErr (e : error) | HandlerPanic (msg : string).
Definition Handler : Type := string → Payload → S → outcome * S.

Record InMemoryBus := mkBus {
  subs : gmap string (list (nat * Handler));
  next_reg : nat }.

Definition NewInMemoryBus : InMemoryBus := mkBus ∅ 0%nat.

(** [dispatch]: the recovered panic and the logged error leave the state
    the handler reached. *)
Definition dispatch (ty : string) (p : Payload) (s : S) (h : nat * Handler) : S :=
  snd ((snd h) ty p s).

Definition handlers_of (b : InMemoryBus) (ty : string) : list (nat * Handler) :=
  default [] (subs b !! ty).

Definition Publish (b : InMemoryBus) (ty : string) (p : Payload) (s : S) : S :=
  foldl (dispatch ty p) s (handlers_of b ty).

Definition Subscribe (b : InMemoryBus) (ty : string) (h : Handler) : nat * InMemoryBus :=
  (next_reg b,
   mkBus (<[ty := (handlers_of b ty ++ [(next_reg b, h)])%list]> (subs b)) (Datatypes.S (next_reg b))).

(** The closure [Subscribe] returns: removes the first entry that is this
    registration. *)
Fixpoint remove_first (r : nat) (l : list (nat * Handler)) : list (nat * Handler) :=
  match l with
  | [] => []
  | x :: l' => if Nat.eqb (fst x) r then l' else x :: remove_first r l'
  end.

Definition unsubscribe (b : InMemoryBus) (ty : string) (r : nat) : InMemoryBus :=
  match subs b !! ty with
  | Some l => mkBus (<[ty := remove_first r l]> (subs b)) (next_reg b)
  | None => b
  end.

(** ** What the bus promises

    Seen from outside the bus is the list of live registrations in the order
    they were made, whatever the interleaving of subscriptions and
    cancellations, and however often a cancellation is called. *)
Inductive bus_op := OpSubscribe (ty : string) (h : Handler) | OpUnsubscribe (ty : string) (r : nat).

Definition run_op (b : InMemoryBus) (op : bus_op) : InMemoryBus :=
  match op with
  | OpSubscribe ty h => snd (Subscribe b ty h)
  | OpUnsubscribe ty r => unsubscribe b ty r
  end.
Definition run_ops (ops : list bus_op) : InMemoryBus := foldl run_op NewInMemoryBus ops.

Record registration := mkReg { reg_id : nat; reg_type : string; reg_handler : Handler }.

Definition spec_op (s : nat * list registration) (op : bus_op) : nat * list registration :=
  match op with
  | OpSubscribe ty h => (Datatypes.S (fst s), (snd s ++ [mkReg (fst s) ty h])%list)
  | OpUnsubscribe ty r =>
      (fst s, List.filter (λ x, negb (String.eqb (reg_type x) ty && Nat.eqb (reg_id x) r)) (snd s))
  end.
Definition live (ops : list bus_op) : list registration := snd (foldl spec_op (0%nat, []) ops).

Definition of_type (ty : string) (l : list registration) : list (nat * Handler) :=
  map (λ x, (reg_id x, reg_handler x)) (List.filter (λ x, String.eqb (reg_type x) ty) l).

(** The bus [b] holds the registrations [s]. *)
Record bus_rel (b : InMemoryBus) (s : nat * list registration) : Prop := {
  rel_next : next_reg b = fst s;
  rel_fresh : Forall (λ x, (reg_id x < fst s)%nat) (snd s);
  rel_nodup : NoDup (map reg_id (snd s));
  rel_subs : ∀ ty, handlers_of b ty = of_type ty (snd s) }.

Lemma of_type_app ty l1 l2 : of_type ty (l1 ++ l2) = (of_type ty l1 ++ of_type ty l2)%list.
Proof. unfold of_type. by rewrite List.filter_app, map_app. Qed.

Lemma Forall_filter_keep {A} (P : A → Prop) f l : Forall P l → Forall P (List.filter f l).
Proof. induction 1; cbn; [done|]. by case_match; [constructor|]. Qed.

Lemma map_filter_incl {A B} (g : A → B) f (l : list A) x :
  x ∈ map g (List.filter f l) → x ∈ map g l.
Proof.
  rewrite !list_elem_of_In, !in_map_iff. intros (y & <- & [Hy _]%filter_In). eauto.
Qed.

Lemma NoDup_map_filter {A B} (g : A → B) f (l : list A) :
  NoDup (map g l) → NoDup (map g (List.filter f l)).
Proof.
  induction l as [|x l IH]; cbn; [done|]. intros [Hx Hl]%NoDup_cons.
  case_match; cbn; [|by apply IH]. apply NoDup_cons. split; [|by apply IH].
  by intros ?%map_filter_incl.
Qed.

(** Cancelling: the registration's own entry goes, under its own type. *)
Lemma of_type_cancel_other ty ty' r l :
  ty ≠ ty' →
  of_type ty' (List.filter (λ x, negb (String.eqb (reg_type x) ty && Nat.eqb (reg_id x) r)) l)
  = of_type ty' l.
Proof.
  intros Hne. unfold of_type. f_equal. induction l as [|x l IH]; cbn; [done|].
  destruct (String.eqb_spec (reg_type x) ty); cbn.
  - destruct (Nat.eqb _ _); cbn; destruct (String.eqb_spec (reg_type x) ty');
      rewrite ?IH; congruence.
  - by destruct (String.eqb_spec (reg_type x) ty'); rewrite IH.
Qed.

Lemma filter_absent ty r l :
  r ∉ map reg_id l →
  List.filter (λ x, negb (String.eqb (reg_type x) ty && Nat.eqb (reg_id x) r)) l = l.
Proof.
  induction l as [|x l IH]; cbn; [done|]. rewrite not_elem_of_cons. intros [Hx Hl].
  destruct (Nat.eqb_spec (reg_id x) r); [congruence|]. by rewrite andb_false_r, IH.
Qed.

Lemma of_type_cancel ty r l :
  NoDup (map reg_id l) →
  of_type ty (List.filter (λ x, negb (String.eqb (reg_type x) ty && Nat.eqb (reg_id x) r)) l)
  = remove_first r (of_type ty l).
Proof.
  unfold of_type. induction l as [|x l IH]; cbn; [done|]. intros [Hx Hl]%NoDup_cons.
  destruct (String.eqb (reg_type x) ty) eqn:Ht; cbn; rewrite ?Ht; [|by apply IH].
  destruct (Nat.eqb_spec (reg_id x) r) as [<-|Hr]; cbn.
  - by rewrite filter_absent.
  - rewrite Ht. cbn. by rewrite IH.
Qed.

Lemma bus_rel_step b s op : bus_rel b s → bus_rel (run_op b op) (spec_op s op).
Proof.
  intros [Hn Hf Hd Hs]. destruct op as [ty h|ty r]; cbn.
  - split; cbn; [congruence| | |].
    + apply Forall_app. split; [|by constructor; [cbn; lia|constructor]].
      eapply Forall_impl; [exact Hf|]. cbn. intros; lia.
    + rewrite map_app. apply NoDup_app. split; [done|]. cbn. split; [|by apply NoDup_singleton].
      intros x Hx ->%list_elem_of_singleton. apply list_elem_of_In, in_map_iff in Hx as (y & Hy & Hin).
      apply list_elem_of_In in Hin. rewrite Forall_forall in Hf. apply Hf in Hin. lia.
    + intros ty'. etransitivity; [|symmetry; apply of_type_app].
      unfold of_type at 2. cbn.
      unfold handlers_of at 1. cbn. destruct (decide (ty = ty')) as [<-|Hne].
      * by rewrite lookup_insert_eq, String.eqb_refl, <- Hs, Hn.
      * rewrite lookup_insert_ne by done. destruct (String.eqb_spec ty ty'); [done|].
        cbn. by rewrite app_nil_r, <- Hs.
  - assert (Hu : ∀ ty', handlers_of (unsubscribe b ty r) ty' =
        if decide (ty = ty') then remove_first r (handlers_of b ty') else handlers_of b ty').
    { intros ty'. unfold unsubscribe, handlers_of. destruct (subs b !! ty) eqn:E; cbn.
      - case_decide as Ht; [subst; by rewrite lookup_insert_eq, E|by rewrite lookup_insert_ne].
      - case_decide as Ht; [subst; by rewrite E|done]. }
    split; cbn.
    + rewrite <- Hn. unfold unsubscribe. by destruct (subs b !! ty).
    + by apply Forall_filter_keep.
    + by apply NoDup_map_filter.
    + intros ty'. rewrite Hu, !Hs. case_decide as Ht.
      * subst. symmetry. by apply of_type_cancel.
      * symmetry. by apply of_type_cancel_other.
Qed.

Lemma run_ops_rel ops : bus_rel (run_ops ops) (foldl spec_op (0%nat, []) ops).
Proof.
  unfold run_ops.
  assert (H0 : bus_rel NewInMemoryBus (0%nat, [])).
  { split; cbn; [done|constructor|constructor|]. done. }
  revert H0. generalize NewInMemoryBus (0%nat, @nil registration).
  induction ops as [|op ops IH]; intros b s Hb; [done|]. cbn. by apply IH, bus_rel_step.
Qed.

(** publishing runs exactly the live handlers of the event's type, once
    each and in the order they subscribed, past any that fails or panics,
    whatever subscriptions and cancellations came before. *)
Theorem publish_reaches_live ops ty p s :
  Publish (run_ops ops) ty p s =
  foldl (λ s x, snd (reg_handler x ty p s)) s
    (List.filter (λ x, String.eqb (reg_type x) ty) (live ops)).
Proof.
  unfold Publish, live. rewrite (rel_subs _ _ (run_ops_rel ops)). unfold of_type.
  generalize (List.filter (λ x, String.eqb (reg_type x) ty) (snd (foldl spec_op (0%nat, []) ops))).
  intros l. revert s. induction l as [|x l IH]; intros s; cbn; [done|]. by rewrite IH.
Qed.
End Bus.
Arguments InMemoryBus : clear implicits.
Arguments Handler : clear implicits.

(** no event an aggregate records carries a name of the canonical catalog:
    the catalog is keyed by the event types of [internal/domain], so the
    outbox stores every event under its Go type name instead.  The geofence
    alert, which registers itself, is the only event stored under a canonical
    name. *)
Theorem event_types_never_canonical ev :
  (getEventTypeName ev ∈ map snd EventTypeOf ↔ ∃ a, ev = GeofenceAlertEvent a) ∧
  (getEventTypeName ev = type_name (type_of ev) ∨ ∃ a, ev = GeofenceAlertEvent a).
Proof.
  split; [|destruct ev; eauto]. split; [|by intros [a ->]; vm_compute; set_solver].
  destruct ev; eauto; vm_compute; set_solver.
Qed.
