(* ===== verification/GoTime.v ===== *)
(** * Calendar dates and the text of times and amounts

    What the booking and payment use cases use of Go's [time] and [strconv]:
    [time.Parse] on the four layouts of
    [internal/booking/application/create_booking.go], [Time.Format] of a date
    and [strconv.FormatFloat(x, 'f', 2, 64)] of
    [internal/payment/infrastructure/persistence/sql/payment_repository.go].
    Times are UTC instants. *)
From stdpp Require Import base decidable list strings option pretty.
From Stdlib Require Import ZArith Lia Ascii String.
From S2P Require Import Prelude GoFloat Shared.
Open Scope Z_scope.

(** ** The proleptic Gregorian calendar

    Days since January 1, year 1; months counted from March within a
    400-year era of 146097 days. *)
Definition days_from_civil (y m d : Z) : Z :=
  let y := if m <=? 2 then y - 1 else y in
  let yoe := y mod 400 in
  let doy := (153 * ((m + 9) mod 12) + 2) / 5 + d - 1 in
  y / 400 * 146097 + (yoe * 365 + yoe / 4 - yoe / 100 + doy) - 306.

Definition civil_from_days (n : Z) : Z * Z * Z :=
  let z := n + 306 in
  let doe := z mod 146097 in
  let yoe := (doe - doe / 1460 + doe / 36524 - doe / 146096) / 365 in
  let doy := doe - (365 * yoe + yoe / 4 - yoe / 100) in
  let mp := (5 * doy + 2) / 153 in
  let d := doy - (153 * mp + 2) / 5 + 1 in
  let m := if mp <? 10 then mp + 3 else mp - 9 in
  let y := yoe + z / 146097 * 400 in
  (if m <=? 2 then y + 1 else y, m, d).

Definition is_leap (y : Z) : bool :=
  (y mod 4 =? 0) && (negb (y mod 100 =? 0) || (y mod 400 =? 0)).
Definition daysIn (m y : Z) : Z :=
  if (m =? 2) && is_leap y then 29
  else if m =? 2 then 28
  else if (m =? 4) || (m =? 6) || (m =? 9) || (m =? 11) then 30 else 31.

(** *** One era, year by year and then day by day *)
Definition year_start (y : Z) : Z := 365 * y + y / 4 - y / 100 + y / 400.
Definition year_of (doe : Z) : Z := (doe - doe / 1460 + doe / 36524 - doe / 146096) / 365.
Definition month_of_doy (doy : Z) : Z := (5 * doy + 2) / 153.
Definition year_ok (y : Z) : bool :=
  (year_of (year_start y) =? y) && (year_of (year_start (y + 1) - 1) =? y) &&
  (year_start (y + 1) - year_start y =? if is_leap (y + 1) then 366 else 365).
Definition doy_ok (doy : Z) : bool :=
  let mp := month_of_doy doy in
  let m := if mp <? 10 then mp + 3 else mp - 9 in
  let d := doy - (153 * mp + 2) / 5 + 1 in
  (1 <=? m) && (m <=? 12) && (1 <=? d) && ((153 * ((m + 9) mod 12) + 2) / 5 + d - 1 =? doy) &&
  if doy =? 365 then (m =? 2) && (d =? 29) else d <=? daysIn m 1.

Fixpoint all_below (p : Z → bool) (k : nat) : bool :=
  match k with O => true | S k' => p (Z.of_nat k') && all_below p k' end.
Lemma all_below_spec p k i : all_below p k = true → 0 <= i < Z.of_nat k → p i = true.
Proof.
  induction k as [|k IH]; intros H Hi; [lia|]. apply andb_true_iff in H as [H1 H2].
  destruct (Z.eq_dec i (Z.of_nat k)) as [->|Hne]; [done|]. apply IH; [done|lia].
Qed.
Lemma years_ok : all_below year_ok 400 = true.
Proof. vm_compute. reflexivity. Qed.
Lemma doys_ok : all_below doy_ok 366 = true.
Proof. vm_compute. reflexivity. Qed.

Lemma year_of_mono a b : 0 <= a <= b → year_of a <= year_of b.
Proof.
  intros H. unfold year_of. apply Z.div_le_mono; [lia|].
  assert (a - a / 1460 <= b - b / 1460) by (Z.to_euclidean_division_equations; lia).
  assert (forall x, x / 146096 = x / 36524 / 4) as E by (intros x; by rewrite Z.div_div).
  rewrite !E. pose proof (Z.div_le_mono a b 36524 ltac:(lia) ltac:(lia)).
  generalize dependent (a / 36524). generalize dependent (b / 36524). intros u v Huv.
  Z.to_euclidean_division_equations; lia.
Qed.
Lemma year_bounds doe : 0 <= doe < 146097 →
  let y := year_of doe in 0 <= y < 400 ∧ year_start y <= doe < year_start (y + 1).
Proof.
  intros H y.
  assert (Hy : 0 <= y < 400).
  { pose proof (year_of_mono 0 doe ltac:(lia)) as H1. pose proof (year_of_mono doe 146096 ltac:(lia)) as H2.
    change (year_of 0) with 0 in H1. change (year_of 146096) with 399 in H2. unfold y. lia. }
  split; [exact Hy|].
  assert (Hs : ∀ i, 0 <= i → 0 <= year_start i).
  { intros i Hi. unfold year_start. Z.to_euclidean_division_equations; lia. }
  assert (Hk : ∀ i, 0 <= i < 400 →
    year_of (year_start i) = i ∧ year_of (year_start (i + 1) - 1) = i ∧ year_start i < year_start (i + 1)).
  { intros i Hi. pose proof (all_below_spec _ _ i years_ok ltac:(vm_compute Z.of_nat; lia)) as Hi'. unfold year_ok in Hi'.
    rewrite !andb_true_iff, !Z.eqb_eq in Hi'. destruct (is_leap (i + 1)); lia. }
  split.
  - destruct (Z_lt_le_dec doe (year_start y)) as [Hlt|]; [|lia]. exfalso.
    destruct (Z.eq_dec y 0) as [E|]; [rewrite E in Hlt; change (year_start 0) with 0 in Hlt; lia|].
    destruct (Hk (y - 1) ltac:(lia)) as (_ & Hp & _). replace (y - 1 + 1) with y in Hp by lia.
    pose proof (year_of_mono doe (year_start y - 1) ltac:(lia)). unfold y in *. lia.
  - destruct (Z_lt_le_dec doe (year_start (y + 1))) as [|Hge]; [done|]. exfalso.
    destruct (Z.eq_dec y 399) as [E|]; [rewrite E in Hge; change (year_start (399 + 1)) with 146097 in Hge; lia|].
    destruct (Hk (y + 1) ltac:(lia)) as (Hp & _). pose proof (Hs (y + 1) ltac:(lia)).
    pose proof (year_of_mono (year_start (y + 1)) doe ltac:(lia)). unfold y in *. lia.
Qed.
Lemma year_length y : 0 <= y < 400 → year_start (y + 1) - year_start y = if is_leap (y + 1) then 366 else 365.
Proof.
  intros Hy. pose proof (all_below_spec _ _ y years_ok ltac:(vm_compute Z.of_nat; lia)) as H. unfold year_ok in H.
  rewrite !andb_true_iff, !Z.eqb_eq in H. apply H.
Qed.
(** The month and the day of a day of the year that begins in March. *)
Definition month_day (doy : Z) : Z * Z :=
  let mp := month_of_doy doy in
  (if mp <? 10 then mp + 3 else mp - 9, doy - (153 * mp + 2) / 5 + 1).
Lemma month_day_ok doy : 0 <= doy < 366 →
  let '(m, d) := month_day doy in
  1 <= m <= 12 ∧ 1 <= d ∧ (153 * ((m + 9) mod 12) + 2) / 5 + d - 1 = doy ∧
  if doy =? 365 then m = 2 ∧ d = 29 else d <= daysIn m 1.
Proof.
  intros Hb. pose proof (all_below_spec _ _ doy doys_ok ltac:(vm_compute Z.of_nat; lia)) as H.
  unfold doy_ok in H. unfold month_day. cbn zeta in *. rewrite !andb_true_iff, Z.eqb_eq, !Z.leb_le in H.
  destruct H as [[[[H1 H2] H3] H4] H5]. destruct (doy =? 365); [|apply Z.leb_le in H5; lia].
  rewrite andb_true_iff, !Z.eqb_eq in H5. lia.
Qed.
Lemma days_from_march y m d : 0 <= y < 400 →
  days_from_civil (if m <=? 2 then y + 1 else y) m d =
  y * 365 + y / 4 - y / 100 + ((153 * ((m + 9) mod 12) + 2) / 5 + d - 1) - 306.
Proof.
  intros Hy. unfold days_from_civil. cbn zeta.
  assert (E : (if m <=? 2 then (if m <=? 2 then y + 1 else y) - 1 else if m <=? 2 then y + 1 else y) = y)
    by (destruct (m <=? 2); lia).
  rewrite E, (Z.mod_small y 400), (Z.div_small y 400) by lia. lia.
Qed.
Lemma daysIn_march m d y : d <= daysIn m 1 → d <= daysIn m y.
Proof. unfold daysIn. change (is_leap 1) with false. rewrite andb_false_r. destruct (m =? 2), (is_leap y); cbn; lia. Qed.
Lemma civil_of_era i : 0 <= i < 146097 →
  let y := year_of i in
  let '(m, d) := month_day (i - (365 * y + y / 4 - y / 100)) in
  civil_from_days (-306 + i) = (if m <=? 2 then y + 1 else y, m, d).
Proof.
  intros Hi. unfold civil_from_days, month_day, month_of_doy, year_of. cbn zeta.
  replace (-306 + i + 306) with i by lia. rewrite (Z.mod_small i 146097), (Z.div_small i 146097) by lia.
  by rewrite Z.mul_0_l, !Z.add_0_r.
Qed.
Lemma era_day_ok i : 0 <= i < 146097 →
  let '(y, m, d) := civil_from_days (-306 + i) in
  days_from_civil y m d = -306 + i ∧ 1 <= m <= 12 ∧ 1 <= d <= daysIn m y.
Proof.
  intros Hi. pose proof (civil_of_era i Hi) as Hc. destruct (year_bounds i Hi) as [Hy Hd]. cbn zeta in *.
  revert Hc Hy Hd. generalize (year_of i). intros y Hc Hy Hd. pose proof (year_length y Hy) as Hlen.
  pose proof (month_day_ok (i - (365 * y + y / 4 - y / 100))) as Hm.
  assert (E : i - (365 * y + y / 4 - y / 100) = i - year_start y)
    by (unfold year_start; rewrite (Z.div_small y 400) by lia; lia).
  destruct (month_day _) as [m d]. rewrite Hc, days_from_march by done.
  assert (Hb : 0 <= i - (365 * y + y / 4 - y / 100) < 366) by (destruct (is_leap (y + 1)); lia).
  destruct (Hm Hb) as (H1 & H2 & H3 & H4). split; [lia|]. split; [done|]. split; [done|].
  destruct (Z.eqb_spec (i - (365 * y + y / 4 - y / 100)) 365) as [E5|_]; [|by apply daysIn_march].
  destruct H4 as [-> ->]. unfold daysIn. cbn. destruct (is_leap (y + 1)); cbn; lia.
Qed.

Lemma civil_from_days_era n k :
  civil_from_days (n + k * 146097)
  = let '(y, m, d) := civil_from_days n in (y + k * 400, m, d).
Proof.
  unfold civil_from_days. cbn zeta.
  replace (n + k * 146097 + 306) with (n + 306 + k * 146097) by lia.
  rewrite Z.mod_add, Z.div_add by lia.
  match goal with |- (if ?b then _ else _, _, _) = _ => destruct b end; do 2 f_equal; lia.
Qed.

Lemma days_from_civil_era y m d k :
  days_from_civil (y + k * 400) m d = days_from_civil y m d + k * 146097.
Proof.
  unfold days_from_civil. cbn zeta.
  assert (E : (if m <=? 2 then y + k * 400 - 1 else y + k * 400)
              = (if m <=? 2 then y - 1 else y) + k * 400) by (destruct (m <=? 2); lia).
  rewrite E, Z.mod_add, Z.div_add by lia. lia.
Qed.

Lemma daysIn_era m y k : daysIn m (y + k * 400) = daysIn m y.
Proof.
  unfold daysIn, is_leap.
  replace (y + k * 400) with (y + (k * 100) * 4) at 1 by lia.
  replace (y + k * 400) with (y + (k * 4) * 100) at 1 by lia.
  by rewrite !Z.mod_add by lia.
Qed.

(** The calendar round trip: the civil date of any day, past or future,
    is a date of the calendar and converts back to that day. *)
Theorem civil_round_trip n :
  let '(y, m, d) := civil_from_days n in
  days_from_civil y m d = n ∧ 1 <= m <= 12 ∧ 1 <= d <= daysIn m y.
Proof.
  set (k := (n + 306) / 146097). set (i := (n + 306) mod 146097).
  assert (Hn : n = (-306 + i) + k * 146097)
    by (pose proof (Z.div_mod (n + 306) 146097 ltac:(lia)); unfold k, i; lia).
  pose proof (Z.mod_pos_bound (n + 306) 146097 ltac:(lia)) as Hi. fold i in Hi.
  pose proof (era_day_ok i Hi) as H. rewrite Hn, civil_from_days_era.
  destruct (civil_from_days (-306 + i)) as [[y m] d].
  rewrite days_from_civil_era, daysIn_era. lia.
Qed.

(** ** [time.Parse] *)
Definition digit (c : ascii) : option Z :=
  let n := Z.of_nat (nat_of_ascii c) - 48 in
  if (0 <=? n) && (n <=? 9) then Some n else None.

Abbreviation Parser A := (string → option (A * string)).

(** [getnum]: two digits, or one when [fixed] is false. *)
Definition getnum (fixed : bool) : Parser Z := λ s,
  match s with
  | String a s' =>
      match digit a with
      | None => None
      | Some x =>
          match s' with
          | String b s'' =>
              match digit b with
              | Some y => Some (x * 10 + y, s'')
              | None => if fixed then None else Some (x, s')
              end
          | EmptyString => if fixed then None else Some (x, s')
          end
      end
  | EmptyString => None
  end.

Definition in_range (lo hi : Z) (p : Parser Z) : Parser Z := λ s,
  match p s with
  | Some (x, s') => if (lo <=? x) && (x <=? hi) then Some (x, s') else None
  | None => None
  end.

Definition char_ (c : ascii) : Parser unit := λ s,
  match s with
  | String a s' => if Ascii.eqb a c then Some (tt, s') else None
  | EmptyString => None
  end.

Fixpoint cutspace (s : string) : string :=
  match s with String " " s' => cutspace s' | _ => s end.
(** A space of the layout matches any number of spaces, none only at the
    end. *)
Definition space_ : Parser unit := λ s,
  match s with
  | EmptyString => Some (tt, s)
  | String " " _ => Some (tt, cutspace s)
  | _ => None
  end.

Definition year_ : Parser Z := λ s,
  match getnum true s with
  | Some (a, s') => match getnum true s' with
                    | Some (b, s'') => Some (a * 100 + b, s'')
                    | None => None
                    end
  | None => None
  end.

(** Sequencing of parsers. *)
Definition pbind {A B} (p : Parser A) (f : A → Parser B) : Parser B := λ s,
  match p s with Some (a, s') => f a s' | None => None end.
Notation "'let?' x := p 'in' q" := (pbind p (fun x => q))
  (at level 10, x binder, p at level 100, q at level 200).
Definition pret {A} (a : A) : Parser A := λ s, Some (a, s).

Definition date_ : Parser (Z * Z * Z) :=
  let? y := year_ in let? _ := char_ "-" in let? m := in_range 1 12 (getnum true) in let? _ := char_ "-" in
  let? d := getnum true in pret (y, m, d).

Definition hour_minute : Parser Z :=
  let? h := in_range 0 23 (getnum false) in let? _ := char_ ":" in let? m := in_range 0 59 (getnum true) in
  pret ((h * 60 + m) * 60).

(** Digits after the point: nine count, the rest are skipped. *)
Fixpoint fraction (s : string) (scale acc : Z) : Z * string :=
  match s with
  | String c s' => match digit c with
                   | Some x => fraction s' (scale / 10) (acc + x * scale)
                   | None => (acc, s)
                   end
  | EmptyString => (acc, s)
  end.

(** Seconds, and a fraction even where the layout has none. *)
Definition second_ : Parser Z :=
  let? x := in_range 0 59 (getnum true) in
  λ s, match s with
       | String p (String c _ as s') =>
           if (Ascii.eqb p "." || Ascii.eqb p ",") && bool_decide (is_Some (digit c))
           then let '(ns, rest) := fraction s' (10 ^ 8) 0 in Some (x * 10 ^ 9 + ns, rest)
           else Some (x * 10 ^ 9, s)
       | _ => Some (x * 10 ^ 9, s)
       end.

(** [Z07:00], in seconds. *)
Definition zone_ : Parser Z := λ s,
  match s with
  | String "Z" s' => Some (0, s')
  | String sign s' =>
      (let? h := in_range 0 24 (getnum true) in let? _ := char_ ":" in let? m := in_range 0 60 (getnum true) in
       let off := (h * 60 + m) * 60 in
       if Ascii.eqb sign "+" then pret off
       else if Ascii.eqb sign "-" then pret (- off) else λ _, None) s'
  | EmptyString => None
  end.

(** The whole value, with the day valid in its month. *)
Definition whole (p : Parser (Z * Z * Z * Z)) (s : string) : option Time :=
  match p s with
  | Some ((y, m, d, ns), EmptyString) =>
      if (1 <=? d) && (d <=? daysIn m y)
      then Some (days_from_civil y m d * day + ns) else None
  | _ => None
  end.

Definition ns (seconds : Z) : Z := seconds * 10 ^ 9.
Definition Parse_date : string → option Time :=
  whole (let? d := date_ in pret (d, 0)).
Definition Parse_rfc3339 : string → option Time :=
  whole (let? d := date_ in let? _ := char_ "T" in let? t := hour_minute in let? _ := char_ ":" in let? s := second_ in
         let? z := zone_ in pret (d, ns t + s - ns z)).
(** The value with the offset of its text, in seconds east of UTC, which
    [time.Parse] keeps beside the instant. *)
Definition Parse_rfc3339_in (s : string) : option (Time * Z) :=
  match (let? d := date_ in let? _ := char_ "T" in let? t := hour_minute in let? _ := char_ ":" in
         let? s := second_ in let? z := zone_ in pret (d, ns t + s - ns z, z)) s with
  | Some ((y, m, d, ns), z, EmptyString) =>
      if (1 <=? d) && (d <=? daysIn m y) then Some (days_from_civil y m d * day + ns, z) else None
  | _ => None
  end.
Lemma Parse_rfc3339_in_instant s : fst <$> Parse_rfc3339_in s = Parse_rfc3339 s.
Proof. unfold Parse_rfc3339_in, Parse_rfc3339, whole, pbind, pret. repeat (case_match; simplify_eq/=; try done). Qed.
Definition Parse_minute : string → option Time :=
  whole (let? d := date_ in let? _ := space_ in let? t := hour_minute in pret (d, ns t)).
Definition Parse_second : string → option Time :=
  whole (let? d := date_ in let? _ := space_ in let? t := hour_minute in let? _ := char_ ":" in let? s := second_ in
         pret (d, ns t + s)).

(** The nest of retries in the booking use cases. *)
Definition parsePickupDate (s : string) : result Time :=
  match Parse_date s with
  | Some t => Ok t
  | None =>
      match Parse_rfc3339 s with
      | Some t => Ok t
      | None =>
          match Parse_minute s with
          | Some t => Ok t
          | None =>
              match Parse_second s with
              | Some t => Ok t
              | None => Fail (Err "invalid pickup date format")
              end
          end
      end
  end.

(** ** Formatting *)
Definition digit_char (x : Z) : ascii := ascii_of_nat (Z.to_nat (48 + x)).
Definition pad2 (x : Z) : string :=
  String (digit_char (x / 10 mod 10)) (String (digit_char (x mod 10)) EmptyString).
Definition pad4 (x : Z) : string :=
  if (0 <=? x) && (x <=? 9999) then (pad2 (x / 100)%Z +:+ pad2 (x mod 100)%Z)%string
  else if 0 <=? x then pretty x
  else ("-" +:+ (if Z.ltb x (-999) then pretty (- x)%Z
                 else pad2 (- x / 100)%Z +:+ pad2 (- x mod 100)%Z))%string.

Definition date_of (t : Time) : Z * Z * Z := civil_from_days (t / day).
(** [t.Format("2006-01-02")]. *)
Definition FormatDate (t : Time) : string :=
  let '(y, m, d) := date_of t in (pad4 y +:+ "-" +:+ pad2 m +:+ "-" +:+ pad2 d)%string.

(** [strconv.FormatFloat(x, 'f', 2, 64)]: the exact value rounded to
    hundredths, halves to even. *)
Definition hundredths (x : float64) : Z :=
  let n := 100 * Z.abs (fval x) in
  let q := n / 2 ^ 1074 in
  let r := n mod 2 ^ 1074 in
  if (2 * r <? 2 ^ 1074) then q
  else if 2 ^ 1074 <? 2 * r then q + 1
  else if Z.even q then q else q + 1.
Definition FormatFloat2 (x : float64) : string :=
  match x with
  | SpecFloat.S754_nan => "NaN"
  | SpecFloat.S754_infinity s => if s then "-Inf" else "+Inf"
  | SpecFloat.S754_zero s | SpecFloat.S754_finite s _ _ =>
      ((if s then "-" else "") +:+ pretty (hundredths x / 100)%Z +:+ "."
       +:+ pad2 (hundredths x mod 100)%Z)%string
  end.
(** [fmt.Sprintf("%.6f", x)]: the exact value rounded to millionths, halves
    to even. *)
Definition millionths (x : float64) : Z :=
  let n := 10 ^ 6 * Z.abs (fval x) in
  let q := n / 2 ^ 1074 in
  let r := n mod 2 ^ 1074 in
  if (2 * r <? 2 ^ 1074) then q
  else if 2 ^ 1074 <? 2 * r then q + 1
  else if Z.even q then q else q + 1.
Definition FormatFloat6 (x : float64) : string :=
  match x with
  | SpecFloat.S754_nan => "NaN"
  | SpecFloat.S754_infinity s => if s then "-Inf" else "+Inf"
  | SpecFloat.S754_zero s | SpecFloat.S754_finite s _ _ =>
      let m := millionths x in
      ((if s then "-" else "") +:+ pretty (m / 10 ^ 6)%Z +:+ "."
       +:+ pad2 (m / 10 ^ 4 mod 100)%Z +:+ pad2 (m / 100 mod 100)%Z +:+ pad2 (m mod 100)%Z)%string
  end.
(** [fmt.Sprintf("%.1f", x)], likewise. *)
Definition tenths (x : float64) : Z :=
  let n := 10 * Z.abs (fval x) in
  let q := n / 2 ^ 1074 in
  let r := n mod 2 ^ 1074 in
  if (2 * r <? 2 ^ 1074) then q
  else if 2 ^ 1074 <? 2 * r then q + 1
  else if Z.even q then q else q + 1.
Definition FormatFloat1 (x : float64) : string :=
  match x with
  | SpecFloat.S754_nan => "NaN"
  | SpecFloat.S754_infinity s => if s then "-Inf" else "+Inf"
  | SpecFloat.S754_zero s | SpecFloat.S754_finite s _ _ =>
      let m := tenths x in
      ((if s then "-" else "") +:+ pretty (m / 10)%Z +:+ "." +:+ pretty (m mod 10)%Z)%string
  end.
(** [fmt.Sprintf("%.0f", x)], likewise. *)
Definition units (x : float64) : Z :=
  let n := Z.abs (fval x) in
  let q := n / 2 ^ 1074 in
  let r := n mod 2 ^ 1074 in
  if (2 * r <? 2 ^ 1074) then q
  else if 2 ^ 1074 <? 2 * r then q + 1
  else if Z.even q then q else q + 1.
Definition FormatFloat0 (x : float64) : string :=
  match x with
  | SpecFloat.S754_nan => "NaN"
  | SpecFloat.S754_infinity s => if s then "-Inf" else "+Inf"
  | SpecFloat.S754_zero s | SpecFloat.S754_finite s _ _ => ((if s then "-" else "") +:+ pretty (units x))%string
  end.
(** [t.Format("2006-01-02 15:04:05")] of a UTC time. *)
Definition FormatDateTime (t : Time) : string :=
  let s := t mod day / 10 ^ 9 in
  (FormatDate t +:+ " " +:+ pad2 (s / 3600)%Z +:+ ":" +:+ pad2 (s / 60 mod 60)%Z +:+ ":"
   +:+ pad2 (s mod 60)%Z)%string.
(** [t.Format(time.RFC3339)] of a UTC time. *)
Definition FormatRFC3339 (t : Time) : string :=
  let s := t mod day / 10 ^ 9 in
  (FormatDate t +:+ "T" +:+ pad2 (s / 3600)%Z +:+ ":" +:+ pad2 (s / 60 mod 60)%Z +:+ ":"
   +:+ pad2 (s mod 60)%Z +:+ "Z")%string.

(** [t.String()] of a time at an offset: the local date and time, a fraction
    without trailing zeros, the offset, and the offset again for a zone
    without a name. *)
Fixpoint drop_zeros (n : nat) (x : Z) : Z * nat :=
  match n with
  | O => (x, O)
  | S n' => if x mod 10 =? 0 then drop_zeros n' (x / 10) else (x, n)
  end.
Fixpoint digits (n : nat) (x : Z) (rest : string) : string :=
  match n with O => rest | S n' => digits n' (x / 10) (String (digit_char (x mod 10)) rest) end.
Definition FormatFraction (t : Time) : string :=
  let '(x, n) := drop_zeros 9 (t mod 10 ^ 9) in
  match n with O => EmptyString | _ => String "." (digits n x EmptyString) end.
Definition FormatOffset (z : Z) : string :=
  ((if Z.ltb z 0 then "-" else "+") +:+ pad2 (Z.abs z / 3600)%Z +:+ pad2 (Z.abs z / 60 mod 60)%Z)%string.
Definition TimeString (t : Time) (z : Z) : string :=
  (FormatDateTime (t + ns z)%Z +:+ FormatFraction t +:+ " " +:+ FormatOffset z +:+ " "
   +:+ (if Z.eqb z 0 then "UTC" else FormatOffset z))%string.
Example TimeString_utc : TimeString (days_from_civil 2026 7 9 * day + 7 * 3600 * 10 ^ 9) 0 = "2026-07-09 07:00:00 +0000 UTC"%string.
Proof. vm_compute. reflexivity. Qed.
Example TimeString_ist :
  TimeString (days_from_civil 2026 7 9 * day + 65 * 10 ^ 8) 19800 = "2026-07-09 05:30:06.5 +0530 +0530"%string.
Proof. vm_compute. reflexivity. Qed.

(** The text the SQL driver stores for a time at an offset, which is what
    SQL compares. *)
Class Columns := { time_text : Time → Z → string }.
(** The driver's default: [t.String()]. *)
Definition go_columns : Columns := {| time_text := TimeString |}.
