(* ===== verification/TripAggregate.v ===== *)
(** * The trip aggregate

    [internal/trip/domain/aggregate/trip_aggregate.go] and
    [internal/trip/domain/workflow/trip_workflow.go]: the consistency
    boundary of one transport trip, its lifecycle operations, the events it
    records, and the lifecycle's abstract specification. *)
From stdpp Require Import base decidable list strings option relations.
From Stdlib Require Import ZArith Lia String.
From S2P Require Import Prelude GoFloat Shared Events.
Open Scope Z_scope.

Module Trip.

(** [type TripStatus string]: the nine declared constants, and any other
    string a row could hold. *)
Inductive TripStatus :=
| TripDraft | TripScheduled | TripAssigned | TripStarted | TripReachedPickup
| TripInTransit | TripDelivered | TripCompleted | TripCancelled
| TripStatusOther (s : string).

#[global] Instance TripStatus_eq_dec : EqDecision TripStatus.
Proof. solve_decision. Defined.

Definition status_string (s : TripStatus) : string :=
  match s with
  | TripDraft => "draft" | TripScheduled => "scheduled" | TripAssigned => "assigned"
  | TripStarted => "started" | TripReachedPickup => "reached_pickup"
  | TripInTransit => "in_transit" | TripDelivered => "delivered"
  | TripCompleted => "completed" | TripCancelled => "cancelled"
  | TripStatusOther s => s
  end.

Definition known_statuses : list TripStatus :=
  [TripDraft; TripScheduled; TripAssigned; TripStarted; TripReachedPickup;
   TripInTransit; TripDelivered; TripCompleted; TripCancelled].

(** [aggregate.TripStatus(s)]. *)
Definition status_of_string (s : string) : TripStatus :=
  match List.find (λ k, String.eqb (status_string k) s) known_statuses with
  | Some k => k
  | None => TripStatusOther s
  end.

(** A status in normal form: the catch-all never holds a declared name. *)
Definition status_wf (s : TripStatus) : Prop := status_of_string (status_string s) = s.

Lemma trip_status_string_of_string s : status_string (status_of_string s) = s.
Proof.
  unfold status_of_string. destruct (List.find _ _) as [k|] eqn:E; [|done].
  apply find_some in E as [_ E]. by apply String.eqb_eq.
Qed.

Lemma trip_status_of_string_wf s : status_wf (status_of_string s).
Proof. unfold status_wf. by rewrite trip_status_string_of_string. Qed.

Record TripAggregate := mkTrip {
  ID : string; TenantID : string; TripNumber : string; BookingID : option string;
  DriverID : option string; VehicleID : option string; RouteID : string;
  DepartureTime : Time; ArrivalTime : option Time; Status : TripStatus; Remarks : string;
  StartedAt : option Time; ReachedPickupAt : option Time; InTransitAt : option Time;
  DeliveredAt : option Time; CompletedAt : option Time; CreatedAt : Time; UpdatedAt : Time;
  Version : Z; events : list Event }.

Definition set_DriverID (x : option string) (t : TripAggregate) : TripAggregate :=
  mkTrip (ID t) (TenantID t) (TripNumber t) (BookingID t) x (VehicleID t) (RouteID t)
    (DepartureTime t) (ArrivalTime t) (Status t) (Remarks t) (StartedAt t)
    (ReachedPickupAt t) (InTransitAt t) (DeliveredAt t) (CompletedAt t) (CreatedAt t)
    (UpdatedAt t) (Version t) (events t).
Definition set_VehicleID (x : option string) (t : TripAggregate) : TripAggregate :=
  mkTrip (ID t) (TenantID t) (TripNumber t) (BookingID t) (DriverID t) x (RouteID t)
    (DepartureTime t) (ArrivalTime t) (Status t) (Remarks t) (StartedAt t)
    (ReachedPickupAt t) (InTransitAt t) (DeliveredAt t) (CompletedAt t) (CreatedAt t)
    (UpdatedAt t) (Version t) (events t).
Definition set_ArrivalTime (x : option Time) (t : TripAggregate) : TripAggregate :=
  mkTrip (ID t) (TenantID t) (TripNumber t) (BookingID t) (DriverID t) (VehicleID t)
    (RouteID t) (DepartureTime t) x (Status t) (Remarks t) (StartedAt t) (ReachedPickupAt t)
    (InTransitAt t) (DeliveredAt t) (CompletedAt t) (CreatedAt t) (UpdatedAt t) (Version t)
    (events t).
Definition set_Status (x : TripStatus) (t : TripAggregate) : TripAggregate :=
  mkTrip (ID t) (TenantID t) (TripNumber t) (BookingID t) (DriverID t) (VehicleID t)
    (RouteID t) (DepartureTime t) (ArrivalTime t) x (Remarks t) (StartedAt t)
    (ReachedPickupAt t) (InTransitAt t) (DeliveredAt t) (CompletedAt t) (CreatedAt t)
    (UpdatedAt t) (Version t) (events t).
Definition set_StartedAt (x : option Time) (t : TripAggregate) : TripAggregate :=
  mkTrip (ID t) (TenantID t) (TripNumber t) (BookingID t) (DriverID t) (VehicleID t)
    (RouteID t) (DepartureTime t) (ArrivalTime t) (Status t) (Remarks t) x
    (ReachedPickupAt t) (InTransitAt t) (DeliveredAt t) (CompletedAt t) (CreatedAt t)
    (UpdatedAt t) (Version t) (events t).
Definition set_ReachedPickupAt (x : option Time) (t : TripAggregate) : TripAggregate :=
  mkTrip (ID t) (TenantID t) (TripNumber t) (BookingID t) (DriverID t) (VehicleID t)
    (RouteID t) (DepartureTime t) (ArrivalTime t) (Status t) (Remarks t) (StartedAt t) x
    (InTransitAt t) (DeliveredAt t) (CompletedAt t) (CreatedAt t) (UpdatedAt t) (Version t)
    (events t).
Definition set_InTransitAt (x : option Time) (t : TripAggregate) : TripAggregate :=
  mkTrip (ID t) (TenantID t) (TripNumber t) (BookingID t) (DriverID t) (VehicleID t)
    (RouteID t) (DepartureTime t) (ArrivalTime t) (Status t) (Remarks t) (StartedAt t)
    (ReachedPickupAt t) x (DeliveredAt t) (CompletedAt t) (CreatedAt t) (UpdatedAt t)
    (Version t) (events t).
Definition set_DeliveredAt (x : option Time) (t : TripAggregate) : TripAggregate :=
  mkTrip (ID t) (TenantID t) (TripNumber t) (BookingID t) (DriverID t) (VehicleID t)
    (RouteID t) (DepartureTime t) (ArrivalTime t) (Status t) (Remarks t) (StartedAt t)
    (ReachedPickupAt t) (InTransitAt t) x (CompletedAt t) (CreatedAt t) (UpdatedAt t)
    (Version t) (events t).
Definition set_CompletedAt (x : option Time) (t : TripAggregate) : TripAggregate :=
  mkTrip (ID t) (TenantID t) (TripNumber t) (BookingID t) (DriverID t) (VehicleID t)
    (RouteID t) (DepartureTime t) (ArrivalTime t) (Status t) (Remarks t) (StartedAt t)
    (ReachedPickupAt t) (InTransitAt t) (DeliveredAt t) x (CreatedAt t) (UpdatedAt t)
    (Version t) (events t).
Definition set_UpdatedAt (x : Time) (t : TripAggregate) : TripAggregate :=
  mkTrip (ID t) (TenantID t) (TripNumber t) (BookingID t) (DriverID t) (VehicleID t)
    (RouteID t) (DepartureTime t) (ArrivalTime t) (Status t) (Remarks t) (StartedAt t)
    (ReachedPickupAt t) (InTransitAt t) (DeliveredAt t) (CompletedAt t) (CreatedAt t) x
    (Version t) (events t).
Definition set_Version (x : Z) (t : TripAggregate) : TripAggregate :=
  mkTrip (ID t) (TenantID t) (TripNumber t) (BookingID t) (DriverID t) (VehicleID t)
    (RouteID t) (DepartureTime t) (ArrivalTime t) (Status t) (Remarks t) (StartedAt t)
    (ReachedPickupAt t) (InTransitAt t) (DeliveredAt t) (CompletedAt t) (CreatedAt t)
    (UpdatedAt t) x (events t).
Definition set_events (x : list Event) (t : TripAggregate) : TripAggregate :=
  mkTrip (ID t) (TenantID t) (TripNumber t) (BookingID t) (DriverID t) (VehicleID t)
    (RouteID t) (DepartureTime t) (ArrivalTime t) (Status t) (Remarks t) (StartedAt t)
    (ReachedPickupAt t) (InTransitAt t) (DeliveredAt t) (CompletedAt t) (CreatedAt t)
    (UpdatedAt t) (Version t) x.

Definition RecordEvent (ev : Event) (t : TripAggregate) : TripAggregate :=
  set_events (events t ++ [ev]) t.
Definition ClearEvents (t : TripAggregate) : TripAggregate := set_events [] t.

Definition NewTripAggregate (id tenantID tripNumber : string) (bookingID : option string)
    (routeID : string) (departureTime : Time) (remarks : string) (now : Time) : TripAggregate :=
  RecordEvent (TripCreatedEvent id tenantID tripNumber now)
    (mkTrip id tenantID tripNumber bookingID None None routeID departureTime None
       TripDraft remarks None None None None None now now 0 []).

(** ** Lifecycle operations

    A failing operation leaves the aggregate as it was: every guard precedes
    the first assignment. *)
Definition Schedule (now : Time) (t : TripAggregate) : result TripAggregate :=
  if decide (Status t ≠ TripDraft) then Fail (Err "only draft trips can be scheduled")
  else Ok (RecordEvent (TripScheduledEvent (ID t) (TenantID t) now)
             (set_UpdatedAt now (set_Status TripScheduled t))).

Definition AssignDriver (driverID : string) (now : Time) (t : TripAggregate)
    : result TripAggregate :=
  if decide (Status t = TripCompleted ∨ Status t = TripCancelled)
  then Fail (Err "cannot assign driver to completed or cancelled trip")
  else Ok (RecordEvent (TripAssignedEvent (ID t) (TenantID t) driverID "" now)
             (set_UpdatedAt now (set_Status TripAssigned (set_DriverID (Some driverID) t)))).

Definition AssignVehicle (vehicleID : string) (now : Time) (t : TripAggregate)
    : result TripAggregate :=
  if decide (DriverID t = None ∨ DriverID t = Some ""%string)
  then Fail (Err "driver must be assigned before vehicle")
  else if decide (Status t = TripCompleted ∨ Status t = TripCancelled)
  then Fail (Err "cannot assign vehicle to completed or cancelled trip")
  else
    let driverID := default ""%string (DriverID t) in
    Ok (RecordEvent (TripAssignedEvent (ID t) (TenantID t) driverID vehicleID now)
          (set_UpdatedAt now (set_VehicleID (Some vehicleID) t))).

Definition Start (now : Time) (t : TripAggregate) : result TripAggregate :=
  if decide (Status t ≠ TripAssigned ∧ Status t ≠ TripScheduled)
  then Fail (Err "trip must be scheduled or assigned to start")
  else Ok (RecordEvent (TripStartedEvent (ID t) (TenantID t) now)
             (set_UpdatedAt now (set_StartedAt (Some now) (set_Status TripStarted t)))).

Definition ReachPickup (now : Time) (t : TripAggregate) : result TripAggregate :=
  if decide (Status t ≠ TripStarted)
  then Fail (Err "trip must be started before reaching pickup")
  else Ok (RecordEvent (TripReachedPickupEvent (ID t) (TenantID t) now)
             (set_UpdatedAt now (set_ReachedPickupAt (Some now)
                (set_Status TripReachedPickup t)))).

Definition StartTransit (now : Time) (t : TripAggregate) : result TripAggregate :=
  if decide (Status t ≠ TripReachedPickup)
  then Fail (Err "trip must have reached pickup before going in transit")
  else Ok (RecordEvent (TripInTransitEvent (ID t) (TenantID t) now)
             (set_UpdatedAt now (set_InTransitAt (Some now) (set_Status TripInTransit t)))).

Definition Deliver (now : Time) (t : TripAggregate) : result TripAggregate :=
  if decide (Status t ≠ TripInTransit)
  then Fail (Err "trip must be in transit before being delivered")
  else Ok (RecordEvent (TripDeliveredEvent (ID t) (TenantID t) now)
             (set_UpdatedAt now (set_ArrivalTime (Some now) (set_DeliveredAt (Some now)
                (set_Status TripDelivered t))))).

Definition Complete (now : Time) (t : TripAggregate) : result TripAggregate :=
  if decide (Status t = TripCompleted) then Ok t
  else if decide (Status t ≠ TripDelivered)
  then Fail (Err "only delivered trips can be completed")
  else Ok (RecordEvent (TripCompletedEvent (ID t) (TenantID t) now)
             (set_UpdatedAt now (set_CompletedAt (Some now) (set_Status TripCompleted t)))).

Definition Cancel (now : Time) (t : TripAggregate) : result TripAggregate :=
  if decide (Status t = TripCompleted)
  then Fail (Err "completed trips cannot be cancelled")
  else Ok (RecordEvent (TripCancelledEvent (ID t) (TenantID t) now)
             (set_UpdatedAt now (set_Status TripCancelled t))).

(** The workflow's eligibility predicates (trip_workflow.go). *)
Definition CanComplete (status : TripStatus) : bool := bool_decide (status = TripStarted).
Definition CanCancel (status : TripStatus) : bool := bool_decide (status ≠ TripCompleted).

(** ** The aggregate as a transition system *)
Inductive trip_op :=
| OpSchedule | OpAssignDriver (d : string) | OpAssignVehicle (v : string) | OpStart
| OpReachPickup | OpStartTransit | OpDeliver | OpComplete | OpCancel.

Definition apply_op (op : trip_op) (now : Time) : TripAggregate → result TripAggregate :=
  match op with
  | OpSchedule => Schedule now
  | OpAssignDriver d => AssignDriver d now
  | OpAssignVehicle v => AssignVehicle v now
  | OpStart => Start now
  | OpReachPickup => ReachPickup now
  | OpStartTransit => StartTransit now
  | OpDeliver => Deliver now
  | OpComplete => Complete now
  | OpCancel => Cancel now
  end.

(** One successful operation, at a clock reading no earlier than the last
    change. *)
Inductive trip_step (t t' : TripAggregate) : Prop :=
| trip_step_op op now :
    UpdatedAt t <= now → apply_op op now t = Ok t' → trip_step t t'.

Inductive trip_reachable : TripAggregate → Prop :=
| reach_new id tenant number booking route departure remarks now :
    trip_reachable (NewTripAggregate id tenant number booking route departure remarks now)
| reach_step t t' : trip_reachable t → trip_step t t' → trip_reachable t'.

(** The abstract lifecycle: which operation may move which status where. *)
Definition open_status (s : TripStatus) : Prop := s ≠ TripCompleted ∧ s ≠ TripCancelled.

Inductive lifecycle : TripStatus → trip_op → TripStatus → Prop :=
| lc_schedule : lifecycle TripDraft OpSchedule TripScheduled
| lc_assign s d : open_status s → lifecycle s (OpAssignDriver d) TripAssigned
| lc_vehicle s v : open_status s → lifecycle s (OpAssignVehicle v) s
| lc_start s : s = TripScheduled ∨ s = TripAssigned → lifecycle s OpStart TripStarted
| lc_pickup : lifecycle TripStarted OpReachPickup TripReachedPickup
| lc_transit : lifecycle TripReachedPickup OpStartTransit TripInTransit
| lc_deliver : lifecycle TripInTransit OpDeliver TripDelivered
| lc_complete s : s = TripDelivered ∨ s = TripCompleted → lifecycle s OpComplete TripCompleted
| lc_cancel s : s ≠ TripCompleted → lifecycle s OpCancel TripCancelled.

(** What an operation needs of the aggregate beyond its status. *)
Definition op_ready (op : trip_op) (t : TripAggregate) : Prop :=
  match op with
  | OpAssignVehicle _ => ∃ d, DriverID t = Some d ∧ d ≠ ""%string
  | _ => True
  end.

(** Unfolds an operation and splits on its guards. *)
Ltac trip_cases H :=
  cbn [apply_op] in H;
  unfold Schedule, AssignDriver, AssignVehicle, Start, ReachPickup, StartTransit, Deliver,
    Complete, Cancel in H;
  repeat case_decide; try discriminate H; injection H as H; subst; cbn in *.

(** ** Lifecycle theorems *)

(** Which statuses an operation leaves and reaches. *)
Lemma lifecycle_sound op now t t' :
  apply_op op now t = Ok t' → lifecycle (Status t) op (Status t').
Proof.
  intros H. destruct op; trip_cases H; destruct (Status _) eqn:Es; try tauto; try congruence;
    once constructor; unfold open_status; naive_solver.
Qed.

Lemma lifecycle_complete op now t s' :
  lifecycle (Status t) op s' → op_ready op t →
  ∃ t', apply_op op now t = Ok t' ∧ Status t' = s'.
Proof.
  intros H Hr. inversion H; subst; cbn [apply_op op_ready] in *; unfold open_status in *;
    unfold Schedule, AssignDriver, AssignVehicle, Start, ReachPickup, StartTransit, Deliver,
      Complete, Cancel; repeat case_decide; naive_solver.
Qed.

(** the operations implement the abstract lifecycle: [op] succeeds on [t]
    exactly when the lifecycle has an edge for it, and lands on that edge. *)
Theorem trip_operations_refine_lifecycle op now t s' :
  (∃ t', apply_op op now t = Ok t' ∧ Status t' = s') ↔
  lifecycle (Status t) op s' ∧ op_ready op t.
Proof.
  split.
  - intros (t' & H & <-). split; [by eapply lifecycle_sound|].
    destruct op; try done. trip_cases H.
    destruct (DriverID t) as [d|] eqn:Ed; [|naive_solver]. exists d. naive_solver.
  - intros [Hl Hr]. by eapply lifecycle_complete.
Qed.

(** Identity and creation data never change. *)
Lemma apply_op_frame op now t t' :
  apply_op op now t = Ok t' →
  ID t' = ID t ∧ TenantID t' = TenantID t ∧ TripNumber t' = TripNumber t ∧
  BookingID t' = BookingID t ∧ RouteID t' = RouteID t ∧ Version t' = Version t ∧
  CreatedAt t' = CreatedAt t.
Proof. intros H. destruct op; trip_cases H; done. Qed.

(** Every successful operation records exactly one event, except completing
    a trip that is already completed. *)
Lemma apply_op_events op now t t' :
  apply_op op now t = Ok t' →
  (op = OpComplete ∧ Status t = TripCompleted ∧ t' = t) ∨
  (∃ ev, events t' = (events t ++ [ev])%list ∧ UpdatedAt t' = now).
Proof. intros H. destruct op; trip_cases H; eauto. Qed.

(** ** The timeline *)
Fixpoint sorted_upto (lo : Time) (l : list (option Time)) (hi : Time) : Prop :=
  match l with
  | [] => lo <= hi
  | None :: _ => False
  | Some x :: l' => lo <= x ∧ sorted_upto x l' hi
  end.

Lemma sorted_upto_le lo l hi : sorted_upto lo l hi → lo <= hi.
Proof.
  revert lo. induction l as [|[y|] l IH]; cbn; intros lo H; [done| |done].
  destruct H as [H1 H2%IH]. lia.
Qed.

(** The stamps the current status vouches for, in order. *)
Definition stamps (t : TripAggregate) : list (option Time) :=
  match Status t with
  | TripStarted => [StartedAt t]
  | TripReachedPickup => [StartedAt t; ReachedPickupAt t]
  | TripInTransit => [StartedAt t; ReachedPickupAt t; InTransitAt t]
  | TripDelivered => [StartedAt t; ReachedPickupAt t; InTransitAt t; DeliveredAt t]
  | TripCompleted =>
      [StartedAt t; ReachedPickupAt t; InTransitAt t; DeliveredAt t; CompletedAt t]
  | _ => []
  end.

Definition timeline_ok (t : TripAggregate) : Prop :=
  sorted_upto (CreatedAt t) (stamps t) (UpdatedAt t) ∧
  (Status t = TripDelivered ∨ Status t = TripCompleted → ArrivalTime t = DeliveredAt t) ∧
  (∀ s, Status t ≠ TripStatusOther s).

Lemma timeline_ok_step t t' : timeline_ok t → trip_step t t' → timeline_ok t'.
Proof.
  intros (Hs & Ha & Hk) [op now Hnow H].
  assert (Hlo : CreatedAt t <= now) by (apply sorted_upto_le in Hs; lia).
  unfold timeline_ok, stamps in *.
  destruct op; trip_cases H; destruct (Status _) eqn:Es; try tauto; try congruence; cbn in *;
    repeat case_match; try done; naive_solver lia.
Qed.

Definition demo_trip : TripAggregate :=
  NewTripAggregate "t1" "acme" "TR-1" None "r1" (100 * day) "" (10 * day).

(** The demonstration trip after a run of operations at successive days. *)
Fixpoint demo_run (now : Time) (ops : list trip_op) (t : TripAggregate) : TripAggregate :=
  match ops with
  | [] => t
  | op :: ops =>
      match apply_op op now t with Ok t' => demo_run (now + day) ops t' | Fail _ => t end
  end.
Lemma demo_run_reachable now ops t :
  trip_reachable t → UpdatedAt t <= now → trip_reachable (demo_run now ops t).
Proof.
  revert now t. induction ops as [|op ops IH]; intros now t Ht Hnow; cbn; [done|].
  destruct (apply_op op now t) as [t'|e] eqn:E; [|done].
  apply IH; [by eapply reach_step; [exact Ht|apply (trip_step_op _ _ op now)]|].
  assert (0 < day) by reflexivity.
  destruct (apply_op_events _ _ _ _ E) as [(_ & _ & ->)|(ev & _ & ->)]; lia.
Qed.

Definition demo_delivered : TripAggregate :=
  demo_run (11 * day) [OpSchedule; OpAssignDriver "d1"; OpAssignVehicle "v1"; OpStart;
    OpReachPickup; OpStartTransit; OpDeliver] demo_trip.

(** on every reachable trip the timestamps the current status vouches for
    are all set, in lifecycle order and between creation and last update;
    a delivered trip's arrival time is its delivery time. *)
Theorem timeline_ordered t : trip_reachable t → timeline_ok t.
Proof.
  induction 1 as [|t t' Ht IH Hstep]; [|by eapply timeline_ok_step].
  unfold timeline_ok; cbn. split; [lia|]. naive_solver.
Qed.

Lemma timeline_ordered_witness : timeline_ok demo_delivered.
Proof.
  apply (timeline_ordered demo_delivered), demo_run_reachable; [|vm_compute; discriminate].
  exact (reach_new "t1" "acme" "TR-1" None "r1" (100 * day) "" (10 * day)).
Defined.

(** Closed trips. *)
Lemma completed_step op now t t' :
  Status t = TripCompleted → apply_op op now t = Ok t' → op = OpComplete ∧ t' = t.
Proof. intros Hs H. destruct op; trip_cases H; try tauto; exfalso; intuition congruence. Qed.

Lemma cancelled_step op now t t' :
  Status t = TripCancelled → apply_op op now t = Ok t' →
  op = OpCancel ∧
  t' = RecordEvent (TripCancelledEvent (ID t) (TenantID t) now) (set_UpdatedAt now t).
Proof.
  intros Hs H. destruct op; trip_cases H; try (exfalso; intuition congruence).
  split; [done|]. destruct t; cbn in *; by subst.
Qed.

(** A closed trip's assignment and timeline. *)
Definition same_trip (t t' : TripAggregate) : Prop :=
  Status t' = Status t ∧ DriverID t' = DriverID t ∧ VehicleID t' = VehicleID t ∧
  ArrivalTime t' = ArrivalTime t ∧ stamps t' = stamps t ∧ DeliveredAt t' = DeliveredAt t.

#[export] Instance same_trip_preorder : PreOrder same_trip.
Proof. split; [by repeat split|]. unfold same_trip. intros ??? (?&?&?&?&?&?) (?&?&?&?&?&?). repeat split; congruence. Qed.

(** completed and cancelled trips are closed for good: whatever sequence
    of operations follows, status, assignment and timeline stay. *)
Theorem closed_trip_is_final t t' :
  Status t = TripCompleted ∨ Status t = TripCancelled →
  rtc trip_step t t' → same_trip t t'.
Proof.
  intros Hc Hr. induction Hr as [t|t t1 t' [op now _ H] Hr IH]; [done|].
  assert (Hs : same_trip t t1).
  { destruct Hc as [Hc|Hc].
    - eapply completed_step in H as [_ ->]; done.
    - eapply cancelled_step in H as [_ ->]; [|done]. by repeat split. }
  rewrite Hs. apply IH. destruct Hs as [-> _]. exact Hc.
Qed.

Lemma closed_trip_is_final_witness :
  let t := demo_run (18 * day) [OpComplete] demo_delivered in
  Status t = TripCompleted ∧ same_trip t (demo_run (19 * day) [OpComplete] t).
Proof.
  intros t. split; [reflexivity|].
  apply (closed_trip_is_final t); [left; reflexivity|].
  apply rtc_once. apply (trip_step_op _ _ OpComplete (19 * day)); [vm_compute; discriminate|reflexivity].
Defined.

(** reassigning the driver of a trip that is already under way succeeds
    and moves it back to [assigned], keeping the stamps of the stages it had
    reached; every earlier stage is open again. *)
Theorem reassign_reopens d now t :
  Status t = TripStarted ∨ Status t = TripReachedPickup ∨ Status t = TripInTransit ∨
    Status t = TripDelivered →
  ∃ t', AssignDriver d now t = Ok t' ∧ Status t' = TripAssigned ∧
        DeliveredAt t' = DeliveredAt t ∧ InTransitAt t' = InTransitAt t ∧
        ∃ t'', Start now t' = Ok t'' ∧ StartedAt t'' = Some now ∧
               InTransitAt t'' = InTransitAt t.
Proof.
  intros H. unfold AssignDriver. case_decide as E; [naive_solver congruence|].
  eexists. split; [reflexivity|]. cbn. do 3 (split; [done|]).
  unfold Start. cbn. case_decide as E'; [naive_solver|]. eexists. by split.
Qed.

Lemma reassign_reopens_witness :
  ∃ t', AssignDriver "d2" (20 * day) demo_delivered = Ok t' ∧ Status t' = TripAssigned ∧
        DeliveredAt t' = DeliveredAt demo_delivered ∧
        InTransitAt t' = InTransitAt demo_delivered ∧
        ∃ t'', Start (20 * day) t' = Ok t'' ∧ StartedAt t'' = Some (20 * day) ∧
               InTransitAt t'' = InTransitAt demo_delivered.
Proof. apply (reassign_reopens "d2" (20 * day) demo_delivered). do 3 right. reflexivity. Defined.

(** the workflow's [CanComplete] disagrees with [Complete]: whenever it
    says yes the aggregate refuses, and a delivered trip, which the aggregate
    completes, is reported as not completable.  [CanCancel] agrees with
    [Cancel]. *)
Theorem CanComplete_contradicts_Complete now t :
  (CanComplete (Status t) = true → is_Ok (Complete now t) = false) ∧
  (Status t = TripDelivered → CanComplete (Status t) = false ∧ is_Ok (Complete now t) = true) ∧
  CanCancel (Status t) = is_Ok (Cancel now t).
Proof.
  unfold CanComplete, CanCancel, Complete, Cancel. destruct (Status t) eqn:E; cbn;
    repeat case_decide; repeat case_bool_decide; naive_solver.
Qed.
End Trip.
