(* ===== verification/BookingAggregate.v ===== *)
(** * The booking aggregate

    [internal/booking/domain/aggregate/booking_aggregate.go] and
    [internal/booking/domain/workflow/booking_workflow.go]: a booking, its
    lifecycle operations, its events and the lifecycle's specification. *)
From stdpp Require Import base decidable list strings option relations.
From Stdlib Require Import ZArith Lia String.
From S2P Require Import Prelude GoFloat Shared Events.
Open Scope Z_scope.

Module Booking.

Inductive BookingStatus :=
| BookingDraft | BookingPending | BookingConfirmed | BookingCancelled | BookingCompleted
| BookingStatusOther (s : string).

#[global] Instance BookingStatus_eq_dec : EqDecision BookingStatus.
Proof. solve_decision. Defined.

Definition status_string (s : BookingStatus) : string :=
  match s with
  | BookingDraft => "draft" | BookingPending => "pending"
  | BookingConfirmed => "confirmed" | BookingCancelled => "cancelled"
  | BookingCompleted => "completed" | BookingStatusOther s => s
  end.

Definition known_statuses : list BookingStatus :=
  [BookingDraft; BookingPending; BookingConfirmed; BookingCancelled; BookingCompleted].

(** [aggregate.BookingStatus(s)]. *)
Definition status_of_string (s : string) : BookingStatus :=
  match List.find (λ k, String.eqb (status_string k) s) known_statuses with
  | Some k => k
  | None => BookingStatusOther s
  end.

Definition status_wf (s : BookingStatus) : Prop := status_of_string (status_string s) = s.

Record BookingAggregate := mkBooking {
  ID : string; TenantID : string; BookingNumber : string; CustomerID : string;
  RouteID : string; PickupDate : Time; VehicleType : string; Passengers : Z;
  CargoWeight : option float64; Price : Money.Money; Notes : string; Status : BookingStatus;
  CreatedAt : Time; UpdatedAt : Time; Version : Z; events : list Event }.

Definition set_Status (x : BookingStatus) (b : BookingAggregate) : BookingAggregate :=
  mkBooking (ID b) (TenantID b) (BookingNumber b) (CustomerID b) (RouteID b) (PickupDate b)
    (VehicleType b) (Passengers b) (CargoWeight b) (Price b) (Notes b) x (CreatedAt b)
    (UpdatedAt b) (Version b) (events b).
Definition set_UpdatedAt (x : Time) (b : BookingAggregate) : BookingAggregate :=
  mkBooking (ID b) (TenantID b) (BookingNumber b) (CustomerID b) (RouteID b) (PickupDate b)
    (VehicleType b) (Passengers b) (CargoWeight b) (Price b) (Notes b) (Status b)
    (CreatedAt b) x (Version b) (events b).
Definition set_Version (x : Z) (b : BookingAggregate) : BookingAggregate :=
  mkBooking (ID b) (TenantID b) (BookingNumber b) (CustomerID b) (RouteID b) (PickupDate b)
    (VehicleType b) (Passengers b) (CargoWeight b) (Price b) (Notes b) (Status b)
    (CreatedAt b) (UpdatedAt b) x (events b).
Definition set_events (x : list Event) (b : BookingAggregate) : BookingAggregate :=
  mkBooking (ID b) (TenantID b) (BookingNumber b) (CustomerID b) (RouteID b) (PickupDate b)
    (VehicleType b) (Passengers b) (CargoWeight b) (Price b) (Notes b) (Status b)
    (CreatedAt b) (UpdatedAt b) (Version b) x.

Definition RecordEvent (ev : Event) (b : BookingAggregate) : BookingAggregate :=
  set_events (events b ++ [ev]) b.
Definition ClearEvents (b : BookingAggregate) : BookingAggregate := set_events [] b.

Definition NewBookingAggregate (id tenantID bookingNumber customerID routeID : string)
    (pickupDate : Time) (vehicleType : string) (passengers : Z)
    (cargoWeight : option float64) (price : Money.Money) (notes : string) (now : Time)
    : BookingAggregate :=
  RecordEvent (BookingCreatedEvent id tenantID bookingNumber now)
    (mkBooking id tenantID bookingNumber customerID routeID pickupDate vehicleType
       passengers cargoWeight price notes BookingPending now now 0 []).

Definition Confirm (now : Time) (b : BookingAggregate) : result BookingAggregate :=
  if decide (Status b = BookingCancelled)
  then Fail (Err "cancelled bookings cannot be confirmed")
  else if decide (Status b ≠ BookingPending)
  then Fail (Err "only pending bookings can be confirmed")
  else Ok (RecordEvent (BookingConfirmedEvent (ID b) (TenantID b) now)
             (set_UpdatedAt now (set_Status BookingConfirmed b))).

Definition Complete (now : Time) (b : BookingAggregate) : result BookingAggregate :=
  if decide (Status b ≠ BookingConfirmed)
  then Fail (Err "only confirmed bookings can be completed")
  else Ok (RecordEvent (BookingCompletedEvent (ID b) (TenantID b) now)
             (set_UpdatedAt now (set_Status BookingCompleted b))).

Definition Cancel (now : Time) (b : BookingAggregate) : result BookingAggregate :=
  if decide (Status b = BookingCompleted)
  then Fail (Err "completed bookings cannot be cancelled")
  else Ok (RecordEvent (BookingCancelledEvent (ID b) (TenantID b) now)
             (set_UpdatedAt now (set_Status BookingCancelled b))).

Definition Update (customerID routeID : string) (pickupDate : Time) (vehicleType : string)
    (passengers : Z) (cargoWeight : option float64) (price : Money.Money) (notes : string)
    (now : Time) (b : BookingAggregate) : result BookingAggregate :=
  if decide (Status b = BookingCancelled ∨ Status b = BookingCompleted)
  then Fail (Err "cannot update cancelled or completed bookings")
  else Ok (RecordEvent (BookingUpdatedEvent (ID b) (TenantID b) now)
             (mkBooking (ID b) (TenantID b) (BookingNumber b) customerID routeID pickupDate
                vehicleType passengers cargoWeight price notes (Status b) (CreatedAt b) now
                (Version b) (events b))).

(** The workflow's predicates (booking_workflow.go). *)
Definition CanComplete (status : BookingStatus) : bool :=
  bool_decide (status = BookingConfirmed).
Definition CanCancel (status : BookingStatus) : bool :=
  bool_decide (status ≠ BookingCompleted).

Inductive booking_op :=
| OpConfirm | OpComplete | OpCancel
| OpUpdate (customerID routeID : string) (pickupDate : Time) (vehicleType : string)
    (passengers : Z) (cargoWeight : option float64) (price : Money.Money) (notes : string).

Definition apply_op (op : booking_op) (now : Time)
    : BookingAggregate → result BookingAggregate :=
  match op with
  | OpConfirm => Confirm now
  | OpComplete => Complete now
  | OpCancel => Cancel now
  | OpUpdate c r d v p w m n => Update c r d v p w m n now
  end.

Inductive booking_step (b b' : BookingAggregate) : Prop :=
| booking_step_op op now : apply_op op now b = Ok b' → booking_step b b'.

Ltac booking_cases H :=
  cbn [apply_op] in H; unfold Confirm, Complete, Cancel, Update in H;
  repeat case_decide; try discriminate H; injection H as H; subst; cbn in *.

(** The lifecycle of docs/business-rules/booking.md, pending, confirmed,
    completed, with cancellation from anywhere but completed, and with the
    edges the code has beyond it: a confirmed booking can still be updated,
    and a cancelled one cancelled again. *)
Inductive lifecycle : BookingStatus → booking_op → BookingStatus → Prop :=
| lc_confirm : lifecycle BookingPending OpConfirm BookingConfirmed
| lc_complete : lifecycle BookingConfirmed OpComplete BookingCompleted
| lc_cancel s : s ≠ BookingCompleted → lifecycle s OpCancel BookingCancelled
| lc_update s c r d v p w m n :
    s ≠ BookingCancelled → s ≠ BookingCompleted → lifecycle s (OpUpdate c r d v p w m n) s.

Lemma booking_status_string_of_string s : status_string (status_of_string s) = s.
Proof.
  unfold status_of_string. destruct (List.find _ _) as [k|] eqn:E; [|done].
  apply find_some in E as [_ E]. by apply String.eqb_eq.
Qed.

Lemma booking_status_of_string_wf s : status_wf (status_of_string s).
Proof. unfold status_wf. by rewrite booking_status_string_of_string. Qed.

(** The operations against the lifecycle. *)
Lemma booking_lifecycle_iff op now b s' :
  (∃ b', apply_op op now b = Ok b' ∧ Status b' = s') ↔ lifecycle (Status b) op s'.
Proof.
  split.
  - intros (b' & H & <-). destruct op; booking_cases H; destruct (Status _) eqn:Es;
      try tauto; try congruence; once constructor; congruence.
  - intros H. inversion H; subst; cbn [apply_op]; unfold Confirm, Complete, Cancel, Update;
      repeat case_decide; try (exfalso; intuition congruence); eexists; split; try done.
Qed.

(** a booking operation succeeds exactly on the edges of the lifecycle,
    and lands where the edge says. *)
Theorem booking_operations_refine_lifecycle op now b s' :
  (∃ b', apply_op op now b = Ok b' ∧ Status b' = s') ↔ lifecycle (Status b) op s'.
Proof. apply booking_lifecycle_iff. Qed.

Lemma booking_apply_op_frame op now b b' :
  apply_op op now b = Ok b' →
  ID b' = ID b ∧ TenantID b' = TenantID b ∧ BookingNumber b' = BookingNumber b ∧
  Version b' = Version b ∧ CreatedAt b' = CreatedAt b ∧
  ∃ ev, events b' = (events b ++ [ev])%list ∧ UpdatedAt b' = now.
Proof. intros H. destruct op; booking_cases H; eauto 10. Qed.

Lemma completed_refuses op now b :
  Status b = BookingCompleted → is_Ok (apply_op op now b) = false.
Proof.
  intros Hs. destruct op; cbn [apply_op]; unfold Confirm, Complete, Cancel, Update;
    rewrite Hs; repeat case_decide; try done; exfalso; intuition congruence.
Qed.

Lemma CanComplete_spec now b : CanComplete (Status b) = is_Ok (Complete now b).
Proof. unfold CanComplete, Complete. case_bool_decide; case_decide; try done; exfalso; intuition congruence. Qed.

(** a completed booking refuses every operation, and whatever happens to
    a cancelled one it keeps its terms: customer, route, price, status. *)
Theorem closed_booking_is_final b b' :
  rtc booking_step b b' →
  (Status b = BookingCompleted → b' = b) ∧
  (Status b = BookingCancelled →
     Status b' = BookingCancelled ∧ CustomerID b' = CustomerID b ∧ RouteID b' = RouteID b ∧
     Price b' = Price b ∧ PickupDate b' = PickupDate b).
Proof.
  induction 1 as [b|b b1 b' [op now H] Hr [IH1 IH2]]; [done|]. split; intros Hs.
  - pose proof (completed_refuses op now b Hs) as Hf. by rewrite H in Hf.
  - assert (Hb : Status b1 = BookingCancelled ∧ CustomerID b1 = CustomerID b ∧
       RouteID b1 = RouteID b ∧ Price b1 = Price b ∧ PickupDate b1 = PickupDate b).
    { destruct op; booking_cases H; try (exfalso; intuition congruence); by repeat split. }
    destruct Hb as (Hs1 & <- & <- & <- & <-). by apply IH2.
Qed.

Definition demo_cancelled : BookingAggregate :=
  let b := NewBookingAggregate "b1" "acme" "BK-1" "c1" "r1" (100 * day) "bus" 40 None
             (Money.mkMoney 10000 "INR") "" (10 * day) in
  match Cancel (11 * day) b with Ok b' => b' | Fail _ => b end.
Definition demo_cancelled_again : BookingAggregate :=
  match Cancel (12 * day) demo_cancelled with Ok b' => b' | Fail _ => demo_cancelled end.

Lemma closed_booking_is_final_witness :
  let b := demo_cancelled in
  let b' := demo_cancelled_again in
  (Status b = BookingCompleted → b' = b) ∧
  (Status b = BookingCancelled →
     Status b' = BookingCancelled ∧ CustomerID b' = CustomerID b ∧ RouteID b' = RouteID b ∧
     Price b' = Price b ∧ PickupDate b' = PickupDate b).
Proof.
  apply (closed_booking_is_final demo_cancelled demo_cancelled_again), rtc_once.
  apply (booking_step_op _ _ OpCancel (12 * day)). vm_compute. reflexivity.
Defined.

End Booking.
