(* ===== verification/FleetAggregates.v ===== *)
(** * The driver and vehicle aggregates

    [internal/driver/domain/aggregate/driver_aggregate.go] and
    [internal/vehicle/domain/aggregate/vehicle_aggregate.go]. *)
From stdpp Require Import base decidable list strings option.
From Stdlib Require Import ZArith Lia String.
From S2P Require Import Prelude GoFloat Shared Events.
Open Scope Z_scope.

Module Driver.

Inductive DriverStatus :=
| DriverAvailable | DriverOnTrip | DriverLeave | DriverInactive | DriverStatusOther (s : string).
#[global] Instance DriverStatus_eq_dec : EqDecision DriverStatus.
Proof. solve_decision. Defined.

Definition status_string (s : DriverStatus) : string :=
  match s with
  | DriverAvailable => "available" | DriverOnTrip => "on_trip"
  | DriverLeave => "leave" | DriverInactive => "inactive" | DriverStatusOther s => s
  end.
Definition status_of_string (s : string) : DriverStatus :=
  match List.find (λ k, String.eqb (status_string k) s)
          [DriverAvailable; DriverOnTrip; DriverLeave; DriverInactive] with
  | Some k => k
  | None => DriverStatusOther s
  end.

Record DriverAggregate := mkDriver {
  ID : string; TenantID : string; DriverDisplayID : string; FirstName : string;
  LastName : string; Phone : string; Email : option string; Address : option string;
  LicenseNumber : string; LicenseExpiry : Time; ExperienceYears : Z; Status : DriverStatus;
  EmergencyContactName : option string; EmergencyContactPhone : option string;
  Notes : option string; CreatedAt : Time; UpdatedAt : Time; Version : Z;
  events : list Event }.

Definition set_events (x : list Event) (d : DriverAggregate) : DriverAggregate :=
  mkDriver (ID d) (TenantID d) (DriverDisplayID d) (FirstName d) (LastName d) (Phone d)
    (Email d) (Address d) (LicenseNumber d) (LicenseExpiry d) (ExperienceYears d) (Status d)
    (EmergencyContactName d) (EmergencyContactPhone d) (Notes d) (CreatedAt d) (UpdatedAt d)
    (Version d) x.

Definition RecordEvent (ev : Event) (d : DriverAggregate) : DriverAggregate :=
  set_events (events d ++ [ev]) d.
Definition ClearEvents (d : DriverAggregate) : DriverAggregate := set_events [] d.

Definition NewDriverAggregate (id tenantID driverDisplayID firstName lastName phone : string)
    (email address : option string) (licenseNumber : string) (licenseExpiry : Time)
    (experienceYears : Z) (status : DriverStatus)
    (emergencyContactName emergencyContactPhone notes : option string) (now : Time)
    : DriverAggregate :=
  RecordEvent (DriverCreatedEvent id tenantID driverDisplayID phone licenseNumber now)
    (mkDriver id tenantID driverDisplayID firstName lastName phone email address
       licenseNumber licenseExpiry experienceYears status emergencyContactName
       emergencyContactPhone notes now now 0 []).

Definition UpdateDetails (firstName lastName phone : string) (email address : option string)
    (licenseNumber : string) (licenseExpiry : Time) (experienceYears : Z)
    (status : DriverStatus) (emergencyContactName emergencyContactPhone notes : option string)
    (now : Time) (a : DriverAggregate) : result DriverAggregate :=
  if is_empty firstName || is_empty lastName
  then Fail (Err "first and last name are required")
  else if is_empty phone then Fail (Err "phone number is required")
  else Ok (RecordEvent (DriverUpdatedEvent (ID a) (TenantID a) (status_string status) now)
             (mkDriver (ID a) (TenantID a) (DriverDisplayID a) firstName lastName phone
                email address licenseNumber licenseExpiry experienceYears status
                emergencyContactName emergencyContactPhone notes (CreatedAt a) now
                (Version a) (events a))).

Lemma driver_status_string_of_string s : status_string (status_of_string s) = s.
Proof.
  unfold status_of_string. destruct (List.find _ _) as [k|] eqn:E; [|done].
  apply find_some in E as [_ E]. by apply String.eqb_eq.
Qed.

End Driver.

Module Vehicle.

Inductive VehicleStatus :=
| VehicleAvailable | VehicleRunning | VehicleMaintenance | VehicleInactive
| VehicleStatusOther (s : string).
#[global] Instance VehicleStatus_eq_dec : EqDecision VehicleStatus.
Proof. solve_decision. Defined.

Definition status_string (s : VehicleStatus) : string :=
  match s with
  | VehicleAvailable => "available" | VehicleRunning => "running"
  | VehicleMaintenance => "maintenance" | VehicleInactive => "inactive"
  | VehicleStatusOther s => s
  end.
Definition status_of_string (s : string) : VehicleStatus :=
  match List.find (λ k, String.eqb (status_string k) s)
          [VehicleAvailable; VehicleRunning; VehicleMaintenance; VehicleInactive] with
  | Some k => k
  | None => VehicleStatusOther s
  end.

Record VehicleAggregate := mkVehicle {
  ID : string; TenantID : string; RegistrationNumber : string; VehicleNumber : string;
  VehicleType : string; Capacity : Z; FuelType : string; InsuranceExpiry : Time;
  FitnessExpiry : Time; PermitExpiry : Time; Status : VehicleStatus;
  CurrentMileage : option float64; CreatedAt : Time; UpdatedAt : Time; Version : Z;
  events : list Event }.

Definition set_events (x : list Event) (v : VehicleAggregate) : VehicleAggregate :=
  mkVehicle (ID v) (TenantID v) (RegistrationNumber v) (VehicleNumber v) (VehicleType v)
    (Capacity v) (FuelType v) (InsuranceExpiry v) (FitnessExpiry v) (PermitExpiry v)
    (Status v) (CurrentMileage v) (CreatedAt v) (UpdatedAt v) (Version v) x.

Definition RecordEvent (ev : Event) (v : VehicleAggregate) : VehicleAggregate :=
  set_events (events v ++ [ev]) v.
Definition ClearEvents (v : VehicleAggregate) : VehicleAggregate := set_events [] v.

Definition NewVehicleAggregate (id tenantID registrationNumber vehicleNumber vehicleType : string)
    (capacity : Z) (fuelType : string) (insuranceExpiry fitnessExpiry permitExpiry : Time)
    (status : VehicleStatus) (currentMileage : option float64) (now : Time)
    : VehicleAggregate :=
  RecordEvent (VehicleCreatedEvent id tenantID registrationNumber vehicleNumber now)
    (mkVehicle id tenantID registrationNumber vehicleNumber vehicleType capacity fuelType
       insuranceExpiry fitnessExpiry permitExpiry status currentMileage now now 0 []).

Definition UpdateDetails (registrationNumber vehicleNumber vehicleType : string)
    (capacity : Z) (fuelType : string) (insuranceExpiry fitnessExpiry permitExpiry : Time)
    (status : VehicleStatus) (currentMileage : option float64) (now : Time)
    (a : VehicleAggregate) : result VehicleAggregate :=
  if is_empty registrationNumber || is_empty vehicleNumber
  then Fail (Err "registration and vehicle number are required")
  else Ok (RecordEvent
             (VehicleUpdatedEvent (ID a) (TenantID a) (status_string status) registrationNumber now)
             (mkVehicle (ID a) (TenantID a) registrationNumber vehicleNumber vehicleType
                capacity fuelType insuranceExpiry fitnessExpiry permitExpiry status
                currentMileage (CreatedAt a) now (Version a) (events a))).

Lemma vehicle_status_string_of_string s : status_string (status_of_string s) = s.
Proof.
  unfold status_of_string. destruct (List.find _ _) as [k|] eqn:E; [|done].
  apply find_some in E as [_ E]. by apply String.eqb_eq.
Qed.

End Vehicle.
