(* ===== verification/InvoiceAggregate.v ===== *)
(** * The invoice and payment aggregates

    [internal/invoice/domain/aggregate/invoice_aggregate.go] and
    [internal/payment/domain/aggregate/payment_aggregate.go]: money is
    [float64], so every amount here is a binary64 value. *)
From stdpp Require Import base decidable list strings option relations.
From Stdlib Require Import ZArith Lia String.
From S2P Require Import Prelude GoFloat Shared Events.
Open Scope Z_scope.

Module Invoice.

Inductive PaymentStatus_t :=
| PaymentStatusPending | PaymentStatusPaid | PaymentStatusPartiallyPaid
| PaymentStatusOther (s : string).
#[global] Instance PaymentStatus_eq_dec : EqDecision PaymentStatus_t.
Proof. solve_decision. Defined.

Inductive InvoiceStatus :=
| InvoiceStatusDraft | InvoiceStatusIssued | InvoiceStatusOutstanding | InvoiceStatusPaid
| InvoiceStatusCancelled | InvoiceStatusOther (s : string).
#[global] Instance InvoiceStatus_eq_dec : EqDecision InvoiceStatus.
Proof. solve_decision. Defined.

Definition payment_status_string (s : PaymentStatus_t) : string :=
  match s with
  | PaymentStatusPending => "pending" | PaymentStatusPaid => "paid"
  | PaymentStatusPartiallyPaid => "partially_paid" | PaymentStatusOther s => s
  end.
Definition payment_status_of_string (s : string) : PaymentStatus_t :=
  match List.find (λ k, String.eqb (payment_status_string k) s)
          [PaymentStatusPending; PaymentStatusPaid; PaymentStatusPartiallyPaid] with
  | Some k => k | None => PaymentStatusOther s
  end.
Definition invoice_status_string (s : InvoiceStatus) : string :=
  match s with
  | InvoiceStatusDraft => "draft" | InvoiceStatusIssued => "issued"
  | InvoiceStatusOutstanding => "outstanding" | InvoiceStatusPaid => "paid"
  | InvoiceStatusCancelled => "cancelled" | InvoiceStatusOther s => s
  end.
Definition invoice_status_of_string (s : string) : InvoiceStatus :=
  match List.find (λ k, String.eqb (invoice_status_string k) s)
          [InvoiceStatusDraft; InvoiceStatusIssued; InvoiceStatusOutstanding;
           InvoiceStatusPaid; InvoiceStatusCancelled] with
  | Some k => k | None => InvoiceStatusOther s
  end.

Definition LineTypeFreight := "freight"%string.
Definition LineTypeDetention := "detention"%string.
Definition LineTypeAccessorial := "accessorial"%string.

Record LineItem := mkLineItem {
  ItemID : string; ItemTenantID : string; ItemInvoiceID : string;
  ItemTripID : option string; LineType : string; HSNSACCode : option string;
  Description : string; Unit : option string; Quantity : float64; UnitPrice : float64;
  Rate : float64; TaxableValue : float64; CgstRate : float64; SgstRate : float64;
  IgstRate : float64; CgstAmount : float64; SgstAmount : float64; IgstAmount : float64;
  Amount : float64; LineTotal : float64; RefID : option string }.

Definition set_Amount (x : float64) (l : LineItem) : LineItem :=
  mkLineItem (ItemID l) (ItemTenantID l) (ItemInvoiceID l) (ItemTripID l) (LineType l)
    (HSNSACCode l) (Description l) (Unit l) (Quantity l) (UnitPrice l) (Rate l)
    (TaxableValue l) (CgstRate l) (SgstRate l) (IgstRate l) (CgstAmount l) (SgstAmount l)
    (IgstAmount l) x (LineTotal l) (RefID l).

Record InvoiceAggregate := mkInvoice {
  ID : string; TenantID : string; InvoiceNumber : string; BookingID : string;
  CustomerID : string; TripID : option string; Subtotal : float64; Tax : float64;
  Cgst : float64; Sgst : float64; Igst : float64; Discount : float64; Total : float64;
  PaymentStatus : PaymentStatus_t; PaidAmount : float64; Status : InvoiceStatus;
  DueDate : option Time; FinancialYear : string; CreditBalance : float64; Remarks : string;
  IRN : option string; IRNAckNo : option string; IRNAckDate : option string;
  SignedQR : option string; EwbNumber : option string; CreatedAt : Time; UpdatedAt : Time;
  Version : Z; LineItems : list LineItem; events : list Event }.

Definition set_Subtotal (x : float64) (a : InvoiceAggregate) : InvoiceAggregate :=
  mkInvoice (ID a) (TenantID a) (InvoiceNumber a) (BookingID a) (CustomerID a) (TripID a) x
    (Tax a) (Cgst a) (Sgst a) (Igst a) (Discount a) (Total a) (PaymentStatus a)
    (PaidAmount a) (Status a) (DueDate a) (FinancialYear a) (CreditBalance a) (Remarks a)
    (IRN a) (IRNAckNo a) (IRNAckDate a) (SignedQR a) (EwbNumber a) (CreatedAt a)
    (UpdatedAt a) (Version a) (LineItems a) (events a).
Definition set_Tax (x : float64) (a : InvoiceAggregate) : InvoiceAggregate :=
  mkInvoice (ID a) (TenantID a) (InvoiceNumber a) (BookingID a) (CustomerID a) (TripID a)
    (Subtotal a) x (Cgst a) (Sgst a) (Igst a) (Discount a) (Total a) (PaymentStatus a)
    (PaidAmount a) (Status a) (DueDate a) (FinancialYear a) (CreditBalance a) (Remarks a)
    (IRN a) (IRNAckNo a) (IRNAckDate a) (SignedQR a) (EwbNumber a) (CreatedAt a)
    (UpdatedAt a) (Version a) (LineItems a) (events a).
Definition set_Cgst (x : float64) (a : InvoiceAggregate) : InvoiceAggregate :=
  mkInvoice (ID a) (TenantID a) (InvoiceNumber a) (BookingID a) (CustomerID a) (TripID a)
    (Subtotal a) (Tax a) x (Sgst a) (Igst a) (Discount a) (Total a) (PaymentStatus a)
    (PaidAmount a) (Status a) (DueDate a) (FinancialYear a) (CreditBalance a) (Remarks a)
    (IRN a) (IRNAckNo a) (IRNAckDate a) (SignedQR a) (EwbNumber a) (CreatedAt a)
    (UpdatedAt a) (Version a) (LineItems a) (events a).
Definition set_Sgst (x : float64) (a : InvoiceAggregate) : InvoiceAggregate :=
  mkInvoice (ID a) (TenantID a) (InvoiceNumber a) (BookingID a) (CustomerID a) (TripID a)
    (Subtotal a) (Tax a) (Cgst a) x (Igst a) (Discount a) (Total a) (PaymentStatus a)
    (PaidAmount a) (Status a) (DueDate a) (FinancialYear a) (CreditBalance a) (Remarks a)
    (IRN a) (IRNAckNo a) (IRNAckDate a) (SignedQR a) (EwbNumber a) (CreatedAt a)
    (UpdatedAt a) (Version a) (LineItems a) (events a).
Definition set_Igst (x : float64) (a : InvoiceAggregate) : InvoiceAggregate :=
  mkInvoice (ID a) (TenantID a) (InvoiceNumber a) (BookingID a) (CustomerID a) (TripID a)
    (Subtotal a) (Tax a) (Cgst a) (Sgst a) x (Discount a) (Total a) (PaymentStatus a)
    (PaidAmount a) (Status a) (DueDate a) (FinancialYear a) (CreditBalance a) (Remarks a)
    (IRN a) (IRNAckNo a) (IRNAckDate a) (SignedQR a) (EwbNumber a) (CreatedAt a)
    (UpdatedAt a) (Version a) (LineItems a) (events a).
Definition set_Total (x : float64) (a : InvoiceAggregate) : InvoiceAggregate :=
  mkInvoice (ID a) (TenantID a) (InvoiceNumber a) (BookingID a) (CustomerID a) (TripID a)
    (Subtotal a) (Tax a) (Cgst a) (Sgst a) (Igst a) (Discount a) x (PaymentStatus a)
    (PaidAmount a) (Status a) (DueDate a) (FinancialYear a) (CreditBalance a) (Remarks a)
    (IRN a) (IRNAckNo a) (IRNAckDate a) (SignedQR a) (EwbNumber a) (CreatedAt a)
    (UpdatedAt a) (Version a) (LineItems a) (events a).
Definition set_PaymentStatus (x : PaymentStatus_t) (a : InvoiceAggregate) : InvoiceAggregate :=
  mkInvoice (ID a) (TenantID a) (InvoiceNumber a) (BookingID a) (CustomerID a) (TripID a)
    (Subtotal a) (Tax a) (Cgst a) (Sgst a) (Igst a) (Discount a) (Total a) x (PaidAmount a)
    (Status a) (DueDate a) (FinancialYear a) (CreditBalance a) (Remarks a) (IRN a)
    (IRNAckNo a) (IRNAckDate a) (SignedQR a) (EwbNumber a) (CreatedAt a) (UpdatedAt a)
    (Version a) (LineItems a) (events a).
Definition set_PaidAmount (x : float64) (a : InvoiceAggregate) : InvoiceAggregate :=
  mkInvoice (ID a) (TenantID a) (InvoiceNumber a) (BookingID a) (CustomerID a) (TripID a)
    (Subtotal a) (Tax a) (Cgst a) (Sgst a) (Igst a) (Discount a) (Total a) (PaymentStatus a)
    x (Status a) (DueDate a) (FinancialYear a) (CreditBalance a) (Remarks a) (IRN a)
    (IRNAckNo a) (IRNAckDate a) (SignedQR a) (EwbNumber a) (CreatedAt a) (UpdatedAt a)
    (Version a) (LineItems a) (events a).
Definition set_Status (x : InvoiceStatus) (a : InvoiceAggregate) : InvoiceAggregate :=
  mkInvoice (ID a) (TenantID a) (InvoiceNumber a) (BookingID a) (CustomerID a) (TripID a)
    (Subtotal a) (Tax a) (Cgst a) (Sgst a) (Igst a) (Discount a) (Total a) (PaymentStatus a)
    (PaidAmount a) x (DueDate a) (FinancialYear a) (CreditBalance a) (Remarks a) (IRN a)
    (IRNAckNo a) (IRNAckDate a) (SignedQR a) (EwbNumber a) (CreatedAt a) (UpdatedAt a)
    (Version a) (LineItems a) (events a).
Definition set_DueDate (x : option Time) (a : InvoiceAggregate) : InvoiceAggregate :=
  mkInvoice (ID a) (TenantID a) (InvoiceNumber a) (BookingID a) (CustomerID a) (TripID a)
    (Subtotal a) (Tax a) (Cgst a) (Sgst a) (Igst a) (Discount a) (Total a) (PaymentStatus a)
    (PaidAmount a) (Status a) x (FinancialYear a) (CreditBalance a) (Remarks a) (IRN a)
    (IRNAckNo a) (IRNAckDate a) (SignedQR a) (EwbNumber a) (CreatedAt a) (UpdatedAt a)
    (Version a) (LineItems a) (events a).
Definition set_CreditBalance (x : float64) (a : InvoiceAggregate) : InvoiceAggregate :=
  mkInvoice (ID a) (TenantID a) (InvoiceNumber a) (BookingID a) (CustomerID a) (TripID a)
    (Subtotal a) (Tax a) (Cgst a) (Sgst a) (Igst a) (Discount a) (Total a) (PaymentStatus a)
    (PaidAmount a) (Status a) (DueDate a) (FinancialYear a) x (Remarks a) (IRN a)
    (IRNAckNo a) (IRNAckDate a) (SignedQR a) (EwbNumber a) (CreatedAt a) (UpdatedAt a)
    (Version a) (LineItems a) (events a).
Definition set_UpdatedAt (x : Time) (a : InvoiceAggregate) : InvoiceAggregate :=
  mkInvoice (ID a) (TenantID a) (InvoiceNumber a) (BookingID a) (CustomerID a) (TripID a)
    (Subtotal a) (Tax a) (Cgst a) (Sgst a) (Igst a) (Discount a) (Total a) (PaymentStatus a)
    (PaidAmount a) (Status a) (DueDate a) (FinancialYear a) (CreditBalance a) (Remarks a)
    (IRN a) (IRNAckNo a) (IRNAckDate a) (SignedQR a) (EwbNumber a) (CreatedAt a) x
    (Version a) (LineItems a) (events a).
Definition set_Version (x : Z) (a : InvoiceAggregate) : InvoiceAggregate :=
  mkInvoice (ID a) (TenantID a) (InvoiceNumber a) (BookingID a) (CustomerID a) (TripID a)
    (Subtotal a) (Tax a) (Cgst a) (Sgst a) (Igst a) (Discount a) (Total a) (PaymentStatus a)
    (PaidAmount a) (Status a) (DueDate a) (FinancialYear a) (CreditBalance a) (Remarks a)
    (IRN a) (IRNAckNo a) (IRNAckDate a) (SignedQR a) (EwbNumber a) (CreatedAt a)
    (UpdatedAt a) x (LineItems a) (events a).
Definition set_LineItems (x : list LineItem) (a : InvoiceAggregate) : InvoiceAggregate :=
  mkInvoice (ID a) (TenantID a) (InvoiceNumber a) (BookingID a) (CustomerID a) (TripID a)
    (Subtotal a) (Tax a) (Cgst a) (Sgst a) (Igst a) (Discount a) (Total a) (PaymentStatus a)
    (PaidAmount a) (Status a) (DueDate a) (FinancialYear a) (CreditBalance a) (Remarks a)
    (IRN a) (IRNAckNo a) (IRNAckDate a) (SignedQR a) (EwbNumber a) (CreatedAt a)
    (UpdatedAt a) (Version a) x (events a).
Definition set_events (x : list Event) (a : InvoiceAggregate) : InvoiceAggregate :=
  mkInvoice (ID a) (TenantID a) (InvoiceNumber a) (BookingID a) (CustomerID a) (TripID a)
    (Subtotal a) (Tax a) (Cgst a) (Sgst a) (Igst a) (Discount a) (Total a) (PaymentStatus a)
    (PaidAmount a) (Status a) (DueDate a) (FinancialYear a) (CreditBalance a) (Remarks a)
    (IRN a) (IRNAckNo a) (IRNAckDate a) (SignedQR a) (EwbNumber a) (CreatedAt a)
    (UpdatedAt a) (Version a) (LineItems a) x.

Definition RecordEvent (ev : Event) (a : InvoiceAggregate) : InvoiceAggregate :=
  set_events (events a ++ [ev]) a.
Definition ClearEvents (a : InvoiceAggregate) : InvoiceAggregate := set_events [] a.

Definition NewInvoiceAggregate (id tenantID invoiceNumber bookingID customerID : string)
    (tripID : option string) (subtotal tax discount total : float64)
    (status : PaymentStatus_t) (now : Time) : InvoiceAggregate :=
  RecordEvent (InvoiceGeneratedEvent id tenantID invoiceNumber total now)
    (mkInvoice id tenantID invoiceNumber bookingID customerID tripID subtotal tax f0 f0 f0
       discount total status f0 InvoiceStatusOutstanding None "" f0 "" None None None None
       None now now 0 [] []).

Definition RehydrateInvoiceAggregate (id tenantID invoiceNumber bookingID customerID : string)
    (tripID : option string) (subtotal tax discount total : float64)
    (paymentStatus : PaymentStatus_t) (invoiceStatus : InvoiceStatus)
    (paidAmount creditBalance : float64) (dueDate : option Time)
    (financialYear remarks : string) (createdAt updatedAt : Time) (version : Z)
    : InvoiceAggregate :=
  mkInvoice id tenantID invoiceNumber bookingID customerID tripID subtotal tax f0 f0 f0
    discount total paymentStatus paidAmount invoiceStatus dueDate financialYear
    creditBalance remarks None None None None None createdAt updatedAt version [] [].

(** [math.Round(v*100) / 100]. *)
Definition RoundMoney (v : float64) : float64 := fdiv (fround (fmul v f100)) f100.

(** ** Totals *)
Record tax_sums := mkSums {
  sum_sub : float64; sum_c : float64; sum_s : float64; sum_i : float64; has_taxes : bool }.

(** One iteration of the loop over the line items. *)
Definition add_line (acc : tax_sums) (li : LineItem) : tax_sums :=
  let sub := fadd (sum_sub acc) (Amount li) in
  if fltb f0 (CgstAmount li) || fltb f0 (SgstAmount li) || fltb f0 (IgstAmount li)
  then mkSums sub (fadd (sum_c acc) (CgstAmount li)) (fadd (sum_s acc) (SgstAmount li))
         (fadd (sum_i acc) (IgstAmount li)) true
  else mkSums sub (sum_c acc) (sum_s acc) (sum_i acc) (has_taxes acc).

Definition line_sums (items : list LineItem) : tax_sums :=
  foldl add_line (mkSums f0 f0 f0 f0 false) items.

Definition RecomputeTotals (a : InvoiceAggregate) : InvoiceAggregate :=
  match LineItems a with
  | [] => a
  | items =>
      let s := line_sums items in
      let a := set_Subtotal (RoundMoney (sum_sub s)) a in
      let a :=
        if has_taxes s then
          let a := set_Cgst (RoundMoney (sum_c s)) a in
          let a := set_Sgst (RoundMoney (sum_s s)) a in
          let a := set_Igst (RoundMoney (sum_i s)) a in
          set_Tax (RoundMoney (fadd (fadd (Cgst a) (Sgst a)) (Igst a))) a
        else a in
      set_Total (RoundMoney (fsub (fadd (Subtotal a) (Tax a)) (Discount a))) a
  end.

Definition AddLineItem (item : LineItem) (a : InvoiceAggregate) : InvoiceAggregate :=
  let item := set_Amount (RoundMoney (Amount item)) item in
  RecomputeTotals (set_LineItems (LineItems a ++ [item]) a).

Definition UpdatePaymentStatus (status : PaymentStatus_t) (now : Time) (a : InvoiceAggregate)
    : result InvoiceAggregate :=
  Ok (RecordEvent
        (InvoicePaymentUpdatedEvent (ID a) (TenantID a) (payment_status_string status) now)
        (set_UpdatedAt now (set_PaymentStatus status a))).

Definition OutstandingBalance (a : InvoiceAggregate) : float64 := fsub (Total a) (PaidAmount a).

(** ** Payments *)
Definition ApplyPayment (amount : float64) (now : Time) (a : InvoiceAggregate)
    : result InvoiceAggregate :=
  if decide (Status a = InvoiceStatusCancelled)
  then Fail (Err "cannot apply payment to cancelled invoice")
  else
    let a := set_PaidAmount (fadd (PaidAmount a) amount) a in
    let outstanding := fsub (Total a) (PaidAmount a) in
    let a :=
      if fltb outstanding f0 then
        set_Status InvoiceStatusPaid (set_PaymentStatus PaymentStatusPaid
          (set_PaidAmount (Total a) (set_CreditBalance (fneg outstanding) a)))
      else if feqb outstanding f0 then
        set_Status InvoiceStatusPaid (set_PaymentStatus PaymentStatusPaid a)
      else if fltb f0 (PaidAmount a) then set_PaymentStatus PaymentStatusPartiallyPaid a
      else set_PaymentStatus PaymentStatusPending a in
    Ok (RecordEvent
          (InvoicePaymentAppliedEvent (ID a) (TenantID a) amount (PaidAmount a)
             (payment_status_string (PaymentStatus a)) now)
          (set_UpdatedAt now a)).

Definition MarkIssued (dueDate now : Time) (a : InvoiceAggregate) : result InvoiceAggregate :=
  if decide (Status a ≠ InvoiceStatusDraft) then Fail (Err "only draft invoices can be issued")
  else Ok (RecordEvent (InvoiceIssuedEvent (ID a) (TenantID a) dueDate now)
             (set_UpdatedAt now (set_DueDate (Some dueDate) (set_Status InvoiceStatusIssued a)))).

Definition Void (now : Time) (a : InvoiceAggregate) : result InvoiceAggregate :=
  if decide (Status a = InvoiceStatusPaid) then Fail (Err "paid invoices cannot be voided")
  else if decide (Status a = InvoiceStatusCancelled)
  then Fail (Err "invoice already cancelled")
  else Ok (RecordEvent (InvoiceVoidedEvent (ID a) (TenantID a) now)
             (set_UpdatedAt now (set_Status InvoiceStatusCancelled a))).

Definition ValidateInvoiceNumber (number : string) : result unit :=
  if is_empty number then Fail (Err "invoice number is required") else Ok tt.

(** [InvoiceWorkflow.CanPay] (invoice_workflow.go). *)
Definition CanPay (status : PaymentStatus_t) : bool :=
  bool_decide (status = PaymentStatusPending) || bool_decide (status = PaymentStatusPartiallyPaid).

Inductive invoice_op :=
| OpAddLine (item : LineItem) | OpRecompute | OpSetPaymentStatus (s : PaymentStatus_t)
| OpApplyPayment (amount : float64) | OpMarkIssued (due : Time) | OpVoid.

Definition apply_op (op : invoice_op) (now : Time)
    : InvoiceAggregate → result InvoiceAggregate :=
  match op with
  | OpAddLine item => λ a, Ok (AddLineItem item a)
  | OpRecompute => λ a, Ok (RecomputeTotals a)
  | OpSetPaymentStatus s => UpdatePaymentStatus s now
  | OpApplyPayment x => ApplyPayment x now
  | OpMarkIssued due => MarkIssued due now
  | OpVoid => Void now
  end.

Inductive invoice_step (a a' : InvoiceAggregate) : Prop :=
| invoice_step_op op now : apply_op op now a = Ok a' → invoice_step a a'.

(** ** Totals *)

(** The totals are those of the line items, once there are any. *)
Definition totals_ok (a : InvoiceAggregate) : Prop :=
  LineItems a = [] ∨
  let s := line_sums (LineItems a) in
  Subtotal a = RoundMoney (sum_sub s) ∧
  Total a = RoundMoney (fsub (fadd (Subtotal a) (Tax a)) (Discount a)) ∧
  (has_taxes s = true →
     Cgst a = RoundMoney (sum_c s) ∧ Sgst a = RoundMoney (sum_s s) ∧
     Igst a = RoundMoney (sum_i s) ∧
     Tax a = RoundMoney (fadd (fadd (Cgst a) (Sgst a)) (Igst a))).

Lemma RecomputeTotals_ok a : totals_ok (RecomputeTotals a).
Proof.
  unfold RecomputeTotals, totals_ok. destruct (LineItems a) as [|li items] eqn:E; [by left|].
  right. destruct (has_taxes (line_sums (li :: items))) eqn:Ht; cbn -[line_sums];
    rewrite ?E, ?Ht; repeat split; congruence.
Qed.

Lemma RecomputeTotals_fixed a : totals_ok a → RecomputeTotals a = a.
Proof.
  unfold RecomputeTotals. intros [->|(Hs & Ht & Hx)]; [done|].
  destruct (LineItems a) as [|li items] eqn:E; [done|].
  destruct a; cbn in *. subst.
  destruct (has_taxes _) eqn:Hb; cbn -[line_sums]; [|done].
  destruct (Hx eq_refl) as (-> & -> & -> & ->). done.
Qed.

Lemma RecomputeTotals_idem a : RecomputeTotals (RecomputeTotals a) = RecomputeTotals a.
Proof. apply RecomputeTotals_fixed, RecomputeTotals_ok. Qed.

Lemma RecomputeTotals_frame a :
  let a' := RecomputeTotals a in
  ID a' = ID a ∧ TenantID a' = TenantID a ∧ Status a' = Status a ∧
  PaymentStatus a' = PaymentStatus a ∧ PaidAmount a' = PaidAmount a ∧
  Version a' = Version a ∧ events a' = events a ∧ LineItems a' = LineItems a.
Proof.
  unfold RecomputeTotals. destruct (LineItems a) eqn:E; [done|]. destruct a; cbn in *.
  by destruct (has_taxes _); repeat split.
Qed.

Ltac invoice_cases H :=
  cbn [apply_op] in H; unfold UpdatePaymentStatus, ApplyPayment, MarkIssued, Void in H;
  repeat case_decide; try discriminate H; injection H as H; subst; cbn in *.

Lemma ApplyPayment_totals x now a a' :
  ApplyPayment x now a = Ok a' →
  Subtotal a' = Subtotal a ∧ Tax a' = Tax a ∧ Discount a' = Discount a ∧ Total a' = Total a ∧
  Cgst a' = Cgst a ∧ Sgst a' = Sgst a ∧ Igst a' = Igst a ∧ LineItems a' = LineItems a ∧
  ID a' = ID a ∧ TenantID a' = TenantID a ∧ Version a' = Version a ∧
  BookingID a' = BookingID a ∧ CustomerID a' = CustomerID a.
Proof. intros H. invoice_cases H. by repeat case_match. Qed.

Lemma totals_ok_step a a' : totals_ok a → invoice_step a a' → totals_ok a'.
Proof.
  intros Hok [op now H]. destruct op as [item| |s|x|due|].
  - injection H as <-. apply RecomputeTotals_ok.
  - injection H as <-. apply RecomputeTotals_ok.
  - by invoice_cases H.
  - apply ApplyPayment_totals in H as (H1 & H2 & H3 & H4 & H5 & H6 & H7 & H8 & _).
    unfold totals_ok in *. by rewrite H1, H2, H3, H4, H5, H6, H7, H8.
  - by invoice_cases H.
  - by invoice_cases H.
Qed.

(** An invoice of 1000, and a line of 250 rupees taxed at 9 + 9 percent. *)
Definition demo_invoice : InvoiceAggregate :=
  NewInvoiceAggregate "i1" "acme" "INV-1" "b1" "c1" None (f64_of_Z 1000) f0 f0 (f64_of_Z 1000)
    PaymentStatusPending 0.
Definition demo_item : LineItem :=
  mkLineItem "l1" "acme" "i1" None LineTypeDetention None "Detention" None f1 (f64_of_Z 250)
    (f64_of_Z 250) (f64_of_Z 250) (f64_of_Z 9) (f64_of_Z 9) f0 (f64_of_Z 22) (f64_of_Z 22) f0
    (f64_of_Z 250) (f64_of_Z 294) None.
Definition demo_apply (op : invoice_op) (now : Time) (a : InvoiceAggregate) : InvoiceAggregate :=
  match apply_op op now a with Ok a' => a' | Fail _ => a end.

(** from a fresh invoice on, whatever lines are added and payments
    applied, the totals are those of the lines: recomputing them changes
    nothing. *)
Theorem totals_invariant id tenant number booking customer trip subtotal tax discount total st now a :
  rtc invoice_step
    (NewInvoiceAggregate id tenant number booking customer trip subtotal tax discount total st now) a →
  totals_ok a ∧ RecomputeTotals a = a.
Proof.
  intros Hr. assert (totals_ok a); [|split; [done|by apply RecomputeTotals_fixed]].
  remember (NewInvoiceAggregate _ _ _ _ _ _ _ _ _ _ _ _) as a0 eqn:E.
  assert (H0 : totals_ok a0) by (left; by subst). clear E.
  induction Hr as [|a0 a1 a Hs Hr IH]; [done|]. by apply IH, (totals_ok_step a0).
Qed.

Lemma totals_invariant_witness :
  let a := demo_apply (OpAddLine demo_item) 1 demo_invoice in
  totals_ok a ∧ RecomputeTotals a = a.
Proof.
  intros a. apply (totals_invariant "i1" "acme" "INV-1" "b1" "c1" None (f64_of_Z 1000) f0 f0
                     (f64_of_Z 1000) PaymentStatusPending 0).
  apply rtc_once. apply (invoice_step_op _ _ (OpAddLine demo_item) 1). reflexivity.
Defined.

(** ** Payments *)

(** The ordinary case of a payment: finite amounts, no overflow. *)
Record payable (a : InvoiceAggregate) (x : float64) : Prop := {
  pay_total : valid (Total a) = true ∧ is_finite (Total a) = true;
  pay_paid : valid (PaidAmount a) = true;
  pay_amount : valid x = true;
  pay_sum : is_finite (fadd (PaidAmount a) x) = true;
  pay_open : Status a ≠ InvoiceStatusCancelled }.

(** [ApplyPayment] by the comparison of the new sum with the total. *)
Lemma ApplyPayment_cases a x now :
  payable a x →
  let p := fadd (PaidAmount a) x in
  ∃ a', ApplyPayment x now a = Ok a' ∧
  match fval (Total a) ?= fval p with
  | Lt => PaidAmount a' = Total a ∧ CreditBalance a' = fneg (fsub (Total a) p) ∧
          fltb f0 (CreditBalance a') = true ∧
          Status a' = InvoiceStatusPaid ∧ PaymentStatus a' = PaymentStatusPaid
  | Eq => PaidAmount a' = p ∧ CreditBalance a' = CreditBalance a ∧
          Status a' = InvoiceStatusPaid ∧ PaymentStatus a' = PaymentStatusPaid
  | Gt => PaidAmount a' = p ∧ CreditBalance a' = CreditBalance a ∧ Status a' = Status a ∧
          PaymentStatus a' =
            if 0 <? fval p then PaymentStatusPartiallyPaid else PaymentStatusPending
  end.
Proof.
  intros [[Vt Ft] Vp Vx Fs Ho] p. subst p.
  pose proof (fadd_valid _ _ Vp Vx) as Vs.
  pose proof (fsub_ltb_zero _ _ Vt Vs Ft Fs) as Hlt.
  pose proof (fsub_eqb_zero _ _ Vt Vs Ft Fs) as Heq.
  rewrite (fltb_fval (Total a)) in Hlt by done. rewrite (feqb_fval (Total a)) in Heq by done.
  pose proof (fsub_spec _ _ Vt Vs Ft Fs) as (Vd & Nd & Sd).
  assert (Hpos : fltb f0 (fadd (PaidAmount a) x) = (0 <? fval (fadd (PaidAmount a) x)))
    by (by rewrite fltb_fval).
  unfold ApplyPayment. case_decide; [done|]. cbn. rewrite Hlt, Heq, Hpos.
  generalize (0 <? fval (fadd (PaidAmount a) x)). intros b.
  eexists. split; [reflexivity|]. unfold Z.ltb. rewrite Z.eqb_compare.
  destruct (fval (Total a) ?= _) eqn:Ec; cbn; [done| |].
  - repeat split; auto. destruct (fsub (Total a) _) as [s|s| |s m e]; cbn in Sd; try done;
      by destruct s.
  - by destruct b.
Qed.

(** a payment settles the invoice exactly when the new sum reaches the
    total; the excess, if any, becomes the credit balance; below the total
    the invoice keeps its status and is partially paid, or pending when the
    sum is not positive. *)
Theorem ApplyPayment_spec a x now :
  payable a x →
  let p := fadd (PaidAmount a) x in
  ∃ a', ApplyPayment x now a = Ok a' ∧
  match fval (Total a) ?= fval p with
  | Lt => PaidAmount a' = Total a ∧ CreditBalance a' = fneg (fsub (Total a) p) ∧
          fltb f0 (CreditBalance a') = true ∧
          Status a' = InvoiceStatusPaid ∧ PaymentStatus a' = PaymentStatusPaid
  | Eq => PaidAmount a' = p ∧ CreditBalance a' = CreditBalance a ∧
          Status a' = InvoiceStatusPaid ∧ PaymentStatus a' = PaymentStatusPaid
  | Gt => PaidAmount a' = p ∧ CreditBalance a' = CreditBalance a ∧ Status a' = Status a ∧
          PaymentStatus a' =
            if 0 <? fval p then PaymentStatusPartiallyPaid else PaymentStatusPending
  end.
Proof. apply ApplyPayment_cases. Qed.

Lemma demo_payable z :
  is_finite (fadd f0 (f64_of_Z z)) = true → payable demo_invoice (f64_of_Z z).
Proof.
  intros Hf. split; [by vm_compute|by vm_compute|apply f64_of_Z_valid|exact Hf|discriminate].
Qed.

(** 1200 paid on 1000: settled, with 200 of credit. *)
Lemma ApplyPayment_spec_witness :
  ∃ a', ApplyPayment (f64_of_Z 1200) 5 demo_invoice = Ok a' ∧
    PaidAmount a' = Total demo_invoice ∧
    CreditBalance a' = fneg (fsub (Total demo_invoice) (fadd f0 (f64_of_Z 1200))) ∧
    fltb f0 (CreditBalance a') = true ∧
    Status a' = InvoiceStatusPaid ∧ PaymentStatus a' = PaymentStatusPaid.
Proof.
  exact (ApplyPayment_spec demo_invoice (f64_of_Z 1200) 5 (demo_payable 1200 eq_refl)).
Defined.

(** no payment, partial, full or over, leaves more recorded as paid than
    the total. *)
Theorem paid_never_exceeds_total a x now a' :
  payable a x → ApplyPayment x now a = Ok a' → fleb (PaidAmount a') (Total a') = true.
Proof.
  intros Hp H. destruct (ApplyPayment_cases a x now Hp) as (a'' & H' & Hc).
  rewrite H in H'. injection H' as <-.
  pose proof (ApplyPayment_totals _ _ _ _ H) as (_ & _ & _ & Ht & _).
  destruct Hp as [[Vt Ft] Vp Vx Fs Ho]. pose proof (fadd_valid _ _ Vp Vx) as Vs.
  destruct (fval (Total a) ?= _) eqn:Ec; rewrite Ht.
  - destruct Hc as (-> & _). apply Z.compare_eq in Ec. rewrite fleb_fval by done. lia.
  - destruct Hc as (-> & _). rewrite fleb_fval by done. lia.
  - destruct Hc as (-> & _). apply Z.compare_gt_iff in Ec. rewrite fleb_fval by done. lia.
Qed.

Lemma paid_never_exceeds_total_witness :
  let a' := demo_apply (OpApplyPayment (f64_of_Z 1200)) 5 demo_invoice in
  fleb (PaidAmount a') (Total a') = true.
Proof.
  exact (paid_never_exceeds_total demo_invoice (f64_of_Z 1200) 5
           (demo_apply (OpApplyPayment (f64_of_Z 1200)) 5 demo_invoice)
           (demo_payable 1200 eq_refl) eq_refl).
Defined.

(** A failing payment is one on a cancelled invoice. *)
Lemma ApplyPayment_error x now a :
  Status a = InvoiceStatusCancelled ↔ is_Ok (ApplyPayment x now a) = false.
Proof. unfold ApplyPayment. case_decide; cbn; split; naive_solver. Qed.

Lemma status_step op now a a' :
  apply_op op now a = Ok a' →
  Status a = InvoiceStatusPaid ∨ Status a = InvoiceStatusCancelled → Status a' = Status a.
Proof.
  intros H Hs. destruct op as [item| |s|x|due|].
  - injection H as <-. unfold AddLineItem.
    by destruct (RecomputeTotals_frame (set_LineItems (LineItems a ++ [set_Amount (RoundMoney (Amount item)) item]) a))
      as (_ & _ & -> & _).
  - injection H as <-. by destruct (RecomputeTotals_frame a) as (_ & _ & -> & _).
  - by invoice_cases H.
  - invoice_cases H. repeat case_match; cbn; try done; destruct Hs; congruence.
  - invoice_cases H. exfalso; intuition congruence.
  - invoice_cases H. exfalso; intuition congruence.
Qed.

(** a paid or cancelled invoice stays in that status whatever follows;
    so an invoice whose payments are all reversed still reads as paid, and
    can be neither voided nor issued again. *)
Theorem settled_is_final a a' now :
  Status a = InvoiceStatusPaid ∨ Status a = InvoiceStatusCancelled →
  rtc invoice_step a a' →
  Status a' = Status a ∧ is_Ok (Void now a') = false ∧
  ∀ due, is_Ok (MarkIssued due now a') = false.
Proof.
  intros Hs Hr.
  assert (He : Status a' = Status a).
  { induction Hr as [|a a1 a' [op t H] Hr IH]; [done|].
    pose proof (status_step _ _ _ _ H Hs) as E. rewrite <- E. apply IH. by rewrite E. }
  split; [done|]. rewrite <- He in Hs. unfold Void, MarkIssued.
  split; [|intros due]; repeat case_decide; try done; exfalso; intuition congruence.
Qed.

(** Paid in full, then reversed in full. *)
Lemma settled_is_final_witness :
  let a := demo_apply (OpApplyPayment (f64_of_Z 1000)) 5 demo_invoice in
  let a' := demo_apply (OpApplyPayment (f64_of_Z (-1000))) 6 a in
  PaidAmount a' = f0 ∧
  Status a' = Status a ∧ is_Ok (Void 7 a') = false ∧ ∀ due, is_Ok (MarkIssued due 7 a') = false.
Proof.
  intros a a'. split; [vm_compute; reflexivity|].
  apply (settled_is_final a a' 7); [left; reflexivity|].
  apply rtc_once. apply (invoice_step_op _ _ (OpApplyPayment (f64_of_Z (-1000))) 6). reflexivity.
Defined.

End Invoice.

Module Payment.

Definition PaymentMethodCash := "cash"%string.
Definition PaymentMethodUPI := "upi"%string.
Definition PaymentMethodBankTransfer := "bank_transfer"%string.
Definition PaymentMethodCheque := "cheque"%string.
Definition PaymentMethodRazorpay := "razorpay"%string.

Record PaymentAggregate := mkPayment {
  ID : string; TenantID : string; InvoiceID : string; PaymentDate : Time; Amount : float64;
  Method : string; Reference : option string; Remarks : option string;
  IdempotencyKey : string; CreatedAt : Time; UpdatedAt : Time; events : list Event }.

Definition set_ID (x : string) (p : PaymentAggregate) : PaymentAggregate :=
  mkPayment x (TenantID p) (InvoiceID p) (PaymentDate p) (Amount p) (Method p) (Reference p)
    (Remarks p) (IdempotencyKey p) (CreatedAt p) (UpdatedAt p) (events p).
Definition set_events (x : list Event) (p : PaymentAggregate) : PaymentAggregate :=
  mkPayment (ID p) (TenantID p) (InvoiceID p) (PaymentDate p) (Amount p) (Method p)
    (Reference p) (Remarks p) (IdempotencyKey p) (CreatedAt p) (UpdatedAt p) x.

Definition ClearEvents (p : PaymentAggregate) : PaymentAggregate := set_events [] p.

Definition NewPaymentAggregate (id tenantID invoiceID : string) (paymentDate : Time)
    (amount : float64) (method : string) (reference remarks : option string) (now : Time)
    : PaymentAggregate :=
  mkPayment id tenantID invoiceID paymentDate amount method reference remarks "" now now
    [PaymentReceivedEvent id tenantID invoiceID amount now].

End Payment.
