(* ===== verification/GoMath.v ===== *)
(** * Go's elementary functions and number parsing

    What the geofence and telemetry code uses of [math] and [strconv]:
    [math.Sqrt], [math.Min], [math.Max] (exact operations), the functions of
    [math] that are approximations ([Sin], [Cos], [Atan2], [Hypot]) and
    [strconv.ParseFloat], as a class the theorems quantify over, and the
    instance [go_math] that runs Go's own algorithms (the portable Cephes
    code of [math/sin.go] and [math/atan.go]) so that concrete inputs can be
    evaluated.  [strconv.Atoi], [strconv.ParseBool] and [strings.ToLower]
    are total functions. *)
From stdpp Require Import base decidable list strings.
From Stdlib Require Import ZArith Lia Ascii String SpecFloat.
From S2P Require Import Prelude GoFloat Shared.
Open Scope Z_scope.

(** ** Exact operations *)
Definition fsqrt : float64 → float64 := SFsqrt prec emax.
Definition is_inf (x : float64) : bool :=
  match x with S754_infinity _ => true | _ => false end.
(** [math.Min] and [math.Max]; a zero of the requested sign wins. *)
Definition fmin (x y : float64) : float64 :=
  if is_nan x && negb (feqb y (S754_infinity true)) then S754_nan
  else if is_nan y && negb (feqb x (S754_infinity true)) then S754_nan
  else if feqb x f0 && feqb y f0 then
    (match x with S754_zero true => x | _ => y end)
  else if feqb x (S754_infinity true) || fltb x y then x else y.
Lemma fmin_le x y :
  is_nan x = false → is_nan y = false → fleb (fmin x y) x = true ∧ fleb (fmin x y) y = true.
Proof.
  intros Hx Hy. unfold fmin. rewrite Hx, Hy. cbn [andb].
  destruct (feqb x f0 && feqb y f0) eqn:Hz.
  - apply andb_true_iff in Hz as [Hzx Hzy].
    destruct x as [[]|[]| |[] m e], y as [[]|[]| |[] m' e']; try discriminate Hzx; try discriminate Hzy; by split.
  - destruct (feqb x (S754_infinity true)) eqn:Hi; cbn [orb].
    + split; [by apply fleb_refl|]. destruct x as [[]|[]| |[] m e]; try discriminate Hi. by destruct y as [[]|[]| |[] m' e'].
    + destruct (fltb x y) eqn:Hl; split; [by apply fleb_refl|by apply fleb_of_fltb|by apply fleb_of_not_fltb|by apply fleb_refl].
Qed.
Definition fmax (x y : float64) : float64 :=
  if is_nan x && negb (feqb y (S754_infinity false)) then S754_nan
  else if is_nan y && negb (feqb x (S754_infinity false)) then S754_nan
  else if feqb x f0 && feqb y f0 then
    (match x with S754_zero false => x | _ => y end)
  else if feqb x (S754_infinity false) || fltb y x then x else y.

(** ** What is approximated *)
Class GoMath := {
  Sin : float64 → float64;
  Cos : float64 → float64;
  Atan2 : float64 → float64 → float64;
  Hypot : float64 → float64 → float64;
  ParseFloat : string → option float64 }.

(** ** Go's algorithms *)
Module Cephes.

Definition PI4A : float64 := S754_finite false 7074237412016128 (-53).
Definition PI4B : float64 := S754_finite false 5704459598430208 (-77).
Definition PI4C : float64 := S754_finite false 6833020653556080 (-101).
Definition Pi : float64 := S754_finite false 7074237752028440 (-51).
Definition FourOverPi : float64 := S754_finite false 5734161139222659 (-52).
Definition Morebits : float64 := S754_finite false 4967757600021511 (-106).
Definition Tan3pio8 : float64 := S754_finite false 5436325649948134 (-51).
Definition HalfPi : float64 := S754_finite false 7074237752028440 (-52).
Definition QuarterPi : float64 := S754_finite false 7074237752028440 (-53).
Definition MaxFloat64 : float64 := S754_finite false 9007199254740991 (971).
Definition point66 : float64 := S754_finite false 5944751508129055 (-53).
Definition sin_coef : list float64 :=
  [S754_finite false 6149556183080141 (-85);
   S754_finite true 7571123942793053 (-78);
   S754_finite false 6506786710177953 (-71);
   S754_finite true 7320136532877059 (-65);
   S754_finite false 4803839602522064 (-59);
   S754_finite true 6004799503160648 (-55)].
Definition cos_coef : list float64 :=
  [S754_finite true 7030593573755547 (-89);
   S754_finite false 5047434750082821 (-81);
   S754_finite true 5205429473528774 (-74);
   S754_finite false 7320136533427445 (-68);
   S754_finite true 6405119470030737 (-62);
   S754_finite false 6004799503160651 (-57)].
Definition atan_P : list float64 :=
  [S754_finite true 7881847526073748 (-53);
   S754_finite true 4547942403506298 (-48);
   S754_finite true 5278258023629427 (-46);
   S754_finite true 8647380534934053 (-46);
   S754_finite true 4563428474154126 (-46)].
Definition atan_Q : list float64 :=
  [S754_finite false 4503599627370496 (-52);
   S754_finite false 6997035829190716 (-48);
   S754_finite false 5806371718625829 (-45);
   S754_finite false 7615324151266875 (-44);
   S754_finite false 8539078214568426 (-44);
   S754_finite false 6845142711231212 (-45)].

Definition horner (coefs : list float64) (z : float64) : float64 :=
  match coefs with
  | [] => f0
  | c :: cs => foldl (λ acc c, fadd (fmul acc z) c) c cs
  end.

Definition sin_poly (z : float64) : float64 :=
  let zz := fmul z z in fadd z (fmul (fmul z zz) (horner sin_coef zz)).
Definition cos_poly (z : float64) : float64 :=
  let zz := fmul z z in
  fadd (fsub f1 (fmul (fdiv f1 (f64_of_Z 2)) zz)) (fmul (fmul zz zz) (horner cos_coef zz)).

(** The octant of [x >= 0] and the remainder, by Cody and Waite's reduction;
    beyond [2^29], where Go switches to another reduction, the argument is
    taken out of range. *)
Definition octant (x : float64) : option (Z * float64) :=
  if fltb x (f64_of_Z (2 ^ 29)) then
    let j := f64_to_int64 (fmul x FourOverPi) in
    let j := if Z.odd j then j + 1 else j in
    let y := f64_of_Z j in
    Some (j mod 8, fsub (fsub (fsub x (fmul y PI4A)) (fmul y PI4B)) (fmul y PI4C))
  else None.

Definition sin (x : float64) : float64 :=
  match x with
  | S754_zero _ | S754_nan => x
  | S754_infinity _ => S754_nan
  | S754_finite s _ _ =>
      match octant (fabs x) with
      | None => S754_nan
      | Some (j, z) =>
          let sign := xorb s (3 <? j) in
          let j := if 3 <? j then j - 4 else j in
          let y := if (j =? 1) || (j =? 2) then cos_poly z else sin_poly z in
          if sign then fneg y else y
      end
  end.

Definition cos (x : float64) : float64 :=
  if is_nan x || is_inf x then S754_nan
  else
    match octant (fabs x) with
    | None => S754_nan
    | Some (j, z) =>
        let j' := if 3 <? j then j - 4 else j in
        let sign := xorb (3 <? j) (1 <? j') in
        let y := if (j' =? 1) || (j' =? 2) then sin_poly z else cos_poly z in
        if sign then fneg y else y
    end.

Definition xatan (x : float64) : float64 :=
  let z := fmul x x in
  let z := fdiv (fmul z (horner atan_P z)) (horner atan_Q z) in
  fadd (fmul x z) x.

Definition satan (x : float64) : float64 :=
  if fleb x point66 then xatan x
  else if fltb Tan3pio8 x then fadd (fsub HalfPi (xatan (fdiv f1 x))) Morebits
  else fadd (fadd QuarterPi (xatan (fdiv (fsub x f1) (fadd x f1))))
         (fmul (fdiv f1 (f64_of_Z 2)) Morebits).

Definition atan (x : float64) : float64 :=
  if feqb x f0 then x
  else if fltb f0 x then satan x else fneg (satan (fneg x)).

(** The special cases are those of [math.Atan2] on finite arguments. *)
Definition atan2 (y x : float64) : float64 :=
  if is_nan x || is_nan y then S754_nan
  else if feqb y f0 then
    (if fltb x f0 then (match y with S754_zero true => fneg Pi | _ => Pi end) else y)
  else if feqb x f0 then (if fltb y f0 then fneg HalfPi else HalfPi)
  else
    let q := atan (fdiv y x) in
    if fltb x f0 then (if fleb q f0 then fadd q Pi else fsub q Pi) else q.

Definition hypot (p q : float64) : float64 :=
  if is_inf p || is_inf q then S754_infinity false
  else if is_nan p || is_nan q then S754_nan
  else
    let p := fabs p in let q := fabs q in
    let '(p, q) := if fltb p q then (q, p) else (p, q) in
    if feqb p f0 then f0
    else let q := fdiv q p in fmul p (fsqrt (fadd f1 (fmul q q))).

End Cephes.

(** ** Digits *)
Definition digit_of (c : ascii) : option Z :=
  let n := Z.of_N (N_of_ascii c) - 48 in
  if (0 <=? n) && (n <=? 9) then Some n else None.

(** The decimal digits [s] begins with, onto an accumulator: value, count
    and what follows. *)
Fixpoint take_digits (s : string) (v : Z) (n : Z) : Z * Z * string :=
  match s with
  | String c s' =>
      match digit_of c with
      | Some d => take_digits s' (v * 10 + d) (n + 1)
      | None => (v, n, s)
      end
  | EmptyString => (v, n, s)
  end.

Definition take_sign (s : string) : bool * string :=
  match s with
  | String "-" s' => (true, s')
  | String "+" s' => (false, s')
  | _ => (false, s)
  end.

(** [strconv.Atoi]: an optional sign and digits, in the range of [int]. *)
Definition Atoi (s : string) : option Z :=
  let '(neg, s) := take_sign s in
  let '(v, n, rest) := take_digits s 0 0 in
  if (n =? 0) || negb (is_empty rest) then None
  else
    let v := if neg then - v else v in
    if (min_int64 <=? v) && (v <=? max_int64) then Some v else None.

(** [strconv.ParseBool]. *)
Definition ParseBool (s : string) : option bool :=
  if bool_decide (s ∈ ["1"; "t"; "T"; "true"; "TRUE"; "True"]%string) then Some true
  else if bool_decide (s ∈ ["0"; "f"; "F"; "false"; "FALSE"; "False"]%string) then Some false
  else None.

(** [strings.ToLower] on ASCII input. *)
Definition lower (c : ascii) : ascii :=
  let n := N_of_ascii c in
  if ((65 <=? n) && (n <=? 90))%N then ascii_of_N (n + 32) else c.
Fixpoint ToLower (s : string) : string :=
  match s with EmptyString => EmptyString | String c s' => String (lower c) (ToLower s') end.

(** The correctly rounded value of [m * 10^e], [m >= 0]. *)
Definition f64_decimal (m e : Z) : float64 :=
  match m with
  | Zpos p =>
      let num := if 0 <=? e then m * 10 ^ e else m in
      let den := if 0 <=? e then 1 else 10 ^ (- e) in
      fdiv (S754_finite false (Z.to_pos num) 0) (S754_finite false (Z.to_pos den) 0)
  | _ => f0
  end.

(** [strconv.ParseFloat] on decimal notation: a sign, digits with at most
    one point, an exponent; and the special values.  (The hexadecimal
    notation is not read.)  A value out of range is an error. *)
Definition decimal_mantissa (s : string) : option (Z * Z * string) :=
  let '(v, n, rest) := take_digits s 0 0 in
  let '(v, n', frac, rest) :=
    match rest with
    | String "." rest' =>
        let '(v', k, rest'') := take_digits rest' v 0 in (v', n + k, k, rest'')
    | _ => (v, n, 0, rest)
    end in
  if n' =? 0 then None else Some (v, - frac, rest).

Definition decimal_exponent (s : string) : option Z :=
  match s with
  | EmptyString => Some 0
  | String c s' =>
      if bool_decide (c ∈ ["e"; "E"]%char) then
        let '(neg, s') := take_sign s' in
        let '(v, n, rest) := take_digits s' 0 0 in
        if (n =? 0) || negb (is_empty rest) then None
        else Some (if neg then - v else v)
      else None
  end.

Definition parse_decimal (s : string) : option float64 :=
  let '(neg, s) := take_sign s in
  if bool_decide (ToLower s ∈ ["inf"; "infinity"]%string) then Some (S754_infinity neg)
  else if String.eqb (ToLower s) "nan" then Some S754_nan
  else
    match decimal_mantissa s with
    | None => None
    | Some (v, e, rest) =>
        match decimal_exponent rest with
        | None => None
        | Some e' =>
            let x := f64_decimal v (e + e') in
            if is_inf x then None else Some (if neg then fneg x else x)
        end
    end.

Definition go_math : GoMath :=
  {| Sin := Cephes.sin; Cos := Cephes.cos; Atan2 := Cephes.atan2; Hypot := Cephes.hypot;
     ParseFloat := parse_decimal |}.

(** ** Checks against Go *)
Example sin_one : Cephes.sin f1 = S754_finite false 7579296827247854 (-53).
Proof. vm_compute. reflexivity. Qed.
Example cos_two : Cephes.cos (f64_of_Z 2) = S754_finite true 7496634952020485 (-54).
Proof. vm_compute. reflexivity. Qed.
Example atan_three : Cephes.atan2 (f64_of_Z 3) f1 = S754_finite false 5625202075141472 (-52).
Proof. vm_compute. reflexivity. Qed.
Example parse_tenth : parse_decimal "-1.5e2" = Some (f64_of_Z (-150)).
Proof. vm_compute. reflexivity. Qed.
Example atoi_sign : (Atoi "-042", Atoi "4x", Atoi "") = (Some (-42), None, None).
Proof. vm_compute. reflexivity. Qed.
