(* ===== verification/Geofence.v ===== *)
(** * Geofences: zones, geometry and the dwell engine

    [internal/geofence/domain] (geo.go, geofence.go, repository.go): the
    records, the great-circle and point-in-polygon tests on [float64]; and
    [internal/geofence/application/dwell_engine.go]: the machine
    outside, entering, inside, leaving that turns the fixes of a vehicle into
    zone events.  The elementary functions are those of any [GoMath]. *)
From stdpp Require Import base decidable list strings option.
From Stdlib Require Import ZArith Lia String SpecFloat.
From S2P Require Import Prelude GoFloat Shared GoMath.
Open Scope Z_scope.

Module Geo.

Definition KindPickup : string := "pickup".
Definition KindDrop : string := "drop".
Definition KindDepot : string := "depot".
Definition KindRestricted : string := "restricted".
Definition KindNoEntry : string := "no_entry".
Definition ShapeCircle : string := "circle".
Definition ShapePolygon : string := "polygon".

Definition StateOutside : string := "outside".
Definition StateEntering : string := "entering".
Definition StateInside : string := "inside".
Definition StateLeaving : string := "leaving".
Definition EventEntering : string := "entering".
Definition EventLeaving : string := "leaving".
Definition EventBreach : string := "breach".
Definition DetentionOpen : string := "open".
Definition DetentionClosed : string := "closed".
Definition DetentionAttached : string := "attached".
Definition DetentionInvoiced : string := "invoiced".
Definition DetentionWaived : string := "waived".

Record Point := mkPoint { Lat : float64; Lng : float64 }.

Record Fix := mkFix {
  fix_VehicleID : string; fix_TripID : option string; fix_Timestamp : Time;
  fix_Latitude : float64; fix_Longitude : float64; fix_Speed : float64 }.

Record Geofence := mkGeofence {
  ID : string; TenantID : string; Name : string; Kind : string; Shape : string;
  CenterLat : float64; CenterLng : float64; RadiusM : float64; Polygon : list Point;
  RouteName : string; Priority : Z; IsActive : bool; CreatedBy : option string;
  CreatedAt : Time; UpdatedAt : Time }.

Record EngineState := mkEngineState {
  es_VehicleID : string; es_TenantID : string; State : string; es_TripID : option string;
  GeofenceID : option string; ZoneKind : option string; ZoneEnteredAt : option Time;
  ConfirmedAt : option Time; ExitStartedAt : option Time; LastFixAt : Time;
  LastLat : float64; LastLng : float64; es_UpdatedAt : Time }.

Record GeofenceEvent := mkGeofenceEvent {
  ge_ID : string; ge_TenantID : string; ge_VehicleID : option string; ge_TripID : option string;
  ge_GeofenceID : option string; ge_ZoneKind : option string; ge_EventType : string;
  AlertType : option string; Severity : option string; ge_Latitude : option float64;
  ge_Longitude : option float64; ge_Details : option string; ge_CreatedAt : Time }.

Record Detention := mkDetention {
  d_ID : string; d_TenantID : string; d_TripID : string; d_VehicleID : option string;
  d_GeofenceID : option string; d_ZoneKind : string; ZoneName : string; EnteredAt : Time;
  ExitedAt : option Time; DwellSeconds : Z; FreeSeconds : Z; BillableSeconds : Z;
  RatePerHour : float64; Amount : float64; Status : string }.

(** [t.Sub(u)]: a [time.Duration], saturating. *)
Definition Sub (t u : Time) : Z := Z.max min_int64 (Z.min max_int64 (t - u)).

(** ** Geometry (geo.go) *)
Section Geometry.
Context `{GoMath}.
Open Scope f64_scope.

Definition EarthRadiusM : float64 := f64_of_Z 6371000.
Definition two : float64 := f64_of_Z 2.
Definition f180 : float64 := f64_of_Z 180.
Definition radians (x : float64) : float64 := x * Cephes.Pi / f180.

Definition Haversine (lat1 lng1 lat2 lng2 : float64) : float64 :=
  let lat1r := radians lat1 in
  let lat2r := radians lat2 in
  let dLat := radians (lat2 - lat1) in
  let dLng := radians (lng2 - lng1) in
  let a := Sin (dLat / two) * Sin (dLat / two)
           + Cos lat1r * Cos lat2r * Sin (dLng / two) * Sin (dLng / two) in
  EarthRadiusM * two * Atan2 (fsqrt a) (fsqrt (f1 - a)).

Definition onSegment (a b c : Point) (eps : float64) : bool :=
  let cross := (Lat c - Lat a) * (Lng b - Lng a) - (Lng c - Lng a) * (Lat b - Lat a) in
  if eps <? fabs cross then false
  else if (Lat c <? fmin (Lat a) (Lat b) - eps) || (fmax (Lat a) (Lat b) + eps <? Lat c) then false
  else if (Lng c <? fmin (Lng a) (Lng b) - eps) || (fmax (Lng a) (Lng b) + eps <? Lng c) then false
  else true.

(** [p == q] on [Point]s. *)
Definition point_eqb (p q : Point) : bool := (Lat p =? Lat q) && (Lng p =? Lng q).

Definition origin : Point := mkPoint f0 f0.
Definition vertex (ring : list Point) (i : nat) : Point := nth i ring origin.
(** The number of vertices once an explicit closing point is dropped. *)
Definition ring_size (ring : list Point) : nat :=
  let n := List.length ring in
  if point_eqb (vertex ring 0) (vertex ring (Nat.pred n)) then Nat.pred n else n.
(** [ring[i]], [ring[(i+1)%n]]. *)
Definition edge (ring : list Point) (n i : nat) : Point * Point :=
  (vertex ring i, vertex ring (Nat.modulo (S i) n)).
Definition edges (ring : list Point) (n : nat) : list (Point * Point) :=
  map (edge ring n) (List.seq 0 n).

Definition polygon_eps : float64 := f64_decimal 1 (-9).

(** The ray to the east of [p] crosses the edge. *)
Definition crosses (p a b : Point) : bool :=
  if xorb (Lat p <? Lat a) (Lat p <? Lat b)
  then Lng p <? Lng a + (Lat p - Lat a) * (Lng b - Lng a) / (Lat b - Lat a)
  else false.

Fixpoint cast_rays (p : Point) (es : list (Point * Point)) (inside : bool) : bool :=
  match es with
  | [] => inside
  | (a, b) :: es' =>
      if onSegment a b p polygon_eps then true
      else cast_rays p es' (if crosses p a b then negb inside else inside)
  end.

Definition PointInPolygon (lat lng : float64) (ring : list Point) : bool :=
  if Nat.ltb (List.length ring) 3 then false
  else
    let n := ring_size ring in
    if Nat.ltb n 3 then false
    else cast_rays (mkPoint lat lng) (edges ring n) false.

(** Longitude first, as [(x, y)]. *)
Definition equirectM (lat lng anchorLat : float64) : float64 * float64 :=
  let latScale := f64_of_Z 111320 in
  let lngScale := f64_of_Z 111320 * Cos (radians anchorLat) in
  (lng * lngScale, lat * latScale).

Definition PointToSegmentDistance (p a b : Point) : float64 :=
  let '(ax, ay) := equirectM (Lat a) (Lng a) (Lat p) in
  let '(bx, by_) := equirectM (Lat b) (Lng b) (Lat p) in
  let '(px, py) := equirectM (Lat p) (Lng p) (Lat p) in
  let dx := bx - ax in
  let dy := by_ - ay in
  if (dx =? f0) && (dy =? f0) then Hypot (px - ax) (py - ay)
  else
    let t := ((px - ax) * dx + (py - ay) * dy) / (dx * dx + dy * dy) in
    if t <? f0 then Hypot (px - ax) (py - ay)
    else if f1 <? t then Hypot (px - bx) (py - by_)
    else Hypot (px - (ax + t * dx)) (py - (ay + t * dy)).

Definition PointToPolygonDistance (p : Point) (ring : list Point) : float64 :=
  if PointInPolygon (Lat p) (Lng p) ring then f0
  else if Nat.ltb (List.length ring) 2 then Cephes.MaxFloat64
  else
    foldl (λ minDist e,
             let d := PointToSegmentDistance p (fst e) (snd e) in
             if d <? minDist then d else minDist)
      Cephes.MaxFloat64 (edges ring (ring_size ring)).

Definition CircleContains (centerLat centerLng radiusM lat lng : float64) : bool :=
  Haversine centerLat centerLng lat lng <=? radiusM.

(** ** Zones (geofence.go) *)
Definition ContainsEntry (g : Geofence) (lat lng bufferM : float64) : bool :=
  if String.eqb (Shape g) ShapeCircle then
    let r := RadiusM g + bufferM in
    (f0 <? r) && CircleContains (CenterLat g) (CenterLng g) r lat lng
  else if String.eqb (Shape g) ShapePolygon then
    if PointInPolygon lat lng (Polygon g) then true
    else PointToPolygonDistance (mkPoint lat lng) (Polygon g) <=? bufferM
  else false.

Definition ContainsExit (g : Geofence) (lat lng hysteresisM : float64) : bool :=
  if String.eqb (Shape g) ShapeCircle then
    let r := RadiusM g - hysteresisM in
    (f0 <? r) && CircleContains (CenterLat g) (CenterLng g) r lat lng
  else if String.eqb (Shape g) ShapePolygon then
    if negb (PointInPolygon lat lng (Polygon g)) then false
    else hysteresisM <? PointToPolygonDistance (mkPoint lat lng) (Polygon g)
  else false.
Close Scope f64_scope.

Lemma vertex_app ring p i :
  (i < List.length ring)%nat → vertex (ring ++ [p]) i = vertex ring i.
Proof. intros Hi. unfold vertex. by apply app_nth1. Qed.

Lemma edges_app ring p n :
  n ≠ O → (n <= List.length ring)%nat → edges (ring ++ [p]) n = edges ring n.
Proof.
  intros Hn Hle. unfold edges. apply map_ext_in. intros i [_ Hi]%in_seq. unfold edge.
  pose proof (Nat.mod_upper_bound (S i) n Hn).
  by rewrite !vertex_app by lia.
Qed.

(** closing a ring explicitly, with its first point again at the end,
    changes neither what is inside nor the distance to it. *)
Theorem closed_ring_same p ring :
  (3 <= List.length ring)%nat →
  point_eqb (vertex ring 0) (vertex ring 0) = true →
  point_eqb (vertex ring 0) (vertex ring (Nat.pred (List.length ring))) = false →
  PointInPolygon (Lat p) (Lng p) (ring ++ [vertex ring 0])
    = PointInPolygon (Lat p) (Lng p) ring ∧
  PointToPolygonDistance p (ring ++ [vertex ring 0]) = PointToPolygonDistance p ring.
Proof.
  intros Hl He Hne.
  assert (Hsize : ring_size (ring ++ [vertex ring 0]) = List.length ring).
  { unfold ring_size. rewrite length_app, Nat.add_1_r. cbn [List.length Nat.pred].
    rewrite vertex_app by lia. unfold vertex at 2. rewrite app_nth2, Nat.sub_diag by lia.
    cbn [nth]. by rewrite He. }
  assert (Hsize' : ring_size ring = List.length ring) by (unfold ring_size; by rewrite Hne).
  assert (Hin : PointInPolygon (Lat p) (Lng p) (ring ++ [vertex ring 0])
                = PointInPolygon (Lat p) (Lng p) ring).
  { unfold PointInPolygon. rewrite Hsize, Hsize', length_app, edges_app by lia.
    rewrite (proj2 (Nat.ltb_ge _ _)) by (cbn; lia). by rewrite (proj2 (Nat.ltb_ge _ _)) by lia. }
  split; [exact Hin|]. unfold PointToPolygonDistance. rewrite Hin, Hsize, Hsize', length_app, edges_app by lia.
  rewrite (proj2 (Nat.ltb_ge _ _)) by (cbn; lia). by rewrite (proj2 (Nat.ltb_ge _ _)) by lia.
Qed.
End Geometry.

Definition square : list Point :=
  map (λ p, mkPoint (f64_of_Z (fst p)) (f64_of_Z (snd p))) [(0, 0); (0, 10); (10, 10); (10, 0)].

Lemma closed_ring_same_witness :
  let p := mkPoint (f64_of_Z 5) (f64_of_Z 4) in
  PointInPolygon (Lat p) (Lng p) (square ++ [vertex square 0]) = true ∧
  @PointToPolygonDistance go_math p (square ++ [vertex square 0])
    = @PointToPolygonDistance go_math p square.
Proof.
  intros p. split; [vm_compute; reflexivity|].
  apply (@closed_ring_same go_math p square); [cbn; lia|vm_compute; reflexivity..].
Defined.
End Geo.

(** ** The dwell engine (dwell_engine.go) *)
Module Dwell.
Import Geo.

Record EngineConfig := mkEngineConfig {
  Debounce : Z; BufferMetres : float64; HysteresisMetres : float64 }.

Definition second : Z := 10 ^ 9.
Definition minute : Z := 60 * second.
Definition DefaultDwellDebounce : Z := 60 * second.
Definition DefaultBufferMetres : float64 := f64_of_Z 20.
Definition DefaultHysteresisMetres : float64 := f64_of_Z 25.
Definition DefaultEngineConfig : EngineConfig :=
  mkEngineConfig DefaultDwellDebounce DefaultBufferMetres DefaultHysteresisMetres.

Record ZoneEvent := mkZoneEvent {
  EventType : string; Zone : Geofence; ev_Lat : float64; ev_Lng : float64; At : Time;
  Details : string }.

(** A nil pointer is dereferenced: the goroutine panics. *)
Definition nil_dereference : error :=
  Err "runtime error: invalid memory address or nil pointer dereference".

Section Engine.
Context `{GoMath}.

Definition bestZoneFor (zones : list Geofence) (lat lng buffer : float64) : option Geofence :=
  List.find (λ z, ContainsEntry z lat lng buffer) zones.

Definition zoneByID (zones : list Geofence) (id : option string) : option Geofence :=
  match id with
  | None => None
  | Some i => List.find (λ z, String.eqb (ID z) i) zones
  end.

(** Every field of the row but those of the machine itself. *)
Definition seen (s : EngineState) (fix_ : Fix) : EngineState :=
  mkEngineState (es_VehicleID s) (es_TenantID s) (State s)
    (match fix_TripID fix_ with Some t => Some t | None => es_TripID s end)
    (GeofenceID s) (ZoneKind s) (ZoneEnteredAt s) (ConfirmedAt s) (ExitStartedAt s)
    (fix_Timestamp fix_) (fix_Latitude fix_) (fix_Longitude fix_) (es_UpdatedAt s).

(** [s] moved to [st] with the machine's five fields. *)
Definition moved (s : EngineState) (st : string) (g k : option string)
    (entered confirmed exit : option Time) : EngineState :=
  mkEngineState (es_VehicleID s) (es_TenantID s) st (es_TripID s) g k entered confirmed exit
    (LastFixAt s) (LastLat s) (LastLng s) (es_UpdatedAt s).

Definition is_no_go (kind : string) : bool :=
  String.eqb kind KindRestricted || String.eqb kind KindNoEntry.

Definition zone_event (ty : string) (z : Geofence) (fix_ : Fix) (details : string) : ZoneEvent :=
  mkZoneEvent ty z (fix_Latitude fix_) (fix_Longitude fix_) (fix_Timestamp fix_) details.

Definition entry_events (z : Geofence) (fix_ : Fix) : list ZoneEvent :=
  zone_event EventEntering z fix_ ""
  :: (if is_no_go (Kind z)
      then [zone_event EventBreach z fix_ ("vehicle entered " +:+ Kind z +:+ " zone")%string]
      else []).

(** [since == nil || now.Sub(since) >= debounce]. *)
Definition debounced (cfg : EngineConfig) (now : Time) (since : option Time) : bool :=
  match since with None => true | Some t => Debounce cfg <=? Sub now t end.

Definition from_entering (cfg : EngineConfig) (s next : EngineState) (fix_ : Fix)
    (entryZone : option Geofence) : result (EngineState * list ZoneEvent) :=
  let now := fix_Timestamp fix_ in
  match entryZone with
  | None => Ok (moved next StateOutside None None None (ConfirmedAt s) (ExitStartedAt s), [])
  | Some z =>
      match GeofenceID s with
      | None => Fail nil_dereference
      | Some g =>
          if negb (String.eqb (ID z) g) then
            Ok (moved next (State s) (Some (ID z)) (Some (Kind z)) (Some now) (ConfirmedAt s)
                  (ExitStartedAt s), [])
          else if debounced cfg now (ZoneEnteredAt s) then
            Ok (moved next StateInside (GeofenceID s) (ZoneKind s) (ZoneEnteredAt s) (Some now)
                  (ExitStartedAt s), entry_events z fix_)
          else Ok (next, [])
      end
  end.

Definition from_leaving (cfg : EngineConfig) (s next : EngineState) (fix_ : Fix)
    (zones : list Geofence) (entryZone : option Geofence)
    : result (EngineState * list ZoneEvent) :=
  let now := fix_Timestamp fix_ in
  match entryZone with
  | Some z =>
      match GeofenceID s with
      | None => Fail nil_dereference
      | Some g =>
          let same := String.eqb (ID z) g in
          Ok (moved next StateInside (if same then GeofenceID s else Some (ID z))
                (if same then ZoneKind s else Some (Kind z)) (ZoneEnteredAt s) (ConfirmedAt s)
                None, [])
      end
  | None =>
      if debounced cfg now (ExitStartedAt s) then
        Ok (moved next StateOutside None None None None None,
            match zoneByID zones (GeofenceID s) with
            | Some z => [zone_event EventLeaving z fix_ ""]
            | None => []
            end)
      else Ok (next, [])
  end.

Definition Evaluate (cfg : EngineConfig) (current : EngineState) (fix_ : Fix)
    (zones : list Geofence) : result (EngineState * list ZoneEvent) :=
  let now := fix_Timestamp fix_ in
  let next := seen current fix_ in
  let entryZone := bestZoneFor zones (fix_Latitude fix_) (fix_Longitude fix_) (BufferMetres cfg) in
  if String.eqb (State current) StateOutside then
    match entryZone with
    | Some z =>
        Ok (moved next StateEntering (Some (ID z)) (Some (Kind z)) (Some now)
              (ConfirmedAt current) (ExitStartedAt current), [])
    | None => Ok (next, [])
    end
  else if String.eqb (State current) StateEntering then from_entering cfg current next fix_ entryZone
  else if String.eqb (State current) StateInside then
    match zoneByID zones (GeofenceID current) with
    | Some cur =>
        if negb (ContainsExit cur (fix_Latitude fix_) (fix_Longitude fix_) (HysteresisMetres cfg))
        then Ok (moved next StateLeaving (GeofenceID current) (ZoneKind current)
                   (ZoneEnteredAt current) (ConfirmedAt current) (Some now), [])
        else Ok (next, [])
    | None => Ok (next, [])
    end
  else if String.eqb (State current) StateLeaving then
    from_leaving cfg current next fix_ zones entryZone
  else Ok (next, []).

(** *** The rows the machine can hold

    Which of the nullable columns a state has set. *)
Definition well_formed (s : EngineState) : bool :=
  let g := bool_decide (is_Some (GeofenceID s)) in
  let k := bool_decide (is_Some (ZoneKind s)) in
  let e := bool_decide (is_Some (ZoneEnteredAt s)) in
  let c := bool_decide (is_Some (ConfirmedAt s)) in
  let x := bool_decide (is_Some (ExitStartedAt s)) in
  if String.eqb (State s) StateOutside then negb g && negb k && negb e && negb c && negb x
  else if String.eqb (State s) StateEntering then g && k && e && negb c && negb x
  else if String.eqb (State s) StateInside then g && k && e && c && negb x
  else if String.eqb (State s) StateLeaving then g && k && e && c && x
  else false.

(** The same, as a case analysis. *)
Inductive machine (s : EngineState) : Prop :=
| at_outside : State s = StateOutside → GeofenceID s = None → ZoneKind s = None →
    ZoneEnteredAt s = None → ConfirmedAt s = None → ExitStartedAt s = None → machine s
| at_entering g k t : State s = StateEntering → GeofenceID s = Some g → ZoneKind s = Some k →
    ZoneEnteredAt s = Some t → ConfirmedAt s = None → ExitStartedAt s = None → machine s
| at_inside g k t c : State s = StateInside → GeofenceID s = Some g → ZoneKind s = Some k →
    ZoneEnteredAt s = Some t → ConfirmedAt s = Some c → ExitStartedAt s = None → machine s
| at_leaving g k t c x : State s = StateLeaving → GeofenceID s = Some g → ZoneKind s = Some k →
    ZoneEnteredAt s = Some t → ConfirmedAt s = Some c → ExitStartedAt s = Some x → machine s.

Lemma well_formed_spec s : well_formed s = true ↔ machine s.
Proof.
  unfold well_formed. split.
  - destruct s as [v t st tr g k e c x lf la ln u]; cbn.
    destruct (String.eqb_spec st StateOutside), (String.eqb_spec st StateEntering),
      (String.eqb_spec st StateInside), (String.eqb_spec st StateLeaving), g, k, e, c, x;
      cbn; try discriminate 1; intros _.
    all: first [ by apply at_outside | by eapply at_entering | by eapply at_inside
               | by eapply at_leaving ].
  - by intros [-> -> -> -> -> ->|? ? ? -> -> -> -> -> ->|? ? ? ? -> -> -> -> -> ->|? ? ? ? ? -> -> -> -> -> ->].
Qed.

(** The edges of the machine. *)
Inductive edge : string → string → Prop :=
| edge_stay st : edge st st
| edge_probe : edge StateOutside StateEntering
| edge_miss : edge StateEntering StateOutside
| edge_confirm : edge StateEntering StateInside
| edge_exit : edge StateInside StateLeaving
| edge_back : edge StateLeaving StateInside
| edge_gone : edge StateLeaving StateOutside.

(** One fix, case by case. *)
Inductive outcome (cfg : EngineConfig) (s : EngineState) (f : Fix) (zs : list Geofence)
    (best : option Geofence) : EngineState → list ZoneEvent → Prop :=
| out_idle : State s = StateOutside → best = None → outcome cfg s f zs best (seen s f) []
| out_probe z : State s = StateOutside → best = Some z →
    outcome cfg s f zs best
      (moved (seen s f) StateEntering (Some (ID z)) (Some (Kind z)) (Some (fix_Timestamp f))
         (ConfirmedAt s) (ExitStartedAt s)) []
| ent_miss : State s = StateEntering → best = None →
    outcome cfg s f zs best
      (moved (seen s f) StateOutside None None None (ConfirmedAt s) (ExitStartedAt s)) []
| ent_other z g : State s = StateEntering → best = Some z → GeofenceID s = Some g → ID z ≠ g →
    outcome cfg s f zs best
      (moved (seen s f) StateEntering (Some (ID z)) (Some (Kind z)) (Some (fix_Timestamp f))
         (ConfirmedAt s) (ExitStartedAt s)) []
| ent_wait z g : State s = StateEntering → best = Some z → GeofenceID s = Some g → ID z = g →
    debounced cfg (fix_Timestamp f) (ZoneEnteredAt s) = false →
    outcome cfg s f zs best (seen s f) []
| ent_confirm z g : State s = StateEntering → best = Some z → GeofenceID s = Some g → ID z = g →
    debounced cfg (fix_Timestamp f) (ZoneEnteredAt s) = true →
    outcome cfg s f zs best
      (moved (seen s f) StateInside (GeofenceID s) (ZoneKind s) (ZoneEnteredAt s)
         (Some (fix_Timestamp f)) (ExitStartedAt s)) (entry_events z f)
| ins_stay : State s = StateInside →
    (∀ cur, zoneByID zs (GeofenceID s) = Some cur →
       ContainsExit cur (fix_Latitude f) (fix_Longitude f) (HysteresisMetres cfg) = true) →
    outcome cfg s f zs best (seen s f) []
| ins_exit cur : State s = StateInside → zoneByID zs (GeofenceID s) = Some cur →
    ContainsExit cur (fix_Latitude f) (fix_Longitude f) (HysteresisMetres cfg) = false →
    outcome cfg s f zs best
      (moved (seen s f) StateLeaving (GeofenceID s) (ZoneKind s) (ZoneEnteredAt s)
         (ConfirmedAt s) (Some (fix_Timestamp f))) []
| lea_back z g k : State s = StateLeaving → best = Some z → GeofenceID s = Some g →
    k = (if String.eqb (ID z) g then ZoneKind s else Some (Kind z)) →
    outcome cfg s f zs best
      (moved (seen s f) StateInside (Some (ID z)) k (ZoneEnteredAt s) (ConfirmedAt s) None) []
| lea_wait : State s = StateLeaving → best = None →
    debounced cfg (fix_Timestamp f) (ExitStartedAt s) = false →
    outcome cfg s f zs best (seen s f) []
| lea_gone evs : State s = StateLeaving → best = None →
    debounced cfg (fix_Timestamp f) (ExitStartedAt s) = true →
    evs = match zoneByID zs (GeofenceID s) with
          | Some z => [zone_event EventLeaving z f ""] | None => [] end →
    outcome cfg s f zs best (moved (seen s f) StateOutside None None None None None) evs.

Lemma evaluate_outcome cfg s f zs :
  machine s →
  ∃ next evs, Evaluate cfg s f zs = Ok (next, evs) ∧
    outcome cfg s f zs
      (bestZoneFor zs (fix_Latitude f) (fix_Longitude f) (BufferMetres cfg)) next evs.
Proof.
  intros Hm. unfold Evaluate, from_entering, from_leaving.
  destruct Hm as [Hs Hg|g k t Hs Hg|g k t c Hs Hg|g k t c x Hs Hg]; rewrite Hs;
    cbn [String.eqb Ascii.eqb Bool.eqb StateOutside StateEntering StateInside StateLeaving].
  - destruct (bestZoneFor _ _ _ _) eqn:E; do 2 eexists; (split; [reflexivity|]); by constructor.
  - destruct (bestZoneFor _ _ _ _) as [z|] eqn:E.
    + rewrite Hg. destruct (String.eqb_spec (ID z) g); cbn [negb].
      * destruct (debounced _ _ _) eqn:D; do 2 eexists; (split; [reflexivity|]).
        -- rewrite <- Hg. by eapply ent_confirm.
        -- by eapply ent_wait.
      * do 2 eexists; (split; [reflexivity|]). by eapply ent_other.
    + do 2 eexists; (split; [reflexivity|]). by constructor.
  - destruct (zoneByID _ _) as [cur|] eqn:E.
    + destruct (ContainsExit _ _ _ _) eqn:X; cbn [negb]; do 2 eexists; (split; [reflexivity|]).
      * apply ins_stay; [done|]. rewrite E. by intros ? [= <-].
      * by eapply ins_exit.
    + do 2 eexists; (split; [reflexivity|]). apply ins_stay; [done|]. by rewrite E.
  - destruct (bestZoneFor _ _ _ _) as [z|] eqn:E.
    + rewrite Hg. do 2 eexists; (split; [reflexivity|]).
      destruct (String.eqb_spec (ID z) g) as [Heq|Hne]; [subst g|]; (eapply lea_back; [done..|]).
      * by rewrite String.eqb_refl.
      * by rewrite (proj2 (String.eqb_neq _ _) Hne).
    + destruct (debounced _ _ _) eqn:D; do 2 eexists; (split; [reflexivity|]).
      * by apply lea_gone.
      * by apply lea_wait.
Qed.

Lemma seen_machine s f : machine s → machine (seen s f).
Proof. intros []; [by apply at_outside|by eapply at_entering|by eapply at_inside|by eapply at_leaving]. Qed.

Lemma outcome_machine cfg s f zs best next evs :
  machine s → outcome cfg s f zs best next evs → machine next ∧ edge (State s) (State next).
Proof.
  intros Hm Ho; pose proof (seen_machine s f Hm) as Hseen.
  destruct Ho as [Hs|z Hs|Hs|z g Hs|z g Hs|z g Hs|Hs|cur Hs|z g k Hs ? ? ->|Hs|evs Hs];
    (split; [try exact Hseen|rewrite ?Hs; cbn; rewrite ?Hs; constructor]);
    destruct Hm as [E|? ? ? E|? ? ? ? E|? ? ? ? ? E]; rewrite Hs in E; try discriminate E;
    try (destruct (String.eqb _ _));
    first [ by apply at_outside | by eapply at_entering | by eapply at_inside
          | by eapply at_leaving ].
Qed.

Lemma evaluate_ok cfg s f zs :
  well_formed s = true →
  ∃ next evs, Evaluate cfg s f zs = Ok (next, evs) ∧ well_formed next = true ∧
    edge (State s) (State next) ∧ LastFixAt next = fix_Timestamp f ∧
    es_VehicleID next = es_VehicleID s ∧ es_TenantID next = es_TenantID s.
Proof.
  intros Hm%well_formed_spec. destruct (evaluate_outcome cfg s f zs Hm) as (next & evs & He & Ho).
  exists next, evs. pose proof (outcome_machine _ _ _ _ _ _ _ Hm Ho) as [Hn Hd].
  split; [done|]. split; [by apply well_formed_spec|]. split; [done|]. by destruct Ho.
Qed.

(** The zone a row names, with its kind: as before, none, or the zone the
    entry test picks for the fix. *)
Definition zone_moves (cfg : EngineConfig) (s next : EngineState) (f : Fix) (zs : list Geofence) : Prop :=
  (GeofenceID next, ZoneKind next) = (GeofenceID s, ZoneKind s) ∨
  (GeofenceID next, ZoneKind next) = (None, None) ∨
  ∃ z, bestZoneFor zs (fix_Latitude f) (fix_Longitude f) (BufferMetres cfg) = Some z ∧
    (GeofenceID next, ZoneKind next) = (Some (ID z), Some (Kind z)).

Lemma outcome_zone cfg s f zs next evs :
  outcome cfg s f zs (bestZoneFor zs (fix_Latitude f) (fix_Longitude f) (BufferMetres cfg)) next evs →
  zone_moves cfg s next f zs.
Proof.
  unfold zone_moves. destruct 1 as [| | | | | | | |z g k ? ? Hg ->| |]; try (by left); try (by right; left);
    try (by right; right; eexists).
  destruct (String.eqb_spec (ID z) g) as [<-|]; [left; by rewrite Hg|right; right; by eexists].
Qed.

(** C34: the dwell machine is well typed: from every row the engine can have
    written, whatever the fix and the zones, it neither panics nor leaves the
    four states; the columns set in the row it reaches, the zone, its kind
    and the three times, are exactly those its state needs; the zone and its
    kind change together, to none or to the zone the entry test picks; and
    the move is an edge of the machine. *)
Theorem evaluate_well_formed cfg s f zs :
  well_formed s = true →
  ∃ next evs, Evaluate cfg s f zs = Ok (next, evs) ∧ well_formed next = true ∧
    zone_moves cfg s next f zs ∧
    edge (State s) (State next) ∧ LastFixAt next = fix_Timestamp f ∧
    es_VehicleID next = es_VehicleID s ∧ es_TenantID next = es_TenantID s.
Proof.
  intros Hs. pose proof (proj1 (well_formed_spec s) Hs) as Hm.
  destruct (evaluate_outcome cfg s f zs Hm) as (next & evs & He & Ho).
  destruct (evaluate_ok cfg s f zs Hs) as (next' & evs' & He' & Hr).
  rewrite He in He'. injection He' as <- <-. exists next, evs.
  split_and!; [done|apply Hr|by eapply outcome_zone|apply Hr..].
Qed.

(** *** A vehicle's history

    The row of a vehicle seen for the first time, and the rows it reaches as
    its fixes come in, each with the zones loaded for it. *)
Definition fresh_state (vehicle tenant : string) : EngineState :=
  mkEngineState vehicle tenant StateOutside None None None None None None 0 f0 f0 0.

Abbreviation observation := (Fix * list Geofence)%type.

Inductive reached (cfg : EngineConfig) : list observation → EngineState → Prop :=
| reached_fresh v t : reached cfg [] (fresh_state v t)
| reached_fix h s f zs next evs :
    reached cfg h s → Evaluate cfg s f zs = Ok (next, evs) → reached cfg (h ++ [(f, zs)]) next.

Definition best (cfg : EngineConfig) (o : observation) : option Geofence :=
  bestZoneFor (snd o) (fix_Latitude (fst o)) (fix_Longitude (fst o)) (BufferMetres cfg).
Definition in_zone (cfg : EngineConfig) (id : string) (o : observation) : Prop :=
  ID <$> best cfg o = Some id.
Definition out_of_zones (cfg : EngineConfig) (o : observation) : Prop := best cfg o = None.
(** The exit test of zone [id] fails. *)
Definition left_zone (cfg : EngineConfig) (id : string) (o : observation) : Prop :=
  ∃ z, zoneByID (snd o) (Some id) = Some z ∧
    ContainsExit z (fix_Latitude (fst o)) (fix_Longitude (fst o)) (HysteresisMetres cfg) = false.

(** The history ends with an unbroken stay in zone [id] that began at [t]. *)
Definition staying (cfg : EngineConfig) (id : string) (t : Time) (h : list observation) : Prop :=
  ∃ h0 o run, h = h0 ++ o :: run ∧ fix_Timestamp (fst o) = t ∧ Forall (in_zone cfg id) (o :: run).
(** ... with an unbroken absence from every zone that began when [id] was
    left at [t]. *)
Definition absent (cfg : EngineConfig) (id : string) (t : Time) (h : list observation) : Prop :=
  ∃ h0 o run, h = h0 ++ o :: run ∧ fix_Timestamp (fst o) = t ∧ left_zone cfg id o ∧
    Forall (out_of_zones cfg) run.

Lemma staying_start cfg id h o : in_zone cfg id o → staying cfg id (fix_Timestamp (fst o)) (h ++ [o]).
Proof. intros Ho. exists h, o, []. split_and!; [done|done|by constructor]. Qed.
Lemma staying_snoc cfg id t h o :
  staying cfg id t h → in_zone cfg id o → staying cfg id t (h ++ [o]).
Proof.
  intros (h0 & o' & run & -> & Ht & Hall) Ho. exists h0, o', (run ++ [o]).
  split_and!; [by rewrite <- app_assoc|done|]. rewrite app_comm_cons. apply Forall_app_2; [done|].
  by constructor.
Qed.
Lemma absent_snoc cfg id t h o :
  absent cfg id t h → out_of_zones cfg o → absent cfg id t (h ++ [o]).
Proof.
  intros (h0 & o' & run & -> & Ht & Hl & Hall) Ho. exists h0, o', (run ++ [o]).
  split_and!; [by rewrite <- app_assoc|done|done|]. apply Forall_app_2; [done|]. by constructor.
Qed.

(** What the row remembers of the history. *)
Definition remembers (cfg : EngineConfig) (h : list observation) (s : EngineState) : Prop :=
  (State s = StateEntering → ∀ g t, GeofenceID s = Some g → ZoneEnteredAt s = Some t →
     staying cfg g t h) ∧
  (State s = StateLeaving → ∀ g t, GeofenceID s = Some g → ExitStartedAt s = Some t →
     absent cfg g t h).

Lemma outcome_remembers cfg h s f zs next evs :
  remembers cfg h s →
  outcome cfg s f zs (best cfg (f, zs)) next evs → remembers cfg (h ++ [(f, zs)]) next.
Proof.
  intros [He Hl] Ho.
  assert (Hin : ∀ z, best cfg (f, zs) = Some z → in_zone cfg (ID z) (f, zs)).
  { intros z Hz. unfold in_zone. by rewrite Hz. }
  destruct Ho as [Hs Hb|z Hs Hb|Hs Hb|z g Hs Hb Hg Hne|z g Hs Hb Hg Heq|z g Hs|Hs|cur Hs Hc Hx|
                  z g k Hs|Hs Hb|evs Hs];
    (split; cbn; intros Hst; try (rewrite Hs in Hst); try discriminate Hst; intros g' t'; cbn).
  - intros [= <-] [= <-]. apply (staying_start cfg _ h (f, zs)), Hin, Hb.
  - intros [= <-] [= <-]. apply (staying_start cfg _ h (f, zs)), Hin, Hb.
  - intros Hg' Ht. assert (ID z = g') as Hid by congruence.
    apply staying_snoc; [exact (He Hs g' t' Hg' Ht)|]. rewrite <- Hid. by apply Hin.
  - intros Hg [= <-]. exists h, (f, zs), []. split_and!; [done|done| |constructor].
    exists cur. split; [|exact Hx]. cbn [snd]. rewrite <- Hg. exact Hc.
  - intros Hg Ht. apply absent_snoc; [exact (Hl Hs g' t' Hg Ht)|]. exact Hb.
Qed.

Lemma reached_facts cfg h s : reached cfg h s → machine s ∧ remembers cfg h s.
Proof.
  induction 1 as [v t|h s f zs next evs Hr [Hm Hk] He].
  - split; [by apply at_outside|]. by split.
  - destruct (evaluate_outcome cfg s f zs Hm) as (n & e & He' & Ho).
    rewrite He in He'. injection He' as <- <-.
    split; [by eapply outcome_machine|]. by eapply outcome_remembers.
Qed.

Lemma zone_event_inj ty ty' z z' f d d' :
  zone_event ty z f d = zone_event ty' z' f d' → ty = ty' ∧ z = z'.
Proof. unfold zone_event. intros H0. by injection H0. Qed.

(** C35: no spurious zone event: when a vehicle is reported entering a zone, an
    unbroken run of its latest fixes was in that zone for at least the
    debounce time; when it is reported leaving, the run began outside the
    contracted zone and has been out of every zone since, for as long.  A
    breach is reported with the entry, and only of a no-go zone. *)
Theorem zone_events_debounced cfg h s f zs next evs z :
  reached cfg h s → Evaluate cfg s f zs = Ok (next, evs) →
  (In (zone_event EventEntering z f "") evs →
     ∃ t, staying cfg (ID z) t (h ++ [(f, zs)]) ∧ Debounce cfg <= Sub (fix_Timestamp f) t) ∧
  (In (zone_event EventLeaving z f "") evs →
     ∃ t, absent cfg (ID z) t (h ++ [(f, zs)]) ∧ Debounce cfg <= Sub (fix_Timestamp f) t) ∧
  (∀ ev, In ev evs → EventType ev = EventBreach →
     In (zone_event EventEntering (Zone ev) f "") evs ∧ is_no_go (Kind (Zone ev)) = true).
Proof.
  intros Hr He. apply reached_facts in Hr as [Hm Hk].
  destruct (evaluate_outcome cfg s f zs Hm) as (n & e & He' & Ho).
  rewrite He in He'. injection He' as <- <-.
  pose proof (outcome_remembers _ _ _ _ _ _ _ Hk Ho) as Hk'. destruct Hk as [Hke Hkl].
  destruct Ho as [| | | |z0 g Hs Hb Hg Heq Hd|z0 g Hs Hb Hg Heq Hd|Hs Hc|cur Hs Hc Hx|z0 g k Hs Hb|
                  Hs Hb Hd|evs Hs Hb Hd ->]; try by (split; [intros []|split; [intros []|intros ? []]]).
  - destruct Hm as [E|g' ? t E Hg' ? Ht|? ? ? ? E|? ? ? ? ? E]; rewrite Hs in E; try discriminate E.
    assert (g' = g) as -> by congruence.
    rewrite Ht in Hd. cbn in Hd. apply Z.leb_le in Hd.
    assert (Hst : staying cfg g t (h ++ [(f, zs)])).
    { apply staying_snoc; [by apply Hke|]. unfold in_zone.
      change (best cfg (f, zs)) with
        (bestZoneFor zs (fix_Latitude f) (fix_Longitude f) (BufferMetres cfg)).
      rewrite Hb. cbn. by rewrite Heq. }
    unfold entry_events. split; [|split].
    + intros [Hz|Hz].
      * apply zone_event_inj in Hz as [_ <-]. exists t. by rewrite Heq.
      * destruct (is_no_go _); [|done]. destruct Hz as [Hz|[]]. by apply zone_event_inj in Hz as [Hz _].
    + intros [Hz|Hz]; [by apply zone_event_inj in Hz as [Hz _]|].
      destruct (is_no_go _); [|done]. destruct Hz as [Hz|[]]. by apply zone_event_inj in Hz as [Hz _].
    + intros ev [<-|Hz] Ht'; [discriminate Ht'|]. destruct (is_no_go (Kind z0)) eqn:Hn; [|done].
      destruct Hz as [<-|[]]. cbn. auto.
  - destruct Hm as [E|? ? ? E|? ? ? ? E|g ? t c x E Hg ? Ht Hc Hx]; rewrite Hs in E; try discriminate E.
    rewrite Hx in Hd. cbn in Hd. apply Z.leb_le in Hd. rewrite Hg. cbn [zoneByID].
    destruct (List.find _ _) as [cur|] eqn:Hf; [|by split; [intros []|split; [intros []|intros ? []]]].
    apply find_some in Hf as [_ Hid%String.eqb_eq]. split; [|split].
    + intros [Hz|[]]. by apply zone_event_inj in Hz as [Hz _].
    + intros [Hz|[]]. apply zone_event_inj in Hz as [_ <-]. exists x. split; [|done]. rewrite Hid.
      apply absent_snoc; [by apply Hkl|]. exact Hb.
    + intros ev [<-|[]] Ht'. discriminate Ht'.
Qed.

(** *** Two gaps of the machine *)

(** a vehicle that shows up in another zone while its exit from the first
    is being confirmed is moved there without any event: neither leaving the
    one nor entering the other is reported, a restricted zone included, and
    the zone is taken as entered when the first one was. *)
Theorem zone_switch_unreported cfg s f zs g z :
  well_formed s = true → State s = StateLeaving → GeofenceID s = Some g →
  bestZoneFor zs (fix_Latitude f) (fix_Longitude f) (BufferMetres cfg) = Some z → ID z ≠ g →
  ∃ next, Evaluate cfg s f zs = Ok (next, []) ∧ State next = StateInside ∧
    GeofenceID next = Some (ID z) ∧ ZoneEnteredAt next = ZoneEnteredAt s.
Proof.
  intros _ Hs Hg Hb Hne. unfold Evaluate. rewrite Hs, Hb.
  cbn [String.eqb Ascii.eqb Bool.eqb StateOutside StateEntering StateInside StateLeaving].
  unfold from_leaving. rewrite Hg, (proj2 (String.eqb_neq _ _) Hne). by eexists.
Qed.

(** the exit test of a polygon fails everywhere, its middle included: the
    distance it compares with the hysteresis is zero inside the polygon.  A
    vehicle standing still in a polygon zone is taken for leaving it at every
    other fix. *)
Theorem polygon_exit_always cfg s f zs z :
  well_formed s = true → State s = StateInside → zoneByID zs (GeofenceID s) = Some z →
  Shape z = ShapePolygon → fltb (HysteresisMetres cfg) f0 = false →
  ContainsExit z (fix_Latitude f) (fix_Longitude f) (HysteresisMetres cfg) = false ∧
  ∃ next, Evaluate cfg s f zs = Ok (next, []) ∧ State next = StateLeaving ∧
    ExitStartedAt next = Some (fix_Timestamp f).
Proof.
  intros _ Hs Hz Hp Hh.
  assert (Hx : ContainsExit z (fix_Latitude f) (fix_Longitude f) (HysteresisMetres cfg) = false).
  { unfold ContainsExit. rewrite Hp. cbn [String.eqb Ascii.eqb Bool.eqb ShapeCircle ShapePolygon].
    unfold PointToPolygonDistance. cbn [Lat Lng].
    destruct (PointInPolygon _ _ _); [exact Hh|done]. }
  split; [done|]. unfold Evaluate. rewrite Hs, Hz, Hx.
  cbn [String.eqb Ascii.eqb Bool.eqb StateOutside StateEntering StateInside StateLeaving negb].
  by eexists.
Qed.
End Engine.

(** *** A restricted yard, for concrete runs *)
Definition yard : Geofence :=
  mkGeofence "z1" "1" "Yard" KindRestricted ShapeCircle (f64_of_Z 12) (f64_of_Z 77) (f64_of_Z 500) []
    "" 0 true None 0 0.
Definition depot : Geofence :=
  mkGeofence "z2" "1" "Depot" KindDepot ShapePolygon f0 f0 f0
    (map (λ p, mkPoint (f64_of_Z (fst p)) (f64_of_Z (snd p))) [(20, 70); (20, 71); (21, 71); (21, 70)])
    "" 0 true None 0 0.
Definition fix_at (lat lng : float64) (t : Time) : Fix := mkFix "v1" None t lat lng f0.
Definition in_yard : Time → Fix := fix_at (f64_dec 120010 4) (f64_dec 770010 4).
Definition in_depot : Time → Fix := fix_at (f64_dec 205 1) (f64_dec 705 1).
Definition cfg0 : EngineConfig := DefaultEngineConfig.
Definition step (s : EngineState) (f : Fix) : EngineState :=
  match @Evaluate go_math cfg0 s f [yard; depot] with Ok (n, _) => n | Fail _ => s end.
Definition probed : EngineState := step (fresh_state "v1" "1") (in_yard (10 * second)).
Definition confirmed : EngineState := step probed (in_yard (70 * second)).
Definition leaving : EngineState := step confirmed (in_depot (80 * second)).
Definition at_depot : EngineState := step leaving (in_depot (90 * second)).

Lemma evaluate_well_formed_witness :
  well_formed (fresh_state "v1" "1") = true ∧
  ∃ next evs, @Evaluate go_math cfg0 (fresh_state "v1" "1") (in_yard 5) [yard] = Ok (next, evs) ∧
    well_formed next = true ∧ @zone_moves go_math cfg0 (fresh_state "v1" "1") next (in_yard 5) [yard] ∧
    edge StateOutside (State next) ∧ LastFixAt next = 5 ∧
    es_VehicleID next = "v1"%string ∧ es_TenantID next = "1"%string.
Proof.
  split; [vm_compute; reflexivity|].
  apply (@evaluate_well_formed go_math cfg0 (fresh_state "v1" "1") (in_yard 5) [yard]).
  vm_compute. reflexivity.
Defined.

Lemma zone_events_debounced_witness :
  let h := [(in_yard (10 * second), [yard; depot])] in
  let f := in_yard (70 * second) in
  @reached go_math cfg0 h probed ∧
  (∃ evs, @Evaluate go_math cfg0 probed f [yard; depot] = Ok (confirmed, evs) ∧
     map EventType evs = [EventEntering; EventBreach] ∧
     ((In (zone_event EventEntering yard f "") evs →
        ∃ t, @staying go_math cfg0 (ID yard) t (h ++ [(f, [yard; depot])]) ∧
             Debounce cfg0 <= Sub (fix_Timestamp f) t))).
Proof.
  intros h f.
  assert (Hr : @reached go_math cfg0 h probed).
  { change h with ([] ++ h). eapply (reached_fix cfg0 []); [apply (reached_fresh cfg0 "v1" "1")|].
    vm_compute. reflexivity. }
  split; [exact Hr|].
  assert (He : @Evaluate go_math cfg0 probed f [yard; depot]
               = Ok (confirmed, [zone_event EventEntering yard f "";
                       zone_event EventBreach yard f "vehicle entered restricted zone"]))
    by (vm_compute; reflexivity).
  eexists. split; [exact He|]. split; [reflexivity|].
  exact (proj1 (@zone_events_debounced go_math cfg0 h probed f [yard; depot] _ _ yard Hr He)).
Defined.

Lemma zone_switch_unreported_witness :
  State leaving = StateLeaving ∧ GeofenceID leaving = Some "z1"%string ∧
  ∃ next, @Evaluate go_math cfg0 leaving (in_depot (90 * second)) [yard; depot] = Ok (next, []) ∧
    State next = StateInside ∧ GeofenceID next = Some "z2"%string ∧
    ZoneEnteredAt next = ZoneEnteredAt leaving.
Proof.
  split; [vm_compute; reflexivity|]. split; [vm_compute; reflexivity|].
  apply (@zone_switch_unreported go_math cfg0 leaving (in_depot (90 * second)) [yard; depot]
           "z1" depot); vm_compute; congruence.
Defined.

Lemma polygon_exit_always_witness :
  State at_depot = StateInside ∧
  (@ContainsExit go_math depot (f64_dec 205 1) (f64_dec 705 1) DefaultHysteresisMetres = false ∧
   ∃ next, @Evaluate go_math cfg0 at_depot (in_depot (100 * second)) [yard; depot] = Ok (next, []) ∧
     State next = StateLeaving ∧ ExitStartedAt next = Some (100 * second)).
Proof.
  split; [vm_compute; reflexivity|].
  apply (@polygon_exit_always go_math cfg0 at_depot (in_depot (100 * second)) [yard; depot] depot);
    vm_compute; reflexivity.
Defined.
End Dwell.
