(* ===== verification/Database.v ===== *)
(** * The database, the request environment and the unit of work

    The SQLite tables the transactional core reads and writes
    ([db/migrations]), as lists of rows in rowid order; one SQL statement as
    one atomic, fallible step; [WithTransaction]
    ([internal/repository/tx.go]) and [sqlUnitOfWork.Execute]
    ([internal/shared/uow/uow.go]) on top of it. *)
From stdpp Require Import base decidable list strings option pretty.
From Stdlib Require Import ZArith Lia String.
From S2P Require Import Prelude GoFloat Shared Events GoMath Geofence InvoiceAggregate.
Open Scope Z_scope.

(** ** Rows

    A row is the struct the repositories scan it into; a nullable column
    ([sql.NullString], [sql.NullTime], ...) is an [option]. *)

Module TripRow.

Record SQLTripModel := mkTripRow {
  ID : string; TripNumber : string; BookingID : option string; DriverID : option string;
  VehicleID : option string; RouteID : string; DepartureTime : Time;
  ArrivalTime : option Time; Status : string; Remarks : option string; TenantID : string;
  Version : Z; CreatedAt : Time; UpdatedAt : Time; StartedAt : option Time;
  ReachedPickupAt : option Time; InTransitAt : option Time; DeliveredAt : option Time;
  CompletedAt : option Time }.


End TripRow.

Module BookingRow.

Record SQLBookingModel := mkBookingRow {
  ID : string; BookingNumber : string; CustomerID : string; RouteID : string;
  PickupDate : Time; VehicleType : string; Passengers : Z; CargoWeight : option float64;
  Price : float64; Notes : option string; Status : string; TenantID : string; Version : Z;
  CreatedAt : Time; UpdatedAt : Time }.


End BookingRow.

Module DriverRow.

Record Driver := mkDriverRow {
  ID : string; DriverID : string; FirstName : string; LastName : string; Phone : string;
  Email : option string; Address : option string; LicenseNumber : string;
  LicenseExpiry : Time; ExperienceYears : Z; Status : string;
  EmergencyContactName : option string; EmergencyContactPhone : option string;
  Notes : option string; TenantID : string; CreatedAt : Time; UpdatedAt : Time }.


End DriverRow.

Module VehicleRow.

Record Vehicle := mkVehicleRow {
  ID : string; RegistrationNumber : string; VehicleNumber : string; VehicleType : string;
  Capacity : Z; FuelType : string; InsuranceExpiry : Time; FitnessExpiry : Time;
  PermitExpiry : Time; Status : string; CurrentMileage : option float64; TenantID : string;
  CreatedAt : Time; UpdatedAt : Time; PucExpiry : option Time;
  MaintenanceDue : option string; MaintenanceOverrideBy : option string;
  MaintenanceOverrideAt : option Time; MaintenanceOverrideReason : option string }.


End VehicleRow.

Module InvoiceRow.

Record Invoice := mkInvoiceRow {
  ID : string; InvoiceNumber : string; BookingID : string; CustomerID : string;
  TripID : option string; Subtotal : float64; Tax : float64; Discount : float64;
  Total : float64; PaymentStatus : string; PaidAmount : float64; Status : string;
  DueDate : option Time; Version : Z; TenantID : string; CreatedAt : Time; UpdatedAt : Time;
  Cgst : float64; Sgst : float64; Igst : float64; IRN : option string;
  IRNAckNo : option string; IRNAckDate : option string; SignedQR : option string;
  EwbNumber : option string }.


End InvoiceRow.

Module PaymentRow.

Record Payment := mkPaymentRow {
  ID : string; InvoiceID : string; PaymentDate : Time; Amount : float64; Method : string;
  Reference : option string; Remarks : option string; TenantID : string; CreatedAt : Time;
  UpdatedAt : Time; IdempotencyKey : option string; RazorpayOrderID : option string;
  RazorpayPaymentID : option string; RazorpaySignature : option string;
  WebhookEventID : option string }.


End PaymentRow.

Record CustomerRow := mkCustomerRow { CustomerRowID : string }.
Record RouteRow := mkRouteRow { RouteRowID : string; RouteSource : string; RouteDestination : string }.

(** [payload] holds the event whose JSON text the column stores. *)
Record OutboxRow := mkOutboxRow {
  OutboxID : string; AggregateID : string; AggregateType : string; EventType : string;
  Payload : Event; OutboxCreatedAt : Time; PublishedAt : option Time }.

Record AuditRow := mkAuditRow {
  AuditID : string; UserID : option string; Action : string; TableName : string;
  RecordID : string; OldValues : option string; NewValues : option string;
  IPAddress : option string }.

Record ExemptionRow := mkExemptionRow {
  ExemptID : string; EntityType : string; EntityID : string; DocType : string;
  ExemptUntil : Time }.

Record DtcRow := mkDtcRow {
  DtcVehicleID : string; DtcCode : string; DtcSeverity : string; DtcOccurredAt : Time;
  DtcResolvedAt : option Time }.

Record CompanySettings := mkCompanySettings { GSTEnabled : bool; GSTRate : float64 }.

(** *** Telemetry and geofences (migrations 00031, 00040 to 00042) *)
Module DeviceRow.
(** [telemetry_devices], [telemetry.Device]. *)
Record Device := mkDevice {
  ID : string; TenantID : string; IMEI : string; SerialNumber : option string;
  FirmwareVersion : option string; SimNumber : option string; ICCID : option string;
  WarrantyUntil : option Time; DeviceType : string; Status : string; VehicleID : option string;
  CustomerID : option string; ActivatedAt : option Time; LastSeenAt : option Time;
  DeviceSecretHash : option string; CreatedAt : Time; UpdatedAt : Time }.
End DeviceRow.

(** [telemetry_raw_events]. *)
Record RawEventRow := mkRawEvent {
  raw_ID : string; raw_TenantID : string; raw_IMEI : string; raw_DeviceTime : Time;
  raw_Provider : string; raw_MsgID : option string; raw_Payload : string }.

(** What [telemetry_positions] (with the message's id), [vehicle_latest_position]
    and [telemetry_snapshots] keep of a frame.  The column of the device time
    is text and keeps the offset (seconds east of UTC) the time was sent with. *)
Record Reading := mkReading {
  rd_DeviceTime : Time; rd_Offset : Z; rd_Latitude : float64; rd_Longitude : float64; rd_Speed : float64;
  rd_Heading : float64; rd_Ignition : option bool; rd_EngineHours : option float64;
  rd_Accuracy : option float64; rd_FuelLevel : option float64; rd_Odometer : option float64;
  rd_DriverID : string; rd_TripID : string }.
Record PositionRow := mkPositionRow {
  po_ID : string; po_TenantID : string; po_IMEI : string; po_ReceivedAt : Time;
  po_VehicleID : string; po_Provider : string; po_RawEventID : string; po_Reading : Reading }.
Record LatestRow := mkLatestRow {
  la_VehicleID : string; la_TenantID : string; la_IMEI : string; la_ReceivedAt : Time;
  la_Reading : Reading }.
(** Columns written before this pipeline may be NULL. *)
Record SnapshotRow := mkSnapshot {
  sn_ID : string; sn_TripID : option string; sn_VehicleID : option string; sn_Timestamp : Time;
  sn_Latitude : option float64; sn_Longitude : option float64; sn_Speed : option float64;
  sn_FuelLevel : option float64; sn_Odometer : option float64 }.

(** [device_quarantine], [telemetry.QuarantineEntry]. *)
Record QuarantineEntry := mkQuarantine {
  q_ID : string; q_TenantID : string; q_IMEI : string; q_Source : string; q_RawPayload : string;
  q_Reason : string; q_Status : string; q_ResolvedBy : option string; q_ResolvedAt : option Time;
  q_CreatedAt : Time }.

(** [vehicle_geofences], [company_config]. *)
Record VehicleGeofenceRow := mkVehicleGeofence { vg_VehicleID : string; vg_GeofenceID : string }.
Record ConfigRow := mkConfigRow { cc_TenantID : string; cc_Key : string; cc_Value : string }.

Record Ops := mkOps {
  telemetry_devices : list DeviceRow.Device; telemetry_raw_events : list RawEventRow;
  telemetry_positions : list PositionRow; vehicle_latest_position : list LatestRow;
  telemetry_snapshots : list SnapshotRow; device_quarantine : list QuarantineEntry;
  geofences : list Geo.Geofence; vehicle_geofences : list VehicleGeofenceRow;
  engine_state : list Geo.EngineState; geofence_events : list Geo.GeofenceEvent;
  trip_detentions : list Geo.Detention; company_config : list ConfigRow }.
Definition no_ops : Ops := mkOps [] [] [] [] [] [] [] [] [] [] [] [].

Record DB := mkDB {
  trips : list TripRow.SQLTripModel; bookings : list BookingRow.SQLBookingModel;
  drivers : list DriverRow.Driver; vehicles : list VehicleRow.Vehicle;
  customers : list CustomerRow; routes : list RouteRow; invoices : list InvoiceRow.Invoice;
  line_items : list Invoice.LineItem; payments : list PaymentRow.Payment;
  outbox_events : list OutboxRow; audit_logs : list AuditRow;
  compliance_exemptions : list ExemptionRow; dtc_events : list DtcRow;
  company_settings : option CompanySettings; ops : Ops }.

Definition set_trips (x : list TripRow.SQLTripModel) (d : DB) : DB :=
  mkDB x (bookings d) (drivers d) (vehicles d) (customers d) (routes d) (invoices d)
    (line_items d) (payments d) (outbox_events d) (audit_logs d) (compliance_exemptions d)
    (dtc_events d) (company_settings d) (ops d).
Definition set_bookings (x : list BookingRow.SQLBookingModel) (d : DB) : DB :=
  mkDB (trips d) x (drivers d) (vehicles d) (customers d) (routes d) (invoices d)
    (line_items d) (payments d) (outbox_events d) (audit_logs d) (compliance_exemptions d)
    (dtc_events d) (company_settings d) (ops d).
Definition set_drivers (x : list DriverRow.Driver) (d : DB) : DB :=
  mkDB (trips d) (bookings d) x (vehicles d) (customers d) (routes d) (invoices d)
    (line_items d) (payments d) (outbox_events d) (audit_logs d) (compliance_exemptions d)
    (dtc_events d) (company_settings d) (ops d).
Definition set_vehicles (x : list VehicleRow.Vehicle) (d : DB) : DB :=
  mkDB (trips d) (bookings d) (drivers d) x (customers d) (routes d) (invoices d)
    (line_items d) (payments d) (outbox_events d) (audit_logs d) (compliance_exemptions d)
    (dtc_events d) (company_settings d) (ops d).
Definition set_invoices (x : list InvoiceRow.Invoice) (d : DB) : DB :=
  mkDB (trips d) (bookings d) (drivers d) (vehicles d) (customers d) (routes d) x
    (line_items d) (payments d) (outbox_events d) (audit_logs d) (compliance_exemptions d)
    (dtc_events d) (company_settings d) (ops d).
Definition set_line_items (x : list Invoice.LineItem) (d : DB) : DB :=
  mkDB (trips d) (bookings d) (drivers d) (vehicles d) (customers d) (routes d) (invoices d)
    x (payments d) (outbox_events d) (audit_logs d) (compliance_exemptions d) (dtc_events d)
    (company_settings d) (ops d).
Definition set_payments (x : list PaymentRow.Payment) (d : DB) : DB :=
  mkDB (trips d) (bookings d) (drivers d) (vehicles d) (customers d) (routes d) (invoices d)
    (line_items d) x (outbox_events d) (audit_logs d) (compliance_exemptions d)
    (dtc_events d) (company_settings d) (ops d).
Definition set_outbox_events (x : list OutboxRow) (d : DB) : DB :=
  mkDB (trips d) (bookings d) (drivers d) (vehicles d) (customers d) (routes d) (invoices d)
    (line_items d) (payments d) x (audit_logs d) (compliance_exemptions d) (dtc_events d)
    (company_settings d) (ops d).
Definition set_audit_logs (x : list AuditRow) (d : DB) : DB :=
  mkDB (trips d) (bookings d) (drivers d) (vehicles d) (customers d) (routes d) (invoices d)
    (line_items d) (payments d) (outbox_events d) x (compliance_exemptions d) (dtc_events d)
    (company_settings d) (ops d).

Definition set_ops (o : Ops) (d : DB) : DB :=
  mkDB (trips d) (bookings d) (drivers d) (vehicles d) (customers d) (routes d) (invoices d)
    (line_items d) (payments d) (outbox_events d) (audit_logs d) (compliance_exemptions d)
    (dtc_events d) (company_settings d) o.
Definition set_telemetry_devices (x : list DeviceRow.Device) (d : DB) : DB :=
  set_ops (mkOps x (telemetry_raw_events (ops d)) (telemetry_positions (ops d))
    (vehicle_latest_position (ops d)) (telemetry_snapshots (ops d)) (device_quarantine (ops d))
    (geofences (ops d)) (vehicle_geofences (ops d)) (engine_state (ops d)) (geofence_events (ops
    d)) (trip_detentions (ops d)) (company_config (ops d))) d.
Definition set_telemetry_raw_events (x : list RawEventRow) (d : DB) : DB :=
  set_ops (mkOps (telemetry_devices (ops d)) x (telemetry_positions (ops d))
    (vehicle_latest_position (ops d)) (telemetry_snapshots (ops d)) (device_quarantine (ops d))
    (geofences (ops d)) (vehicle_geofences (ops d)) (engine_state (ops d)) (geofence_events (ops
    d)) (trip_detentions (ops d)) (company_config (ops d))) d.
Definition set_telemetry_positions (x : list PositionRow) (d : DB) : DB :=
  set_ops (mkOps (telemetry_devices (ops d)) (telemetry_raw_events (ops d)) x
    (vehicle_latest_position (ops d)) (telemetry_snapshots (ops d)) (device_quarantine (ops d))
    (geofences (ops d)) (vehicle_geofences (ops d)) (engine_state (ops d)) (geofence_events (ops
    d)) (trip_detentions (ops d)) (company_config (ops d))) d.
Definition set_vehicle_latest_position (x : list LatestRow) (d : DB) : DB :=
  set_ops (mkOps (telemetry_devices (ops d)) (telemetry_raw_events (ops d)) (telemetry_positions
    (ops d)) x (telemetry_snapshots (ops d)) (device_quarantine (ops d)) (geofences (ops d))
    (vehicle_geofences (ops d)) (engine_state (ops d)) (geofence_events (ops d))
    (trip_detentions (ops d)) (company_config (ops d))) d.
Definition set_telemetry_snapshots (x : list SnapshotRow) (d : DB) : DB :=
  set_ops (mkOps (telemetry_devices (ops d)) (telemetry_raw_events (ops d)) (telemetry_positions
    (ops d)) (vehicle_latest_position (ops d)) x (device_quarantine (ops d)) (geofences (ops d))
    (vehicle_geofences (ops d)) (engine_state (ops d)) (geofence_events (ops d))
    (trip_detentions (ops d)) (company_config (ops d))) d.
Definition set_device_quarantine (x : list QuarantineEntry) (d : DB) : DB :=
  set_ops (mkOps (telemetry_devices (ops d)) (telemetry_raw_events (ops d)) (telemetry_positions
    (ops d)) (vehicle_latest_position (ops d)) (telemetry_snapshots (ops d)) x (geofences (ops
    d)) (vehicle_geofences (ops d)) (engine_state (ops d)) (geofence_events (ops d))
    (trip_detentions (ops d)) (company_config (ops d))) d.
Definition set_geofences (x : list Geo.Geofence) (d : DB) : DB :=
  set_ops (mkOps (telemetry_devices (ops d)) (telemetry_raw_events (ops d)) (telemetry_positions
    (ops d)) (vehicle_latest_position (ops d)) (telemetry_snapshots (ops d)) (device_quarantine
    (ops d)) x (vehicle_geofences (ops d)) (engine_state (ops d)) (geofence_events (ops d))
    (trip_detentions (ops d)) (company_config (ops d))) d.
Definition set_engine_state (x : list Geo.EngineState) (d : DB) : DB :=
  set_ops (mkOps (telemetry_devices (ops d)) (telemetry_raw_events (ops d)) (telemetry_positions
    (ops d)) (vehicle_latest_position (ops d)) (telemetry_snapshots (ops d)) (device_quarantine
    (ops d)) (geofences (ops d)) (vehicle_geofences (ops d)) x (geofence_events (ops d))
    (trip_detentions (ops d)) (company_config (ops d))) d.
Definition set_geofence_events (x : list Geo.GeofenceEvent) (d : DB) : DB :=
  set_ops (mkOps (telemetry_devices (ops d)) (telemetry_raw_events (ops d)) (telemetry_positions
    (ops d)) (vehicle_latest_position (ops d)) (telemetry_snapshots (ops d)) (device_quarantine
    (ops d)) (geofences (ops d)) (vehicle_geofences (ops d)) (engine_state (ops d)) x
    (trip_detentions (ops d)) (company_config (ops d))) d.
Definition set_trip_detentions (x : list Geo.Detention) (d : DB) : DB :=
  set_ops (mkOps (telemetry_devices (ops d)) (telemetry_raw_events (ops d)) (telemetry_positions
    (ops d)) (vehicle_latest_position (ops d)) (telemetry_snapshots (ops d)) (device_quarantine
    (ops d)) (geofences (ops d)) (vehicle_geofences (ops d)) (engine_state (ops d))
    (geofence_events (ops d)) x (company_config (ops d))) d.

(** ** Tables *)
Section Table.
Context {Row : Type}.
Implicit Types (p : Row → bool) (l : list Row).

(** [SELECT ... WHERE p LIMIT 1]: the first match. *)
Definition select_one p l : option Row := List.find p l.
(** [SELECT ... WHERE p]. *)
Definition select_many p l : list Row := List.filter p l.
(** [UPDATE ... SET f WHERE p]. *)
Definition update_where p (f : Row → Row) l : list Row :=
  map (λ r, if p r then f r else r) l.
(** [DELETE ... WHERE p]. *)
Definition delete_where p l : list Row := List.filter (λ r, negb (p r)) l.
Definition exists_row p l : bool := existsb p l.

Lemma select_one_Some p l r : select_one p l = Some r → r ∈ l ∧ p r = true.
Proof. intros [H1 H2]%find_some. by rewrite list_elem_of_In. Qed.

Lemma select_one_None p l r : select_one p l = None → r ∈ l → p r = false.
Proof. intros H Hr. eapply find_none; [exact H|by apply list_elem_of_In]. Qed.

Lemma select_one_app p l1 l2 :
  select_one p (l1 ++ l2) =
  match select_one p l1 with Some r => Some r | None => select_one p l2 end.
Proof. induction l1 as [|r l1 IH]; cbn; [done|]. by destruct (p r). Qed.

(** What a query sees after an update whose assignment keeps it selected. *)
Lemma select_one_update p q f l :
  (∀ r, r ∈ l → p r = true → q (f r) = q r) →
  select_one q (update_where p f l) =
  match select_one q l with Some r => Some (if p r then f r else r) | None => None end.
Proof.
  unfold select_one, update_where. induction l as [|r l IH]; intros Hq; cbn; [done|].
  rewrite IH by (intros; apply Hq; [by right|done]).
  destruct (p r) eqn:Hp; [rewrite (Hq r) by first [assumption|constructor]|];
    destruct (q r); by rewrite ?Hp.
Qed.

(** A query that selects none of the deleted rows. *)
Lemma select_one_delete p q l :
  (∀ r, q r = true → p r = false) →
  select_one q (delete_where p l) = select_one q l.
Proof.
  intros Hq. unfold select_one, delete_where. induction l as [|r l IH]; cbn; [done|].
  specialize (Hq r). destruct (p r) eqn:Hp, (q r) eqn:Hqr; cbn; rewrite ?Hqr, ?IH; auto.
  by discriminate Hq.
Qed.

Lemma exists_row_spec p l : exists_row p l = true ↔ ∃ r, r ∈ l ∧ p r = true.
Proof.
  unfold exists_row. rewrite existsb_exists. by setoid_rewrite list_elem_of_In.
Qed.

Lemma exists_row_false p l : exists_row p l = false ↔ ∀ r, r ∈ l → p r = false.
Proof.
  rewrite <- not_true_iff_false, exists_row_spec. split.
  - intros H r Hr. destruct (p r) eqn:E; [|done]. destruct H. eauto.
  - intros H (r & Hr & Hp). rewrite H in Hp; done.
Qed.

Lemma select_one_exists p l : exists_row p l = bool_decide (is_Some (select_one p l)).
Proof.
  unfold exists_row, select_one. induction l as [|r l IH]; cbn; [done|].
  by destruct (p r).
Qed.

Lemma elem_of_update p f l r' :
  r' ∈ update_where p f l ↔ ∃ r, r ∈ l ∧ r' = if p r then f r else r.
Proof. unfold update_where. rewrite list_elem_of_In, in_map_iff.
  setoid_rewrite list_elem_of_In. naive_solver. Qed.

Lemma map_update {A} (g : Row → A) p f l :
  (∀ r, g (f r) = g r) → map g (update_where p f l) = map g l.
Proof.
  intros Hg. unfold update_where. rewrite map_map. apply map_ext. intros r.
  by destruct (p r).
Qed.

(** Rows of a table with a primary key are determined by it. *)
Lemma NoDup_map_inj {A} (g : Row → A) l r r' :
  NoDup (map g l) → r ∈ l → r' ∈ l → g r = g r' → r = r'.
Proof.
  induction l as [|x l IH]; intros Hnd Hr Hr' Hg; [by apply not_elem_of_nil in Hr|].
  cbn in Hnd. apply NoDup_cons in Hnd as [Hx Hnd].
  apply elem_of_cons in Hr as [->|Hr], Hr' as [->|Hr']; try done; [| |by apply IH].
  - destruct Hx. rewrite Hg. by apply list_elem_of_In, in_map, list_elem_of_In.
  - destruct Hx. rewrite <- Hg. by apply list_elem_of_In, in_map, list_elem_of_In.
Qed.

(** An insertion under a fresh key. *)
Lemma NoDup_map_snoc {A} (g : Row → A) l x :
  NoDup (map g l) → (∀ r, r ∈ l → g r ≠ g x) → NoDup (map g (l ++ [x])).
Proof.
  intros Hnd Hx. induction l as [|r l IH]; cbn in *; [repeat constructor; apply not_elem_of_nil|].
  apply NoDup_cons in Hnd as [Hr Hnd]. apply NoDup_cons. split.
  - rewrite map_app. cbn. intros H. apply elem_of_app in H as [H|H]; [done|].
    apply list_elem_of_singleton in H. apply (Hx r); [constructor|done].
  - apply IH; [done|]. intros r' Hr'. apply Hx. by constructor.
Qed.

Lemma exists_row_select p l : exists_row p l = false ↔ select_one p l = None.
Proof.
  rewrite select_one_exists, bool_decide_eq_false.
  destruct (select_one p l); split; try done. intros H. by destruct H.
Qed.
End Table.

(** ** The environment of a request

    What the modelled code reads from outside the repository: the clock, the
    UUID generator, SQLite's [datetime('now')], the session, and the outcome
    of every statement the engine can refuse for reasons of its own (I/O,
    locks, CHECK and FOREIGN KEY constraints).  Successive uses are numbered. *)
Class Env := {
  clock_now : nat → Time;
  gen_uuid : nat → string;
  db_now : nat → Time;
  stmt_fault : nat → option error;
  ctx_user : option string;
  ctx_ip : option string;
  (** [sql.ErrNoRows] is produced by [Row.Scan] on an empty result alone. *)
  stmt_fault_rows : ∀ n e, stmt_fault n = Some e → is_no_rows e = false }.

(** A row written through the connection pool, outside the transaction that
    is open: it survives a rollback. *)
Inductive PoolRow :=
| ComplianceCheck (entityType entityID checkType status details : string)
| DispatchOverride (tenant tripID vehicleID driverID blockedBy reason overriddenBy : string).

Record World := mkWorld {
  w_db : DB; w_pool : list PoolRow; w_clock : nat; w_ids : nat; w_stmts : nat }.

Definition set_w_db (d : DB) (w : World) : World :=
  mkWorld d (w_pool w) (w_clock w) (w_ids w) (w_stmts w).
Definition add_w_pool (p : PoolRow) (w : World) : World :=
  mkWorld (w_db w) (w_pool w ++ [p]) (w_clock w) (w_ids w) (w_stmts w).
Definition tick_clock (w : World) : World :=
  mkWorld (w_db w) (w_pool w) (S (w_clock w)) (w_ids w) (w_stmts w).
Definition tick_ids (w : World) : World :=
  mkWorld (w_db w) (w_pool w) (w_clock w) (S (w_ids w)) (w_stmts w).
Definition tick_stmts (w : World) : World :=
  mkWorld (w_db w) (w_pool w) (w_clock w) (w_ids w) (S (w_stmts w)).

Abbreviation M := (SM World).

Section Statements.
Context {env : Env}.

(** [clock.Now()], [time.Now()]. *)
Definition Now : M Time := λ w, (Ok (clock_now (w_clock w)), tick_clock w).
(** [idGen.GenerateUUID()], [uuid.NewString()]. *)
Definition GenerateUUID : M string := λ w, (Ok (gen_uuid (w_ids w)), tick_ids w).
(** [idGen.GenerateDisplayID(prefix)]. *)
Definition GenerateDisplayID (prefix : string) : M string :=
  id ← GenerateUUID; mret (prefix +:+ "-" +:+ String.substring 0 8 id)%string.

(** One SQL statement: it fails without effect, or runs [q]. *)
Definition stmt {A} (q : Time → DB → result A * DB) : M A := λ w,
  match stmt_fault (w_stmts w) with
  | Some e => (Fail e, tick_stmts w)
  | None =>
      match q (db_now (w_stmts w)) (w_db w) with
      | (Ok a, d) => (Ok a, set_w_db d (tick_stmts w))
      | (Fail e, _) => (Fail e, tick_stmts w)
      end
  end.

(** A query whose [Row.Scan] needs a row. *)
Definition query_row {A} (q : Time → DB → option A) : M A :=
  stmt (λ now d, (match q now d with Some a => Ok a | None => Fail ErrNoRows end, d)).
(** A query for a list of rows. *)
Definition query {A} (q : Time → DB → A) : M A := stmt (λ now d, (Ok (q now d), d)).
Definition exec {A} (q : Time → DB → result A * DB) : M A := stmt q.

(** [dbGetter.DB().ExecContext(...)] with the error dropped: the pool. *)
Definition pool_exec (p : PoolRow) : M unit := λ w,
  match stmt_fault (w_stmts w) with
  | Some _ => (Ok tt, tick_stmts w)
  | None => (Ok tt, add_w_pool p (tick_stmts w))
  end.

(** [txManager.WithTransaction]: begin, run, then commit or roll back.  A
    failing commit leaves nothing behind. *)
Definition WithTransaction {A} (fn : M A) : M A := λ w,
  match stmt_fault (w_stmts w) with
  | Some e => (Fail e, tick_stmts w)
  | None =>
      match fn (tick_stmts w) with
      | (Fail e, w') => (Fail e, set_w_db (w_db w) w')
      | (Ok a, w') =>
          match stmt_fault (w_stmts w') with
          | Some e => (Fail e, set_w_db (w_db w) (tick_stmts w'))
          | None => (Ok a, tick_stmts w')
          end
      end
  end.

(** [sqlUnitOfWork.Execute]: every repository of the transaction runs on
    the transaction's connection. *)
Definition UoWExecute {A} (fn : M A) : M A := WithTransaction fn.
End Statements.

(** ** Laws of statements and transactions *)
Section Laws.
Context {env : Env}.

Lemma stmt_inv {A} (q : Time → DB → result A * DB) w r w' :
  stmt q w = (r, w') →
  w_pool w' = w_pool w ∧ w_clock w' = w_clock w ∧ w_ids w' = w_ids w ∧
  match r with
  | Ok a => q (db_now (w_stmts w)) (w_db w) = (Ok a, w_db w')
  | Fail e => w_db w' = w_db w ∧
      (stmt_fault (w_stmts w) = Some e ∨ fst (q (db_now (w_stmts w)) (w_db w)) = Fail e)
  end.
Proof.
  unfold stmt. destruct (stmt_fault _) as [e|]; [intros [= <- <-]; cbn; auto 10|].
  destruct (q _ _) as [[a|e] d] eqn:E; intros [= <- <-]; cbn; auto 10.
Qed.

Lemma query_row_inv {A} (q : Time → DB → option A) w r w' :
  query_row q w = (r, w') →
  w_db w' = w_db w ∧ w_pool w' = w_pool w ∧
  match r with
  | Ok a => q (db_now (w_stmts w)) (w_db w) = Some a
  | Fail e => is_no_rows e = true → q (db_now (w_stmts w)) (w_db w) = None
  end.
Proof.
  intros H. apply stmt_inv in H as (Hp & _ & _ & H). destruct r as [a|e].
  - destruct (q _ _) eqn:E; [injection H as H1 H2; by subst|discriminate H].
  - destruct H as [H1 [H2|H2]]; split_and!; try done; intros Hn.
    + by rewrite (stmt_fault_rows _ _ H2) in Hn.
    + by destruct (q _ _).
Qed.

Lemma query_inv {A} (q : Time → DB → A) w r w' :
  query q w = (r, w') →
  w_db w' = w_db w ∧ w_pool w' = w_pool w ∧
  match r with
  | Ok a => a = q (db_now (w_stmts w)) (w_db w)
  | Fail e => is_no_rows e = false
  end.
Proof.
  intros H. apply stmt_inv in H as (Hp & _ & _ & H). destruct r as [a|e].
  - injection H as H1 H2. by subst.
  - destruct H as [H1 [H2|H2]]; split_and!; try done. by apply (stmt_fault_rows _ _ H2).
Qed.

(** A relation on databases, carried to worlds. *)
Definition on_db (P : DB → DB → Prop) (w w' : World) : Prop := P (w_db w) (w_db w').
#[export] Instance on_db_preorder P `{!PreOrder P} : PreOrder (on_db P).
Proof.
  split; [intros w; unfold on_db; reflexivity|].
  intros w1 w2 w3. unfold on_db. apply transitivity.
Qed.

Section OnDb.
Context (P : DB → DB → Prop) `{!PreOrder P}.

Lemma on_db_of_eq {A} (m : M A) :
  preserves (on_db eq) m → preserves (on_db P) m.
Proof. apply preserves_weaken. unfold on_db. intros w w' ->. reflexivity. Qed.

Lemma stmt_on_db {A} (q : Time → DB → result A * DB) :
  (∀ now d, P d (snd (q now d))) → preserves (on_db P) (stmt q).
Proof.
  intros Hq w. unfold on_db, stmt. destruct (stmt_fault _); cbn; [reflexivity|].
  specialize (Hq (db_now (w_stmts w)) (w_db w)).
  destruct (q _ _) as [[a|e] d]; cbn in *; [done|reflexivity].
Qed.
End OnDb.

(** "An invariant, if it held before, holds after". *)
Definition keeps (I : DB → Prop) (d d' : DB) : Prop := I d → I d'.
#[export] Instance keeps_preorder I : PreOrder (keeps I).
Proof. split; unfold keeps; [by intros d|]. intros d1 d2 d3. auto. Qed.

(** A failing transaction leaves the database as it was. *)
Lemma UoWExecute_on_db (P : DB → DB → Prop) `{!PreOrder P} {A} (fn : M A) :
  preserves (on_db P) fn → preserves (on_db P) (UoWExecute fn).
Proof.
  intros Hfn w. unfold on_db, UoWExecute, WithTransaction. destruct (stmt_fault _); [cbn; reflexivity|].
  specialize (Hfn (tick_stmts w)). unfold on_db in Hfn.
  destruct (fn _) as [[a|e] w1]; cbn in *; [|reflexivity].
  destruct (stmt_fault _); cbn; [reflexivity|exact Hfn].
Qed.

Lemma Now_same : preserves (on_db eq) Now.
Proof. by intros w. Qed.
Lemma GenerateUUID_same : preserves (on_db eq) GenerateUUID.
Proof. by intros w. Qed.
Lemma GenerateDisplayID_same p : preserves (on_db eq) (GenerateDisplayID p).
Proof. by intros w. Qed.
Lemma query_row_same {A} (q : Time → DB → option A) : preserves (on_db eq) (query_row q).
Proof.
  intros w. destruct (query_row q w) as [r w'] eqn:E. apply query_row_inv in E as [H _].
  by symmetry.
Qed.
Lemma query_same {A} (q : Time → DB → A) : preserves (on_db eq) (query q).
Proof.
  intros w. destruct (query q w) as [r w'] eqn:E. apply query_inv in E as [H _]. by symmetry.
Qed.
Lemma pool_exec_same p : preserves (on_db eq) (pool_exec p).
Proof. intros w. unfold pool_exec. by destruct (stmt_fault _). Qed.

(** What a transaction does. *)
Lemma UoWExecute_spec {A} (fn : M A) w r w' :
  UoWExecute fn w = (r, w') →
  match r with
  | Fail _ => w_db w' = w_db w
  | Ok a => ∃ w1, fn (tick_stmts w) = (Ok a, w1) ∧ w_db w' = w_db w1 ∧ w_pool w' = w_pool w1
  end.
Proof.
  unfold UoWExecute, WithTransaction. destruct (stmt_fault _); [by intros [= <- <-]|].
  destruct (fn _) as [[a|e] w1]; [|by intros [= <- <-]].
  destruct (stmt_fault _); intros [= <- <-]; [done|]. by exists w1.
Qed.

(** a transaction is atomic under every fault: if it fails, whichever
    statement, business rule or the commit itself was the reason, the
    database is the one it started from; if it succeeds, the database is
    the one its body reached. *)
Theorem transaction_atomic {A} (fn : M A) w r w' :
  UoWExecute fn w = (r, w') →
  match r with
  | Fail _ => w_db w' = w_db w
  | Ok a => ∃ w1, fn (tick_stmts w) = (Ok a, w1) ∧ w_db w' = w_db w1 ∧ w_pool w' = w_pool w1
  end.
Proof. apply UoWExecute_spec. Qed.

(** A committed transaction, for the use cases' proofs. *)
Lemma UoWExecute_ok {A} (fn : M A) w a w' :
  UoWExecute fn w = (Ok a, w') →
  ∃ w1, fn (tick_stmts w) = (Ok a, w1) ∧ w_db w' = w_db w1 ∧ w_pool w' = w_pool w1.
Proof.
  unfold UoWExecute, WithTransaction. destruct (stmt_fault _); [done|].
  destruct (fn _) as [[a'|e] w1]; [|done].
  destruct (stmt_fault _); intros [= <- <-]. by exists w1.
Qed.

Lemma UoWExecute_run {A} (fn : M A) w a w' :
  UoWExecute fn w = (Ok a, w') → ∃ w1, fn (tick_stmts w) = (Ok a, w1) ∧ w' = tick_stmts w1.
Proof.
  unfold UoWExecute, WithTransaction. destruct (stmt_fault _); [done|].
  destruct (fn _) as [[a'|e] w1]; [|done].
  destruct (stmt_fault _); intros [= <- <-]. by exists w1.
Qed.

(** *** What is read while something runs

    Readings of the clock and statements are numbered; what runs makes those
    between the numbers before it and after it. *)
Definition passes (w w' : World) : Prop := (w_clock w <= w_clock w')%nat ∧ (w_stmts w <= w_stmts w')%nat.
#[export] Instance passes_preorder : PreOrder passes.
Proof. split; [by intros w|]. intros w1 w2 w3 [] []. split; lia. Qed.
Definition clock_read (w w' : World) (t : Time) : Prop :=
  ∃ n, (w_clock w <= n < w_clock w')%nat ∧ t = clock_now n.
Definition in_statement (w w' : World) (P : nat → Prop) : Prop :=
  ∃ n, (w_stmts w <= n < w_stmts w')%nat ∧ P n.
Lemma clock_read_within w1 w2 w3 w4 t : passes w1 w2 → passes w3 w4 → clock_read w2 w3 t → clock_read w1 w4 t.
Proof. intros [H1 _] [H2 _] (n & Hn & ->). exists n. split; [lia|done]. Qed.
Lemma in_statement_within w1 w2 w3 w4 P : passes w1 w2 → passes w3 w4 → in_statement w2 w3 P → in_statement w1 w4 P.
Proof. intros [_ H1] [_ H2] (n & Hn & Hp). exists n. split; [lia|done]. Qed.
Lemma Now_read w t w' : Now w = (Ok t, w') → clock_read w w' t ∧ passes w w' ∧ w_db w' = w_db w.
Proof. intros [= <- <-]. split; [exists (w_clock w); cbn; split; [lia|done]|]. split; [split; cbn; lia|done]. Qed.
Lemma stmt_passes {A} (q : Time → DB → result A * DB) : preserves passes (stmt q).
Proof. intros w. unfold stmt. destruct (stmt_fault _); [split; cbn; lia|]. destruct (q _ _) as [[a|e] d]; split; cbn; lia. Qed.
Lemma Now_passes : preserves passes Now.
Proof. intros w. split; cbn; lia. Qed.
Lemma GenerateUUID_passes : preserves passes GenerateUUID.
Proof. intros w. split; cbn; lia. Qed.
Lemma pool_exec_passes p : preserves passes (pool_exec p).
Proof. intros w. unfold pool_exec. destruct (stmt_fault _); split; cbn; lia. Qed.
(** A query is one statement: it read what it says, or that statement failed. *)
Lemma query_row_read {A} (q : Time → DB → option A) w r w' :
  query_row q w = (r, w') → w_db w' = w_db w ∧ passes w w' ∧
  in_statement w w' (λ n,
    match r with
    | Ok a => q (db_now n) (w_db w) = Some a
    | Fail e => stmt_fault n = Some e ∨ q (db_now n) (w_db w) = None
    end).
Proof.
  intros H. pose proof (stmt_passes (λ now d, (match q now d with Some a => Ok a | None => Fail ErrNoRows end, d)) w) as Hp.
  fold (query_row q) in Hp. rewrite H in Hp. pose proof (query_row_inv _ _ _ _ H) as (Hd & _ & _). split; [done|]. split; [done|].
  exists (w_stmts w). unfold query_row, stmt in H. destruct (stmt_fault _) as [e|] eqn:Ef.
  - injection H as <- <-. cbn. split; [lia|]. by left.
  - destruct (q _ _) as [a|] eqn:E; injection H as <- <-; cbn; (split; [lia|]); [done|by right].
Qed.

(** An invariant of the database is kept by a transaction as soon as its
    body keeps it when it succeeds. *)
Lemma UoWExecute_invariant {A} (I : DB → Prop) (fn : M A) w :
  I (w_db w) →
  (∀ w0 a w1, w_db w0 = w_db w → fn w0 = (Ok a, w1) → I (w_db w1)) →
  I (w_db (snd (UoWExecute fn w))).
Proof.
  intros Hi Hfn. unfold UoWExecute, WithTransaction. destruct (stmt_fault _); [done|].
  destruct (fn _) as [[a|e] w1] eqn:E; [|done].
  destruct (stmt_fault _); cbn; [done|]. by eapply Hfn; [|exact E].
Qed.
End Laws.
#[export] Existing Instances on_db_preorder keeps_preorder.
#[export] Hint Resolve Now_same GenerateUUID_same GenerateDisplayID_same
  query_row_same query_same pool_exec_same : go.

(** The leaves: environment readings and queries leave the database as it
    is; a component's own lemma is found in [go]. *)
Ltac db_leaf u :=
  first
    [ apply on_db_of_eq; [exact _|];
      first [ apply Now_same | apply GenerateUUID_same | apply GenerateDisplayID_same
            | apply query_row_same | apply query_same | apply pool_exec_same ]
    | solve [auto with go]
    | apply UoWExecute_on_db; [exact _|]; preserve_with db_leaf ].
Ltac preserve := preserve_with db_leaf.

(** ** Faultless environments, for concrete runs *)
Definition digits (n : nat) : string := pretty (N.of_nat n).

(** The [n]-th UUID of a test run. *)
Definition test_uuid (n : nat) : string := ("id-" +:+ digits n)%string.

Definition test_env (t0 : Time) (faults : nat → option error)
    (Hf : ∀ n e, faults n = Some e → is_no_rows e = false) : Env :=
  {| clock_now n := t0 + Z.of_nat n; gen_uuid := test_uuid;
     db_now n := t0 + Z.of_nat n; stmt_fault := faults;
     ctx_user := Some "u1"%string; ctx_ip := None; stmt_fault_rows := Hf |}.

Definition no_faults : nat → option error := λ _, None.
Lemma no_faults_ok n e : no_faults n = Some e → is_no_rows e = false.
Proof. discriminate. Qed.

Definition quiet_env (t0 : Time) : Env := test_env t0 no_faults no_faults_ok.

Definition empty_db : DB := mkDB [] [] [] [] [] [] [] [] [] [] [] [] [] None no_ops.
Definition world (d : DB) : World := mkWorld d [] 0 0 0.

(** A small company, for concrete runs. *)
Definition jan1 : Time := 738886 * day.
Definition demo_driver : DriverRow.Driver :=
  DriverRow.mkDriverRow "d1" "DRV-1" "Asha" "Rao" "9800000000" None None "KA-01" (jan1 + 400 * day)
    5 "available" None None None "acme" jan1 jan1.
Definition demo_vehicle : VehicleRow.Vehicle :=
  VehicleRow.mkVehicleRow "v1" "KA01AB1234" "V-1" "truck" 10 "diesel" (jan1 + 400 * day)
    (jan1 + 400 * day) (jan1 + 400 * day) "available" None "acme" jan1 jan1 None None None None None.
Definition demo_trip_row : TripRow.SQLTripModel :=
  TripRow.mkTripRow "t1" "TR-1" (Some "b1"%string) None None "r1" (jan1 + 5 * day) None "draft" None
    "acme" 0 jan1 jan1 None None None None None.
Definition demo_booking : BookingRow.SQLBookingModel :=
  BookingRow.mkBookingRow "b1" "BK-1" "c1" "r1" (jan1 + 5 * day) "truck" 1 None (f64_of_Z 1000)
    None "confirmed" "acme" 0 jan1 jan1.
Definition demo_db : DB :=
  mkDB [demo_trip_row] [demo_booking] [demo_driver] [demo_vehicle] [mkCustomerRow "c1"]
    [mkRouteRow "r1" "Pune" "Delhi"] [] [] [] [] [] [] [] (Some (mkCompanySettings true (f64_of_Z 18)))
    no_ops.
Definition demo_env : Env := quiet_env (jan1 + day).

(** The second statement of the request fails. *)
Definition demo_faults (n : nat) : option error :=
  if Nat.eqb n 2 then Some (Err "disk I/O error") else None.
Lemma demo_faults_ok n e : demo_faults n = Some e → is_no_rows e = false.
Proof. unfold demo_faults. case_match; [by intros [= <-]|done]. Qed.
Definition faulty_env : Env := test_env (jan1 + day) demo_faults demo_faults_ok.

Lemma transaction_atomic_witness :
  let env := faulty_env in
  let fn := (_ ← exec (λ _ d, (Ok tt, set_trips [] d));
             exec (λ _ d, (Ok tt, set_bookings [] d))) : M unit in
  let w' := snd (UoWExecute fn (world demo_db)) in
  UoWExecute fn (world demo_db) = (Fail (Err "disk I/O error"), w') ∧ w_db w' = demo_db.
Proof.
  intros env fn w'. split; [reflexivity|].
  exact (transaction_atomic fn (world demo_db) (Fail (Err "disk I/O error")) w' eq_refl).
Defined.
