(* ===== verification/Outbox.v ===== *)
(** * The transactional outbox and its relay

    [internal/shared/outbox/outbox.go]: events are written to
    [outbox_events] in the transaction that saves their aggregate.
    [internal/shared/outbox/relay.go]: a poller publishes the pending rows to
    the bus, with bounded retries kept in memory. *)
From stdpp Require Import base decidable list strings option gmap.
From Stdlib Require Import ZArith Lia String.
From S2P Require Import Prelude GoFloat Shared Events Database.
Open Scope Z_scope.

(** ** The writer *)
Section Writer.
Context {env : Env}.

(** [q.CreateOutboxEvent] ([outbox.sql]); [id] is the primary key. *)
Definition CreateOutboxEvent (row : OutboxRow) : M unit :=
  exec (λ _ d,
    if exists_row (λ r, String.eqb (OutboxID r) (OutboxID row)) (outbox_events d)
    then (Fail (Err "UNIQUE constraint failed: outbox_events.id"), d)
    else (Ok tt, set_outbox_events (outbox_events d ++ [row]) d)).

(** [json.Marshal(ev)]; the text of its error is not modelled. *)
Definition json_marshal (ev : Event) : result Event :=
  if json_ok ev then Ok ev else Fail (Err "json: unsupported value").

Definition save_event (aggregateID aggregateType : string) (ev : Event) : M unit :=
  payload ← SM_lift (json_marshal ev);
  id ← GenerateUUID;
  now ← Now;
  CreateOutboxEvent
    (mkOutboxRow id aggregateID aggregateType (getEventTypeName ev) payload now None).

(** The early return on an empty slice is the empty iteration. *)
Definition SaveEvents (aggregateID aggregateType : string) (events : list Event) : M unit :=
  SM_iter (save_event aggregateID aggregateType) events.

Definition outbox_row_of (aid aty : string) (ev : Event) (r : OutboxRow) : Prop :=
  AggregateID r = aid ∧ AggregateType r = aty ∧ EventType r = getEventTypeName ev ∧
  Payload r = ev ∧ PublishedAt r = None.

Lemma save_event_ok aid aty ev w w' :
  save_event aid aty ev w = (Ok tt, w') →
  ∃ r, outbox_row_of aid aty ev r ∧ w_pool w' = w_pool w ∧ json_ok ev = true ∧
       w_db w' = set_outbox_events (outbox_events (w_db w) ++ [r]) (w_db w).
Proof.
  unfold save_event, json_marshal. destruct (json_ok ev) eqn:Hj; [|discriminate 1].
  intros H. apply stmt_inv in H as (Hp & _ & _ & H). cbn in H.
  destruct (exists_row _ _); [discriminate H|]. injection H as H.
  eexists. split_and!; [|exact Hp|done|by symmetry; exact H]. by repeat split.
Qed.

(** The events of a saved aggregate are appended in order, each with its
    name and payload, all pending; nothing else changes. *)
Lemma SaveEvents_ok aid aty evs w w' :
  SaveEvents aid aty evs w = (Ok tt, w') →
  ∃ rows, Forall2 (outbox_row_of aid aty) evs rows ∧ w_pool w' = w_pool w ∧
          w_db w' = set_outbox_events (outbox_events (w_db w) ++ rows) (w_db w).
Proof.
  unfold SaveEvents. revert w. induction evs as [|ev evs IH]; intros w H; cbn in H.
  - injection H as H. subst w'. exists []. split_and!; [constructor|done|].
    rewrite app_nil_r. by destruct (w_db w).
  - apply bind_ok_inv in H as ([] & w1 & H1 & H).
    apply save_event_ok in H1 as (r & Hr & Hp1 & _ & Hd1).
    apply IH in H as (rows & Hrows & Hp2 & Hd2). exists (r :: rows). split_and!.
    + by constructor.
    + congruence.
    + rewrite Hd2, Hd1. cbn. rewrite <- app_assoc. by destruct (w_db w).
Qed.

(** Whatever happens, the writer touches its own table alone. *)
Definition only_outbox (d d' : DB) : Prop := ∃ rows, d' = set_outbox_events rows d.
#[export] Instance only_outbox_preorder : PreOrder only_outbox.
Proof.
  split.
  - intros d. exists (outbox_events d). by destruct d.
  - intros d1 d2 d3 [r1 ->] [r2 ->]. by exists r2.
Qed.

Lemma SaveEvents_only aid aty evs : preserves (on_db only_outbox) (SaveEvents aid aty evs).
Proof.
  unfold SaveEvents, save_event. preserve. apply stmt_on_db; [exact _|].
  intros now d. cbn. case_match; [reflexivity|]. by eexists.
Qed.
End Writer.

(** ** The relay *)
Module Relay.

Definition second : Z := 10 ^ 9.
Definition DefaultPollInterval : Z := 5 * second.
Definition maxAttempts : nat := 5.

Section Relay.
Context {env : Env} {S : Type}.

(** [bus == nil] is [None]; [logger] has no state. *)
Record Relay := mkRelay {
  bus : option (InMemoryBus Event S); interval : Z;
  attempts : gmap string nat; nextAttempt : gmap string Time }.

Definition NewRelay (b : option (InMemoryBus Event S)) : Relay :=
  mkRelay b DefaultPollInterval ∅ ∅.

(** The relay, the world it polls and the state of the bus's handlers. *)
Record RelayState := mkState { relay : Relay; rworld : World; bus_state : S }.
Abbreviation RM := (SM RelayState).

Definition on_world {A} (m : M A) : RM A := λ s,
  match m (rworld s) with (r, w) => (r, mkState (relay s) w (bus_state s)) end.
Definition set_relay (r : Relay) (s : RelayState) : RelayState :=
  mkState r (rworld s) (bus_state s).

Definition shouldSkip (id : string) : RM bool := λ s,
  match nextAttempt (relay s) !! id with
  | Some t => on_world (now ← Now; mret (Before now t)) s
  | None => (Ok false, s)
  end.

(** [1<<r.attempts[id]] polls later, unless it was the last attempt. *)
Definition markFailed (id : string) : RM unit := λ s,
  let r := relay s in
  let n := Datatypes.S (default 0%nat (attempts r !! id)) in
  if (maxAttempts <=? n)%nat
  then (Ok tt, set_relay (mkRelay (bus r) (interval r) (delete id (attempts r))
                            (delete id (nextAttempt r))) s)
  else
    (now ← on_world Now;
     SM_modify (set_relay (mkRelay (bus r) (interval r) (<[id := n]> (attempts r))
       (<[id := now + interval r * 2 ^ Z.of_nat n]> (nextAttempt r))))) s.

Definition markPublished (id : string) : RM unit :=
  SM_modify (λ s, let r := relay s in
    set_relay (mkRelay (bus r) (interval r) (delete id (attempts r))
                 (delete id (nextAttempt r))) s).

Definition is_pending (r : OutboxRow) : bool := bool_decide (PublishedAt r = None).
Definition pending (w : World) : list OutboxRow :=
  select_many is_pending (outbox_events (w_db w)).

Definition QueryPending : M (list OutboxRow) :=
  query (λ _ d, select_many is_pending (outbox_events d)).

Definition set_published (now : Time) (r : OutboxRow) : OutboxRow :=
  mkOutboxRow (OutboxID r) (AggregateID r) (AggregateType r) (EventType r) (Payload r)
    (OutboxCreatedAt r) (Some now).

(** [UPDATE outbox_events SET published_at = ? WHERE id = ? AND
    published_at IS NULL]; zero affected rows are only logged. *)
Definition UpdatePublished (now : Time) (id : string) : M unit :=
  exec (λ _ d, (Ok tt, set_outbox_events
    (update_where (λ r, String.eqb (OutboxID r) id && is_pending r) (set_published now)
       (outbox_events d)) d)).

Definition deliver (b : option (InMemoryBus Event S)) (s : S) (e : OutboxRow) : S :=
  match b with Some b => Publish b (EventType e) (Payload e) s | None => s end.

(** The stored payload is JSON, so decoding it succeeds. *)
Definition publish (e : OutboxRow) : RM unit :=
  SM_modify (λ s, mkState (relay s) (rworld s) (deliver (bus (relay s)) (bus_state s) e)) ≫= λ _,
  on_world (now ← Now; UpdatePublished now (OutboxID e)).

Definition dispatch_one (e : OutboxRow) : RM unit :=
  skip ← shouldSkip (OutboxID e);
  if (skip : bool) then mret tt
  else
    r ← SM_try (publish e);
    match r with
    | Fail _ => markFailed (OutboxID e)
    | Ok _ => markPublished (OutboxID e)
    end.

(** One poll.  A failing query ends it. *)
Definition dispatch : RM unit :=
  SM_ignore (es ← on_world QueryPending; SM_iter dispatch_one es).

(** ** What a poll does *)

(** One pending event: skipped, or handed to the bus and then possibly
    marked in the table. *)
Definition mark (now : Time) (id : string) (d : DB) : DB :=
  set_outbox_events
    (update_where (λ r, String.eqb (OutboxID r) id && is_pending r) (set_published now)
       (outbox_events d)) d.

Inductive one_effect (e : OutboxRow) (s s' : RelayState) : Prop :=
| eff_skip : bus_state s' = bus_state s → w_db (rworld s') = w_db (rworld s) → one_effect e s s'
| eff_deliver :
    bus_state s' = deliver (bus (relay s)) (bus_state s) e →
    w_db (rworld s') = w_db (rworld s) ∨
      (∃ now, w_db (rworld s') = mark now (OutboxID e) (w_db (rworld s))) →
    one_effect e s s'.

Lemma markFailed_frame id s :
  ∃ s', markFailed id s = (Ok tt, s') ∧ bus_state s' = bus_state s ∧
        w_db (rworld s') = w_db (rworld s) ∧ bus (relay s') = bus (relay s).
Proof. unfold markFailed. destruct (_ <=? _)%nat; eexists; split; reflexivity || done. Qed.

Lemma publish_frame e s :
  ∃ r s', publish e s = (r, s') ∧ relay s' = relay s ∧
    bus_state s' = deliver (bus (relay s)) (bus_state s) e ∧
    match r with
    | Ok _ => ∃ now, w_db (rworld s') = mark now (OutboxID e) (w_db (rworld s))
    | Fail _ => w_db (rworld s') = w_db (rworld s)
    end.
Proof.
  unfold publish, on_world, UpdatePublished, exec, stmt.
  cbv [mbind SM_mbind SM_bind SM_modify]. cbn.
  destruct (stmt_fault (w_stmts (rworld s))); cbn; do 2 eexists; split_and!; try reflexivity.
  eexists; reflexivity.
Qed.

Lemma shouldSkip_frame id s :
  ∃ b s', shouldSkip id s = (Ok b, s') ∧ relay s' = relay s ∧ bus_state s' = bus_state s ∧
          w_db (rworld s') = w_db (rworld s) ∧
          (nextAttempt (relay s) !! id = None → b = false ∧ s' = s).
Proof.
  unfold shouldSkip. destruct (_ !! _) eqn:E; do 2 eexists; split_and!;
    try reflexivity; try done; by destruct s.
Qed.

Lemma dispatch_one_effect e s :
  ∃ s', dispatch_one e s = (Ok tt, s') ∧ bus (relay s') = bus (relay s) ∧ one_effect e s s'.
Proof.
  unfold dispatch_one. cbn.
  destruct (shouldSkip_frame (OutboxID e) s) as (b & s1 & H1 & Hr1 & Hb1 & Hd1 & _).
  cbv [mbind SM_mbind SM_bind SM_try]. rewrite H1. destruct b.
  { exists s1. split_and!; [done|by rewrite Hr1|by apply eff_skip]. }
  destruct (publish_frame e s1) as (r & s2 & -> & Hr2 & Hb2 & Hd2).
  assert (Hb : bus_state s2 = deliver (bus (relay s)) (bus_state s) e)
    by (by rewrite Hb2, Hb1, Hr1).
  destruct r as [u|err].
  - unfold markPublished. cbn. eexists. split_and!; [reflexivity|cbn; by rewrite Hr2, Hr1|].
    apply eff_deliver; cbn; [done|right]. destruct Hd2 as [now Hd2]. exists now.
    by rewrite Hd2, Hd1.
  - destruct (markFailed_frame (OutboxID e) s2) as (s3 & -> & Hb3 & Hd3 & Hr3).
    exists s3. split_and!; [done|by rewrite Hr3, Hr2, Hr1|].
    apply eff_deliver; [by rewrite Hb3|left; congruence].
Qed.

(** An event that is not backing off is delivered. *)
Lemma dispatch_one_due e s :
  nextAttempt (relay s) !! OutboxID e = None →
  bus_state (snd (dispatch_one e s)) = deliver (bus (relay s)) (bus_state s) e.
Proof.
  intros Hn. unfold dispatch_one. cbv [mbind SM_mbind SM_bind SM_try].
  destruct (shouldSkip_frame (OutboxID e) s) as (b & s1 & -> & _ & _ & _ & H).
  destruct (H Hn) as [-> ->].
  destruct (publish_frame e s) as (r & s2 & -> & Hr2 & Hb2 & _).
  destruct r as [u|err]; [done|].
  destruct (markFailed_frame (OutboxID e) s2) as (s3 & -> & Hb3 & _). cbn. by rewrite Hb3.
Qed.

Lemma iter_effect es s :
  ∃ s' L, SM_iter dispatch_one es s = (Ok tt, s') ∧ bus (relay s') = bus (relay s) ∧
    L `sublist_of` es ∧ bus_state s' = foldl (deliver (bus (relay s))) (bus_state s) L ∧
    ∀ r, r ∈ outbox_events (w_db (rworld s')) → PublishedAt r ≠ None →
         r ∈ outbox_events (w_db (rworld s)) ∨ ∃ e, e ∈ L ∧ OutboxID e = OutboxID r.
Proof.
  revert s. induction es as [|e es IH]; intros s; cbn.
  { exists s, []. split_and!; try done. by left. }
  destruct (dispatch_one_effect e s) as (s1 & H1 & Hr1 & He).
  cbv [SM_bind]. rewrite H1. destruct (IH s1) as (s' & L & H2 & Hr2 & HL & Hb & Hp).
  exists s'. destruct He as [Hb1 Hd1|Hb1 Hd1].
  - exists L. split_and!; [done|congruence|by constructor|congruence|].
    intros r Hr Hn. rewrite <- Hd1. by apply Hp.
  - exists (e :: L). split_and!; [done|congruence|by constructor| |].
    + cbn. by rewrite <- Hb1, <- Hr1.
    + intros r Hr Hn. destruct (Hp r Hr Hn) as [Hin|(e' & ? & ?)].
      2:{ right. exists e'. split; [by right|done]. }
      destruct Hd1 as [Hd1|[now Hd1]]; [left; by rewrite <- Hd1|].
      rewrite Hd1 in Hin. cbn in Hin. apply elem_of_update in Hin as (r0 & Hr0 & ->).
      destruct (String.eqb_spec (OutboxID r0) (OutboxID e)); cbn in *; [|by left].
      right. exists e. split; [left|]. by destruct (is_pending r0).
Qed.

(** C16: delivery is at least once under every fault: one poll hands a
    sublist of the pending events, in table order, to the bus, and any row
    that is marked published afterwards was marked before the poll or is
    one it delivered. *)
Theorem relay_at_least_once s s' r0 :
  dispatch s = (r0, s') →
  ∃ L, L `sublist_of` pending (rworld s) ∧
       bus_state s' = foldl (deliver (bus (relay s))) (bus_state s) L ∧
       ∀ r, r ∈ outbox_events (w_db (rworld s')) → PublishedAt r ≠ None →
            r ∈ outbox_events (w_db (rworld s)) ∨ ∃ e, e ∈ L ∧ OutboxID e = OutboxID r.
Proof.
  unfold dispatch, SM_ignore. intros [= _ <-].
  cbv [mbind SM_mbind SM_bind on_world].
  destruct (QueryPending (rworld s)) as [[es|e] w1] eqn:Hq; apply query_inv in Hq as (Hd & _ & Hq).
  - subst es. destruct (iter_effect (pending (rworld s)) (mkState (relay s) w1 (bus_state s)))
      as (s1 & L & H & _ & HL & Hb & Hp).
    change (select_many is_pending (outbox_events (w_db (rworld s)))) with (pending (rworld s)).
    rewrite H. cbn in *. exists L. rewrite <- Hd. split_and!; done.
  - exists []. split_and!; cbn; [apply sublist_nil_l|done|]. rewrite Hd. by left.
Qed.

(** ** A healthy poll *)
Lemma dispatch_one_quiet e s :
  (∀ n, stmt_fault n = None) → nextAttempt (relay s) = ∅ →
  ∃ s' now, dispatch_one e s = (Ok tt, s') ∧ bus (relay s') = bus (relay s) ∧
    nextAttempt (relay s') = ∅ ∧
    bus_state s' = deliver (bus (relay s)) (bus_state s) e ∧
    w_db (rworld s') = mark now (OutboxID e) (w_db (rworld s)).
Proof.
  intros Hf Hn. unfold dispatch_one, shouldSkip, publish, UpdatePublished, exec, stmt, on_world.
  cbv [mbind SM_mbind SM_bind SM_try SM_modify]. rewrite Hn, lookup_empty. cbn. rewrite Hf. cbn.
  do 2 eexists. split_and!; try reflexivity. cbn. by rewrite Hn, delete_empty.
Qed.

Lemma pending_mark now id l :
  select_many is_pending
    (update_where (λ r, String.eqb (OutboxID r) id && is_pending r) (set_published now) l)
  = List.filter (λ r, negb (String.eqb (OutboxID r) id)) (select_many is_pending l).
Proof.
  unfold select_many, update_where. induction l as [|r l IH]; cbn; [done|].
  destruct (is_pending r) eqn:Hp; cbn.
  - rewrite andb_true_r. destruct (String.eqb (OutboxID r) id); cbn; rewrite ?Hp; by rewrite IH.
  - rewrite andb_false_r, Hp. done.
Qed.

Lemma iter_quiet es s :
  (∀ n, stmt_fault n = None) → nextAttempt (relay s) = ∅ →
  ∃ s', SM_iter dispatch_one es s = (Ok tt, s') ∧
    bus_state s' = foldl (deliver (bus (relay s))) (bus_state s) es ∧
    ∀ r, r ∈ pending (rworld s') → r ∈ pending (rworld s) ∧ ∀ e, e ∈ es → OutboxID e ≠ OutboxID r.
Proof.
  intros Hf. revert s. induction es as [|e es IH]; intros s Hn; cbn.
  { exists s. split_and!; try done. intros r Hr. split; [done|]. by intros e ?%not_elem_of_nil. }
  destruct (dispatch_one_quiet e s Hf Hn) as (s1 & now & H1 & Hb1 & Hn1 & Hs1 & Hd1).
  cbv [SM_bind]. rewrite H1. destruct (IH s1 Hn1) as (s' & H2 & Hs2 & Hp).
  exists s'. split_and!; [done|by rewrite Hs2, Hs1, Hb1|].
  intros r Hr. apply Hp in Hr as [Hr Hes]. unfold pending in Hr at 1. rewrite Hd1 in Hr.
  unfold mark in Hr. cbn [outbox_events set_outbox_events] in Hr. rewrite pending_mark in Hr.
  apply list_elem_of_In, filter_In in Hr as [Hr%list_elem_of_In Hne].
  split; [done|]. intros e' He'. apply elem_of_cons in He' as [->|He']; [|by apply Hes].
  intros Heq. rewrite Heq, String.eqb_refl in Hne. done.
Qed.

(** C17: liveness: when no statement fails and no event is backing off, one
    poll delivers every pending event, each once and in table order, and
    leaves none pending. *)
Theorem relay_drains s :
  (∀ n, stmt_fault n = None) → nextAttempt (relay s) = ∅ →
  let s' := snd (dispatch s) in
  bus_state s' = foldl (deliver (bus (relay s))) (bus_state s) (pending (rworld s)) ∧
  pending (rworld s') = [].
Proof.
  intros Hf Hn. unfold dispatch, SM_ignore, QueryPending, query, stmt. cbn.
  cbv [mbind SM_mbind SM_bind on_world]. rewrite Hf. cbn.
  change (select_many is_pending (outbox_events (w_db (rworld s)))) with (pending (rworld s)).
  set (s1 := mkState _ _ _).
  destruct (iter_quiet (pending (rworld s)) s1 Hf Hn) as (s' & -> & Hb & Hp). cbn.
  split; [done|]. destruct (pending (rworld s')) as [|r l]; [done|].
  destruct (Hp r) as [Hr Hne]; [left|]. exfalso. by apply (Hne r Hr).
Qed.

(** the retry policy: a failed attempt below the fifth holds the event
    back for [interval * 2^n]; the fifth, logged as dead-lettered, forgets
    the event's history instead, so that it is due at once. *)
Theorem retry_policy id s :
  let n := Datatypes.S (default 0%nat (attempts (relay s) !! id)) in
  let s' := snd (markFailed id s) in
  if decide (n < 5)%nat then
    attempts (relay s') !! id = Some n ∧
    nextAttempt (relay s') !! id =
      Some (clock_now (w_clock (rworld s)) + interval (relay s) * 2 ^ Z.of_nat n)
  else attempts (relay s') !! id = None ∧ shouldSkip id s' = (Ok false, s').
Proof.
  cbn zeta. unfold markFailed, shouldSkip, maxAttempts.
  case_decide; destruct (Nat.leb_spec 5 (Datatypes.S (default 0%nat (attempts (relay s) !! id))));
    try lia; cbv [mbind SM_mbind SM_bind SM_modify on_world]; cbn -[Z.pow Z.mul Z.of_nat].
  - by rewrite !lookup_insert_eq.
  - rewrite !lookup_delete_eq. done.
Qed.

(** so a dead-lettered event is not dead: when the UPDATE of its fifth
    attempt fails too, the very next poll delivers it to the handlers
    again, at whatever time. *)
Theorem dead_letter_redelivered e s err :
  attempts (relay s) !! OutboxID e = Some 4%nat →
  nextAttempt (relay s) !! OutboxID e = None →
  stmt_fault (w_stmts (rworld s)) = Some err →
  let s1 := snd (dispatch_one e s) in
  attempts (relay s1) !! OutboxID e = None ∧
  bus_state (snd (dispatch_one e s1)) =
    deliver (bus (relay s)) (deliver (bus (relay s)) (bus_state s) e) e.
Proof.
  intros Ha Hn Hf. cbn zeta.
  assert (H1 : dispatch_one e s =
    (Ok tt, mkState (mkRelay (bus (relay s)) (interval (relay s))
                       (delete (OutboxID e) (attempts (relay s)))
                       (delete (OutboxID e) (nextAttempt (relay s))))
              (tick_stmts (tick_clock (rworld s)))
              (deliver (bus (relay s)) (bus_state s) e))).
  { unfold dispatch_one, shouldSkip, publish, UpdatePublished, exec, stmt, on_world.
    cbv [mbind SM_mbind SM_bind SM_try SM_modify]. rewrite Hn. cbn. rewrite Hf. cbn.
    unfold markFailed. cbn. by rewrite Ha. }
  rewrite H1. cbn [snd relay attempts]. rewrite lookup_delete_eq. split; [done|].
  rewrite dispatch_one_due by (cbn; apply lookup_delete_eq). done.
Qed.
End Relay.
Arguments Relay : clear implicits.
Arguments RelayState : clear implicits.
(** ** Concrete runs: the bus appends the event types it sees to a log. *)
Definition demo_bus : InMemoryBus Event (list string) :=
  snd (Subscribe NewInMemoryBus "TripStartedEvent" (λ ty _ log, (HandlerOk, (log ++ [ty])%list))).
Definition demo_event (id : string) : OutboxRow :=
  mkOutboxRow id "t1" "Trip" "TripStartedEvent" (TripStartedEvent "t1" "acme" 0) 0 None.
Definition demo_outbox (ids : list string) : World :=
  world (set_outbox_events (map demo_event ids) empty_db).
Definition demo_state (ids : list string) : RelayState (list string) :=
  mkState (NewRelay (Some demo_bus)) (demo_outbox ids) [].

(** Under faults: the UPDATE of the first event fails, both are delivered. *)
Lemma relay_at_least_once_witness :
  let env := faulty_env in
  let s := demo_state ["e1"; "e2"]%string in
  let s' := snd (dispatch s) in
  ∃ L, L `sublist_of` pending (rworld s) ∧
       bus_state s' = foldl (deliver (bus (relay s))) (bus_state s) L ∧
       ∀ r, r ∈ outbox_events (w_db (rworld s')) → PublishedAt r ≠ None →
            r ∈ outbox_events (w_db (rworld s)) ∨ ∃ e, e ∈ L ∧ OutboxID e = OutboxID r.
Proof.
  intros env s s'. exact (relay_at_least_once s s' (fst (dispatch s)) eq_refl).
Defined.

Lemma relay_drains_witness :
  let env := demo_env in
  let s := demo_state ["e1"; "e2"]%string in
  let s' := snd (dispatch s) in
  bus_state s' = ["TripStartedEvent"; "TripStartedEvent"]%string ∧ pending (rworld s') = [].
Proof. intros env s. exact (relay_drains s (λ _, eq_refl) eq_refl). Defined.

Definition fifth_attempt : RelayState (list string) :=
  mkState (mkRelay (Some demo_bus) DefaultPollInterval {["e1"%string := 4%nat]} ∅)
    (mkWorld (w_db (demo_outbox ["e1"%string])) [] 0 0 2) [].

Lemma dead_letter_redelivered_witness :
  let env := faulty_env in
  let e := demo_event "e1" in
  let s1 := snd (dispatch_one e fifth_attempt) in
  attempts (relay s1) !! "e1"%string = None ∧
  bus_state (snd (dispatch_one e s1)) = ["TripStartedEvent"; "TripStartedEvent"]%string.
Proof.
  intros env e.
  exact (dead_letter_redelivered e fifth_attempt (Err "disk I/O error") eq_refl eq_refl eq_refl).
Defined.
End Relay.
