(* ===== verification/Repository.v ===== *)
(** * Aggregate repositories and the transition use case

    What a repository promises to the application layer, as a type class
    ([internal/{trip,booking,invoice}/domain/repository.go]); the audit trail
    ([logAudit], [internal/repository/sqlite/audit_logs.go]); and the shape
    shared by every lifecycle use case: find, apply, save, audit, in one unit
    of work.  The theorems here are proved against the interface and hold of
    every instance. *)
From stdpp Require Import base decidable list strings option.
From Stdlib Require Import ZArith Lia String.
From S2P Require Import Prelude GoFloat Shared Events Database Outbox.
Open Scope Z_scope.

(** ** The audit trail *)
Section Audit.
Context {env : Env}.

Definition CreateAuditLog (row : AuditRow) : M unit :=
  exec (λ _ d,
    if exists_row (λ r, String.eqb (AuditID r) (AuditID row)) (audit_logs d)
    then (Fail (Err "UNIQUE constraint failed: audit_logs.id"), d)
    else (Ok tt, set_audit_logs (audit_logs d ++ [row]) d)).

(** [getUserID], [getUserIP]: an empty value counts as absent. *)
Definition non_empty (s : option string) : option string :=
  match s with Some x => if is_empty x then None else Some x | None => None end.
Definition getUserID : option string := non_empty ctx_user.
Definition getUserIP : option string := non_empty ctx_ip.

(** Errors are dropped: [_, _ = auditRepo.CreateAuditLog(...)]. *)
Definition log_audit (tableName action recordID : string) (oldValues newValues : option string)
    : M unit :=
  SM_ignore
    (id ← GenerateUUID;
     CreateAuditLog (mkAuditRow id getUserID action tableName recordID oldValues newValues
                       getUserIP)).

(** The audit trail writes its own table alone, and never fails. *)
Definition only_audit (d d' : DB) : Prop := ∃ rows, d' = set_audit_logs rows d.
#[export] Instance only_audit_preorder : PreOrder only_audit.
Proof.
  split.
  - intros d. exists (audit_logs d). by destruct d.
  - intros d1 d2 d3 [r1 ->] [r2 ->]. by exists r2.
Qed.

Lemma log_audit_only t a r o n : preserves (on_db only_audit) (log_audit t a r o n).
Proof.
  unfold log_audit, CreateAuditLog. preserve. apply stmt_on_db; [exact _|].
  intros now d. cbn. case_match; [reflexivity|]. by eexists.
Qed.

Lemma log_audit_ok t a r o n w :
  ∃ w', log_audit t a r o n w = (Ok tt, w') ∧ ∃ rows, w_db w' = set_audit_logs rows (w_db w).
Proof.
  pose proof (log_audit_only t a r o n w) as H. unfold on_db, only_audit in H.
  unfold log_audit, SM_ignore in *. eexists. split; [reflexivity|exact H].
Qed.
End Audit.

(** ** The interface *)
Class AggregateRepo {env : Env} (A : Type) := {
  agg_id : A → string;
  agg_tenant : A → string;
  agg_version : A → Z;
  agg_events : A → list Event;
  agg_type : string;
  (** The values the table can hold. *)
  agg_wf : A → Prop;
  (** The stored aggregate of an id and tenant. *)
  stored : DB → string → string → option A;
  (** [a], saved over [a0] at database time [now], as it reads back. *)
  persisted : Time → A → A → A;
  (** The table's primary key holds. *)
  repo_inv : DB → Prop;

  repo_find : string → string → M A;
  repo_save : A → M A;

  repo_find_ok id t w a w' :
    repo_inv (w_db w) → repo_find id t w = (Ok a, w') →
    w_db w' = w_db w ∧ stored (w_db w) id t = Some a;
  stored_wf d id t a :
    stored d id t = Some a → agg_wf a ∧ agg_id a = id ∧ agg_tenant a = t ∧ agg_events a = [];
  (** Saving an aggregate that is stored: only over the version it was read
      at; then the row is [a]'s, every other aggregate is as before, and the
      events are in the outbox. *)
  repo_save_ok a a0 w a' w' :
    repo_inv (w_db w) → agg_wf a → stored (w_db w) (agg_id a) (agg_tenant a) = Some a0 →
    repo_save a w = (Ok a', w') →
    agg_version a = agg_version a0 ∧ agg_id a' = agg_id a ∧ repo_inv (w_db w') ∧
    (∃ now, stored (w_db w') (agg_id a) (agg_tenant a) = Some (persisted now a0 a)) ∧
    (∀ id t, ¬ (id = agg_id a ∧ t = agg_tenant a) →
       stored (w_db w') id t = stored (w_db w) id t) ∧
    (∃ rows, outbox_events (w_db w') = (outbox_events (w_db w) ++ rows)%list ∧
             Forall2 (outbox_row_of (agg_id a) agg_type) (agg_events a) rows);
  (** The audit trail is not part of an aggregate. *)
  stored_audit d rows id t : stored (set_audit_logs rows d) id t = stored d id t;
  inv_audit d rows : repo_inv d → repo_inv (set_audit_logs rows d) }.

(** ** The transition use case *)
Section Transition.
Context {env : Env} {A : Type} `{!AggregateRepo A}.
Context (op : Time → A → result A) (table action : string).

Definition transition_uc (id tenant : string) : M unit :=
  UoWExecute
    (a ← repo_find id tenant;
     now ← Now;
     a1 ← SM_lift (op now a);
     a2 ← repo_save a1;
     log_audit table action (agg_id a2) None None).

(** An operation of the aggregate touches neither its identity nor its
    version, and keeps it storable. *)
Class Operation : Prop := {
  op_frame now a a' : op now a = Ok a' →
    agg_id a' = agg_id a ∧ agg_tenant a' = agg_tenant a ∧ agg_version a' = agg_version a;
  op_wf now a a' : op now a = Ok a' → agg_wf a → agg_wf a' }.

(** The abstract specification: the stored aggregate moves by [op], and
    nothing else does. *)
Definition transition_spec (d d' : DB) (id t : string) : Prop :=
  ∃ a a1 now dbnow rows,
    stored d id t = Some a ∧ op now a = Ok a1 ∧
    stored d' id t = Some (persisted dbnow a a1) ∧
    (∀ id' t', ¬ (id' = id ∧ t' = t) → stored d' id' t' = stored d id' t') ∧
    outbox_events d' = (outbox_events d ++ rows)%list ∧
    Forall2 (outbox_row_of id agg_type) (agg_events a1) rows.

Lemma transition_refines `{!Operation} id t w r w' :
  repo_inv (w_db w) → transition_uc id t w = (r, w') →
  match r with
  | Ok _ => transition_spec (w_db w) (w_db w') id t ∧ repo_inv (w_db w')
  | Fail _ => w_db w' = w_db w
  end.
Proof.
  intros Hinv Hu. unfold transition_uc in Hu.
  pose proof (UoWExecute_spec _ _ _ _ Hu) as Htx. destruct r as [[]|e]; [|done].
  destruct Htx as (w1 & Hrun & Hd & _). clear Hu.
  apply bind_ok_inv in Hrun as (a & wa & Hfind & Hrun).
  apply bind_ok_inv in Hrun as (now & wb & Hnow & Hrun).
  apply bind_ok_inv in Hrun as (a1 & wc & Hop & Hrun).
  apply bind_ok_inv in Hrun as (a2 & wd & Hsave & Hrun).
  apply repo_find_ok in Hfind as [Hda Hst]; [|exact Hinv]. cbn in Hda, Hst.
  unfold Now in Hnow. injection Hnow as Hnow Hdb. subst wb.
  unfold SM_lift in Hop. injection Hop as Hop Hwc. subst wc.
  destruct (stored_wf _ _ _ _ Hst) as (Hwf & Hid & Ht & Hev).
  destruct (op_frame _ _ _ Hop) as (Hid1 & Ht1 & Hv1).
  assert (Hst' : stored (w_db (tick_clock wa)) (agg_id a1) (agg_tenant a1) = Some a)
    by (cbn; rewrite Hda, Hid1, Ht1, Hid, Ht; done).
  assert (Hinv' : repo_inv (w_db (tick_clock wa))) by (cbn; by rewrite Hda).
  destruct (repo_save_ok a1 a _ _ _ Hinv' (op_wf _ _ _ Hop Hwf) Hst' Hsave)
    as (_ & _ & Hi & [dbnow Hnew] & Hother & (rows & Hout & Hrows)).
  destruct (log_audit_ok table action (agg_id a2) None None wd) as (we & He & arows & Hde).
  rewrite He in Hrun. injection Hrun as <-.
  cbn in Hnew, Hother, Hout. rewrite Hda in Hother, Hout.
  rewrite Hid1, Ht1, Hid, Ht in Hnew, Hother. rewrite Hid1, Hid in Hrows.
  rewrite Hd, Hde. split; [|by apply inv_audit].
  exists a, a1, now, dbnow, rows.
  split_and!; try done; [by rewrite stored_audit|].
  intros id' t' Hne. rewrite stored_audit. by apply Hother.
Qed.
End Transition.
