(* ===== verification/Devices.v ===== *)
(** * Telemetry devices: registry, lifecycle and quarantine

    [internal/telemetry/device_store.go], [quarantine.go] and [devices.go]:
    the device table with its unique IMEI and its unique vehicle, the
    lifecycle inventory, assigned, active, retired, and the quarantine of
    frames from devices that are not active.  [encoding/json] and the random
    secret are parameters. *)
From stdpp Require Import base decidable list strings option.
From Stdlib Require Import ZArith Lia String.
From S2P Require Import Prelude GoFloat GoCrypto Shared GoMath Events Database Outbox Repository.
Open Scope Z_scope.

(** ** Frames and their JSON (providers/provider.go)

    A [time.Time] carries its offset, here in seconds east of UTC. *)
Record RawFrame := mkFrame {
  f_IMEI : string; f_DeviceTime : Time; f_Offset : Z; f_Latitude : float64; f_Longitude : float64;
  f_Speed : float64; f_Heading : float64; f_Ignition : option bool;
  f_EngineHours : option float64; f_Accuracy : option float64; f_FuelLevel : option float64;
  f_Odometer : option float64; f_DriverID : string; f_TripID : string; f_Provider : string;
  f_ProviderMsgID : string; f_RawPayload : string }.

(** A value of the maps that are logged. *)
Inductive jval := JString (s : string) | JNumber (x : float64).

(** [encoding/json]: the text of a map, if it can be marshalled; the text of
    a frame, empty if not; the ["imei"] of an object. *)
Class Json := {
  MarshalMap : list (string * jval) → option string;
  MarshalFrame : RawFrame → string;
  UnmarshalIMEI : string → result string }.

(** The zero frame of an IMEI. *)
Definition bare_frame (imei : string) : RawFrame :=
  mkFrame imei 0 0 f0 f0 f0 f0 None None None None None "" "" "" "" "".

Module Devices.
Import DeviceRow.

Definition DeviceStatusInventory : string := "inventory".
Definition DeviceStatusAssigned : string := "assigned".
Definition DeviceStatusActive : string := "active".
Definition DeviceStatusRetired : string := "retired".
Definition DeviceStatusQuarantined : string := "quarantined".
Definition DeviceTypeHardware : string := "hardware".

Definition QuarantineReasonUnknownDevice : string := "unknown_device".
Definition QuarantineReasonRetiredDevice : string := "retired_device".
Definition QuarantineReasonQuarantinedDevice : string := "quarantined_device".
Definition QuarantineStatusOpen : string := "open".
Definition QuarantineStatusResolved : string := "resolved".
Definition QuarantineStatusRejected : string := "rejected".

Definition ErrDuplicateDevice : error := Err "device already exists".
Definition ErrDeviceNotFound : error := Err "device not found".
Definition ErrInvalidTransition : error := Err "invalid device state transition".
Definition ErrVehicleAssigned : error := Err "vehicle already has a device assigned".
Definition ErrBatchTooLarge : error := Err "bulk registration batch exceeds 500 rows".
Definition ErrInvalidAction : error := Err "invalid quarantine resolution action".
(** [fmt.Errorf("%w: ...", sentinel, ...)]. *)
Definition because (sentinel : error) (detail : string) : error :=
  Wrap (error_msg sentinel) (Err detail).

Definition isUniqueConstraint (e : error) : bool :=
  let msg := ToLower (error_msg e) in
  contains msg "unique" && (contains msg "constraint" || contains msg "already").

(** The commands. *)
Record RegisterDeviceCommand := mkRegister {
  rc_IMEI : string; rc_SerialNumber : option string; rc_DeviceType : string;
  rc_FirmwareVersion : option string; rc_SimNumber : option string; rc_ICCID : option string;
  rc_WarrantyUntil : option Time; rc_VehicleID : option string; rc_CustomerID : option string }.
Record ResolveQuarantineCommand := mkResolve {
  rq_EntryID : string; rq_Action : string; rq_VehicleID : option string; rq_UserID : string }.

(** ** Changes of a row *)
Definition with_status (st : string) (now : Time) (d : Device) : Device :=
  mkDevice (ID d) (TenantID d) (IMEI d) (SerialNumber d) (FirmwareVersion d) (SimNumber d)
    (ICCID d) (WarrantyUntil d) (DeviceType d) st (VehicleID d) (CustomerID d) (ActivatedAt d)
    (LastSeenAt d) (DeviceSecretHash d) (CreatedAt d) now.
Definition with_vehicle (v : string) (now : Time) (d : Device) : Device :=
  mkDevice (ID d) (TenantID d) (IMEI d) (SerialNumber d) (FirmwareVersion d) (SimNumber d)
    (ICCID d) (WarrantyUntil d) (DeviceType d) DeviceStatusAssigned (Some v) (CustomerID d)
    (ActivatedAt d) (LastSeenAt d) (DeviceSecretHash d) (CreatedAt d) now.
Definition with_secret (hash : string) (at_ now : Time) (d : Device) : Device :=
  mkDevice (ID d) (TenantID d) (IMEI d) (SerialNumber d) (FirmwareVersion d) (SimNumber d)
    (ICCID d) (WarrantyUntil d) (DeviceType d) DeviceStatusActive (VehicleID d) (CustomerID d)
    (Some (default at_ (ActivatedAt d))) (LastSeenAt d) (Some hash) (CreatedAt d) now.
Definition with_last_seen (now : Time) (d : Device) : Device :=
  mkDevice (ID d) (TenantID d) (IMEI d) (SerialNumber d) (FirmwareVersion d) (SimNumber d)
    (ICCID d) (WarrantyUntil d) (DeviceType d) (Status d) (VehicleID d) (CustomerID d)
    (ActivatedAt d) (Some now) (DeviceSecretHash d) (CreatedAt d) now.

Definition by_imei (imei : string) (d : Device) : bool := String.eqb (IMEI d) imei.
Definition by_imei_tenant (imei tenant : string) (d : Device) : bool :=
  String.eqb (IMEI d) imei && String.eqb (TenantID d) tenant.
Definition on_vehicle (v : string) (d : Device) : bool :=
  bool_decide (VehicleID d = Some v).

Section Store.
Context {env : Env} {json : Json}.

Definition devices (d : DB) : list Device := telemetry_devices (ops d).

(** ** The store (device_store.go, devices.go) *)
Definition GetByIMEI (imei : string) : M (option Device) :=
  SM_wrap "device lookup" (query (λ _ d, select_one (by_imei imei) (devices d))).

Definition GetByVehicleID (vehicleID : string) : M (option Device) :=
  SM_wrap "device by vehicle lookup"
    (query (λ _ d, select_one (on_vehicle vehicleID) (devices d))).

Definition UpdateLastSeen (imei : string) : M unit :=
  exec (λ now d,
    (Ok tt, set_telemetry_devices (update_where (by_imei imei) (with_last_seen now) (devices d)) d)).

(** The unique indexes, checked as SQLite does. *)
Definition device_conflict (x : Device) (l : list Device) : bool :=
  exists_row (λ y, String.eqb (ID y) (ID x) || String.eqb (IMEI y) (IMEI x) ||
                   match VehicleID x with Some v => on_vehicle v y | None => false end) l.

Definition insert_error (e : error) : error :=
  if isUniqueConstraint e then ErrDuplicateDevice else Wrap "insert device" e.

(** The columns no argument carries start empty. *)
Definition inserted_row (x : Device) (now : Time) : Device :=
  mkDevice (ID x) (TenantID x) (IMEI x) (SerialNumber x) (FirmwareVersion x) (SimNumber x)
    (ICCID x) (WarrantyUntil x) (DeviceType x) (Status x) (VehicleID x) (CustomerID x) None None
    None now now.

Definition InsertDevice (x : Device) : M unit :=
  SM_map_err insert_error
    (exec (λ now d,
       if device_conflict x (devices d)
       then (Fail (Err "UNIQUE constraint failed: telemetry_devices"), d)
       else (Ok tt, set_telemetry_devices (devices d ++ [inserted_row x now]) d))).

Definition CountByIMEI (tenant imei : string) : M Z :=
  query (λ _ d, Z.of_nat (List.length (select_many (by_imei_tenant imei tenant) (devices d)))).

(** An UPDATE that reports whether a row matched. *)
Definition update_devices (p : Device → bool) (f : Time → Device → Device) : M bool :=
  exec (λ now d,
    (Ok (exists_row p (devices d)), set_telemetry_devices (update_where p (f now) (devices d)) d)).

Definition updateStatus (tenant imei from to_ : string) : M unit :=
  n ← SM_wrap "status update"
        (update_devices (λ x, by_imei_tenant imei tenant x && String.eqb (Status x) from)
           (with_status to_));
  if n : bool then mret tt else SM_fail ErrDeviceNotFound.

Definition assign_error (e : error) : error :=
  if isUniqueConstraint e then ErrVehicleAssigned else Wrap "assign vehicle" e.

Definition SetVehicle (tenant imei vehicleID : string) : M unit :=
  SM_map_err assign_error
    (exec (λ now d,
       if exists_row (by_imei_tenant imei tenant) (devices d) &&
          exists_row (λ y, on_vehicle vehicleID y && negb (by_imei_tenant imei tenant y)) (devices d)
       then (Fail (Err "UNIQUE constraint failed: telemetry_devices.vehicle_id"), d)
       else (Ok tt, set_telemetry_devices
               (update_where (by_imei_tenant imei tenant) (with_vehicle vehicleID now) (devices d))
               d))).

Definition SetDeviceSecret (tenant imei secretHash : string) (activatedAt : Time) : M unit :=
  n ← SM_wrap "set device secret"
        (update_devices
           (λ x, by_imei_tenant imei tenant x && String.eqb (Status x) DeviceStatusAssigned)
           (with_secret secretHash activatedAt));
  if n : bool then mret tt else SM_fail ErrDeviceNotFound.

(** ** Quarantine (quarantine.go) *)
Definition Quarantine (e : QuarantineEntry) : M unit :=
  SM_wrap "quarantine insert"
    (exec (λ _ d,
       if exists_row (λ r, String.eqb (q_ID r) (q_ID e)) (device_quarantine (ops d))
       then (Fail (Err "UNIQUE constraint failed: device_quarantine.id"), d)
       else (Ok tt, set_device_quarantine (device_quarantine (ops d) ++ [e]) d))).

Definition resolved_entry (status by_ : string) (now : Time) (e : QuarantineEntry)
    : QuarantineEntry :=
  mkQuarantine (q_ID e) (q_TenantID e) (q_IMEI e) (q_Source e) (q_RawPayload e) (q_Reason e)
    status (Some by_) (Some now) (q_CreatedAt e).

Definition Resolve (id status resolvedBy : string) : M unit :=
  exec (λ now d,
    (Ok tt, set_device_quarantine
       (update_where (λ e, String.eqb (q_ID e) id && String.eqb (q_Status e) QuarantineStatusOpen)
          (resolved_entry status resolvedBy now) (device_quarantine (ops d))) d)).

Definition GetQuarantineByID (id : string) : M QuarantineEntry :=
  SM_map_err (λ e, if is_no_rows e then ErrDeviceNotFound else Wrap "quarantine lookup" e)
    (query_row (λ _ d, select_one (λ e, String.eqb (q_ID e) id) (device_quarantine (ops d)))).

(** ** The audit adapter (odometer_guard.go) *)
Definition LogAction (action table record : string) (oldValues newValues : option (list (string * jval)))
    : M unit :=
  id ← GenerateUUID;
  CreateAuditLog
    (mkAuditRow id None action table record (oldValues ≫= MarshalMap)
       (newValues ≫= MarshalMap) (Some ""%string)).
Definition log_device (action id : string) (o n : option (list (string * jval))) : M unit :=
  SM_ignore (LogAction action "telemetry_devices" id o n).

(** ** The lifecycle service (devices.go) *)
Definition tenantFromContext (ctx : option string) : result string :=
  let t := TenantIDFromContext ctx in
  if is_empty t then Fail (Err "tenant not set in context") else Ok t.

Definition device_type_or_default (c : RegisterDeviceCommand) : string :=
  if is_empty (rc_DeviceType c) then DeviceTypeHardware else rc_DeviceType c.

Definition new_device (id tenant : string) (c : RegisterDeviceCommand) : Device :=
  mkDevice id tenant (rc_IMEI c) (rc_SerialNumber c) (rc_FirmwareVersion c) (rc_SimNumber c)
    (rc_ICCID c) (rc_WarrantyUntil c) (device_type_or_default c) DeviceStatusInventory
    (rc_VehicleID c) (rc_CustomerID c) None None None 0 0.

Definition RegisterDevice (ctx : option string) (c : RegisterDeviceCommand) : M string :=
  tenant ← SM_lift (tenantFromContext ctx);
  (when is_empty (rc_IMEI c) fail Err "imei is required";
   (id ← GenerateUUID;
    let x := new_device id tenant c in
    _ ← InsertDevice x;
    _ ← log_device "device_register" id None
          (Some [("imei", JString (IMEI x)); ("status", JString (Status x))]%string);
    mret id))%go.

(** The checks before a batch is inserted; [seen] are the IMEIs so far. *)
Fixpoint check_batch (tenant : string) (seen : list string) (cmds : list RegisterDeviceCommand)
    : M unit :=
  match cmds with
  | [] => mret tt
  | c :: cmds' =>
      (when is_empty (rc_IMEI c) fail Err "empty imei in batch";
       when bool_decide (rc_IMEI c ∈ seen) fail ErrDuplicateDevice;
       (n ← CountByIMEI tenant (rc_IMEI c);
        if 0 <? n then SM_fail ErrDuplicateDevice
        else check_batch tenant (rc_IMEI c :: seen) cmds'))%go
  end.

Definition insert_one (tenant : string) (c : RegisterDeviceCommand) : M unit :=
  id ← GenerateUUID; InsertDevice (new_device id tenant c).

(** Batches above 500 rows are refused; the per-row results of the response
    are not part of the model. *)
Definition BulkRegister (ctx : option string) (cmds : list RegisterDeviceCommand) : M unit :=
  (when Z.ltb 500 (Z.of_nat (List.length cmds)) fail ErrBatchTooLarge;
   (tenant ← SM_lift (tenantFromContext ctx);
    UoWExecute (_ ← check_batch tenant [] cmds; SM_iter (insert_one tenant) cmds)))%go.

(** [dev == nil || dev.TenantID != tenantID] is not found. *)
Definition find_own (tenant imei : string) : M Device :=
  dev ← GetByIMEI imei;
  match dev with
  | Some x => if String.eqb (TenantID x) tenant then mret x else SM_fail ErrDeviceNotFound
  | None => SM_fail ErrDeviceNotFound
  end.

Definition AssignDevice (ctx : option string) (imei vehicleID : string) : M unit :=
  tenant ← SM_lift (tenantFromContext ctx);
  (when is_empty imei || is_empty vehicleID fail Err "imei and vehicle_id are required";
   (dev ← find_own tenant imei;
    when negb (String.eqb (Status dev) DeviceStatusInventory) fail
      because ErrInvalidTransition ("device is " +:+ Status dev +:+ ", assign requires inventory");
    (_ ← SetVehicle tenant imei vehicleID;
     log_device "device_assign" (ID dev) (Some [("status", JString (Status dev))]%string)
       (Some [("vehicle_id", JString vehicleID); ("status", JString DeviceStatusAssigned)]%string))))%go.

(** [hmacSHA256]: ["%x"] of the MAC. *)
Definition hmacSHA256 (key message : string) : string := hex_encode (hmac_sha256 key message).

(** [rawSecret] is what [generateDeviceSecret] drew, or its failure. *)
Definition ActivateDevice (pepper : string) (rawSecret : result string) (ctx : option string)
    (imei : string) : M (option Device * string) :=
  tenant ← SM_lift (tenantFromContext ctx);
  dev ← find_own tenant imei;
  (when negb (String.eqb (Status dev) DeviceStatusAssigned) fail
     because ErrInvalidTransition ("device is " +:+ Status dev +:+ ", activate requires assigned");
   (secret ← SM_wrap "generate secret" (SM_lift rawSecret);
    now ← Now;
    _ ← SM_wrap "persist device secret"
          (SetDeviceSecret tenant imei (hmacSHA256 pepper secret) now);
    _ ← SM_ignore (UpdateLastSeen imei);
    _ ← log_device "device_activate" (ID dev) (Some [("status", JString (Status dev))]%string)
          (Some [("status", JString DeviceStatusActive)]%string);
    after ← SM_try (GetByIMEI imei);
    mret (match after with Ok d => d | Fail _ => None end, secret)))%go.

Definition RetireDevice (ctx : option string) (imei : string) : M unit :=
  tenant ← SM_lift (tenantFromContext ctx);
  dev ← find_own tenant imei;
  let from := Status dev in
  (when String.eqb from DeviceStatusRetired fail
     because ErrInvalidTransition "device is already retired";
   when negb (String.eqb from DeviceStatusActive || String.eqb from DeviceStatusAssigned) fail
     because ErrInvalidTransition ("device is " +:+ from);
   (_ ← updateStatus tenant imei from DeviceStatusRetired;
    log_device "device_retire" (ID dev) (Some [("status", JString from)]%string)
      (Some [("status", JString DeviceStatusRetired)]%string)))%go.

(** The three admin decisions on an open entry. *)
Definition reject_entry (cmd : ResolveQuarantineCommand) : M unit :=
  UoWExecute (Resolve (rq_EntryID cmd) QuarantineStatusRejected (rq_UserID cmd)).

Definition register_new (tenant : string) (entry : QuarantineEntry) (cmd : ResolveQuarantineCommand)
    : M unit :=
  UoWExecute
    (imei ← SM_wrap "parse quarantine payload" (SM_lift (UnmarshalIMEI (q_RawPayload entry)));
     let imei := if is_empty imei then q_IMEI entry else imei in
     id ← GenerateUUID;
     _ ← InsertDevice (mkDevice id tenant imei None None None None None DeviceTypeHardware
                         DeviceStatusInventory None None None None None 0 0);
     Resolve (rq_EntryID cmd) QuarantineStatusResolved (rq_UserID cmd)).

Definition revive (tenant vehicleID : string) (entry : QuarantineEntry) (dev : Device) : M unit :=
  if String.eqb (Status dev) DeviceStatusRetired || String.eqb (Status dev) DeviceStatusQuarantined
  then
    if negb (is_empty vehicleID) then SetVehicle tenant (q_IMEI entry) vehicleID
    else updateStatus tenant (q_IMEI entry) (Status dev) DeviceStatusAssigned
  else if String.eqb (Status dev) DeviceStatusInventory && negb (is_empty vehicleID)
  then SetVehicle tenant (q_IMEI entry) vehicleID
  else mret tt.

Definition assign_existing (tenant : string) (entry : QuarantineEntry)
    (cmd : ResolveQuarantineCommand) : M unit :=
  UoWExecute
    (dev ← find_own tenant (q_IMEI entry);
     _ ← revive tenant (default ""%string (rq_VehicleID cmd)) entry dev;
     Resolve (rq_EntryID cmd) QuarantineStatusResolved (rq_UserID cmd)).

Definition ResolveQuarantine (ctx : option string) (cmd : ResolveQuarantineCommand) : M unit :=
  (when is_empty (rq_Action cmd) fail ErrInvalidAction;
   (tenant ← SM_lift (tenantFromContext ctx);
    entry ← GetQuarantineByID (rq_EntryID cmd);
    when negb (String.eqb (q_TenantID entry) tenant) fail ErrDeviceNotFound;
    when negb (String.eqb (q_Status entry) QuarantineStatusOpen) fail
      because ErrInvalidTransition ("entry is " +:+ q_Status entry +:+ ", not open");
    if String.eqb (rq_Action cmd) "reject" then reject_entry cmd
    else if String.eqb (rq_Action cmd) "register_new" then register_new tenant entry cmd
    else if String.eqb (rq_Action cmd) "assign_existing" then assign_existing tenant entry cmd
    else SM_fail (because ErrInvalidAction (rq_Action cmd))))%go.

(** ** What the statements do *)
Lemma GetByIMEI_ok imei w r w' :
  GetByIMEI imei w = (Ok r, w') → w_db w' = w_db w ∧ r = select_one (by_imei imei) (devices (w_db w)).
Proof.
  intros H%map_err_ok_inv. by apply query_inv in H as (Hd & _ & ->).
Qed.

Lemma find_own_ok t imei w x w' :
  find_own t imei w = (Ok x, w') →
  w_db w' = w_db w ∧ select_one (by_imei imei) (devices (w_db w)) = Some x ∧ TenantID x = t.
Proof.
  unfold find_own. intros H. run_ok H. apply GetByIMEI_ok in Hrun as [Hd Hv].
  destruct v as [y|]; [|discriminate H].
  destruct (String.eqb_spec (TenantID y) t); [|discriminate H]. injection H as -> ->. auto.
Qed.

Lemma InsertDevice_ok x w w' :
  InsertDevice x w = (Ok tt, w') →
  ∃ now, device_conflict x (devices (w_db w)) = false ∧
    w_db w' = set_telemetry_devices (devices (w_db w) ++ [inserted_row x now]) (w_db w).
Proof.
  intros H%map_err_ok_inv. apply stmt_inv in H as (_ & _ & _ & H).
  destruct (device_conflict _ _) eqn:E; [discriminate H|]. injection H as H. eauto.
Qed.

Definition vehicle_conflict (t imei v : string) (l : list Device) : bool :=
  exists_row (by_imei_tenant imei t) l &&
  exists_row (λ y, on_vehicle v y && negb (by_imei_tenant imei t y)) l.

Lemma SetVehicle_ok t imei v w w' :
  SetVehicle t imei v w = (Ok tt, w') →
  ∃ now, vehicle_conflict t imei v (devices (w_db w)) = false ∧
    w_db w' = set_telemetry_devices
                (update_where (by_imei_tenant imei t) (with_vehicle v now) (devices (w_db w)))
                (w_db w).
Proof.
  intros H%map_err_ok_inv. apply stmt_inv in H as (_ & _ & _ & H).
  fold (vehicle_conflict t imei v (devices (w_db w))) in H.
  destruct (vehicle_conflict _ _ _ _) eqn:E; [discriminate H|]. injection H as H. eauto.
Qed.

Lemma update_devices_ok p f w b w' :
  update_devices p f w = (Ok b, w') →
  ∃ now, b = exists_row p (devices (w_db w)) ∧
    w_db w' = set_telemetry_devices (update_where p (f now) (devices (w_db w))) (w_db w).
Proof.
  intros H. apply stmt_inv in H as (_ & _ & _ & H). injection H as -> H. eauto.
Qed.

Lemma updateStatus_ok t imei from to_ w w' :
  updateStatus t imei from to_ w = (Ok tt, w') →
  ∃ now, w_db w' = set_telemetry_devices
    (update_where (λ x, by_imei_tenant imei t x && String.eqb (Status x) from)
       (with_status to_ now) (devices (w_db w))) (w_db w).
Proof.
  unfold updateStatus. intros H. run_ok H. apply map_err_ok_inv in Hrun.
  apply update_devices_ok in Hrun as (now & -> & Hd). destruct (exists_row _ _); [|discriminate H].
  injection H as <-. eauto.
Qed.

(** ** The registry invariant

    The unique indexes of the table: one device per IMEI, one per vehicle. *)
Definition one_per_vehicle (l : list Device) : Prop :=
  ∀ x y v, x ∈ l → y ∈ l → VehicleID x = Some v → VehicleID y = Some v → x = y.
Definition registry_ok (l : list Device) : Prop :=
  NoDup (map IMEI l) ∧ one_per_vehicle l.
Definition registry_inv (d : DB) : Prop := registry_ok (devices d).

Lemma no_device_conflict x l : device_conflict x l = false →
  ∀ y, y ∈ l → IMEI y ≠ IMEI x ∧ ∀ v, VehicleID x = Some v → VehicleID y ≠ Some v.
Proof.
  unfold device_conflict. rewrite exists_row_false. intros H y Hy. specialize (H y Hy).
  apply orb_false_iff in H as [[_ H1]%orb_false_iff H2]. apply String.eqb_neq in H1.
  split; [done|]. intros v Hv. rewrite Hv in H2. by apply bool_decide_eq_false in H2.
Qed.

Lemma registry_insert x now l :
  registry_ok l → device_conflict x l = false → registry_ok (l ++ [inserted_row x now]).
Proof.
  intros [Hi Hv] Hc. pose proof (no_device_conflict x l Hc) as Hno. split.
  - apply NoDup_map_snoc; [done|]. intros y Hy. by destruct (Hno y Hy).
  - intros a b v Ha Hb. apply elem_of_app in Ha, Hb. rewrite !list_elem_of_singleton in Ha, Hb.
    destruct Ha as [Ha| ->], Hb as [Hb| ->]; cbn.
    + by apply Hv.
    + intros Hav Hxv. by destruct (Hno a Ha) as [_ Hn]; destruct (Hn v Hxv).
    + intros Hxv Hbv. by destruct (Hno b Hb) as [_ Hn]; destruct (Hn v Hxv).
    + done.
Qed.

Lemma registry_update p (f : Device → Device) l :
  (∀ x, x ∈ l → p x = true → IMEI (f x) = IMEI x) →
  (∀ x y v, x ∈ l → y ∈ l → VehicleID (if p x then f x else x) = Some v →
     VehicleID (if p y then f y else y) = Some v → x = y) →
  registry_ok l → registry_ok (update_where p f l).
Proof.
  intros Hf Hone [Hi _]. split.
  - unfold update_where. rewrite map_map. erewrite map_ext_in; [exact Hi|].
    intros x Hx%list_elem_of_In. cbn. destruct (p x) eqn:E; [by apply Hf|done].
  - intros a b v Ha Hb. apply elem_of_update in Ha as (x & Hx & ->), Hb as (y & Hy & ->).
    intros Hxv Hyv. by rewrite (Hone x y v Hx Hy Hxv Hyv).
Qed.

Lemma registry_keep p (f : Device → Device) l :
  (∀ x, IMEI (f x) = IMEI x ∧ VehicleID (f x) = VehicleID x) →
  registry_ok l → registry_ok (update_where p f l).
Proof.
  intros Hf Hr. apply registry_update; [intros; apply Hf| |done].
  intros x y v Hx Hy Hxv Hyv. destruct Hr as [_ Hv]. apply (Hv x y v Hx Hy).
  - destruct (p x); [by rewrite <- (proj2 (Hf x))|done].
  - destruct (p y); [by rewrite <- (proj2 (Hf y))|done].
Qed.

Lemma registry_set_vehicle t imei v now l :
  registry_ok l → vehicle_conflict t imei v l = false →
  registry_ok (update_where (by_imei_tenant imei t) (with_vehicle v now) l).
Proof.
  intros Hr Hc. apply registry_update; [done| |done]. destruct Hr as [Hi Hv].
  assert (Hone : ∀ x y, x ∈ l → y ∈ l → IMEI x = IMEI y → x = y).
  { intros x y Hx Hy He. by eapply (NoDup_map_inj IMEI). }
  assert (Hfree : ∀ x y, x ∈ l → y ∈ l → by_imei_tenant imei t x = true →
            by_imei_tenant imei t y = false → VehicleID y ≠ Some v).
  { intros x y Hx Hy Hpx Hpy Hyv. unfold vehicle_conflict in Hc.
    rewrite (proj2 (exists_row_spec _ _) (ex_intro _ x (conj Hx Hpx))) in Hc. cbn in Hc.
    rewrite exists_row_false in Hc. specialize (Hc y Hy). unfold on_vehicle in Hc.
    rewrite Hpy, (bool_decide_eq_true_2 _ Hyv) in Hc. discriminate Hc. }
  intros x y u Hx Hy.
  destruct (by_imei_tenant imei t x) eqn:Px, (by_imei_tenant imei t y) eqn:Py; cbn.
  - intros _ _. apply Hone; [done..|]. apply andb_true_iff in Px as [Px _], Py as [Py _].
    apply String.eqb_eq in Px, Py. congruence.
  - intros [= <-] Hyv. by destruct (Hfree x y Hx Hy Px Py).
  - intros Hxv [= <-]. by destruct (Hfree y x Hy Hx Py Px).
  - by apply Hv.
Qed.

(** Every operation of the service, and the touch of an accepted frame. *)
Inductive service_op :=
| OpRegister (ctx : option string) (c : RegisterDeviceCommand)
| OpBulkRegister (ctx : option string) (cs : list RegisterDeviceCommand)
| OpAssign (ctx : option string) (imei vehicleID : string)
| OpActivate (pepper : string) (secret : result string) (ctx : option string) (imei : string)
| OpRetire (ctx : option string) (imei : string)
| OpResolve (ctx : option string) (cmd : ResolveQuarantineCommand)
| OpSeen (imei : string).

Definition run_op (o : service_op) : M unit :=
  match o with
  | OpRegister ctx c => SM_ignore (RegisterDevice ctx c)
  | OpBulkRegister ctx cs => SM_ignore (BulkRegister ctx cs)
  | OpAssign ctx imei v => SM_ignore (AssignDevice ctx imei v)
  | OpActivate pepper secret ctx imei => SM_ignore (ActivateDevice pepper secret ctx imei)
  | OpRetire ctx imei => SM_ignore (RetireDevice ctx imei)
  | OpResolve ctx cmd => SM_ignore (ResolveQuarantine ctx cmd)
  | OpSeen imei => SM_ignore (UpdateLastSeen imei)
  end.

Lemma InsertDevice_keeps x : preserves (on_db (keeps registry_inv)) (InsertDevice x).
Proof.
  apply preserves_map_err, stmt_on_db; [exact _|]. intros now d Hd. cbn.
  destruct (device_conflict _ _) eqn:E; [done|]. by apply registry_insert.
Qed.
Lemma SetVehicle_keeps t imei v : preserves (on_db (keeps registry_inv)) (SetVehicle t imei v).
Proof.
  apply preserves_map_err, stmt_on_db; [exact _|]. intros now d Hd. cbn.
  fold (vehicle_conflict t imei v (devices d)).
  destruct (vehicle_conflict _ _ _ _) eqn:E; [done|]. by apply registry_set_vehicle.
Qed.
Lemma update_devices_keeps p f :
  (∀ now x, IMEI (f now x) = IMEI x ∧ VehicleID (f now x) = VehicleID x) →
  preserves (on_db (keeps registry_inv)) (update_devices p f).
Proof.
  intros Hf. apply stmt_on_db; [exact _|]. intros now d Hd. by apply registry_keep.
Qed.
Lemma UpdateLastSeen_keeps imei : preserves (on_db (keeps registry_inv)) (UpdateLastSeen imei).
Proof. apply stmt_on_db; [exact _|]. intros now d Hd. by apply registry_keep. Qed.
Lemma Resolve_keeps id st u : preserves (on_db (keeps registry_inv)) (Resolve id st u).
Proof. apply stmt_on_db; [exact _|]. by intros now d Hd. Qed.

Lemma LogAction_only a t r o n : preserves (on_db only_audit) (LogAction a t r o n).
Proof.
  unfold LogAction, CreateAuditLog. preserve. apply stmt_on_db; [exact _|].
  intros now d. cbn. case_match; [reflexivity|]. by eexists.
Qed.
Lemma log_device_keeps a i o n : preserves (on_db (keeps registry_inv)) (log_device a i o n).
Proof.
  apply preserves_ignore. eapply preserves_weaken; [|apply LogAction_only].
  intros w w'. unfold on_db, only_audit, keeps. by intros [rows ->].
Qed.
Lemma log_device_ok a i o n w :
  ∃ rows w', log_device a i o n w = (Ok tt, w') ∧ w_db w' = set_audit_logs rows (w_db w).
Proof.
  pose proof (preserves_ignore (on_db only_audit) _ (LogAction_only a "telemetry_devices" i o n) w)
    as [rows H].
  exists rows. unfold log_device, SM_ignore in *. eexists. split; [reflexivity|exact H].
Qed.

Lemma GetByIMEI_same imei : preserves (on_db eq) (GetByIMEI imei).
Proof. apply preserves_map_err, query_same. Qed.
Lemma find_own_same t imei : preserves (on_db eq) (find_own t imei).
Proof. unfold find_own. pose proof GetByIMEI_same. preserve. Qed.

#[local] Hint Resolve InsertDevice_keeps SetVehicle_keeps update_devices_keeps UpdateLastSeen_keeps
  Resolve_keeps log_device_keeps : go.

Ltac keep_leaf u :=
  first
    [ solve [auto with go]
    | apply on_db_of_eq; [exact _|];
      first [ apply GetByIMEI_same | apply find_own_same | solve [preserve_with db_leaf] ]
    | apply UoWExecute_on_db; [exact _|]; preserve_with keep_leaf ].

Lemma check_batch_same t seen cs : preserves (on_db eq) (check_batch t seen cs).
Proof.
  revert seen. induction cs as [|c cs IH]; intros seen; cbn [check_batch]; [preserve|].
  unfold CountByIMEI. repeat case_match; preserve.
Qed.

Lemma updateStatus_keeps t imei a b : preserves (on_db (keeps registry_inv)) (updateStatus t imei a b).
Proof. unfold updateStatus. preserve_with keep_leaf. Qed.
Lemma SetDeviceSecret_keeps t imei h now :
  preserves (on_db (keeps registry_inv)) (SetDeviceSecret t imei h now).
Proof. unfold SetDeviceSecret. preserve_with keep_leaf. Qed.
#[local] Hint Resolve updateStatus_keeps SetDeviceSecret_keeps : go.

Lemma BulkRegister_keeps ctx cs : preserves (on_db (keeps registry_inv)) (BulkRegister ctx cs).
Proof.
  unfold BulkRegister. case_match; [preserve_with keep_leaf|].
  apply preserves_bind; [exact _|preserve_with keep_leaf|intros t].
  apply UoWExecute_on_db; [exact _|].
  apply preserves_bind; [exact _|apply on_db_of_eq; [exact _|apply check_batch_same]|intros _].
  unfold insert_one. preserve_with keep_leaf.
Qed.

Lemma ResolveQuarantine_keeps ctx cmd :
  preserves (on_db (keeps registry_inv)) (ResolveQuarantine ctx cmd).
Proof.
  unfold ResolveQuarantine, GetQuarantineByID, reject_entry, register_new, assign_existing, revive.
  preserve_with keep_leaf.
Qed.

(** whatever the sequence of registrations, single or in bulk,
    assignments, activations, retirements and quarantine decisions, of any
    tenants, whichever fail and whatever the database does, an IMEI names one
    device and a vehicle carries at most one. *)
Theorem registry_invariant os w :
  registry_inv (w_db w) → registry_inv (w_db (snd (SM_iter run_op os w))).
Proof.
  intros Hw. cut (preserves (on_db (keeps registry_inv)) (SM_iter run_op os)).
  { intros H. by apply H. }
  apply preserves_iter; [exact _|]. intros [ctx c|ctx cs|ctx i v|p s ctx i|ctx i|ctx c|i]; cbn [run_op];
    apply preserves_ignore; [|apply BulkRegister_keeps| | | |apply ResolveQuarantine_keeps|auto with go].
  - unfold RegisterDevice. preserve_with keep_leaf.
  - unfold AssignDevice. preserve_with keep_leaf.
  - unfold ActivateDevice. preserve_with keep_leaf.
  - unfold RetireDevice. preserve_with keep_leaf.
Qed.
(** ** The lifecycle *)
Inductive lifecycle_op :=
| LAssign (vehicleID : string)
| LActivate (pepper : string) (secret : result string)
| LRetire.

Definition run_lifecycle (o : lifecycle_op) (ctx : option string) (imei : string) : M unit :=
  match o with
  | LAssign v => AssignDevice ctx imei v
  | LActivate pepper secret => _ ← ActivateDevice pepper secret ctx imei; mret tt
  | LRetire => RetireDevice ctx imei
  end.

(** The abstract machine: where an operation leads from a status. *)
Definition target (o : lifecycle_op) (st : string) : option string :=
  match o with
  | LAssign _ => if String.eqb st DeviceStatusInventory then Some DeviceStatusAssigned else None
  | LActivate _ _ => if String.eqb st DeviceStatusAssigned then Some DeviceStatusActive else None
  | LRetire => if String.eqb st DeviceStatusActive || String.eqb st DeviceStatusAssigned
               then Some DeviceStatusRetired else None
  end.
(** What it changes beside the status. *)
Definition carried (o : lifecycle_op) (x x' : Device) : Prop :=
  match o with
  | LAssign v => VehicleID x' = Some v ∧ DeviceSecretHash x' = DeviceSecretHash x
  | LActivate pepper secret => VehicleID x' = VehicleID x ∧
      ∃ s, secret = Ok s ∧ DeviceSecretHash x' = Some (hmacSHA256 pepper s)
  | LRetire => VehicleID x' = VehicleID x ∧ DeviceSecretHash x' = DeviceSecretHash x
  end.

Definition device_of (imei : string) (d : DB) : option Device :=
  select_one (by_imei imei) (devices d).

Lemma set_devices_same d : set_telemetry_devices (devices d) d = d.
Proof. destruct d as [? ? ? ? ? ? ? ? ? ? ? ? ? ? []]. reflexivity. Qed.
Lemma update_none p (f : Device → Device) l : exists_row p l = false → update_where p f l = l.
Proof.
  rewrite exists_row_false. intros H. unfold update_where.
  rewrite <- (map_id l) at 2. apply map_ext_in. intros x Hx%list_elem_of_In. by rewrite H.
Qed.

Lemma by_imei_true imei x : by_imei imei x = true ↔ IMEI x = imei.
Proof. apply String.eqb_eq. Qed.

(** An update of one's own row, seen by IMEI. *)
Lemma update_own imei t (g : Device → bool) f l x :
  select_one (by_imei imei) l = Some x → TenantID x = t → g x = true →
  (∀ y, IMEI (f y) = IMEI y) →
  let l' := update_where (λ y, by_imei_tenant imei t y && g y) f l in
  select_one (by_imei imei) l' = Some (f x) ∧
  ∀ i, i ≠ imei → select_one (by_imei i) l' = select_one (by_imei i) l.
Proof.
  intros Hx Ht Hg Hf l'. unfold l'.
  assert (Hsel : ∀ i, select_one (by_imei i) (update_where (λ y, by_imei_tenant imei t y && g y) f l) =
            match select_one (by_imei i) l with
            | Some r => Some (if by_imei_tenant imei t r && g r then f r else r)
            | None => None end).
  { intros i. apply select_one_update. intros r _ _. unfold by_imei. by rewrite Hf. }
  rewrite Hsel, Hx. pose proof (select_one_Some _ _ _ Hx) as [_ Hi%by_imei_true]. split.
  - unfold by_imei_tenant. by rewrite Hg, (proj2 (String.eqb_eq _ _) Hi), (proj2 (String.eqb_eq _ _) Ht).
  - intros i Hne. rewrite Hsel. destruct (select_one (by_imei i) l) as [r|] eqn:Hr; [|done].
    apply select_one_Some in Hr as [_ Hr%by_imei_true]. unfold by_imei_tenant.
    by rewrite (proj2 (String.eqb_neq (IMEI r) imei)) by congruence.
Qed.

Lemma tenant_ok ctx t w w' :
  (SM_lift (tenantFromContext ctx) : M string) w = (Ok t, w') → w' = w ∧ t = TenantIDFromContext ctx.
Proof. unfold tenantFromContext. case_match; [done|]. by intros [= <- <-]. Qed.

(** One step of the machine, seen in the table. *)
Definition steps (o : lifecycle_op) (ctx : option string) (imei : string) (d d' : DB) : Prop :=
  ∃ x x', device_of imei d = Some x ∧ TenantID x = TenantIDFromContext ctx ∧
    target o (Status x) = Some (Status x') ∧ device_of imei d' = Some x' ∧ carried o x x' ∧
    ∀ i, i ≠ imei → device_of i d' = device_of i d.

Lemma steps_audit o ctx imei d d' rows : steps o ctx imei d d' → steps o ctx imei d (set_audit_logs rows d').
Proof. done. Qed.

Lemma own_step o ctx imei (g : Device → bool) f d x :
  device_of imei d = Some x → TenantID x = TenantIDFromContext ctx → g x = true →
  (∀ y, IMEI (f y) = IMEI y) → target o (Status x) = Some (Status (f x)) → carried o x (f x) →
  steps o ctx imei d
    (set_telemetry_devices
       (update_where (λ y, by_imei_tenant imei (TenantIDFromContext ctx) y && g y) f (devices d)) d).
Proof.
  intros Hx Ht Hg Hf Htg Hc. destruct (update_own imei _ g f _ x Hx Ht Hg Hf) as [H1 H2].
  exists x, (f x). by split_and!.
Qed.

Lemma update_ext p q (f : Device → Device) l :
  (∀ x, p x = q x) → update_where p f l = update_where q f l.
Proof. intros H. unfold update_where. apply map_ext. intros x. by rewrite H. Qed.

Lemma AssignDevice_steps ctx imei v w w' :
  AssignDevice ctx imei v w = (Ok tt, w') → steps (LAssign v) ctx imei (w_db w) (w_db w').
Proof.
  unfold AssignDevice. intros H. run_ok H. apply tenant_ok in Hrun as [-> ->].
  destruct (_ || _); [discriminate H|]. run_ok H. apply find_own_ok in Hrun as (Hd & Hx & Ht).
  destruct (String.eqb_spec (Status v0) DeviceStatusInventory) as [Hs|]; [|discriminate H].
  cbn [negb] in H. run_ok H. destruct v1. apply SetVehicle_ok in Hrun as (now & _ & Hd1).
  destruct (log_device_ok "device_assign" (ID v0) (Some [("status"%string, JString (Status v0))])
     (Some [("vehicle_id"%string, JString v); ("status"%string, JString DeviceStatusAssigned)]) s0)
    as (rows & w2 & Hl & Hd2).
  rewrite Hl in H. injection H as <-. rewrite Hd2. apply steps_audit. rewrite Hd1, Hd.
  rewrite (update_ext _ (λ y, by_imei_tenant imei (TenantIDFromContext ctx) y && true))
    by (intros; by rewrite andb_true_r).
  rewrite Hd in Hx || idtac. apply (own_step _ _ _ (λ _, true) _ _ v0); try done.
  cbn. by rewrite Hs.
Qed.

Lemma SetDeviceSecret_ok t imei h at_ w w' :
  SetDeviceSecret t imei h at_ w = (Ok tt, w') →
  ∃ now, w_db w' = set_telemetry_devices
    (update_where (λ x, by_imei_tenant imei t x && String.eqb (Status x) DeviceStatusAssigned)
       (with_secret h at_ now) (devices (w_db w))) (w_db w).
Proof.
  unfold SetDeviceSecret. intros H. run_ok H. apply map_err_ok_inv in Hrun.
  apply update_devices_ok in Hrun as (now & -> & Hd). destruct (exists_row _ _); [|discriminate H].
  injection H as <-. eauto.
Qed.

Lemma steps_seen o ctx imei d d' now :
  steps o ctx imei d d' →
  steps o ctx imei d
    (set_telemetry_devices (update_where (by_imei imei) (with_last_seen now) (devices d')) d').
Proof.
  intros (x & x' & Hx & Ht & Htg & Hx' & Hc & Ho).
  assert (Hsel : ∀ i, device_of i (set_telemetry_devices
      (update_where (by_imei imei) (with_last_seen now) (devices d')) d') =
      match device_of i d' with
      | Some r => Some (if by_imei imei r then with_last_seen now r else r) | None => None end).
  { intros i. apply select_one_update. done. }
  exists x, (with_last_seen now x'). split; [done|]. split; [done|]. split; [done|]. split.
  - rewrite Hsel, Hx'. apply select_one_Some in Hx' as [_ Hi]. by rewrite Hi.
  - split; [by destruct o|]. intros i Hne. rewrite Hsel, Ho by done.
    destruct (device_of i d) as [r|] eqn:Hr; [|done]. apply select_one_Some in Hr as [_ Hr%by_imei_true].
    unfold by_imei. by rewrite (proj2 (String.eqb_neq (IMEI r) imei)) by congruence.
Qed.

Lemma UpdateLastSeen_steps o ctx imei d w :
  steps o ctx imei d (w_db w) → steps o ctx imei d (w_db (snd (UpdateLastSeen imei w))).
Proof.
  intros H. unfold UpdateLastSeen, exec, stmt. destruct (stmt_fault _); [exact H|]. by apply steps_seen.
Qed.

Lemma ActivateDevice_steps pepper secret ctx imei w dev raw w' :
  ActivateDevice pepper secret ctx imei w = (Ok (dev, raw), w') →
  secret = Ok raw ∧ steps (LActivate pepper secret) ctx imei (w_db w) (w_db w').
Proof.
  unfold ActivateDevice. intros H. run_ok H. apply tenant_ok in Hrun as [-> ->].
  run_ok H. apply find_own_ok in Hrun as (Hd & Hx & Ht).
  destruct (String.eqb_spec (Status v) DeviceStatusAssigned) as [Hs|]; [|discriminate H].
  cbn [negb] in H. run_ok H. apply map_err_ok_inv in Hrun. destruct secret as [s2|]; [|discriminate Hrun].
  injection Hrun as -> ->. run_ok H. injection Hrun as _ <-.
  run_ok H. destruct v2. apply map_err_ok_inv, SetDeviceSecret_ok in Hrun as (now & Hd1).
  change (w_db (tick_clock s0)) with (w_db s0) in Hd1.
  run_ok H. unfold SM_ignore in Hrun. injection Hrun as <- <-.
  run_ok H.
  lazymatch type of Hrun with log_device ?a ?i ?o ?n ?st = _ =>
    destruct (log_device_ok a i o n st) as (rows & w2 & Hl & Hd2) end.
  rewrite Hl in Hrun. injection Hrun as <- <-. run_ok H. unfold SM_try in Hrun.
  pose proof (GetByIMEI_same imei w2) as Hg. destruct (GetByIMEI imei w2) as [r3 s4].
  injection Hrun as <- <-. injection H as _ <- <-. split; [done|].
  unfold on_db in Hg. cbn in Hg. rewrite <- Hg, Hd2. apply steps_audit, UpdateLastSeen_steps.
  rewrite Hd1, Hd. apply (own_step _ _ _ _ _ _ v); try done.
  - by rewrite Hs.
  - cbn [target with_secret Status]. by rewrite Hs.
  - split; [reflexivity|]. eexists; split; reflexivity.
Qed.

Lemma RetireDevice_steps ctx imei w w' :
  RetireDevice ctx imei w = (Ok tt, w') → steps LRetire ctx imei (w_db w) (w_db w').
Proof.
  unfold RetireDevice. intros H. run_ok H. apply tenant_ok in Hrun as [-> ->].
  run_ok H. apply find_own_ok in Hrun as (Hd & Hx & Ht).
  destruct (String.eqb_spec (Status v) DeviceStatusRetired) as [|Hr]; [discriminate H|].
  destruct (_ || _) eqn:Hs; [|discriminate H]. cbn [negb] in H.
  run_ok H. destruct v0. apply updateStatus_ok in Hrun as (now & Hd1).
  destruct (log_device_ok "device_retire" (ID v) (Some [("status"%string, JString (Status v))])
     (Some [("status"%string, JString DeviceStatusRetired)]) s0) as (rows & w2 & Hl & Hd2).
  rewrite Hl in H. injection H as <-. rewrite Hd2. apply steps_audit. rewrite Hd1, Hd.
  apply (own_step _ _ _ _ _ _ v); try done.
  - apply String.eqb_refl.
  - cbn [target]. by rewrite Hs.
Qed.

(** Failing statements write nothing. *)
Lemma stmt_fail {A} (q : Time → DB → result A * DB) w e w' :
  stmt q w = (Fail e, w') → w_db w' = w_db w.
Proof. intros H. by apply stmt_inv in H as (_ & _ & _ & H & _). Qed.

Lemma no_row_update p f (w : World) b w' :
  update_devices p f w = (Ok b, w') → b = false → w_db w' = w_db w.
Proof.
  intros H ->. apply update_devices_ok in H as (now & Hb & ->).
  by rewrite update_none, set_devices_same by done.
Qed.

Lemma updateStatus_fail t imei a b w e w' :
  updateStatus t imei a b w = (Fail e, w') → w_db w' = w_db w.
Proof.
  unfold updateStatus. intros H. apply bind_fail_inv in H as [H|(n & w1 & H1 & H)].
  - apply map_err_fail_inv in H as (? & H & _). by eapply stmt_fail.
  - apply map_err_ok_inv in H1. destruct n; [discriminate H|]. injection H as _ <-.
    by eapply no_row_update.
Qed.
Lemma SetDeviceSecret_fail t imei h a w e w' :
  SetDeviceSecret t imei h a w = (Fail e, w') → w_db w' = w_db w.
Proof.
  unfold SetDeviceSecret. intros H. apply bind_fail_inv in H as [H|(n & w1 & H1 & H)].
  - apply map_err_fail_inv in H as (? & H & _). by eapply stmt_fail.
  - apply map_err_ok_inv in H1. destruct n; [discriminate H|]. injection H as _ <-.
    by eapply no_row_update.
Qed.
Lemma find_own_fail t imei w e w' : find_own t imei w = (Fail e, w') → w_db w' = w_db w.
Proof. intros H. pose proof (find_own_same t imei w) as Hs. rewrite H in Hs. by symmetry. Qed.
Lemma lift_fail {A} (r : result A) (w w' : World) e : SM_lift r w = (Fail e, w') → w' = w.
Proof. by intros [= _ <-]. Qed.
Lemma log_no_fail a i o n w e w' : log_device a i o n w = (Fail e, w') → False.
Proof. discriminate 1. Qed.
Lemma ignore_no_fail {A} (m : M A) w e w' : SM_ignore m w = (Fail e, w') → False.
Proof. discriminate 1. Qed.
Lemma try_no_fail {A} (m : M A) w e w' : SM_try m w = (Fail e, w') → False.
Proof. unfold SM_try. by destruct (m w). Qed.

Lemma lifecycle_fail o ctx imei w e w' :
  run_lifecycle o ctx imei w = (Fail e, w') → w_db w' = w_db w.
Proof.
  destruct o as [v|pepper secret|]; cbn [run_lifecycle]; intros H.
  - unfold AssignDevice in H. apply bind_fail_inv in H as [H|(t & w1 & H1 & H)].
    { by apply lift_fail in H as ->. }
    apply tenant_ok in H1 as [-> ->]. destruct (_ || _); [by injection H as _ <-|].
    apply bind_fail_inv in H as [H|(x & w1 & H1 & H)]; [by eapply find_own_fail|].
    apply find_own_ok in H1 as (<- & _). destruct (negb _); [by injection H as _ <-|].
    apply bind_fail_inv in H as [H|(y & w2 & _ & H)]; [|by apply log_no_fail in H].
    apply map_err_fail_inv in H as (? & H & _). by eapply stmt_fail.
  - apply bind_fail_inv in H as [H|(y & w2 & _ & H)]; [|discriminate H].
    unfold ActivateDevice in H. apply bind_fail_inv in H as [H|(t & w1 & H1 & H)].
    { by apply lift_fail in H as ->. }
    apply tenant_ok in H1 as [-> ->].
    apply bind_fail_inv in H as [H|(x & w1 & H1 & H)]; [by eapply find_own_fail|].
    apply find_own_ok in H1 as (<- & _). destruct (negb _); [by injection H as _ <-|].
    apply bind_fail_inv in H as [H|(s & w2 & H1 & H)].
    { apply map_err_fail_inv in H as (? & H & _). by apply lift_fail in H as ->. }
    apply map_err_ok_inv in H1. destruct secret; [|discriminate H1]. injection H1 as _ <-.
    apply bind_fail_inv in H as [H|(now & w3 & H1 & H)]; [discriminate H|]. injection H1 as _ <-.
    apply bind_fail_inv in H as [H|(y & w3 & _ & H)].
    { apply map_err_fail_inv in H as (? & H & _). by apply SetDeviceSecret_fail in H. }
    apply bind_fail_inv in H as [H|(y1 & w4 & _ & H)]; [by apply ignore_no_fail in H|].
    apply bind_fail_inv in H as [H|(y2 & w5 & _ & H)]; [by apply log_no_fail in H|].
    apply bind_fail_inv in H as [H|(y3 & w6 & _ & H)]; [by apply try_no_fail in H|discriminate H].
  - unfold RetireDevice in H. apply bind_fail_inv in H as [H|(t & w1 & H1 & H)].
    { by apply lift_fail in H as ->. }
    apply tenant_ok in H1 as [-> ->].
    apply bind_fail_inv in H as [H|(x & w1 & H1 & H)]; [by eapply find_own_fail|].
    apply find_own_ok in H1 as (<- & _). destruct (String.eqb _ _); [by injection H as _ <-|].
    destruct (negb _); [by injection H as _ <-|].
    apply bind_fail_inv in H as [H|(y & w2 & _ & H)]; [by eapply updateStatus_fail|by apply log_no_fail in H].
Qed.

(** assigning, activating and retiring a device refine the lifecycle: on
    success the device of that IMEI, which is the tenant's, takes the edge of
    its status and carries what the operation sets, and every other device
    is as it was; on failure the database is unchanged. *)
Theorem lifecycle_refines o ctx imei w r w' :
  run_lifecycle o ctx imei w = (r, w') →
  match r with
  | Ok _ => steps o ctx imei (w_db w) (w_db w')
  | Fail _ => w_db w' = w_db w
  end.
Proof.
  intros H. destruct r as [[]|e]; [|by apply lifecycle_fail in H].
  destruct o as [v|pepper secret|]; cbn [run_lifecycle] in H.
  - by apply AssignDevice_steps.
  - run_ok H. injection H as <-. destruct v as [dev raw]. by apply ActivateDevice_steps in Hrun as [_ H].
  - by apply RetireDevice_steps.
Qed.

(** retiring a device does not take it off its vehicle: the vehicle never
    takes another device, whatever its IMEI and tenant. *)
Theorem retired_keeps_vehicle ctx imei w w1 x v ctx' imei' w2 :
  device_of imei (w_db w) = Some x → VehicleID x = Some v →
  RetireDevice ctx imei w = (Ok tt, w1) →
  w_db w2 = w_db w1 → imei' ≠ imei →
  ∃ e w3, AssignDevice ctx' imei' v w2 = (Fail e, w3) ∧ w_db w3 = w_db w2.
Proof.
  intros Hx Hv H1 Hd Hne. apply RetireDevice_steps in H1 as (y & x' & Hy & _ & _ & Hx' & [Hv' _] & _).
  rewrite Hx in Hy. injection Hy as <-. rewrite <- Hd in Hx'.
  destruct (AssignDevice ctx' imei' v w2) as [[[]|e] w3] eqn:H2.
  - exfalso. unfold AssignDevice in H2. run_ok H2. apply tenant_ok in Hrun as [-> ->].
    destruct (_ || _); [discriminate H2|]. run_ok H2. apply find_own_ok in Hrun as (Hd' & Hz & Ht).
    destruct (negb _); [discriminate H2|]. run_ok H2. destruct v1.
    apply SetVehicle_ok in Hrun as (now & Hc & _). unfold vehicle_conflict in Hc.
    rewrite Hd' in Hc. apply select_one_Some in Hz as [Hz Hzi%by_imei_true], Hx' as [Hx' Hxi%by_imei_true].
    rewrite (proj2 (exists_row_spec _ _)) in Hc
      by (exists v0; split; [done|]; unfold by_imei_tenant; by rewrite Ht, Hzi, !String.eqb_refl).
    rewrite (proj2 (exists_row_spec _ _)) in Hc; [discriminate Hc|].
    exists x'. split; [done|]. unfold on_vehicle, by_imei_tenant.
    rewrite (bool_decide_eq_true_2 _ (eq_trans Hv' Hv)).
    by rewrite Hxi, (proj2 (String.eqb_neq imei imei')) by done.
  - exists e, w3. split; [done|]. by apply (lifecycle_fail (LAssign v)) in H2.
Qed.
End Store.

(** ** A small registry, for concrete runs *)
Definition demo_json : Json :=
  {| MarshalMap := λ _, Some "{}"%string; MarshalFrame := f_IMEI; UnmarshalIMEI := Ok |}.
Definition acme : option string := Some "acme"%string.
Definition register (imei : string) : RegisterDeviceCommand :=
  mkRegister imei None "" None None None None None None.
Definition demo_ops : list service_op :=
  [OpRegister acme (register "i1"); OpAssign acme "i1" "v1"; OpActivate "pepper" (Ok "s3cret"%string) acme "i1"].
Definition demo_devices : World :=
  snd (@SM_iter World _ (@run_op demo_env demo_json)
         (demo_ops ++ [OpRegister acme (register "i2")])%list (world demo_db)).

Lemma registry_invariant_witness :
  registry_inv demo_db ∧
  registry_inv (w_db (snd (SM_iter (@run_op demo_env demo_json) demo_ops (world demo_db)))).
Proof.
  assert (H : registry_inv demo_db).
  { split; [constructor|]. intros x y v Hx. by apply not_elem_of_nil in Hx. }
  split; [exact H|]. by apply (@registry_invariant demo_env demo_json demo_ops (world demo_db)).
Defined.

Lemma lifecycle_refines_witness :
  let run := @run_lifecycle demo_env demo_json LRetire acme "i1" demo_devices in
  fst run = Ok tt ∧ steps LRetire acme "i1" (w_db demo_devices) (w_db (snd run)).
Proof.
  intros run. assert (H : run = (Ok tt, snd run)) by (vm_compute; reflexivity).
  split; [by rewrite H|].
  exact (@lifecycle_refines demo_env demo_json LRetire acme "i1" demo_devices (Ok tt) _ H).
Defined.

Lemma retired_keeps_vehicle_witness :
  let r1 := @RetireDevice demo_env demo_json acme "i1" demo_devices in
  fst r1 = Ok tt ∧
  ∃ e w3, @AssignDevice demo_env demo_json acme "i2" "v1" (snd r1) = (Fail e, w3) ∧
    w_db w3 = w_db (snd r1).
Proof.
  intros r1. assert (H : r1 = (Ok tt, snd r1)) by (vm_compute; reflexivity).
  split; [by rewrite H|].
  assert (Hx : VehicleID <$> device_of "i1" (w_db demo_devices) = Some (Some "v1"%string))
    by (vm_compute; reflexivity).
  destruct (device_of "i1" (w_db demo_devices)) as [x|] eqn:Hd; [|discriminate Hx].
  apply (@retired_keeps_vehicle demo_env demo_json acme "i1" demo_devices (snd r1) x "v1" acme "i2"
           (snd r1) Hd); [by injection Hx|exact H|reflexivity|discriminate].
Defined.
End Devices.
