(* ===== verification/Telemetry.v ===== *)
(** * Telemetry ingestion

    [internal/telemetry/odometer_guard.go], [ingest.go], [sync.go],
    [http_ingest.go] and [mqtt_ingest.go]: the canonical pipeline from a raw
    frame to the position log, the latest position, the snapshots and the
    outbox, in one transaction, with replay detection and the odometer and
    fuel guards; and the front doors that feed it.  The SQL orders device
    times by the text the driver stores, which keeps the offset of the
    device; that text is a parameter. *)
From stdpp Require Import base decidable list strings option pretty.
From Stdlib Require Import ZArith Lia Ascii String.
From S2P Require Import Prelude GoFloat GoCrypto Shared GoMath GoTime Events Database Outbox.
From S2P Require Import Repository Devices.
Open Scope Z_scope.

Module Ingest.
Import DeviceRow Devices.

Record IngestConfig := mkIngestConfig {
  OdometerMaxRegressionKM : float64; FuelClampDeltaPct : float64 }.

Record IngestResult := mkResult {
  Accepted : bool; Deduped : bool; Quarantined : bool; Reason : string }.
Definition zero_result : IngestResult := mkResult false false false "".

(** The payload of [telemetry.snapshot]. *)
Record BusSnapshot := mkBusSnapshot {
  bs_vehicle_id : string; bs_trip_id : string; bs_lat : float64; bs_lng : float64;
  bs_speed : float64; bs_fuel_level : option float64; bs_odometer : option float64;
  bs_timestamp : Time }.
Definition BusEventTelemetrySnapshot : string := "telemetry.snapshot".

(** The order of texts in SQL. *)
Lemma string_compare_refl s : String.compare s s = Eq.
Proof. induction s as [|a s IH]; [done|]. cbn. unfold Ascii.compare. by rewrite N.compare_refl. Qed.
Lemma ltb_le (s t : string) : String.ltb s t = true → String.le s t.
Proof. unfold String.ltb, String.le, String.leb. by destruct (String.compare s t). Qed.
Lemma not_ltb_le (s t : string) : String.ltb s t = false → String.le t s.
Proof.
  unfold String.ltb, String.le, String.leb. rewrite String.compare_antisym.
  by destruct (String.compare t s).
Qed.

Section Pipeline.
Context {env : Env} {json : Json} {columns : Columns}.
Context (cfg : IngestConfig).

(** ** The guards (odometer_guard.go) *)
Definition positions (d : DB) : list PositionRow := telemetry_positions (ops d).
Definition device_time (p : PositionRow) : Time := rd_DeviceTime (po_Reading p).
(** The column [device_time]. *)
Definition time_column (r : Reading) : string := time_text (rd_DeviceTime r) (rd_Offset r).

(** [ORDER BY device_time DESC LIMIT 1]; among equals the first in the table. *)
Fixpoint latest (l : list PositionRow) : option PositionRow :=
  match l with
  | [] => None
  | p :: l' =>
      match latest l' with
      | Some q => if String.ltb (time_column (po_Reading p)) (time_column (po_Reading q)) then Some q else Some p
      | None => Some p
      end
  end.

Definition last_value (f : Reading → option float64) (imei : string) (d : DB) : option float64 :=
  latest (select_many (λ p, String.eqb (po_IMEI p) imei && bool_decide (is_Some (f (po_Reading p))))
            (positions d)) ≫= λ p, f (po_Reading p).

(** Read outside the transaction, which has not written the table yet. *)
Definition GetLastOdometer (imei : string) : M (option float64) :=
  query (λ _, last_value rd_Odometer imei).
Definition GetLastFuelLevel (imei : string) : M (option float64) :=
  query (λ _, last_value rd_FuelLevel imei).

Definition CheckOdometer (imei : string) (odometer : float64) : M (float64 * bool) :=
  if fleb odometer f0 then mret (odometer, false)
  else
    last ← SM_wrap "odometer guard lookup" (GetLastOdometer imei);
    match last with
    | None => mret (odometer, false)
    | Some lastOdometer =>
        let regression := fsub lastOdometer odometer in
        if fltb (OdometerMaxRegressionKM cfg) regression then
          _ ← log_device "odometer_rollback_guard" imei
                (Some [("last_odometer", JNumber lastOdometer)]%string)
                (Some [("frame_odometer", JNumber odometer); ("regression_km", JNumber regression);
                       ("kept_odometer", JNumber lastOdometer)]%string);
          mret (lastOdometer, true)
        else mret (odometer, false)
    end.

(** Last value plus or minus the allowed step, within 0 and 100. *)
Definition clamp_step (lastFuel fuelLevel : float64) : float64 :=
  let clamped := if fltb lastFuel fuelLevel then fadd lastFuel (FuelClampDeltaPct cfg)
                 else fsub lastFuel (FuelClampDeltaPct cfg) in
  let clamped := if fltb clamped f0 then f0 else clamped in
  if fltb f100 clamped then f100 else clamped.

Definition ClampFuelLevel (imei : string) (fuelLevel : float64) : M (float64 * bool) :=
  if fleb fuelLevel f0 then mret (fuelLevel, false)
  else
    last ← SM_wrap "fuel clamp lookup" (GetLastFuelLevel imei);
    match last with
    | None => mret (fuelLevel, false)
    | Some lastFuel =>
        let delta := fabs (fsub fuelLevel lastFuel) in
        if fltb (FuelClampDeltaPct cfg) delta then
          let clamped := clamp_step lastFuel fuelLevel in
          _ ← log_device "fuel_level_clamp" imei
                (Some [("last_fuel", JNumber lastFuel)]%string)
                (Some [("frame_fuel", JNumber fuelLevel); ("delta", JNumber delta);
                       ("clamped_to", JNumber clamped)]%string);
          mret (clamped, true)
        else mret (fuelLevel, false)
    end.

(** An optional value through its guard: replaced only when it fired. *)
Definition guarded (prefix : string) (guard : float64 → M (float64 * bool)) (x : option float64)
    : M (option float64) :=
  match x with
  | None => mret None
  | Some v =>
      r ← SM_wrap prefix (guard v);
      mret (if snd r : bool then Some (fst r) else x)
  end.

(** ** The statements (ingest.go) *)
(** The partial unique index on [(imei, provider_msg_id)], and the key. *)
Definition raw_conflict (x y : RawEventRow) : bool :=
  String.eqb (raw_ID y) (raw_ID x) ||
  (String.eqb (raw_IMEI y) (raw_IMEI x) && bool_decide (is_Some (raw_MsgID x)) &&
   bool_decide (raw_MsgID y = raw_MsgID x)).

Definition raw_event (id tenant : string) (f : RawFrame) : RawEventRow :=
  mkRawEvent id tenant (f_IMEI f) (f_DeviceTime f) (f_Provider f)
    (if is_empty (f_ProviderMsgID f) then None else Some (f_ProviderMsgID f)) (MarshalFrame f).

(** [INSERT OR IGNORE]: was the row ignored? *)
Definition insertRawEvent (id tenant : string) (f : RawFrame) : M bool :=
  let x := raw_event id tenant f in
  exec (λ _ d,
    if exists_row (raw_conflict x) (telemetry_raw_events (ops d)) then (Ok true, d)
    else (Ok false, set_telemetry_raw_events (telemetry_raw_events (ops d) ++ [x]) d)).

Definition reading (f : RawFrame) (odometer fuel : option float64) : Reading :=
  mkReading (f_DeviceTime f) (f_Offset f) (f_Latitude f) (f_Longitude f) (f_Speed f) (f_Heading f)
    (f_Ignition f) (f_EngineHours f) (f_Accuracy f) fuel odometer (f_DriverID f) (f_TripID f).

Definition insertPosition (p : PositionRow) : M unit :=
  exec (λ _ d,
    if exists_row (λ q, String.eqb (po_ID q) (po_ID p)) (positions d)
    then (Fail (Err "UNIQUE constraint failed: telemetry_positions.id"), d)
    else (Ok tt, set_telemetry_positions (positions d ++ [p]) d)).

Definition on_latest (v : string) (r : LatestRow) : bool := String.eqb (la_VehicleID r) v.
(** [WHERE excluded.device_time > vehicle_latest_position.device_time]: only
    a greater text replaces the row. *)
Definition newer (x r : LatestRow) : LatestRow :=
  if String.ltb (time_column (la_Reading r)) (time_column (la_Reading x)) then x else r.

Definition upsertLatestPosition (x : LatestRow) : M unit :=
  exec (λ _ d,
    let l := vehicle_latest_position (ops d) in
    (Ok tt, set_vehicle_latest_position
       (if exists_row (on_latest (la_VehicleID x)) l
        then update_where (on_latest (la_VehicleID x)) (newer x) l
        else l ++ [x]) d)).

Definition snapshot (id vehicleID : string) (r : Reading) : SnapshotRow :=
  mkSnapshot id (Some (rd_TripID r)) (Some vehicleID) (rd_DeviceTime r) (Some (rd_Latitude r))
    (Some (rd_Longitude r)) (Some (rd_Speed r)) (rd_FuelLevel r) (rd_Odometer r).

(** [INSERT OR REPLACE]. *)
Definition insertSnapshot (s : SnapshotRow) : M unit :=
  exec (λ _ d,
    (Ok tt, set_telemetry_snapshots
       (delete_where (λ r, String.eqb (sn_ID r) (sn_ID s)) (telemetry_snapshots (ops d)) ++ [s]) d)).

(** ** The pipeline *)
Definition quarantineFrame (f : RawFrame) (reason : string) : M unit :=
  dev ← SM_try (GetByIMEI (f_IMEI f));
  let tenant := match dev with Ok (Some x) => TenantID x | _ => DefaultTenant end in
  id ← GenerateUUID;
  now ← Now;
  Quarantine (mkQuarantine id tenant (f_IMEI f) (f_Provider f) (MarshalFrame f) reason
                QuarantineStatusOpen None None now).

Definition position_event (id tenant vehicleID : string) (f : RawFrame) (r : Reading)
    (receivedAt : Time) : Position :=
  mkPosition id tenant (f_IMEI f) vehicleID (f_DriverID f) (f_TripID f) (f_Latitude f)
    (f_Longitude f) (f_Speed f) (f_Heading f) (f_Ignition f) (f_EngineHours f) (f_Accuracy f)
    (rd_FuelLevel r) (rd_Odometer r) (f_DeviceTime f) receivedAt.

(** Steps 5 to 11 of an accepted frame. *)
Definition accept_frame (device : Device) (f : RawFrame) (rawEventID : string)
    : M (IngestResult * option Position) :=
  odometer ← guarded "odometer guard" (CheckOdometer (f_IMEI f)) (f_Odometer f);
  fuel ← guarded "fuel clamp" (ClampFuelLevel (f_IMEI f)) (f_FuelLevel f);
  let vehicleID := default ""%string (VehicleID device) in
  let r := reading f odometer fuel in
  positionID ← GenerateUUID;
  receivedAt ← Now;
  _ ← SM_wrap "position insert"
        (insertPosition (mkPositionRow positionID (TenantID device) (f_IMEI f) receivedAt vehicleID
                           (f_Provider f) rawEventID r));
  _ ← match VehicleID device with
      | Some v => SM_wrap "latest position upsert"
                    (upsertLatestPosition (mkLatestRow v (TenantID device) (f_IMEI f) receivedAt r))
      | None => mret tt
      end;
  snapshotID ← GenerateUUID;
  _ ← SM_wrap "snapshot insert" (insertSnapshot (snapshot snapshotID vehicleID r));
  let event := position_event positionID (TenantID device) vehicleID f r receivedAt in
  _ ← SM_wrap "outbox write"
        (SaveEvents (if is_empty vehicleID then f_IMEI f else vehicleID) "Vehicle"
           [PositionEvent event]);
  _ ← SM_wrap "last_seen update" (UpdateLastSeen (f_IMEI f));
  mret (mkResult true false false "", Some event).

Definition inactive_reason (status : string) : string :=
  if String.eqb status DeviceStatusQuarantined then QuarantineReasonQuarantinedDevice
  else QuarantineReasonRetiredDevice.

(** The transaction of [IngestRawFrame]. *)
Definition ingest_tx (f : RawFrame) : M (IngestResult * option Position) :=
  UoWExecute
    (device ← SM_wrap "device lookup" (GetByIMEI (f_IMEI f));
     match device with
     | None =>
         _ ← quarantineFrame f QuarantineReasonUnknownDevice; mret (zero_result, None)
     | Some device =>
         if negb (String.eqb (Status device) DeviceStatusActive) then
           _ ← quarantineFrame f (inactive_reason (Status device)); mret (zero_result, None)
         else
           rawEventID ← GenerateUUID;
           deduped ← SM_wrap "raw event insert" (insertRawEvent rawEventID (TenantID device) f);
           if deduped : bool then mret (mkResult true true false "", None)
           else accept_frame device f rawEventID
     end).

Definition bus_snapshot (p : Position) : BusSnapshot :=
  mkBusSnapshot (pos_VehicleID p) (pos_TripID p) (pos_Latitude p) (pos_Longitude p) (pos_Speed p)
    (pos_FuelLevel p) (pos_Odometer p) (pos_DeviceTime p).

(** The ingestor's bus, and the state of its subscribers beside the world. *)
Context {S : Type} (bus : InMemoryBus BusSnapshot S).
Abbreviation IM := (SM (World * S)).

Definition in_world {A} (m : M A) : IM A := λ s,
  match m (fst s) with (r, w) => (r, (w, snd s)) end.

(** Step 12 after the commit; a result of a failed call is not looked at. *)
Definition IngestRawFrame (f : RawFrame) : IM IngestResult :=
  r ← in_world (ingest_tx f);
  _ ← match snd r with
      | Some p =>
          if Accepted (fst r) && negb (Deduped (fst r)) then
            SM_modify (λ s, (fst s, Publish bus BusEventTelemetrySnapshot (bus_snapshot p) (snd s)))
          else mret tt
      | None => mret tt
      end;
  mret (fst r).

Definition quarantineUnknown (imei : string) (f : RawFrame) : M unit :=
  id ← GenerateUUID;
  now ← Now;
  Quarantine (mkQuarantine id DefaultTenant imei (f_Provider f) (MarshalFrame f)
                QuarantineReasonUnknownDevice QuarantineStatusOpen None None now).

(** [auditSpoof]. *)
Definition auditSpoof (topicIMEI payloadIMEI : string) : M unit :=
  LogAction "mqtt_spoof_guard" "telemetry_devices" topicIMEI
    (Some [("topic_imei", JString topicIMEI)]%string)
    (Some [("payload_imei", JString payloadIMEI)]%string).

(** ** The mobile front door (sync.go) *)
Record GPSLogPayload := mkLog {
  lg_ID : Z; lg_Latitude : float64; lg_Longitude : float64; lg_Timestamp : string }.
Record SyncBatchRequest := mkSync {
  sy_DeviceID : string; sy_DriverID : string; sy_Logs : list GPSLogPayload }.
Record TelemetrySnapshotPayload := mkSnap {
  sp_ID : string; sp_TripID : string; sp_VehicleID : string; sp_Timestamp : string;
  sp_Latitude : float64; sp_Longitude : float64; sp_Speed : float64; sp_FuelLevel : float64;
  sp_Odometer : float64 }.

(** Errors are dropped; [activated_at] is no column of the INSERT. *)
Definition ensureSyntheticDevice (imei : string) : M unit :=
  if is_empty imei then mret tt
  else
    existing ← SM_try (GetByIMEI imei);
    match existing with
    | Ok (Some _) => mret tt
    | _ =>
        now ← Now;
        id ← GenerateUUID;
        SM_ignore (InsertDevice
          (mkDevice id DefaultTenant imei None None None None None "mobile_app"
             DeviceStatusActive None None (Some now) None None 0 0))
    end.

(** [{"source":"..."}]. *)
Definition dquote : string := String "034"%char "".
Definition source_json (v : string) : string :=
  ("{" +:+ dquote +:+ "source" +:+ dquote +:+ ":" +:+ dquote +:+ v +:+ dquote +:+ "}")%string.

Definition log_frame (imei : string) (l : GPSLogPayload) (ts : Time * Z) : RawFrame :=
  mkFrame imei (fst ts) (snd ts) (lg_Latitude l) (lg_Longitude l) f0 f0 None None None None None "" "" "own"
    ("sync:" +:+ pretty (lg_ID l))%string (source_json "sync_batch").

(** One log of a batch; its id, if its frame was accepted. *)
Definition sync_log (req : SyncBatchRequest) (l : GPSLogPayload) : IM (list Z) :=
  match Parse_rfc3339_in (lg_Timestamp l) with
  | None => mret []
  | Some ts =>
      let synthetic := is_empty (sy_DeviceID req) in
      let imei := if synthetic then sy_DriverID req else sy_DeviceID req in
      _ ← (if synthetic then in_world (ensureSyntheticDevice imei) else mret tt);
      r ← SM_try (IngestRawFrame (log_frame imei l ts));
      mret (match r with Ok r => if Accepted r then [lg_ID l] else [] | Fail _ => [] end)
  end.

Fixpoint sync_logs (req : SyncBatchRequest) (logs : list GPSLogPayload) : IM (list Z) :=
  match logs with
  | [] => mret []
  | l :: logs' => ids ← sync_log req l; rest ← sync_logs req logs'; mret (ids ++ rest)%list
  end.

(** The [synced_ids] of the response. *)
Definition HandleTelemetrySync (req : SyncBatchRequest) : IM (list Z) := sync_logs req (sy_Logs req).

(** What a handler answers. *)
Inductive response :=
| BadRequest (msg : string)
| Unauthorized (msg : string)
| NotFound (msg : string)
| ServerError (msg : string)
| Quarantine202 (reason : string)
| Ingested (deduped : bool)
| SnapshotStored (success quarantined : bool).

Definition snapshot_frame (imei : string) (p : TelemetrySnapshotPayload) (at_ : Time * Z) : RawFrame :=
  mkFrame imei (fst at_) (snd at_) (sp_Latitude p) (sp_Longitude p) (sp_Speed p) f0 None None None
    (Some (sp_FuelLevel p)) (Some (sp_Odometer p)) "" (sp_TripID p) "own"
    ("snap:" +:+ sp_ID p)%string (source_json "snapshot").

(** The snapshot as decoded from the body. *)
Definition HandleTelemetrySnapshots (p : TelemetrySnapshotPayload) : IM response :=
  if is_empty (sp_VehicleID p) then mret (BadRequest "Invalid snapshot payload")
  else
    d ← SM_try (in_world (GetByVehicleID (sp_VehicleID p)));
    let imei := match d with Ok (Some x) => IMEI x | _ => ""%string end in
    match Parse_rfc3339_in (sp_Timestamp p) with
    | None => mret (BadRequest "Invalid timestamp")
    | Some at_ =>
        r ← SM_try (IngestRawFrame (snapshot_frame imei p at_));
        mret (match r with
              | Ok r => SnapshotStored (Accepted r) (Quarantined r)
              | Fail _ => ServerError "pipeline failed"
              end)
    end.

(** ** The device front doors (http_ingest.go, mqtt_ingest.go) *)
Definition validateToken (pepper token : string) (storedHash : option string) : bool :=
  match storedHash with
  | None => false
  | Some h => if is_empty h then false else String.eqb (hmacSHA256 pepper token) h
  end.

Definition with_identity (imei : string) (f : RawFrame) : RawFrame :=
  mkFrame imei (f_DeviceTime f) (f_Offset f) (f_Latitude f) (f_Longitude f) (f_Speed f)
    (f_Heading f) (f_Ignition f) (f_EngineHours f) (f_Accuracy f) (f_FuelLevel f) (f_Odometer f) (f_DriverID f)
    (f_TripID f) "own" (f_ProviderMsgID f) (f_RawPayload f).

Definition ingest_response (r : result IngestResult) : response :=
  match r with
  | Fail _ => ServerError "pipeline failed"
  | Ok r => if Quarantined r then Quarantine202 (Reason r) else Ingested (Deduped r)
  end.

(** [body] is the decoded request body. *)
Definition HandleDeviceGPS (pepper imei token : string) (body : result RawFrame) : IM response :=
  if is_empty imei then mret (BadRequest "missing imei")
  else if is_empty token then mret (Unauthorized "missing device token")
  else
    d ← SM_try (in_world (GetByIMEI imei));
    match d with
    | Fail _ => mret (ServerError "device lookup failed")
    | Ok None =>
        _ ← SM_ignore (in_world (quarantineUnknown imei (bare_frame imei)));
        mret (NotFound "unknown imei")
    | Ok (Some device) =>
        if negb (String.eqb (Status device) DeviceStatusActive) then
          _ ← SM_ignore (in_world (quarantineFrame (bare_frame imei) QuarantineReasonRetiredDevice));
          mret (Quarantine202 QuarantineReasonRetiredDevice)
        else if negb (validateToken pepper token (DeviceSecretHash device)) then
          mret (Unauthorized "bad token")
        else
          match body with
          | Fail _ => mret (BadRequest "invalid body")
          | Ok f =>
              r ← SM_try (IngestRawFrame (with_identity imei f));
              mret (ingest_response r)
          end
    end.

(** The pieces of a topic between slashes. *)
Fixpoint split_slash (s : string) (cur : string) : list string :=
  match s with
  | EmptyString => [cur]
  | String c s' =>
      if Ascii.eqb c "/"%char then cur :: split_slash s' ""
      else split_slash s' (cur +:+ String c "")%string
  end.

Definition extractIMEIFromTopic (topic : string) : string :=
  match split_slash topic "" with
  | [a; b; c; imei; e] =>
      if String.eqb a "avandab" && String.eqb b "telemetry" && String.eqb c "devices" &&
         String.eqb e "gps" then imei else ""
  | _ => ""
  end.

(** [frame] is the payload's, with its IMEI, sequence number and time still
    as the message has them. *)
Record mqttPayload := mkMqtt {
  mq_IMEI : string; mq_Seq : Z; mq_DeviceTime : string; mq_Frame : RawFrame }.

(** A date and time without an offset is in UTC. *)
Definition parseDeviceTime (s : string) : option (Time * Z) :=
  match Parse_rfc3339_in s with Some t => Some t | None => (λ t, (t, 0)) <$> Parse_second s end.

Definition mqtt_frame (imei : string) (p : mqttPayload) : RawFrame :=
  let f := mq_Frame p in
  let at_ := if is_empty (mq_DeviceTime p) then (0, 0)
             else default (0, 0) (parseDeviceTime (mq_DeviceTime p)) in
  mkFrame imei (fst at_) (snd at_)
    (f_Latitude f) (f_Longitude f) (f_Speed f) (f_Heading f) (f_Ignition f) (f_EngineHours f)
    (f_Accuracy f) (f_FuelLevel f) (f_Odometer f) "" "" "own"
    ("mqtt:" +:+ pretty (mq_Seq p))%string (f_RawPayload f).

(** Logging, and the SOS flag that is only logged, are left out. *)
Definition HandleMessage (topic : string) (payload : result mqttPayload) : IM unit :=
  let imei := extractIMEIFromTopic topic in
  if is_empty imei then mret tt
  else
    match payload with
    | Fail _ => mret tt
    | Ok p =>
        if negb (is_empty (mq_IMEI p)) && negb (String.eqb (mq_IMEI p) imei) then
          SM_ignore (in_world (auditSpoof imei (mq_IMEI p)))
        else SM_ignore (IngestRawFrame (mqtt_frame imei p))
    end.

(** ** What the pipeline stores

    The guards as functions of the last value. *)
Definition guarded_odometer (last : option float64) (v : float64) : float64 :=
  if fleb v f0 then v
  else match last with
       | Some l => if fltb (OdometerMaxRegressionKM cfg) (fsub l v) then l else v
       | None => v
       end.
Definition guarded_fuel (last : option float64) (v : float64) : float64 :=
  if fleb v f0 then v
  else match last with
       | Some l => if fltb (FuelClampDeltaPct cfg) (fabs (fsub v l)) then clamp_step l v else v
       | None => v
       end.

Definition stored_reading (d : DB) (f : RawFrame) : Reading :=
  reading f (guarded_odometer (last_value rd_Odometer (f_IMEI f) d) <$> f_Odometer f)
    (guarded_fuel (last_value rd_FuelLevel (f_IMEI f) d) <$> f_FuelLevel f).

Lemma log_device_only a i o n w : ∃ rows w',
  log_device a i o n w = (Ok tt, w') ∧ w_db w' = set_audit_logs rows (w_db w).
Proof. apply log_device_ok. Qed.

Lemma set_audit_same d : set_audit_logs (audit_logs d) d = d.
Proof. by destruct d. Qed.

Lemma lookup_ok {A} p (q : Time → DB → A) w a w' :
  SM_wrap p (query q) w = (Ok a, w') → w_db w' = w_db w ∧ ∃ now, a = q now (w_db w).
Proof. intros H%map_err_ok_inv. apply query_inv in H as (Hd & _ & ->). eauto. Qed.

Lemma CheckOdometer_ok imei v w v' b w' :
  CheckOdometer imei v w = (Ok (v', b), w') →
  only_audit (w_db w) (w_db w') ∧
  (if b then v' else v) = guarded_odometer (last_value rd_Odometer imei (w_db w)) v.
Proof.
  unfold CheckOdometer, guarded_odometer. destruct (fleb v f0).
  { intros [= -> <- <-]. split; [reflexivity|done]. }
  intros H. run_ok H. apply lookup_ok in Hrun as (Hd & now & ->).
  destruct (last_value _ _ _) as [l|];
    [|injection H as -> <- <-; split; [rewrite Hd; reflexivity|done]].
  destruct (fltb _ _); [|injection H as -> <- <-; split; [rewrite Hd; reflexivity|done]].
  run_ok H. lazymatch type of Hrun with log_device ?a ?i ?o ?n ?st = _ =>
    destruct (log_device_only a i o n st) as (rows & w2 & Hl & Hd2) end.
  rewrite Hl in Hrun. injection Hrun as <- <-. injection H as <- <- <-.
  split; [|done]. rewrite Hd2, Hd. by eexists.
Qed.

Lemma ClampFuelLevel_ok imei v w v' b w' :
  ClampFuelLevel imei v w = (Ok (v', b), w') →
  only_audit (w_db w) (w_db w') ∧
  (if b then v' else v) = guarded_fuel (last_value rd_FuelLevel imei (w_db w)) v.
Proof.
  unfold ClampFuelLevel, guarded_fuel. destruct (fleb v f0).
  { intros [= -> <- <-]. split; [reflexivity|done]. }
  intros H. run_ok H. apply lookup_ok in Hrun as (Hd & now & ->).
  destruct (last_value _ _ _) as [l|];
    [|injection H as -> <- <-; split; [rewrite Hd; reflexivity|done]].
  destruct (fltb _ _); [|injection H as -> <- <-; split; [rewrite Hd; reflexivity|done]].
  run_ok H. lazymatch type of Hrun with log_device ?a ?i ?o ?n ?st = _ =>
    destruct (log_device_only a i o n st) as (rows & w2 & Hl & Hd2) end.
  rewrite Hl in Hrun. injection Hrun as <- <-. injection H as <- <- <-.
  split; [|done]. rewrite Hd2, Hd. by eexists.
Qed.

Lemma guarded_ok p guard (spec : DB → float64 → float64) x w v w' :
  (∀ a w1 v' (b : bool) w2, guard a w1 = (Ok (v', b), w2) →
     only_audit (w_db w1) (w_db w2) ∧ (if b then v' else a) = spec (w_db w1) a) →
  guarded p guard x w = (Ok v, w') →
  only_audit (w_db w) (w_db w') ∧ v = spec (w_db w) <$> x.
Proof.
  intros Hg. unfold guarded. destruct x as [a|]; [|intros [= <- <-]; split; [reflexivity|done]].
  intros H. run_ok H. apply map_err_ok_inv in Hrun. destruct v0 as [v' b].
  apply Hg in Hrun as [Ha Hv]. injection H as <- <-. split; [done|]. cbn in *. rewrite <- Hv.
  by destruct b.
Qed.

(** The row of an accepted frame, and the tables it leaves. *)
Definition upserted (x : LatestRow) (l : list LatestRow) : list LatestRow :=
  if exists_row (on_latest (la_VehicleID x)) l
  then update_where (on_latest (la_VehicleID x)) (newer x) l
  else l ++ [x].

Definition accepted_db (x : Device) (f : RawFrame) (rawid pid sid : string) (rcv seen_ : Time)
    (audits : list AuditRow) (rows : list OutboxRow) (d : DB) : DB :=
  let r := stored_reading d f in
  let v := default ""%string (VehicleID x) in
  set_telemetry_devices (update_where (by_imei (f_IMEI f)) (with_last_seen seen_) (devices d))
  (set_outbox_events (outbox_events d ++ rows)
  (set_telemetry_snapshots
     (delete_where (λ s, String.eqb (sn_ID s) sid) (telemetry_snapshots (ops d)) ++ [snapshot sid v r])
  (set_vehicle_latest_position
     (match VehicleID x with
      | Some v => upserted (mkLatestRow v (TenantID x) (f_IMEI f) rcv r) (vehicle_latest_position (ops d))
      | None => vehicle_latest_position (ops d)
      end)
  (set_telemetry_positions
     (positions d ++ [mkPositionRow pid (TenantID x) (f_IMEI f) rcv v (f_Provider f) rawid r])
  (set_audit_logs audits d))))).

Lemma set_latest_same d : set_vehicle_latest_position (vehicle_latest_position (ops d)) d = d.
Proof. destruct d as [? ? ? ? ? ? ? ? ? ? ? ? ? ? []]. reflexivity. Qed.

Definition event_of (x : Device) (f : RawFrame) (d : DB) (pid : string) (rcv : Time) : Position :=
  position_event pid (TenantID x) (default ""%string (VehicleID x)) f (stored_reading d f) rcv.
Definition outbox_key (x : Device) (f : RawFrame) : string :=
  let v := default ""%string (VehicleID x) in if is_empty v then f_IMEI f else v.

Lemma accept_frame_ok x f rawid w res ev w' :
  accept_frame x f rawid w = (Ok (res, ev), w') →
  ∃ pid sid rcv seen_ audits rows,
    res = mkResult true false false "" ∧ ev = Some (event_of x f (w_db w) pid rcv) ∧
    Forall2 (outbox_row_of (outbox_key x f) "Vehicle")
      [PositionEvent (event_of x f (w_db w) pid rcv)] rows ∧
    w_db w' = accepted_db x f rawid pid sid rcv seen_ audits rows (w_db w).
Proof.
  unfold accept_frame. intros H.
  run_ok H. eapply (guarded_ok _ _ (λ d : DB, guarded_odometer (last_value rd_Odometer (f_IMEI f) d)))
    in Hrun as [[a1 Ha1] ->]; [|intros; by apply CheckOdometer_ok].
  run_ok H. eapply (guarded_ok _ _ (λ d : DB, guarded_fuel (last_value rd_FuelLevel (f_IMEI f) d)))
    in Hrun as [[a2 Ha2] ->]; [|intros; by apply ClampFuelLevel_ok].
  rewrite Ha1 in *. change (last_value rd_FuelLevel (f_IMEI f) (set_audit_logs a1 (w_db w)))
    with (last_value rd_FuelLevel (f_IMEI f) (w_db w)) in H.
  change (set_audit_logs a2 (set_audit_logs a1 (w_db w))) with (set_audit_logs a2 (w_db w)) in Ha2.
  fold (stored_reading (w_db w) f) in H.
  run_ok H. injection Hrun as Hpid Hs1. run_ok H. injection Hrun as Hrcv Hs2.
  run_ok H. apply map_err_ok_inv in Hrun. apply stmt_inv in Hrun as (_ & _ & _ & Hp). cbn in Hp.
  destruct (exists_row _ _); [discriminate Hp|]. injection Hp as _ Hp.
  set (p := mkPositionRow _ _ _ _ _ _ _ _) in *.
  run_ok H.
  assert (Hl : w_db s4 = set_vehicle_latest_position
     (match VehicleID x with
      | Some u => upserted (mkLatestRow u (TenantID x) (f_IMEI f) v0 (stored_reading (w_db w) f))
                    (vehicle_latest_position (ops (w_db w)))
      | None => vehicle_latest_position (ops (w_db w))
      end) (set_telemetry_positions (positions (w_db w) ++ [p]) (set_audit_logs a2 (w_db w)))).
  { subst s1 s2. cbn in Hp. rewrite Ha2 in Hp. destruct (VehicleID x) as [u|].
    - apply map_err_ok_inv in Hrun. apply stmt_inv in Hrun as (_ & _ & _ & Hl).
      injection Hl as _ Hl. rewrite <- Hl, <- Hp. reflexivity.
    - injection Hrun as _ <-. rewrite <- Hp. reflexivity. }
  clear Hrun. run_ok H. injection Hrun as Hsid Hs5.
  run_ok H. apply map_err_ok_inv in Hrun. apply stmt_inv in Hrun as (_ & _ & _ & Hs). injection Hs as _ Hs.
  run_ok H. apply map_err_ok_inv in Hrun. destruct v5. apply SaveEvents_ok in Hrun as (rows & Hrows & _ & Ho).
  run_ok H. apply map_err_ok_inv in Hrun. apply stmt_inv in Hrun as (_ & _ & _ & Hd). injection Hd as _ Hd.
  injection H as <- <- <-.
  eexists v, v3, v0, _, a2, rows. split; [reflexivity|]. split; [reflexivity|]. split; [exact Hrows|].
  rewrite <- Hd, Ho, <- Hs. subst s5. change (w_db (tick_ids s4)) with (w_db s4). rewrite Hl.
  reflexivity.
Qed.

(** *** The outcomes of a frame *)
Definition refusal (dev : option Device) : string :=
  match dev with
  | None => QuarantineReasonUnknownDevice
  | Some x => inactive_reason (Status x)
  end.

Definition active_device (imei : string) (d : DB) : option Device :=
  match device_of imei d with
  | Some x => if String.eqb (Status x) DeviceStatusActive then Some x else None
  | None => None
  end.

(** The message is in the log already: its IMEI and, unless it is empty, its
    message id. *)
Definition message_known (f : RawFrame) (raws : list RawEventRow) : Prop :=
  f_ProviderMsgID f ≠ ""%string ∧
  ∃ y, y ∈ raws ∧ raw_IMEI y = f_IMEI f ∧ raw_MsgID y = Some (f_ProviderMsgID f).
(** The id drawn for the row is taken: [INSERT OR IGNORE] takes the message
    for a replay. *)
Definition id_taken (rawid : string) (raws : list RawEventRow) : Prop :=
  ∃ y, y ∈ raws ∧ raw_ID y = rawid.

(** What a frame does to the tables, its result and its announcement;
    [rawid] is the id drawn for its row in the log. *)
Inductive ingested (rawid : string) (f : RawFrame) (d : DB) : DB → IngestResult → option Position → Prop :=
| ing_quarantined e : active_device (f_IMEI f) d = None →
    q_IMEI e = f_IMEI f → q_Reason e = refusal (device_of (f_IMEI f) d) →
    q_Status e = QuarantineStatusOpen → q_RawPayload e = MarshalFrame f →
    ingested rawid f d (set_device_quarantine (device_quarantine (ops d) ++ [e]) d) zero_result None
| ing_replay x : active_device (f_IMEI f) d = Some x →
    message_known f (telemetry_raw_events (ops d)) ∨ id_taken rawid (telemetry_raw_events (ops d)) →
    ingested rawid f d d (mkResult true true false "") None
| ing_accepted x pid sid rcv seen_ audits rows : active_device (f_IMEI f) d = Some x →
    ¬ message_known f (telemetry_raw_events (ops d)) → ¬ id_taken rawid (telemetry_raw_events (ops d)) →
    Forall2 (outbox_row_of (outbox_key x f) "Vehicle") [PositionEvent (event_of x f d pid rcv)] rows →
    ingested rawid f d
      (accepted_db x f rawid pid sid rcv seen_ audits rows
         (set_telemetry_raw_events (telemetry_raw_events (ops d) ++ [raw_event rawid (TenantID x) f]) d))
      (mkResult true false false "") (Some (event_of x f d pid rcv)).

(** The row conflicts exactly when the message is known or its id taken. *)
Lemma raw_conflict_spec rawid t f raws :
  exists_row (raw_conflict (raw_event rawid t f)) raws = true ↔ message_known f raws ∨ id_taken rawid raws.
Proof.
  rewrite exists_row_spec. unfold raw_conflict, raw_event, message_known, id_taken, is_empty. cbn.
  destruct (String.eqb_spec (f_ProviderMsgID f) "") as [E|E]; split.
  - intros (y & Hy & [Hid%String.eqb_eq|[[_ H]%andb_true_iff _]%andb_true_iff]%orb_true_iff); [eauto|].
    by apply bool_decide_eq_true in H as [].
  - intros [[[] _]|(y & Hy & Hid)]; [done|]. exists y. by rewrite (proj2 (String.eqb_eq _ _) Hid).
  - intros (y & Hy & [Hid%String.eqb_eq|[[Hi%String.eqb_eq _]%andb_true_iff Hm]%andb_true_iff]%orb_true_iff);
      [eauto|]. left. split; [done|]. exists y. apply bool_decide_eq_true in Hm. by split_and!.
  - intros [(_ & y & Hy & Hi & Hm)|(y & Hy & Hid)]; exists y; split; try done.
    + rewrite (proj2 (String.eqb_eq _ _) Hi), !bool_decide_eq_true_2 by eauto. apply orb_true_r.
    + by rewrite (proj2 (String.eqb_eq _ _) Hid).
Qed.

Lemma Quarantine_ok e w w' :
  Quarantine e w = (Ok tt, w') →
  w_db w' = set_device_quarantine (device_quarantine (ops (w_db w)) ++ [e]) (w_db w).
Proof.
  intros H%map_err_ok_inv. apply stmt_inv in H as (_ & _ & _ & H). cbn in H.
  destruct (exists_row _ _); [discriminate H|]. by injection H.
Qed.

Lemma quarantineFrame_ok f reason w w' :
  quarantineFrame f reason w = (Ok tt, w') →
  ∃ e, q_IMEI e = f_IMEI f ∧ q_Reason e = reason ∧ q_Status e = QuarantineStatusOpen ∧
    q_RawPayload e = MarshalFrame f ∧
    w_db w' = set_device_quarantine (device_quarantine (ops (w_db w)) ++ [e]) (w_db w).
Proof.
  unfold quarantineFrame. intros H. run_ok H. unfold SM_try in Hrun.
  pose proof (GetByIMEI_same (f_IMEI f) w) as Hg. destruct (GetByIMEI (f_IMEI f) w) as [r s1].
  injection Hrun as <- <-. unfold on_db in Hg. cbn [snd] in Hg.
  run_ok H. injection Hrun as _ <-. run_ok H. injection Hrun as _ <-.
  apply Quarantine_ok in H. rewrite Hg. eexists. split_and!; [..|exact H]; done.
Qed.

Lemma insertRawEvent_ok id t f w b w' :
  insertRawEvent id t f w = (Ok b, w') →
  b = exists_row (raw_conflict (raw_event id t f)) (telemetry_raw_events (ops (w_db w))) ∧
  w_db w' = if b then w_db w
            else set_telemetry_raw_events
                   (telemetry_raw_events (ops (w_db w)) ++ [raw_event id t f]) (w_db w).
Proof.
  intros H. apply stmt_inv in H as (_ & _ & _ & H). cbn in H.
  destruct (exists_row _ _); injection H as <- H; by split.
Qed.

Lemma event_of_raw x f l d pid rcv :
  event_of x f (set_telemetry_raw_events l d) pid rcv = event_of x f d pid rcv.
Proof. reflexivity. Qed.

Lemma GetByIMEI_ids imei w r w' : GetByIMEI imei w = (Ok r, w') → w_ids w' = w_ids w.
Proof.
  intros H%map_err_ok_inv. unfold query in H. by apply stmt_inv in H as (_ & _ & H & _).
Qed.

(** The first id a frame draws is the one of its row in the log. *)
Abbreviation first_id w := (gen_uuid (w_ids w)).

Lemma ingest_body_ok f d res ev w w' :
  w_db w = d →
  (device ← SM_wrap "device lookup" (GetByIMEI (f_IMEI f));
   match device with
   | None => _ ← quarantineFrame f QuarantineReasonUnknownDevice; mret (zero_result, None)
   | Some device =>
       if negb (String.eqb (Status device) DeviceStatusActive) then
         _ ← quarantineFrame f (inactive_reason (Status device)); mret (zero_result, None)
       else
         rawEventID ← GenerateUUID;
         deduped ← SM_wrap "raw event insert" (insertRawEvent rawEventID (TenantID device) f);
         if deduped : bool then mret (mkResult true true false "", None)
         else accept_frame device f rawEventID
   end) w = (Ok (res, ev), w') →
  ingested (first_id w) f d (w_db w') res ev.
Proof.
  intros <- H. run_ok H. apply map_err_ok_inv in Hrun. pose proof (GetByIMEI_ids _ _ _ _ Hrun) as Hid.
  apply GetByIMEI_ok in Hrun as [Hd Hv]. rewrite <- Hid.
  assert (Hx : device_of (f_IMEI f) (w_db w) = v) by done. clear Hv.
  destruct v as [x|].
  - destruct (String.eqb (Status x) DeviceStatusActive) eqn:Ha; cbn [negb] in H.
    + assert (Hact : active_device (f_IMEI f) (w_db w) = Some x)
        by (unfold active_device; by rewrite Hx, Ha).
      run_ok H. injection Hrun as <- <-. run_ok H. apply map_err_ok_inv, insertRawEvent_ok in Hrun as [Hb Hr].
      change (w_db (tick_ids s)) with (w_db s) in Hb, Hr. rewrite Hd in Hb, Hr. symmetry in Hb. match type of Hb with _ = ?b => destruct b end.
      * injection H as <- <- <-. rewrite Hr. apply raw_conflict_spec in Hb. by eapply ing_replay.
      * apply accept_frame_ok in H as (pid & sid & rcv & sn & au & rows & -> & -> & Hrows & ->).
        rewrite Hr in *. rewrite event_of_raw in *. apply not_true_iff_false in Hb.
        rewrite raw_conflict_spec in Hb. eapply ing_accepted; [done|tauto..|done].
    + run_ok H. destruct v. apply quarantineFrame_ok in Hrun as (e & ? & ? & ? & ? & Hd2).
      injection H as <- <- <-. rewrite Hd2, Hd. apply ing_quarantined; try done.
      * unfold active_device. by rewrite Hx, Ha.
      * by rewrite Hx.
  - run_ok H. destruct v. apply quarantineFrame_ok in Hrun as (e & ? & ? & ? & ? & Hd2).
    injection H as <- <- <-. rewrite Hd2, Hd. apply ing_quarantined; try done.
    + unfold active_device. by rewrite Hx.
    + by rewrite Hx.
Qed.

Lemma ingest_tx_ok f w res ev w' :
  ingest_tx f w = (Ok (res, ev), w') → ingested (first_id w) f (w_db w) (w_db w') res ev.
Proof.
  unfold ingest_tx. intros H. apply UoWExecute_ok in H as (w1 & H & -> & _).
  change (first_id w) with (first_id (tick_stmts w)). by eapply ingest_body_ok; [|exact H].
Qed.
Abbreviation tables s := (w_db (fst s)).

(** What the subscribers of the bus see of an outcome. *)
Definition announced (ev : option Position) (h : S) : S :=
  match ev with
  | Some p => Publish bus BusEventTelemetrySnapshot (bus_snapshot p) h
  | None => h
  end.

Lemma ingested_flags rid f d d' res ev :
  ingested rid f d d' res ev →
  Quarantined res = false ∧ Accepted res && negb (Deduped res) = bool_decide (is_Some ev).
Proof. by destruct 1. Qed.

Lemma IngestRawFrame_ok f s res s' :
  IngestRawFrame f s = (Ok res, s') →
  ∃ ev, ingested (first_id (fst s)) f (tables s) (tables s') res ev ∧ snd s' = announced ev (snd s).
Proof.
  unfold IngestRawFrame, in_world. intros H. run_ok H.
  destruct (ingest_tx f (fst s)) as [[[r ev]|e] w1] eqn:Ht; [|discriminate Hrun].
  injection Hrun as <- <-. apply ingest_tx_ok in Ht. cbn [fst snd] in H.
  pose proof (ingested_flags _ _ _ _ _ _ Ht) as [_ Hf]. rewrite Hf in H. exists ev.
  run_ok H. injection H as <- <-. destruct ev as [p|]; cbn in Hrun; injection Hrun as _ <-; by split.
Qed.

Lemma IngestRawFrame_fail f s e s' :
  IngestRawFrame f s = (Fail e, s') → tables s' = tables s ∧ snd s' = snd s.
Proof.
  unfold IngestRawFrame, in_world. intros H. apply bind_fail_inv in H as [H|(r & s1 & _ & H)].
  - destruct (ingest_tx f (fst s)) as [r w1] eqn:Ht. injection H as -> <-. split; [|done].
    by apply UoWExecute_spec in Ht.
  - apply bind_fail_inv in H as [H|(u & s2 & _ & H)]; [|discriminate H].
    repeat case_match; discriminate H.
Qed.

(** C36: the pipeline on every frame, whatever fails: a failed call changes
    nothing and is not announced.  Otherwise, without an active device of its
    IMEI, the frame is quarantined with the reason; when the log has a row
    with its IMEI and its non-empty message id (or with the very id drawn for
    the new row) it is a replay and nothing changes; and in all other cases
    it is accepted: raw event, guarded position, latest position, snapshot
    and outbox row are all written, and the bus is told.  The result never
    says that a frame was quarantined. *)
Theorem frame_outcome f s r s' :
  IngestRawFrame f s = (r, s') →
  match r with
  | Ok res => (∃ ev, ingested (first_id (fst s)) f (tables s) (tables s') res ev ∧ snd s' = announced ev (snd s)) ∧
              Quarantined res = false
  | Fail _ => tables s' = tables s ∧ snd s' = snd s
  end.
Proof.
  intros H. destruct r as [res|e]; [|by apply IngestRawFrame_fail in H].
  apply IngestRawFrame_ok in H as (ev & Hi & Hs). split; [eauto|]. by apply ingested_flags in Hi as [? _].
Qed.

(** *** Replays *)
(** The raw event of a message is kept. *)
Definition logged (f : RawFrame) (d : DB) : Prop :=
  ∃ rawid t, raw_event rawid t f ∈ telemetry_raw_events (ops d).

Lemma logged_known f f' d :
  logged f d → f_IMEI f' = f_IMEI f → f_ProviderMsgID f' = f_ProviderMsgID f →
  f_ProviderMsgID f ≠ ""%string → message_known f' (telemetry_raw_events (ops d)).
Proof.
  intros (rid & t & Hin) Hi Hm Hne. split; [by rewrite Hm|]. exists (raw_event rid t f). rewrite Hi, Hm.
  split_and!; [done..|]. cbn. unfold is_empty. by rewrite (proj2 (String.eqb_neq _ _) Hne).
Qed.

Lemma logged_replay rid f f' d d' res ev :
  logged f d → f_IMEI f' = f_IMEI f → f_ProviderMsgID f' = f_ProviderMsgID f →
  f_ProviderMsgID f ≠ ""%string → active_device (f_IMEI f) d ≠ None →
  ingested rid f' d d' res ev → d' = d ∧ res = mkResult true true false "" ∧ ev = None.
Proof.
  intros Hlog Hi Hm Hne Hact Hd. destruct Hd as [e Hn|x Hx Hc|x pid sid rcv sn au rows Hx Hc].
  - by rewrite Hi in Hn.
  - done.
  - destruct Hc. by eapply logged_known.
Qed.

Lemma with_last_seen_status now x : Status (with_last_seen now x) = Status x.
Proof. done. Qed.

Lemma ingested_active rid f d d' res ev i :
  ingested rid f d d' res ev → active_device i d ≠ None → active_device i d' ≠ None.
Proof.
  intros Hd. destruct Hd as [| |x pid sid rcv sn au rows]; [done|done|].
  unfold active_device, device_of.
  change (devices (accepted_db x f rid pid sid rcv sn au rows _)) with
    (update_where (by_imei (f_IMEI f)) (with_last_seen sn) (devices d)).
  rewrite select_one_update by done. destruct (select_one (by_imei i) (devices d)) as [y|]; [|done].
  destruct (by_imei (f_IMEI f) y); [by rewrite with_last_seen_status; destruct (String.eqb _ _)|done].
Qed.

(** a message is processed at most once: after a frame with a message id
    has been accepted, any frame with the same IMEI and message id, whatever
    else it says, is answered as an accepted replay as long as the device
    is active, and neither a table nor a subscriber sees it. *)
Theorem replay_ignored f s s1 f' s2 r s3 :
  f_ProviderMsgID f ≠ ""%string →
  IngestRawFrame f s = (Ok (mkResult true false false ""), s1) →
  f_IMEI f' = f_IMEI f → f_ProviderMsgID f' = f_ProviderMsgID f →
  (tables s2 = tables s1 ∧ snd s2 = snd s1) →
  IngestRawFrame f' s2 = (r, s3) →
  tables s3 = tables s2 ∧ snd s3 = snd s2 ∧
  ∀ res, r = Ok res → res = mkResult true true false "".
Proof.
  intros Hne H1 Hi Hm [Hd Hh] H2. apply IngestRawFrame_ok in H1 as (ev & H1 & _).
  assert (Hlog : logged f (tables s1) ∧ active_device (f_IMEI f) (tables s1) ≠ None).
  { assert (Hact : active_device (f_IMEI f) (tables s) ≠ None) by (inversion H1; congruence).
    split; [|by eapply ingested_active].
    inversion H1 as [| |x pid sid rcv sn au rows Hx Hc Hf Hrows Hd1]. eexists _, (TenantID x).
    cbn. apply elem_of_app. right. by apply list_elem_of_singleton. }
  destruct r as [res|e].
  - apply IngestRawFrame_ok in H2 as (ev2 & H2 & Hs). rewrite Hd in H2.
    apply (logged_replay _ f) in H2 as (Hd3 & -> & ->); [|by destruct Hlog|done..|by destruct Hlog].
    split; [congruence|]. split; [exact Hs|]. by intros res [= <-].
  - apply IngestRawFrame_fail in H2 as [? ?]. split_and!; done.
Qed.
(** *** The telemetry invariant *)
Definition same_message (x y : RawEventRow) : Prop :=
  raw_IMEI x = raw_IMEI y ∧ raw_MsgID x = raw_MsgID y ∧ is_Some (raw_MsgID x).

Record telemetry_ok (raws : list RawEventRow) (ps : list PositionRow) (ls : list LatestRow) : Prop := {
  raw_keys : NoDup (map raw_ID raws);
  messages_once : ∀ x y, x ∈ raws → y ∈ raws → same_message x y → x = y;
  positions_once : NoDup (map po_RawEventID ps);
  positions_logged : ∀ p, p ∈ ps → ∃ x, x ∈ raws ∧ raw_ID x = po_RawEventID p ∧ raw_IMEI x = po_IMEI p;
  latest_keys : NoDup (map la_VehicleID ls);
  latest_bounds : ∀ p, p ∈ ps → po_VehicleID p ≠ ""%string →
    ∃ r, r ∈ ls ∧ la_VehicleID r = po_VehicleID p ∧
      String.le (time_column (po_Reading p)) (time_column (la_Reading r));
  latest_recorded : ∀ r, r ∈ ls → la_VehicleID r ≠ ""%string →
    ∃ p, p ∈ ps ∧ po_VehicleID p = la_VehicleID r ∧ po_Reading p = la_Reading r }.

Lemma telemetry_ok_empty : telemetry_ok [] [] [].
Proof. split; try constructor; intros *; rewrite elem_of_nil; done. Qed.

Definition telemetry_inv (d : DB) : Prop :=
  telemetry_ok (telemetry_raw_events (ops d)) (positions d) (vehicle_latest_position (ops d)).

(** Of positions whose texts are in the order of their times, as those of
    one offset are, the latest is the newest. *)
Lemma latest_is_newest raws ps ls r p :
  telemetry_ok raws ps ls → r ∈ ls → p ∈ ps → po_VehicleID p = la_VehicleID r → la_VehicleID r ≠ ""%string →
  (rd_DeviceTime (la_Reading r) < device_time p →
     String.ltb (time_column (la_Reading r)) (time_column (po_Reading p)) = true) →
  device_time p <= rd_DeviceTime (la_Reading r).
Proof.
  intros Hok Hr Hp Hv Hne Hord. destruct (Z.le_gt_cases (device_time p) (rd_DeviceTime (la_Reading r))); [done|].
  exfalso. specialize (Hord ltac:(lia)).
  destruct (latest_bounds _ _ _ Hok p Hp) as (r' & Hr' & Hv' & Hle); [by rewrite Hv|].
  assert (r' = r) as -> by (eapply (NoDup_map_inj la_VehicleID); [apply (latest_keys _ _ _ Hok)|done..|congruence]).
  pose proof (ltb_le _ _ Hord) as Hlt.
  assert (time_column (la_Reading r) = time_column (po_Reading p)) as E by (by apply (anti_symm String.le)).
  rewrite E in Hord. unfold String.ltb in Hord. by rewrite string_compare_refl in Hord.
Qed.

Lemma no_raw_conflict x l : exists_row (raw_conflict x) l = false →
  ∀ y, y ∈ l → raw_ID y ≠ raw_ID x ∧ ¬ same_message y x.
Proof.
  rewrite exists_row_false. intros H y Hy. specialize (H y Hy). unfold raw_conflict in H.
  apply orb_false_iff in H as [H1%String.eqb_neq H2]. split; [done|]. intros (Hi & Hm & Hs).
  rewrite (proj2 (String.eqb_eq _ _) Hi) in H2. rewrite Hm in Hs.
  by rewrite !bool_decide_eq_true_2 in H2.
Qed.

Lemma upserted_keys x l : NoDup (map la_VehicleID l) → NoDup (map la_VehicleID (upserted x l)).
Proof.
  unfold upserted. intros Hn. destruct (exists_row _ l) eqn:E.
  - unfold update_where. rewrite map_map. erewrite map_ext_in; [exact Hn|]. intros r _. cbn.
    destruct (on_latest _ r) eqn:Ho; [|done]. unfold newer. destruct (String.ltb _ _); [|done].
    by apply String.eqb_eq in Ho.
  - apply NoDup_map_snoc; [done|]. intros r Hr. rewrite exists_row_false in E.
    specialize (E r Hr). by apply String.eqb_neq in E.
Qed.

(** After the upsert the vehicle's row is at least as new as both. *)
Lemma upserted_in x l :
  ∃ r, r ∈ upserted x l ∧ la_VehicleID r = la_VehicleID x ∧
       String.le (time_column (la_Reading x)) (time_column (la_Reading r)).
Proof.
  unfold upserted. destruct (exists_row _ l) eqn:E.
  - apply exists_row_spec in E as (r & Hr & Ho). exists (newer x r). split.
    + apply elem_of_update. exists r. by rewrite Ho.
    + apply String.eqb_eq in Ho. unfold newer. destruct (String.ltb _ _) eqn:E; [done|].
      split; [done|by apply not_ltb_le].
  - exists x. split; [|done]. apply elem_of_app. right. by apply list_elem_of_singleton.
Qed.

Lemma upserted_old x l r : r ∈ l →
  ∃ r', r' ∈ upserted x l ∧ la_VehicleID r' = la_VehicleID r ∧
        String.le (time_column (la_Reading r)) (time_column (la_Reading r')).
Proof.
  intros Hr. unfold upserted. destruct (exists_row _ l) eqn:E.
  - destruct (on_latest (la_VehicleID x) r) eqn:Ho.
    + exists (newer x r). split; [apply elem_of_update; exists r; by rewrite Ho|].
      apply String.eqb_eq in Ho. unfold newer. destruct (String.ltb _ _) eqn:E'; [|done].
      split; [by rewrite Ho|by apply ltb_le].
    + exists r. split; [apply elem_of_update; exists r; by rewrite Ho|]. done.
  - exists r. split; [apply elem_of_app; by left|]. done.
Qed.

Lemma upserted_origin x l r : r ∈ upserted x l →
  r ∈ l ∨ r = x.
Proof.
  unfold upserted. destruct (exists_row _ l).
  - intros Hr. apply elem_of_update in Hr as (y & Hy & ->). destruct (on_latest _ y); [|by left].
    unfold newer. destruct (String.ltb _ _); [by right|by left].
  - intros Hr. apply elem_of_app in Hr as [Hr|Hr]; [by left|right]. by apply list_elem_of_singleton in Hr.
Qed.

(** One accepted frame: its raw event, its position and, for a device on a
    vehicle, the upsert. *)
Lemma telemetry_accept x raws p ps up ls :
  telemetry_ok raws ps ls → exists_row (raw_conflict x) raws = false →
  po_RawEventID p = raw_ID x → po_IMEI p = raw_IMEI x →
  match up with
  | Some r => la_VehicleID r = po_VehicleID p ∧ la_Reading r = po_Reading p
  | None => po_VehicleID p = ""%string
  end →
  telemetry_ok (raws ++ [x]) (ps ++ [p]) (match up with Some r => upserted r ls | None => ls end).
Proof.
  intros [H1 H2 H3 H4 H5 H6 H7] Hc Hid Himei Hup. pose proof (no_raw_conflict x raws Hc) as Hno. split.
  - apply NoDup_map_snoc; [done|]. intros y Hy. by destruct (Hno y Hy).
  - intros a b Ha Hb Hs. apply elem_of_app in Ha, Hb. rewrite !list_elem_of_singleton in Ha, Hb.
    destruct Ha as [Ha| ->], Hb as [Hb| ->]; [by apply H2| | |done].
    + by destruct (Hno a Ha) as [_ []].
    + destruct (Hno b Hb) as [_ []]. destruct Hs as (? & Hm & ?). repeat split; congruence || by rewrite <- Hm.
  - apply NoDup_map_snoc; [done|]. intros q Hq. destruct (H4 q Hq) as (y & Hy & Hqy & _).
    rewrite Hid, <- Hqy. by destruct (Hno y Hy).
  - intros q Hq. apply elem_of_app in Hq as [Hq|Hq].
    + destruct (H4 q Hq) as (y & Hy & ?). exists y. split; [apply elem_of_app; by left|done].
    + apply list_elem_of_singleton in Hq as ->. exists x.
      split; [apply elem_of_app; right; by apply list_elem_of_singleton|done].
  - destruct up; [by apply upserted_keys|done].
  - intros q Hq Hne. apply elem_of_app in Hq as [Hq|Hq].
    + destruct (H6 q Hq Hne) as (r & Hr & Hv & Ht). destruct up as [u|]; [|by exists r].
      destruct (upserted_old u ls r Hr) as (r' & Hr' & Hv' & Ht'). exists r'. split_and!; [done|congruence|by etransitivity].
    + apply list_elem_of_singleton in Hq as ->. destruct up as [u|]; [|done]. destruct Hup as [Hv Hrd].
      destruct (upserted_in u ls) as (r & Hr & Hv' & Ht). exists r. rewrite Hrd in Ht.
      split_and!; [done|congruence|done].
  - intros r Hr Hne. assert (Hold : r ∈ ls ∨ up = Some r).
    { destruct up as [u|]; [|by left]. apply upserted_origin in Hr as [Hr| ->]; auto. }
    destruct Hold as [Hold|Hnew].
    + destruct (H7 r Hold Hne) as (q & Hq & ?). exists q. split; [apply elem_of_app; by left|done].
    + rewrite Hnew in Hup. destruct Hup as [Hv Hrd]. exists p.
      split; [apply elem_of_app; right; by apply list_elem_of_singleton|]. by rewrite Hv, Hrd.
Qed.

Lemma ingested_keeps rid f d d' res ev : ingested rid f d d' res ev → telemetry_inv d → telemetry_inv d'.
Proof.
  intros Hd Hi. destruct Hd as [| |x pid sid rcv sn au rows Hx Hc Hf]; [done|done|].
  assert (Hconf : exists_row (raw_conflict (raw_event rid (TenantID x) f)) (telemetry_raw_events (ops d)) = false)
    by (apply not_true_iff_false; rewrite raw_conflict_spec; tauto).
  unfold telemetry_inv.
  pose (up := match VehicleID x with
              | Some v => Some (mkLatestRow v (TenantID x) (f_IMEI f) rcv (stored_reading d f))
              | None => None end).
  pose proof (telemetry_accept _ _
    (mkPositionRow pid (TenantID x) (f_IMEI f) rcv (default ""%string (VehicleID x)) (f_Provider f) rid
       (stored_reading d f)) _ up _ Hi Hconf eq_refl eq_refl) as Hk.
  unfold up in Hk. clear up. unfold accepted_db.
  destruct (VehicleID x) as [v|]; apply Hk; done.
Qed.

Definition on_tables (P : DB → DB → Prop) (s s' : World * S) : Prop := P (tables s) (tables s').
#[local] Instance on_tables_preorder P `{!PreOrder P} : PreOrder (on_tables P).
Proof.
  split; [intros s; unfold on_tables; reflexivity|]. intros s1 s2 s3. unfold on_tables. apply transitivity.
Qed.

Lemma in_world_preserves (P : DB → DB → Prop) {A} (m : M A) :
  preserves (on_db P) m → preserves (on_tables P) (in_world m).
Proof.
  intros Hm s. specialize (Hm (fst s)). unfold in_world, on_tables.
  by destruct (m (fst s)) as [r w].
Qed.

Lemma IngestRawFrame_keeps f : preserves (on_tables (keeps telemetry_inv)) (IngestRawFrame f).
Proof.
  intros s. destruct (IngestRawFrame f s) as [[res|e] s'] eqn:H; unfold on_tables, keeps; cbn [snd].
  - apply IngestRawFrame_ok in H as (ev & Hi & _). by eapply ingested_keeps.
  - apply IngestRawFrame_fail in H as [-> _]. done.
Qed.

(** A request to any of the front doors. *)
Inductive request :=
| ReqDeviceGPS (pepper imei token : string) (body : result RawFrame)
| ReqSync (req : SyncBatchRequest)
| ReqSnapshot (p : TelemetrySnapshotPayload)
| ReqMqtt (topic : string) (payload : result mqttPayload).

Definition serve (r : request) : IM unit :=
  match r with
  | ReqDeviceGPS pepper imei token body => SM_ignore (HandleDeviceGPS pepper imei token body)
  | ReqSync req => SM_ignore (HandleTelemetrySync req)
  | ReqSnapshot p => SM_ignore (HandleTelemetrySnapshots p)
  | ReqMqtt topic payload => HandleMessage topic payload
  end.

(** What the front doors do beside the pipeline leaves its tables alone. *)
Section Frame.
Context (P : DB → DB → Prop) `{!PreOrder P}.
Hypothesis P_quarantine : ∀ l d, P d (set_device_quarantine l d).
Hypothesis P_devices : ∀ l d, P d (set_telemetry_devices l d).
Hypothesis P_audit : ∀ l d, P d (set_audit_logs l d).
Hypothesis P_ingest : ∀ f, preserves (on_tables P) (IngestRawFrame f).

Lemma Quarantine_P e : preserves (on_db P) (Quarantine e).
Proof.
  apply preserves_map_err, stmt_on_db; [exact _|]. intros now d. destruct (exists_row _ _); cbn; [reflexivity|auto].
Qed.
Lemma quarantineFrame_P f r : preserves (on_db P) (quarantineFrame f r).
Proof.
  unfold quarantineFrame. pose proof Quarantine_P. pose proof (on_db_of_eq P _ (GetByIMEI_same (f_IMEI f))).
  preserve.
Qed.
Lemma quarantineUnknown_P i f : preserves (on_db P) (quarantineUnknown i f).
Proof. unfold quarantineUnknown. pose proof Quarantine_P. preserve. Qed.
Lemma auditSpoof_P a b : preserves (on_db P) (auditSpoof a b).
Proof.
  unfold auditSpoof. eapply preserves_weaken; [|apply LogAction_only].
  intros w w' [rows H]. unfold on_db. rewrite H. apply P_audit.
Qed.
Lemma ensureSyntheticDevice_P i : preserves (on_db P) (ensureSyntheticDevice i).
Proof.
  unfold ensureSyntheticDevice. pose proof (on_db_of_eq P _ (GetByIMEI_same i)).
  assert (∀ x, preserves (on_db P) (InsertDevice x)).
  { intros x. apply preserves_map_err, stmt_on_db; [exact _|]. intros now d.
    destruct (device_conflict _ _); cbn; [reflexivity|auto]. }
  preserve.
Qed.
Lemma GetByIMEI_P i : preserves (on_tables P) (in_world (GetByIMEI i)).
Proof. apply in_world_preserves, on_db_of_eq; [exact _|apply GetByIMEI_same]. Qed.
Lemma GetByVehicleID_P i : preserves (on_tables P) (in_world (GetByVehicleID i)).
Proof. apply in_world_preserves, on_db_of_eq; [exact _|]. apply preserves_map_err, query_same. Qed.

Ltac door_leaf u :=
  first [ apply P_ingest | apply GetByIMEI_P | apply GetByVehicleID_P
        | apply in_world_preserves;
          first [ apply quarantineFrame_P | apply quarantineUnknown_P | apply auditSpoof_P
                | apply ensureSyntheticDevice_P ] ].

Lemma serve_P r : preserves (on_tables P) (serve r).
Proof.
  destruct r as [pepper imei token body|req|p|topic payload]; cbn [serve].
  - apply preserves_ignore. unfold HandleDeviceGPS. preserve_with door_leaf.
  - apply preserves_ignore. unfold HandleTelemetrySync. induction (sy_Logs req) as [|l ls IH]; cbn [sync_logs].
    { preserve_with door_leaf. }
    apply preserves_bind; [exact _| |intros ids; apply preserves_bind; [exact _|exact IH|intros rest]].
    + unfold sync_log. preserve_with door_leaf.
    + preserve_with door_leaf.
  - apply preserves_ignore. unfold HandleTelemetrySnapshots. preserve_with door_leaf.
  - unfold HandleMessage. preserve_with door_leaf.
Qed.
End Frame.

(** C37: whatever requests reach the front doors, devices, phones and brokers
    mixed, valid or not, whichever fail and however the database faults: a
    message is logged once and yields at most one position, every position is
    backed by a logged message, and the latest position of a vehicle is one
    of its positions, none of which is newer. *)
Theorem telemetry_invariant rs s :
  telemetry_inv (tables s) → telemetry_inv (tables (snd (SM_iter serve rs s))).
Proof.
  intros Hs. cut (preserves (on_tables (keeps telemetry_inv)) (SM_iter serve rs)).
  { intros H. by apply H. }
  apply preserves_iter; [exact _|]. intros r.
  apply serve_P; [exact _|by intros ? ? H; exact H..|apply IngestRawFrame_keeps].
Qed.
(** *** The odometer guard and a reading of zero *)
Lemma latest_newest l p :
  (∀ q, q ∈ l → String.ltb (time_column (po_Reading q)) (time_column (po_Reading p)) = true) →
  latest (l ++ [p]) = Some p.
Proof.
  induction l as [|q l IH]; intros Hl; cbn; [done|].
  rewrite IH by (intros; apply Hl; by right).
  by rewrite (Hl q ltac:(by left)).
Qed.

Lemma select_many_app {A} (p : A → bool) l x :
  p x = true → select_many p (l ++ [x])%list = (select_many p l ++ [x])%list.
Proof. intros Hx. unfold select_many. rewrite List.filter_app. cbn. by rewrite Hx. Qed.

(** From zero no positive reading is a regression. *)
Lemma no_regression_from_zero limit v :
  fltb f0 v = true → fltb limit f0 = false → fltb limit (fsub f0 v) = false.
Proof.
  destruct v as [[]|[]| |[] m e]; try done; by destruct limit as [[]|[]| |[]].
Qed.

(** a frame whose odometer reads zero (a snapshot sent without one) is
    stored and switches the rollback guard off: the next frame's odometer is
    stored as it is, however far below the readings before the zero. *)
Theorem zero_resets_guard rid f d ev d1 f' v :
  ingested rid f d d1 (mkResult true false false "") ev →
  f_Odometer f = Some f0 →
  (∀ p, p ∈ positions d → po_IMEI p = f_IMEI f →
     String.ltb (time_column (po_Reading p)) (time_text (f_DeviceTime f) (f_Offset f)) = true) →
  fltb (OdometerMaxRegressionKM cfg) f0 = false →
  f_IMEI f' = f_IMEI f → f_Odometer f' = Some v → fltb f0 v = true →
  rd_Odometer (stored_reading d1 f') = Some v.
Proof.
  intros Hi Ho Hnew Hmax Him Hv Hpos.
  inversion Hi as [| |x pid sid rcv sn au rows Hx Hc Hf Hrows Hd]. subst d1.
  assert (Hl : last_value rd_Odometer (f_IMEI f)
    (accepted_db x f rid pid sid rcv sn au rows
       (set_telemetry_raw_events (telemetry_raw_events (ops d) ++ [raw_event rid (TenantID x) f])
          d)) = Some f0).
  { unfold last_value.
    change (positions (accepted_db x f rid pid sid rcv sn au rows _)) with
      (positions d ++ [mkPositionRow pid (TenantID x) (f_IMEI f) rcv
         (default ""%string (VehicleID x)) (f_Provider f) rid (stored_reading d f)])%list.
    assert (Hod : rd_Odometer (stored_reading d f) = Some f0).
    { unfold stored_reading. cbn. by rewrite Ho. }
    rewrite select_many_app by (cbn [po_IMEI po_Reading]; by rewrite String.eqb_refl, Hod).
    rewrite latest_newest; [exact Hod|]. intros q Hq. apply list_elem_of_In, filter_In in Hq as [Hq Hp].
    apply andb_true_iff in Hp as [Hp _]. apply String.eqb_eq in Hp.
    apply Hnew; [by apply list_elem_of_In|done]. }
  unfold stored_reading. cbn [reading rd_Odometer]. rewrite Him, Hl, Hv. cbn [fmap option_fmap option_map].
  f_equal. unfold guarded_odometer. destruct (fleb v f0); [done|].
  by rewrite no_regression_from_zero.
Qed.

(** *** Snapshots without an id *)
Lemma GetByVehicleID_ok v w r w' :
  GetByVehicleID v w = (Ok r, w') → w_db w' = w_db w ∧ r = select_one (on_vehicle v) (devices (w_db w)).
Proof. intros H%map_err_ok_inv. by apply query_inv in H as (Hd & _ & ->). Qed.

Lemma GetByVehicleID_same v : preserves (on_db eq) (GetByVehicleID v).
Proof. apply preserves_map_err, query_same. Qed.

Lemma HandleTelemetrySnapshots_ok p s q s' :
  HandleTelemetrySnapshots p s = (Ok (SnapshotStored true q), s') →
  ∃ imei at_ s1 res, (tables s1 = tables s ∧ snd s1 = snd s) ∧
    ((∃ x, select_one (on_vehicle (sp_VehicleID p)) (devices (tables s)) = Some x ∧ imei = IMEI x)
     ∨ imei = ""%string) ∧
    IngestRawFrame (snapshot_frame imei p at_) s1 = (Ok res, s') ∧ Accepted res = true.
Proof.
  unfold HandleTelemetrySnapshots. destruct (is_empty (sp_VehicleID p)); [discriminate 1|].
  intros H. run_ok H. unfold SM_try, in_world in Hrun.
  destruct (GetByVehicleID (sp_VehicleID p) (fst s)) as [r w1] eqn:Hg. injection Hrun as <- <-.
  assert (Hw : w_db w1 = tables s).
  { pose proof (GetByVehicleID_same (sp_VehicleID p) (fst s)) as Hs. rewrite Hg in Hs. by symmetry. }
  destruct (Parse_rfc3339_in _) as [at_|]; [|discriminate H].
  run_ok H. unfold SM_try in Hrun.
  destruct (IngestRawFrame _ _) as [r2 s2] eqn:Hi. injection Hrun as <- <-.
  destruct r2 as [res|]; [|discriminate H]. injection H as Ha _ <-.
  eexists _, at_, (w1, snd s), res. split; [by split|]. split; [|split; [exact Hi|done]].
  destruct r as [[x|]|e]; [|by right|by right]. left. exists x. split; [|done].
  by apply GetByVehicleID_ok in Hg as [_ Hg].
Qed.

Lemma touched_vehicle i now v l x x' :
  select_one (on_vehicle v) l = Some x →
  select_one (on_vehicle v) (update_where (by_imei i) (with_last_seen now) l) = Some x' → IMEI x' = IMEI x.
Proof.
  intros Hx. rewrite select_one_update by done. rewrite Hx. intros [= <-]. by destruct (by_imei i x).
Qed.

(** A device with an empty IMEI cannot be registered. *)
Lemma accepted_on_vehicle rid i v p at_ d d' res ev :
  device_of "" d = None → Accepted res = true →
  ((∃ x, select_one (on_vehicle v) (devices d) = Some x ∧ i = IMEI x) ∨ i = ""%string) →
  ingested rid (snapshot_frame i p at_) d d' res ev →
  ∃ x, select_one (on_vehicle v) (devices d) = Some x ∧ i = IMEI x.
Proof.
  intros Hno Ha [Hx| ->] Hi; [done|]. exfalso. unfold active_device in *.
  assert (Hn : active_device "" d = None) by (unfold active_device; by rewrite Hno).
  inversion Hi; subst; cbn [snapshot_frame f_IMEI] in *; [done|congruence..].
Qed.

(** a device's snapshots without an id share one message id: once one has
    been stored, the next is acknowledged as a success and dropped. *)
Theorem snapshots_without_id_lost p1 p2 s q1 s1 q2 s2 :
  device_of "" (tables s) = None →
  sp_ID p1 = ""%string → sp_ID p2 = ""%string → sp_VehicleID p2 = sp_VehicleID p1 →
  HandleTelemetrySnapshots p1 s = (Ok (SnapshotStored true q1), s1) → tables s1 ≠ tables s →
  HandleTelemetrySnapshots p2 s1 = (Ok (SnapshotStored true q2), s2) →
  tables s2 = tables s1 ∧ snd s2 = snd s1.
Proof.
  intros Hno Hid1 Hid2 Hv H1 Hch H2.
  apply HandleTelemetrySnapshots_ok in H1 as (i1 & a1 & sa & r1 & [Hda _] & Hx1 & H1 & Ha1).
  apply HandleTelemetrySnapshots_ok in H2 as (i2 & a2 & sb & r2 & [Hdb Hsb] & Hx2 & H2 & Ha2).
  apply IngestRawFrame_ok in H1 as (e1 & Hi1 & _), H2 as (e2 & Hi2 & Hs2).
  rewrite Hda in Hi1. rewrite Hdb in Hi2. rewrite Hv in Hx2.
  destruct (accepted_on_vehicle _ _ _ _ _ _ _ _ _ Hno Ha1 Hx1 Hi1) as (x1 & Hv1 & Hi1').
  inversion Hi1 as [e Hn Hd|x Hx Hc Hd|x pid sid rcv sn au rows Hx Hc Hf Hrows Hd]; [by subst r1|done|].
  assert (Hdev : devices (tables s1) =
    update_where (by_imei i1) (with_last_seen sn) (devices (tables s))) by (by rewrite <- Hd).
  assert (Hno2 : device_of "" (tables s1) = None).
  { unfold device_of. rewrite Hdev, select_one_update by done. unfold device_of in Hno. by rewrite Hno. }
  destruct (accepted_on_vehicle _ _ _ _ _ _ _ _ _ Hno2 Ha2 Hx2 Hi2) as (x2 & Hv2 & Hi2').
  rewrite Hdev in Hv2. pose proof (touched_vehicle _ _ _ _ _ _ Hv1 Hv2) as Hsame.
  assert (Him : i2 = i1) by congruence.
  eapply (logged_replay _ (snapshot_frame i1 p1 a1)) in Hi2 as (Hd2 & -> & ->).
  - split; [by rewrite Hd2, ?Hd|]. by rewrite Hs2, Hsb.
  - eexists _, (TenantID x). rewrite <- Hd. cbn. apply elem_of_app. right. by apply list_elem_of_singleton.
  - cbn. by rewrite Him.
  - cbn. by rewrite Hid1, Hid2.
  - cbn. by rewrite Hid1.
  - cbn [snapshot_frame f_IMEI]. eapply (ingested_active _ _ _ _ _ _ i1) in Hi1; [done|].
    cbn [snapshot_frame f_IMEI] in Hx. by rewrite Hx.
Qed.

(** *** Device tokens *)
Lemma hmacSHA256_nonempty key msg : is_empty (hmacSHA256 key msg) = false.
Proof. unfold is_empty, hmacSHA256. reflexivity. Qed.

Lemma validateToken_spec pepper token h :
  validateToken pepper token h = true ↔ h = Some (hmacSHA256 pepper token).
Proof.
  unfold validateToken. destruct h as [x|]; [|by split]. destruct (is_empty x) eqn:He.
  - split; [done|]. intros [= ->]. by rewrite hmacSHA256_nonempty in He.
  - rewrite String.eqb_eq. split; [by intros <-|by intros [= ->]].
Qed.

(** Nothing but the quarantine has changed. *)
Definition only_quarantine (d d' : DB) : Prop := ∃ l, d' = set_device_quarantine l d.
#[local] Instance only_quarantine_preorder : PreOrder only_quarantine.
Proof.
  split; [|intros d1 d2 d3 [l1 ->] [l2 ->]; by eexists].
  intros d. exists (device_quarantine (ops d)). destruct d as [? ? ? ? ? ? ? ? ? ? ? ? ? ? []]. reflexivity.
Qed.

Lemma in_world_subscribers {A} (m : M A) s : snd (snd (in_world m s)) = snd s.
Proof. unfold in_world. by destruct (m (fst s)). Qed.

Lemma ignored_quarantine (m : M unit) s :
  preserves (on_db only_quarantine) m →
  only_quarantine (tables s) (tables (snd (SM_ignore (in_world m) s))) ∧
  snd (snd (SM_ignore (in_world m) s)) = snd s.
Proof.
  intros Hm. split; [|apply in_world_subscribers].
  exact (in_world_preserves only_quarantine m Hm s).
Qed.

Lemma try_lookup imei s :
  ∃ rd w1, SM_try (in_world (GetByIMEI imei)) s = (Ok rd, (w1, snd s)) ∧ w_db w1 = tables s ∧
    ∀ o, rd = Ok o → o = device_of imei (tables s).
Proof.
  unfold SM_try, in_world. pose proof (GetByIMEI_same imei (fst s)) as Hg.
  destruct (GetByIMEI imei (fst s)) as [rd w1] eqn:Eg. exists rd, w1. split; [done|].
  split; [by symmetry|]. intros o ->. by apply GetByIMEI_ok in Eg as [_ Eg].
Qed.

(** (The doors' own refusals.) *)
Lemma refused (m : M unit) (w1 : World) (s : World * S) (x : response) r s' :
  preserves (on_db only_quarantine) m → w_db w1 = tables s → (∀ b, x ≠ Ingested b) →
  (_ ← SM_ignore (in_world m); mret x) (w1, snd s) = (r, s') →
  only_quarantine (tables s) (tables s') ∧ snd s' = snd s ∧ ∀ b, r ≠ Ok (Ingested b).
Proof.
  intros Hm Hw Hx H. destruct (ignored_quarantine m (w1, snd s) Hm) as [Hq Hs].
  injection H as <- <-. cbn [fst snd] in Hq, Hs. rewrite Hw in Hq.
  split; [exact Hq|]. split; [exact Hs|]. intros b [= Hb]. by apply (Hx b).
Qed.

Lemma unchanged (w1 : World) (s : World * S) (x : response) r s' :
  w_db w1 = tables s → (∀ b, x ≠ Ingested b) → (Ok x, (w1, snd s)) = (r : result response, s') →
  only_quarantine (tables s) (tables s') ∧ snd s' = snd s ∧ ∀ b, r ≠ Ok (Ingested b).
Proof.
  intros Hw Hx [= <- <-]. cbn [fst snd]. rewrite Hw.
  split; [reflexivity|]. split; [done|]. intros b [= Hb]. by apply (Hx b).
Qed.

(** a device is heard only with its secret: unless the token's HMAC under
    the server's pepper is the one stored for an active device of that IMEI,
    nothing is ingested and nothing announced; at most a quarantine entry
    is added. *)
Theorem device_token_required pepper imei token body s r s' :
  HandleDeviceGPS pepper imei token body s = (r, s') →
  (∀ x, active_device imei (tables s) = Some x →
     DeviceSecretHash x ≠ Some (hmacSHA256 pepper token)) →
  only_quarantine (tables s) (tables s') ∧ snd s' = snd s ∧ ∀ b, r ≠ Ok (Ingested b).
Proof.
  intros H Hno. unfold HandleDeviceGPS in H.
  destruct (is_empty imei); [by apply (unchanged (fst s) s (BadRequest "missing imei")); [|..|destruct s]|].
  destruct (is_empty token);
    [by apply (unchanged (fst s) s (Unauthorized "missing device token")); [|..|destruct s]|].
  destruct (try_lookup imei s) as (rd & w1 & Ht & Hw & Hx). rewrite (bind_ok _ _ _ _ _ Ht) in H.
  destruct rd as [[x|]|e].
  - destruct (String.eqb (Status x) DeviceStatusActive) eqn:Ha; cbn [negb] in H.
    + destruct (validateToken pepper token (DeviceSecretHash x)) eqn:Hv; cbn [negb] in H.
      * apply validateToken_spec in Hv. destruct (Hno x); [|done].
        unfold active_device. by rewrite <- (Hx _ eq_refl), Ha.
      * by apply (unchanged w1 s (Unauthorized "bad token")).
    + eapply refused; [..|exact H]; [|done..]. apply quarantineFrame_P; [exact _|intros l d; by eexists].
  - eapply refused; [..|exact H]; [|done..]. apply quarantineUnknown_P; [exact _|intros l d; by eexists].
  - by apply (unchanged w1 s (ServerError "device lookup failed")).
Qed.

(** activation and authentication fit: the secret an activation hands out
    is accepted for its device from then on, and a token is accepted exactly
    when its HMAC is that secret's. *)
Theorem activated_token_accepted pepper secret ctx imei w dev raw w' :
  ActivateDevice pepper secret ctx imei w = (Ok (dev, raw), w') →
  ∃ x, active_device imei (w_db w') = Some x ∧
    validateToken pepper raw (DeviceSecretHash x) = true ∧
    ∀ token, validateToken pepper token (DeviceSecretHash x) = true ↔
             hmacSHA256 pepper token = hmacSHA256 pepper raw.
Proof.
  intros H. apply ActivateDevice_steps in H as [-> (x & x' & _ & _ & Ht & Hx' & [_ (s' & Hs & Hh)] & _)].
  injection Hs as <-. exists x'. split; [|split].
  - unfold active_device. rewrite Hx'. cbn [target] in Ht. destruct (String.eqb _ _); [|discriminate Ht].
    injection Ht as <-. by rewrite String.eqb_refl.
  - by apply validateToken_spec.
  - intros token. rewrite validateToken_spec, Hh. split; [intros Heq; by apply (inj Some) in Heq|by intros ->].
Qed.
End Pipeline.

(** ** Concrete runs

    The registry of [demo_devices], a bus with one subscriber that keeps what
    it is told, and two frames. *)
Definition demo_cfg : IngestConfig := mkIngestConfig f1 f1.
Definition demo_bus : InMemoryBus BusSnapshot (list BusSnapshot) :=
  snd (Subscribe NewInMemoryBus BusEventTelemetrySnapshot (λ _ p h, (HandlerOk, (h ++ [p])%list))).
#[local] Existing Instance go_columns.
Definition demo_start : World * list BusSnapshot := (demo_devices, []).
Definition demo_frame (seq : string) (at_ : Time) (odometer : float64) : RawFrame :=
  mkFrame "i1" at_ 0 f1 f1 f1 f0 None None None None (Some odometer) "" "" "own" seq "".
Abbreviation demo_ingest f s :=
  (@IngestRawFrame demo_env demo_json go_columns demo_cfg (list BusSnapshot) demo_bus f s).
Definition demo_first : World * list BusSnapshot := snd (demo_ingest (demo_frame "m1" jan1 f100) demo_start).
Definition demo_snap : TelemetrySnapshotPayload :=
  mkSnap "" "t1" "v1" "2024-01-02T03:04:05Z" f1 f1 f1 f1 f100.

Definition demo_stored (s : World * list BusSnapshot) : nat * nat * nat :=
  let d := w_db (fst s) in
  (List.length (telemetry_positions (ops d)), List.length (device_quarantine (ops d)), List.length (snd s)).
Definition accepted : IngestResult := mkResult true false false "".

Lemma demo_first_ok : demo_ingest (demo_frame "m1" jan1 f100) demo_start = (Ok accepted, demo_first).
Proof. vm_compute. reflexivity. Qed.

Lemma frame_outcome_witness :
  fst (demo_ingest (demo_frame "m1" jan1 f100) demo_start) = Ok accepted ∧
  demo_stored demo_first = (1%nat, 0%nat, 1%nat) ∧
  ∃ ev, @ingested demo_json go_columns demo_cfg (@gen_uuid demo_env (w_ids (fst demo_start))) (demo_frame "m1" jan1 f100) (w_db (fst demo_start)) (w_db (fst demo_first))
          accepted ev ∧ snd demo_first = announced demo_bus ev (snd demo_start).
Proof.
  split; [by rewrite demo_first_ok|]. split; [vm_compute; reflexivity|].
  exact (proj1 (@frame_outcome demo_env demo_json go_columns demo_cfg _ demo_bus (demo_frame "m1" jan1 f100) demo_start
    (Ok accepted) demo_first demo_first_ok)).
Defined.

(** The phone sends the message again, with other content. *)
Lemma replay_ignored_witness :
  let again := demo_ingest (demo_frame "m1" (jan1 + 1) f1) demo_first in
  w_db (fst (snd again)) = w_db (fst demo_first) ∧ snd (snd again) = snd demo_first.
Proof.
  intros again. assert (H : again = (fst again, snd again)) by apply surjective_pairing.
  assert (Hne : f_ProviderMsgID (demo_frame "m1" jan1 f100) ≠ ""%string) by discriminate.
  destruct (@replay_ignored demo_env demo_json go_columns demo_cfg _ demo_bus (demo_frame "m1" jan1 f100) demo_start
    demo_first (demo_frame "m1" (jan1 + 1) f1) demo_first (fst again) (snd again)
    Hne demo_first_ok eq_refl eq_refl (conj eq_refl eq_refl) H) as (Hd & Hs & _).
  exact (conj Hd Hs).
Defined.

Lemma telemetry_invariant_witness :
  let reqs := [ReqDeviceGPS "pepper" "i1" "s3cret" (Ok (demo_frame "m1" jan1 f100));
               ReqDeviceGPS "pepper" "i1" "wrong" (Ok (demo_frame "m2" jan1 f100));
               ReqSnapshot demo_snap;
               ReqMqtt "avandab/telemetry/devices/i9/gps" (Ok (mkMqtt "" 7 "" (demo_frame "" jan1 f100)))] in
  let s := snd (@SM_iter _ _ (@serve demo_env demo_json go_columns demo_cfg _ demo_bus) reqs demo_start) in
  demo_stored s = (2%nat, 1%nat, 2%nat) ∧ telemetry_inv (w_db (fst s)).
Proof.
  intros reqs s. split; [vm_compute; reflexivity|].
  apply (@telemetry_invariant demo_env demo_json go_columns demo_cfg _ demo_bus reqs demo_start).
  exact telemetry_ok_empty.
Defined.

(** A phone whose clock is set to India sends noon, half past six in UTC;
    the position of seven o'clock sent in UTC half an hour later is logged,
    but its text is smaller and the older position stays the latest. *)
Example older_text_stays :
  let log id ts := mkLog id f1 f1 ts in
  let s := snd (@HandleTelemetrySync demo_env demo_json go_columns demo_cfg _ demo_bus
                  (mkSync "i1" "" [log 1 "2026-07-09T12:00:00+05:30"; log 2 "2026-07-09T07:00:00Z"]%string)
                  demo_start) in
  let d := w_db (fst s) in
  let age p := (rd_DeviceTime p - days_from_civil 2026 7 9 * day) / (60 * 10 ^ 9) in
  (age ∘ po_Reading) <$> positions d = [390; 420] ∧
  (age ∘ la_Reading) <$> vehicle_latest_position (ops d) = [390].
Proof. vm_compute. by split. Qed.

(** The same message id from two devices is two messages; from one device,
    one. *)
Example one_message_per_device :
  let raws := telemetry_raw_events (ops (w_db (fst demo_first))) in
  message_known (demo_frame "m1" jan1 f100) raws ∧
  ¬ message_known (demo_frame "m2" jan1 f100) raws ∧
  ¬ message_known (mkFrame "i2" jan1 0 f1 f1 f1 f0 None None None None None "" "" "own" "m1" "") raws.
Proof.
  intros raws. assert (Hk : map (λ y, (raw_IMEI y, raw_MsgID y)) raws = [("i1", Some "m1")]%string)
    by (vm_compute; reflexivity).
  revert Hk. generalize raws. intros l Hk. destruct l as [|y [|]]; try discriminate Hk. injection Hk as Hi Hm.
  split; [split; [discriminate|]; exists y; split; [by left|by split]|].
  split; intros (_ & z & Hz & Hi' & Hm'); apply list_elem_of_singleton in Hz as ->.
  - rewrite Hm in Hm'. discriminate Hm'.
  - rewrite Hi in Hi'. discriminate Hi'.
Qed.

Lemma zero_resets_guard_witness :
  let f := demo_frame "m1" jan1 f0 in
  ∃ d1, rd_Odometer (@stored_reading go_columns demo_cfg d1 (demo_frame "m2" (jan1 + 1) f1)) = Some f1.
Proof.
  intros f. exists (w_db (fst (snd (demo_ingest f demo_start)))).
  assert (H : demo_ingest f demo_start = (Ok accepted, snd (demo_ingest f demo_start))) by (vm_compute; reflexivity).
  destruct (IngestRawFrame_ok _ _ _ _ _ _ H) as (ev & Hi & _).
  apply (@zero_resets_guard demo_json go_columns demo_cfg _ f (w_db (fst demo_start)) ev _ (demo_frame "m2" (jan1 + 1) f1) f1 Hi);
    try reflexivity. intros p Hp. exfalso. revert Hp. vm_compute. inversion 1.
Defined.

Lemma snapshots_without_id_lost_witness :
  let run p s := @HandleTelemetrySnapshots demo_env demo_json go_columns demo_cfg _ demo_bus p s in
  let later := mkSnap "" "t1" "v1" "2024-01-02T03:05:05Z" f100 f1 f1 f1 f100 in
  fst (run later (snd (run demo_snap demo_start))) = Ok (SnapshotStored true false) ∧
  w_db (fst (snd (run later (snd (run demo_snap demo_start))))) = w_db (fst (snd (run demo_snap demo_start))).
Proof.
  intros run later.
  assert (H1 : run demo_snap demo_start = (Ok (SnapshotStored true false), snd (run demo_snap demo_start)))
    by (vm_compute; reflexivity).
  assert (H2 : run later (snd (run demo_snap demo_start)) =
    (Ok (SnapshotStored true false), snd (run later (snd (run demo_snap demo_start))))) by (vm_compute; reflexivity).
  split; [by rewrite H2|].
  apply (@snapshots_without_id_lost demo_env demo_json go_columns demo_cfg _ demo_bus demo_snap later demo_start false _ false _);
    [vm_compute; reflexivity|reflexivity..|exact H1| |exact H2].
  intros Heq%(f_equal (λ d, List.length (telemetry_positions (ops d)))). vm_compute in Heq. discriminate Heq.
Defined.

Lemma device_token_required_witness :
  let s' := snd (@HandleDeviceGPS demo_env demo_json go_columns demo_cfg _ demo_bus "pepper" "i1" "guess"
                   (Ok (demo_frame "m1" jan1 f100)) demo_start) in
  only_quarantine (w_db (fst demo_start)) (w_db (fst s')) ∧ snd s' = snd demo_start.
Proof.
  intros s'.
  pose proof (@device_token_required demo_env demo_json go_columns demo_cfg _ demo_bus "pepper" "i1" "guess"
    (Ok (demo_frame "m1" jan1 f100)) demo_start _ s' (surjective_pairing _)) as H.
  destruct H as (Hq & Hs & _); [|by split].
  intros x Hx Hh.
  assert (Hb : option_map (λ x, bool_decide (DeviceSecretHash x = Some (hmacSHA256 "pepper" "guess")))
                 (active_device "i1" (w_db (fst demo_start))) = Some false) by (vm_compute; reflexivity).
  cbv beta in Hx. rewrite Hx in Hb. cbn [option_map] in Hb. rewrite bool_decide_eq_true_2 in Hb by done. discriminate Hb.
Defined.

Lemma activated_token_accepted_witness :
  let w := snd (@SM_iter World _ (@Devices.run_op demo_env demo_json)
    [OpRegister acme (register "i1"); OpAssign acme "i1" "v1"] (world demo_db)) in
  let run := @ActivateDevice demo_env demo_json "pepper" (Ok "s3cret"%string) acme "i1" w in
  ∃ dev raw x, fst run = Ok (dev, raw) ∧ active_device "i1" (w_db (snd run)) = Some x ∧
    validateToken "pepper" raw (DeviceSecretHash x) = true.
Proof.
  intros w run. destruct run as [[[dev raw]|e] w'] eqn:H; [|vm_compute in H; discriminate H].
  destruct (@activated_token_accepted demo_env demo_json "pepper" (Ok "s3cret"%string) acme "i1" w dev raw w' H)
    as (x & Hx & Hv & _).
  exists dev, raw, x. by split_and!.
Defined.
End Ingest.
