(* ===== verification/TripRepository.v ===== *)
(** * The trip repository

    [internal/trip/infrastructure/persistence/sql/trip_repository.go], its
    converter ([converters/trip_converter.go]) and the statements of
    [db/query/trips.sql] it runs. *)
From stdpp Require Import base decidable list strings option.
From Stdlib Require Import ZArith Lia String.
From S2P Require Import Prelude GoFloat Shared Events TripAggregate InvoiceAggregate.
From S2P Require Import Database Outbox Repository.
Open Scope Z_scope.

Module TripRepo.

Abbreviation Row := TripRow.SQLTripModel.

(** ** The converter

    [sql.NullString] and [sql.NullTime] are options, so a nullable column is
    the pointer field; only the remarks map [""] to NULL. *)
Definition null_if_empty (s : string) : option string := if is_empty s then None else Some s.

Definition MapToAggregate (m : Row) : Trip.TripAggregate :=
  Trip.mkTrip (TripRow.ID m) (TripRow.TenantID m) (TripRow.TripNumber m) (TripRow.BookingID m)
    (TripRow.DriverID m) (TripRow.VehicleID m) (TripRow.RouteID m) (TripRow.DepartureTime m)
    (TripRow.ArrivalTime m) (Trip.status_of_string (TripRow.Status m))
    (default ""%string (TripRow.Remarks m)) (TripRow.StartedAt m) (TripRow.ReachedPickupAt m)
    (TripRow.InTransitAt m) (TripRow.DeliveredAt m) (TripRow.CompletedAt m)
    (TripRow.CreatedAt m) (TripRow.UpdatedAt m) (TripRow.Version m) [].

Definition MapToPersistence (agg : Trip.TripAggregate) : Row :=
  TripRow.mkTripRow (Trip.ID agg) (Trip.TripNumber agg) (Trip.BookingID agg)
    (Trip.DriverID agg) (Trip.VehicleID agg) (Trip.RouteID agg) (Trip.DepartureTime agg)
    (Trip.ArrivalTime agg) (Trip.status_string (Trip.Status agg))
    (null_if_empty (Trip.Remarks agg)) (Trip.TenantID agg) (Trip.Version agg)
    (Trip.CreatedAt agg) (Trip.UpdatedAt agg) (Trip.StartedAt agg) (Trip.ReachedPickupAt agg)
    (Trip.InTransitAt agg) (Trip.DeliveredAt agg) (Trip.CompletedAt agg).

(** ** Statements (trips.sql) *)
Definition trip_key (id tenant : string) (r : Row) : bool :=
  String.eqb (TripRow.ID r) id && String.eqb (TripRow.TenantID r) tenant.

(** The CHECK on [trips.status] (migration 00081). *)
Definition status_check (s : string) : bool :=
  bool_decide (s ∈ map Trip.status_string Trip.known_statuses).

(** The statuses [CheckDriverConflict] and [CheckVehicleConflict] list. *)
Definition active_status (s : string) : bool :=
  bool_decide (s ∈ ["scheduled"; "assigned"; "started"; "reached_pickup"; "in_transit";
                    "delivered"]%string).

Section Repo.
Context {env : Env}.

(** The LEFT JOINs are on primary keys: they neither drop nor multiply
    rows. *)
Definition GetTripByID (id tenant : string) : M Row :=
  query_row (λ _ d, select_one (trip_key id tenant) (trips d)).

Definition GetTripByNumber (number tenant : string) : M Row :=
  query_row (λ _ d, select_one (λ r, String.eqb (TripRow.TripNumber r) number &&
                                     String.eqb (TripRow.TenantID r) tenant) (trips d)).

(** The row [INSERT] stores: version 1, and the column defaults. *)
Definition inserted (now : Time) (p : Row) : Row :=
  TripRow.mkTripRow (TripRow.ID p) (TripRow.TripNumber p) (TripRow.BookingID p)
    (TripRow.DriverID p) (TripRow.VehicleID p) (TripRow.RouteID p) (TripRow.DepartureTime p)
    (TripRow.ArrivalTime p) (TripRow.Status p) (TripRow.Remarks p) (TripRow.TenantID p) 1
    now now (TripRow.StartedAt p) (TripRow.ReachedPickupAt p) (TripRow.InTransitAt p)
    (TripRow.DeliveredAt p) (TripRow.CompletedAt p).

Definition CreateTrip (p : Row) : M unit :=
  exec (λ now d,
    if exists_row (λ r, String.eqb (TripRow.ID r) (TripRow.ID p)) (trips d)
    then (Fail (Err "UNIQUE constraint failed: trips.id"), d)
    else if exists_row (λ r, String.eqb (TripRow.TripNumber r) (TripRow.TripNumber p)) (trips d)
    then (Fail (Err "UNIQUE constraint failed: trips.trip_number"), d)
    else if negb (status_check (TripRow.Status p))
    then (Fail (Err "CHECK constraint failed: status"), d)
    else (Ok tt, set_trips (trips d ++ [inserted now p]) d)).

(** [SET ..., version = version + 1, updated_at = datetime('now')]. *)
Definition updated (now : Time) (p r : Row) : Row :=
  TripRow.mkTripRow (TripRow.ID r) (TripRow.TripNumber p) (TripRow.BookingID p)
    (TripRow.DriverID p) (TripRow.VehicleID p) (TripRow.RouteID p) (TripRow.DepartureTime p)
    (TripRow.ArrivalTime p) (TripRow.Status p) (TripRow.Remarks p) (TripRow.TenantID r)
    (TripRow.Version r + 1) (TripRow.CreatedAt r) now (TripRow.StartedAt p)
    (TripRow.ReachedPickupAt p) (TripRow.InTransitAt p) (TripRow.DeliveredAt p)
    (TripRow.CompletedAt p).

Definition version_key (id tenant : string) (v : Z) (r : Row) : bool :=
  trip_key id tenant r && (TripRow.Version r =? v).

Definition UpdateTrip (p : Row) : M unit :=
  exec (λ now d,
    let key := version_key (TripRow.ID p) (TripRow.TenantID p) (TripRow.Version p) in
    if negb (exists_row key (trips d)) then (Fail ErrNoRows, d)
    else if exists_row (λ r, negb (key r) &&
              String.eqb (TripRow.TripNumber r) (TripRow.TripNumber p)) (trips d)
    then (Fail (Err "UNIQUE constraint failed: trips.trip_number"), d)
    else if negb (status_check (TripRow.Status p))
    then (Fail (Err "CHECK constraint failed: status"), d)
    else (Ok tt, set_trips (update_where key (updated now p) (trips d)) d)).

(** [driver_id = ?] with a NULL argument selects nothing. *)
Definition conflicts_with (col : Row → option string) (x tenant excludeID : string) (r : Row)
    : bool :=
  negb (is_empty x) && bool_decide (col r = Some x) &&
  String.eqb (TripRow.TenantID r) tenant && active_status (TripRow.Status r) &&
  (is_empty excludeID || negb (String.eqb (TripRow.ID r) excludeID)).

(** ** Operations *)
Definition Exists (id tenant : string) : M bool :=
  r ← SM_try (GetTripByID id tenant);
  match r with
  | Ok _ => mret true
  | Fail e => if is_no_rows e then mret false else SM_fail e
  end.

Definition conflict_error : error :=
  Err "concurrency conflict: trip modified by another process".

Definition Save (t : Trip.TripAggregate) : M Trip.TripAggregate :=
  exists_ ← Exists (Trip.ID t) (Trip.TenantID t);
  let p := MapToPersistence t in
  t ← (if (exists_ : bool) then
         r ← SM_try (UpdateTrip p);
         match r with
         | Fail e => if is_no_rows e then SM_fail conflict_error else SM_fail e
         | Ok _ => mret (Trip.set_Version (wrap64 (Trip.Version t + 1)) t)
         end
       else
         _ ← CreateTrip p;
         mret (Trip.set_Version 1 t));
  _ ← SaveEvents (Trip.ID t) "Trip" (Trip.events t);
  mret (Trip.ClearEvents t).

Definition not_found (r : result Row) : M Trip.TripAggregate :=
  match r with
  | Fail e => if is_no_rows e then SM_fail (Err "trip not found") else SM_fail e
  | Ok row => mret (MapToAggregate row)
  end.

Definition Find (id tenant : string) : M Trip.TripAggregate :=
  r ← SM_try (GetTripByID id tenant); not_found r.

Definition FindByNumber (number tenant : string) : M Trip.TripAggregate :=
  r ← SM_try (GetTripByNumber number tenant); not_found r.

Record ConflictInfo := mkConflict {
  ConflictID : string; ConflictNumber : string; ConflictStatus : string;
  ConflictDeparture : Time; ConflictArrival : option Time }.

Definition conflict_info (r : Row) : ConflictInfo :=
  mkConflict (TripRow.ID r) (TripRow.TripNumber r) (TripRow.Status r)
    (TripRow.DepartureTime r) (TripRow.ArrivalTime r).

Definition CheckDriverConflict (driverID tenant excludeTripID : string) : M (list ConflictInfo) :=
  rows ← query (λ _ d, select_many
    (conflicts_with TripRow.DriverID driverID tenant excludeTripID) (trips d));
  mret (map conflict_info rows).

Definition CheckVehicleConflict (vehicleID tenant excludeTripID : string)
    : M (list ConflictInfo) :=
  rows ← query (λ _ d, select_many
    (conflicts_with TripRow.VehicleID vehicleID tenant excludeTripID) (trips d));
  mret (map conflict_info rows).
End Repo.

(** ** Round trip *)
Definition trip_wf (t : Trip.TripAggregate) : Prop := Trip.status_wf (Trip.Status t).

(** every trip whose status is one of the declared constants, or any other
    normal form, survives the round trip through its row, up to its pending
    events. *)
Theorem trip_round_trip t :
  trip_wf t → MapToAggregate (MapToPersistence t) = Trip.ClearEvents t.
Proof.
  intros Hs. unfold MapToAggregate, MapToPersistence. cbn. rewrite Hs.
  destruct t as [? ? ? ? ? ? ? ? ? ? rem]. unfold Trip.ClearEvents, Trip.set_events; cbn. f_equal.
  unfold null_if_empty, is_empty. destruct (String.eqb_spec rem ""); cbn; congruence.
Qed.

Lemma MapToAggregate_wf r : trip_wf (MapToAggregate r).
Proof. apply Trip.trip_status_of_string_wf. Qed.

Lemma trip_key_spec id t r : trip_key id t r = true ↔ TripRow.ID r = id ∧ TripRow.TenantID r = t.
Proof. unfold trip_key. by rewrite andb_true_iff, !String.eqb_eq. Qed.


(** Operations keep an aggregate storable. *)
Lemma trip_op_wf op now t t' : Trip.apply_op op now t = Ok t' → trip_wf t → trip_wf t'.
Proof.
  unfold trip_wf, Trip.status_wf. intros H%Trip.lifecycle_sound Hw.
  inversion H; by subst.
Qed.

(** ** Laws of the repository *)
Section RepoLaws.
Context {env : Env}.

(** The primary key. *)
Definition trips_pk (d : DB) : Prop := NoDup (map TripRow.ID (trips d)).

Definition stored_trip (d : DB) (id tenant : string) : option Trip.TripAggregate :=
  MapToAggregate <$> select_one (trip_key id tenant) (trips d).

(** A saved aggregate: next version, database times, no pending events. *)
Definition saved_trip (now : Time) (t0 t : Trip.TripAggregate) : Trip.TripAggregate :=
  MapToAggregate (updated now (MapToPersistence t) (MapToPersistence t0)).

Lemma Find_ok id tenant w t w' :
  Find id tenant w = (Ok t, w') →
  w_db w' = w_db w ∧ stored_trip (w_db w) id tenant = Some t.
Proof.
  unfold Find, not_found, stored_trip. intros H.
  apply bind_ok_inv in H as (r & w1 & Hq & H). unfold SM_try in Hq.
  destruct (GetTripByID id tenant w) as [r0 w0] eqn:E. injection Hq as -> ->.
  apply query_row_inv in E as (Hd & _ & E). destruct r as [row|e].
  - injection H as <- <-. by rewrite E.
  - by destruct (is_no_rows e).
Qed.

Lemma Find_same id tenant : preserves (on_db eq) (Find id tenant).
Proof. unfold Find, not_found, GetTripByID. preserve. Qed.

Lemma stored_trip_wf d id tenant t :
  stored_trip d id tenant = Some t →
  trip_wf t ∧ Trip.ID t = id ∧ Trip.TenantID t = tenant ∧ Trip.events t = [].
Proof.
  unfold stored_trip. intros (r & Hr & ->)%fmap_Some_1.
  apply select_one_Some in Hr as [_ [Hid Ht]%trip_key_spec].
  split_and!; try done. apply MapToAggregate_wf.
Qed.

(** [Exists] on a stored trip. *)
Lemma Exists_ok id tenant w b w' :
  Exists id tenant w = (Ok b, w') →
  w_db w' = w_db w ∧ w_pool w' = w_pool w ∧
  (b = true ↔ is_Some (stored_trip (w_db w) id tenant)).
Proof.
  unfold Exists, stored_trip. intros H.
  apply bind_ok_inv in H as (r & w1 & Hq & H). unfold SM_try in Hq.
  destruct (GetTripByID id tenant w) as [r0 w0] eqn:E. injection Hq as -> ->.
  apply query_row_inv in E as (Hd & Hp & E). destruct r as [row|e].
  - injection H as <- <-. rewrite E. split_and!; [done..|]. split; [by eexists|done].
  - destruct (is_no_rows e); [|done]. injection H as <- <-. rewrite (E eq_refl).
    split_and!; [done..|]. cbn. split; [done|by intros [? ?]].
Qed.

Lemma UpdateTrip_ok p w w' :
  UpdateTrip p w = (Ok tt, w') →
  let key := version_key (TripRow.ID p) (TripRow.TenantID p) (TripRow.Version p) in
  exists_row key (trips (w_db w)) = true ∧ status_check (TripRow.Status p) = true ∧
  (∀ r, r ∈ trips (w_db w) → key r = false → TripRow.TripNumber r ≠ TripRow.TripNumber p) ∧
  w_pool w' = w_pool w ∧
  ∃ now, w_db w' = set_trips (update_where key (updated now p) (trips (w_db w))) (w_db w).
Proof.
  intros H. apply stmt_inv in H as (Hp & _ & _ & H). cbv beta zeta in H |- *. revert H.
  destruct (exists_row (version_key _ _ _) _); [|discriminate 1]. cbn [negb].
  destruct (exists_row _ _) eqn:Hn; [discriminate 1|].
  destruct (status_check _); [|discriminate 1]. cbn [negb]. intros H. injection H as H.
  split_and!; try done; [|by eexists].
  intros r Hr Hk Heq. apply (proj1 (exists_row_false _ _)) with (r := r) in Hn; [|done].
  by rewrite Hk, Heq, String.eqb_refl in Hn.
Qed.

Lemma CreateTrip_ok p w w' :
  CreateTrip p w = (Ok tt, w') →
  (∀ r, r ∈ trips (w_db w) → TripRow.ID r ≠ TripRow.ID p) ∧
  status_check (TripRow.Status p) = true ∧ w_pool w' = w_pool w ∧
  ∃ now, w_db w' = set_trips (trips (w_db w) ++ [inserted now p]) (w_db w).
Proof.
  intros H. apply stmt_inv in H as (Hp & _ & _ & H). cbv beta zeta in H.
  destruct (exists_row (λ r, String.eqb (TripRow.ID r) _) _) eqn:Hi; [discriminate H|].
  destruct (exists_row (λ r, String.eqb (TripRow.TripNumber r) _) _); [discriminate H|].
  destruct (status_check _); [|discriminate H]. cbn [negb] in H. injection H as H.
  split_and!; try done; [|by eexists]. intros r Hr Heq.
  apply (proj1 (exists_row_false _ _)) with (r := r) in Hi; [|done].
  by rewrite Heq, String.eqb_refl in Hi.
Qed.

(** What [Save] did when it succeeded: an insert of a new trip, or an
    update over the very version the aggregate carries; then the events. *)
Lemma Save_inv t w t' w' :
  Save t w = (Ok t', w') →
  let p := MapToPersistence t in
  ∃ d1 now rows,
    w_db w' = set_outbox_events (outbox_events (w_db w) ++ rows) d1 ∧
    Forall2 (outbox_row_of (Trip.ID t) "Trip") (Trip.events t) rows ∧
    w_pool w' = w_pool w ∧ status_check (TripRow.Status p) = true ∧
    Trip.ID t' = Trip.ID t ∧
    ((stored_trip (w_db w) (Trip.ID t) (Trip.TenantID t) = None ∧
      (∀ r, r ∈ trips (w_db w) → TripRow.ID r ≠ TripRow.ID p) ∧
      d1 = set_trips (trips (w_db w) ++ [inserted now p]) (w_db w)) ∨
     (let key := version_key (TripRow.ID p) (TripRow.TenantID p) (TripRow.Version p) in
      exists_row key (trips (w_db w)) = true ∧
      d1 = set_trips (update_where key (updated now p) (trips (w_db w))) (w_db w))).
Proof.
  unfold Save. intros H. cbn zeta.
  apply bind_ok_inv in H as (b & w1 & He & H). apply Exists_ok in He as (Hd1 & Hp1 & Hb).
  apply bind_ok_inv in H as (t1 & w2 & Hsave & H).
  apply bind_ok_inv in H as ([] & w3 & Hev & H). injection H as <- <-.
  apply SaveEvents_ok in Hev as (rows & Hrows & Hp3 & Hd3).
  set (p := MapToPersistence t) in *. destruct b.
  - apply bind_ok_inv in Hsave as (r & wu & Hu & Hsave). unfold SM_try in Hu.
    destruct (UpdateTrip p w1) as [r0 w0] eqn:Eu. injection Hu as -> ->.
    destruct r as [[]|e]; [|by destruct (is_no_rows e)]. injection Hsave as <- <-.
    apply UpdateTrip_ok in Eu as (Hex & Hck & _ & Hp2 & now & Hd2). cbn in *.
    rewrite Hd1 in Hex, Hd2. do 3 eexists. split_and!; [|exact Hrows|congruence|done|done|].
    2:{ right. by split. }
    by rewrite Hd3, Hd2.
  - apply bind_ok_inv in Hsave as ([] & wu & Hc & Hsave). injection Hsave as <- <-.
    apply CreateTrip_ok in Hc as (Hfresh & Hck & Hp2 & now & Hd2).
    rewrite Hd1 in Hfresh, Hd2. do 3 eexists. split_and!; [|exact Hrows|congruence|done|done|].
    2:{ left. split_and!; [|done|done].
        destruct (stored_trip _ _ _); [|done].
        discriminate (proj2 Hb ltac:(by eexists)). }
    by rewrite Hd3, Hd2.
Qed.

Lemma stored_trip_ext d d' id tenant :
  trips d' = trips d → stored_trip d' id tenant = stored_trip d id tenant.
Proof. unfold stored_trip. by intros ->. Qed.

(** Reading the table after an update of the row [(id, tenant)]. *)
Lemma stored_trip_update d p now id tenant :
  trips_pk d →
  let key := version_key (TripRow.ID p) (TripRow.TenantID p) (TripRow.Version p) in
  exists_row key (trips d) = true →
  let d' := set_trips (update_where key (updated now p) (trips d)) d in
  trips_pk d' ∧
  if decide (id = TripRow.ID p ∧ tenant = TripRow.TenantID p) then
    ∃ r, select_one (trip_key id tenant) (trips d) = Some r ∧
         TripRow.Version r = TripRow.Version p ∧
         stored_trip d' id tenant = Some (MapToAggregate (updated now p r))
  else stored_trip d' id tenant = stored_trip d id tenant.
Proof.
  cbn zeta. intros Hpk Hex. split.
  { unfold trips_pk. cbn. by rewrite map_update. }
  unfold stored_trip. cbn [trips set_trips]. rewrite select_one_update by done.
  apply exists_row_spec in Hex as (r0 & Hr0 & Hk0).
  unfold version_key in Hk0. apply andb_true_iff in Hk0 as [Hk0 Hv0%Z.eqb_eq].
  case_decide as Hkey.
  - destruct Hkey as [-> ->].
    destruct (select_one (trip_key _ _) (trips d)) as [r|] eqn:E.
    2:{ by rewrite (select_one_None _ _ _ E Hr0) in Hk0. }
    pose proof (select_one_Some _ _ _ E) as [Hr Hk].
    assert (r = r0) as <-.
    { apply (NoDup_map_inj TripRow.ID (trips d)); try done.
      apply trip_key_spec in Hk as [-> _], Hk0 as [-> _]. done. }
    exists r. split_and!; [done|done|]. cbn. unfold version_key.
    by rewrite Hk, Hv0, Z.eqb_refl.
  - destruct (select_one (trip_key id tenant) (trips d)) as [r|] eqn:E; [|done]. cbn.
    apply select_one_Some in E as [_ [Hi Ht]%trip_key_spec].
    unfold version_key. destruct (trip_key (TripRow.ID p) _ r) eqn:Hk; [|done].
    apply trip_key_spec in Hk as [? ?]. destruct Hkey. split; congruence.
Qed.

Lemma Save_ok t t0 w t' w' :
  trips_pk (w_db w) → trip_wf t →
  stored_trip (w_db w) (Trip.ID t) (Trip.TenantID t) = Some t0 →
  Save t w = (Ok t', w') →
  Trip.Version t = Trip.Version t0 ∧ Trip.ID t' = Trip.ID t ∧ trips_pk (w_db w') ∧
  (∃ now, stored_trip (w_db w') (Trip.ID t) (Trip.TenantID t) = Some (saved_trip now t0 t)) ∧
  (∀ id tenant, ¬ (id = Trip.ID t ∧ tenant = Trip.TenantID t) →
     stored_trip (w_db w') id tenant = stored_trip (w_db w) id tenant) ∧
  (∃ rows, outbox_events (w_db w') = (outbox_events (w_db w) ++ rows)%list ∧
           Forall2 (outbox_row_of (Trip.ID t) "Trip") (Trip.events t) rows).
Proof.
  intros Hpk Hwf Hst H.
  apply Save_inv in H as (d1 & now & rows & Hd & Hrows & _ & _ & Hid & [(Hn & _)|Hup]);
    [by rewrite Hst in Hn|].
  cbn zeta in Hup. destruct Hup as [Hex ->].
  pose proof (stored_trip_update (w_db w) (MapToPersistence t) now (Trip.ID t) (Trip.TenantID t)
                Hpk Hex) as [Hpk' Hs].
  cbn zeta in Hs. rewrite decide_True in Hs by done. destruct Hs as (r & Hr & Hv & Hs).
  unfold stored_trip in Hst. rewrite Hr in Hst. injection Hst as Hst.
  split_and!; [|done|by rewrite Hd|exists now; rewrite Hd| |].
  - by rewrite <- Hst.
  - rewrite stored_trip_ext with (d := set_trips _ _) by done. rewrite Hs. f_equal.
    unfold saved_trip, MapToAggregate, updated. rewrite <- Hst. cbn. done.
  - intros id tenant Hne. rewrite Hd, stored_trip_ext with (d := set_trips _ _) by done.
    pose proof (stored_trip_update (w_db w) (MapToPersistence t) now id tenant Hpk Hex) as [_ Ho].
    cbn zeta in Ho. by rewrite decide_False in Ho by done.
  - exists rows. rewrite Hd. done.
Qed.

#[export] Instance trip_repo : AggregateRepo Trip.TripAggregate.
Proof.
  refine {| agg_id := Trip.ID; agg_tenant := Trip.TenantID; agg_version := Trip.Version;
            agg_events := Trip.events; agg_type := "Trip"; agg_wf := trip_wf;
            stored := stored_trip; persisted := saved_trip; repo_inv := trips_pk;
            repo_find := Find; repo_save := Save |}.
  - intros id tenant w t w' _. apply Find_ok.
  - apply stored_trip_wf.
  - intros t t0 w t' w'. apply Save_ok.
  - done.
  - done.
Defined.

(** Saving over another version. *)
Lemma Save_stale t t0 w r w' :
  trips_pk (w_db w) →
  stored_trip (w_db w) (Trip.ID t) (Trip.TenantID t) = Some t0 →
  Trip.Version t ≠ Trip.Version t0 →
  Save t w = (r, w') →
  is_Ok r = false ∧ w_db w' = w_db w ∧
  ((∀ n, stmt_fault n = None) → r = Fail conflict_error).
Proof.
  intros Hpk Hst Hv. unfold stored_trip in Hst.
  destruct (select_one _ _) as [row|] eqn:Er; [|done]. injection Hst as Hst.
  assert (Hno : exists_row (version_key (Trip.ID t) (Trip.TenantID t) (Trip.Version t))
                  (trips (w_db w)) = false).
  { apply exists_row_false. intros r1 Hr1. unfold version_key.
    destruct (trip_key _ _ r1) eqn:Hk1; [|done]. cbn. apply Z.eqb_neq.
    apply select_one_Some in Er as [Hr Hk].
    assert (row = r1) as <-; [|by rewrite <- Hst in Hv].
    apply (NoDup_map_inj TripRow.ID (trips (w_db w))); try done.
    apply trip_key_spec in Hk as [-> _], Hk1 as [-> _]. done. }
  unfold Save, Exists, GetTripByID, UpdateTrip, query_row, exec, stmt.
  cbv [mbind SM_mbind SM_bind SM_try mret SM_mret SM_ret SM_fail].
  destruct (stmt_fault (w_stmts w)) as [e|] eqn:Hf1; cbn.
  - rewrite (stmt_fault_rows _ _ Hf1). intros [= <- <-]. split_and!; try done.
    intros Hf. by rewrite Hf in Hf1.
  - rewrite Er. cbn. destruct (stmt_fault (S (w_stmts w))) as [e|] eqn:Hf2; cbn.
    + rewrite (stmt_fault_rows _ _ Hf2). intros [= <- <-]. split_and!; try done.
      intros Hf. by rewrite Hf in Hf2.
    + rewrite Hno. cbn. by intros [= <- <-].
Qed.

(** optimistic concurrency: saving a trip over a row at another version
    fails and writes nothing; on a healthy database the error is the
    conflict. *)
Theorem stale_save_conflicts t t0 w r w' :
  trips_pk (w_db w) →
  stored_trip (w_db w) (Trip.ID t) (Trip.TenantID t) = Some t0 →
  Trip.Version t ≠ Trip.Version t0 →
  Save t w = (r, w') →
  is_Ok r = false ∧ w_db w' = w_db w ∧
  ((∀ n, stmt_fault n = None) → r = Fail conflict_error).
Proof. apply Save_stale. Qed.

(** no lost update: of two copies of a trip read at the same version,
    once one is saved the other can no longer be. *)
Theorem no_lost_update t1 t2 t0 w w1 w2 t1' r :
  trips_pk (w_db w) → trip_wf t1 →
  stored_trip (w_db w) (Trip.ID t1) (Trip.TenantID t1) = Some t0 →
  Trip.ID t2 = Trip.ID t1 → Trip.TenantID t2 = Trip.TenantID t1 →
  Trip.Version t2 = Trip.Version t1 →
  Save t1 w = (Ok t1', w1) → Save t2 w1 = (r, w2) →
  is_Ok r = false ∧ w_db w2 = w_db w1.
Proof.
  intros Hpk Hwf Hst Hid Ht Hv H1 H2.
  destruct (Save_ok _ _ _ _ _ Hpk Hwf Hst H1) as (Hv0 & _ & Hpk1 & [now Hst1] & _).
  rewrite <- Hid, <- Ht in Hst1.
  destruct (Save_stale t2 _ w1 r w2 Hpk1 Hst1) as (Hr & Hd & _); [|done|done].
  rewrite Hv. unfold saved_trip. cbn. lia.
Qed.
End RepoLaws.
(** ** Concrete runs *)
Definition demo_stored : Trip.TripAggregate := MapToAggregate demo_trip_row.

Lemma trip_round_trip_witness :
  MapToAggregate (MapToPersistence Trip.demo_delivered) = Trip.ClearEvents Trip.demo_delivered.
Proof. apply (trip_round_trip Trip.demo_delivered). reflexivity. Defined.

Lemma demo_pk : trips_pk demo_db.
Proof. apply NoDup_singleton. Qed.

(** Two dispatchers read the draft trip; one schedules it, the other
    assigns a driver. *)
Definition copy_op (op : Trip.trip_op) : Trip.TripAggregate :=
  match Trip.apply_op op jan1 demo_stored with Ok t => t | Fail _ => demo_stored end.
Definition copy1 : Trip.TripAggregate := copy_op Trip.OpSchedule.
Definition copy2 : Trip.TripAggregate := copy_op (Trip.OpAssignDriver "d1").
Definition first_saved : World := snd (Save (env := demo_env) copy1 (world demo_db)).
Definition saved_copy1 : Trip.TripAggregate :=
  match fst (Save (env := demo_env) copy1 (world demo_db)) with Ok t => t | Fail _ => copy1 end.

Lemma no_lost_update_witness :
  let r := fst (Save (env := demo_env) copy2 first_saved) in
  let w2 := snd (Save (env := demo_env) copy2 first_saved) in
  Trip.Status saved_copy1 = Trip.TripScheduled ∧ is_Ok r = false ∧ w_db w2 = w_db first_saved.
Proof.
  intros r w2. split; [vm_compute; reflexivity|].
  apply (no_lost_update (env := demo_env) copy1 copy2 demo_stored (world demo_db) first_saved w2
           saved_copy1 r demo_pk); vm_compute; reflexivity.
Defined.

Definition stale_copy : Trip.TripAggregate := Trip.set_Version 7 copy1.

Lemma stale_save_conflicts_witness :
  let r := fst (Save (env := demo_env) stale_copy (world demo_db)) in
  let w' := snd (Save (env := demo_env) stale_copy (world demo_db)) in
  is_Ok r = false ∧ w_db w' = demo_db ∧
  ((∀ n, stmt_fault (Env := demo_env) n = None) → r = Fail conflict_error).
Proof.
  intros r w'.
  apply (stale_save_conflicts (env := demo_env) stale_copy demo_stored (world demo_db) r w' demo_pk);
    [vm_compute; reflexivity|vm_compute; discriminate|vm_compute; reflexivity].
Defined.
End TripRepo.
