(* ===== verification/FleetRepository.v ===== *)
(** * The driver and vehicle repositories and use cases

    [internal/driver] and [internal/vehicle]: the SQL repositories, their
    converters, the statements of [db/query/drivers.sql] and [vehicles.sql],
    and the create and update use cases. *)
From stdpp Require Import base decidable list strings option.
From Stdlib Require Import ZArith Lia String.
From S2P Require Import Prelude GoFloat Shared Events FleetAggregates InvoiceAggregate.
From S2P Require Import Database Outbox.
Open Scope Z_scope.

Module DriverRepo.

Abbreviation Row := DriverRow.Driver.

(** [converters.ToDomain]: the aggregate is rebuilt by its constructor, so
    it records a creation event, and its update time is the creation time. *)
Definition ToDomain (d : Row) : Driver.DriverAggregate :=
  Driver.NewDriverAggregate (DriverRow.ID d) (DriverRow.TenantID d) (DriverRow.DriverID d)
    (DriverRow.FirstName d) (DriverRow.LastName d) (DriverRow.Phone d) (DriverRow.Email d)
    (DriverRow.Address d) (DriverRow.LicenseNumber d) (DriverRow.LicenseExpiry d)
    (DriverRow.ExperienceYears d) (Driver.status_of_string (DriverRow.Status d))
    (DriverRow.EmergencyContactName d) (DriverRow.EmergencyContactPhone d) (DriverRow.Notes d)
    (DriverRow.CreatedAt d).

Definition driver_key (id tenant : string) (r : Row) : bool :=
  String.eqb (DriverRow.ID r) id && String.eqb (DriverRow.TenantID r) tenant.

(** The row [INSERT] or [UPDATE] writes: every column but the identity and
    the times comes from the aggregate. *)
Definition write_row (id tenant : string) (created updated : Time) (d : Driver.DriverAggregate)
    : Row :=
  DriverRow.mkDriverRow id (Driver.DriverDisplayID d) (Driver.FirstName d) (Driver.LastName d)
    (Driver.Phone d) (Driver.Email d) (Driver.Address d) (Driver.LicenseNumber d)
    (Driver.LicenseExpiry d) (Driver.ExperienceYears d) (Driver.status_string (Driver.Status d))
    (Driver.EmergencyContactName d) (Driver.EmergencyContactPhone d) (Driver.Notes d)
    tenant created updated.

Section Repo.
Context {env : Env}.

Definition GetDriverByID (id tenant : string) : M Row :=
  query_row (λ _ d, select_one (driver_key id tenant) (drivers d)).

Definition CreateDriver (a : Driver.DriverAggregate) : M unit :=
  exec (λ now d,
    if exists_row (λ r, String.eqb (DriverRow.ID r) (Driver.ID a)) (drivers d)
    then (Fail (Err "UNIQUE constraint failed: drivers.id"), d)
    else if exists_row (λ r, String.eqb (DriverRow.DriverID r) (Driver.DriverDisplayID a))
              (drivers d)
    then (Fail (Err "UNIQUE constraint failed: drivers.driver_id"), d)
    else (Ok tt, set_drivers
            (drivers d ++ [write_row (Driver.ID a) (Driver.TenantID a) now now a]) d)).

(** No version column is compared: the last writer wins. *)
Definition UpdateDriver (a : Driver.DriverAggregate) : M unit :=
  exec (λ now d,
    let key := driver_key (Driver.ID a) (Driver.TenantID a) in
    if negb (exists_row key (drivers d)) then (Fail ErrNoRows, d)
    else if exists_row (λ r, negb (key r) &&
              String.eqb (DriverRow.DriverID r) (Driver.DriverDisplayID a)) (drivers d)
    then (Fail (Err "UNIQUE constraint failed: drivers.driver_id"), d)
    else (Ok tt, set_drivers (update_where key
            (λ r, write_row (DriverRow.ID r) (DriverRow.TenantID r) (DriverRow.CreatedAt r)
                    now a) (drivers d)) d)).

Definition Save (d : Driver.DriverAggregate) : M Driver.DriverAggregate :=
  r ← SM_try (GetDriverByID (Driver.ID d) (Driver.TenantID d));
  _ ← match r with
      | Fail e => if is_no_rows e then CreateDriver d else SM_fail e
      | Ok _ => UpdateDriver d
      end;
  _ ← SaveEvents (Driver.ID d) "Driver" (Driver.events d);
  mret (Driver.ClearEvents d).

Definition Find (id tenant : string) : M Driver.DriverAggregate :=
  row ← GetDriverByID id tenant; mret (ToDomain row).

Record CreateDriverCommand := mkCreateDriver {
  cd_TenantID : string; cd_FirstName : string; cd_LastName : string; cd_Phone : string;
  cd_Email : option string; cd_Address : option string; cd_LicenseNumber : string;
  cd_LicenseExpiry : Time; cd_ExperienceYears : Z; cd_EmergencyContactName : option string;
  cd_EmergencyContactPhone : option string; cd_Notes : option string }.

Definition CreateDriverExecute (cmd : CreateDriverCommand) : M string :=
  (when is_empty (cd_FirstName cmd) || is_empty (cd_LastName cmd)
     fail Err "first and last name are required";
   when is_empty (cd_Phone cmd) fail Err "phone number is required";
   (id ← GenerateUUID;
    displayID ← GenerateDisplayID "DR";
    now ← Now;
    let d := Driver.NewDriverAggregate id (cd_TenantID cmd) displayID (cd_FirstName cmd)
      (cd_LastName cmd) (cd_Phone cmd) (cd_Email cmd) (cd_Address cmd) (cd_LicenseNumber cmd)
      (cd_LicenseExpiry cmd) (cd_ExperienceYears cmd) Driver.DriverAvailable
      (cd_EmergencyContactName cmd) (cd_EmergencyContactPhone cmd) (cd_Notes cmd) now in
    _ ← UoWExecute (Save d);
    mret id))%go.

Record UpdateDriverCommand := mkUpdateDriver {
  ud_ID : string; ud_TenantID : string; ud_FirstName : string; ud_LastName : string;
  ud_Phone : string; ud_Email : option string; ud_Address : option string;
  ud_LicenseNumber : string; ud_LicenseExpiry : Time; ud_ExperienceYears : Z;
  ud_Status : Driver.DriverStatus; ud_EmergencyContactName : option string;
  ud_EmergencyContactPhone : option string; ud_Notes : option string }.

Definition UpdateDriverExecute (cmd : UpdateDriverCommand) : M unit :=
  UoWExecute
    (d ← Find (ud_ID cmd) (ud_TenantID cmd);
     now ← Now;
     d ← SM_lift (Driver.UpdateDetails (ud_FirstName cmd) (ud_LastName cmd) (ud_Phone cmd)
           (ud_Email cmd) (ud_Address cmd) (ud_LicenseNumber cmd) (ud_LicenseExpiry cmd)
           (ud_ExperienceYears cmd) (ud_Status cmd) (ud_EmergencyContactName cmd)
           (ud_EmergencyContactPhone cmd) (ud_Notes cmd) now d);
     _ ← Save d;
     mret tt).

(** The tables other than [drivers] and the outbox are untouched. *)
Definition only_drivers (d d' : DB) : Prop :=
  ∃ ds es, d' = set_outbox_events es (set_drivers ds d).
#[export] Instance only_drivers_preorder : PreOrder only_drivers.
Proof.
  split.
  - intros d. exists (drivers d), (outbox_events d). by destruct d.
  - intros d1 d2 d3 (ds1 & es1 & ->) (ds2 & es2 & ->). by exists ds2, es2.
Qed.

Lemma driver_Save_only d : preserves (on_db only_drivers) (Save d).
Proof.
  assert (Hs : ∀ d0 (x : list Row), only_drivers d0 (set_drivers x d0)).
  { intros d0 x. exists x, (outbox_events d0). by destruct d0. }
  unfold Save, GetDriverByID, CreateDriver, UpdateDriver. preserve.
  - apply stmt_on_db; [exact _|]. intros now d0. cbn.
    repeat case_match; cbn; first [reflexivity|apply Hs].
  - apply stmt_on_db; [exact _|]. intros now d0. cbn.
    repeat case_match; cbn; first [reflexivity|apply Hs].
  - eapply preserves_weaken; [|apply SaveEvents_only]. intros w w' [rows H].
    exists (drivers (w_db w)), rows. rewrite H. by destruct (w_db w).
Qed.

Lemma driver_Find_ok id tenant w d w' :
  Find id tenant w = (Ok d, w') →
  w_db w' = w_db w ∧
  ∃ row, select_one (driver_key id tenant) (drivers (w_db w)) = Some row ∧ d = ToDomain row.
Proof.
  intros H. apply bind_ok_inv in H as (row & w1 & Hq & H). injection H as <- <-.
  apply query_row_inv in Hq as (Hd & _ & Hq). split; [done|]. by eexists.
Qed.

(** Saving appends the aggregate's events. *)
Lemma driver_Save_events d w d' w' :
  Save d w = (Ok d', w') →
  ∃ rows, outbox_events (w_db w') = (outbox_events (w_db w) ++ rows)%list ∧
          Forall2 (outbox_row_of (Driver.ID d) "Driver") (Driver.events d) rows.
Proof.
  unfold Save. intros H. apply bind_ok_inv in H as (r & w1 & Hq & H).
  unfold SM_try in Hq. destruct (GetDriverByID _ _ w) as [r0 w0] eqn:E. injection Hq as -> ->.
  apply query_row_inv in E as (Hd1 & _ & _).
  apply bind_ok_inv in H as ([] & w2 & Hw & H). apply bind_ok_inv in H as ([] & w3 & Hev & H).
  injection H as <- <-. apply SaveEvents_ok in Hev as (rows & Hrows & _ & Hd3).
  exists rows. split; [|done]. rewrite Hd3. cbn. f_equal. rewrite <- Hd1.
  destruct r as [row|e].
  - apply stmt_inv in Hw as (_ & _ & _ & Hw). cbv beta zeta in Hw.
    repeat case_match; try discriminate Hw. injection Hw as Hw. by rewrite <- Hw.
  - destruct (is_no_rows e); [|discriminate Hw].
    apply stmt_inv in Hw as (_ & _ & _ & Hw). cbv beta zeta in Hw.
    repeat case_match; try discriminate Hw. injection Hw as Hw. by rewrite <- Hw.
Qed.

(** an update of a driver publishes two events, not one: a second
    [DriverCreatedEvent] for the driver, because reading the row rebuilds
    the aggregate with its constructor, then the [DriverUpdatedEvent]. *)
Theorem update_driver_republishes_creation cmd w w' :
  UpdateDriverExecute cmd w = (Ok tt, w') →
  ∃ r1 r2, outbox_events (w_db w') = (outbox_events (w_db w) ++ [r1; r2])%list ∧
    EventType r1 = "DriverCreatedEvent"%string ∧
    EventType r2 = "DriverUpdatedEvent"%string ∧
    AggregateID r1 = ud_ID cmd ∧ AggregateID r2 = ud_ID cmd.
Proof.
  intros H. apply UoWExecute_ok in H as (w1 & H & -> & _).
  apply bind_ok_inv in H as (d & wa & Hf & H). apply driver_Find_ok in Hf as (Hda & row & Hr & ->).
  apply bind_ok_inv in H as (now & wb & Hn & H). injection Hn as Hn Hb. subst wb.
  apply bind_ok_inv in H as (d1 & wc & Hu & H). injection Hu as Hu Hc. subst wc.
  apply bind_ok_inv in H as (d2 & wd & Hs & H). injection H as Hd. subst wd.
  apply driver_Save_events in Hs as (rows & Hout & Hrows).
  apply select_one_Some in Hr as [_ Hk]. unfold driver_key in Hk.
  apply andb_true_iff in Hk as [Hid%String.eqb_eq _].
  unfold Driver.UpdateDetails in Hu. repeat case_match; try discriminate Hu.
  injection Hu as <-. cbn in Hrows, Hout. rewrite Hda in Hout. rewrite Hid in Hrows.
  apply Forall2_cons_inv_l in Hrows as (r1 & rows1 & (Ha1 & _ & He1 & _) & Hrows & ->).
  apply Forall2_cons_inv_l in Hrows as (r2 & rows2 & (Ha2 & _ & He2 & _) & Hrows & ->).
  apply Forall2_nil_inv_l in Hrows as ->.
  exists r1, r2. rewrite Ha1, Ha2, He1, He2. by split_and!.
Qed.

(** Two updates from the same reading both succeed; the first is lost. *)
Lemma driver_last_writer_wins a now1 now2 b d :
  Driver.ID a = Driver.ID b → Driver.TenantID a = Driver.TenantID b →
  let upd now (x : Driver.DriverAggregate) l :=
    update_where (driver_key (Driver.ID x) (Driver.TenantID x))
      (λ r, write_row (DriverRow.ID r) (DriverRow.TenantID r) (DriverRow.CreatedAt r) now x) l in
  upd now2 b (upd now1 a (drivers d)) = upd now2 b (drivers d).
Proof.
  intros Hid Ht upd. subst upd. unfold update_where. rewrite map_map. apply map_ext. intros r.
  rewrite Hid, Ht. destruct (driver_key (Driver.ID b) _ r) eqn:Hk; [|by rewrite Hk].
  unfold driver_key in *. cbn. by rewrite Hk.
Qed.
End Repo.
(** ** A concrete run *)
Definition demo_update : UpdateDriverCommand :=
  mkUpdateDriver "d1" "acme" "Asha" "Rao" "9811111111" None None "KA-01" (jan1 + 400 * day) 6
    Driver.DriverAvailable None None None.

Lemma update_driver_republishes_creation_witness :
  let env := demo_env in
  let w' := snd (UpdateDriverExecute demo_update (world demo_db)) in
  ∃ r1 r2, outbox_events (w_db w') = [r1; r2] ∧
    EventType r1 = "DriverCreatedEvent"%string ∧
    EventType r2 = "DriverUpdatedEvent"%string ∧
    AggregateID r1 = "d1"%string ∧ AggregateID r2 = "d1"%string.
Proof.
  intros env w'.
  apply (update_driver_republishes_creation demo_update (world demo_db) w'). vm_compute. reflexivity.
Defined.
End DriverRepo.

Module VehicleRepo.

Abbreviation Row := VehicleRow.Vehicle.

(** [converters.ToDomain]: by the constructor, as for drivers. *)
Definition ToDomain (v : Row) : Vehicle.VehicleAggregate :=
  Vehicle.NewVehicleAggregate (VehicleRow.ID v) (VehicleRow.TenantID v)
    (VehicleRow.RegistrationNumber v) (VehicleRow.VehicleNumber v) (VehicleRow.VehicleType v)
    (VehicleRow.Capacity v) (VehicleRow.FuelType v) (VehicleRow.InsuranceExpiry v)
    (VehicleRow.FitnessExpiry v) (VehicleRow.PermitExpiry v)
    (Vehicle.status_of_string (VehicleRow.Status v)) (VehicleRow.CurrentMileage v)
    (VehicleRow.CreatedAt v).

Definition vehicle_key (id tenant : string) (r : Row) : bool :=
  String.eqb (VehicleRow.ID r) id && String.eqb (VehicleRow.TenantID r) tenant.

Definition inserted (now : Time) (v : Vehicle.VehicleAggregate) : Row :=
  VehicleRow.mkVehicleRow (Vehicle.ID v) (Vehicle.RegistrationNumber v)
    (Vehicle.VehicleNumber v) (Vehicle.VehicleType v) (Vehicle.Capacity v) (Vehicle.FuelType v)
    (Vehicle.InsuranceExpiry v) (Vehicle.FitnessExpiry v) (Vehicle.PermitExpiry v)
    (Vehicle.status_string (Vehicle.Status v)) (Vehicle.CurrentMileage v) (Vehicle.TenantID v)
    now now None None None None None.

(** [UPDATE] leaves the maintenance and PUC columns alone. *)
Definition updated (now : Time) (v : Vehicle.VehicleAggregate) (r : Row) : Row :=
  VehicleRow.mkVehicleRow (VehicleRow.ID r) (Vehicle.RegistrationNumber v)
    (Vehicle.VehicleNumber v) (Vehicle.VehicleType v) (Vehicle.Capacity v) (Vehicle.FuelType v)
    (Vehicle.InsuranceExpiry v) (Vehicle.FitnessExpiry v) (Vehicle.PermitExpiry v)
    (Vehicle.status_string (Vehicle.Status v)) (Vehicle.CurrentMileage v)
    (VehicleRow.TenantID r) (VehicleRow.CreatedAt r) now (VehicleRow.PucExpiry r)
    (VehicleRow.MaintenanceDue r) (VehicleRow.MaintenanceOverrideBy r)
    (VehicleRow.MaintenanceOverrideAt r) (VehicleRow.MaintenanceOverrideReason r).

Section Repo.
Context {env : Env}.

Definition GetVehicleByID (id tenant : string) : M Row :=
  query_row (λ _ d, select_one (vehicle_key id tenant) (vehicles d)).

Definition CreateVehicle (v : Vehicle.VehicleAggregate) : M unit :=
  exec (λ now d,
    if exists_row (λ r, String.eqb (VehicleRow.ID r) (Vehicle.ID v)) (vehicles d)
    then (Fail (Err "UNIQUE constraint failed: vehicles.id"), d)
    else if exists_row (λ r, String.eqb (VehicleRow.RegistrationNumber r)
                               (Vehicle.RegistrationNumber v)) (vehicles d)
    then (Fail (Err "UNIQUE constraint failed: vehicles.registration_number"), d)
    else (Ok tt, set_vehicles (vehicles d ++ [inserted now v]) d)).

Definition UpdateVehicle (v : Vehicle.VehicleAggregate) : M unit :=
  exec (λ now d,
    let key := vehicle_key (Vehicle.ID v) (Vehicle.TenantID v) in
    if negb (exists_row key (vehicles d)) then (Fail ErrNoRows, d)
    else if exists_row (λ r, negb (key r) && String.eqb (VehicleRow.RegistrationNumber r)
                               (Vehicle.RegistrationNumber v)) (vehicles d)
    then (Fail (Err "UNIQUE constraint failed: vehicles.registration_number"), d)
    else (Ok tt, set_vehicles (update_where key (updated now v) (vehicles d)) d)).

Definition Save (v : Vehicle.VehicleAggregate) : M Vehicle.VehicleAggregate :=
  r ← SM_try (GetVehicleByID (Vehicle.ID v) (Vehicle.TenantID v));
  _ ← match r with
      | Fail e => if is_no_rows e then CreateVehicle v else SM_fail e
      | Ok _ => UpdateVehicle v
      end;
  _ ← SaveEvents (Vehicle.ID v) "Vehicle" (Vehicle.events v);
  mret (Vehicle.set_events [] v).

Definition Find (id tenant : string) : M Vehicle.VehicleAggregate :=
  row ← GetVehicleByID id tenant; mret (ToDomain row).

Record CreateVehicleCommand := mkCreateVehicle {
  cv_TenantID : string; cv_RegistrationNumber : string; cv_VehicleNumber : string;
  cv_VehicleType : string; cv_Capacity : Z; cv_FuelType : string; cv_InsuranceExpiry : Time;
  cv_FitnessExpiry : Time; cv_PermitExpiry : Time; cv_CurrentMileage : option float64 }.

Definition CreateVehicleExecute (cmd : CreateVehicleCommand) : M string :=
  (when is_empty (cv_RegistrationNumber cmd) || is_empty (cv_VehicleNumber cmd)
     fail Err "registration number and vehicle number are required";
   (id ← GenerateUUID;
    now ← Now;
    let v := Vehicle.NewVehicleAggregate id (cv_TenantID cmd) (cv_RegistrationNumber cmd)
      (cv_VehicleNumber cmd) (cv_VehicleType cmd) (cv_Capacity cmd) (cv_FuelType cmd)
      (cv_InsuranceExpiry cmd) (cv_FitnessExpiry cmd) (cv_PermitExpiry cmd)
      Vehicle.VehicleAvailable (cv_CurrentMileage cmd) now in
    _ ← UoWExecute (Save v);
    mret id))%go.

Record UpdateVehicleCommand := mkUpdateVehicle {
  uv_ID : string; uv_TenantID : string; uv_RegistrationNumber : string;
  uv_VehicleNumber : string; uv_VehicleType : string; uv_Capacity : Z; uv_FuelType : string;
  uv_InsuranceExpiry : Time; uv_FitnessExpiry : Time; uv_PermitExpiry : Time;
  uv_Status : Vehicle.VehicleStatus; uv_CurrentMileage : option float64 }.

Definition UpdateVehicleExecute (cmd : UpdateVehicleCommand) : M unit :=
  UoWExecute
    (v ← Find (uv_ID cmd) (uv_TenantID cmd);
     now ← Now;
     v ← SM_lift (Vehicle.UpdateDetails (uv_RegistrationNumber cmd) (uv_VehicleNumber cmd)
           (uv_VehicleType cmd) (uv_Capacity cmd) (uv_FuelType cmd) (uv_InsuranceExpiry cmd)
           (uv_FitnessExpiry cmd) (uv_PermitExpiry cmd) (uv_Status cmd)
           (uv_CurrentMileage cmd) now v);
     _ ← Save v;
     mret tt).

Lemma vehicle_Find_ok id tenant w v w' :
  Find id tenant w = (Ok v, w') →
  w_db w' = w_db w ∧
  ∃ row, select_one (vehicle_key id tenant) (vehicles (w_db w)) = Some row ∧ v = ToDomain row.
Proof.
  intros H. apply bind_ok_inv in H as (row & w1 & Hq & H). injection H as <- <-.
  apply query_row_inv in Hq as (Hd & _ & Hq). split; [done|]. by eexists.
Qed.
End Repo.
End VehicleRepo.
