(* ===== verification/TripUseCases.v ===== *)
(** * The trip use cases

    [internal/trip/application]: one definition per use case, and the
    compliance gate of dispatch (driver licence, vehicle documents, PUC,
    maintenance, exemptions and overrides). *)
From stdpp Require Import base decidable list strings option relations.
From Stdlib Require Import ZArith Lia Ascii String.
From S2P Require Import Prelude GoFloat Shared Events TripAggregate FleetAggregates.
From S2P Require Import InvoiceAggregate Database Outbox Repository TripRepository.
From S2P Require Import FleetRepository.
Open Scope Z_scope.

Module TripApp.

(** ** Text: [%q] and [strings.ToLower] are not observable in decisions *)
Definition dquote : string := String (ascii_of_nat 34) EmptyString.
Definition escape_char (c : ascii) : string :=
  let n := nat_of_ascii c in
  if bool_decide (n = 34%nat \/ n = 92%nat) then String (ascii_of_nat 92) (String c EmptyString)
  else String c EmptyString.
Fixpoint escape (s : string) : string :=
  match s with
  | EmptyString => EmptyString
  | String c s' => (escape_char c +:+ escape s')%string
  end.
(** [%q], for text without control or non-ASCII characters. *)
Definition quote (s : string) : string := (dquote +:+ escape s +:+ dquote)%string.
Fixpoint json_fields (l : list (string * string)) : string :=
  match l with
  | [] => ""
  | [(k, v)] => (quote k +:+ ":" +:+ quote v)%string
  | (k, v) :: l' => (quote k +:+ ":" +:+ quote v +:+ "," +:+ json_fields l')%string
  end.
Definition json_object (l : list (string * string)) : string :=
  ("{" +:+ json_fields l +:+ "}")%string.

Definition TripTableName : string := "trips".

Section UseCases.
Context {env : Env}.

Definition logAudit (action recordID : string) (oldValues newValues : option string) : M unit :=
  log_audit TripTableName action recordID oldValues newValues.

(** ** The compliance gate *)

(** The exemption query; a failing query means no exemption. *)
Definition exemption_matches (entityType entityID docType : string) (now : Time)
    (r : ExemptionRow) : bool :=
  String.eqb (EntityType r) entityType && String.eqb (EntityID r) entityID &&
  (String.eqb (DocType r) docType || String.eqb (DocType r) "all" ||
   (String.eqb docType "permit" && String.eqb (DocType r) "rc") ||
   (String.eqb docType "rc" && String.eqb (DocType r) "permit")) &&
  (now <? ExemptUntil r).

Definition isExempt (entityType entityID docType : string) : M bool :=
  r ← SM_try (query_row (λ now d,
        select_one (exemption_matches entityType entityID docType now)
          (compliance_exemptions d)));
  mret match r with Ok row => negb (is_empty (ExemptID row)) | Fail _ => false end.

(** Written through the pool; its id is a clock reading. *)
Definition recordComplianceCheck (entityType entityID checkType status details : string)
    : M unit :=
  _ ← Now;
  pool_exec (ComplianceCheck entityType entityID checkType status details).

(** [CREATE TABLE IF NOT EXISTS dispatch_overrides]: the table is there;
    the statement's error is dropped. *)
Definition ensure_overrides_table : M unit := λ w, (Ok tt, tick_stmts w).

(** The block that inserts a [dispatch_overrides] row. *)
Definition record_override (tenantID tripID vehicleID driverID blockedBy reason : string)
    : M unit :=
  let tenant := if is_empty tenantID then DefaultTenant else tenantID in
  _ ← ensure_overrides_table;
  _ ← Now;
  pool_exec (DispatchOverride tenant tripID vehicleID driverID blockedBy reason
               (default ""%string getUserID)).

(** [cmd.OverrideMaintenance && len(strings.TrimSpace(reason)) >= 10]. *)
Definition override_allowed (flag : bool) (reason : string) : bool :=
  flag && (10 <=? len (TrimSpace reason)).

Definition getPUCExpiry (vehicleID : string) : M (option Time) :=
  r ← SM_try (query_row (λ _ d,
        select_one (λ v, String.eqb (VehicleRow.ID v) vehicleID) (vehicles d)));
  mret match r with
       | Ok v => match VehicleRow.PucExpiry v with
                 | Some t => if time_IsZero t then None else Some t
                 | None => None
                 end
       | Fail _ => None
       end.

(** The unresolved critical fault code seen last. *)
Definition critical_dtc (vehicleID : string) (r : DtcRow) : bool :=
  String.eqb (DtcVehicleID r) vehicleID && String.eqb (DtcSeverity r) "critical" &&
  bool_decide (DtcResolvedAt r = None).
Definition later_dtc (best : option DtcRow) (r : DtcRow) : option DtcRow :=
  match best with
  | Some b => if DtcOccurredAt b <? DtcOccurredAt r then Some r else Some b
  | None => Some r
  end.
Definition latest_dtc (vehicleID : string) (l : list DtcRow) : option DtcRow :=
  foldl later_dtc None (select_many (critical_dtc vehicleID) l).

(** [MaintenanceRepository.IsMaintenanceBlocked]. *)
Definition IsMaintenanceBlocked (vehicleID : string) : M (bool * string) :=
  v ← query_row (λ _ d, select_one (λ v, String.eqb (VehicleRow.ID v) vehicleID) (vehicles d));
  r ← SM_try (query_row (λ _ d, latest_dtc vehicleID (dtc_events d)));
  let dtcCode := match r with Ok row => DtcCode row | Fail _ => ""%string end in
  let hasCriticalDTC := negb (is_empty dtcCode) in
  let due := default ""%string (VehicleRow.MaintenanceDue v) in
  let isDue := negb (is_empty due) in
  if negb isDue && negb hasCriticalDTC then mret (false, ""%string)
  else if negb (is_empty (default ""%string (VehicleRow.MaintenanceOverrideBy v))) &&
          bool_decide (is_Some (VehicleRow.MaintenanceOverrideAt v))
  then mret (false, ""%string)
  else if isDue then
    mret (true, "vehicle " +:+ vehicleID +:+ " is blocked for maintenance (due since: " +:+ due
                +:+ "); override requires maintenance:update permission")%string
  else
    mret (true, "vehicle " +:+ vehicleID +:+ " is blocked for maintenance (unresolved critical DTC "
                +:+ dtcCode +:+ "); override requires maintenance:update permission")%string.

(** The caller's use of it: an error of the query is no block. *)
Definition maintenance_gate (vehicleID tripID action : string) (overrideMaintenance : bool)
    (reasonJSON : string) : M unit :=
  r ← SM_try (IsMaintenanceBlocked vehicleID);
  match r with
  | Ok (true, reason) =>
      if negb overrideMaintenance then SM_fail (Err reason)
      else logAudit action tripID None (Some reasonJSON)
  | _ => mret tt
  end.

Definition not_assignable (kind id status : string) : error :=
  Err (kind +:+ " " +:+ id +:+ " is not assignable (status: " +:+ status +:+ ")")%string.

Definition find_driver (driverID tenantID : string) : M Driver.DriverAggregate :=
  r ← SM_try (DriverRepo.Find driverID tenantID);
  match r with
  | Fail e => SM_fail (Wrap ("driver " +:+ driverID +:+ " not found")%string e)
  | Ok d => mret d
  end.

Definition find_vehicle (vehicleID tenantID : string) : M Vehicle.VehicleAggregate :=
  r ← SM_try (VehicleRepo.Find vehicleID tenantID);
  match r with
  | Fail e => SM_fail (Wrap ("vehicle " +:+ vehicleID +:+ " not found")%string e)
  | Ok v => mret v
  end.

Definition driver_off (s : Driver.DriverStatus) : bool :=
  bool_decide (s = Driver.DriverInactive) || bool_decide (s = Driver.DriverLeave).
Definition vehicle_off (s : Vehicle.VehicleStatus) : bool :=
  bool_decide (s = Vehicle.VehicleInactive) || bool_decide (s = Vehicle.VehicleMaintenance).

(** A date that is set and in the past. *)
Definition expired (when_ now : Time) : bool := negb (time_IsZero when_) && Before when_ now.

Definition license_blocked : error :=
  Err "Dispatch blocked: driver license expired (compliance)".
Definition document_blocked (name : string) : error :=
  Err ("Dispatch blocked: vehicle " +:+ name +:+ " expired (compliance)")%string.

(** assign_driver.go [checkDriverCompliance]. *)
Definition checkDriverCompliance (driverID tenantID : string) : M unit :=
  d ← find_driver driverID tenantID;
  (when driver_off (Driver.Status d)
     fail not_assignable "driver" driverID (Driver.status_string (Driver.Status d));
   (t ← Now;
    let now := Truncate t day in
    if expired (Driver.LicenseExpiry d) now then
      exempt ← isExempt "driver" driverID "license";
      if (exempt : bool) then
        recordComplianceCheck "driver" driverID "license" "warning" "bypassed by exemption"
      else
        _ ← recordComplianceCheck "driver" driverID "license" "expired" "driver license expired";
        SM_fail license_blocked
    else mret tt))%go.

(** start_trip.go has its own copies, without the compliance records. *)
Definition checkDriverComplianceOnStart (driverID tenantID : string) : M unit :=
  d ← find_driver driverID tenantID;
  (when driver_off (Driver.Status d)
     fail not_assignable "driver" driverID (Driver.status_string (Driver.Status d));
   (t ← Now;
    let now := Truncate t day in
    if expired (Driver.LicenseExpiry d) now then
      exempt ← isExempt "driver" driverID "license";
      if (exempt : bool) then mret tt else SM_fail license_blocked
    else mret tt))%go.

Definition documents (v : Vehicle.VehicleAggregate) : list (string * Time) :=
  [("insurance", Vehicle.InsuranceExpiry v); ("fitness", Vehicle.FitnessExpiry v);
   ("permit", Vehicle.PermitExpiry v)]%string.

Definition check_document_on_start (vehicleID : string) (now : Time) (expiry : string * Time)
    : M unit :=
  if expired (snd expiry) now then
    exempt ← isExempt "vehicle" vehicleID (fst expiry);
    if (exempt : bool) then mret tt else SM_fail (document_blocked (fst expiry))
  else mret tt.

Definition checkVehicleComplianceOnStart (vehicleID tenantID : string) : M unit :=
  v ← find_vehicle vehicleID tenantID;
  (when vehicle_off (Vehicle.Status v)
     fail not_assignable "vehicle" vehicleID (Vehicle.status_string (Vehicle.Status v));
   (t ← Now;
    let now := Truncate t day in
    _ ← SM_iter (check_document_on_start vehicleID now) (documents v);
    puc ← getPUCExpiry vehicleID;
    match puc with
    | Some p =>
        if Before p now then
          exempt ← isExempt "vehicle" vehicleID "puc";
          if (exempt : bool) then mret tt else SM_fail (document_blocked "PUC")
        else mret tt
    | None => mret tt
    end))%go.

Record AssignCommand := mkAssign {
  TripID : string; AssigneeID : string; TenantID : string;
  OverrideMaintenance : bool; OverrideReason : string }.

(** assign_vehicle.go: one document of the loop.  [continue] ends it. *)
Definition check_document (cmd : AssignCommand) (now : Time) (expiry : string * Time) : M unit :=
  let vehicleID := AssigneeID cmd in
  let '(name, when_) := expiry in
  if expired when_ now then
    exempt ← isExempt "vehicle" vehicleID name;
    if (exempt : bool) then
      recordComplianceCheck "vehicle" vehicleID name "warning" "bypassed by exemption"
    else if override_allowed (OverrideMaintenance cmd) (OverrideReason cmd) then
      _ ← logAudit "assign_vehicle_override" (TripID cmd) None
            (Some (json_object [("vehicle_id", vehicleID); ("blocked_by", name);
                                ("reason", OverrideReason cmd)]%string));
      _ ← record_override (TenantID cmd) (TripID cmd) vehicleID "" (name +:+ "_expiry")%string
            (OverrideReason cmd);
      recordComplianceCheck "vehicle" vehicleID name "warning" "bypassed by override"
    else
      _ ← recordComplianceCheck "vehicle" vehicleID name "expired"
            ("vehicle " +:+ name +:+ " expired")%string;
      SM_fail (document_blocked name)
  else if negb (time_IsZero when_) && Before when_ (now + 7 * day) then
    recordComplianceCheck "vehicle" vehicleID name "warning"
      ("vehicle " +:+ name +:+ " expires in <7 days")%string
  else mret tt.

Definition check_puc (cmd : AssignCommand) (now : Time) : M unit :=
  let vehicleID := AssigneeID cmd in
  puc ← getPUCExpiry vehicleID;
  match puc with
  | Some p =>
      if Before p now then
        exempt ← isExempt "vehicle" vehicleID "puc";
        if negb (exempt : bool) then
          if override_allowed (OverrideMaintenance cmd) (OverrideReason cmd) then
            _ ← logAudit "assign_vehicle_override" (TripID cmd) None
                  (Some (json_object [("vehicle_id", vehicleID); ("blocked_by", "puc");
                                      ("reason", OverrideReason cmd)]%string));
            _ ← record_override (TenantID cmd) (TripID cmd) vehicleID "" "puc_expiry"
                  (OverrideReason cmd);
            recordComplianceCheck "vehicle" vehicleID "puc" "warning" "bypassed by override"
          else
            _ ← recordComplianceCheck "vehicle" vehicleID "puc" "expired" "vehicle PUC expired";
            SM_fail (document_blocked "PUC")
        else recordComplianceCheck "vehicle" vehicleID "puc" "warning" "bypassed by exemption"
      else if Before p (now + 7 * day) then
        recordComplianceCheck "vehicle" vehicleID "puc" "warning" "vehicle PUC expires in <7 days"
      else mret tt
  | None => mret tt
  end.

Definition checkVehicleCompliance (cmd : AssignCommand) : M unit :=
  let vehicleID := AssigneeID cmd in
  v ← find_vehicle vehicleID (TenantID cmd);
  (when vehicle_off (Vehicle.Status v)
     fail not_assignable "vehicle" vehicleID (Vehicle.status_string (Vehicle.Status v));
   (t ← Now;
    let now := Truncate t day in
    _ ← SM_iter (check_document cmd now) (documents v);
    _ ← check_puc cmd now;
    maintenance_gate vehicleID (TripID cmd) "assign_vehicle_override" (OverrideMaintenance cmd)
      (json_object [("vehicle_id", vehicleID); ("reason", OverrideReason cmd)]%string)))%go.

(** ** The use cases *)
Record CreateTripCommand := mkCreateTrip {
  ct_TenantID : string; ct_BookingID : option string; ct_RouteID : string;
  ct_DepartureTime : Time; ct_Remarks : string }.

Definition CreateTripExecute (cmd : CreateTripCommand) : M string :=
  (when is_empty (ct_RouteID cmd) fail Err "route ID is required";
   when time_IsZero (ct_DepartureTime cmd) fail Err "departure time is required";
   (tripID ← GenerateUUID;
    tripNumber ← GenerateDisplayID "TR";
    now ← Now;
    let trip := Trip.NewTripAggregate tripID (ct_TenantID cmd) tripNumber (ct_BookingID cmd)
      (ct_RouteID cmd) (ct_DepartureTime cmd) (ct_Remarks cmd) now in
    _ ← UoWExecute
          (trip ← TripRepo.Save trip; logAudit "create" (Trip.ID trip) None None);
    mret tripID))%go.

(** The override of a failing driver check. *)
Definition override_driver (cmd : AssignCommand) (t : Trip.TripAggregate) (e : error) : M unit :=
  _ ← logAudit "assign_driver_override" (TripID cmd) None
        (Some (json_object [("driver_id", AssigneeID cmd); ("reason", OverrideReason cmd);
                            ("blocked_by", error_msg e)]%string));
  record_override (TenantID cmd) (TripID cmd) (default ""%string (Trip.VehicleID t))
    (AssigneeID cmd) "license_expiry" (OverrideReason cmd).

Definition conflict_failure (kind id : string) (c : TripRepo.ConflictInfo) : error :=
  Err (kind +:+ " " +:+ id +:+ " has conflicting trips: " +:+ TripRepo.ConflictNumber c)%string.

Definition AssignDriverExecute (cmd : AssignCommand) : M unit :=
  (when is_empty (AssigneeID cmd) fail Err "driver ID is required";
   UoWExecute
     (t ← TripRepo.Find (TripID cmd) (TenantID cmd);
      r ← SM_try (checkDriverCompliance (AssigneeID cmd) (TenantID cmd));
      _ ← match r with
          | Ok _ => mret tt
          | Fail e =>
              if override_allowed (OverrideMaintenance cmd) (OverrideReason cmd)
              then override_driver cmd t e
              else SM_fail e
          end;
      _ ← match Trip.VehicleID t with
          | Some v =>
              if is_empty v then mret tt
              else maintenance_gate v (TripID cmd) "assign_driver_override"
                     (OverrideMaintenance cmd)
                     (json_object [("vehicle_id", v); ("driver_id", AssigneeID cmd);
                                   ("reason", OverrideReason cmd)]%string)
          | None => mret tt
          end;
      conflicts ← TripRepo.CheckDriverConflict (AssigneeID cmd) (TenantID cmd) (TripID cmd);
      match conflicts with
      | c :: _ => SM_fail (conflict_failure "driver" (AssigneeID cmd) c)
      | [] =>
          now ← Now;
          t ← SM_lift (Trip.AssignDriver (AssigneeID cmd) now t);
          t ← TripRepo.Save t;
          logAudit "assign" (Trip.ID t) None None
      end))%go.

Definition AssignVehicleExecute (cmd : AssignCommand) : M unit :=
  (when is_empty (AssigneeID cmd) fail Err "vehicle ID is required";
   UoWExecute
     (t ← TripRepo.Find (TripID cmd) (TenantID cmd);
      _ ← checkVehicleCompliance cmd;
      conflicts ← TripRepo.CheckVehicleConflict (AssigneeID cmd) (TenantID cmd) (TripID cmd);
      match conflicts with
      | c :: _ => SM_fail (conflict_failure "vehicle" (AssigneeID cmd) c)
      | [] =>
          now ← Now;
          t ← SM_lift (Trip.AssignVehicle (AssigneeID cmd) now t);
          t ← TripRepo.Save t;
          logAudit "assign" (Trip.ID t) None None
      end))%go.

(** Compliance of what the trip carries, re-validated at the start. *)
Definition start_gate (t : Trip.TripAggregate) (tenantID : string) : M unit :=
  _ ← match Trip.DriverID t with
      | Some d => if is_empty d then mret tt else checkDriverComplianceOnStart d tenantID
      | None => mret tt
      end;
  match Trip.VehicleID t with
  | Some v => if is_empty v then mret tt else checkVehicleComplianceOnStart v tenantID
  | None => mret tt
  end.

Definition StartTripExecute (tripID tenantID : string) : M unit :=
  UoWExecute
    (t ← TripRepo.Find tripID tenantID;
     _ ← start_gate t tenantID;
     now ← Now;
     t ← SM_lift (Trip.Start now t);
     t ← TripRepo.Save t;
     logAudit "start" (Trip.ID t) None None).

Definition ScheduleTripExecute (tripID tenantID : string) : M unit :=
  UoWExecute
    (t ← TripRepo.Find tripID tenantID;
     now ← Now;
     t ← SM_lift (Trip.Schedule now t);
     t ← TripRepo.Save t;
     logAudit "schedule" (Trip.ID t) None None).

Definition ReachPickupExecute (tripID tenantID : string) : M unit :=
  UoWExecute
    (t ← TripRepo.Find tripID tenantID;
     now ← Now;
     t ← SM_lift (Trip.ReachPickup now t);
     t ← TripRepo.Save t;
     logAudit "reach_pickup" (Trip.ID t) None None).

Definition StartTransitExecute (tripID tenantID : string) : M unit :=
  UoWExecute
    (t ← TripRepo.Find tripID tenantID;
     now ← Now;
     t ← SM_lift (Trip.StartTransit now t);
     t ← TripRepo.Save t;
     logAudit "start_transit" (Trip.ID t) None None).

Definition DeliverExecute (tripID tenantID : string) : M unit :=
  UoWExecute
    (t ← TripRepo.Find tripID tenantID;
     now ← Now;
     t ← SM_lift (Trip.Deliver now t);
     t ← TripRepo.Save t;
     logAudit "deliver" (Trip.ID t) None None).

Definition CancelTripExecute (tripID tenantID : string) : M unit :=
  UoWExecute
    (t ← TripRepo.Find tripID tenantID;
     now ← Now;
     t ← SM_lift (Trip.Cancel now t);
     t ← TripRepo.Save t;
     logAudit "cancel" (Trip.ID t) None None).

(** [OnCompleted] is the caller's callback, run in the transaction. *)
Definition CompleteTripExecute (tripID tenantID : string)
    (OnCompleted : option (Trip.TripAggregate → M unit)) : M unit :=
  UoWExecute
    (t ← TripRepo.Find tripID tenantID;
     now ← Now;
     t ← SM_lift (Trip.Complete now t);
     t ← TripRepo.Save t;
     _ ← logAudit "complete" (Trip.ID t) None None;
     match OnCompleted with Some f => f t | None => mret tt end).
End UseCases.
End TripApp.
