(* ===== verification/TripSafety.v ===== *)
(** * Safety of the trip use cases

    Exclusive assignment of drivers and vehicles, as an invariant of every
    sequence of trip use cases under every fault; the refinement of the
    lifecycle use cases to the stored aggregate's transition; and the
    compliance a started trip was checked against. *)
From stdpp Require Import base decidable list strings option relations.
From Stdlib Require Import ZArith Lia String.
From S2P Require Import Prelude GoFloat Shared Events TripAggregate FleetAggregates.
From S2P Require Import InvoiceAggregate Database Outbox Repository TripRepository.
From S2P Require Import FleetRepository TripUseCases.
Open Scope Z_scope.

Module TripSafety.
Import TripRepo TripApp.

(** ** The invariant *)
Definition active (r : Row) : Prop := active_status (TripRow.Status r) = true.

(** No two active trips of a tenant share a resource, and a draft has none. *)
Definition exclusive (col : Row → option string) (d : DB) : Prop :=
  (∀ r1 r2 x, r1 ∈ trips d → r2 ∈ trips d → TripRow.ID r1 ≠ TripRow.ID r2 →
     TripRow.TenantID r1 = TripRow.TenantID r2 → active r1 → active r2 →
     x ≠ ""%string → col r1 = Some x → col r2 ≠ Some x) ∧
  (∀ r, r ∈ trips d → TripRow.Status r = "draft"%string → col r = None).

Definition trip_inv (d : DB) : Prop :=
  trips_pk d ∧ (∀ r, r ∈ trips d → status_check (TripRow.Status r) = true) ∧
  exclusive TripRow.DriverID d ∧ exclusive TripRow.VehicleID d.

Lemma trip_inv_ext d d' : trips d' = trips d → trip_inv d → trip_inv d'.
Proof. unfold trip_inv, trips_pk, exclusive. by intros ->. Qed.

Lemma trip_inv_empty d : trips d = [] → trip_inv d.
Proof.
  intros H. unfold trip_inv, trips_pk, exclusive. rewrite H.
  split_and!; try constructor; intros *; intros Hr; by apply not_elem_of_nil in Hr.
Qed.

(** Writing row [p], new or over its previous version, keeps the resource
    exclusive if no other active trip holds what [p] holds. *)
Definition no_clash (col : Row → option string) (d : DB) (p : Row) : Prop :=
  (∀ r x, r ∈ trips d → TripRow.ID r ≠ TripRow.ID p → TripRow.TenantID r = TripRow.TenantID p →
     active r → active p → x ≠ ""%string → col p = Some x → col r ≠ Some x) ∧
  (TripRow.Status p = "draft"%string → col p = None).

(** The columns a written row takes from [p]. *)
Class Column (col : Row → option string) := {
  acol : Trip.TripAggregate → option string;
  col_persist t : col (MapToPersistence t) = acol t;
  col_aggregate r : acol (MapToAggregate r) = col r;
  col_inserted now p : col (inserted now p) = col p;
  col_updated now p r : col (updated now p r) = col p }.
#[export] Instance driver_column : Column TripRow.DriverID.
Proof. by refine {| acol := Trip.DriverID |}. Defined.
#[export] Instance vehicle_column : Column TripRow.VehicleID.
Proof. by refine {| acol := Trip.VehicleID |}. Defined.

Lemma exclusive_insert col `{!Column col} d p now :
  exclusive col d → (∀ r, r ∈ trips d → TripRow.ID r ≠ TripRow.ID p) → no_clash col d p →
  exclusive col (set_trips (trips d ++ [inserted now p]) d).
Proof.
  intros [He Hd] Hf [Hc Hp]. split; cbn [trips set_trips].
  - intros r1 r2 x Hr1 Hr2 Hid Ht Ha1 Ha2 Hx. rewrite elem_of_app, list_elem_of_singleton in Hr1, Hr2.
    destruct Hr1 as [Hr1| ->], Hr2 as [Hr2| ->]; rewrite ?col_inserted in *.
    + by apply He.
    + intros H1 H2. by apply (Hc r1 x Hr1 (Hf r1 Hr1) Ht Ha1 Ha2 Hx H2).
    + intros H1. by apply (Hc r2 x Hr2 (Hf r2 Hr2)).
    + by destruct Hid.
  - intros r Hr Hs. rewrite elem_of_app, list_elem_of_singleton in Hr.
    destruct Hr as [Hr| ->]; [by apply Hd|]. rewrite col_inserted. by apply Hp.
Qed.

Lemma exclusive_update col `{!Column col} d p now :
  trips_pk d → exclusive col d → no_clash col d p →
  let key := version_key (TripRow.ID p) (TripRow.TenantID p) (TripRow.Version p) in
  exclusive col (set_trips (update_where key (updated now p) (trips d)) d).
Proof.
  intros Hpk [He Hd] [Hc Hp] key.
  assert (Hk : ∀ r, key r = true → TripRow.ID r = TripRow.ID p ∧ TripRow.TenantID r = TripRow.TenantID p).
  { intros r. unfold key, version_key. intros [Hk _]%andb_true_iff. by apply trip_key_spec. }
  split; cbn [trips set_trips].
  - intros r1' r2' x Hr1 Hr2 Hid Ht Ha1 Ha2 Hx.
    apply elem_of_update in Hr1 as (r1 & Hr1 & ->), Hr2 as (r2 & Hr2 & ->).
    destruct (key r1) eqn:K1, (key r2) eqn:K2; cbn in Hid, Ht; rewrite ?col_updated.
    + destruct Hid. apply Hk in K1 as [-> _], K2 as [-> _]. done.
    + apply Hk in K1 as [Hi1 Ht1]. intros H1.
      apply (Hc r2 x Hr2); [congruence|congruence|done|exact Ha1|done|done].
    + apply Hk in K2 as [Hi2 Ht2]. intros H1 H2.
      apply (Hc r1 x Hr1); [congruence|congruence|done|exact Ha2|done|done|done].
    + by apply He.
  - intros r' Hr Hs. apply elem_of_update in Hr as (r & Hr & ->).
    destruct (key r); [|by apply Hd]. rewrite col_updated. by apply Hp.
Qed.

Section Safety.
Context {env : Env}.

(** [Save] keeps the invariant when the aggregate's row clashes with none. *)
Lemma Save_inv_trips t w t' w' :
  trip_inv (w_db w) →
  no_clash TripRow.DriverID (w_db w) (MapToPersistence t) →
  no_clash TripRow.VehicleID (w_db w) (MapToPersistence t) →
  Save t w = (Ok t', w') → trip_inv (w_db w').
Proof.
  intros (Hpk & Hst & Hd & Hv) Cd Cv H.
  apply Save_inv in H as (d1 & now & rows & -> & _ & _ & Hck & _ & H).
  apply (trip_inv_ext d1); [done|]. destruct H as [(_ & Hf & ->)|[Hex ->]].
  - split_and!; [|cbn [trips set_trips]
       |by apply (exclusive_insert TripRow.DriverID)|by apply (exclusive_insert TripRow.VehicleID)].
    + unfold trips_pk. cbn. rewrite map_app. apply NoDup_app. split_and!; [done| |].
      * intros i Hi Hi'. apply list_elem_of_In, in_map_iff in Hi as (r & <- & Hr%list_elem_of_In).
        apply list_elem_of_singleton in Hi'. by apply (Hf r Hr).
      * apply NoDup_singleton.
    + intros r. rewrite elem_of_app, list_elem_of_singleton. intros [Hr| ->]; [by apply Hst|].
      exact Hck.
  - split_and!; [|cbn [trips set_trips]
       |by apply (exclusive_update TripRow.DriverID)|by apply (exclusive_update TripRow.VehicleID)].
    + by apply (stored_trip_update (w_db w) (MapToPersistence t) now "" "").
    + intros r (r0 & Hr0 & ->)%elem_of_update. destruct (version_key _ _ _ r0); [exact Hck|].
      by apply Hst.
Qed.

(** Statements that leave the trips alone. *)
Definition same_trips (d d' : DB) : Prop := trips d' = trips d.
#[export] Instance same_trips_preorder : PreOrder same_trips.
Proof. split; [done|]. unfold same_trips. intros ???; congruence. Qed.

Lemma same_trips_eq {A} (m : M A) : preserves (on_db eq) m → preserves (on_db same_trips) m.
Proof. apply preserves_weaken. unfold on_db, same_trips. by intros w w' <-. Qed.

Lemma logAudit_same a r o n : preserves (on_db same_trips) (logAudit a r o n).
Proof.
  eapply preserves_weaken; [|apply log_audit_only]. unfold on_db. intros w w' [rows H].
  unfold same_trips. by rewrite H.
Qed.

Lemma isExempt_same a b c : preserves (on_db eq) (isExempt a b c).
Proof. unfold isExempt. preserve. Qed.
Lemma recordComplianceCheck_same a b c s t : preserves (on_db eq) (recordComplianceCheck a b c s t).
Proof. unfold recordComplianceCheck. preserve. Qed.
Lemma record_override_same a b c s t u : preserves (on_db eq) (record_override a b c s t u).
Proof. unfold record_override. preserve. Qed.
Lemma getPUCExpiry_same v : preserves (on_db eq) (getPUCExpiry v).
Proof. unfold getPUCExpiry. preserve. Qed.
Lemma IsMaintenanceBlocked_same v : preserves (on_db eq) (IsMaintenanceBlocked v).
Proof. unfold IsMaintenanceBlocked. preserve. Qed.
Lemma find_driver_same a b : preserves (on_db eq) (find_driver a b).
Proof. unfold find_driver, DriverRepo.Find, DriverRepo.GetDriverByID. preserve. Qed.
Lemma find_vehicle_same a b : preserves (on_db eq) (find_vehicle a b).
Proof. unfold find_vehicle, VehicleRepo.Find, VehicleRepo.GetVehicleByID. preserve. Qed.
Lemma maintenance_gate_same v t a o r : preserves (on_db same_trips) (maintenance_gate v t a o r).
Proof.
  unfold maintenance_gate.
  pose proof (same_trips_eq _ (IsMaintenanceBlocked_same v)).
  pose proof (logAudit_same a t None (Some r)). preserve.
Qed.

Lemma checkDriverCompliance_same a b : preserves (on_db same_trips) (checkDriverCompliance a b).
Proof.
  apply same_trips_eq. unfold checkDriverCompliance.
  pose proof (find_driver_same a b). pose proof (isExempt_same "driver" a "license").
  pose proof (λ s t, recordComplianceCheck_same "driver" a "license" s t). preserve.
Qed.

Lemma start_gate_same t tenant : preserves (on_db same_trips) (start_gate t tenant).
Proof.
  apply same_trips_eq. unfold start_gate, checkDriverComplianceOnStart,
    checkVehicleComplianceOnStart, check_document_on_start.
  pose proof find_driver_same. pose proof find_vehicle_same. pose proof isExempt_same.
  pose proof getPUCExpiry_same. preserve.
Qed.

Lemma override_driver_same cmd t e : preserves (on_db same_trips) (override_driver cmd t e).
Proof.
  unfold override_driver. pose proof logAudit_same.
  pose proof (λ a b c s t u, same_trips_eq _ (record_override_same a b c s t u)). preserve.
Qed.

Lemma checkVehicleCompliance_same cmd : preserves (on_db same_trips) (checkVehicleCompliance cmd).
Proof.
  unfold checkVehicleCompliance, check_document, check_puc.
  pose proof logAudit_same. pose proof maintenance_gate_same.
  pose proof (λ a b, same_trips_eq _ (find_vehicle_same a b)).
  pose proof (λ a b c, same_trips_eq _ (isExempt_same a b c)).
  pose proof (λ a, same_trips_eq _ (getPUCExpiry_same a)).
  pose proof (λ a b c s t, same_trips_eq _ (recordComplianceCheck_same a b c s t)).
  pose proof (λ a b c s t u, same_trips_eq _ (record_override_same a b c s t u)). preserve.
Qed.

(** ** Clashes *)
Definition agg_active (t : Trip.TripAggregate) : Prop :=
  active_status (Trip.status_string (Trip.Status t)) = true.

Lemma stored_row d id tenant t :
  stored_trip d id tenant = Some t →
  ∃ r, r ∈ trips d ∧ TripRow.ID r = Trip.ID t ∧ TripRow.TenantID r = Trip.TenantID t ∧
       MapToAggregate r = t ∧ TripRow.Status r = Trip.status_string (Trip.Status t).
Proof.
  unfold stored_trip. intros (r & Hr & ->)%fmap_Some_1. apply select_one_Some in Hr as [Hr _].
  exists r. split_and!; try done. cbn. by rewrite Trip.trip_status_string_of_string.
Qed.

Lemma status_string_inj s s' :
  Trip.status_wf s → Trip.status_wf s' → Trip.status_string s = Trip.status_string s' → s = s'.
Proof. unfold Trip.status_wf. intros H1 H2 H. by rewrite <- H1, <- H2, H. Qed.

(** An aggregate that keeps the resource it was read with, and whose status
    became active only from a draft, clashes with no other trip. *)
Lemma no_clash_keep col `{!Column col} d id tenant t t1 :
  exclusive col d → stored_trip d id tenant = Some t →
  Trip.ID t1 = Trip.ID t → Trip.TenantID t1 = Trip.TenantID t → acol t1 = acol t →
  (agg_active t1 → agg_active t ∨ Trip.Status t = Trip.TripDraft) →
  (Trip.Status t1 = Trip.TripDraft → Trip.Status t = Trip.TripDraft) →
  trip_wf t1 → no_clash col d (MapToPersistence t1).
Proof.
  intros [He Hd] Hst Hid Ht Hcol Hact Hdr Hwf.
  pose proof (stored_trip_wf _ _ _ _ Hst) as (Hwf0 & _).
  destruct (stored_row _ _ _ _ Hst) as (r0 & Hr0 & Hi0 & Ht0 & Hm0 & Hs0).
  assert (Hdraft : Trip.Status t = Trip.TripDraft → acol t = None).
  { intros Hs. rewrite <- Hm0, col_aggregate. apply Hd; [done|]. by rewrite Hs0, Hs. }
  split; rewrite col_persist, Hcol.
  - intros r x Hr Hne Hten Har Hap Hx Hc. cbn in Hne, Hten.
    destruct (Hact Hap) as [Ha|Hs]; [|by rewrite Hdraft in Hc].
    apply (He r0 r x); try done; try congruence.
    by rewrite <- col_aggregate, Hm0.
  - intros Hs. apply Hdraft, Hdr. apply status_string_inj; [done|done|exact Hs].
Qed.

(** The status an operation reaches is active, and no draft, unless it was. *)
Lemma lifecycle_active s op s' :
  Trip.lifecycle s op s' → Trip.status_wf s →
  status_check (Trip.status_string s) = true →
  (active_status (Trip.status_string s') = true →
     active_status (Trip.status_string s) = true ∨ s = Trip.TripDraft) ∧
  (s' = Trip.TripDraft → s = Trip.TripDraft).
Proof.
  intros H Hw Hc.
  assert (Hk : ∀ x, s ≠ Trip.TripStatusOther x).
  { intros x ->. unfold status_check in Hc. apply bool_decide_eq_true in Hc.
    apply list_elem_of_In, in_map_iff in Hc as (k & Hk & Hin).
    unfold Trip.status_wf in Hw. cbn in Hk, Hw. rewrite <- Hk in Hw.
    cbn in Hin. naive_solver. }
  destruct s; try (by destruct (Hk s)); inversion H; subst; unfold Trip.open_status in *;
    vm_compute; intuition congruence.
Qed.

Lemma op_no_clash col `{!Column col} op now d id tenant t t1 :
  exclusive col d → (∀ r, r ∈ trips d → status_check (TripRow.Status r) = true) →
  stored_trip d id tenant = Some t → Trip.apply_op op now t = Ok t1 →
  acol t1 = acol t → no_clash col d (MapToPersistence t1).
Proof.
  intros He Hck Hst Hop Hcol.
  pose proof (Trip.apply_op_frame _ _ _ _ Hop) as (Hid & Ht & _).
  pose proof (Trip.lifecycle_sound _ _ _ _ Hop) as Hl.
  pose proof (stored_trip_wf _ _ _ _ Hst) as (Hwf & _).
  destruct (stored_row _ _ _ _ Hst) as (r0 & Hr0 & _ & _ & _ & Hs0).
  destruct (lifecycle_active _ _ _ Hl Hwf) as [Ha Hdr].
  { rewrite <- Hs0. by apply Hck. }
  apply (no_clash_keep col d id tenant t t1); try done.
  by apply (trip_op_wf op now t).
Qed.

(** ** The body of a use case after its gates *)
Lemma Now_inv w now w' : Now w = (Ok now, w') → w_db w' = w_db w.
Proof. by intros [= _ <-]. Qed.

Lemma run_preserves {A} P (m : M A) w r w' :
  preserves (on_db P) m → m w = (r, w') → P (w_db w) (w_db w').
Proof. intros H E. specialize (H w). unfold on_db in H. by rewrite E in H. Qed.

(** Apply an operation to the trip read before and save it. *)
Lemma commit_op (op : Time → Trip.TripAggregate → result Trip.TripAggregate)
    (tail : Trip.TripAggregate → M unit) t id tenant w w' :
  trip_inv (w_db w) → stored_trip (w_db w) id tenant = Some t →
  (∀ t, preserves (on_db same_trips) (tail t)) →
  (∀ now t1, op now t = Ok t1 →
     no_clash TripRow.DriverID (w_db w) (MapToPersistence t1) ∧
     no_clash TripRow.VehicleID (w_db w) (MapToPersistence t1)) →
  (now ← Now; t1 ← SM_lift (op now t); t2 ← Save t1; tail t2) w = (Ok tt, w') →
  trip_inv (w_db w').
Proof.
  intros Hinv Hst Htail Hcl H.
  apply bind_ok_inv in H as (now & w1 & Hn & H). apply Now_inv in Hn.
  apply bind_ok_inv in H as (t1 & w2 & Hop & H). injection Hop as Hop <-.
  apply bind_ok_inv in H as (t2 & w3 & Hs & H).
  destruct (Hcl now t1 Hop) as [Hc1 Hc2].
  apply (run_preserves same_trips) in H; [|apply Htail].
  apply (trip_inv_ext (w_db w3)); [done|].
  apply (Save_inv_trips t1 w1 t2 w3); by rewrite ?Hn.
Qed.

Lemma lifecycle_uc_inv op (action : string) tripID tenantID :
  (∀ d, op ≠ Trip.OpAssignDriver d) → (∀ v, op ≠ Trip.OpAssignVehicle v) →
  ∀ (gate : Trip.TripAggregate → M unit) (tail : Trip.TripAggregate → M unit) w,
  (∀ t, preserves (on_db same_trips) (gate t)) →
  (∀ t, preserves (on_db same_trips) (tail t)) →
  trip_inv (w_db w) →
  trip_inv (w_db (snd (UoWExecute
    (t ← Find tripID tenantID; _ ← gate t; now ← Now;
     t1 ← SM_lift (Trip.apply_op op now t); t2 ← Save t1; tail t2) w))).
Proof.
  intros Hd Hv gate tail w Hgate Htail Hinv. apply UoWExecute_invariant; [done|].
  intros w0 [] w' Hw0 H. rewrite <- Hw0 in Hinv. clear w Hw0.
  apply bind_ok_inv in H as (t & w1 & Hf & H). apply Find_ok in Hf as [Hd1 Hst].
  apply bind_ok_inv in H as ([] & w2 & Hg & H).
  apply (run_preserves same_trips) in Hg; [|apply Hgate]. unfold same_trips in Hg.
  rewrite Hd1 in Hg.
  assert (Hinv2 : trip_inv (w_db w2)) by (by apply (trip_inv_ext (w_db w0))).
  rewrite <- (stored_trip_ext _ _ _ _ Hg) in Hst.
  apply (commit_op (Trip.apply_op op) tail t tripID tenantID w2); try done.
  intros now t1 Hop. destruct Hinv2 as (_ & Hck & He1 & He2).
  split; apply (op_no_clash _ op now _ tripID tenantID t); try done;
    cbn; destruct op; try (by edestruct Hd); try (by edestruct Hv); Trip.trip_cases Hop; done.
Qed.

(** ** Assignment *)
Lemma no_conflict col x tenant id d :
  select_many (conflicts_with col x tenant id) (trips d) = [] → x ≠ ""%string →
  ∀ r, r ∈ trips d → TripRow.ID r ≠ id → TripRow.TenantID r = tenant → active r →
  col r ≠ Some x.
Proof.
  intros Hnil Hx r Hr Hid Ht Ha Hc.
  assert (Hin : r ∈ select_many (conflicts_with col x tenant id) (trips d));
    [|rewrite Hnil in Hin; by apply not_elem_of_nil in Hin].
  apply list_elem_of_In, filter_In. split; [by apply list_elem_of_In|].
  unfold conflicts_with, is_empty. rewrite Hc, Ht, bool_decide_true by done.
  unfold active in Ha. rewrite Ha, String.eqb_refl.
  destruct (String.eqb_spec x "") as [?|_]; [done|]. cbn.
  destruct (String.eqb_spec (TripRow.ID r) id); [done|]. by rewrite orb_true_r.
Qed.

(** Taking a resource no other active trip of the tenant holds. *)
Lemma no_clash_assign col `{!Column col} x d t1 :
  x ≠ ""%string → acol t1 = Some x → Trip.Status t1 ≠ Trip.TripDraft → trip_wf t1 →
  (∀ r, r ∈ trips d → TripRow.ID r ≠ Trip.ID t1 → TripRow.TenantID r = Trip.TenantID t1 →
     active r → col r ≠ Some x) →
  no_clash col d (MapToPersistence t1).
Proof.
  intros Hx Hcol Hs Hwf Hfree. split; rewrite col_persist, Hcol.
  - intros r y Hr Hne Ht Har _ _ [= <-]. by apply Hfree.
  - intros Hd. destruct Hs. by apply status_string_inj.
Qed.

Lemma AssignDriver_inv cmd w :
  trip_inv (w_db w) → trip_inv (w_db (snd (AssignDriverExecute cmd w))).
Proof.
  intros Hinv. unfold AssignDriverExecute. unfold is_empty at 1.
  destruct (String.eqb_spec (AssigneeID cmd) "") as [?|Hx]; [done|].
  apply UoWExecute_invariant; [done|]. intros w0 [] w' Hw0 H. rewrite <- Hw0 in Hinv. clear w Hw0.
  apply bind_ok_inv in H as (t & w1 & Hf & H). apply Find_ok in Hf as [Hd1 Hst].
  apply bind_ok_inv in H as (r & w2 & H2 & H).
  apply (run_preserves same_trips) in H2;
    [|apply preserves_try, checkDriverCompliance_same].
  apply bind_ok_inv in H as ([] & w3 & H3 & H).
  apply (run_preserves same_trips) in H3;
    [|pose proof override_driver_same; preserve].
  apply bind_ok_inv in H as ([] & w4 & H4 & H).
  apply (run_preserves same_trips) in H4;
    [|pose proof maintenance_gate_same; preserve].
  apply bind_ok_inv in H as (conflicts & w5 & H5 & H).
  apply bind_ok_inv in H5 as (rows & w5' & H5 & Hc). injection Hc as <- <-.
  apply query_inv in H5 as (H5 & _ & Hrows). unfold same_trips in *.
  assert (Htr : trips (w_db w5') = trips (w_db w0)) by congruence.
  assert (Hinv5 : trip_inv (w_db w5')) by (by apply (trip_inv_ext (w_db w0))).
  destruct rows as [|row rows]; [|discriminate H].
  rewrite <- (stored_trip_ext _ _ _ _ Htr) in Hst. rewrite <- H5 in Hrows.
  destruct (stored_trip_wf _ _ _ _ Hst) as (_ & Hid & Hten & _).
  apply (commit_op (λ now t, Trip.AssignDriver (AssigneeID cmd) now t)
           (λ t, logAudit "assign" (Trip.ID t) None None) t (TripID cmd) (TenantID cmd) w5');
    try done; [intros; apply logAudit_same|].
  intros now t1 Hop. pose proof Hinv5 as (_ & Hck & He1 & He2).
  change (Trip.apply_op (Trip.OpAssignDriver (AssigneeID cmd)) now t = Ok t1) in Hop. split.
  - pose proof (Trip.apply_op_frame _ _ _ _ Hop) as (Hid1 & Ht1 & _).
    apply (no_clash_assign _ (AssigneeID cmd)); [done| | | |].
    1,2: by Trip.trip_cases Hop.
    + apply (trip_op_wf _ _ _ _ Hop), (stored_trip_wf _ _ _ _ Hst).
    + intros r0 Hr0. rewrite Hid1, Ht1, Hid, Hten.
      by apply (no_conflict TripRow.DriverID _ _ _ _ (eq_sym Hrows)).
  - apply (op_no_clash _ (Trip.OpAssignDriver (AssigneeID cmd)) now _ (TripID cmd)
             (TenantID cmd) t); try done. by Trip.trip_cases Hop.
Qed.

Lemma AssignVehicle_inv cmd w :
  trip_inv (w_db w) → trip_inv (w_db (snd (AssignVehicleExecute cmd w))).
Proof.
  intros Hinv. unfold AssignVehicleExecute. unfold is_empty at 1.
  destruct (String.eqb_spec (AssigneeID cmd) "") as [?|Hx]; [done|].
  apply UoWExecute_invariant; [done|]. intros w0 [] w' Hw0 H. rewrite <- Hw0 in Hinv. clear w Hw0.
  apply bind_ok_inv in H as (t & w1 & Hf & H). apply Find_ok in Hf as [Hd1 Hst].
  apply bind_ok_inv in H as ([] & w2 & H2 & H).
  apply (run_preserves same_trips) in H2; [|apply checkVehicleCompliance_same].
  apply bind_ok_inv in H as (conflicts & w5 & H5 & H).
  apply bind_ok_inv in H5 as (rows & w5' & H5 & Hc). injection Hc as <- <-.
  apply query_inv in H5 as (H5 & _ & Hrows). unfold same_trips in *.
  assert (Htr : trips (w_db w5') = trips (w_db w0)) by congruence.
  assert (Hinv5 : trip_inv (w_db w5')) by (by apply (trip_inv_ext (w_db w0))).
  destruct rows as [|row rows]; [|discriminate H].
  rewrite <- (stored_trip_ext _ _ _ _ Htr) in Hst. rewrite <- H5 in Hrows.
  destruct (stored_trip_wf _ _ _ _ Hst) as (Hwf & Hid & Hten & _).
  apply (commit_op (λ now t, Trip.AssignVehicle (AssigneeID cmd) now t)
           (λ t, logAudit "assign" (Trip.ID t) None None) t (TripID cmd) (TenantID cmd) w5');
    try done; [intros; apply logAudit_same|].
  intros now t1 Hop. pose proof Hinv5 as (_ & Hck & He1 & He2).
  change (Trip.apply_op (Trip.OpAssignVehicle (AssigneeID cmd)) now t = Ok t1) in Hop. split.
  - apply (op_no_clash _ (Trip.OpAssignVehicle (AssigneeID cmd)) now _ (TripID cmd)
             (TenantID cmd) t); try done. by Trip.trip_cases Hop.
  - pose proof (Trip.apply_op_frame _ _ _ _ Hop) as (Hid1 & Ht1 & _).
    apply (no_clash_assign _ (AssigneeID cmd)); [done| | | |].
    + by Trip.trip_cases Hop.
    + intros Hdr. destruct He1 as [_ He1].
      destruct (stored_row _ _ _ _ Hst) as (r0 & Hr0 & _ & _ & Hm0 & Hs0).
      assert (Hs : Trip.Status t = Trip.TripDraft ∧ Trip.DriverID t ≠ None)
        by (by Trip.trip_cases Hop; tauto).
      destruct Hs as [Hs Hdn]. destruct Hdn. rewrite <- Hm0. cbn.
      apply (He1 r0 Hr0). by rewrite Hs0, Hs.
    + apply (trip_op_wf _ _ _ _ Hop), Hwf.
    + intros r0 Hr0. rewrite Hid1, Ht1, Hid, Hten.
      by apply (no_conflict TripRow.VehicleID _ _ _ _ (eq_sym Hrows)).
Qed.

Lemma CreateTrip_inv cmd w :
  trip_inv (w_db w) → trip_inv (w_db (snd (CreateTripExecute cmd w))).
Proof.
  intros Hinv. unfold CreateTripExecute, GenerateDisplayID. repeat (case_match; [done|]).
  cbv [mbind SM_mbind SM_bind]. cbn -[UoWExecute Save logAudit].
  match goal with |- context [UoWExecute ?f ?w0] =>
    assert (Hi : trip_inv (w_db (snd (UoWExecute f w0))))
  end.
  2:{ by destruct (UoWExecute _ _) as [[]]. }
  apply UoWExecute_invariant; [done|]. intros w0 [] w' Hw0 Hrun. cbn in Hw0.
  rewrite <- Hw0 in Hinv.
  destruct (Save _ w0) as [[t'|e] w1] eqn:Hs; [|discriminate Hrun].
  apply (run_preserves same_trips) in Hrun; [|apply logAudit_same].
  apply (trip_inv_ext (w_db w1)); [done|].
  eapply Save_inv_trips; [exact Hinv| | |exact Hs]; split; done.
Qed.

(** ** Every use case *)
Inductive command :=
| CmdCreate (cmd : CreateTripCommand)
| CmdSchedule (id tenant : string) | CmdAssignDriver (cmd : AssignCommand)
| CmdAssignVehicle (cmd : AssignCommand) | CmdStart (id tenant : string)
| CmdReachPickup (id tenant : string) | CmdStartTransit (id tenant : string)
| CmdDeliver (id tenant : string) | CmdComplete (id tenant : string)
| CmdCancel (id tenant : string).

Definition run_command (c : command) : M unit :=
  match c with
  | CmdCreate cmd => _ ← CreateTripExecute cmd; mret tt
  | CmdSchedule id t => ScheduleTripExecute id t
  | CmdAssignDriver cmd => AssignDriverExecute cmd
  | CmdAssignVehicle cmd => AssignVehicleExecute cmd
  | CmdStart id t => StartTripExecute id t
  | CmdReachPickup id t => ReachPickupExecute id t
  | CmdStartTransit id t => StartTransitExecute id t
  | CmdDeliver id t => DeliverExecute id t
  | CmdComplete id t => CompleteTripExecute id t None
  | CmdCancel id t => CancelTripExecute id t
  end.

(** A use case without a gate is one whose gate does nothing. *)
Lemma no_gate {A B} (m : M A) (k : A → M B) :
  (m ≫= k) = (m ≫= λ a, (mret tt : M unit) ≫= λ _, k a).
Proof. reflexivity. Qed.

Ltac lifecycle op a :=
  lazymatch goal with
  | |- trip_inv (w_db (snd (UoWExecute (mbind ?k ?m) ?w))) => rewrite (no_gate m k)
  end;
  apply (lifecycle_uc_inv op a _ _ ltac:(done) ltac:(done) (λ _, mret tt)
           (λ t, logAudit a (Trip.ID t) None None)); [..|assumption];
  pose proof logAudit_same; preserve.

Lemma run_command_inv c w : trip_inv (w_db w) → trip_inv (w_db (snd (run_command c w))).
Proof.
  intros Hinv. destruct c as [cmd|id t|cmd|cmd|id t|id t|id t|id t|id t|id t]; cbn [run_command].
  - pose proof (CreateTrip_inv cmd w Hinv) as H. cbv [mbind SM_mbind SM_bind].
    by destruct (CreateTripExecute cmd w) as [[]].
  - unfold ScheduleTripExecute. lifecycle Trip.OpSchedule "schedule"%string.
  - by apply AssignDriver_inv.
  - by apply AssignVehicle_inv.
  - unfold StartTripExecute.
    apply (lifecycle_uc_inv Trip.OpStart "start" id t ltac:(done) ltac:(done)
             (λ x, start_gate x t) (λ t, logAudit "start" (Trip.ID t) None None));
      [..|assumption]; intros; [apply start_gate_same|apply logAudit_same].
  - unfold ReachPickupExecute. lifecycle Trip.OpReachPickup "reach_pickup"%string.
  - unfold StartTransitExecute. lifecycle Trip.OpStartTransit "start_transit"%string.
  - unfold DeliverExecute. lifecycle Trip.OpDeliver "deliver"%string.
  - unfold CompleteTripExecute.
    lazymatch goal with
    | |- trip_inv (w_db (snd (UoWExecute (mbind ?k ?m) ?w))) => rewrite (no_gate m k)
    end.
    apply (lifecycle_uc_inv Trip.OpComplete "complete" id t ltac:(done) ltac:(done)
             (λ _, mret tt) (λ t, _ ← logAudit "complete" (Trip.ID t) None None; mret tt));
      [..|assumption]; pose proof logAudit_same; preserve.
  - unfold CancelTripExecute. lifecycle Trip.OpCancel "cancel"%string.
Qed.
End Safety.

(** ** Refinement of the lifecycle use cases *)
Section Refinement.
Context {env : Env}.

Definition lifecycle_uc (op : Trip.trip_op) : option (string → string → M unit) :=
  match op with
  | Trip.OpSchedule => Some ScheduleTripExecute
  | Trip.OpReachPickup => Some ReachPickupExecute
  | Trip.OpStartTransit => Some StartTransitExecute
  | Trip.OpDeliver => Some DeliverExecute
  | Trip.OpComplete => Some (λ id t, CompleteTripExecute id t None)
  | Trip.OpCancel => Some CancelTripExecute
  | _ => None
  end.

#[local] Instance trip_operation op : Operation (Trip.apply_op op).
Proof.
  split.
  - intros now t t' H. pose proof (Trip.apply_op_frame _ _ _ _ H) as (? & ? & _ & _ & _ & ? & _).
    done.
  - intros now t t'. apply trip_op_wf.
Qed.

Lemma lifecycle_uc_transition op uc id t w :
  lifecycle_uc op = Some uc →
  ∃ action, uc id t w = transition_uc (Trip.apply_op op) TripTableName action id t w.
Proof.
  destruct op; intros [= <-]; eexists; reflexivity.
Qed.

(** C5: each lifecycle use case is one transition of the stored trip: when
    it succeeds, the trip's row is the operation's result over the very
    aggregate that was stored (next version, database time), its status
    has moved along an edge of the lifecycle, its events are appended to
    the outbox, and every other trip is as it was; when it fails, the
    database is unchanged. *)
Theorem lifecycle_uc_refines op uc id t w r w' :
  lifecycle_uc op = Some uc → trips_pk (w_db w) → uc id t w = (r, w') →
  match r with
  | Ok _ => transition_spec (Trip.apply_op op) (w_db w) (w_db w') id t ∧
            ∃ s s', Trip.Status <$> stored_trip (w_db w) id t = Some s ∧
                    Trip.Status <$> stored_trip (w_db w') id t = Some s' ∧
                    Trip.lifecycle s op s'
  | Fail _ => w_db w' = w_db w
  end.
Proof.
  intros Hop Hpk H. destruct (lifecycle_uc_transition op uc id t w Hop) as [action E].
  rewrite E in H.
  pose proof (transition_refines (Trip.apply_op op) TripTableName action id t w r w' Hpk H) as Hr.
  destruct r as [[]|e]; [|done]. destruct Hr as [Hr _]. split; [done|].
  destruct Hr as (a & a1 & now & dbnow & rows & Ha & H1 & Ha1 & _).
  cbn [stored trip_repo] in Ha, Ha1. exists (Trip.Status a), (Trip.Status a1).
  rewrite Ha, Ha1. split_and!; [done| |by eapply Trip.lifecycle_sound].
  cbn. f_equal. pose proof (stored_trip_wf _ _ _ _ Ha) as [Hwf _].
  exact (trip_op_wf _ _ _ _ H1 Hwf).
Qed.

(** ** What a started trip was checked against *)
Ltac later_leaf := first [ apply stmt_passes | apply Now_passes | apply GenerateUUID_passes ].
Lemma Find_passes id tenant w r w' : TripRepo.Find id tenant w = (r, w') → passes w w'.
Proof.
  assert (H : preserves passes (TripRepo.Find id tenant)).
  { unfold TripRepo.Find, TripRepo.GetTripByID, TripRepo.not_found, query_row. preserve_with ltac:(fun _ => later_leaf). }
  intros E. specialize (H w). by rewrite E in H.
Qed.
Lemma commit_passes t w r w' :
  (now ← Now; t ← SM_lift (Trip.Start now t); t ← TripRepo.Save t; logAudit "start" (Trip.ID t) None None) w = (r, w') →
  passes w w'.
Proof.
  assert (H : preserves passes (now ← Now; t ← SM_lift (Trip.Start now t); t ← TripRepo.Save t; logAudit "start" (Trip.ID t) None None)).
  { unfold TripRepo.Save, TripRepo.Exists, TripRepo.UpdateTrip, TripRepo.CreateTrip, SaveEvents, save_event, logAudit, log_audit,
      CreateAuditLog, query_row, query, exec. preserve_with ltac:(fun _ => later_leaf). }
  intros E. specialize (H w). by rewrite E in H.
Qed.

(** Between two moments: an exemption that a statement made then found valid. *)
Definition exempted (w w' : World) (entityType entityID docType : string) : Prop :=
  in_statement w w' (λ n, ∃ r, r ∈ compliance_exemptions (w_db w) ∧
    exemption_matches entityType entityID docType (db_now n) r = true).
(** A document with its expiry, held against a time. *)
Definition in_date (w w' : World) (entityType entityID docType : string) (when_ now : Time) : Prop :=
  expired when_ now = false ∨ exempted w w' entityType entityID docType.
(** The PUC certificate of the vehicle: none, in date, exempted - or the
    statement that was to read it failed, which the code takes for none. *)
Definition puc_in_date (w w' : World) (v : string) (now : Time) : Prop :=
  (∀ row p, select_one (λ r, String.eqb (VehicleRow.ID r) v) (vehicles (w_db w)) = Some row →
     VehicleRow.PucExpiry row = Some p → in_date w w' "vehicle" v "puc" p now) ∨
  in_statement w w' (λ n, stmt_fault n ≠ None).

Lemma exempted_within w1 w2 w3 w4 et id dt :
  passes w1 w2 → passes w3 w4 → w_db w2 = w_db w1 → exempted w2 w3 et id dt → exempted w1 w4 et id dt.
Proof. intros H1 H2 Hd. unfold exempted. rewrite Hd. by apply in_statement_within. Qed.
Lemma in_date_within w1 w2 w3 w4 et id dt t now :
  passes w1 w2 → passes w3 w4 → w_db w2 = w_db w1 → in_date w2 w3 et id dt t now → in_date w1 w4 et id dt t now.
Proof. intros H1 H2 Hd [H|H]; [by left|right]. by apply (exempted_within _ _ _ _ _ _ _ H1 H2 Hd). Qed.
Lemma puc_within w1 w2 w3 w4 v now :
  passes w1 w2 → passes w3 w4 → w_db w2 = w_db w1 → puc_in_date w2 w3 v now → puc_in_date w1 w4 v now.
Proof.
  intros H1 H2 Hd [H|H]; [left|right; by apply (in_statement_within _ _ _ _ _ H1 H2)].
  intros row p Hr Hp. rewrite Hd in H. by apply (in_date_within _ _ _ _ _ _ _ _ _ H1 H2 Hd), (H row).
Qed.

Lemma isExempt_read et id dt w b w' :
  isExempt et id dt w = (Ok b, w') →
  w_db w' = w_db w ∧ passes w w' ∧ (b = true → exempted w w' et id dt).
Proof.
  intros H. apply bind_ok_inv in H as (r & w1 & Hq & H). injection H as <- <-.
  unfold SM_try in Hq. destruct (query_row _ w) as [r0 w0] eqn:E. injection Hq as -> ->.
  apply query_row_read in E as (Hd & Hp & (n & Hn & E)). split; [done|]. split; [done|]. intros Hb.
  destruct r as [row|e]; [|done]. exists n. split; [done|]. apply select_one_Some in E as [Hin Hm]. by exists row.
Qed.
Lemma find_driver_read d tenant w a w' :
  find_driver d tenant w = (Ok a, w') → w_db w' = w_db w ∧ passes w w' ∧
  ∃ row, select_one (DriverRepo.driver_key d tenant) (drivers (w_db w)) = Some row ∧ a = DriverRepo.ToDomain row.
Proof.
  intros H. apply bind_ok_inv in H as (r & w0 & Hq & H). unfold SM_try in Hq.
  destruct (DriverRepo.Find d tenant w) as [r0 wq] eqn:E. injection Hq as -> ->.
  destruct r as [a'|e]; [|discriminate H]. injection H as -> ->. pose proof E as E'.
  apply DriverRepo.driver_Find_ok in E as (Hd & row & Hrow & ->). split; [done|]. split; [|by exists row].
  assert (Hp : preserves passes (DriverRepo.Find d tenant)).
  { unfold DriverRepo.Find, query_row. preserve_with ltac:(fun _ => later_leaf). }
  specialize (Hp w). by rewrite E' in Hp.
Qed.
Lemma find_vehicle_read v tenant w a w' :
  find_vehicle v tenant w = (Ok a, w') → w_db w' = w_db w ∧ passes w w' ∧
  ∃ row, select_one (VehicleRepo.vehicle_key v tenant) (vehicles (w_db w)) = Some row ∧ a = VehicleRepo.ToDomain row.
Proof.
  intros H. apply bind_ok_inv in H as (r & w0 & Hq & H). unfold SM_try in Hq.
  destruct (VehicleRepo.Find v tenant w) as [r0 wq] eqn:E. injection Hq as -> ->.
  destruct r as [a'|e]; [|discriminate H]. injection H as -> ->. pose proof E as E'.
  apply VehicleRepo.vehicle_Find_ok in E as (Hd & row & Hrow & ->). split; [done|]. split; [|by exists row].
  assert (Hp : preserves passes (VehicleRepo.Find v tenant)).
  { unfold VehicleRepo.Find, query_row. preserve_with ltac:(fun _ => later_leaf). }
  specialize (Hp w). by rewrite E' in Hp.
Qed.

Definition driver_fit (w w' : World) (d tenant : string) : Prop :=
  ∃ row now, select_one (DriverRepo.driver_key d tenant) (drivers (w_db w)) = Some row ∧ clock_read w w' now ∧
    driver_off (Driver.status_of_string (DriverRow.Status row)) = false ∧
    in_date w w' "driver" d "license" (DriverRow.LicenseExpiry row) (Truncate now day).
Definition vehicle_fit (w w' : World) (v tenant : string) : Prop :=
  ∃ row now, select_one (VehicleRepo.vehicle_key v tenant) (vehicles (w_db w)) = Some row ∧ clock_read w w' now ∧
    vehicle_off (Vehicle.status_of_string (VehicleRow.Status row)) = false ∧
    (∀ name when_,
      (name, when_) ∈ [("insurance"%string, VehicleRow.InsuranceExpiry row);
                       ("fitness"%string, VehicleRow.FitnessExpiry row);
                       ("permit"%string, VehicleRow.PermitExpiry row)] →
      in_date w w' "vehicle" v name when_ (Truncate now day)) ∧
    puc_in_date w w' v (Truncate now day).
Lemma driver_fit_within w1 w2 w3 w4 d t :
  passes w1 w2 → passes w3 w4 → w_db w2 = w_db w1 → driver_fit w2 w3 d t → driver_fit w1 w4 d t.
Proof.
  intros H1 H2 Hd (row & now & Hr & Hn & Ho & Hi). exists row, now. rewrite Hd in Hr.
  split_and!; [done|by apply (clock_read_within _ _ _ _ _ H1 H2)|done|by apply (in_date_within _ _ _ _ _ _ _ _ _ H1 H2 Hd)].
Qed.
Lemma vehicle_fit_within w1 w2 w3 w4 v t :
  passes w1 w2 → passes w3 w4 → w_db w2 = w_db w1 → vehicle_fit w2 w3 v t → vehicle_fit w1 w4 v t.
Proof.
  intros H1 H2 Hd (row & now & Hr & Hn & Ho & Hi & Hp). exists row, now. rewrite Hd in Hr.
  split_and!; [done|by apply (clock_read_within _ _ _ _ _ H1 H2)|done| |by apply (puc_within _ _ _ _ _ _ H1 H2 Hd)].
  intros name when_ Hin. by apply (in_date_within _ _ _ _ _ _ _ _ _ H1 H2 Hd), Hi.
Qed.

Lemma driver_checked d tenant w w' :
  checkDriverComplianceOnStart d tenant w = (Ok tt, w') → w_db w' = w_db w ∧ passes w w' ∧ driver_fit w w' d tenant.
Proof.
  intros H. unfold checkDriverComplianceOnStart in H.
  apply bind_ok_inv in H as (a & w1 & Hf & H). apply find_driver_read in Hf as (Hd1 & Hp1 & row & Hrow & ->).
  destruct (driver_off _) eqn:Hoff; [discriminate H|].
  apply bind_ok_inv in H as (now & w2 & Hn & H). apply Now_read in Hn as (Hn & Hp2 & Hd2). cbn zeta in H.
  cbn [Driver.LicenseExpiry DriverRepo.ToDomain] in H.
  assert (Hfit : ∀ w3, passes w2 w3 → in_date w2 w3 "driver" d "license" (DriverRow.LicenseExpiry row) (Truncate now day) →
    driver_fit w w3 d tenant).
  { intros w3 Hp3 Hi. exists row, now. split_and!; [done| |exact Hoff|].
    - by apply (clock_read_within _ _ _ _ _ Hp1 Hp3).
    - apply (in_date_within w w2 w3 w3 _ _ _ _ _ ltac:(by etrans) ltac:(done) ltac:(congruence) Hi). }
  destruct (expired _ _) eqn:Hx.
  - apply bind_ok_inv in H as (b & w3 & He & H). apply isExempt_read in He as (H3 & Hp3 & Hb).
    destruct b; [|discriminate H]. injection H as <-. split; [congruence|]. split; [by etrans; [|etrans]|].
    apply Hfit; [done|]. right. by apply Hb.
  - injection H as <-. split; [congruence|]. split; [by etrans|]. apply Hfit; [done|]. by left.
Qed.

Lemma documents_checked v now docs w w' :
  SM_iter (check_document_on_start v now) docs w = (Ok tt, w') →
  w_db w' = w_db w ∧ passes w w' ∧
  ∀ name when_, (name, when_) ∈ docs → in_date w w' "vehicle" v name when_ now.
Proof.
  revert w. induction docs as [|[name when_] docs IH]; intros w H; cbn in H.
  { injection H as <-. split_and!; [done|done|]. intros ?? ?%not_elem_of_nil. done. }
  apply bind_ok_inv in H as ([] & w1 & H1 & H).
  assert (Hh : w_db w1 = w_db w ∧ passes w w1 ∧ in_date w w1 "vehicle" v name when_ now).
  { unfold check_document_on_start in H1. cbn [fst snd] in H1.
    destruct (expired when_ now) eqn:Hx; [|injection H1 as <-; split_and!; [done|done|by left]].
    apply bind_ok_inv in H1 as (b & w2 & He & H1). apply isExempt_read in He as (H3 & H4 & Hb).
    destruct b; [|discriminate H1]. injection H1 as <-. split_and!; [done|done|]. right. by apply Hb. }
  destruct Hh as (Hd1 & Hp1 & Hh). apply IH in H as (Hd & Hp & H). split; [congruence|]. split; [by etrans|].
  intros n' t'. rewrite elem_of_cons. intros [[= -> ->]|Hin].
  - by apply (in_date_within w w w1 w').
  - by apply (in_date_within w w1 w' w'), H.
Qed.

Lemma puc_checked v now w w' :
  (puc ← getPUCExpiry v;
   match puc with
   | Some p => if Before p now then
         exempt ← isExempt "vehicle" v "puc"; if (exempt : bool) then mret tt else SM_fail (document_blocked "PUC")
       else mret tt
   | None => mret tt
   end) w = (Ok tt, w') → w_db w' = w_db w ∧ passes w w' ∧ puc_in_date w w' v now.
Proof.
  intros H. apply bind_ok_inv in H as (puc & w1 & Hg & H).
  apply bind_ok_inv in Hg as (r & w0 & Hq & Hg). injection Hg as <- ->. unfold SM_try in Hq.
  destruct (query_row _ w) as [r0 wq] eqn:E. injection Hq as -> ->.
  apply query_row_read in E as (Hd & Hp & Hs).
  assert (Hnone : r = Fail ErrNoRows ∨ (∃ e, r = Fail e) ∨ ∃ row, r = Ok row) by (destruct r; eauto).
  destruct r as [row|e]; cbn [mret] in H.
  2:{ injection H as <-. split; [done|]. split; [done|]. destruct Hs as (n & Hn & [Hf|Hf]).
      - right. exists n. split; [done|]. by rewrite Hf.
      - left. intros row p Hr. congruence. }
  destruct Hs as (n & Hn & Hr). destruct (VehicleRow.PucExpiry row) as [p|] eqn:Ep.
  2:{ injection H as <-. split; [done|]. split; [done|]. left. intros row' p' Hr' Hp'. congruence. }
  destruct (time_IsZero p) eqn:Ez.
  { injection H as <-. split; [done|]. split; [done|]. left. intros row' p' Hr' Hp'.
    assert (p' = p) as -> by congruence. left. unfold expired. by rewrite Ez. }
  destruct (Before p now) eqn:Eb.
  - apply bind_ok_inv in H as (b & w2 & He & H). apply isExempt_read in He as (H3 & H4 & Hb).
    destruct b; [|discriminate H]. injection H as <-. split; [congruence|]. split; [by etrans|].
    left. intros row' p' Hr' Hp'. right. by apply (exempted_within w w1 w2 w2), Hb.
  - injection H as <-. split; [done|]. split; [done|]. left. intros row' p' Hr' Hp'.
    assert (p' = p) as -> by congruence. left. unfold expired. by rewrite Eb, andb_false_r.
Qed.

Lemma vehicle_checked v tenant w w' :
  checkVehicleComplianceOnStart v tenant w = (Ok tt, w') → w_db w' = w_db w ∧ passes w w' ∧ vehicle_fit w w' v tenant.
Proof.
  intros H. unfold checkVehicleComplianceOnStart in H.
  apply bind_ok_inv in H as (a & w1 & Hf & H). apply find_vehicle_read in Hf as (Hd1 & Hp1 & row & Hrow & ->).
  destruct (vehicle_off _) eqn:Hoff; [discriminate H|].
  apply bind_ok_inv in H as (now & w2 & Hn & H). apply Now_read in Hn as (Hn & Hp2 & Hd2). cbn zeta in H.
  apply bind_ok_inv in H as ([] & w3 & Hdocs & H). apply documents_checked in Hdocs as (Hd3 & Hp3 & Hdocs).
  apply puc_checked in H as (Hd4 & Hp4 & Hpuc).
  assert (Hp12 : passes w w2) by (by etrans). assert (Hp13 : passes w w3) by (by etrans).
  split; [congruence|]. split; [by etrans|].
  exists row, now. split_and!; [done| |exact Hoff| |].
  - apply (clock_read_within w w1 w2 w'); [done|by etrans|done].
  - intros name when_ Hin. apply (in_date_within w w2 w3 w'); [done|done|congruence|]. by apply Hdocs.
  - apply (puc_within w w3 w' w'); [done|done|congruence|done].
Qed.

(** C4: a trip starts only out of [scheduled] or [assigned], and only after
    the driver and the vehicle it carries, if any, were found fit: on record
    for the tenant, in an assignable status, and with the licence, or the
    insurance, the fitness certificate, the permit and the PUC certificate,
    not expired on the day the clock read while the start ran, or exempted by
    a row that a statement of it found valid.  A PUC certificate whose
    statement failed is not looked at. *)
Theorem started_trip_is_compliant id tenant w w' :
  StartTripExecute id tenant w = (Ok tt, w') →
  ∃ t, stored_trip (w_db w) id tenant = Some t ∧
    (Trip.Status t = Trip.TripScheduled ∨ Trip.Status t = Trip.TripAssigned) ∧
    (∀ d, Trip.DriverID t = Some d → d ≠ ""%string → driver_fit w w' d tenant) ∧
    (∀ v, Trip.VehicleID t = Some v → v ≠ ""%string → vehicle_fit w w' v tenant).
Proof.
  intros H. apply UoWExecute_run in H as (w1 & H & ->).
  apply bind_ok_inv in H as (t & wa & Hf & H). pose proof Hf as Hf'. apply Find_ok in Hf as [Hda Hst].
  apply Find_passes in Hf'.
  apply bind_ok_inv in H as ([] & wb & Hg & H).
  assert (Hpb : passes wb w1) by (eapply commit_passes; exact H).
  apply bind_ok_inv in H as (now & wc & _ & H).
  apply bind_ok_inv in H as (t1 & wd & Hop & _). injection Hop as Hop _.
  exists t. split; [done|]. split.
  { apply Trip.lifecycle_sound with (op := Trip.OpStart) in Hop. inversion Hop; naive_solver. }
  assert (Hpa : passes w wa) by (etrans; [|exact Hf']; split; cbn; lia).
  assert (Hp1 : passes w1 (tick_stmts w1)) by (split; cbn; lia).
  unfold start_gate in Hg. apply bind_ok_inv in Hg as ([] & we & Hd & Hv).
  assert (Hde : w_db we = w_db wa ∧ passes wa we).
  { destruct (Trip.DriverID t) as [d|]; [|by injection Hd as <-].
    destruct (is_empty d); [by injection Hd as <-|]. apply driver_checked in Hd as (? & ? & _). done. }
  destruct Hde as [Hde Hpe].
  assert (Hpv : passes we wb).
  { destruct (Trip.VehicleID t) as [v|]; [|by injection Hv as <-].
    destruct (is_empty v); [by injection Hv as <-|]. by apply vehicle_checked in Hv as (? & ? & _). }
  split.
  - intros d Ed Hne. rewrite Ed in Hd. unfold is_empty in Hd.
    destruct (String.eqb_spec d ""); [done|]. apply driver_checked in Hd as (_ & _ & Hd).
    apply (driver_fit_within w wa we); [done| |exact Hda|done]. by do 2 (etrans; [done|]); etrans.
  - intros v Ev Hne. rewrite Ev in Hv. unfold is_empty in Hv.
    destruct (String.eqb_spec v ""); [done|]. apply vehicle_checked in Hv as (_ & _ & Hv).
    apply (vehicle_fit_within w we wb); [by etrans| |rewrite Hde; exact Hda|done]. by etrans.
Qed.
End Refinement.

(** The states the use cases reach, from one without trips; each request has
    an environment of its own: clock, session, and faults. *)
Inductive reachable : DB → Prop :=
| reach_empty d : trips d = [] → reachable d
| reach_command (env : Env) c w :
    reachable (w_db w) → reachable (w_db (snd (run_command c w)))
| reach_other d d' : reachable d → trips d' = trips d → reachable d'.

(** C1: no double booking: however the trip use cases are interleaved with
    each other and with changes to the other tables, whichever statements
    fail, two active trips of one tenant never have the same driver, nor the
    same vehicle. *)
Theorem no_double_assignment d r1 r2 x :
  reachable d → r1 ∈ trips d → r2 ∈ trips d → TripRow.TenantID r1 = TripRow.TenantID r2 →
  active r1 → active r2 → x ≠ ""%string →
  (TripRow.DriverID r1 = Some x ∧ TripRow.DriverID r2 = Some x) ∨
  (TripRow.VehicleID r1 = Some x ∧ TripRow.VehicleID r2 = Some x) →
  TripRow.ID r1 = TripRow.ID r2.
Proof.
  intros Hr H1 H2 Ht Ha1 Ha2 Hx Hc.
  assert (Hinv : trip_inv d).
  { clear -Hr. induction Hr as [d Hd|env c w _ IH|d d' _ IH Hd].
    - by apply trip_inv_empty.
    - by apply run_command_inv.
    - by apply (trip_inv_ext d). }
  destruct (decide (TripRow.ID r1 = TripRow.ID r2)) as [|Hne]; [done|]. exfalso.
  destruct Hinv as (_ & _ & [He1 _] & [He2 _]). destruct Hc as [[Hc1 Hc2]|[Hc1 Hc2]].
  - by apply (He1 r1 r2 x).
  - by apply (He2 r1 r2 x).
Qed.
(** ** Concrete runs *)
Definition demo_cmd (c : command) (w : World) : World := snd (run_command (env := demo_env) c w).
Definition scheduled_w : World := demo_cmd (CmdSchedule "t1" "acme") (world demo_db).
Definition assigned_w : World :=
  demo_cmd (CmdAssignVehicle (mkAssign "t1" "v1" "acme" false ""))
    (demo_cmd (CmdAssignDriver (mkAssign "t1" "d1" "acme" false "")) scheduled_w).
Definition started_w : World := snd (StartTripExecute (env := demo_env) "t1" "acme" assigned_w).

Lemma lifecycle_uc_refines_witness :
  let env := demo_env in
  transition_spec (Trip.apply_op Trip.OpSchedule) demo_db (w_db scheduled_w) "t1" "acme" ∧
  ∃ s s', Trip.Status <$> stored_trip demo_db "t1" "acme" = Some s ∧
          Trip.Status <$> stored_trip (w_db scheduled_w) "t1" "acme" = Some s' ∧
          Trip.lifecycle s Trip.OpSchedule s'.
Proof.
  intros env.
  apply (lifecycle_uc_refines Trip.OpSchedule ScheduleTripExecute "t1" "acme" (world demo_db)
           (Ok tt) scheduled_w eq_refl demo_pk).
  vm_compute. reflexivity.
Defined.

Lemma started_trip_is_compliant_witness :
  ∃ t, stored_trip (w_db assigned_w) "t1" "acme" = Some t ∧
    (Trip.Status t = Trip.TripScheduled ∨ Trip.Status t = Trip.TripAssigned) ∧
    (∀ d, Trip.DriverID t = Some d → d ≠ ""%string → driver_fit (env := demo_env) assigned_w started_w d "acme") ∧
    (∀ v, Trip.VehicleID t = Some v → v ≠ ""%string → vehicle_fit (env := demo_env) assigned_w started_w v "acme").
Proof.
  apply (started_trip_is_compliant (env := demo_env) "t1" "acme" assigned_w started_w).
  vm_compute. reflexivity.
Defined.

(** Two trips made from nothing; the driver is assigned to the first, and
    assigning them to the second, of the same window, fails. *)
Definition demo_create : command :=
  CmdCreate (mkCreateTrip "acme" None "r1" (jan1 + 5 * day) "").
Definition two_trips : World :=
  demo_cmd (CmdAssignDriver (mkAssign "id-4" "d1" "acme" false ""))
    (demo_cmd (CmdAssignDriver (mkAssign "id-0" "d1" "acme" false ""))
      (demo_cmd (CmdSchedule "id-4" "acme") (demo_cmd (CmdSchedule "id-0" "acme")
        (demo_cmd demo_create (demo_cmd demo_create (world (set_trips [] demo_db))))))).
Definition only_assigned : TripRow.SQLTripModel :=
  default demo_trip_row (select_one (λ r, bool_decide (TripRow.DriverID r = Some "d1"%string))
                           (trips (w_db two_trips))).

Lemma no_double_assignment_witness :
  List.length (trips (w_db two_trips)) = 2%nat ∧
  List.length (select_many (λ r, bool_decide (TripRow.DriverID r = Some "d1"%string))
            (trips (w_db two_trips))) = 1%nat ∧
  TripRow.ID only_assigned = TripRow.ID only_assigned.
Proof.
  split; [vm_compute; reflexivity|]. split; [vm_compute; reflexivity|].
  apply (no_double_assignment (w_db two_trips) only_assigned only_assigned "d1"%string).
  - repeat apply reach_command. apply reach_empty. reflexivity.
  - vm_compute. constructor.
  - vm_compute. constructor.
  - reflexivity.
  - vm_compute. reflexivity.
  - vm_compute. reflexivity.
  - discriminate.
  - left. split; vm_compute; reflexivity.
Defined.
End TripSafety.
