(* ===== verification/BookingRepository.v ===== *)
(** * The booking repository and use cases

    [internal/booking/infrastructure/persistence/sql], the statements of
    [db/query/bookings.sql] it runs, and the use cases of
    [internal/booking/application]. *)
From stdpp Require Import base decidable list strings option relations.
From Stdlib Require Import ZArith Lia String.
From S2P Require Import Prelude GoFloat Shared Events GoTime BookingAggregate.
From S2P Require Import InvoiceAggregate Database Outbox Repository.
Open Scope Z_scope.

Module BookingRepo.

Abbreviation Row := BookingRow.SQLBookingModel.

(** ** The converter: the price is stored as a float of rupees. *)
Definition MapToAggregate (m : Row) : Booking.BookingAggregate :=
  Booking.mkBooking (BookingRow.ID m) (BookingRow.TenantID m) (BookingRow.BookingNumber m)
    (BookingRow.CustomerID m) (BookingRow.RouteID m) (BookingRow.PickupDate m)
    (BookingRow.VehicleType m) (BookingRow.Passengers m) (BookingRow.CargoWeight m)
    (Money.FloatToMoney (BookingRow.Price m) "INR") (default ""%string (BookingRow.Notes m))
    (Booking.status_of_string (BookingRow.Status m)) (BookingRow.CreatedAt m)
    (BookingRow.UpdatedAt m) (BookingRow.Version m) [].

Definition MapToPersistence (agg : Booking.BookingAggregate) : Row :=
  BookingRow.mkBookingRow (Booking.ID agg) (Booking.BookingNumber agg) (Booking.CustomerID agg)
    (Booking.RouteID agg) (Booking.PickupDate agg) (Booking.VehicleType agg)
    (Booking.Passengers agg) (Booking.CargoWeight agg) (Money.MoneyToFloat (Booking.Price agg))
    (if is_empty (Booking.Notes agg) then None else Some (Booking.Notes agg))
    (Booking.status_string (Booking.Status agg)) (Booking.TenantID agg) (Booking.Version agg)
    (Booking.CreatedAt agg) (Booking.UpdatedAt agg).

Definition booking_key (id tenant : string) (r : Row) : bool :=
  String.eqb (BookingRow.ID r) id && String.eqb (BookingRow.TenantID r) tenant.
Definition version_key (id tenant : string) (v : Z) (r : Row) : bool :=
  booking_key id tenant r && (BookingRow.Version r =? v).

(** The inner joins drop a booking whose customer or route row is missing. *)
Definition joined (d : DB) (r : Row) : bool :=
  exists_row (λ c, String.eqb (CustomerRowID c) (BookingRow.CustomerID r)) (customers d) &&
  exists_row (λ c, String.eqb (RouteRowID c) (BookingRow.RouteID r)) (routes d).

Definition inserted (now : Time) (p : Row) : Row :=
  BookingRow.mkBookingRow (BookingRow.ID p) (BookingRow.BookingNumber p)
    (BookingRow.CustomerID p) (BookingRow.RouteID p) (BookingRow.PickupDate p)
    (BookingRow.VehicleType p) (BookingRow.Passengers p) (BookingRow.CargoWeight p)
    (BookingRow.Price p) (BookingRow.Notes p) (BookingRow.Status p) (BookingRow.TenantID p) 1
    now now.
Definition updated (now : Time) (p r : Row) : Row :=
  BookingRow.mkBookingRow (BookingRow.ID r) (BookingRow.BookingNumber p)
    (BookingRow.CustomerID p) (BookingRow.RouteID p) (BookingRow.PickupDate p)
    (BookingRow.VehicleType p) (BookingRow.Passengers p) (BookingRow.CargoWeight p)
    (BookingRow.Price p) (BookingRow.Notes p) (BookingRow.Status p) (BookingRow.TenantID r)
    (BookingRow.Version r + 1) (BookingRow.CreatedAt r) now.

Section Repo.
Context {env : Env}.

Definition GetBookingByID (id tenant : string) : M Row :=
  query_row (λ _ d, select_one (λ r, booking_key id tenant r && joined d r) (bookings d)).

Definition GetBookingByNumber (number tenant : string) : M Row :=
  query_row (λ _ d, select_one (λ r, String.eqb (BookingRow.BookingNumber r) number &&
    String.eqb (BookingRow.TenantID r) tenant && joined d r) (bookings d)).

Definition CreateBooking (p : Row) : M unit :=
  exec (λ now d,
    if exists_row (λ r, String.eqb (BookingRow.ID r) (BookingRow.ID p)) (bookings d)
    then (Fail (Err "UNIQUE constraint failed: bookings.id"), d)
    else if exists_row (λ r, String.eqb (BookingRow.BookingNumber r) (BookingRow.BookingNumber p))
              (bookings d)
    then (Fail (Err "UNIQUE constraint failed: bookings.booking_number"), d)
    else (Ok tt, set_bookings (bookings d ++ [inserted now p]) d)).

Definition UpdateBooking (p : Row) : M unit :=
  exec (λ now d,
    let key := version_key (BookingRow.ID p) (BookingRow.TenantID p) (BookingRow.Version p) in
    if negb (exists_row key (bookings d)) then (Fail ErrNoRows, d)
    else if exists_row (λ r, negb (key r) &&
              String.eqb (BookingRow.BookingNumber r) (BookingRow.BookingNumber p)) (bookings d)
    then (Fail (Err "UNIQUE constraint failed: bookings.booking_number"), d)
    else (Ok tt, set_bookings (update_where key (updated now p) (bookings d)) d)).

Definition DeleteBooking (id tenant : string) : M unit :=
  exec (λ _ d, (Ok tt, set_bookings (delete_where (booking_key id tenant) (bookings d)) d)).

Definition Exists (id tenant : string) : M bool :=
  r ← SM_try (GetBookingByID id tenant);
  match r with
  | Ok _ => mret true
  | Fail e => if is_no_rows e then mret false else SM_fail e
  end.

Definition conflict_error : error :=
  Err "concurrency conflict: booking modified by another process".

Definition Save (b : Booking.BookingAggregate) : M Booking.BookingAggregate :=
  exists_ ← Exists (Booking.ID b) (Booking.TenantID b);
  let p := MapToPersistence b in
  b ← (if (exists_ : bool) then
         r ← SM_try (UpdateBooking p);
         match r with
         | Fail e => if is_no_rows e then SM_fail conflict_error else SM_fail e
         | Ok _ => mret (Booking.set_Version (wrap64 (Booking.Version b + 1)) b)
         end
       else
         _ ← CreateBooking p;
         mret (Booking.set_Version 1 b));
  _ ← SaveEvents (Booking.ID b) "Booking" (Booking.events b);
  mret (Booking.ClearEvents b).

Definition not_found (r : result Row) : M Booking.BookingAggregate :=
  match r with
  | Fail e => if is_no_rows e then SM_fail (Err "booking not found") else SM_fail e
  | Ok row => mret (MapToAggregate row)
  end.
Definition Find (id tenant : string) : M Booking.BookingAggregate :=
  r ← SM_try (GetBookingByID id tenant); not_found r.
Definition FindByNumber (number tenant : string) : M Booking.BookingAggregate :=
  r ← SM_try (GetBookingByNumber number tenant); not_found r.
Definition Delete (id tenant : string) : M unit := DeleteBooking id tenant.
End Repo.

(** ** Laws of the repository *)
Definition booking_wf (b : Booking.BookingAggregate) : Prop := Booking.status_wf (Booking.Status b).
Definition bookings_pk (d : DB) : Prop := NoDup (map BookingRow.ID (bookings d)).
Definition stored_booking (d : DB) (id tenant : string) : option Booking.BookingAggregate :=
  MapToAggregate <$> select_one (booking_key id tenant) (bookings d).
Definition saved_booking (now : Time) (b0 b : Booking.BookingAggregate) : Booking.BookingAggregate :=
  MapToAggregate (updated now (MapToPersistence b) (MapToPersistence b0)).

Lemma booking_key_spec id t r :
  booking_key id t r = true ↔ BookingRow.ID r = id ∧ BookingRow.TenantID r = t.
Proof. unfold booking_key. by rewrite andb_true_iff, !String.eqb_eq. Qed.

Lemma booking_op_wf op now b b' :
  Booking.apply_op op now b = Ok b' → booking_wf b → booking_wf b'.
Proof.
  unfold booking_wf, Booking.status_wf. intros H Hw.
  assert (Hl : Booking.lifecycle (Booking.Status b) op (Booking.Status b'))
    by (by apply (Booking.booking_lifecycle_iff op now b); exists b').
  inversion Hl; by subst.
Qed.

Section RepoLaws.
Context {env : Env}.

(** By the primary key, the joined row is the stored one. *)
Lemma joined_stored d id tenant r :
  bookings_pk d →
  select_one (λ r, booking_key id tenant r && joined d r) (bookings d) = Some r →
  select_one (booking_key id tenant) (bookings d) = Some r.
Proof.
  intros Hpk H. apply select_one_Some in H as [Hr [Hk _]%andb_true_iff].
  destruct (select_one _ _) as [r'|] eqn:E.
  2:{ by rewrite (select_one_None _ _ _ E Hr) in Hk. }
  apply select_one_Some in E as [Hr' Hk']. f_equal.
  apply (NoDup_map_inj BookingRow.ID (bookings d)); try done.
  apply booking_key_spec in Hk as [-> _], Hk' as [-> _]. done.
Qed.

Lemma booking_Find_ok id tenant w b w' :
  bookings_pk (w_db w) → Find id tenant w = (Ok b, w') →
  w_db w' = w_db w ∧ stored_booking (w_db w) id tenant = Some b.
Proof.
  unfold Find, not_found, stored_booking. intros Hpk H.
  apply bind_ok_inv in H as (r & w1 & Hq & H). unfold SM_try in Hq.
  destruct (GetBookingByID id tenant w) as [r0 w0] eqn:E. injection Hq as -> ->.
  apply query_row_inv in E as (Hd & _ & E). destruct r as [row|e].
  - injection H as <- <-. by rewrite (joined_stored _ _ _ _ Hpk E).
  - by destruct (is_no_rows e).
Qed.

Lemma stored_booking_wf d id tenant b :
  stored_booking d id tenant = Some b →
  booking_wf b ∧ Booking.ID b = id ∧ Booking.TenantID b = tenant ∧ Booking.events b = [].
Proof.
  unfold stored_booking. intros (r & Hr & ->)%fmap_Some_1.
  apply select_one_Some in Hr as [_ [Hid Ht]%booking_key_spec].
  split_and!; try done. apply Booking.booking_status_of_string_wf.
Qed.

Lemma booking_Exists_same id tenant w b w' :
  Exists id tenant w = (Ok b, w') → w_db w' = w_db w ∧ w_pool w' = w_pool w.
Proof.
  unfold Exists. intros H. apply bind_ok_inv in H as (r & w1 & Hq & H). unfold SM_try in Hq.
  destruct (GetBookingByID id tenant w) as [r0 w0] eqn:E. injection Hq as -> ->.
  apply query_row_inv in E as (Hd & Hp & E). destruct r as [row|e].
  - by injection H as <- <-.
  - destruct (is_no_rows e); [|done]. by injection H as <- <-.
Qed.

Lemma UpdateBooking_ok p w w' :
  UpdateBooking p w = (Ok tt, w') →
  let key := version_key (BookingRow.ID p) (BookingRow.TenantID p) (BookingRow.Version p) in
  exists_row key (bookings (w_db w)) = true ∧
  ∃ now, w_db w' = set_bookings (update_where key (updated now p) (bookings (w_db w))) (w_db w).
Proof.
  intros H. apply stmt_inv in H as (Hp & _ & _ & H). cbv beta zeta in H |- *.
  destruct (exists_row (version_key _ _ _) _); [|discriminate H]. cbn [negb] in H.
  destruct (exists_row _ _); [discriminate H|]. injection H as H. split; [done|by eexists].
Qed.

Lemma CreateBooking_ok p w w' :
  CreateBooking p w = (Ok tt, w') →
  (∀ r, r ∈ bookings (w_db w) → BookingRow.ID r ≠ BookingRow.ID p) ∧
  ∃ now, w_db w' = set_bookings (bookings (w_db w) ++ [inserted now p]) (w_db w).
Proof.
  intros H. apply stmt_inv in H as (Hp & _ & _ & H). cbv beta zeta in H.
  destruct (exists_row (λ r, String.eqb (BookingRow.ID r) _) _) eqn:Hi; [discriminate H|].
  destruct (exists_row (λ r, String.eqb (BookingRow.BookingNumber r) _) _); [discriminate H|].
  injection H as H. split; [|by eexists]. intros r Hr Heq.
  apply (proj1 (exists_row_false _ _)) with (r := r) in Hi; [|done].
  by rewrite Heq, String.eqb_refl in Hi.
Qed.

Lemma booking_Save_inv b w b' w' :
  Save b w = (Ok b', w') →
  let p := MapToPersistence b in
  ∃ d1 now rows,
    w_db w' = set_outbox_events (outbox_events (w_db w) ++ rows) d1 ∧
    Forall2 (outbox_row_of (Booking.ID b) "Booking") (Booking.events b) rows ∧
    Booking.ID b' = Booking.ID b ∧
    (((∀ r, r ∈ bookings (w_db w) → BookingRow.ID r ≠ BookingRow.ID p) ∧
      d1 = set_bookings (bookings (w_db w) ++ [inserted now p]) (w_db w)) ∨
     (let key := version_key (BookingRow.ID p) (BookingRow.TenantID p) (BookingRow.Version p) in
      exists_row key (bookings (w_db w)) = true ∧
      d1 = set_bookings (update_where key (updated now p) (bookings (w_db w))) (w_db w))).
Proof.
  unfold Save. intros H. cbn zeta.
  apply bind_ok_inv in H as (b1 & w1 & He & H). apply booking_Exists_same in He as (Hd1 & Hp1).
  apply bind_ok_inv in H as (t1 & w2 & Hsave & H).
  apply bind_ok_inv in H as ([] & w3 & Hev & H). injection H as <- <-.
  apply SaveEvents_ok in Hev as (rows & Hrows & _ & Hd3).
  set (p := MapToPersistence b) in *. destruct b1.
  - apply bind_ok_inv in Hsave as (r & wu & Hu & Hsave). unfold SM_try in Hu.
    destruct (UpdateBooking p w1) as [r0 w0] eqn:Eu. injection Hu as -> ->.
    destruct r as [[]|e]; [|by destruct (is_no_rows e)]. injection Hsave as <- <-.
    apply UpdateBooking_ok in Eu as (Hex & now & Hd2). cbn in *.
    rewrite Hd1 in Hex, Hd2. do 3 eexists. split_and!; [|exact Hrows|done|].
    2:{ right. by split. }
    by rewrite Hd3, Hd2.
  - apply bind_ok_inv in Hsave as ([] & wu & Hc & Hsave). injection Hsave as <- <-.
    apply CreateBooking_ok in Hc as (Hfresh & now & Hd2).
    rewrite Hd1 in Hfresh, Hd2. do 3 eexists. split_and!; [|exact Hrows|done|].
    2:{ left. by split. }
    by rewrite Hd3, Hd2.
Qed.

Lemma stored_booking_ext d d' id tenant :
  bookings d' = bookings d → stored_booking d' id tenant = stored_booking d id tenant.
Proof. unfold stored_booking. by intros ->. Qed.

Lemma stored_booking_update d p now id tenant :
  bookings_pk d →
  let key := version_key (BookingRow.ID p) (BookingRow.TenantID p) (BookingRow.Version p) in
  exists_row key (bookings d) = true →
  let d' := set_bookings (update_where key (updated now p) (bookings d)) d in
  bookings_pk d' ∧
  if decide (id = BookingRow.ID p ∧ tenant = BookingRow.TenantID p) then
    ∃ r, select_one (booking_key id tenant) (bookings d) = Some r ∧
         BookingRow.Version r = BookingRow.Version p ∧
         stored_booking d' id tenant = Some (MapToAggregate (updated now p r))
  else stored_booking d' id tenant = stored_booking d id tenant.
Proof.
  cbn zeta. intros Hpk Hex. split.
  { unfold bookings_pk. cbn. by rewrite map_update. }
  unfold stored_booking. cbn [bookings set_bookings]. rewrite select_one_update by done.
  apply exists_row_spec in Hex as (r0 & Hr0 & Hk0).
  unfold version_key in Hk0. apply andb_true_iff in Hk0 as [Hk0 Hv0%Z.eqb_eq].
  case_decide as Hkey.
  - destruct Hkey as [-> ->].
    destruct (select_one (booking_key _ _) (bookings d)) as [r|] eqn:E.
    2:{ by rewrite (select_one_None _ _ _ E Hr0) in Hk0. }
    pose proof (select_one_Some _ _ _ E) as [Hr Hk].
    assert (r = r0) as <-.
    { apply (NoDup_map_inj BookingRow.ID (bookings d)); try done.
      apply booking_key_spec in Hk as [-> _], Hk0 as [-> _]. done. }
    exists r. split_and!; [done|done|]. cbn. unfold version_key.
    by rewrite Hk, Hv0, Z.eqb_refl.
  - destruct (select_one (booking_key id tenant) (bookings d)) as [r|] eqn:E; [|done]. cbn.
    apply select_one_Some in E as [_ [Hi Ht]%booking_key_spec].
    unfold version_key. destruct (booking_key (BookingRow.ID p) _ r) eqn:Hk; [|done].
    apply booking_key_spec in Hk as [? ?]. destruct Hkey. split; congruence.
Qed.

Lemma booking_Save_ok b b0 w b' w' :
  bookings_pk (w_db w) → booking_wf b →
  stored_booking (w_db w) (Booking.ID b) (Booking.TenantID b) = Some b0 →
  Save b w = (Ok b', w') →
  Booking.Version b = Booking.Version b0 ∧ Booking.ID b' = Booking.ID b ∧
  bookings_pk (w_db w') ∧
  (∃ now, stored_booking (w_db w') (Booking.ID b) (Booking.TenantID b)
          = Some (saved_booking now b0 b)) ∧
  (∀ id tenant, ¬ (id = Booking.ID b ∧ tenant = Booking.TenantID b) →
     stored_booking (w_db w') id tenant = stored_booking (w_db w) id tenant) ∧
  (∃ rows, outbox_events (w_db w') = (outbox_events (w_db w) ++ rows)%list ∧
           Forall2 (outbox_row_of (Booking.ID b) "Booking") (Booking.events b) rows).
Proof.
  intros Hpk Hwf Hst H. unfold stored_booking in Hst.
  destruct (select_one _ _) as [r0|] eqn:Hr0; [|done]. injection Hst as Hst.
  pose proof (select_one_Some _ _ _ Hr0) as [Hin Hk0].
  apply booking_Save_inv in H as (d1 & now & rows & Hd & Hrows & Hid & [(Hn & _)|Hup]).
  { apply booking_key_spec in Hk0 as [Hi0 _]. by destruct (Hn r0 Hin). }
  cbn zeta in Hup. destruct Hup as [Hex ->].
  pose proof (stored_booking_update (w_db w) (MapToPersistence b) now (Booking.ID b)
                (Booking.TenantID b) Hpk Hex) as [Hpk' Hs].
  cbn zeta in Hs. rewrite decide_True in Hs by done. destruct Hs as (r & Hr & Hv & Hs).
  rewrite Hr0 in Hr. injection Hr as ->.
  split_and!; [|done|by rewrite Hd|exists now; rewrite Hd| |].
  - by rewrite <- Hst.
  - rewrite stored_booking_ext with (d := set_bookings _ _) by done. rewrite Hs. f_equal.
    unfold saved_booking, MapToAggregate, updated. rewrite <- Hst. cbn. done.
  - intros id tenant Hne. rewrite Hd, stored_booking_ext with (d := set_bookings _ _) by done.
    pose proof (stored_booking_update (w_db w) (MapToPersistence b) now id tenant Hpk Hex)
      as [_ Ho].
    cbn zeta in Ho. by rewrite decide_False in Ho by done.
  - exists rows. rewrite Hd. done.
Qed.

#[export] Instance booking_repo : AggregateRepo Booking.BookingAggregate.
Proof.
  refine {| agg_id := Booking.ID; agg_tenant := Booking.TenantID;
            agg_version := Booking.Version; agg_events := Booking.events;
            agg_type := "Booking"; agg_wf := booking_wf; stored := stored_booking;
            persisted := saved_booking; repo_inv := bookings_pk;
            repo_find := Find; repo_save := Save |}.
  - intros id tenant w b w'. apply booking_Find_ok.
  - apply stored_booking_wf.
  - intros b b0 w b' w'. apply booking_Save_ok.
  - done.
  - done.
Defined.
End RepoLaws.
End BookingRepo.

(** ** The use cases *)
Module BookingApp.
Import BookingRepo.

Definition BookingTableName : string := "bookings".

Record BookingCommand := mkBookingCommand {
  bc_TenantID : string; bc_CustomerID : string; bc_RouteID : string; bc_PickupDate : string;
  bc_VehicleType : string; bc_Passengers : Z; bc_CargoWeight : option float64;
  bc_Price : float64; bc_Notes : string }.

Section UseCases.
Context {env : Env}.

Definition logAudit (action recordID : string) : M unit :=
  log_audit BookingTableName action recordID None None.

(** The checks [CreateBooking] and [UpdateBooking] share. *)
Definition validate (cmd : BookingCommand) : result Time :=
  if is_empty (bc_CustomerID cmd) then Fail (Err "customer ID is required")
  else if is_empty (bc_RouteID cmd) then Fail (Err "route ID is required")
  else if is_empty (bc_VehicleType cmd) then Fail (Err "vehicle type is required")
  else if bc_Passengers cmd <? 1 then Fail (Err "passengers must be at least 1")
  else if fltb (bc_Price cmd) f0 then Fail (Err "price cannot be negative")
  else parsePickupDate (bc_PickupDate cmd).

Definition CreateBookingExecute (cmd : BookingCommand) : M string :=
  pickupDate ← SM_lift (validate cmd);
  bookingID ← GenerateUUID;
  bookingNumber ← GenerateDisplayID "BK";
  now ← Now;
  let booking := Booking.NewBookingAggregate bookingID (bc_TenantID cmd) bookingNumber
    (bc_CustomerID cmd) (bc_RouteID cmd) pickupDate (bc_VehicleType cmd) (bc_Passengers cmd)
    (bc_CargoWeight cmd) (Money.FloatToMoney (bc_Price cmd) "INR") (bc_Notes cmd) now in
  _ ← UoWExecute (b ← Save booking; logAudit "create" (Booking.ID b));
  mret bookingID.

(** [time.Now()] rather than the injected clock: the same reading here. *)
Definition UpdateBookingExecute (bookingID : string) (cmd : BookingCommand) : M unit :=
  pickupDate ← SM_lift (validate cmd);
  UoWExecute
    (b ← Find bookingID (bc_TenantID cmd);
     now ← Now;
     b ← SM_lift (Booking.Update (bc_CustomerID cmd) (bc_RouteID cmd) pickupDate
           (bc_VehicleType cmd) (bc_Passengers cmd) (bc_CargoWeight cmd)
           (Money.FloatToMoney (bc_Price cmd) "INR") (bc_Notes cmd) now b);
     b ← Save b;
     logAudit "update" (Booking.ID b)).

Definition ConfirmBookingExecute (bookingID tenantID : string) : M unit :=
  UoWExecute
    (b ← Find bookingID tenantID;
     now ← Now;
     b ← SM_lift (Booking.Confirm now b);
     b ← Save b;
     logAudit "confirm" (Booking.ID b)).

Definition CompleteBookingExecute (bookingID tenantID : string) : M unit :=
  UoWExecute
    (b ← Find bookingID tenantID;
     now ← Now;
     b ← SM_lift (Booking.Complete now b);
     b ← Save b;
     logAudit "complete" (Booking.ID b)).

Definition CancelBookingExecute (bookingID tenantID : string) : M unit :=
  UoWExecute
    (b ← Find bookingID tenantID;
     now ← Now;
     b ← SM_lift (Booking.Cancel now b);
     b ← Save b;
     logAudit "cancel" (Booking.ID b)).

Definition DeleteBookingExecute (bookingID tenantID : string) : M unit :=
  UoWExecute
    (exists_ ← Exists bookingID tenantID;
     if negb (exists_ : bool) then SM_fail (Err "booking not found")
     else
       _ ← Delete bookingID tenantID;
       logAudit "delete" bookingID).

(** What each use case applies to the stored booking. *)
Definition booking_uc (op : Booking.booking_op) : string → string → M unit :=
  match op with
  | Booking.OpConfirm => ConfirmBookingExecute
  | Booking.OpComplete => CompleteBookingExecute
  | Booking.OpCancel => CancelBookingExecute
  | Booking.OpUpdate c r d v p wt m n => λ id t,
      transition_uc (Booking.apply_op op) BookingTableName "update" id t
  end.

#[local] Instance booking_operation op : Operation (Booking.apply_op op).
Proof.
  split.
  - intros now b b' H.
    by destruct (Booking.booking_apply_op_frame _ _ _ _ H) as (? & ? & _ & ? & _).
  - intros now b b'. apply booking_op_wf.
Qed.

Lemma UpdateBookingExecute_spec bookingID cmd w :
  UpdateBookingExecute bookingID cmd w =
  match validate cmd with
  | Ok d =>
      booking_uc (Booking.OpUpdate (bc_CustomerID cmd) (bc_RouteID cmd) d (bc_VehicleType cmd)
          (bc_Passengers cmd) (bc_CargoWeight cmd) (Money.FloatToMoney (bc_Price cmd) "INR")
          (bc_Notes cmd)) bookingID (bc_TenantID cmd) w
  | Fail e => (Fail e, w)
  end.
Proof.
  unfold UpdateBookingExecute. cbv [mbind SM_mbind SM_bind SM_lift].
  destruct (validate cmd); reflexivity.
Qed.

(** The row is gone, and nothing else is. *)
Lemma delete_removes id t w w' :
  DeleteBookingExecute id t w = (Ok tt, w') →
  stored_booking (w_db w') id t = None ∧
  ∀ id' t', ¬ (id' = id ∧ t' = t) →
    stored_booking (w_db w') id' t' = stored_booking (w_db w) id' t'.
Proof.
  intros H. apply UoWExecute_ok in H as (w1 & H & -> & _).
  apply bind_ok_inv in H as (b & wa & He & H). apply booking_Exists_same in He as [Hda _].
  destruct b; [|discriminate H]. cbn [negb] in H.
  apply bind_ok_inv in H as ([] & wb & Hdel & H).
  destruct (log_audit_ok BookingTableName "delete" id None None wb) as (wc & Ha & rows & Hdc).
  unfold logAudit in H. rewrite Ha in H. injection H as <-.
  apply stmt_inv in Hdel as (_ & _ & _ & Hdel). injection Hdel as Hdel.
  rewrite Hdc, <- Hdel, Hda. unfold stored_booking. cbn [bookings set_audit_logs set_bookings].
  split.
  - destruct (select_one _ _) as [r|] eqn:E; [|done]. apply select_one_Some in E as [Hr Hk].
    apply list_elem_of_In, filter_In in Hr as [_ Hr]. by rewrite Hk in Hr.
  - intros id' t' Hne. f_equal. apply select_one_delete.
    intros r [? ?]%booking_key_spec. destruct (booking_key id t r) eqn:K; [|done].
    apply booking_key_spec in K as [? ?]. destruct Hne. split; congruence.
Qed.

Lemma booking_uc_moves op id t w r w' :
  bookings_pk (w_db w) → booking_uc op id t w = (r, w') →
  match r with
  | Ok _ => transition_spec (Booking.apply_op op) (w_db w) (w_db w') id t ∧
            ∃ s s', Booking.Status <$> stored_booking (w_db w) id t = Some s ∧
                    Booking.Status <$> stored_booking (w_db w') id t = Some s' ∧
                    Booking.lifecycle s op s'
  | Fail _ => w_db w' = w_db w
  end.
Proof.
  intros Hpk H.
  assert (Hu : ∃ action, booking_uc op id t w
                         = transition_uc (Booking.apply_op op) BookingTableName action id t w)
    by (destruct op; eexists; reflexivity).
  destruct Hu as [action E]. rewrite E in H.
  pose proof (transition_refines (Booking.apply_op op) BookingTableName action id t w r w' Hpk H)
    as Hr.
  destruct r as [[]|e]; [|done]. destruct Hr as [Hr _]. split; [done|].
  destruct Hr as (b & b1 & now & dbnow & rows & Hb & H1 & Hb1 & _).
  cbn [stored booking_repo] in Hb, Hb1. exists (Booking.Status b), (Booking.Status b1).
  rewrite Hb, Hb1. split_and!; [done| |].
  - cbn. f_equal. pose proof (stored_booking_wf _ _ _ _ Hb) as [Hwf _].
    exact (booking_op_wf _ _ _ _ H1 Hwf).
  - apply (Booking.booking_lifecycle_iff op now). by exists b1.
Qed.


(** The requests to the use cases. *)
Inductive call :=
| CallCreate (cmd : BookingCommand) | CallUpdate (id : string) (cmd : BookingCommand)
| CallConfirm (id t : string) | CallComplete (id t : string) | CallCancel (id t : string) | CallDelete (id t : string).
Definition run_call (c : call) : M unit :=
  match c with
  | CallCreate cmd => _ ← CreateBookingExecute cmd; mret tt
  | CallUpdate id cmd => UpdateBookingExecute id cmd
  | CallConfirm id t => ConfirmBookingExecute id t
  | CallComplete id t => CompleteBookingExecute id t
  | CallCancel id t => CancelBookingExecute id t
  | CallDelete id t => DeleteBookingExecute id t
  end.
(** The stored booking moves by an operation, along an edge of the lifecycle. *)
Definition moved (op : Booking.booking_op) (id t : string) (d d' : DB) : Prop :=
  transition_spec (Booking.apply_op op) d d' id t ∧
  ∃ s s', Booking.Status <$> stored_booking d id t = Some s ∧
          Booking.Status <$> stored_booking d' id t = Some s' ∧ Booking.lifecycle s op s'.
(** The booking of a command, as it is made. *)
Definition booking_of (cmd : BookingCommand) (date : Time) (id number : string) (now : Time) : Booking.BookingAggregate :=
  Booking.NewBookingAggregate id (bc_TenantID cmd) number (bc_CustomerID cmd) (bc_RouteID cmd) date (bc_VehicleType cmd)
    (bc_Passengers cmd) (bc_CargoWeight cmd) (Money.FloatToMoney (bc_Price cmd) "INR") (bc_Notes cmd) now.
(** A new booking, in the first version, under an identifier no booking had. *)
Definition created (cmd : BookingCommand) (d d' : DB) : Prop :=
  ∃ date id number now dbnow rows,
    validate cmd = Ok date ∧ (∀ r, r ∈ bookings d → BookingRow.ID r ≠ id) ∧
    stored_booking d' id (bc_TenantID cmd) =
      Some (MapToAggregate (inserted dbnow (MapToPersistence (booking_of cmd date id number now)))) ∧
    (∀ id' t', ¬ (id' = id ∧ t' = bc_TenantID cmd) → stored_booking d' id' t' = stored_booking d id' t') ∧
    outbox_events d' = (outbox_events d ++ rows)%list ∧
    Forall2 (outbox_row_of id "Booking") [BookingCreatedEvent id (bc_TenantID cmd) number now] rows.
Definition call_spec (c : call) (d d' : DB) : Prop :=
  match c with
  | CallCreate cmd => (∀ r, r ∈ bookings d → BookingRow.Version r ≠ 0) → created cmd d d'
  | CallUpdate id cmd =>
      ∃ date, validate cmd = Ok date ∧
        moved (Booking.OpUpdate (bc_CustomerID cmd) (bc_RouteID cmd) date (bc_VehicleType cmd) (bc_Passengers cmd)
          (bc_CargoWeight cmd) (Money.FloatToMoney (bc_Price cmd) "INR") (bc_Notes cmd)) id (bc_TenantID cmd) d d'
  | CallConfirm id t => moved Booking.OpConfirm id t d d'
  | CallComplete id t => moved Booking.OpComplete id t d d'
  | CallCancel id t => moved Booking.OpCancel id t d d'
  | CallDelete id t =>
      stored_booking d' id t = None ∧
      ∀ id' t', ¬ (id' = id ∧ t' = t) → stored_booking d' id' t' = stored_booking d id' t'
  end.

Lemma create_ok cmd w id w' :
  CreateBookingExecute cmd w = (Ok id, w') →
  (∀ r, r ∈ bookings (w_db w) → BookingRow.Version r ≠ 0) → created cmd (w_db w) (w_db w').
Proof.
  intros H Hv. unfold CreateBookingExecute in H.
  apply bind_ok_inv in H as (date & w1 & Hval & H). injection Hval as Hval <-.
  apply bind_ok_inv in H as (bid & w2 & Hid & H). injection Hid as Hid <-.
  apply bind_ok_inv in H as (num & w3 & Hnum & H). injection Hnum as Hnum <-.
  apply bind_ok_inv in H as (now & w4 & Hnow & H). injection Hnow as Hnow <-.
  fold (booking_of cmd date bid num now) in H.
  apply bind_ok_inv in H as ([] & w5 & H & Hr). injection Hr as _ <-.
  apply UoWExecute_ok in H as (w1 & H & -> & _).
  apply bind_ok_inv in H as (b2 & wd & Hs & H).
  destruct (log_audit_ok BookingTableName "create" (Booking.ID b2) None None wd) as (we & Ha & arows & Hde).
  unfold logAudit in H. rewrite Ha in H. injection H as <-. rewrite Hde.
  apply booking_Save_inv in Hs as (d1 & dbnow & rows & Hd & Hrows & _ & [[Hf ->]|[Hex _]]).
  2:{ apply exists_row_spec in Hex as (r & Hr & Hk). unfold version_key in Hk.
      apply andb_true_iff in Hk as [_ Hk%Z.eqb_eq]. by destruct (Hv r Hr). }
  cbn [w_db tick_stmts tick_clock tick_ids] in Hf, Hd. rewrite Hd. exists date, bid, num, now, dbnow, rows.
  split_and!; [done|exact Hf| | |done|exact Hrows]; unfold stored_booking; cbn [bookings set_audit_logs set_outbox_events set_bookings].
  - rewrite select_one_app. destruct (select_one _ (bookings _)) as [r|] eqn:E.
    { apply select_one_Some in E as [Hr [Hi _]%booking_key_spec]. by destruct (Hf r Hr). }
    cbn. unfold booking_key. cbn. by rewrite !String.eqb_refl.
  - intros id' t' Hne. rewrite select_one_app. destruct (select_one _ (bookings _)); [done|]. cbn.
    unfold booking_key. cbn. destruct (String.eqb_spec bid id'), (String.eqb_spec (bc_TenantID cmd) t'); try done.
    by destruct Hne.
Qed.

(** C15: each booking use case does what it is for, or fails and leaves the
    database as it was.  Updating, confirming, completing and cancelling is
    one transition of the stored booking, over the version it was read at and
    along an edge of the documented lifecycle, with its events in the outbox
    and every other booking unchanged; creating adds a pending booking of the
    checked command, with its event, under an identifier that was free - as
    long as no row is of version zero, which none is inserted with; deleting
    takes the one booking away. *)
Theorem booking_uc_refines c w r w' :
  bookings_pk (w_db w) → run_call c w = (r, w') →
  match r with Ok _ => call_spec c (w_db w) (w_db w') | Fail _ => w_db w' = w_db w end.
Proof.
  intros Hpk H. destruct c as [cmd|id cmd|id t|id t|id t|id t]; cbn [run_call call_spec] in *.
  - apply bind_inv in H as [(e & H & ->)|(id & w1 & H & Hr)].
    + unfold CreateBookingExecute in H. apply bind_inv in H as [(e' & H & _)|(date & w1 & H & Hr)].
      { destruct (validate cmd); [discriminate H|]. by injection H as _ <-. }
      destruct (validate cmd); [|discriminate H]. injection H as _ <-. cbv [GenerateUUID GenerateDisplayID] in Hr.
      cbv [mbind SM_mbind SM_bind Now mret SM_mret SM_ret] in Hr. destruct (UoWExecute _ _) as [[u|e'] w2] eqn:E; [discriminate Hr|].
      injection Hr as _ <-. apply UoWExecute_spec in E. exact E.
    + injection Hr as <- <-. exact (create_ok _ _ _ _ H).
  - rewrite UpdateBookingExecute_spec in H. destruct (validate cmd) as [date|e]; [|by injection H as <- <-].
    apply booking_uc_moves in H; [|done]. destruct r as [[]|e]; [|done]. by exists date.
  - by apply (booking_uc_moves Booking.OpConfirm) in H.
  - by apply (booking_uc_moves Booking.OpComplete) in H.
  - by apply (booking_uc_moves Booking.OpCancel) in H.
  - destruct r as [[]|e]; [by apply delete_removes|]. unfold DeleteBookingExecute in H. by apply UoWExecute_spec in H.
Qed.

(** Deletion has no status guard: a confirmed, completed or cancelled
    booking is deleted like a pending one (the documentation restricts it
    to pending and draft), along with nothing else. *)
Theorem delete_ignores_status id t w w' :
  DeleteBookingExecute id t w = (Ok tt, w') →
  stored_booking (w_db w') id t = None ∧
  ∀ id' t', ¬ (id' = id ∧ t' = t) →
    stored_booking (w_db w') id' t' = stored_booking (w_db w) id' t'.
Proof. apply delete_removes. Qed.
End UseCases.
(** ** Concrete runs *)
Definition completed_w : World := snd (CompleteBookingExecute (env := demo_env) "b1" "acme" (world demo_db)).
Definition deleted_w : World := snd (DeleteBookingExecute (env := demo_env) "b1" "acme" completed_w).

Definition demo_booking : BookingCommand :=
  mkBookingCommand "acme" "c1" "r1" "2024-02-01" "bus" 4 None (f64_of_Z 100) "".
Definition created_w : World := snd (CreateBookingExecute (env := demo_env) demo_booking (world demo_db)).
Lemma booking_uc_refines_witness :
  let env := demo_env in
  call_spec (CallComplete "b1" "acme") (w_db (world demo_db)) (w_db completed_w) ∧
  call_spec (CallCreate demo_booking) (w_db (world demo_db)) (w_db created_w).
Proof.
  intros env. split.
  - apply (booking_uc_refines (CallComplete "b1" "acme") (world demo_db) (Ok tt) completed_w).
    + apply NoDup_singleton.
    + vm_compute. reflexivity.
  - apply (booking_uc_refines (CallCreate demo_booking) (world demo_db) (Ok tt) created_w).
    + apply NoDup_singleton.
    + vm_compute. reflexivity.
Defined.

(** The completed booking is deleted. *)
Lemma delete_ignores_status_witness :
  Booking.Status <$> stored_booking (w_db completed_w) "b1" "acme" = Some Booking.BookingCompleted ∧
  stored_booking (w_db deleted_w) "b1" "acme" = None ∧
  ∀ id' t', ¬ (id' = "b1"%string ∧ t' = "acme"%string) →
    stored_booking (w_db deleted_w) id' t' = stored_booking (w_db completed_w) id' t'.
Proof.
  split; [vm_compute; reflexivity|].
  apply (delete_ignores_status (env := demo_env) "b1" "acme" completed_w deleted_w).
  vm_compute. reflexivity.
Defined.
End BookingApp.
