(* ===== verification/InvoiceRepository.v ===== *)
(** * The invoice repository

    [internal/invoice/infrastructure/persistence/sql/invoice_repository.go]:
    invoices are written column by column under an optimistic version, their
    line items are replaced as a whole, and a loaded invoice recomputes its
    totals from them. *)
From stdpp Require Import base decidable list strings option.
From Stdlib Require Import ZArith Lia String.
From S2P Require Import Prelude GoFloat Shared Events InvoiceAggregate Database Outbox.
From S2P Require Import Repository.
Open Scope Z_scope.

Module InvoiceRepo.

Abbreviation Row := InvoiceRow.Invoice.

Definition invoice_key (id tenant : string) (r : Row) : bool :=
  String.eqb (InvoiceRow.ID r) id && String.eqb (InvoiceRow.TenantID r) tenant.
Definition version_key (id tenant : string) (v : Z) (r : Row) : bool :=
  invoice_key id tenant r && (InvoiceRow.Version r =? v).
Definition booking_key (bookingID tenant : string) (r : Row) : bool :=
  String.eqb (InvoiceRow.BookingID r) bookingID && String.eqb (InvoiceRow.TenantID r) tenant.
Definition trip_key (tripID tenant : string) (r : Row) : bool :=
  bool_decide (InvoiceRow.TripID r = Some tripID) && String.eqb (InvoiceRow.TenantID r) tenant.

(** The CHECK constraints of the two tables. *)
Definition payment_status_check (s : string) : bool :=
  bool_decide (s ∈ ["pending"; "paid"; "partially_paid"]%string).
Definition line_type_check (s : string) : bool :=
  bool_decide (s ∈ ["freight"; "detention"; "accessorial"]%string).

(** [CreateInvoice]: the core columns; the others take their defaults. *)
Definition inserted (now : Time) (a : Invoice.InvoiceAggregate) : Row :=
  InvoiceRow.mkInvoiceRow (Invoice.ID a) (Invoice.InvoiceNumber a) (Invoice.BookingID a)
    (Invoice.CustomerID a) (Invoice.TripID a) (Invoice.Subtotal a) (Invoice.Tax a)
    (Invoice.Discount a) (Invoice.Total a)
    (Invoice.payment_status_string (Invoice.PaymentStatus a)) f0 "outstanding" None 1
    (Invoice.TenantID a) now now f0 f0 f0 None None None None None.

(** [insertInvoiceExtendedSQL]. *)
Definition extended (now : Time) (a : Invoice.InvoiceAggregate) (r : Row) : Row :=
  InvoiceRow.mkInvoiceRow (InvoiceRow.ID r) (InvoiceRow.InvoiceNumber r)
    (InvoiceRow.BookingID r) (InvoiceRow.CustomerID r) (InvoiceRow.TripID r)
    (InvoiceRow.Subtotal r) (InvoiceRow.Tax r) (InvoiceRow.Discount r) (InvoiceRow.Total r)
    (InvoiceRow.PaymentStatus r) (Invoice.PaidAmount a)
    (Invoice.invoice_status_string (Invoice.Status a)) (Invoice.DueDate a)
    (InvoiceRow.Version r) (InvoiceRow.TenantID r) (InvoiceRow.CreatedAt r) now
    (Invoice.Cgst a) (Invoice.Sgst a) (Invoice.Igst a) (Invoice.IRN a) (Invoice.IRNAckNo a)
    (Invoice.IRNAckDate a) (Invoice.SignedQR a) (Invoice.EwbNumber a).

(** [updateInvoiceFullSQL]. *)
Definition updated (now : Time) (a : Invoice.InvoiceAggregate) (r : Row) : Row :=
  InvoiceRow.mkInvoiceRow (InvoiceRow.ID r) (Invoice.InvoiceNumber a) (Invoice.BookingID a)
    (Invoice.CustomerID a) (Invoice.TripID a) (Invoice.Subtotal a) (Invoice.Tax a)
    (Invoice.Discount a) (Invoice.Total a)
    (Invoice.payment_status_string (Invoice.PaymentStatus a)) (Invoice.PaidAmount a)
    (Invoice.invoice_status_string (Invoice.Status a)) (Invoice.DueDate a)
    (InvoiceRow.Version r + 1) (InvoiceRow.TenantID r) (InvoiceRow.CreatedAt r) now
    (Invoice.Cgst a) (Invoice.Sgst a) (Invoice.Igst a) (Invoice.IRN a) (Invoice.IRNAckNo a)
    (Invoice.IRNAckDate a) (Invoice.SignedQR a) (Invoice.EwbNumber a).

(** A row and its line items, as [findInvoiceBySQL] rebuilds them. *)
Definition set_tax_fields (r : Row) (a : Invoice.InvoiceAggregate) : Invoice.InvoiceAggregate :=
  Invoice.mkInvoice (Invoice.ID a) (Invoice.TenantID a) (Invoice.InvoiceNumber a)
    (Invoice.BookingID a) (Invoice.CustomerID a) (Invoice.TripID a) (Invoice.Subtotal a)
    (Invoice.Tax a) (InvoiceRow.Cgst r) (InvoiceRow.Sgst r) (InvoiceRow.Igst r)
    (Invoice.Discount a) (Invoice.Total a) (Invoice.PaymentStatus a) (Invoice.PaidAmount a)
    (Invoice.Status a) (Invoice.DueDate a) (Invoice.FinancialYear a) (Invoice.CreditBalance a)
    (Invoice.Remarks a) (InvoiceRow.IRN r) (InvoiceRow.IRNAckNo r) (InvoiceRow.IRNAckDate r)
    (InvoiceRow.SignedQR r) (InvoiceRow.EwbNumber r) (Invoice.CreatedAt a)
    (Invoice.UpdatedAt a) (Invoice.Version a) (Invoice.LineItems a) (Invoice.events a).

Definition rehydrate (r : Row) : Invoice.InvoiceAggregate :=
  set_tax_fields r
    (Invoice.RehydrateInvoiceAggregate (InvoiceRow.ID r) (InvoiceRow.TenantID r)
       (InvoiceRow.InvoiceNumber r) (InvoiceRow.BookingID r) (InvoiceRow.CustomerID r)
       (InvoiceRow.TripID r) (InvoiceRow.Subtotal r) (InvoiceRow.Tax r)
       (InvoiceRow.Discount r) (InvoiceRow.Total r)
       (Invoice.payment_status_of_string (InvoiceRow.PaymentStatus r))
       (if is_empty (InvoiceRow.Status r) then Invoice.InvoiceStatusOutstanding
        else Invoice.invoice_status_of_string (InvoiceRow.Status r))
       (InvoiceRow.PaidAmount r) f0 (InvoiceRow.DueDate r) "" "" (InvoiceRow.CreatedAt r)
       (InvoiceRow.UpdatedAt r) (InvoiceRow.Version r)).

Definition of_invoice (id : string) (li : Invoice.LineItem) : bool :=
  String.eqb (Invoice.ItemInvoiceID li) id.

Definition load (r : Row) (items : list Invoice.LineItem) : Invoice.InvoiceAggregate :=
  Invoice.RecomputeTotals (Invoice.set_LineItems items (rehydrate r)).

Section Repo.
Context {env : Env}.

Definition InvoiceExists (id tenant : string) : M bool :=
  query (λ _ d, exists_row (invoice_key id tenant) (invoices d)).

Definition CreateInvoice (a : Invoice.InvoiceAggregate) : M unit :=
  exec (λ now d,
    if exists_row (λ r, String.eqb (InvoiceRow.ID r) (Invoice.ID a)) (invoices d)
    then (Fail (Err "UNIQUE constraint failed: invoices.id"), d)
    else if exists_row (λ r, String.eqb (InvoiceRow.InvoiceNumber r) (Invoice.InvoiceNumber a))
              (invoices d)
    then (Fail (Err "UNIQUE constraint failed: invoices.invoice_number"), d)
    else if negb (payment_status_check
                    (Invoice.payment_status_string (Invoice.PaymentStatus a)))
    then (Fail (Err "CHECK constraint failed: payment_status"), d)
    else (Ok tt, set_invoices (invoices d ++ [inserted now a]) d)).

(** [idx_invoices_irn]: an IRN is on one invoice at most. *)
Definition irn_taken (a : Invoice.InvoiceAggregate) (key : Row → bool) (d : DB) : bool :=
  match Invoice.IRN a with
  | None => false
  | Some _ => exists_row (λ r, negb (key r) &&
                bool_decide (InvoiceRow.IRN r = Invoice.IRN a)) (invoices d)
  end.
Definition irn_error : error := Err "UNIQUE constraint failed: invoices.irn".

Definition insertInvoiceExtended (a : Invoice.InvoiceAggregate) : M unit :=
  exec (λ now d,
    let key := invoice_key (Invoice.ID a) (Invoice.TenantID a) in
    if exists_row key (invoices d) && irn_taken a key d then (Fail irn_error, d)
    else (Ok tt, set_invoices (update_where key (extended now a) (invoices d)) d)).

(** Whether a row was affected. *)
Definition updateInvoiceFull (a : Invoice.InvoiceAggregate) : M bool :=
  exec (λ now d,
    let key := version_key (Invoice.ID a) (Invoice.TenantID a) (Invoice.Version a) in
    if negb (exists_row key (invoices d)) then (Ok false, d)
    else if exists_row (λ r, negb (key r) &&
              String.eqb (InvoiceRow.InvoiceNumber r) (Invoice.InvoiceNumber a)) (invoices d)
    then (Fail (Err "UNIQUE constraint failed: invoices.invoice_number"), d)
    else if irn_taken a key d then (Fail irn_error, d)
    else if negb (payment_status_check
                    (Invoice.payment_status_string (Invoice.PaymentStatus a)))
    then (Fail (Err "CHECK constraint failed: payment_status"), d)
    else (Ok true, set_invoices (update_where key (updated now a) (invoices d)) d)).

Definition deleteLineItems (invoiceID : string) : M unit :=
  exec (λ _ d, (Ok tt, set_line_items (delete_where (of_invoice invoiceID) (line_items d)) d)).

Definition insertLineItem (li : Invoice.LineItem) : M unit :=
  exec (λ _ d,
    if exists_row (λ x, String.eqb (Invoice.ItemID x) (Invoice.ItemID li)) (line_items d)
    then (Fail (Err "UNIQUE constraint failed: invoice_line_items.id"), d)
    else if negb (line_type_check (Invoice.LineType li))
    then (Fail (Err "CHECK constraint failed: line_type"), d)
    else (Ok tt, set_line_items (line_items d ++ [li]) d)).

Definition persistLineItems (a : Invoice.InvoiceAggregate) : M unit :=
  _ ← deleteLineItems (Invoice.ID a);
  SM_iter insertLineItem (Invoice.LineItems a).

Definition errInvoiceConcurrencyConflict : error :=
  Err "concurrency conflict: invoice modified by another process".

Definition Save (a : Invoice.InvoiceAggregate) : M Invoice.InvoiceAggregate :=
  exists_ ← InvoiceExists (Invoice.ID a) (Invoice.TenantID a);
  a ← (if (exists_ : bool) then
         affected ← updateInvoiceFull a;
         if (affected : bool) then mret (Invoice.set_Version (wrap64 (Invoice.Version a + 1)) a)
         else SM_fail errInvoiceConcurrencyConflict
       else
         _ ← CreateInvoice a;
         let a := Invoice.set_Version 1 a in
         _ ← insertInvoiceExtended a;
         mret a);
  _ ← SaveEvents (Invoice.ID a) "Invoice" (Invoice.events a);
  let a := Invoice.ClearEvents a in
  _ ← persistLineItems a;
  mret a.

Definition loadLineItems (invoiceID : string) : M (list Invoice.LineItem) :=
  query (λ _ d, select_many (of_invoice invoiceID) (line_items d)).

Definition findInvoiceBySQL (p : Row → bool) : M Invoice.InvoiceAggregate :=
  r ← query_row (λ _ d, select_one p (invoices d));
  items ← loadLineItems (InvoiceRow.ID r);
  mret (load r items).

Definition Find (id tenant : string) : M Invoice.InvoiceAggregate :=
  findInvoiceBySQL (invoice_key id tenant).
Definition FindByBookingID (bookingID tenant : string) : M Invoice.InvoiceAggregate :=
  findInvoiceBySQL (booking_key bookingID tenant).
Definition FindByTripID (tripID tenant : string) : M Invoice.InvoiceAggregate :=
  findInvoiceBySQL (trip_key tripID tenant).
End Repo.

(** ** Laws of the repository *)
Definition invoices_pk (d : DB) : Prop := NoDup (map InvoiceRow.ID (invoices d)).

Definition items_of (d : DB) (id : string) : list Invoice.LineItem :=
  select_many (of_invoice id) (line_items d).

Definition stored_invoice (d : DB) (id tenant : string) : option Invoice.InvoiceAggregate :=
  (λ r, load r (items_of d (InvoiceRow.ID r))) <$> select_one (invoice_key id tenant) (invoices d).

(** The identity columns of the row an aggregate was loaded from. *)
Definition row_of (a : Invoice.InvoiceAggregate) : Row :=
  InvoiceRow.mkInvoiceRow (Invoice.ID a) (Invoice.InvoiceNumber a) (Invoice.BookingID a)
    (Invoice.CustomerID a) (Invoice.TripID a) (Invoice.Subtotal a) (Invoice.Tax a)
    (Invoice.Discount a) (Invoice.Total a)
    (Invoice.payment_status_string (Invoice.PaymentStatus a)) (Invoice.PaidAmount a)
    (Invoice.invoice_status_string (Invoice.Status a)) (Invoice.DueDate a) (Invoice.Version a)
    (Invoice.TenantID a) (Invoice.CreatedAt a) (Invoice.UpdatedAt a) (Invoice.Cgst a)
    (Invoice.Sgst a) (Invoice.Igst a) (Invoice.IRN a) (Invoice.IRNAckNo a)
    (Invoice.IRNAckDate a) (Invoice.SignedQR a) (Invoice.EwbNumber a).

(** [a], saved over [a0], as it reads back. *)
Definition saved_invoice (now : Time) (a0 a : Invoice.InvoiceAggregate)
    : Invoice.InvoiceAggregate :=
  load (updated now a (row_of a0)) (Invoice.LineItems a).

(** Statuses in normal form, and every line is the invoice's own. *)
Definition invoice_wf (a : Invoice.InvoiceAggregate) : Prop :=
  Invoice.payment_status_of_string (Invoice.payment_status_string (Invoice.PaymentStatus a))
    = Invoice.PaymentStatus a ∧
  Invoice.invoice_status_of_string (Invoice.invoice_status_string (Invoice.Status a))
    = Invoice.Status a ∧
  Invoice.invoice_status_string (Invoice.Status a) ≠ ""%string ∧
  Forall (λ li, Invoice.ItemInvoiceID li = Invoice.ID a) (Invoice.LineItems a).

Lemma invoice_key_spec id t r :
  invoice_key id t r = true ↔ InvoiceRow.ID r = id ∧ InvoiceRow.TenantID r = t.
Proof. unfold invoice_key. by rewrite andb_true_iff, !String.eqb_eq. Qed.

(** What [load] keeps of the row. *)
Lemma load_frame r items :
  let a := load r items in
  Invoice.ID a = InvoiceRow.ID r ∧ Invoice.TenantID a = InvoiceRow.TenantID r ∧
  Invoice.Version a = InvoiceRow.Version r ∧ Invoice.events a = [] ∧
  Invoice.LineItems a = items ∧ Invoice.PaidAmount a = InvoiceRow.PaidAmount r ∧
  Invoice.CreatedAt a = InvoiceRow.CreatedAt r ∧ Invoice.BookingID a = InvoiceRow.BookingID r ∧
  Invoice.PaymentStatus a = Invoice.payment_status_of_string (InvoiceRow.PaymentStatus r) ∧
  Invoice.Status a = Invoice.Status (rehydrate r) ∧ Invoice.CreditBalance a = f0.
Proof.
  unfold load, Invoice.RecomputeTotals. destruct items; cbn -[Invoice.line_sums];
    [by repeat split|]. by destruct (Invoice.has_taxes _).
Qed.

Lemma payment_status_normal s :
  Invoice.payment_status_of_string (Invoice.payment_status_string
    (Invoice.payment_status_of_string s)) = Invoice.payment_status_of_string s.
Proof.
  unfold Invoice.payment_status_of_string at 2 3.
  destruct (List.find _ _) as [k|] eqn:E; [|cbn; unfold Invoice.payment_status_of_string; by rewrite E].
  apply find_some in E as [Hin _]. cbn in Hin.
  by repeat (destruct Hin as [<-|Hin]; [reflexivity|]).
Qed.

Lemma invoice_status_normal s :
  Invoice.invoice_status_of_string (Invoice.invoice_status_string
    (Invoice.invoice_status_of_string s)) = Invoice.invoice_status_of_string s.
Proof.
  unfold Invoice.invoice_status_of_string at 2 3.
  destruct (List.find _ _) as [k|] eqn:E; [|cbn; unfold Invoice.invoice_status_of_string; by rewrite E].
  apply find_some in E as [Hin _]. cbn in Hin.
  by repeat (destruct Hin as [<-|Hin]; [reflexivity|]).
Qed.

Lemma invoice_status_nonempty s :
  s ≠ ""%string → Invoice.invoice_status_string (Invoice.invoice_status_of_string s) = s.
Proof.
  intros Hs. unfold Invoice.invoice_status_of_string.
  destruct (List.find _ _) as [k|] eqn:E; [|done]. apply find_some in E as [_ E].
  by apply String.eqb_eq in E.
Qed.

Lemma load_wf r d : invoice_wf (load r (items_of d (InvoiceRow.ID r))).
Proof.
  destruct (load_frame r (items_of d (InvoiceRow.ID r)))
    as (Hid & _ & _ & _ & Hli & _ & _ & _ & Hps & Hst & _).
  unfold invoice_wf. rewrite Hid, Hli, Hps, Hst. split_and!.
  - apply payment_status_normal.
  - cbn. destruct (is_empty _); [done|apply invoice_status_normal].
  - cbn. unfold is_empty. destruct (String.eqb_spec (InvoiceRow.Status r) ""); [done|].
    by rewrite invoice_status_nonempty.
  - apply Forall_forall. intros li Hin. unfold items_of, select_many in Hin.
    apply filter_In in Hin as [_ Hin]. by apply String.eqb_eq in Hin.
Qed.

(** An operation of the aggregate keeps it storable. *)
Lemma invoice_op_wf op now a a' :
  Invoice.apply_op op now a = Ok a' → invoice_wf a →
  match op with
  | Invoice.OpAddLine li => Invoice.ItemInvoiceID li = Invoice.ID a
  | Invoice.OpSetPaymentStatus s =>
      Invoice.payment_status_of_string (Invoice.payment_status_string s) = s
  | _ => True
  end → invoice_wf a'.
Proof.
  intros H (Hp & Hs & Hn & Hl) Hop. unfold invoice_wf.
  assert (Hrec : ∀ x, Invoice.PaymentStatus x = Invoice.PaymentStatus a →
    Invoice.Status x = Invoice.Status a → Invoice.ID x = Invoice.ID a →
    Forall (λ li, Invoice.ItemInvoiceID li = Invoice.ID a) (Invoice.LineItems x) →
    invoice_wf (Invoice.RecomputeTotals x)).
  { intros x Hx1 Hx2 Hx3 Hx4. unfold invoice_wf.
    destruct (Invoice.RecomputeTotals_frame x) as (-> & _ & -> & -> & _ & _ & _ & ->).
    rewrite Hx1, Hx2, Hx3. done. }
  destruct op as [li| |s|x|due|].
  - injection H as <-. apply Hrec; [done..|]. cbn.
    apply Forall_app. split; [done|]. by repeat constructor.
  - injection H as <-. by apply Hrec.
  - Invoice.invoice_cases H. done.
  - Invoice.invoice_cases H. by repeat case_match.
  - Invoice.invoice_cases H. done.
  - Invoice.invoice_cases H. done.
Qed.

Section RepoLaws.
Context {env : Env}.

Lemma invoice_Find_ok p w a w' :
  findInvoiceBySQL p w = (Ok a, w') →
  w_db w' = w_db w ∧ w_pool w' = w_pool w ∧
  ∃ r, select_one p (invoices (w_db w)) = Some r ∧
       a = load r (items_of (w_db w) (InvoiceRow.ID r)).
Proof.
  intros H. apply bind_ok_inv in H as (r & w1 & Hq & H).
  apply query_row_inv in Hq as (Hd & Hp & Hq).
  apply bind_ok_inv in H as (items & w2 & Hi & H). injection H as <- <-.
  apply query_inv in Hi as (Hd2 & Hp2 & ->). rewrite Hd2, Hp2, Hd.
  split_and!; [done|done|]. by exists r.
Qed.

Lemma Find_no_rows p w e w' :
  findInvoiceBySQL p w = (Fail e, w') → is_no_rows e = true →
  w_db w' = w_db w ∧ w_pool w' = w_pool w ∧ select_one p (invoices (w_db w)) = None.
Proof.
  intros H He. apply bind_fail_inv in H as [H|(r & w1 & Hq & H)].
  - apply query_row_inv in H as (Hd & Hp & H). split_and!; try done. by apply H.
  - apply bind_fail_inv in H as [H|(items & w2 & _ & H)]; [|discriminate H].
    apply query_inv in H as (_ & _ & H). by rewrite H in He.
Qed.

Lemma invoice_Find_same p : preserves (on_db eq) (findInvoiceBySQL p).
Proof. unfold findInvoiceBySQL, loadLineItems. preserve. Qed.

Lemma insertLineItem_ok li w w' :
  insertLineItem li w = (Ok tt, w') →
  w_pool w' = w_pool w ∧
  w_db w' = set_line_items (line_items (w_db w) ++ [li]) (w_db w).
Proof.
  intros H. apply stmt_inv in H as (Hp & _ & _ & H). cbv beta zeta in H.
  destruct (exists_row _ _); [discriminate H|].
  destruct (line_type_check _); [|discriminate H]. injection H as H. by rewrite H.
Qed.

(** The stored lines become exactly the aggregate's. *)
Lemma persistLineItems_ok a w w' :
  persistLineItems a w = (Ok tt, w') →
  w_pool w' = w_pool w ∧
  w_db w' = set_line_items (delete_where (of_invoice (Invoice.ID a)) (line_items (w_db w))
                            ++ Invoice.LineItems a) (w_db w).
Proof.
  intros H. apply bind_ok_inv in H as ([] & w1 & Hdel & H).
  apply stmt_inv in Hdel as (Hp1 & _ & _ & Hdel). injection Hdel as Hd1.
  set (l0 := delete_where _ _) in *.
  assert (Hgen : ∀ items w1 l, line_items (w_db w1) = l →
    SM_iter insertLineItem items w1 = (Ok tt, w') →
    w_pool w' = w_pool w1 ∧ w_db w' = set_line_items (l ++ items) (w_db w1)).
  { clear. induction items as [|li items IH]; intros w1 l Hl H; cbn in H.
    - injection H as <-. rewrite app_nil_r, <- Hl. split; [done|]. by destruct (w_db w1).
    - apply bind_ok_inv in H as ([] & w2 & H1 & H).
      apply insertLineItem_ok in H1 as [Hp1 Hd1].
      apply (IH w2 (l ++ [li])%list) in H as [Hp2 Hd2]; [|rewrite Hd1; cbn; congruence].
      split; [congruence|]. rewrite Hd2, Hd1, <- app_assoc. by destruct (w_db w1). }
  apply (Hgen _ _ l0) in H as [Hp2 Hd2]; [|by rewrite <- Hd1].
  split; [congruence|]. rewrite Hd2, <- Hd1. by destruct (w_db w).
Qed.

Lemma updateInvoiceFull_ok a w b w' :
  updateInvoiceFull a w = (Ok b, w') →
  let key := version_key (Invoice.ID a) (Invoice.TenantID a) (Invoice.Version a) in
  w_pool w' = w_pool w ∧ b = exists_row key (invoices (w_db w)) ∧
  if b then ∃ now, w_db w' = set_invoices (update_where key (updated now a) (invoices (w_db w)))
                               (w_db w)
  else w_db w' = w_db w.
Proof.
  intros H. apply stmt_inv in H as (Hp & _ & _ & H). cbv beta zeta in H |- *. revert H.
  destruct (exists_row (version_key _ _ _) _); cbn [negb].
  2:{ intros H. injection H as <- <-. done. }
  destruct (exists_row _ _); [intros H; discriminate H|].
  destruct (irn_taken _ _ _); [intros H; discriminate H|].
  destruct (payment_status_check _); cbn [negb]; intros H; [|discriminate H].
  injection H as <- H. split_and!; [done..|]. by eexists.
Qed.

Lemma CreateInvoice_ok a w w' :
  CreateInvoice a w = (Ok tt, w') →
  w_pool w' = w_pool w ∧ (∀ r, r ∈ invoices (w_db w) → InvoiceRow.ID r ≠ Invoice.ID a) ∧
  ∃ now, w_db w' = set_invoices (invoices (w_db w) ++ [inserted now a]) (w_db w).
Proof.
  intros H. apply stmt_inv in H as (Hp & _ & _ & H). cbv beta zeta in H.
  destruct (exists_row (λ r, String.eqb (InvoiceRow.ID r) _) _) eqn:Hi; [discriminate H|].
  destruct (exists_row (λ r, String.eqb (InvoiceRow.InvoiceNumber r) _) _); [discriminate H|].
  destruct (payment_status_check _); [|discriminate H]. injection H as H.
  split_and!; [done| |by eexists]. intros r Hr Heq.
  apply (proj1 (exists_row_false _ _)) with (r := r) in Hi; [|done].
  by rewrite Heq, String.eqb_refl in Hi.
Qed.

Lemma insertInvoiceExtended_ok a w w' :
  insertInvoiceExtended a w = (Ok tt, w') →
  w_pool w' = w_pool w ∧
  ∃ now, w_db w' = set_invoices
    (update_where (invoice_key (Invoice.ID a) (Invoice.TenantID a)) (extended now a)
       (invoices (w_db w))) (w_db w).
Proof.
  intros H. apply stmt_inv in H as (Hp & _ & _ & H). cbv beta zeta in H.
  destruct (_ && _); [discriminate H|]. injection H as H. split; [done|by eexists].
Qed.

(** What a successful [Save] did. *)
Definition save_rows (a : Invoice.InvoiceAggregate) (l l' : list Row) : Prop :=
  (exists_row (invoice_key (Invoice.ID a) (Invoice.TenantID a)) l = false ∧
   (∀ r, r ∈ l → InvoiceRow.ID r ≠ Invoice.ID a) ∧
   ∃ now now', l' = l ++ [extended now' (Invoice.set_Version 1 a) (inserted now a)])%list ∨
  (let key := version_key (Invoice.ID a) (Invoice.TenantID a) (Invoice.Version a) in
   exists_row key l = true ∧ ∃ now, l' = update_where key (updated now a) l).

Lemma update_where_fresh id t (f : Row → Row) l :
  (∀ r, r ∈ l → InvoiceRow.ID r ≠ id) → update_where (invoice_key id t) f l = l.
Proof.
  intros Hl. unfold update_where. rewrite <- (map_id l) at 2. apply map_ext_in.
  intros r Hr%list_elem_of_In. destruct (invoice_key id t r) eqn:E; [|done].
  apply invoice_key_spec in E as [E _]. by destruct (Hl r Hr).
Qed.

Lemma invoice_Save_inv a w a' w' :
  Save a w = (Ok a', w') →
  ∃ l' rows,
    save_rows a (invoices (w_db w)) l' ∧
    Forall2 (outbox_row_of (Invoice.ID a) "Invoice") (Invoice.events a) rows ∧
    Invoice.ID a' = Invoice.ID a ∧ w_pool w' = w_pool w ∧
    w_db w' = set_line_items
                (delete_where (of_invoice (Invoice.ID a)) (line_items (w_db w))
                 ++ Invoice.LineItems a)
                (set_outbox_events (outbox_events (w_db w) ++ rows)
                   (set_invoices l' (w_db w))).
Proof.
  intros H. apply bind_ok_inv in H as (b & w1 & He & H).
  apply query_inv in He as (Hd1 & Hp1 & Hb).
  apply bind_ok_inv in H as (a1 & w2 & Hsave & H).
  assert (Hw : ∃ l', save_rows a (invoices (w_db w)) l' ∧ w_pool w2 = w_pool w ∧
    w_db w2 = set_invoices l' (w_db w) ∧ Invoice.ID a1 = Invoice.ID a ∧
    Invoice.events a1 = Invoice.events a ∧ Invoice.LineItems a1 = Invoice.LineItems a).
  { destruct b.
    - apply bind_ok_inv in Hsave as (b & wu & Hu & Hsave).
      apply updateInvoiceFull_ok in Hu as (Hp2 & Hb2 & Hd2).
      destruct b; [|discriminate Hsave]. injection Hsave as <- <-.
      destruct Hd2 as [now Hd2]. rewrite Hd1 in Hd2, Hb2.
      eexists. split_and!; [right; split; [by symmetry|by eexists]|congruence|done..].
    - apply bind_ok_inv in Hsave as ([] & wc & Hc & Hsave).
      apply CreateInvoice_ok in Hc as (Hp2 & Hf & now & Hd2).
      apply bind_ok_inv in Hsave as ([] & wx & Hx & Hsave). injection Hsave as <- <-.
      apply insertInvoiceExtended_ok in Hx as (Hp3 & now' & Hd3).
      rewrite Hd1 in Hd2, Hf. rewrite Hd2 in Hd3. cbn [invoices set_invoices] in Hd3.
      unfold update_where in Hd3. rewrite map_app in Hd3. fold (update_where (Row := Row)) in Hd3.
      change (Invoice.ID (Invoice.set_Version 1 a)) with (Invoice.ID a) in Hd3.
      change (Invoice.TenantID (Invoice.set_Version 1 a)) with (Invoice.TenantID a) in Hd3.
      fold (update_where (invoice_key (Invoice.ID a) (Invoice.TenantID a))
              (extended now' (Invoice.set_Version 1 a)) (invoices (w_db w))) in Hd3.
      rewrite update_where_fresh in Hd3 by done. cbn [map] in Hd3.
      unfold invoice_key in Hd3 at 1. cbn [inserted InvoiceRow.ID InvoiceRow.TenantID] in Hd3.
      rewrite !String.eqb_refl in Hd3. cbn [andb] in Hd3.
      eexists. split_and!; [left; split_and!; [by symmetry|done|by do 2 eexists]|congruence| |done..].
      rewrite Hd3. by destruct (w_db w). }
  destruct Hw as (l' & Hl & Hpool & Hd2 & Hid & Hev & Hli).
  apply bind_ok_inv in H as ([] & w3 & Hevs & H).
  apply SaveEvents_ok in Hevs as (rows & Hrows & Hp3 & Hd3).
  apply bind_ok_inv in H as ([] & w4 & Hitems & H). injection H as <- <-.
  apply persistLineItems_ok in Hitems as (Hp4 & Hd4).
  cbn [Invoice.ClearEvents Invoice.set_events Invoice.ID Invoice.LineItems] in Hd4.
  rewrite Hid, Hev in Hrows. rewrite Hid, Hli in Hd4.
  exists l', rows. split_and!; try done; [congruence|].
  rewrite Hd4, Hd3, Hd2. by destruct (w_db w).
Qed.
End RepoLaws.

(** ** Round trip *)

(** The part of an aggregate its tables hold: not the credit balance, the
    financial year nor the remarks. *)
Definition as_read (created updated_ : Time) (v : Z) (a : Invoice.InvoiceAggregate)
    : Invoice.InvoiceAggregate :=
  Invoice.mkInvoice (Invoice.ID a) (Invoice.TenantID a) (Invoice.InvoiceNumber a)
    (Invoice.BookingID a) (Invoice.CustomerID a) (Invoice.TripID a) (Invoice.Subtotal a)
    (Invoice.Tax a) (Invoice.Cgst a) (Invoice.Sgst a) (Invoice.Igst a) (Invoice.Discount a)
    (Invoice.Total a) (Invoice.PaymentStatus a) (Invoice.PaidAmount a) (Invoice.Status a)
    (Invoice.DueDate a) "" f0 "" (Invoice.IRN a) (Invoice.IRNAckNo a) (Invoice.IRNAckDate a)
    (Invoice.SignedQR a) (Invoice.EwbNumber a) created updated_ v (Invoice.LineItems a) [].

Lemma load_as_read a r :
  invoice_wf a → Invoice.totals_ok a →
  Invoice.set_LineItems (Invoice.LineItems a) (rehydrate r)
    = as_read (InvoiceRow.CreatedAt r) (InvoiceRow.UpdatedAt r) (InvoiceRow.Version r) a →
  load r (Invoice.LineItems a)
    = as_read (InvoiceRow.CreatedAt r) (InvoiceRow.UpdatedAt r) (InvoiceRow.Version r) a.
Proof. intros Hwf Hok E. unfold load. rewrite E. by apply Invoice.RecomputeTotals_fixed. Qed.

Lemma load_updated now a r :
  invoice_wf a → Invoice.totals_ok a →
  InvoiceRow.ID r = Invoice.ID a → InvoiceRow.TenantID r = Invoice.TenantID a →
  load (updated now a r) (Invoice.LineItems a)
    = as_read (InvoiceRow.CreatedAt r) now (InvoiceRow.Version r + 1) a.
Proof.
  intros Hwf Hok Hi Ht. apply (load_as_read a (updated now a r)); [done..|].
  destruct Hwf as (Hp & Hs & Hn & _). unfold rehydrate, as_read. cbn.
  unfold is_empty. destruct (String.eqb_spec (Invoice.invoice_status_string (Invoice.Status a)) "");
    [done|]. by rewrite Hi, Ht, Hp, Hs.
Qed.

Lemma load_inserted now now' a :
  invoice_wf a → Invoice.totals_ok a →
  load (extended now' (Invoice.set_Version 1 a) (inserted now a)) (Invoice.LineItems a)
    = as_read now now' 1 a.
Proof.
  intros Hwf Hok.
  apply (load_as_read a (extended now' (Invoice.set_Version 1 a) (inserted now a))); [done..|].
  destruct Hwf as (Hp & Hs & Hn & _). unfold rehydrate, as_read. cbn.
  unfold is_empty. destruct (String.eqb_spec (Invoice.invoice_status_string (Invoice.Status a)) "");
    [done|]. by rewrite Hp, Hs.
Qed.

(** The lines after a save: the aggregate's for its invoice, the old ones for
    the others. *)
Lemma items_saved a l id :
  Forall (λ li, Invoice.ItemInvoiceID li = Invoice.ID a) (Invoice.LineItems a) →
  select_many (of_invoice id)
    (delete_where (of_invoice (Invoice.ID a)) l ++ Invoice.LineItems a)
  = if decide (id = Invoice.ID a) then Invoice.LineItems a else select_many (of_invoice id) l.
Proof.
  intros Hl. unfold select_many, delete_where. rewrite List.filter_app.
  assert (Ha : List.filter (of_invoice id) (Invoice.LineItems a)
               = if decide (id = Invoice.ID a) then Invoice.LineItems a else []).
  { induction Hl as [|li items Hli Hl IH]; cbn; [by case_decide|].
    unfold of_invoice at 1. rewrite Hli, IH.
    destruct (String.eqb_spec (Invoice.ID a) id); case_decide; congruence. }
  rewrite Ha. case_decide as Hid.
  - subst. induction l as [|li l IH]; cbn; [done|].
    destruct (of_invoice (Invoice.ID a) li) eqn:E; cbn; rewrite ?E; exact IH.
  - rewrite app_nil_r. induction l as [|li l IH]; cbn; [done|].
    destruct (of_invoice (Invoice.ID a) li) eqn:E; cbn.
    + rewrite IH. apply String.eqb_eq in E. unfold of_invoice at 2.
      destruct (String.eqb_spec (Invoice.ItemInvoiceID li) id); [congruence|done].
    + by rewrite IH.
Qed.

Section RepoTheorems.
Context {env : Env}.

Lemma stored_invoice_wf d id t a :
  stored_invoice d id t = Some a →
  invoice_wf a ∧ Invoice.ID a = id ∧ Invoice.TenantID a = t ∧ Invoice.events a = [].
Proof.
  unfold stored_invoice. intros (r & Hr & ->)%fmap_Some_1.
  apply select_one_Some in Hr as [_ [Hi Ht]%invoice_key_spec].
  destruct (load_frame r (items_of d (InvoiceRow.ID r))) as (H1 & H2 & _ & H4 & _).
  split_and!; [apply load_wf|congruence..].
Qed.

Lemma Find_stored id t w a w' :
  Find id t w = (Ok a, w') →
  w_db w' = w_db w ∧ stored_invoice (w_db w) id t = Some a.
Proof.
  intros H. apply invoice_Find_ok in H as (Hd & _ & r & Hr & ->). split; [done|].
  unfold stored_invoice. by rewrite Hr.
Qed.

(** The rows after a save: the invoice's own is the written one, the
    others are the old ones, and none of them has its id. *)
Definition rows_saved (a : Invoice.InvoiceAggregate) (l l' : list Row) : Prop :=
  NoDup (map InvoiceRow.ID l') ∧
  (∃ r', select_one (invoice_key (Invoice.ID a) (Invoice.TenantID a)) l' = Some r' ∧
     InvoiceRow.ID r' = Invoice.ID a ∧
     ((∃ now now', r' = extended now' (Invoice.set_Version 1 a) (inserted now a) ∧
         select_one (invoice_key (Invoice.ID a) (Invoice.TenantID a)) l = None) ∨
      (∃ now r, r' = updated now a r ∧ InvoiceRow.Version r = Invoice.Version a ∧
         select_one (invoice_key (Invoice.ID a) (Invoice.TenantID a)) l = Some r))) ∧
  ∀ id t, ¬ (id = Invoice.ID a ∧ t = Invoice.TenantID a) →
    select_one (invoice_key id t) l' = select_one (invoice_key id t) l ∧
    ∀ r, select_one (invoice_key id t) l = Some r → InvoiceRow.ID r ≠ Invoice.ID a.

Lemma rows_saved_insert a l now now' :
  NoDup (map InvoiceRow.ID l) →
  exists_row (invoice_key (Invoice.ID a) (Invoice.TenantID a)) l = false →
  (∀ r, r ∈ l → InvoiceRow.ID r ≠ Invoice.ID a) →
  rows_saved a l (l ++ [extended now' (Invoice.set_Version 1 a) (inserted now a)]).
Proof.
  intros Hpk Hno%exists_row_select Hfresh. split_and!.
  - by apply NoDup_map_snoc.
  - exists (extended now' (Invoice.set_Version 1 a) (inserted now a)).
    split_and!; [|done|left; by exists now, now'].
    rewrite select_one_app, Hno. cbn. unfold invoice_key. cbn. by rewrite !String.eqb_refl.
  - intros id t Hne. split.
    + rewrite select_one_app. destruct (select_one (invoice_key id t) l); [done|]. cbn. unfold invoice_key. cbn.
      destruct (String.eqb_spec (Invoice.ID a) id); [|done].
      destruct (String.eqb_spec (Invoice.TenantID a) t); [|done].
      destruct Hne. split; congruence.
    + intros r Hr. apply Hfresh. by apply select_one_Some in Hr as [? _].
Qed.

Lemma rows_saved_update a l now :
  NoDup (map InvoiceRow.ID l) →
  let key := version_key (Invoice.ID a) (Invoice.TenantID a) (Invoice.Version a) in
  exists_row key l = true → rows_saved a l (update_where key (updated now a) l).
Proof.
  cbn zeta. set (key := version_key _ _ _). intros Hpk Hex.
  apply exists_row_spec in Hex as (r & Hr & Hk).
  pose proof Hk as Hk0. unfold key, version_key in Hk0.
  apply andb_true_iff in Hk0 as [Hk0 Hv%Z.eqb_eq]. apply invoice_key_spec in Hk0 as [Hi Ht].
  assert (Huniq : ∀ r', r' ∈ l → InvoiceRow.ID r' = Invoice.ID a → r' = r).
  { intros r' Hr' Hi'. apply (NoDup_map_inj InvoiceRow.ID l); congruence. }
  assert (Hsel : ∀ id t, select_one (invoice_key id t) (update_where key (updated now a) l) =
      match select_one (invoice_key id t) l with
      | Some r => Some (if key r then updated now a r else r) | None => None end)
    by (intros id t; by apply select_one_update).
  assert (E : select_one (invoice_key (Invoice.ID a) (Invoice.TenantID a)) l = Some r).
  { destruct (select_one _ l) as [r'|] eqn:E.
    - apply select_one_Some in E as [Hr' [Hi' _]%invoice_key_spec]. f_equal. by apply Huniq.
    - apply (select_one_None _ _ _ E) in Hr. unfold key, version_key in Hk. by rewrite Hr in Hk. }
  split_and!.
  - by rewrite map_update.
  - exists (updated now a r). rewrite Hsel, E, Hk. split_and!; [done..|]. right. by do 2 eexists.
  - intros id t Hne.
    assert (Hid : ∀ r', select_one (invoice_key id t) l = Some r' →
              InvoiceRow.ID r' ≠ Invoice.ID a).
    { intros r' Hs Heq. apply select_one_Some in Hs as [Hr' [Hi' Ht']%invoice_key_spec].
      apply Huniq in Heq; [|done]. apply Hne. split; congruence. }
    split; [|done]. rewrite Hsel. destruct (select_one (invoice_key id t) l) as [r'|] eqn:Er; [|done].
    destruct (key r') eqn:Hk'; [|done]. apply andb_true_iff in Hk' as [[Hx _]%invoice_key_spec _].
    by destruct (Hid r').
Qed.

Lemma save_rows_saved a l l' :
  NoDup (map InvoiceRow.ID l) → save_rows a l l' → rows_saved a l l'.
Proof.
  intros Hpk [(Hno & Hf & now & now' & ->)|(Hex & now & ->)].
  - by apply rows_saved_insert.
  - by apply rows_saved_update.
Qed.

(** What is stored after a save. *)
Lemma stored_after_save a w a' w' :
  invoices_pk (w_db w) → invoice_wf a → Save a w = (Ok a', w') →
  rows_saved a (invoices (w_db w)) (invoices (w_db w')) ∧
  (∀ r', select_one (invoice_key (Invoice.ID a) (Invoice.TenantID a)) (invoices (w_db w'))
           = Some r' →
     InvoiceRow.ID r' = Invoice.ID a →
     stored_invoice (w_db w') (Invoice.ID a) (Invoice.TenantID a)
       = Some (load r' (Invoice.LineItems a))) ∧
  (∀ id t, ¬ (id = Invoice.ID a ∧ t = Invoice.TenantID a) →
     stored_invoice (w_db w') id t = stored_invoice (w_db w) id t) ∧
  (∃ rows, outbox_events (w_db w') = (outbox_events (w_db w) ++ rows)%list ∧
           Forall2 (outbox_row_of (Invoice.ID a) "Invoice") (Invoice.events a) rows) ∧
  payments (w_db w') = payments (w_db w).
Proof.
  intros Hpk (_ & _ & _ & Hl) H.
  apply invoice_Save_inv in H as (l' & rows & Hsave%save_rows_saved & Hrows & _ & _ & Hd); [|done].
  assert (Hi : invoices (w_db w') = l') by (by rewrite Hd).
  assert (Hitems : ∀ id, items_of (w_db w') id =
            if decide (id = Invoice.ID a) then Invoice.LineItems a else items_of (w_db w) id)
    by (intros id; unfold items_of; rewrite Hd; by apply items_saved).
  rewrite Hi. split_and!; [done| | |exists rows; by rewrite Hd|by rewrite Hd].
  - intros r' Hr' Hid. unfold stored_invoice. rewrite Hi, Hr'. cbn.
    by rewrite Hitems, decide_True.
  - intros id t Hne. unfold stored_invoice. rewrite Hi.
    destruct Hsave as (_ & _ & Hother). destruct (Hother id t Hne) as [-> Hne'].
    destruct (select_one _ _) as [r|]; [|done]. cbn. rewrite Hitems, decide_False; [done|].
    by apply Hne'.
Qed.

Lemma invoice_Save_ok a a0 w a' w' :
  invoices_pk (w_db w) → invoice_wf a →
  stored_invoice (w_db w) (Invoice.ID a) (Invoice.TenantID a) = Some a0 →
  Save a w = (Ok a', w') →
  Invoice.Version a = Invoice.Version a0 ∧ Invoice.ID a' = Invoice.ID a ∧
  invoices_pk (w_db w') ∧
  (∃ now, stored_invoice (w_db w') (Invoice.ID a) (Invoice.TenantID a)
          = Some (saved_invoice now a0 a)) ∧
  (∀ id t, ¬ (id = Invoice.ID a ∧ t = Invoice.TenantID a) →
     stored_invoice (w_db w') id t = stored_invoice (w_db w) id t) ∧
  (∃ rows, outbox_events (w_db w') = (outbox_events (w_db w) ++ rows)%list ∧
           Forall2 (outbox_row_of (Invoice.ID a) "Invoice") (Invoice.events a) rows).
Proof.
  intros Hpk Hwf Hst H.
  destruct (stored_after_save _ _ _ _ Hpk Hwf H)
    as ((Hpk' & (r' & Hr' & Hid & Hcase) & _) & Hnew & Hother & Hout & _).
  apply invoice_Save_inv in H as (_ & _ & _ & _ & Hid' & _).
  unfold stored_invoice in Hst.
  destruct Hcase as [(? & ? & _ & Hn)|(now & r & -> & Hv & Hr)]; [by rewrite Hn in Hst|].
  rewrite Hr in Hst. injection Hst as <-.
  destruct (load_frame r (items_of (w_db w) (InvoiceRow.ID r)))
    as (H1 & H2 & H3 & _ & _ & _ & H7 & _).
  split_and!; try done; [congruence|]. exists now. rewrite (Hnew _ Hr' Hid). f_equal.
  unfold saved_invoice. f_equal. unfold updated, row_of. cbn. congruence.
Qed.

#[export] Instance invoice_repo : AggregateRepo Invoice.InvoiceAggregate.
Proof.
  refine {| agg_id := Invoice.ID; agg_tenant := Invoice.TenantID;
            agg_version := Invoice.Version; agg_events := Invoice.events;
            agg_type := "Invoice"; agg_wf := invoice_wf; stored := stored_invoice;
            persisted := saved_invoice; repo_inv := invoices_pk;
            repo_find := Find; repo_save := Save |}.
  - intros id t w a w' _. apply Find_stored.
  - apply stored_invoice_wf.
  - intros a a0 w a' w'. apply invoice_Save_ok.
  - done.
  - done.
Defined.

(** C40: whatever invoice is saved, new or already stored, finding it again
    returns it, with its lines in order and its totals untouched; only the
    row's times, its version and the fields no column holds differ: the
    credit balance an overpayment created reads back as zero. *)
Theorem invoice_round_trip a w a' w1 b w2 :
  invoices_pk (w_db w) → invoice_wf a → Invoice.totals_ok a →
  min_int64 <= Invoice.Version a < max_int64 →
  Save a w = (Ok a', w1) → Find (Invoice.ID a) (Invoice.TenantID a) w1 = (Ok b, w2) →
  ∃ created updated_, b = as_read created updated_ (Invoice.Version a') a.
Proof.
  intros Hpk Hwf Hok Hv Hs Hf. apply Find_stored in Hf as [_ Hf].
  destruct (stored_after_save _ _ _ _ Hpk Hwf Hs)
    as ((_ & (r' & Hr' & Hid & Hcase) & _) & Hnew & _).
  rewrite (Hnew _ Hr' Hid) in Hf. injection Hf as <-.
  assert (Hv' : Invoice.Version a' = InvoiceRow.Version r').
  { apply bind_ok_inv in Hs as (e & w3 & He & Hs). apply query_inv in He as (_ & _ & ->).
    destruct Hcase as [(? & ? & -> & Hn%exists_row_select)|(now & r & -> & Hvr & Hr)].
    - rewrite Hn in Hs. apply bind_ok_inv in Hs as (a1 & w4 & Hs & Hrest).
      run_ok Hs. run_ok Hs. injection Hs as <- _. run_ok Hrest. run_ok Hrest.
      by injection Hrest as <- _.
    - rewrite select_one_exists, Hr in Hs. cbn in Hs.
      apply bind_ok_inv in Hs as (a1 & w4 & Hs & Hrest). run_ok Hs. destruct v; [|discriminate Hs].
      injection Hs as <- _. run_ok Hrest. run_ok Hrest. injection Hrest as <- _. cbn.
      rewrite wrap64_id; [|lia]. congruence. }
  rewrite Hv'. destruct Hcase as [(now & now' & -> & _)|(now & r & -> & Hvr & Hr)].
  - do 2 eexists. by apply load_inserted.
  - apply select_one_Some in Hr as [_ [Hi Ht]%invoice_key_spec].
    do 2 eexists. by apply load_updated.
Qed.
End RepoTheorems.
(** ** A concrete run: an overpaid invoice with a line. *)
Definition demo_overpaid : Invoice.InvoiceAggregate :=
  Invoice.demo_apply (Invoice.OpApplyPayment (f64_of_Z 1200)) 5
    (Invoice.demo_apply (Invoice.OpAddLine Invoice.demo_item) 1 Invoice.demo_invoice).
Definition saved_w : World := snd (Save (env := demo_env) demo_overpaid (world demo_db)).
Definition saved_overpaid : Invoice.InvoiceAggregate :=
  match fst (Save (env := demo_env) demo_overpaid (world demo_db)) with Ok a => a | Fail _ => demo_overpaid end.
Definition found_overpaid : Invoice.InvoiceAggregate :=
  match fst (Find (env := demo_env) "i1" "acme" saved_w) with Ok a => a | Fail _ => demo_overpaid end.

Lemma invoice_round_trip_witness :
  Invoice.CreditBalance found_overpaid = f0 ∧
  ∃ created updated_, found_overpaid = as_read created updated_ (Invoice.Version saved_overpaid) demo_overpaid.
Proof.
  split; [vm_compute; reflexivity|].
  apply (invoice_round_trip (env := demo_env) demo_overpaid (world demo_db) saved_overpaid saved_w
           found_overpaid (snd (Find (env := demo_env) "i1" "acme" saved_w))).
  - apply NoDup_nil_2.
  - split; [vm_compute; reflexivity|]. split; [vm_compute; reflexivity|].
    split; [vm_compute; discriminate|]. repeat constructor.
  - right. split; [vm_compute; reflexivity|]. split; [vm_compute; reflexivity|].
    intros _. repeat split; vm_compute; reflexivity.
  - vm_compute. split; [discriminate|reflexivity].
  - vm_compute. reflexivity.
  - vm_compute. reflexivity.
Defined.
End InvoiceRepo.
