(* ===== verification/InvoiceUseCases.v ===== *)
(** * The invoice use cases

    [internal/invoice/application/generate_invoice.go] and
    [void_invoice.go]: an invoice is generated once per booking (or trip),
    priced from the booking, and extended with line items until it is paid. *)
From stdpp Require Import base decidable list strings option.
From Stdlib Require Import ZArith Lia String.
From S2P Require Import Prelude GoFloat Shared Events InvoiceAggregate Database Outbox.
From S2P Require Import Repository BookingRepository InvoiceRepository.
Open Scope Z_scope.

Module InvoiceApp.

Definition moneyEpsilon : float64 := Eval vm_compute in f64_dec 1 2.

Record derivedPricing := mkPricing {
  p_subtotal : float64; p_tax : float64; p_discount : float64; p_total : float64 }.

Record InvoiceLineItemInput := mkLineInput {
  in_TripID : option string; in_LineType : string; in_Description : string;
  in_Quantity : float64; in_UnitPrice : float64; in_RefID : option string }.

Record GenerateInvoiceCommand := mkGenerate {
  gi_TenantID : string; gi_BookingID : string; gi_CustomerID : string;
  gi_TripID : option string; gi_Subtotal : float64; gi_Tax : float64; gi_Discount : float64;
  gi_Total : float64; gi_LineItems : list InvoiceLineItemInput }.

(** ** Goods and services tax *)

(** [strings.ToUpper] on the first two bytes, ASCII letters as elsewhere. *)
Definition upper (c : Ascii.ascii) : Ascii.ascii :=
  let n := Ascii.nat_of_ascii c in
  if ((97 <=? n) && (n <=? 122))%nat then Ascii.ascii_of_nat (n - 32) else c.
Fixpoint ToUpper (s : string) : string :=
  match s with EmptyString => EmptyString | String c s' => String (upper c) (ToUpper s') end.

Definition StateCodeFromGSTIN (gstin : string) : string :=
  if len gstin <? 2 then ""%string else ToUpper (String.substring 0 2 gstin).

Definition IsIntraState (supplierGSTIN recipientGSTIN : string) : bool :=
  let supState := StateCodeFromGSTIN supplierGSTIN in
  let recState := StateCodeFromGSTIN recipientGSTIN in
  if is_empty supState || is_empty recState then true else String.eqb supState recState.

Definition round2 (v : float64) : float64 := fdiv (fround (fmul v f100)) f100.

(** [(cgst, sgst, igst)]. *)
Definition ComputeLineTax (taxable rate : float64) (intraState : bool)
    : float64 * float64 * float64 :=
  if intraState then
    let half := fdiv rate (f64_of_Z 2) in
    (round2 (fdiv (fmul taxable half) f100), round2 (fdiv (fmul taxable half) f100), f0)
  else (f0, f0, round2 (fdiv (fmul taxable rate) f100)).

Definition validateInvoiceAmounts (subtotal tax discount total : float64) : result unit :=
  if fltb total f0 then Fail (Err "total cannot be negative")
  else if fltb subtotal f0 || fltb tax f0 || fltb discount f0
  then Fail (Err "invoice amounts cannot be negative")
  else if fltb moneyEpsilon (fabs (fsub total (fsub (fadd subtotal tax) discount)))
  then Fail (Err "invoice total does not match subtotal plus tax minus discount")
  else Ok tt.

(** What the derived amounts are, in minor units, for a price and settings. *)
Definition derive (price : float64) (settings : result CompanySettings) : derivedPricing :=
  let subtotalMinor := f64_to_int64 (fround (fmul price f100)) in
  let subtotalMinor := if subtotalMinor <? 0 then 0 else subtotalMinor in
  let taxMinor :=
    match settings with
    | Ok s =>
        if GSTEnabled s
        then f64_to_int64 (fround (fdiv (fmul (f64_of_Z subtotalMinor) (GSTRate s)) f100))
        else 0
    | Fail _ => 0
    end in
  let subtotal := fdiv (f64_of_Z subtotalMinor) f100 in
  let tax := fdiv (f64_of_Z taxMinor) f100 in
  mkPricing subtotal tax f0 (fsub (fadd subtotal tax) f0).

Section UseCases.
Context {env : Env}.

Definition GetCompanySettings : M CompanySettings := query_row (λ _ d, company_settings d).

Definition resolveBookingPricing (tenantID bookingID : string) : M (option derivedPricing) :=
  booking ← SM_try (BookingRepo.GetBookingByID bookingID tenantID);
  match booking with
  | Fail _ => mret None
  | Ok b => settings ← SM_try GetCompanySettings; mret (Some (derive (BookingRow.Price b) settings))
  end.

(** ** Line items *)
Definition has_freight (a : Invoice.InvoiceAggregate) : bool :=
  existsb (λ li, String.eqb (Invoice.LineType li) Invoice.LineTypeFreight) (Invoice.LineItems a).
Definition has_ref (refs : list (option string)) (r : option string) : bool :=
  match r with Some _ => bool_decide (r ∈ refs) | None => false end.

Definition freight_item (id : string) (a : Invoice.InvoiceAggregate) : Invoice.LineItem :=
  Invoice.mkLineItem id (Invoice.TenantID a) (Invoice.ID a) (Invoice.TripID a)
    Invoice.LineTypeFreight None "Freight" None f1 (Invoice.Subtotal a) f0 f0 f0 f0 f0 f0 f0 f0
    (Invoice.Subtotal a) f0 None.
Definition input_item (id : string) (a : Invoice.InvoiceAggregate) (l : InvoiceLineItemInput)
    : Invoice.LineItem :=
  Invoice.mkLineItem id (Invoice.TenantID a) (Invoice.ID a) (in_TripID l) (in_LineType l) None
    (in_Description l) None (in_Quantity l) (in_UnitPrice l) f0 f0 f0 f0 f0 f0 f0 f0
    (Invoice.RoundMoney (fmul (in_Quantity l) (in_UnitPrice l))) f0 (in_RefID l).

Fixpoint attach_inputs (refs : list (option string)) (ls : list InvoiceLineItemInput)
    (a : Invoice.InvoiceAggregate) : M Invoice.InvoiceAggregate :=
  match ls with
  | [] => mret a
  | l :: ls =>
      if has_ref refs (in_RefID l) then attach_inputs refs ls a
      else
        id ← GenerateUUID;
        attach_inputs refs ls (Invoice.AddLineItem (input_item id a l) a)
  end.

(** The references are those of the lines found, not of the lines added. *)
Definition attachLineItems (ls : list InvoiceLineItemInput) (a : Invoice.InvoiceAggregate)
    : M Invoice.InvoiceAggregate :=
  let refs := map Invoice.RefID (Invoice.LineItems a) in
  a ← (if has_freight a then mret a
       else id ← GenerateUUID; mret (Invoice.AddLineItem (freight_item id a) a));
  attach_inputs refs ls a.

(** ** Generation *)
Definition find_existing (cmd : GenerateInvoiceCommand) : M (result Invoice.InvoiceAggregate) :=
  SM_try
    (if is_empty (gi_BookingID cmd)
     then InvoiceRepo.FindByTripID (default ""%string (gi_TripID cmd)) (gi_TenantID cmd)
     else InvoiceRepo.FindByBookingID (gi_BookingID cmd) (gi_TenantID cmd)).

Definition extend_existing (cmd : GenerateInvoiceCommand) (a : Invoice.InvoiceAggregate)
    : M (string * bool) :=
  if bool_decide (Invoice.PaymentStatus a = Invoice.PaymentStatusPaid) ||
     bool_decide (Invoice.PaymentStatus a = Invoice.PaymentStatusPartiallyPaid)
  then mret (Invoice.ID a, false)
  else
    match gi_LineItems cmd with
    | [] => mret (Invoice.ID a, false)
    | ls =>
        a ← attachLineItems ls a;
        a ← InvoiceRepo.Save a;
        mret (Invoice.ID a, true)
    end.

Definition price_of (cmd : GenerateInvoiceCommand) : M derivedPricing :=
  p ← resolveBookingPricing (gi_TenantID cmd) (gi_BookingID cmd);
  match p with
  | Some p => mret p
  | None =>
      _ ← SM_lift (validateInvoiceAmounts (gi_Subtotal cmd) (gi_Tax cmd) (gi_Discount cmd)
                     (gi_Total cmd));
      mret (mkPricing (gi_Subtotal cmd) (gi_Tax cmd) (gi_Discount cmd) (gi_Total cmd))
  end.

Definition create_new (cmd : GenerateInvoiceCommand) : M (string * bool) :=
  p ← price_of cmd;
  id ← GenerateUUID;
  num ← GenerateDisplayID "INV";
  now ← Now;
  let a := Invoice.NewInvoiceAggregate id (gi_TenantID cmd) num (gi_BookingID cmd)
    (gi_CustomerID cmd) (gi_TripID cmd) (p_subtotal p) (p_tax p) (p_discount p) (p_total p)
    Invoice.PaymentStatusPending now in
  a ← (match gi_LineItems cmd with [] => mret a | ls => attachLineItems ls a end);
  a ← InvoiceRepo.Save a;
  mret (Invoice.ID a, match gi_LineItems cmd with [] => false | _ => true end).

Definition GenerateInTx (cmd : GenerateInvoiceCommand) : M (string * bool) :=
  (when is_empty (gi_BookingID cmd) && bool_decide (gi_TripID cmd = None)
     fail Err "booking ID is required";
   (existing ← find_existing cmd;
    match existing with
    | Ok a => extend_existing cmd a
    | Fail e => if is_no_rows e then create_new cmd else SM_fail e
    end))%go.

Definition GenerateInvoiceExecute (cmd : GenerateInvoiceCommand) : M string :=
  UoWExecute (r ← GenerateInTx cmd; mret (fst r)).

(** ** Voiding *)
Definition ErrInvoiceAlreadyCancelled : error := Err "invoice already cancelled".
Definition ErrInvoiceCannotVoid : error := Err "invoice cannot be voided".

Definition void_error (e : error) : error :=
  if String.eqb (error_msg e) "invoice already cancelled" then ErrInvoiceAlreadyCancelled
  else ErrInvoiceCannotVoid.

Definition find_invoice (notFound : error) (id tenant : string) : M Invoice.InvoiceAggregate :=
  r ← SM_try (InvoiceRepo.Find id tenant);
  match r with
  | Ok a => mret a
  | Fail e => if is_no_rows e then SM_fail notFound else SM_fail e
  end.

Definition VoidInvoiceExecute (id tenant : string) : M unit :=
  (when is_empty id fail Err "invoice ID is required";
   UoWExecute
     (a ← find_invoice (Err "invoice not found") id tenant;
      now ← Now;
      a ← SM_lift (match Invoice.Void now a with
                   | Ok a => Ok a | Fail e => Fail (void_error e) end);
      _ ← InvoiceRepo.Save a;
      mret tt))%go.
End UseCases.

(** ** Goods and services tax *)

(** The split of a line's tax never mixes the two regimes. *)
Lemma ComputeLineTax_regime taxable rate intra c s i :
  ComputeLineTax taxable rate intra = (c, s, i) →
  if intra then c = s ∧ i = f0 else c = f0 ∧ s = f0.
Proof. unfold ComputeLineTax. destruct intra; intros [= <- <- <-]; done. Qed.

Lemma IsIntraState_sym a b : IsIntraState a b = IsIntraState b a.
Proof.
  unfold IsIntraState. rewrite orb_comm, String.eqb_sym. done.
Qed.

(** ** One invoice per booking *)
Definition one_per_booking (l : list InvoiceRepo.Row) : Prop :=
  ∀ r1 r2, r1 ∈ l → r2 ∈ l → InvoiceRow.BookingID r1 ≠ ""%string →
    InvoiceRow.BookingID r1 = InvoiceRow.BookingID r2 →
    InvoiceRow.TenantID r1 = InvoiceRow.TenantID r2 → InvoiceRow.ID r1 = InvoiceRow.ID r2.

(** No other invoice is [a]'s booking's. *)
Definition booking_free (a : Invoice.InvoiceAggregate) (l : list InvoiceRepo.Row) : Prop :=
  ∀ r, r ∈ l → InvoiceRow.BookingID r = Invoice.BookingID a → Invoice.BookingID a ≠ ""%string →
    InvoiceRow.TenantID r = Invoice.TenantID a → InvoiceRow.ID r = Invoice.ID a.

Lemma invoice_booking_key_spec b t r :
  InvoiceRepo.booking_key b t r = true ↔ InvoiceRow.BookingID r = b ∧ InvoiceRow.TenantID r = t.
Proof. unfold InvoiceRepo.booking_key. by rewrite andb_true_iff, !String.eqb_eq. Qed.

Lemma version_key_spec id t v r :
  InvoiceRepo.version_key id t v r = true →
  InvoiceRow.ID r = id ∧ InvoiceRow.TenantID r = t ∧ InvoiceRow.Version r = v.
Proof.
  unfold InvoiceRepo.version_key. intros [[? ?]%InvoiceRepo.invoice_key_spec ?%Z.eqb_eq]%andb_true_iff.
  done.
Qed.

(** A row of the saved table is an old one, or the saved invoice's. *)
Lemma save_rows_elem a l l' r :
  InvoiceRepo.save_rows a l l' → r ∈ l' →
  r ∈ l ∨ InvoiceRow.ID r = Invoice.ID a ∧ InvoiceRow.BookingID r = Invoice.BookingID a ∧
          InvoiceRow.TenantID r = Invoice.TenantID a.
Proof.
  intros [(_ & _ & now & now' & ->)|(_ & now & ->)] Hr.
  - apply elem_of_app in Hr as [Hr|Hr]; [by left|]. apply list_elem_of_singleton in Hr as ->. by right.
  - apply elem_of_update in Hr as (r0 & Hr0 & ->).
    destruct (InvoiceRepo.version_key _ _ _ r0) eqn:E; [right|by left].
    apply version_key_spec in E as (? & ? & _). done.
Qed.

Lemma save_one_per_booking a l l' :
  InvoiceRepo.save_rows a l l' → booking_free a l → one_per_booking l → one_per_booking l'.
Proof.
  intros Hs Hf Hone r1 r2 H1 H2 Hb Heq Ht.
  destruct (save_rows_elem _ _ _ _ Hs H1) as [?|(? & ? & ?)],
    (save_rows_elem _ _ _ _ Hs H2) as [?|(? & ? & ?)]; [by apply Hone| | |congruence].
  - rewrite (Hf r1); congruence.
  - rewrite (Hf r2); congruence.
Qed.

(** After the save, the booking's invoice is the saved one. *)
Lemma save_booking_found a l l' :
  InvoiceRepo.save_rows a l l' → booking_free a l → Invoice.BookingID a ≠ ""%string →
  ∃ r, select_one (InvoiceRepo.booking_key (Invoice.BookingID a) (Invoice.TenantID a)) l' = Some r ∧
       InvoiceRow.ID r = Invoice.ID a.
Proof.
  intros Hs Hf Hb. destruct (select_one _ _) as [r|] eqn:E.
  - exists r. split; [done|]. apply select_one_Some in E as [Hr [? ?]%invoice_booking_key_spec].
    destruct (save_rows_elem _ _ _ _ Hs Hr) as [Hr'|(? & _)]; [|done]. by apply Hf.
  - exfalso.
    assert (∃ r, r ∈ l' ∧ InvoiceRepo.booking_key (Invoice.BookingID a) (Invoice.TenantID a) r = true)
      as (r & Hr & Hk); [|by rewrite (select_one_None _ _ _ E Hr) in Hk].
    destruct Hs as [(_ & _ & now & now' & ->)|(Hex & now & ->)].
    + eexists. split; [apply elem_of_app; right; by apply list_elem_of_singleton|].
      by apply invoice_booking_key_spec.
    + apply exists_row_spec in Hex as (r & Hr & Hk).
      exists (InvoiceRepo.updated now a r). split.
      * apply elem_of_update. exists r. by rewrite Hk.
      * apply invoice_booking_key_spec. by apply version_key_spec in Hk as (_ & ? & _).
Qed.

Section Theorems.
Context {env : Env}.

(** ** What attaching lines keeps *)
Definition same_head (a a' : Invoice.InvoiceAggregate) : Prop :=
  Invoice.ID a' = Invoice.ID a ∧ Invoice.TenantID a' = Invoice.TenantID a ∧
  Invoice.BookingID a' = Invoice.BookingID a ∧
  Invoice.PaymentStatus a' = Invoice.PaymentStatus a ∧ Invoice.Status a' = Invoice.Status a ∧
  Invoice.PaidAmount a' = Invoice.PaidAmount a ∧
  (InvoiceRepo.invoice_wf a → InvoiceRepo.invoice_wf a').
#[export] Instance same_head_preorder : PreOrder same_head.
Proof. split; unfold same_head; [done|]. intros a b c H1 H2. intuition congruence. Qed.

Lemma RecomputeTotals_booking a :
  Invoice.BookingID (Invoice.RecomputeTotals a) = Invoice.BookingID a.
Proof.
  unfold Invoice.RecomputeTotals. destruct (Invoice.LineItems a) as [|li l]; [done|].
  by destruct (Invoice.has_taxes (Invoice.line_sums (li :: l))).
Qed.

Lemma AddLineItem_head li a :
  Invoice.ItemInvoiceID li = Invoice.ID a → same_head a (Invoice.AddLineItem li a).
Proof.
  intros Hli. unfold same_head.
  assert (Hwf : InvoiceRepo.invoice_wf a → InvoiceRepo.invoice_wf (Invoice.AddLineItem li a))
    by (intros; by eapply (InvoiceRepo.invoice_op_wf (Invoice.OpAddLine li) 0)).
  assert (Hb : Invoice.BookingID (Invoice.AddLineItem li a) = Invoice.BookingID a)
    by (unfold Invoice.AddLineItem; by rewrite RecomputeTotals_booking).
  unfold Invoice.AddLineItem in Hb, Hwf |- *. set (x := Invoice.set_LineItems _ a) in *.
  destruct (Invoice.RecomputeTotals_frame x) as (H1 & H2 & H3 & H4 & H5 & _).
  split_and!; [exact H1|exact H2|exact Hb|exact H4|exact H3|exact H5|exact Hwf].
Qed.

Lemma attach_inputs_ok refs ls a w a' w' :
  attach_inputs refs ls a w = (Ok a', w') → w_db w' = w_db w ∧ same_head a a'.
Proof.
  revert a w. induction ls as [|l ls IH]; intros a w H; cbn in H.
  - injection H as <- <-. split; [done|reflexivity].
  - destruct (has_ref _ _); [by apply IH|].
    apply bind_ok_inv in H as (id & w1 & Hid & H). injection Hid as <- <-.
    apply IH in H as [Hd Hh]. split; [done|]. etrans; [|exact Hh]. by apply AddLineItem_head.
Qed.

Lemma attachLineItems_ok ls a w a' w' :
  attachLineItems ls a w = (Ok a', w') → w_db w' = w_db w ∧ same_head a a'.
Proof.
  unfold attachLineItems. intros H. apply bind_ok_inv in H as (a1 & w1 & Hf & H).
  apply attach_inputs_ok in H as [Hd Hh]. rewrite Hd.
  destruct (has_freight a).
  - injection Hf as <- <-. done.
  - apply bind_ok_inv in Hf as (id & w2 & Hid & Hf). injection Hid as <- <-.
    injection Hf as <- <-. split; [done|]. etrans; [|exact Hh]. by apply AddLineItem_head.
Qed.

(** ** Generation *)
Definition key_of (cmd : GenerateInvoiceCommand) : InvoiceRepo.Row → bool :=
  if is_empty (gi_BookingID cmd)
  then InvoiceRepo.trip_key (default ""%string (gi_TripID cmd)) (gi_TenantID cmd)
  else InvoiceRepo.booking_key (gi_BookingID cmd) (gi_TenantID cmd).

Definition settled (a : Invoice.InvoiceAggregate) : bool :=
  bool_decide (Invoice.PaymentStatus a = Invoice.PaymentStatusPaid) ||
  bool_decide (Invoice.PaymentStatus a = Invoice.PaymentStatusPartiallyPaid).

(** The invoice of a row. *)
Definition invoice_of (d : DB) (r : InvoiceRepo.Row) : Invoice.InvoiceAggregate :=
  InvoiceRepo.load r (InvoiceRepo.items_of d (InvoiceRow.ID r)).

Lemma find_existing_ok cmd w r w' :
  find_existing cmd w = (Ok r, w') →
  w_db w' = w_db w ∧
  match r with
  | Ok a => ∃ row, select_one (key_of cmd) (invoices (w_db w)) = Some row ∧
                   a = invoice_of (w_db w) row
  | Fail e => is_no_rows e = true → select_one (key_of cmd) (invoices (w_db w)) = None
  end.
Proof.
  unfold find_existing, key_of, InvoiceRepo.FindByTripID, InvoiceRepo.FindByBookingID.
  intros H. set (p := if is_empty _ then _ else _ : InvoiceRepo.Row → bool).
  assert (E : SM_try (InvoiceRepo.findInvoiceBySQL p) w = (Ok r, w'))
    by (subst p; by destruct (is_empty _)). clear H. revert E.
  pose proof (InvoiceRepo.invoice_Find_same p w) as Hsame. unfold SM_try.
  destruct (InvoiceRepo.findInvoiceBySQL p w) as [r0 w0] eqn:Ef. intros E. injection E as <- <-.
  split; [by symmetry|]. destruct r0 as [a|e].
  - apply InvoiceRepo.invoice_Find_ok in Ef as (_ & _ & row & Hr & Ha). by exists row.
  - intros He. by apply (InvoiceRepo.Find_no_rows _ _ _ _ Ef He).
Qed.

(** The three outcomes of a successful generation. *)
Inductive generated (cmd : GenerateInvoiceCommand) (w w' : World) : string → bool → Prop :=
| gen_existing row :
    select_one (key_of cmd) (invoices (w_db w)) = Some row →
    settled (invoice_of (w_db w) row) = true ∨ gi_LineItems cmd = [] →
    w_db w' = w_db w → generated cmd w w' (InvoiceRow.ID row) false
| gen_extended row a1 a2 w1 :
    select_one (key_of cmd) (invoices (w_db w)) = Some row →
    settled (invoice_of (w_db w) row) = false → gi_LineItems cmd ≠ [] →
    same_head (invoice_of (w_db w) row) a1 → w_db w1 = w_db w →
    InvoiceRepo.Save a1 w1 = (Ok a2, w') → generated cmd w w' (InvoiceRow.ID row) true
| gen_new a1 a2 w1 att :
    select_one (key_of cmd) (invoices (w_db w)) = None →
    InvoiceRepo.invoice_wf a1 → w_db w1 = w_db w →
    Invoice.BookingID a1 = gi_BookingID cmd → Invoice.TenantID a1 = gi_TenantID cmd →
    InvoiceRepo.Save a1 w1 = (Ok a2, w') → generated cmd w w' (Invoice.ID a1) att.

Lemma price_of_same cmd : preserves (on_db eq) (price_of cmd).
Proof.
  unfold price_of, resolveBookingPricing, GetCompanySettings, BookingRepo.GetBookingByID.
  preserve.
Qed.

Lemma Save_id a w a' w' : InvoiceRepo.Save a w = (Ok a', w') → Invoice.ID a' = Invoice.ID a.
Proof. intros H. by apply InvoiceRepo.invoice_Save_inv in H as (? & ? & _ & _ & ? & _). Qed.

Lemma new_invoice_wf id t n b c tr s x di to now :
  InvoiceRepo.invoice_wf
    (Invoice.NewInvoiceAggregate id t n b c tr s x di to Invoice.PaymentStatusPending now).
Proof. unfold InvoiceRepo.invoice_wf. split_and!; [done..|]. constructor. Qed.

Lemma create_new_ok cmd w id att w' :
  create_new cmd w = (Ok (id, att), w') →
  select_one (key_of cmd) (invoices (w_db w)) = None → generated cmd w w' id att.
Proof.
  unfold create_new. intros H Hnone. apply bind_ok_inv in H as (p & w1 & Hp & H).
  pose proof (price_of_same cmd w) as Hd1. rewrite Hp in Hd1. cbn in Hd1. unfold on_db in Hd1.
  apply bind_ok_inv in H as (nid & w2 & Hi & H). injection Hi as <- <-.
  apply bind_ok_inv in H as (num & w3 & Hn & H).
  pose proof (GenerateDisplayID_same "INV" (tick_ids w1)) as Hd3. rewrite Hn in Hd3. cbn in Hd3.
  apply bind_ok_inv in H as (now & w4 & Hw & H). injection Hw as <- <-.
  apply bind_ok_inv in H as (a1 & w5 & Ha & H). apply bind_ok_inv in H as (a2 & w6 & Hs & H).
  injection H as <- _ <-. rewrite (Save_id _ _ _ _ Hs).
  set (a0 := Invoice.NewInvoiceAggregate _ _ _ _ _ _ _ _ _ _ _ _) in *.
  assert (Hh : w_db w5 = w_db w3 ∧ same_head a0 a1).
  { destruct (gi_LineItems cmd) as [|l ls].
    - injection Ha as <- <-. split; [done|reflexivity].
    - apply attachLineItems_ok in Ha as [Hd Hh]. by rewrite Hd. }
  destruct Hh as [Hd5 (H1 & H2 & H3 & _ & _ & _ & Hwf)]. unfold on_db in Hd3. cbn in Hd3.
  eapply (gen_new _ _ _ a1 a2 w5); [done|apply Hwf, new_invoice_wf|congruence|exact H3|exact H2|exact Hs].
Qed.

Lemma GenerateInTx_ok cmd w id att w' :
  GenerateInTx cmd w = (Ok (id, att), w') → generated cmd w w' id att.
Proof.
  unfold GenerateInTx. destruct (_ && _); [intros H; discriminate H|]. intros H.
  apply bind_ok_inv in H as (r & w1 & Hf & H). apply find_existing_ok in Hf as [Hd Hf].
  destruct r as [a|e].
  - destruct Hf as (row & Hr & ->).
    pose proof (InvoiceRepo.load_frame row (InvoiceRepo.items_of (w_db w) (InvoiceRow.ID row)))
      as (Hid & _). fold (invoice_of (w_db w) row) in Hid.
    unfold extend_existing in H. fold (settled (invoice_of (w_db w) row)) in H.
    destruct (settled _) eqn:Hset.
    { injection H as <- <- <-. rewrite Hid. eapply gen_existing; eauto. }
    destruct (gi_LineItems cmd) as [|l ls] eqn:El.
    { injection H as <- <- <-. rewrite Hid. eapply gen_existing; eauto. }
    apply bind_ok_inv in H as (a1 & w2 & Ha & H). apply bind_ok_inv in H as (a2 & w3 & Hs & H).
    injection H as <- <- <-. rewrite (Save_id _ _ _ _ Hs).
    apply attachLineItems_ok in Ha as [Hd2 Hh]. pose proof Hh as (-> & _). rewrite Hid.
    eapply (gen_extended _ _ _ row a1 a2 w2); [exact Hr|done|by rewrite El|exact Hh|congruence|exact Hs].
  - destruct (is_no_rows e) eqn:He; [|discriminate H].
    assert (Hn : select_one (key_of cmd) (invoices (w_db w1)) = None) by (rewrite Hd; auto).
    apply create_new_ok in H; [|done].
    destruct H as [row Hr _ _|row a1 a2 w2 Hr _ _ _ _ _|a1 a2 w2 att Hnn Hwf Hdw Hb Ht Hs];
      [by rewrite Hr in Hn..|].
    eapply (gen_new _ _ _ a1 a2 w2); eauto; congruence.
Qed.

(** Whatever it does, generation only ever saves an invoice whose booking
    has no other. *)
Lemma extended_free cmd w row a1 :
  one_per_booking (invoices (w_db w)) →
  select_one (key_of cmd) (invoices (w_db w)) = Some row →
  same_head (invoice_of (w_db w) row) a1 → booking_free a1 (invoices (w_db w)).
Proof.
  intros Hone Hr (H1 & H2 & H3 & _) r Hin Hb Hne Ht. apply select_one_Some in Hr as [Hin' _].
  destruct (InvoiceRepo.load_frame row (InvoiceRepo.items_of (w_db w) (InvoiceRow.ID row)))
    as (E1 & E2 & _ & _ & _ & _ & _ & E8 & _).
  fold (invoice_of (w_db w) row) in E1, E2, E8.
  rewrite H1, E1. apply Hone; congruence.
Qed.

Lemma new_free cmd l a1 :
  select_one (key_of cmd) l = None →
  Invoice.BookingID a1 = gi_BookingID cmd → Invoice.TenantID a1 = gi_TenantID cmd →
  booking_free a1 l.
Proof.
  intros Hn Hb Ht r Hin Hb' Hne Ht'. exfalso. apply (select_one_None _ _ r) in Hn; [|done].
  unfold key_of, is_empty in Hn. rewrite <- Hb in Hn.
  destruct (String.eqb_spec (Invoice.BookingID a1) ""); [done|].
  rewrite <- Ht, (proj2 (invoice_booking_key_spec _ _ _)) in Hn; [done|by split].
Qed.

Lemma generate_invariant cmd w id w' :
  one_per_booking (invoices (w_db w)) → GenerateInvoiceExecute cmd w = (Ok id, w') →
  one_per_booking (invoices (w_db w')) ∧
  (gi_BookingID cmd ≠ ""%string →
   ∃ r, select_one (key_of cmd) (invoices (w_db w')) = Some r ∧ InvoiceRow.ID r = id) ∧
  (gi_LineItems cmd = [] →
   (∃ r, select_one (key_of cmd) (invoices (w_db w)) = Some r) → w_db w' = w_db w).
Proof.
  intros Hone H. apply UoWExecute_ok in H as (w1 & H & -> & _).
  apply bind_ok_inv in H as ([id' att] & w2 & H & Hret). injection Hret as Hid <-. cbn in Hid. subst id'.
  apply GenerateInTx_ok in H. set (w0 := tick_stmts w) in *.
  change (w_db w) with (w_db w0) in *.
  assert (Hkey : ∀ a, Invoice.BookingID a = gi_BookingID cmd → Invoice.TenantID a = gi_TenantID cmd →
    gi_BookingID cmd ≠ ""%string →
    key_of cmd = InvoiceRepo.booking_key (Invoice.BookingID a) (Invoice.TenantID a)).
  { intros a -> -> Hne. unfold key_of, is_empty. by destruct (String.eqb_spec (gi_BookingID cmd) ""). }
  destruct H as [row Hr Hc Hd|row a1 a2 w3 Hr Hs Hl Hh Hd Hsave|a1 a2 w3 att Hn Hwf Hd Hb Ht Hsave].
  - rewrite Hd. split_and!; [done| |done]. intros _. by exists row.
  - pose proof (extended_free _ _ _ _ Hone Hr Hh) as Hf.
    apply InvoiceRepo.invoice_Save_inv in Hsave as (l' & rows & Hs' & _ & _ & _ & Hd').
    rewrite Hd in Hs'. replace (invoices (w_db w2)) with l' by (by rewrite Hd').
    split_and!; [by eapply save_one_per_booking| |done]. intros Hne.
    destruct Hh as (Hi & Ht & Hb & _). apply select_one_Some in Hr as [_ Hk].
    destruct (InvoiceRepo.load_frame row (InvoiceRepo.items_of (w_db w0) (InvoiceRow.ID row)))
      as (E1 & E2 & _ & _ & _ & _ & _ & E8 & _).
    fold (invoice_of (w_db w0) row) in E1, E2, E8. unfold key_of, is_empty in Hk.
    destruct (String.eqb_spec (gi_BookingID cmd) ""); [done|].
    apply invoice_booking_key_spec in Hk as [Hkb Hkt].
    rewrite (Hkey a1) by congruence. rewrite <- E1, <- Hi.
    eapply save_booking_found; [done..|congruence].
  - pose proof (new_free _ _ _ Hn Hb Ht) as Hf.
    apply InvoiceRepo.invoice_Save_inv in Hsave as (l' & rows & Hs' & _ & _ & _ & Hd').
    rewrite Hd in Hs'. replace (invoices (w_db w2)) with l' by (by rewrite Hd').
    split_and!; [by eapply save_one_per_booking| |by rewrite Hn; intros _ [? ?]]. intros Hne.
    rewrite (Hkey a1) by done. eapply save_booking_found; [done..|congruence].
Qed.

(** generating the invoice of a booking again, with whatever amounts and
    lines, returns the invoice generated first; without lines to attach the
    database is unchanged. *)
Theorem generate_once cmd cmd' w id w1 id' w2 :
  one_per_booking (invoices (w_db w)) →
  gi_BookingID cmd ≠ ""%string → gi_BookingID cmd' = gi_BookingID cmd →
  gi_TenantID cmd' = gi_TenantID cmd →
  GenerateInvoiceExecute cmd w = (Ok id, w1) →
  GenerateInvoiceExecute cmd' w1 = (Ok id', w2) →
  id' = id ∧ (gi_LineItems cmd' = [] → w_db w2 = w_db w1).
Proof.
  intros Hone Hne Hb Ht H1 H2.
  destruct (generate_invariant _ _ _ _ Hone H1) as (Hone1 & Hf1 & _).
  destruct (Hf1 Hne) as (r & Hr & Hid).
  assert (Hk : key_of cmd' = key_of cmd).
  { unfold key_of. rewrite Hb, Ht. unfold is_empty. by destruct (String.eqb_spec (gi_BookingID cmd) ""). }
  rewrite <- Hk in Hr.
  pose proof (generate_invariant _ _ _ _ Hone1 H2) as (_ & Hf2 & Hd).
  split; [|intros Hl; apply Hd; eauto].
  apply UoWExecute_ok in H2 as (w3 & H2 & _ & _).
  apply bind_ok_inv in H2 as ([id2 att] & w4 & H2 & Hret). injection Hret as Hid2 _. cbn in Hid2.
  apply GenerateInTx_ok in H2. subst id2.
  destruct H2 as [row Hr2 _ _|row a1 a2 w5 Hr2 _ _ _ _ _|a1 a2 w5 att Hn _ _ _ _ _];
    cbn in *; congruence.
Qed.

(** ** Client amounts *)
Definition with_amounts (s x di to : float64) (cmd : GenerateInvoiceCommand)
    : GenerateInvoiceCommand :=
  mkGenerate (gi_TenantID cmd) (gi_BookingID cmd) (gi_CustomerID cmd) (gi_TripID cmd) s x di to
    (gi_LineItems cmd).

Lemma price_of_booking cmd b w :
  (∀ n, stmt_fault n = None) →
  select_one (λ r, BookingRepo.booking_key (gi_BookingID cmd) (gi_TenantID cmd) r &&
                   BookingRepo.joined (w_db w) r) (bookings (w_db w)) = Some b →
  ∃ settings w', price_of cmd w = (Ok (derive (BookingRow.Price b) settings), w').
Proof.
  intros Hf Hb. unfold price_of, resolveBookingPricing, BookingRepo.GetBookingByID,
    GetCompanySettings, query_row, stmt. cbv [mbind SM_mbind SM_bind SM_try].
  rewrite !Hf, Hb. cbn [w_stmts set_w_db tick_stmts]. rewrite !Hf. cbn.
  destruct (company_settings _); cbn; by do 2 eexists.
Qed.

(** the amounts a client sends are ignored for a booking that is there:
    two requests that differ in them alone do the same thing, and a new
    invoice is priced from the booking. *)
Theorem generate_ignores_client_amounts cmd s x di to b w :
  (∀ n, stmt_fault n = None) →
  select_one (λ r, BookingRepo.booking_key (gi_BookingID cmd) (gi_TenantID cmd) r &&
                   BookingRepo.joined (w_db w) r) (bookings (w_db w)) = Some b →
  GenerateInvoiceExecute (with_amounts s x di to cmd) w = GenerateInvoiceExecute cmd w.
Proof.
  intros Hf Hb.
  assert (Hnew : ∀ w1, w_db w1 = w_db w →
            create_new (with_amounts s x di to cmd) w1 = create_new cmd w1).
  { intros w1 Hd. rewrite <- Hd in Hb. unfold create_new.
    assert (Hp : price_of (with_amounts s x di to cmd) w1 = price_of cmd w1).
    { unfold price_of, resolveBookingPricing, BookingRepo.GetBookingByID, query_row, stmt.
      cbv [mbind SM_mbind SM_bind SM_try]. cbn [with_amounts gi_BookingID gi_TenantID].
      rewrite Hf, Hb. by destruct (GetCompanySettings _). }
    cbv [mbind SM_mbind SM_bind]. rewrite Hp. by destruct (price_of cmd w1) as [[p|e] w2]. }
  unfold GenerateInvoiceExecute, UoWExecute, WithTransaction. rewrite Hf.
  assert (E : GenerateInTx (with_amounts s x di to cmd) (tick_stmts w) = GenerateInTx cmd (tick_stmts w)).
  { unfold GenerateInTx. cbn [with_amounts gi_BookingID gi_TripID].
    destruct (is_empty (gi_BookingID cmd) && bool_decide (gi_TripID cmd = None)); [done|].
    cbv [mbind SM_mbind SM_bind].
    change (find_existing (with_amounts s x di to cmd)) with (find_existing cmd).
    destruct (find_existing cmd (tick_stmts w)) as [[r|e] w1] eqn:Ee; [|done].
    apply find_existing_ok in Ee as [Hd _]. destruct r as [a|e]; [done|].
    destruct (is_no_rows e); [|done]. by apply Hnew. }
  cbv [mbind SM_mbind SM_bind]. by rewrite E.
Qed.

(** ** Changing a stored invoice *)
Lemma find_invoice_ok nf id t w a w' :
  find_invoice nf id t w = (Ok a, w') →
  w_db w' = w_db w ∧ InvoiceRepo.stored_invoice (w_db w) id t = Some a.
Proof.
  intros H. apply bind_ok_inv in H as (r & w1 & Hf & H). unfold SM_try in Hf.
  destruct (InvoiceRepo.Find id t w) as [r0 w0] eqn:E. injection Hf as <- <-.
  destruct r0 as [a0|e]; [|by destruct (is_no_rows e)]. injection H as <- <-.
  by apply InvoiceRepo.Find_stored.
Qed.

Lemma stored_invoice_row d id t a :
  InvoiceRepo.stored_invoice d id t = Some a →
  ∃ r, r ∈ invoices d ∧ InvoiceRow.ID r = id ∧ InvoiceRow.TenantID r = t ∧
       InvoiceRow.BookingID r = Invoice.BookingID a ∧ InvoiceRow.Version r = Invoice.Version a.
Proof.
  unfold InvoiceRepo.stored_invoice. intros (r & Hr & ->)%fmap_Some_1. exists r.
  apply select_one_Some in Hr as [Hin [? ?]%InvoiceRepo.invoice_key_spec].
  destruct (InvoiceRepo.load_frame r (InvoiceRepo.items_of d (InvoiceRow.ID r)))
    as (_ & _ & E3 & _ & _ & _ & _ & E8 & _). split_and!; congruence.
Qed.

Lemma stored_free d id t a a1 :
  one_per_booking (invoices d) → InvoiceRepo.stored_invoice d id t = Some a →
  Invoice.ID a1 = id → Invoice.TenantID a1 = t → Invoice.BookingID a1 = Invoice.BookingID a →
  booking_free a1 (invoices d).
Proof.
  intros Hone Hst Hi Ht Hb r Hin Hbr Hne Htr.
  destruct (stored_invoice_row _ _ _ _ Hst) as (r0 & Hin0 & H1 & H2 & H3 & _).
  rewrite Hi, <- H1. apply Hone; congruence.
Qed.


(** ** Voiding *)
Lemma Void_frame now a a' :
  Invoice.Void now a = Ok a' →
  Invoice.ID a' = Invoice.ID a ∧ Invoice.TenantID a' = Invoice.TenantID a ∧
  Invoice.BookingID a' = Invoice.BookingID a ∧ Invoice.Status a' = Invoice.InvoiceStatusCancelled ∧
  Invoice.PaymentStatus a' = Invoice.PaymentStatus a.
Proof. intros H. unfold Invoice.Void in H. repeat case_decide; try discriminate H. by injection H as <-. Qed.

Lemma VoidInvoiceExecute_ok id t w w' :
  VoidInvoiceExecute id t w = (Ok tt, w') →
  ∃ a now a1 a2 w1 w2, InvoiceRepo.stored_invoice (w_db w) id t = Some a ∧
    Invoice.Void now a = Ok a1 ∧ w_db w1 = w_db w ∧
    InvoiceRepo.Save a1 w1 = (Ok a2, w2) ∧ w_db w' = w_db w2.
Proof.
  unfold VoidInvoiceExecute. destruct (is_empty id); [intros H; discriminate H|]. intros H.
  apply UoWExecute_ok in H as (w2 & H & Hd & _).
  apply bind_ok_inv in H as (a & wa & Hf & H). apply find_invoice_ok in Hf as [Hda Hst].
  apply bind_ok_inv in H as (now & wb & Hnow & H). injection Hnow as <- <-.
  apply bind_ok_inv in H as (a1 & wc & Hv & H). injection Hv as Hv <-.
  apply bind_ok_inv in H as (a2 & wd & Hs & H). injection H as <-.
  exists a, (clock_now (w_clock wa)), a1, a2, (tick_clock wa), wd. split_and!; try done.
  by destruct (Invoice.Void _ a); [injection Hv as ->|].
Qed.

(** What a stored invoice is after an operation on it was saved. *)
Lemma stored_changed id t a a1 w1 a2 w2 d :
  InvoiceRepo.invoices_pk d → InvoiceRepo.stored_invoice d id t = Some a →
  Invoice.ID a1 = id → Invoice.TenantID a1 = t → InvoiceRepo.invoice_wf a1 →
  w_db w1 = d → InvoiceRepo.Save a1 w1 = (Ok a2, w2) →
  Invoice.Version a1 = Invoice.Version a ∧
  ∃ now, InvoiceRepo.stored_invoice (w_db w2) id t = Some (InvoiceRepo.saved_invoice now a a1).
Proof.
  intros Hpk Hst Hi Ht Hwf <- Hs. subst id t.
  by destruct (InvoiceRepo.invoice_Save_ok a1 a w1 a2 w2 Hpk Hwf Hst Hs) as (? & _ & _ & ? & _).
Qed.

Lemma saved_invoice_fields now a0 a :
  InvoiceRepo.invoice_wf a →
  let b := InvoiceRepo.saved_invoice now a0 a in
  Invoice.Status b = Invoice.Status a ∧ Invoice.PaymentStatus b = Invoice.PaymentStatus a ∧
  Invoice.PaidAmount b = Invoice.PaidAmount a ∧ Invoice.BookingID b = Invoice.BookingID a ∧
  Invoice.LineItems b = Invoice.LineItems a ∧ Invoice.Version b = Invoice.Version a0 + 1.
Proof.
  intros (Hp & Hs & Hn & _) b. unfold b, InvoiceRepo.saved_invoice.
  set (r := InvoiceRepo.updated now a (InvoiceRepo.row_of a0)).
  destruct (InvoiceRepo.load_frame r (Invoice.LineItems a))
    as (_ & _ & E3 & _ & E5 & E6 & _ & E8 & E9 & E10 & _).
  rewrite E3, E5, E6, E8, E9, E10. cbn. rewrite Hp. unfold is_empty.
  destruct (String.eqb_spec (Invoice.invoice_status_string (Invoice.Status a)) ""); [done|].
  by rewrite Hs.
Qed.

(** a voided invoice still answers for its booking: generating again
    returns the cancelled invoice and writes nothing, so the booking can
    never be invoiced again. *)
Theorem void_blocks_regeneration id t a w w1 cmd id' w2 :
  InvoiceRepo.invoices_pk (w_db w) → one_per_booking (invoices (w_db w)) →
  InvoiceRepo.stored_invoice (w_db w) id t = Some a → Invoice.BookingID a ≠ ""%string →
  VoidInvoiceExecute id t w = (Ok tt, w1) →
  gi_BookingID cmd = Invoice.BookingID a → gi_TenantID cmd = t → gi_LineItems cmd = [] →
  GenerateInvoiceExecute cmd w1 = (Ok id', w2) →
  id' = id ∧ w_db w2 = w_db w1 ∧
  ∃ b, InvoiceRepo.stored_invoice (w_db w2) id t = Some b ∧
       Invoice.Status b = Invoice.InvoiceStatusCancelled.
Proof.
  intros Hpk Hone Hst Hne Hvoid Hcb Hct Hcl Hgen.
  apply VoidInvoiceExecute_ok in Hvoid as (a' & now & a1 & a2 & wa & wb & Hst' & Hv & Hda & Hs & Hdb).
  rewrite Hst in Hst'. injection Hst' as <-.
  destruct (Void_frame _ _ _ Hv) as (H1 & H2 & H3 & H4 & _).
  destruct (InvoiceRepo.stored_invoice_wf _ _ _ _ Hst) as (Hwf & Hid & Ht & _).
  assert (Hwf1 : InvoiceRepo.invoice_wf a1)
    by (by eapply (InvoiceRepo.invoice_op_wf Invoice.OpVoid now)).
  destruct (stored_changed id t a a1 wa a2 wb (w_db w) Hpk Hst) as (_ & now' & Hst2); try congruence.
  destruct (saved_invoice_fields now' a a1 Hwf1) as (S1 & _).
  assert (Hfree : booking_free a1 (invoices (w_db w)))
    by (apply (stored_free (w_db w) id t a); first [done|congruence]).
  pose proof (InvoiceRepo.invoice_Save_inv _ _ _ _ Hs) as (l' & rows & Hsr & _ & _ & _ & Hd').
  rewrite Hda in Hsr.
  assert (Hl' : invoices (w_db w1) = l') by (by rewrite Hdb, Hd').
  pose proof (save_one_per_booking _ _ _ Hsr Hfree Hone) as Hone1. rewrite <- Hl' in Hone1.
  destruct (save_booking_found _ _ _ Hsr Hfree) as (r & Hr & Hri); [congruence|].
  rewrite <- Hl', H3, H2, Ht, <- Hcb, <- Hct in Hr.
  assert (Hk : key_of cmd = InvoiceRepo.booking_key (gi_BookingID cmd) (gi_TenantID cmd)).
  { unfold key_of, is_empty. destruct (String.eqb_spec (gi_BookingID cmd) ""); [congruence|done]. }
  rewrite <- Hk in Hr.
  destruct (generate_invariant _ _ _ _ Hone1 Hgen) as (_ & Hf & Hd). specialize (Hd Hcl).
  rewrite Hd by eauto. destruct Hf as (r' & Hr' & <-); [congruence|].
  rewrite Hd in Hr' by eauto. split_and!; [congruence|done|].
  eexists. rewrite Hdb. split; [exact Hst2|]. by rewrite S1.
Qed.
End Theorems.
(** ** Concrete runs *)
Definition demo_generate (total : Z) : GenerateInvoiceCommand :=
  mkGenerate "acme" "b1" "c1" None (f64_of_Z total) f0 f0 (f64_of_Z total) [].
Definition generated_w : World :=
  snd (GenerateInvoiceExecute (env := demo_env) (demo_generate 1000) (world demo_db)).
Definition regenerated_w : World :=
  snd (GenerateInvoiceExecute (env := demo_env) (demo_generate 7) generated_w).
Definition demo_generated : Invoice.InvoiceAggregate :=
  default Invoice.demo_invoice (InvoiceRepo.stored_invoice (w_db generated_w) "id-0" "acme").
Definition voided_w : World := snd (VoidInvoiceExecute (env := demo_env) "id-0" "acme" generated_w).
Definition blocked_w : World :=
  snd (GenerateInvoiceExecute (env := demo_env) (demo_generate 1000) voided_w).

Lemma one_per_booking_short l : Nat.leb (List.length l) 1 = true → one_per_booking l.
Proof.
  intros Hl r1 r2. destruct l as [|r [|r' l]]; [|rewrite !list_elem_of_singleton|done].
  - by intros ?%not_elem_of_nil.
  - by intros -> ->.
Qed.

Lemma generate_once_witness :
  "id-0"%string = "id-0"%string ∧ (gi_LineItems (demo_generate 7) = [] → w_db regenerated_w = w_db generated_w).
Proof.
  apply (generate_once (env := demo_env) (demo_generate 1000) (demo_generate 7) (world demo_db)
           "id-0" generated_w "id-0" regenerated_w).
  - intros r1 r2 []%not_elem_of_nil.
  - discriminate.
  - reflexivity.
  - reflexivity.
  - vm_compute. reflexivity.
  - vm_compute. reflexivity.
Defined.

Lemma generate_ignores_client_amounts_witness :
  let env := demo_env in
  GenerateInvoiceExecute (with_amounts f1 f1 f0 f1 (demo_generate 1000)) (world demo_db)
  = GenerateInvoiceExecute (demo_generate 1000) (world demo_db).
Proof.
  intros env.
  apply (generate_ignores_client_amounts (demo_generate 1000) f1 f1 f0 f1 demo_booking (world demo_db));
    [intros n; reflexivity|vm_compute; reflexivity].
Defined.

Lemma void_blocks_regeneration_witness :
  "id-0"%string = "id-0"%string ∧ w_db blocked_w = w_db voided_w ∧
  ∃ b, InvoiceRepo.stored_invoice (w_db blocked_w) "id-0" "acme" = Some b ∧
       Invoice.Status b = Invoice.InvoiceStatusCancelled.
Proof.
  apply (void_blocks_regeneration (env := demo_env) "id-0" "acme" demo_generated generated_w voided_w
           (demo_generate 1000) "id-0" blocked_w).
  - vm_compute. apply NoDup_singleton.
  - apply one_per_booking_short. vm_compute. reflexivity.
  - vm_compute. reflexivity.
  - vm_compute. discriminate.
  - vm_compute. reflexivity.
  - vm_compute. reflexivity.
  - reflexivity.
  - reflexivity.
  - vm_compute. reflexivity.
Defined.
End InvoiceApp.
