(* ===== verification/PaymentUseCases.v ===== *)
(** * The payment repository and use cases

    [internal/payment/infrastructure/persistence/sql/payment_repository.go],
    [internal/payment/application/record_payment.go] and
    [reverse_payment.go]: payments are immutable rows deduplicated by an
    idempotency key; recording or reversing one moves the invoice's paid
    amount in the same transaction. *)
From stdpp Require Import base decidable list strings option relations.
From Stdlib Require Import ZArith Lia String.
From S2P Require Import Prelude GoFloat Shared Events GoTime InvoiceAggregate Database.
From S2P Require Import Outbox Repository InvoiceRepository InvoiceUseCases.
Open Scope Z_scope.

Module PaymentRepo.

Abbreviation Row := PaymentRow.Payment.

(** [converters.ToDomain]: rebuilt by the constructor, so with a fresh
    received event. *)
Definition ToDomain (p : Row) : Payment.PaymentAggregate :=
  Payment.NewPaymentAggregate (PaymentRow.ID p) (PaymentRow.TenantID p) (PaymentRow.InvoiceID p)
    (PaymentRow.PaymentDate p) (PaymentRow.Amount p) (PaymentRow.Method p)
    (PaymentRow.Reference p) (PaymentRow.Remarks p) (PaymentRow.CreatedAt p).

(** The client's reference when there is one, otherwise the invoice, the
    amount and the day. *)
Definition idempotencyKey (p : Payment.PaymentAggregate) : string :=
  let ref := match Payment.Reference p with Some r => TrimSpace r | None => ""%string end in
  if is_empty ref then
    ("inv:" +:+ Payment.InvoiceID p +:+ ":amt:" +:+
     FormatFloat2 (Money.MoneyToFloat (Money.FloatToMoney (Payment.Amount p) "INR")) +:+
     ":d:" +:+ FormatDate (Payment.PaymentDate p))%string
  else ("ref:" +:+ ref)%string.

Definition Contains (s sub : string) : bool :=
  match String.index 0 sub s with Some _ => true | None => false end.

Definition isIdempotencyConflict (e : error) : bool :=
  Contains (error_msg e) "UNIQUE constraint failed" && Contains (error_msg e) "idempotency_key".

Definition payment_key (id tenant : string) (r : Row) : bool :=
  String.eqb (PaymentRow.ID r) id && String.eqb (PaymentRow.TenantID r) tenant.
Definition idempotency_key (tenant key : string) (r : Row) : bool :=
  String.eqb (PaymentRow.TenantID r) tenant && bool_decide (PaymentRow.IdempotencyKey r = Some key).
Definition razorpay_key (tenant id : string) (r : Row) : bool :=
  String.eqb (PaymentRow.TenantID r) tenant && bool_decide (PaymentRow.RazorpayPaymentID r = Some id).
Definition webhook_key (tenant id : string) (r : Row) : bool :=
  String.eqb (PaymentRow.TenantID r) tenant && bool_decide (PaymentRow.WebhookEventID r = Some id).

Definition method_check (m : string) : bool :=
  bool_decide (m ∈ ["cash"; "upi"; "bank_transfer"; "cheque"; "razorpay"]%string).

(** The join of [GetPaymentByID] drops a payment whose invoice is missing. *)
Definition joined (d : DB) (r : Row) : bool :=
  exists_row (λ i, String.eqb (InvoiceRow.ID i) (PaymentRow.InvoiceID r)) (invoices d).

Definition inserted (now : Time) (p : Payment.PaymentAggregate) (key : option string) : Row :=
  PaymentRow.mkPaymentRow (Payment.ID p) (Payment.InvoiceID p) (Payment.PaymentDate p)
    (Payment.Amount p) (Payment.Method p) (Payment.Reference p) (Payment.Remarks p)
    (Payment.TenantID p) now now key None None None None.

Definition with_razorpay (orderID paymentID signature : string) (now : Time) (r : Row) : Row :=
  PaymentRow.mkPaymentRow (PaymentRow.ID r) (PaymentRow.InvoiceID r) (PaymentRow.PaymentDate r)
    (PaymentRow.Amount r) (PaymentRow.Method r) (PaymentRow.Reference r) (PaymentRow.Remarks r)
    (PaymentRow.TenantID r) (PaymentRow.CreatedAt r) now (PaymentRow.IdempotencyKey r)
    (Some orderID) (Some paymentID) (Some signature) (PaymentRow.WebhookEventID r).

Definition with_event (eventID : string) (now : Time) (r : Row) : Row :=
  PaymentRow.mkPaymentRow (PaymentRow.ID r) (PaymentRow.InvoiceID r) (PaymentRow.PaymentDate r)
    (PaymentRow.Amount r) (PaymentRow.Method r) (PaymentRow.Reference r) (PaymentRow.Remarks r)
    (PaymentRow.TenantID r) (PaymentRow.CreatedAt r) now (PaymentRow.IdempotencyKey r)
    (PaymentRow.RazorpayOrderID r) (PaymentRow.RazorpayPaymentID r)
    (PaymentRow.RazorpaySignature r) (Some eventID).

Section Repo.
Context {env : Env}.

Definition GetPaymentByID (id tenant : string) : M Row :=
  query_row (λ _ d, select_one (λ r, payment_key id tenant r && joined d r) (payments d)).

Definition findIDByIdempotencyKey (tenant key : string) : M string :=
  query_row (λ _ d, PaymentRow.ID <$> select_one (idempotency_key tenant key) (payments d)).

(** [INSERT INTO payments], with the constraints of the table. *)
Definition insert_row (p : Payment.PaymentAggregate) (key : option string) : M unit :=
  exec (λ now d,
    if exists_row (λ r, String.eqb (PaymentRow.ID r) (Payment.ID p)) (payments d)
    then (Fail (Err "UNIQUE constraint failed: payments.id"), d)
    else if match key with
            | Some k => exists_row (idempotency_key (Payment.TenantID p) k) (payments d)
            | None => false
            end
    then (Fail (Err "UNIQUE constraint failed: payments.tenant_id, payments.idempotency_key"), d)
    else if negb (method_check (Payment.Method p))
    then (Fail (Err "CHECK constraint failed: method"), d)
    else (Ok tt, set_payments (payments d ++ [inserted now p key]) d)).
Definition insertPayment (p : Payment.PaymentAggregate) (key : string) : M unit :=
  insert_row p (Some key).
Definition CreatePayment (p : Payment.PaymentAggregate) : M unit := insert_row p None.

(** The id found, unless the query failed or the id is empty. *)
Definition found_id (r : result string) : option string :=
  match r with Ok id => if is_empty id then None else Some id | Fail _ => None end.

(** [insertPayment], and a second look at the key when it lost a race:
    [Some id] is the existing payment. *)
Definition insert_or_existing (p : Payment.PaymentAggregate) (key : string) : M (option string) :=
  r ← SM_try (insertPayment p key);
  match r with
  | Ok _ => mret None
  | Fail e =>
      if isIdempotencyConflict e then
        again ← SM_try (findIDByIdempotencyKey (Payment.TenantID p) key);
        match found_id again with Some id => mret (Some id) | None => SM_fail e end
      else SM_fail e
  end.

Definition save_new (p : Payment.PaymentAggregate) (key : string) : M Payment.PaymentAggregate :=
  got ← SM_try (GetPaymentByID (Payment.ID p) (Payment.TenantID p));
  match got with
  | Ok _ => SM_fail (Err "updating payments is not allowed (immutable transaction records)")
  | Fail e =>
      if is_no_rows e then
        existing ← (if is_empty key then _ ← CreatePayment p; mret None
                    else insert_or_existing p key);
        match existing with
        | Some id => mret (Payment.set_ID id p)
        | None =>
            _ ← SaveEvents (Payment.ID p) "Payment" (Payment.events p);
            mret (Payment.ClearEvents p)
        end
      else SM_fail e
  end.

Definition Save (p : Payment.PaymentAggregate) : M Payment.PaymentAggregate :=
  let key := idempotencyKey p in
  if is_empty key then save_new p key
  else
    r ← SM_try (findIDByIdempotencyKey (Payment.TenantID p) key);
    match found_id r with
    | Some id => mret (Payment.set_ID id p)
    | None => save_new p key
    end.

Definition Find (id tenant : string) : M Payment.PaymentAggregate :=
  row ← GetPaymentByID id tenant; mret (ToDomain row).

Definition FindByReference (reference tenant : string) : M string :=
  if is_empty (TrimSpace reference) then SM_fail ErrNoRows
  else findIDByIdempotencyKey tenant ("ref:" +:+ reference)%string.

(** Two updates of one row, each guarded by its unique index. *)
Definition update_unique (mine taken : Row → bool) (index : string) (f : Time → Row → Row)
    : M unit :=
  exec (λ now d,
    if exists_row mine (payments d) && exists_row (λ r, negb (mine r) && taken r) (payments d)
    then (Fail (Err ("UNIQUE constraint failed: payments.tenant_id, payments." +:+ index)%string), d)
    else (Ok tt, set_payments (update_where mine (f now) (payments d)) d)).

Definition SetRazorpayFields (id tenant orderID paymentID signature : string) : M unit :=
  update_unique (payment_key id tenant) (razorpay_key tenant paymentID) "razorpay_payment_id"
    (with_razorpay orderID paymentID signature).

Definition SetWebhookEventID (id tenant eventID : string) : M unit :=
  update_unique (payment_key id tenant) (webhook_key tenant eventID) "webhook_event_id"
    (with_event eventID).

Definition ExistsRazorpayPayment (tenant paymentID : string) : M string :=
  query_row (λ _ d, PaymentRow.ID <$> select_one (razorpay_key tenant paymentID) (payments d)).
Definition ExistsWebhookEvent (tenant eventID : string) : M string :=
  query_row (λ _ d, PaymentRow.ID <$> select_one (webhook_key tenant eventID) (payments d)).
End Repo.
End PaymentRepo.

Module PaymentApp.
Import PaymentRepo.

Definition ErrInvoiceNotFound : error := Err "invoice not found".
Definition ErrPaymentExceedsBalance : error := Err "payment exceeds invoice outstanding balance".
Definition ErrPaymentNotFound : error := Err "payment not found".
Definition ErrMissingOriginalPayment : error := Err "original payment ID is required".
Definition ErrMissingReversalReason : error := Err "reversal reason is required".

Record RecordPaymentCommand := mkRecordPayment {
  rp_TenantID : string; rp_InvoiceID : string; rp_PaymentDate : Time; rp_Amount : float64;
  rp_Method : string; rp_Reference : option string; rp_Remarks : option string;
  rp_RazorpayOrderID : string; rp_RazorpayPaymentID : string; rp_RazorpaySignature : string }.

Record ReversePaymentCommand := mkReversePayment {
  rv_TenantID : string; rv_OriginalPayID : string; rv_Reason : string }.

Section UseCases.
Context {env : Env}.

(** [switch err.Error()]: an error with a sentinel's text becomes it. *)
Definition map_error (sentinels : list error) (e : error) : error :=
  match List.find (λ s, String.eqb (error_msg s) (error_msg e)) sentinels with
  | Some s => s
  | None => e
  end.
Definition with_errors {A} (sentinels : list error) (m : M A) : M A := λ w,
  match m w with
  | (Ok a, w') => (Ok a, w')
  | (Fail e, w') => (Fail (map_error sentinels e), w')
  end.

(** Find the invoice, move its paid amount, save it. *)
Definition pay_invoice (invoiceID tenant : string) (amount : float64) : M unit :=
  inv ← InvoiceApp.find_invoice ErrInvoiceNotFound invoiceID tenant;
  now ← Now;
  inv ← SM_lift (Invoice.ApplyPayment amount now inv);
  _ ← InvoiceRepo.Save inv;
  mret tt.

Definition RecordPaymentExecute (cmd : RecordPaymentCommand) : M string :=
  (when is_empty (rp_InvoiceID cmd) fail Err "invoice ID is required";
   when fleb (rp_Amount cmd) f0 fail Err "payment amount must be greater than zero";
   with_errors [ErrInvoiceNotFound; ErrPaymentExceedsBalance]
     (UoWExecute
        (_ ← pay_invoice (rp_InvoiceID cmd) (rp_TenantID cmd) (rp_Amount cmd);
         id ← GenerateUUID;
         now ← Now;
         p ← Save (Payment.NewPaymentAggregate id (rp_TenantID cmd) (rp_InvoiceID cmd)
                     (rp_PaymentDate cmd) (rp_Amount cmd) (rp_Method cmd) (rp_Reference cmd)
                     (rp_Remarks cmd) now);
         _ ← (if is_empty (rp_RazorpayPaymentID cmd) then mret tt
              else SetRazorpayFields (Payment.ID p) (rp_TenantID cmd) (rp_RazorpayOrderID cmd)
                     (rp_RazorpayPaymentID cmd) (rp_RazorpaySignature cmd));
         mret (Payment.ID p))))%go.

Definition find_payment (id tenant : string) : M Payment.PaymentAggregate :=
  r ← SM_try (Find id tenant);
  match r with
  | Ok p => mret p
  | Fail e => if is_no_rows e then SM_fail ErrPaymentNotFound else SM_fail e
  end.

(** The reversal already recorded for a reference, if any. *)
Definition existing_by_reference (reference tenant : string) : M string :=
  r ← SM_try (FindByReference reference tenant);
  match r with
  | Ok id => mret id
  | Fail e => if is_no_rows e then mret ""%string else SM_fail e
  end.

Definition reversal_reference (id : string) : string := ("REVERSAL:" +:+ id)%string.

Definition reverse (cmd : ReversePaymentCommand) (original : Payment.PaymentAggregate)
    : M string :=
  id ← GenerateUUID;
  date ← Now;
  now ← Now;
  let reversal := Payment.NewPaymentAggregate id (rv_TenantID cmd) (Payment.InvoiceID original)
    date (fneg (Payment.Amount original)) (Payment.Method original)
    (Some (reversal_reference (Payment.ID original))) (Some (rv_Reason cmd)) now in
  _ ← pay_invoice (Payment.InvoiceID original) (rv_TenantID cmd) (fneg (Payment.Amount original));
  p ← Save reversal;
  mret (Payment.ID p).

Definition ReversePaymentExecute (cmd : ReversePaymentCommand) : M string :=
  (when is_empty (rv_OriginalPayID cmd) fail ErrMissingOriginalPayment;
   when is_empty (rv_Reason cmd) fail ErrMissingReversalReason;
   with_errors [ErrPaymentNotFound; ErrInvoiceNotFound]
     (UoWExecute
        (original ← find_payment (rv_OriginalPayID cmd) (rv_TenantID cmd);
         existing ← existing_by_reference (reversal_reference (Payment.ID original))
                      (rv_TenantID cmd);
         if is_empty existing then reverse cmd original else mret existing)))%go.
End UseCases.

(** ** Payments are immutable *)

(** The columns of a payment row no statement rewrites. *)
Definition immutable (r : Row) :=
  (PaymentRow.ID r, PaymentRow.InvoiceID r, PaymentRow.PaymentDate r, PaymentRow.Amount r,
   PaymentRow.Method r, PaymentRow.Reference r, PaymentRow.Remarks r, PaymentRow.TenantID r,
   PaymentRow.CreatedAt r, PaymentRow.IdempotencyKey r).

Definition key_id (l : list Row) (tenant key : string) : option string :=
  PaymentRow.ID <$> select_one (idempotency_key tenant key) l.

Lemma key_id_immutable l l' t k :
  map immutable l = map immutable l' → key_id l t k = key_id l' t k.
Proof.
  unfold key_id. revert l'. induction l as [|r l IH]; intros [|r' l'] H; try done.
  cbn [map] in H. injection H as H1 H2 H3 H4 H5 H6 H7 H8 H9 H10 H. specialize (IH l' H).
  cbn. unfold idempotency_key at 1 3. rewrite H8, H10. destruct (_ && _); cbn; [congruence|exact IH].
Qed.

Lemma idempotencyKey_nonempty p : is_empty (idempotencyKey p) = false.
Proof. unfold idempotencyKey. cbv zeta. by case_match. Qed.

Lemma idempotency_key_spec t k r :
  idempotency_key t k r = true ↔ PaymentRow.TenantID r = t ∧ PaymentRow.IdempotencyKey r = Some k.
Proof. unfold idempotency_key. by rewrite andb_true_iff, String.eqb_eq, bool_decide_eq_true. Qed.

Section Theorems.
Context {env : Env}.

Lemma insert_row_ok p key w w' :
  insert_row p (Some key) w = (Ok tt, w') →
  (∀ r, r ∈ payments (w_db w) → PaymentRow.ID r ≠ Payment.ID p) ∧
  key_id (payments (w_db w)) (Payment.TenantID p) key = None ∧
  ∃ now, w_db w' = set_payments (payments (w_db w) ++ [inserted now p (Some key)]) (w_db w).
Proof.
  intros H. apply stmt_inv in H as (_ & _ & _ & H). cbv beta zeta in H.
  destruct (exists_row (λ r, String.eqb (PaymentRow.ID r) _) _) eqn:Hi; [discriminate H|].
  destruct (exists_row (idempotency_key _ _) _) eqn:Hk; [discriminate H|].
  destruct (method_check _); [|discriminate H]. injection H as H. split_and!; [| |by eexists].
  - intros r Hr Heq. apply (proj1 (exists_row_false _ _)) with (r := r) in Hi; [|done].
    by rewrite Heq, String.eqb_refl in Hi.
  - unfold key_id. apply exists_row_select in Hk. by rewrite Hk.
Qed.

Lemma found_id_ok t k w r w' :
  SM_try (findIDByIdempotencyKey t k) w = (Ok r, w') →
  w_db w' = w_db w ∧ ∀ id, found_id r = Some id →
    id ≠ ""%string ∧ key_id (payments (w_db w)) t k = Some id.
Proof.
  unfold SM_try. destruct (findIDByIdempotencyKey t k w) as [r0 w0] eqn:E.
  intros H. injection H as <- <-. apply query_row_inv in E as (Hd & _ & E). split; [done|].
  intros id Hid. destruct r0 as [id0|]; [|done]. cbn in Hid. unfold is_empty in Hid.
  destruct (String.eqb_spec id0 ""); [done|]. injection Hid as <-. done.
Qed.

(** What saving a payment did: nothing but find the existing one of its
    key, or insert it under a fresh id and key with its events. *)
Inductive saved_payment (p : Payment.PaymentAggregate) (d d' : DB) : string → Prop :=
| payment_existing id :
    id ≠ ""%string → key_id (payments d) (Payment.TenantID p) (idempotencyKey p) = Some id →
    d' = d → saved_payment p d d' id
| payment_inserted now rows :
    (∀ r, r ∈ payments d → PaymentRow.ID r ≠ Payment.ID p) →
    key_id (payments d) (Payment.TenantID p) (idempotencyKey p) = None →
    d' = set_outbox_events (outbox_events d ++ rows)
           (set_payments (payments d ++ [inserted now p (Some (idempotencyKey p))]) d) →
    Forall2 (outbox_row_of (Payment.ID p) "Payment") (Payment.events p) rows →
    saved_payment p d d' (Payment.ID p).

Lemma insert_or_existing_ok p w r w' :
  insert_or_existing p (idempotencyKey p) w = (Ok r, w') →
  match r with
  | Some id => saved_payment p (w_db w) (w_db w') id
  | None => (∀ r, r ∈ payments (w_db w) → PaymentRow.ID r ≠ Payment.ID p) ∧
            key_id (payments (w_db w)) (Payment.TenantID p) (idempotencyKey p) = None ∧
            ∃ now, w_db w' = set_payments
              (payments (w_db w) ++ [inserted now p (Some (idempotencyKey p))]) (w_db w)
  end.
Proof.
  intros H. apply bind_ok_inv in H as (i & w1 & Hi & H). unfold SM_try in Hi.
  unfold insertPayment in Hi.
  destruct (insert_row p (Some (idempotencyKey p)) w) as [r0 w0] eqn:E. injection Hi as <- <-.
  destruct r0 as [[]|e].
  - injection H as <- <-. by apply insert_row_ok.
  - destruct (isIdempotencyConflict e); [|discriminate H].
    apply stmt_inv in E as (_ & _ & _ & [Hd _]).
    apply bind_ok_inv in H as (again & w2 & Ha & H). apply found_id_ok in Ha as [Hd2 Ha].
    destruct (found_id again) as [id|]; [|discriminate H]. injection H as <- <-.
    destruct (Ha id eq_refl) as [Hne Hk]. rewrite Hd in Hk. apply payment_existing; congruence.
Qed.

Lemma payment_Save_ok p w p' w' :
  Save p w = (Ok p', w') → saved_payment p (w_db w) (w_db w') (Payment.ID p').
Proof.
  unfold Save. rewrite idempotencyKey_nonempty. intros H.
  apply bind_ok_inv in H as (r & w1 & Hr & H). apply found_id_ok in Hr as [Hd1 Hr].
  destruct (found_id r) as [id|].
  { injection H as <- <-. cbn. destruct (Hr id eq_refl). by apply payment_existing. }
  clear Hr. apply bind_ok_inv in H as (got & w2 & Hg & H). unfold SM_try in Hg.
  destruct (GetPaymentByID _ _ w1) as [g0 w0] eqn:Eg. injection Hg as <- <-.
  apply query_row_inv in Eg as (Hd2 & _ & _). rewrite <- Hd1, <- Hd2.
  destruct g0 as [row|e]; [discriminate H|]. destruct (is_no_rows e); [|discriminate H].
  rewrite idempotencyKey_nonempty in H.
  apply bind_ok_inv in H as (ex & w3 & Hex & H). apply insert_or_existing_ok in Hex.
  destruct ex as [id|].
  - injection H as <- <-. done.
  - destruct Hex as (Hf & Hn & now & Hd3).
    apply bind_ok_inv in H as ([] & w4 & He & H). injection H as <- <-.
    apply SaveEvents_ok in He as (rows & Hrows & _ & Hd4).
    change (Payment.ID (Payment.ClearEvents p)) with (Payment.ID p).
    eapply (payment_inserted _ _ _ now rows); [done|done| |done]. by rewrite Hd4, Hd3.
Qed.

(** ** The invoice's side *)

(** The invoice of the payment moved by [ApplyPayment], the others did
    not. *)
Definition paid_into (d d' : DB) (invoiceID tenant : string) (amount : float64) : Prop :=
  ∃ a now a1 dbnow,
    InvoiceRepo.stored_invoice d invoiceID tenant = Some a ∧
    Invoice.ApplyPayment amount now a = Ok a1 ∧
    InvoiceRepo.stored_invoice d' invoiceID tenant
      = Some (InvoiceRepo.saved_invoice dbnow a a1) ∧
    ∀ id t, ¬ (id = invoiceID ∧ t = tenant) →
      InvoiceRepo.stored_invoice d' id t = InvoiceRepo.stored_invoice d id t.

(** The table invariants of billing. *)
Record billing_inv (d : DB) : Prop := {
  inv_pk : InvoiceRepo.invoices_pk d;
  inv_booking : InvoiceApp.one_per_booking (invoices d);
  pay_pk : NoDup (map PaymentRow.ID (payments d));
  pay_keys : ∀ r1 r2 k, r1 ∈ payments d → r2 ∈ payments d →
    PaymentRow.IdempotencyKey r1 = Some k → PaymentRow.IdempotencyKey r2 = Some k →
    PaymentRow.TenantID r1 = PaymentRow.TenantID r2 → PaymentRow.ID r1 = PaymentRow.ID r2 }.

Lemma stored_invoice_ext d d' id t :
  invoices d' = invoices d → line_items d' = line_items d →
  InvoiceRepo.stored_invoice d' id t = InvoiceRepo.stored_invoice d id t.
Proof. unfold InvoiceRepo.stored_invoice, InvoiceRepo.items_of. by intros -> ->. Qed.

Lemma ApplyPayment_frame x now a a1 :
  Invoice.ApplyPayment x now a = Ok a1 →
  Invoice.ID a1 = Invoice.ID a ∧ Invoice.TenantID a1 = Invoice.TenantID a ∧
  Invoice.BookingID a1 = Invoice.BookingID a ∧
  (InvoiceRepo.invoice_wf a → InvoiceRepo.invoice_wf a1).
Proof.
  intros H. pose proof (Invoice.ApplyPayment_totals _ _ _ _ H)
    as (_ & _ & _ & _ & _ & _ & _ & _ & Hi & Ht & _ & Hb & _).
  split_and!; try done. intros Hwf.
  by eapply (InvoiceRepo.invoice_op_wf (Invoice.OpApplyPayment x) now).
Qed.

Lemma pay_invoice_ok id t x w w' :
  billing_inv (w_db w) → pay_invoice id t x w = (Ok tt, w') →
  paid_into (w_db w) (w_db w') id t x ∧ payments (w_db w') = payments (w_db w) ∧
  InvoiceRepo.invoices_pk (w_db w') ∧ InvoiceApp.one_per_booking (invoices (w_db w')).
Proof.
  intros Hinv H. apply bind_ok_inv in H as (a & wa & Hf & H).
  apply InvoiceApp.find_invoice_ok in Hf as [Hda Hst].
  apply bind_ok_inv in H as (now & wb & Hnow & H). injection Hnow as Hnow <-.
  apply bind_ok_inv in H as (a1 & wc & Hv & H). injection Hv as Hv <-.
  apply bind_ok_inv in H as (a2 & wd & Hs & H). injection H as <-.
  destruct (ApplyPayment_frame _ _ _ _ Hv) as (H1 & H2 & H3 & Hwf1).
  destruct (InvoiceRepo.stored_invoice_wf _ _ _ _ Hst) as (Hwf & Hid & Ht & _).
  specialize (Hwf1 Hwf). assert (Hda' : w_db (tick_clock wa) = w_db w) by done.
  assert (Hpk : InvoiceRepo.invoices_pk (w_db (tick_clock wa)))
    by (rewrite Hda'; apply Hinv).
  destruct (InvoiceRepo.stored_after_save _ _ _ _ Hpk Hwf1 Hs)
    as ((Hpk' & _) & _ & Hother & _ & Hpay).
  destruct (InvoiceApp.stored_changed id t a a1 (tick_clock wa) a2 wd (w_db w) (inv_pk _ Hinv) Hst)
    as (_ & now' & Hst2); try congruence.
  pose proof (InvoiceRepo.invoice_Save_inv _ _ _ _ Hs) as (l' & rows & Hsr & _ & _ & _ & Hd').
  rewrite Hda' in Hsr, Hother, Hpay. split_and!; [|done|done|].
  - exists a, now, a1, now'. split_and!; try done. intros id' t' Hne. apply Hother. congruence.
  - replace (invoices (w_db wd)) with l' by (by rewrite Hd').
    eapply InvoiceApp.save_one_per_booking; [exact Hsr| |apply Hinv].
    apply (InvoiceApp.stored_free (w_db w) id t a); try done; [apply Hinv|congruence..].
Qed.

Lemma saved_payment_inv p d d' id :
  billing_inv d → saved_payment p d d' id → billing_inv d'.
Proof.
  intros Hinv [? _ _ ->|now rows Hfresh Hnone -> _]; [done|].
  assert (Hno : ∀ r, r ∈ payments d → PaymentRow.TenantID r = Payment.TenantID p →
            PaymentRow.IdempotencyKey r ≠ Some (idempotencyKey p)).
  { intros r Hr Ht Hk. unfold key_id in Hnone.
    destruct (select_one _ _) eqn:E; [done|]. apply (select_one_None _ _ r) in E; [|done].
    by rewrite (proj2 (idempotency_key_spec _ _ _)) in E. }
  split; [apply Hinv..| |].
  - cbn. by apply NoDup_map_snoc; [apply Hinv|].
  - cbn [payments set_outbox_events set_payments].
    intros r1 r2 k [H1|H1]%elem_of_app [H2|H2]%elem_of_app K1 K2 Ht.
    + by eapply (pay_keys _ Hinv).
    + apply list_elem_of_singleton in H2 as ->. cbn in K2, Ht. destruct (Hno r1); congruence.
    + apply list_elem_of_singleton in H1 as ->. cbn in K1, Ht. destruct (Hno r2); congruence.
    + apply list_elem_of_singleton in H1 as ->. by apply list_elem_of_singleton in H2 as ->.
Qed.

(** ** The ledger's side *)

(** The ledger keeps every payment as it was, and has at most one more: the
    payment itself, under the id returned, unless its key was there. *)
Definition ledger (d d' : DB) (p : Payment.PaymentAggregate) (id : string) : Prop :=
  (id ≠ ""%string ∧ key_id (payments d) (Payment.TenantID p) (idempotencyKey p) = Some id ∧
   map immutable (payments d') = map immutable (payments d)) ∨
  (key_id (payments d) (Payment.TenantID p) (idempotencyKey p) = None ∧ id = Payment.ID p ∧
   ∃ now, map immutable (payments d')
          = map immutable (payments d ++ [inserted now p (Some (idempotencyKey p))])).

Lemma saved_payment_ledger p d d' id : saved_payment p d d' id → ledger d d' p id.
Proof.
  intros [? ? ? ->|now rows ? ? -> ?]; [left|right]; [done|]. split_and!; [done..|]. by exists now.
Qed.

(** The key is taken once the payment is in the ledger. *)
Lemma ledger_key d d' p id :
  ledger d d' p id → key_id (payments d') (Payment.TenantID p) (idempotencyKey p) = Some id.
Proof.
  intros [(_ & Hk & Him)|(Hn & -> & now & Him)].
  - by rewrite (key_id_immutable _ _ _ _ Him).
  - rewrite (key_id_immutable _ _ _ _ Him). unfold key_id in *. rewrite select_one_app.
    destruct (select_one (idempotency_key _ _) (payments d)); [done|]. cbn.
    unfold idempotency_key. cbn. by rewrite String.eqb_refl, bool_decide_true.
Qed.

Lemma SetRazorpayFields_ok id t o pid s w w' :
  SetRazorpayFields id t o pid s w = (Ok tt, w') →
  ∃ now, w_db w' = set_payments
    (update_where (payment_key id t) (with_razorpay o pid s now) (payments (w_db w))) (w_db w).
Proof.
  intros H. apply stmt_inv in H as (_ & _ & _ & H). cbv beta zeta in H.
  destruct (_ && _); [discriminate H|]. injection H as H. by eexists.
Qed.

Lemma ledger_fields d d1 p id (f : Time → Row → Row) now k :
  ledger d d1 p id → billing_inv d1 →
  (∀ r, immutable (f now r) = immutable r) →
  let d' := set_payments (update_where k (f now) (payments d1)) d1 in
  ledger d d' p id ∧ billing_inv d'.
Proof.
  intros Hl Hinv Hf d'.
  assert (Him : map immutable (payments d') = map immutable (payments d1))
    by (cbn; by apply map_update).
  split.
  - destruct Hl as [(? & ? & ?)|(? & ? & now' & ?)]; [left|right]; split_and!; try done; [congruence|].
    exists now'. congruence.
  - assert (Hr : ∀ r, immutable (f now r) = immutable r) by done.
    split; [apply Hinv..| |].
    + cbn. rewrite map_update; [apply Hinv|]. intros r. by specialize (Hr r) as [= ? _].
    + cbn [d' payments set_payments]. intros r1 r2 key H1 H2 K1 K2 Ht.
      apply elem_of_update in H1 as (x1 & H1 & E1), H2 as (x2 & H2 & E2).
      pose proof (Hr x1) as [= I1 _ _ _ _ _ _ T1 _ J1]. pose proof (Hr x2) as [= I2 _ _ _ _ _ _ T2 _ J2].
      assert (PaymentRow.ID x1 = PaymentRow.ID x2).
      { eapply (pay_keys _ Hinv x1 x2 key); try done.
        - destruct (k x1); congruence.
        - destruct (k x2); congruence.
        - destruct (k x1), (k x2); congruence. }
      destruct (k x1), (k x2); congruence.
Qed.

Lemma with_errors_ok {A} s (m : M A) w a w' :
  with_errors s m w = (Ok a, w') ↔ m w = (Ok a, w').
Proof. unfold with_errors. destruct (m w) as [[b|e] w1]; split; intros H; by simplify_eq. Qed.
Lemma with_errors_fail {A} s (m : M A) w e w' :
  with_errors s m w = (Fail e, w') → ∃ e0, m w = (Fail e0, w').
Proof. unfold with_errors. destruct (m w) as [[b|e1] w1]; intros H; simplify_eq; by eexists. Qed.

Lemma UoWExecute_fail {A} (m : M A) w e w' : UoWExecute m w = (Fail e, w') → w_db w' = w_db w.
Proof. apply UoWExecute_spec. Qed.

(** ** Recording *)
Definition payment_of (cmd : RecordPaymentCommand) (id : string) (now : Time)
    : Payment.PaymentAggregate :=
  Payment.NewPaymentAggregate id (rp_TenantID cmd) (rp_InvoiceID cmd) (rp_PaymentDate cmd)
    (rp_Amount cmd) (rp_Method cmd) (rp_Reference cmd) (rp_Remarks cmd) now.

(** The table of payments after the payment was recorded: its row is added
    when no payment of the tenant has its key, and nothing is when one has;
    then, if the command names a Razorpay payment, the row returned gets the
    three columns of Razorpay.  No other row and no other column changes. *)
Definition booked (cmd : RecordPaymentCommand) (d d' : DB) (id : string) : Prop :=
  ∃ nid t now now' base,
    let p := payment_of cmd nid t in
    let key := idempotencyKey p in
    (key_id (payments d) (rp_TenantID cmd) key = Some id ∧ base = payments d ∨
     key_id (payments d) (rp_TenantID cmd) key = None ∧ id = nid ∧
       base = (payments d ++ [inserted now p (Some key)])%list) ∧
    payments d' =
      if is_empty (rp_RazorpayPaymentID cmd) then base
      else update_where (payment_key id (rp_TenantID cmd))
             (with_razorpay (rp_RazorpayOrderID cmd) (rp_RazorpayPaymentID cmd) (rp_RazorpaySignature cmd) now') base.
Lemma saved_payment_base p d d' id :
  saved_payment p d d' id →
  (key_id (payments d) (Payment.TenantID p) (idempotencyKey p) = Some id ∧ payments d' = payments d) ∨
  (key_id (payments d) (Payment.TenantID p) (idempotencyKey p) = None ∧ id = Payment.ID p ∧
   ∃ now, payments d' = (payments d ++ [inserted now p (Some (idempotencyKey p))])%list).
Proof.
  intros [? ? ? ->|now rows ? ? -> ?]; [by left|right]. split_and!; [done..|]. by exists now.
Qed.

Lemma record_ok cmd w id w' :
  billing_inv (w_db w) → RecordPaymentExecute cmd w = (Ok id, w') →
  paid_into (w_db w) (w_db w') (rp_InvoiceID cmd) (rp_TenantID cmd) (rp_Amount cmd) ∧
  (∃ nid now, ledger (w_db w) (w_db w') (payment_of cmd nid now) id) ∧ billing_inv (w_db w') ∧
  booked cmd (w_db w) (w_db w') id.
Proof.
  intros Hinv. unfold RecordPaymentExecute.
  destruct (is_empty (rp_InvoiceID cmd)); [intros H; discriminate H|].
  destruct (fleb _ _); [intros H; discriminate H|]. intros H.
  apply with_errors_ok, UoWExecute_ok in H as (w1 & H & -> & _).
  set (w0 := tick_stmts w) in *. change (w_db w) with (w_db w0) in *.
  apply bind_ok_inv in H as ([] & wa & Hpay & H).
  destruct (pay_invoice_ok _ _ _ _ _ Hinv Hpay) as ((a & now & a1 & dbn & P1 & P2 & P3 & P4) & Hp & Hpk & Hone).
  apply bind_ok_inv in H as (nid & wb & Hid & H). injection Hid as Hid <-.
  apply bind_ok_inv in H as (t & wc & Hnow & H). injection Hnow as Hnow <-.
  apply bind_ok_inv in H as (p & wd & Hs & H). fold (payment_of cmd nid t) in Hs.
  apply bind_ok_inv in H as ([] & we & Hz & H). injection H as <- <-.
  assert (Hinv1 : billing_inv (w_db wa)).
  { split; [done|done| |]; rewrite Hp; apply Hinv. }
  apply payment_Save_ok in Hs. change (w_db (tick_clock (tick_ids wa))) with (w_db wa) in Hs.
  pose proof (saved_payment_inv _ _ _ _ Hinv1 Hs) as Hinv2.
  assert (Hl : ledger (w_db w0) (w_db wd) (payment_of cmd nid t) (Payment.ID p))
    by (unfold ledger; rewrite <- Hp; by apply saved_payment_ledger).
  assert (Hd : invoices (w_db wd) = invoices (w_db wa) ∧ line_items (w_db wd) = line_items (w_db wa))
    by (by destruct Hs as [? _ _ ->|? ? _ _ -> _]).
  assert (He : invoices (w_db we) = invoices (w_db wa) ∧ line_items (w_db we) = line_items (w_db wa) ∧
               ledger (w_db w0) (w_db we) (payment_of cmd nid t) (Payment.ID p) ∧
               billing_inv (w_db we) ∧
               ∃ now', payments (w_db we) = if is_empty (rp_RazorpayPaymentID cmd) then payments (w_db wd)
                 else update_where (payment_key (Payment.ID p) (rp_TenantID cmd))
                   (with_razorpay (rp_RazorpayOrderID cmd) (rp_RazorpayPaymentID cmd) (rp_RazorpaySignature cmd) now')
                   (payments (w_db wd))).
  { destruct (is_empty (rp_RazorpayPaymentID cmd)).
    - injection Hz as <-. destruct Hd. by split_and!.
    - apply SetRazorpayFields_ok in Hz as (tz & ->). destruct Hd as [Hd1 Hd2].
      split; [exact Hd1|]. split; [exact Hd2|].
      destruct (ledger_fields (w_db w0) (w_db wd) (payment_of cmd nid t) (Payment.ID p)
        (with_razorpay (rp_RazorpayOrderID cmd) (rp_RazorpayPaymentID cmd) (rp_RazorpaySignature cmd)) tz
        (payment_key (Payment.ID p) (rp_TenantID cmd)) Hl Hinv2) as [Hl' Hi']; [done|]. split_and!; [done|done|by exists tz]. }
  destruct He as (He1 & He2 & He3 & He4 & now' & He5). split_and!; [|by exists nid, t|done|].
  2:{ apply saved_payment_base in Hs. change (Payment.TenantID (payment_of cmd nid t)) with (rp_TenantID cmd) in Hs.
      rewrite Hp in Hs. change (w_db w0) with (w_db w). change (w_db w0) with (w_db w) in Hs.
      destruct Hs as [[Hk Hb]|(Hk & Hi & tn & Hb)]; rewrite Hb in He5; [exists nid, t, t, now'|exists nid, t, tn, now'];
        eexists; (split; [|exact He5]); [by left|right]. split_and!; [done|exact Hi|done]. }
  exists a, now, a1, dbn. split_and!; [done|done| |].
  - by rewrite (stored_invoice_ext (w_db wa)).
  - intros id' t' Hne. rewrite (stored_invoice_ext (w_db wa)) by done. by apply P4.
Qed.

(** C2: recording a payment, if it succeeds, moves its invoice exactly as
    [ApplyPayment] does and no other invoice.  The payment is put in the
    ledger under its key unless a payment of the tenant already has that key:
    then no row is added and that payment's identifier is returned.  Either
    way, when the command names a Razorpay payment, the row returned gets its
    columns; no other row and no other column of the ledger changes.  If it
    fails, nothing is changed at all. *)
Theorem record_payment_spec cmd w r w' :
  billing_inv (w_db w) → RecordPaymentExecute cmd w = (r, w') →
  match r with
  | Ok id =>
      paid_into (w_db w) (w_db w') (rp_InvoiceID cmd) (rp_TenantID cmd) (rp_Amount cmd) ∧
      booked cmd (w_db w) (w_db w') id ∧ billing_inv (w_db w')
  | Fail _ => w_db w' = w_db w
  end.
Proof.
  intros Hinv H. destruct r as [id|e]; [by destruct (record_ok _ _ _ _ Hinv H) as (? & _ & ? & ?)|].
  unfold RecordPaymentExecute in H.
  destruct (is_empty (rp_InvoiceID cmd)); [by injection H as _ <-|].
  destruct (fleb _ _); [by injection H as _ <-|].
  apply with_errors_fail in H as (e0 & H). by apply UoWExecute_fail in H.
Qed.

(** the invoice is credited before the payment's duplicate is looked
    for: recording the same payment twice (a double submission of one day
    or a retried reference) moves the invoice's paid amount twice, against
    one payment of the ledger. *)
Theorem duplicate_payment_counted_twice cmd w id1 w1 id2 w2 :
  billing_inv (w_db w) →
  RecordPaymentExecute cmd w = (Ok id1, w1) → RecordPaymentExecute cmd w1 = (Ok id2, w2) →
  id2 = id1 ∧ map immutable (payments (w_db w2)) = map immutable (payments (w_db w1)) ∧
  paid_into (w_db w) (w_db w1) (rp_InvoiceID cmd) (rp_TenantID cmd) (rp_Amount cmd) ∧
  paid_into (w_db w1) (w_db w2) (rp_InvoiceID cmd) (rp_TenantID cmd) (rp_Amount cmd).
Proof.
  intros Hinv H1 H2. destruct (record_ok _ _ _ _ Hinv H1) as (P1 & (n1 & t1 & L1) & Hinv1 & _).
  destruct (record_ok _ _ _ _ Hinv1 H2) as (P2 & (n2 & t2 & L2) & _).
  apply ledger_key in L1.
  destruct L2 as [(_ & Hk & Him)|(Hk & _)]; change (idempotencyKey (payment_of cmd n2 t2))
    with (idempotencyKey (payment_of cmd n1 t1)) in Hk; cbn in L1, Hk; rewrite L1 in Hk; [|done].
  injection Hk as <-. done.
Qed.

(** ** Reversing *)
Lemma find_payment_ok id t w p w' :
  find_payment id t w = (Ok p, w') →
  w_db w' = w_db w ∧ ∃ row, row ∈ payments (w_db w) ∧ p = ToDomain row ∧
    PaymentRow.ID row = id ∧ PaymentRow.TenantID row = t.
Proof.
  intros H. apply bind_ok_inv in H as (r & w1 & Hf & H). unfold SM_try in Hf.
  destruct (Find id t w) as [r0 w0] eqn:E. injection Hf as <- <-.
  destruct r0 as [p0|e]; [|by destruct (is_no_rows e)]. injection H as <- <-.
  apply bind_ok_inv in E as (row & w1 & Hq & E). injection E as <- <-.
  apply query_row_inv in Hq as (Hd & _ & Hq). split; [done|]. exists row.
  apply select_one_Some in Hq as [Hin [Hk _]%andb_true_iff].
  unfold payment_key in Hk. by apply andb_true_iff in Hk as [?%String.eqb_eq ?%String.eqb_eq].
Qed.

Lemma existing_by_reference_ok ref t w id w' :
  existing_by_reference ref t w = (Ok id, w') → is_empty (TrimSpace ref) = false →
  w_db w' = w_db w ∧ id = default ""%string (key_id (payments (w_db w)) t ("ref:" +:+ ref)%string).
Proof.
  intros H Hne. apply bind_ok_inv in H as (r & w1 & Hf & H). unfold SM_try, FindByReference in Hf.
  rewrite Hne in Hf.
  destruct (findIDByIdempotencyKey t _ w) as [r0 w0] eqn:E. injection Hf as <- <-.
  apply query_row_inv in E as (Hd & _ & E). destruct r0 as [id0|e].
  - injection H as <- <-. unfold key_id. by rewrite E.
  - destruct (is_no_rows e); [|discriminate H]. injection H as <- <-. unfold key_id.
    by rewrite E.
Qed.

Definition reversal_of (cmd : ReversePaymentCommand) (original : Payment.PaymentAggregate)
    (id : string) (date now : Time) : Payment.PaymentAggregate :=
  Payment.NewPaymentAggregate id (rv_TenantID cmd) (Payment.InvoiceID original)
    date (fneg (Payment.Amount original)) (Payment.Method original)
    (Some (reversal_reference (Payment.ID original))) (Some (rv_Reason cmd)) now.

Lemma reverse_ok cmd original w id w' :
  billing_inv (w_db w) → reverse cmd original w = (Ok id, w') →
  paid_into (w_db w) (w_db w') (Payment.InvoiceID original) (rv_TenantID cmd)
    (fneg (Payment.Amount original)) ∧
  (∃ n date now, ledger (w_db w) (w_db w') (reversal_of cmd original (gen_uuid n) date now) id) ∧
  billing_inv (w_db w').
Proof.
  intros Hinv H.
  apply bind_ok_inv in H as (nid & wa & Hid & H). injection Hid as <- <-.
  apply bind_ok_inv in H as (date & wb & Hnow & H). injection Hnow as <- <-.
  apply bind_ok_inv in H as (now & wc & Hnow & H). injection Hnow as <- <-.
  set (rv := reversal_of cmd original (gen_uuid (w_ids w)) (clock_now (w_clock (tick_ids w)))
               (clock_now (w_clock (tick_clock (tick_ids w))))).
  apply bind_ok_inv in H as ([] & wd & Hpay & H).
  apply pay_invoice_ok in Hpay as ((a & t & a1 & dbn & P1 & P2 & P3 & P4) & Hp & Hpk & Hone); [|done].
  apply bind_ok_inv in H as (p & we & Hs & H). injection H as <- <-. fold rv in Hs. cbn in Hp.
  assert (Hinv1 : billing_inv (w_db wd)) by (split; [done|done| |]; rewrite Hp; apply Hinv).
  apply payment_Save_ok in Hs. pose proof (saved_payment_inv _ _ _ _ Hinv1 Hs) as Hinv2.
  assert (Hd : invoices (w_db we) = invoices (w_db wd) ∧ line_items (w_db we) = line_items (w_db wd))
    by (by destruct Hs as [? _ _ ->|? ? _ _ -> _]). destruct Hd as [Hd1 Hd2].
  split_and!; [| |done].
  - exists a, t, a1, dbn. split_and!; [done|done| |].
    + by rewrite (stored_invoice_ext (w_db wd)).
    + intros id' t' Hne. rewrite (stored_invoice_ext (w_db wd)) by done. by apply P4.
  - do 3 eexists. unfold ledger. rewrite <- Hp. by apply saved_payment_ledger.
Qed.

(** References made of a UUID carry no surrounding space. *)
Definition plain_reference (id : string) : Prop :=
  TrimSpace (reversal_reference id) = reversal_reference id.

Lemma reversal_key cmd original nid date now :
  plain_reference (Payment.ID original) →
  idempotencyKey (reversal_of cmd original nid date now)
  = ("ref:" +:+ reversal_reference (Payment.ID original))%string.
Proof. intros Hp. unfold idempotencyKey. cbn [Payment.Reference reversal_of Payment.NewPaymentAggregate]. by rewrite Hp. Qed.

(** The outcome of a successful reversal: the one already recorded, with
    the database as it was, or a new one that takes the amount off. *)
Lemma reverse_execute_ok cmd w id w' :
  billing_inv (w_db w) → plain_reference (rv_OriginalPayID cmd) →
  ReversePaymentExecute cmd w = (Ok id, w') →
  let key := ("ref:" +:+ reversal_reference (rv_OriginalPayID cmd))%string in
  billing_inv (w_db w') ∧
  ((id ≠ ""%string ∧ w_db w' = w_db w ∧ key_id (payments (w_db w)) (rv_TenantID cmd) key = Some id) ∨
   (default ""%string (key_id (payments (w_db w)) (rv_TenantID cmd) key) = ""%string ∧
    ∃ row n date now, row ∈ payments (w_db w) ∧ PaymentRow.ID row = rv_OriginalPayID cmd ∧
      paid_into (w_db w) (w_db w') (PaymentRow.InvoiceID row) (rv_TenantID cmd)
        (fneg (PaymentRow.Amount row)) ∧
      ledger (w_db w) (w_db w') (reversal_of cmd (ToDomain row) (gen_uuid n) date now) id)).
Proof.
  intros Hinv Hplain. unfold ReversePaymentExecute. cbn zeta.
  destruct (is_empty (rv_OriginalPayID cmd)); [intros H; discriminate H|].
  destruct (is_empty (rv_Reason cmd)); [intros H; discriminate H|]. intros H.
  apply with_errors_ok, UoWExecute_ok in H as (w1 & H & -> & _).
  set (w0 := tick_stmts w) in *. change (w_db w) with (w_db w0) in *.
  apply bind_ok_inv in H as (orig & wa & Ho & H).
  apply find_payment_ok in Ho as (Hda & row & Hin & -> & Hri & Hrt).
  apply bind_ok_inv in H as (ex & wb & He & H). cbn [ToDomain Payment.ID Payment.NewPaymentAggregate] in He.
  rewrite Hri in He. apply existing_by_reference_ok in He as [Hdb Hex]; [|by rewrite Hplain].
  rewrite Hda in Hex. destruct (is_empty ex) eqn:Hemp.
  - apply String.eqb_eq in Hemp. rewrite Hemp in Hex.
    apply reverse_ok in H as (P & (n & date & now & L) & Hinv'); [|by rewrite Hdb, Hda].
    rewrite Hdb, Hda in P, L. split; [done|]. right. split; [by symmetry|].
    by exists row, n, date, now.
  - injection H as <- <-. rewrite Hdb, Hda. split; [done|]. left.
    apply String.eqb_neq in Hemp. split_and!; [done|done|].
    destruct (key_id _ _ _); cbn in Hex; congruence.
Qed.

(** a reversal is idempotent: once a payment has been reversed, reversing
    it again, whatever the reason given, returns the same reversal and
    changes nothing. *)
Theorem reversal_idempotent cmd cmd' w id w1 id' w2 :
  billing_inv (w_db w) → (∀ n, gen_uuid n ≠ ""%string) →
  plain_reference (rv_OriginalPayID cmd) →
  rv_OriginalPayID cmd' = rv_OriginalPayID cmd → rv_TenantID cmd' = rv_TenantID cmd →
  ReversePaymentExecute cmd w = (Ok id, w1) → ReversePaymentExecute cmd' w1 = (Ok id', w2) →
  id' = id ∧ w_db w2 = w_db w1.
Proof.
  intros Hinv Hid Hplain Ho Ht H1 H2.
  apply reverse_execute_ok in H1 as (Hinv1 & H1); [|done|done].
  assert (Hk : id ≠ ""%string ∧ key_id (payments (w_db w1)) (rv_TenantID cmd)
                 ("ref:" +:+ reversal_reference (rv_OriginalPayID cmd))%string = Some id).
  { destruct H1 as [(Hne & -> & Hk)|(Hd & row & n & date & now & _ & Hri & _ & L)]; [done|].
    pose proof (ledger_key _ _ _ _ L) as Hk. rewrite reversal_key in Hk by (cbn; by rewrite Hri).
    cbn in Hk. rewrite Hri in Hk. split; [|exact Hk].
    destruct L as [(Hne & _)|(_ & -> & _)]; [done|]. apply Hid. }
  destruct Hk as [Hne Hk].
  apply reverse_execute_ok in H2 as (_ & H2); [|done|by rewrite Ho]. rewrite Ho, Ht, Hk in H2.
  destruct H2 as [(_ & Hd & [= ->])|(Hd & _)]; [done|]. by destruct Hne.
Qed.

(** ** Billing as a whole *)
Inductive billing_command :=
| CmdGenerate (cmd : InvoiceApp.GenerateInvoiceCommand)
| CmdVoid (id tenant : string)
| CmdRecord (cmd : RecordPaymentCommand)
| CmdReverse (cmd : ReversePaymentCommand).

(** A request whose outcome, success or error, the client has seen; the
    reversed ids are plain references. *)
Definition run_billing (c : billing_command) (w : World) : World :=
  match c with
  | CmdGenerate cmd => snd (InvoiceApp.GenerateInvoiceExecute cmd w)
  | CmdVoid id t => snd (InvoiceApp.VoidInvoiceExecute id t w)
  | CmdRecord cmd => snd (RecordPaymentExecute cmd w)
  | CmdReverse cmd => snd (ReversePaymentExecute cmd w)
  end.
Definition command_ok (c : billing_command) : Prop :=
  match c with CmdReverse cmd => plain_reference (rv_OriginalPayID cmd) | _ => True end.

Lemma saved_billing_inv a w a' w' :
  billing_inv (w_db w) → InvoiceRepo.invoice_wf a →
  InvoiceApp.booking_free a (invoices (w_db w)) → InvoiceRepo.Save a w = (Ok a', w') →
  billing_inv (w_db w').
Proof.
  intros Hinv Hwf Hf Hs.
  destruct (InvoiceRepo.stored_after_save _ _ _ _ (inv_pk _ Hinv) Hwf Hs)
    as ((Hpk' & _) & _ & _ & _ & Hpay).
  pose proof (InvoiceRepo.invoice_Save_inv _ _ _ _ Hs) as (l' & rows & Hsr & _ & _ & _ & Hd').
  split; [done| | |]; [|rewrite Hpay; apply Hinv..].
  replace (invoices (w_db w')) with l' by (by rewrite Hd').
  eapply InvoiceApp.save_one_per_booking; [exact Hsr|done|apply Hinv].
Qed.

Lemma generate_billing_inv cmd w r w' :
  billing_inv (w_db w) → InvoiceApp.GenerateInvoiceExecute cmd w = (r, w') →
  billing_inv (w_db w').
Proof.
  intros Hinv H. destruct r as [id|e]; [|apply UoWExecute_fail in H; by rewrite H].
  apply UoWExecute_ok in H as (w1 & H & -> & _).
  apply bind_ok_inv in H as ([id' att] & w2 & H & Hret). injection Hret as _ <-.
  apply InvoiceApp.GenerateInTx_ok in H. change (w_db w) with (w_db (tick_stmts w)) in Hinv.
  destruct H as [row _ _ Hd|row a1 a2 w3 Hr _ _ Hh Hd Hs|a1 a2 w3 att Hn Hwf Hd Hb Ht Hs].
  - by rewrite Hd.
  - eapply saved_billing_inv; [by rewrite Hd|apply Hh, InvoiceRepo.load_wf| |exact Hs].
    rewrite Hd. by eapply InvoiceApp.extended_free; [apply Hinv|..].
  - eapply saved_billing_inv; [by rewrite Hd|done| |exact Hs].
    rewrite Hd. by eapply InvoiceApp.new_free.
Qed.

Lemma void_billing_inv id t w r w' :
  billing_inv (w_db w) → InvoiceApp.VoidInvoiceExecute id t w = (r, w') →
  billing_inv (w_db w').
Proof.
  intros Hinv H. destruct r as [[]|e].
  - apply InvoiceApp.VoidInvoiceExecute_ok in H as (a & now & a1 & a2 & w1 & w2 & Hst & Hv & Hd & Hs & ->).
    destruct (InvoiceApp.Void_frame _ _ _ Hv) as (H1 & H2 & H3 & _).
    destruct (InvoiceRepo.stored_invoice_wf _ _ _ _ Hst) as (Hwf & Hid & Ht & _).
    eapply saved_billing_inv; [by rewrite Hd| | |exact Hs].
    + by eapply (InvoiceRepo.invoice_op_wf Invoice.OpVoid now).
    + rewrite Hd. eapply InvoiceApp.stored_free; [apply Hinv|exact Hst|congruence..].
  - unfold InvoiceApp.VoidInvoiceExecute in H. destruct (is_empty id).
    + by injection H as _ <-.
    + apply UoWExecute_fail in H. by rewrite H.
Qed.

Lemma reverse_billing_inv cmd w r w' :
  billing_inv (w_db w) → plain_reference (rv_OriginalPayID cmd) →
  ReversePaymentExecute cmd w = (r, w') → billing_inv (w_db w').
Proof.
  intros Hinv Hp H. destruct r as [id|e].
  - by destruct (reverse_execute_ok _ _ _ _ Hinv Hp H).
  - unfold ReversePaymentExecute in H. destruct (is_empty (rv_OriginalPayID cmd)); [by injection H as _ <-|].
    destruct (is_empty (rv_Reason cmd)); [by injection H as _ <-|].
    apply with_errors_fail in H as (e0 & H). apply UoWExecute_fail in H. by rewrite H.
Qed.

(** C3: billing keeps its tables consistent: whatever sequence of invoice
    generations, voidings, payments and reversals is requested, whichever
    of them fail and however the database faults, an id names one invoice
    and one payment, a booking has one invoice at most, and an idempotency
    key one payment at most. *)
Theorem billing_invariant cs w :
  billing_inv (w_db w) → Forall command_ok cs →
  billing_inv (w_db (foldl (λ w c, run_billing c w) w cs)).
Proof.
  intros Hinv Hok. revert w Hinv. induction Hok as [|c cs Hc Hok IH]; intros w Hinv; [done|].
  cbn. apply IH. destruct c as [cmd|id t|cmd|cmd]; cbn.
  - destruct (InvoiceApp.GenerateInvoiceExecute cmd w) as [r w'] eqn:E.
    by eapply generate_billing_inv.
  - destruct (InvoiceApp.VoidInvoiceExecute id t w) as [r w'] eqn:E. by eapply void_billing_inv.
  - destruct (RecordPaymentExecute cmd w) as [[id|e] w'] eqn:E; cbn.
    + by apply record_ok in E as (_ & _ & ? & _).
    + unfold RecordPaymentExecute in E.
      destruct (is_empty (rp_InvoiceID cmd)); [by injection E as _ <-|].
      destruct (fleb _ _); [by injection E as _ <-|].
      apply with_errors_fail in E as (e0 & E). apply UoWExecute_fail in E. by rewrite E.
  - destruct (ReversePaymentExecute cmd w) as [r w'] eqn:E. by eapply reverse_billing_inv.
Qed.
End Theorems.
(** ** Concrete runs: an invoice, a payment of 500 in cash sent twice, and
    its reversal asked for twice. *)
Definition demo_record : RecordPaymentCommand :=
  mkRecordPayment "acme" "id-0" jan1 (f64_of_Z 500) "cash" None None "" "" "".
Definition paid_w : World :=
  snd (RecordPaymentExecute (env := demo_env) demo_record InvoiceApp.generated_w).
Definition paid_id : string :=
  match fst (RecordPaymentExecute (env := demo_env) demo_record InvoiceApp.generated_w) with
  | Ok id => id | Fail _ => "" end.
Definition paid_twice_w : World := snd (RecordPaymentExecute (env := demo_env) demo_record paid_w).

Definition demo_reverse (reason : string) : ReversePaymentCommand :=
  mkReversePayment "acme" paid_id reason.
Definition reversal_id : string :=
  match fst (ReversePaymentExecute (env := demo_env) (demo_reverse "bounced") paid_w) with
  | Ok id => id | Fail _ => "" end.
Definition reversed_w : World :=
  snd (ReversePaymentExecute (env := demo_env) (demo_reverse "bounced") paid_w).
Definition reversed_again_w : World :=
  snd (ReversePaymentExecute (env := demo_env) (demo_reverse "typo") reversed_w).

Lemma billing_inv_short d :
  Nat.leb (List.length (invoices d)) 1 = true → Nat.leb (List.length (payments d)) 1 = true →
  billing_inv d.
Proof.
  intros Hi Hp. split.
  - unfold InvoiceRepo.invoices_pk. destruct (invoices d) as [|r [|r' l]]; [constructor| |done].
    apply NoDup_singleton.
  - by apply InvoiceApp.one_per_booking_short.
  - destruct (payments d) as [|r [|r' l]]; [constructor|apply NoDup_singleton|done].
  - destruct (payments d) as [|r [|r' l]]; [|intros r1 r2 k; rewrite !list_elem_of_singleton|done].
    + by intros ??? ?%not_elem_of_nil.
    + by intros -> ->.
Qed.

Lemma record_payment_spec_witness :
  let env := demo_env in
  let w := InvoiceApp.generated_w in
  paid_into (w_db w) (w_db paid_w) "id-0" "acme" (f64_of_Z 500) ∧
  booked demo_record (w_db w) (w_db paid_w) paid_id ∧ billing_inv (w_db paid_w).
Proof.
  intros env w.
  apply (record_payment_spec demo_record w (Ok paid_id) paid_w).
  - apply billing_inv_short; vm_compute; reflexivity.
  - vm_compute. reflexivity.
Defined.

Lemma duplicate_payment_counted_twice_witness :
  let env := demo_env in
  let w := InvoiceApp.generated_w in
  paid_id = paid_id ∧
  map immutable (payments (w_db paid_twice_w)) = map immutable (payments (w_db paid_w)) ∧
  paid_into (w_db w) (w_db paid_w) "id-0" "acme" (f64_of_Z 500) ∧
  paid_into (w_db paid_w) (w_db paid_twice_w) "id-0" "acme" (f64_of_Z 500).
Proof.
  intros env w.
  apply (duplicate_payment_counted_twice demo_record w paid_id paid_w paid_id paid_twice_w).
  - apply billing_inv_short; vm_compute; reflexivity.
  - vm_compute. reflexivity.
  - vm_compute. reflexivity.
Defined.

Lemma demo_uuid_nonempty n : gen_uuid (Env := demo_env) n ≠ ""%string.
Proof. cbn. unfold test_uuid. discriminate. Qed.

Lemma reversal_idempotent_witness :
  reversal_id = reversal_id ∧ w_db reversed_again_w = w_db reversed_w.
Proof.
  apply (reversal_idempotent (env := demo_env) (demo_reverse "bounced") (demo_reverse "typo")
           paid_w reversal_id reversed_w reversal_id reversed_again_w).
  - apply billing_inv_short; vm_compute; reflexivity.
  - exact demo_uuid_nonempty.
  - vm_compute. reflexivity.
  - vm_compute. reflexivity.
  - vm_compute. reflexivity.
  - vm_compute. reflexivity.
  - vm_compute. reflexivity.
Defined.

Lemma billing_invariant_witness :
  let env := demo_env in
  let run := foldl (λ w c, run_billing c w) in
  billing_inv (w_db (run (world demo_db)
    [CmdGenerate (InvoiceApp.demo_generate 1000); CmdRecord demo_record;
     CmdReverse (demo_reverse "bounced"); CmdVoid "id-0" "acme"])).
Proof.
  intros env run.
  apply (billing_invariant
    [CmdGenerate (InvoiceApp.demo_generate 1000); CmdRecord demo_record;
     CmdReverse (demo_reverse "bounced"); CmdVoid "id-0" "acme"] (world demo_db)).
  - apply billing_inv_short; reflexivity.
  - repeat constructor.
Defined.
End PaymentApp.
