(* ===== verification/Razorpay.v ===== *)
(** * The payment gateway

    [internal/payment/razorpay/client.go],
    [internal/payment/application/razorpay_order.go] and
    [razorpay_webhook.go]: checkout orders for an invoice's balance, the
    verification of a checkout, and the gateway's webhook with its two layers
    of event deduplication.  The gateway's SDK and the JSON decoding of a
    body are parameters; the signatures are HMAC-SHA256, computed. *)
From stdpp Require Import base decidable list strings option gmap.
From Stdlib Require Import ZArith Lia String.
From S2P Require Import Prelude GoFloat GoCrypto Shared Events InvoiceAggregate Database Outbox.
From S2P Require Import Repository InvoiceRepository InvoiceUseCases PaymentUseCases.
Open Scope Z_scope.

(** [errors.Is(err, target)] for a sentinel, known by its text. *)
Fixpoint errors_Is (e target : error) : bool :=
  bool_decide (e = target) || match e with Wrap _ e' => errors_Is e' target | _ => false end.

(** ** The client *)
Module RazorpayClient.

Definition ErrNotConfigured : error := Err "razorpay credentials not configured".

Record Order := mkOrder {
  ID : string; Entity : string; Amount : Z; Currency : string; Receipt : string;
  Status : string }.

(** What is sent to the SDK, and the two fields read from its answer: a
    missing one, or one that is no string, is [None]. *)
Record OrderData := mkOrderData {
  data_amount : Z; data_currency : string; data_receipt : string; data_invoice_id : string }.
Record OrderBody := mkOrderBody { body_id : option string; body_status : option string }.

Record Client := mkClient {
  orderAPI : option (OrderData → M OrderBody); keyID : string; keySecret : string }.

(** [sdk] is [rzp.NewClient(keyID, keySecret).Order.Create]. *)
Definition NewRazorpayClient (sdk : string → string → OrderData → M OrderBody)
    (keyID keySecret : string) : Client :=
  mkClient (if negb (is_empty keyID) && negb (is_empty keySecret)
            then Some (sdk keyID keySecret) else None) keyID keySecret.

(** [int64(amountINR * 100)]. *)
Definition amountInPaise (amountINR : float64) : Z := f64_to_int64 (fmul amountINR f100).

Definition CreateOrder (c : Client) (invoiceID : string) (amountINR : float64)
    (currency : string) : M Order :=
  match orderAPI c with
  | None => SM_fail ErrNotConfigured
  | Some Create =>
      let currency := if is_empty currency then "INR"%string else currency in
      let receipt := ("rcpt_" +:+ invoiceID)%string in
      body ← Create (mkOrderData (amountInPaise amountINR) currency receipt invoiceID);
      mret (mkOrder (default ""%string (body_id body)) "" (amountInPaise amountINR) currency
              receipt (default ""%string (body_status body)))
  end.

Definition VerifyPaymentSignature (c : Client) (orderID paymentID signature : string) : bool :=
  if is_empty (keySecret c) then false
  else
    match hex_decode signature with
    | None => false
    | Some sigBytes =>
        hmac_Equal (hmac_sha256 (keySecret c) (orderID +:+ "|" +:+ paymentID)%string) sigBytes
    end.
End RazorpayClient.

(** ** Checkout *)
Module Checkout.
Import PaymentRepo PaymentApp.

Definition ErrRazorpayNotConfigured : error := Err "razorpay not configured".
Definition ErrRazorpayInvalidSignature : error := Err "invalid razorpay signature".
Definition ErrInvoiceAlreadySettled : error := Err "invoice has no outstanding balance".

Record CreateRazorpayOrderCommand := mkCreateOrder { co_TenantID : string; co_InvoiceID : string }.
Record CreateRazorpayOrderResult := mkOrderResult {
  or_OrderID : string; or_RazorpayKeyID : string; or_AmountPaise : Z; or_Currency : string;
  or_InvoiceID : string }.
Record VerifyRazorpayPaymentCommand := mkVerify {
  vp_TenantID : string; vp_InvoiceID : string; vp_OrderID : string; vp_PaymentID : string;
  vp_Signature : string }.

Section UseCases.
Context {env : Env}.

(** The balance, read in a transaction of its own. *)
Definition invoice_balance (invoiceID tenant : string) : M float64 :=
  UoWExecute
    (inv ← InvoiceApp.find_invoice ErrInvoiceNotFound invoiceID tenant;
     mret (Invoice.OutstandingBalance inv)).

Definition CreateRazorpayOrderExecute (client : RazorpayClient.Client) (keyID : string)
    (cmd : CreateRazorpayOrderCommand) : M CreateRazorpayOrderResult :=
  (when is_empty keyID fail ErrRazorpayNotConfigured;
   (balance ← invoice_balance (co_InvoiceID cmd) (co_TenantID cmd);
    (when fleb balance f0 fail ErrInvoiceAlreadySettled;
     (r ← SM_try (RazorpayClient.CreateOrder client (co_InvoiceID cmd) balance "INR");
      match r with
      | Fail e =>
          if errors_Is e RazorpayClient.ErrNotConfigured then SM_fail ErrRazorpayNotConfigured
          else SM_fail e
      | Ok order =>
          mret (mkOrderResult (RazorpayClient.ID order) keyID (RazorpayClient.Amount order)
                  (RazorpayClient.Currency order) (co_InvoiceID cmd))
      end))))%go.

(** A lookup in a transaction of its own; no row is the empty id. *)
Definition lookup_in_tx (q : M string) : M string :=
  UoWExecute
    (r ← SM_try q;
     match r with
     | Ok id => mret id
     | Fail e => if is_no_rows e then mret ""%string else SM_fail e
     end).

Definition findRazorpayPayment (tenant paymentID : string) : M string :=
  lookup_in_tx (ExistsRazorpayPayment tenant paymentID).

(** [ctx_tenant] is the tenant of the request's context. *)
Definition VerifyRazorpayPaymentExecute (client : RazorpayClient.Client) (keySecret : string)
    (ctx_tenant : option string) (cmd : VerifyRazorpayPaymentCommand) : M string :=
  (when is_empty keySecret fail ErrRazorpayNotConfigured;
   when negb (RazorpayClient.VerifyPaymentSignature client (vp_OrderID cmd) (vp_PaymentID cmd)
                (vp_Signature cmd)) fail ErrRazorpayInvalidSignature;
   (let tenantID := TenantIDFromContext ctx_tenant in
    existing ← findRazorpayPayment tenantID (vp_PaymentID cmd);
    if negb (is_empty existing) then mret existing
    else
      balance ← invoice_balance (vp_InvoiceID cmd) tenantID;
      if fleb balance f0 then SM_fail ErrInvoiceAlreadySettled
      else
        now ← Now;
        RecordPaymentExecute
          (mkRecordPayment tenantID (vp_InvoiceID cmd) now balance Payment.PaymentMethodRazorpay
             (Some (vp_PaymentID cmd)) None (vp_OrderID cmd) (vp_PaymentID cmd)
             (vp_Signature cmd))))%go.
End UseCases.
End Checkout.

(** ** The webhook *)
Module Webhook.
Import PaymentRepo PaymentApp Checkout.

Definition webhookEventTTL : Z := 24 * hour.
Definition ErrWebhookNotConfigured : error := Err "razorpay webhook secret not configured".
Definition ErrWebhookInvalidSignature : error := Err "invalid razorpay webhook signature".
Definition ErrWebhookInvoiceMissing : error := Err "razorpay webhook payload missing invoice_id".
Definition ErrWebhookOriginalPaymentNotFound : error :=
  Err "razorpay webhook refund original payment not found".

Record RazorpayPaymentEntity := mkPaymentEntity {
  pe_ID : string; pe_OrderID : string; pe_Amount : Z; pe_Currency : string; pe_Status : string;
  pe_ErrorCode : string; pe_ErrorDescription : string; pe_InvoiceID : string }.
Record RazorpayOrderEntity := mkOrderEntity {
  oe_ID : string; oe_AmountPaid : Z; oe_Currency : string; oe_Status : string;
  oe_InvoiceID : string }.
Record RazorpayRefundEntity := mkRefundEntity {
  re_ID : string; re_PaymentID : string; re_Amount : Z; re_Currency : string;
  re_Status : string; re_InvoiceID : string }.
Record RazorpayWebhookEvent := mkWebhookEvent {
  we_Event : string; we_Payment : RazorpayPaymentEntity; we_Order : RazorpayOrderEntity;
  we_Refund : RazorpayRefundEntity }.

Record RazorpayPaymentFailedEvent := mkPaymentFailed {
  pf_RazorpayEventID : string; pf_RazorpayPaymentID : string; pf_OrderID : string;
  pf_InvoiceID : string; pf_Amount : float64; pf_Currency : string; pf_ErrorCode : string;
  pf_ErrorDescription : string; pf_CreatedAt : Time }.

Record processedEvent := mkProcessed { at_ : Time; pid : string }.

Section UseCase.
Context {env : Env} {S : Type}.

(** The wired use case: [reverseUC != nil], [eventBus == nil] is [None]. *)
Record RazorpayWebhookUseCase := mkWebhook {
  secret : string; reverseUC : bool;
  eventBus : option (InMemoryBus RazorpayPaymentFailedEvent S) }.

(** Its state, the world of its requests, and the state of the bus's
    handlers. *)
Record WebhookState := mkWState {
  wworld : World; processedIDs : gmap string processedEvent; lastReceivedAt : Time;
  counts : gmap string Z; handlers_state : S }.
Abbreviation WM := (SM WebhookState).

Definition set_wworld (w : World) (s : WebhookState) : WebhookState :=
  mkWState w (processedIDs s) (lastReceivedAt s) (counts s) (handlers_state s).
Definition set_processedIDs (p : gmap string processedEvent) (s : WebhookState) : WebhookState :=
  mkWState (wworld s) p (lastReceivedAt s) (counts s) (handlers_state s).
Definition set_lastReceivedAt (t : Time) (s : WebhookState) : WebhookState :=
  mkWState (wworld s) (processedIDs s) t (counts s) (handlers_state s).
Definition set_counts (c : gmap string Z) (s : WebhookState) : WebhookState :=
  mkWState (wworld s) (processedIDs s) (lastReceivedAt s) c (handlers_state s).
Definition set_handlers_state (x : S) (s : WebhookState) : WebhookState :=
  mkWState (wworld s) (processedIDs s) (lastReceivedAt s) (counts s) x.

Definition in_world {A} (m : M A) : WM A := λ s,
  match m (wworld s) with (r, w) => (r, set_wworld w s) end.

Definition VerifySignature (uc : RazorpayWebhookUseCase) (rawBody signature : string)
    : result unit :=
  if is_empty (secret uc) then Fail ErrWebhookNotConfigured
  else if is_empty signature then Fail ErrWebhookInvalidSignature
  else
    match hex_decode signature with
    | None => Fail ErrWebhookInvalidSignature
    | Some want =>
        if hmac_Equal want (hmac_sha256 (secret uc) rawBody) then Ok tt
        else Fail ErrWebhookInvalidSignature
    end.

(** ** The in-memory layer *)
Definition fresh_event (now : Time) (p : processedEvent) : bool := now - at_ p <? webhookEventTTL.

Definition cleanProcessedLocked : WM unit :=
  now ← in_world Now;
  SM_modify (λ s, set_processedIDs
    (filter (λ kv, fresh_event now (snd kv) = true) (processedIDs s)) s).

Definition isProcessed (eventID : string) : WM (option string) :=
  if is_empty eventID then mret None
  else
    _ ← cleanProcessedLocked;
    SM_get (λ s, pid <$> (processedIDs s !! eventID)).

Definition markProcessed (eventID id : string) : WM unit :=
  if is_empty eventID then mret tt
  else
    now ← in_world Now;
    SM_modify (λ s, set_processedIDs (<[eventID := mkProcessed now id]> (processedIDs s)) s).

Definition touchLastReceived : WM unit :=
  now ← in_world Now; SM_modify (set_lastReceivedAt now).

Definition incrementCount (eventType : string) : WM unit :=
  SM_modify (λ s, set_counts
    (<[eventType := wrap64 (default 0 (counts s !! eventType) + 1)]> (counts s)) s).

(** ** Lookups *)
Definition findByReference (reference tenant : string) : WM string :=
  in_world (lookup_in_tx (FindByReference reference tenant)).
Definition findRazorpayPayment_ (tenant paymentID : string) : WM string :=
  in_world (lookup_in_tx (ExistsRazorpayPayment tenant paymentID)).
Definition findWebhookEvent (tenant eventID : string) : WM string :=
  in_world (lookup_in_tx (ExistsWebhookEvent tenant eventID)).
Definition setWebhookEventID (tenant id eventID : string) : WM unit :=
  in_world (UoWExecute (SetWebhookEventID id tenant eventID)).

(** ** The events *)
Definition publish_failed (uc : RazorpayWebhookUseCase)
    (mk : Time → RazorpayPaymentFailedEvent) : WM unit :=
  match eventBus uc with
  | None => mret tt
  | Some bus =>
      now ← in_world Now;
      SM_modify (λ s, set_handlers_state
        (Publish bus RazorpayPaymentFailed (mk now) (handlers_state s)) s)
  end.

Definition acknowledgeUnattributable (uc : RazorpayWebhookUseCase) (paymentID invoiceID : string)
    : WM unit :=
  publish_failed uc (mkPaymentFailed "" paymentID "" invoiceID f0 "" "INVOICE_UNATTRIBUTABLE"
                       "webhook payment missing notes.invoice_id").

Definition paise (amount : Z) : float64 := fdiv (f64_of_Z amount) f100.

Definition record_gateway (tenant invoiceID : string) (amount : Z) (reference : string)
    : WM string :=
  now ← in_world Now;
  in_world (RecordPaymentExecute
    (mkRecordPayment tenant invoiceID now (paise amount) Payment.PaymentMethodRazorpay
       (Some reference) None "" "" "")).

Definition recordPaymentEntity (uc : RazorpayWebhookUseCase) (tenant : string)
    (entity : RazorpayPaymentEntity) : WM string :=
  (when is_empty (pe_ID entity) fail ErrWebhookInvoiceMissing;
   (existing ← findRazorpayPayment_ tenant (pe_ID entity);
    if negb (is_empty existing) then mret existing
    else if is_empty (pe_InvoiceID entity)
    then _ ← acknowledgeUnattributable uc (pe_ID entity) ""; mret ""%string
    else
      existingByRef ← findByReference (pe_ID entity) tenant;
      if negb (is_empty existingByRef) then mret existingByRef
      else record_gateway tenant (pe_InvoiceID entity) (pe_Amount entity) (pe_ID entity)))%go.

Definition recordOrderEntity (uc : RazorpayWebhookUseCase) (tenant : string)
    (entity : RazorpayOrderEntity) : WM string :=
  (when is_empty (oe_ID entity) fail ErrWebhookInvoiceMissing;
   (existing ← findByReference (oe_ID entity) tenant;
    if negb (is_empty existing) then mret existing
    else if is_empty (oe_InvoiceID entity)
    then _ ← acknowledgeUnattributable uc (oe_ID entity) ""; mret ""%string
    else record_gateway tenant (oe_InvoiceID entity) (oe_AmountPaid entity) (oe_ID entity)))%go.

Definition processRefundEntity (uc : RazorpayWebhookUseCase) (tenant : string)
    (entity : RazorpayRefundEntity) : WM string :=
  (when is_empty (re_PaymentID entity) fail ErrWebhookOriginalPaymentNotFound;
   when negb (reverseUC uc) fail Err "reverse payment use case not configured";
   (originalID ← findByReference (re_PaymentID entity) tenant;
    if is_empty originalID then SM_fail ErrWebhookOriginalPaymentNotFound
    else in_world (ReversePaymentExecute
           (mkReversePayment tenant originalID ("Razorpay refund " +:+ re_ID entity)%string))))%go.

Definition processFailed (uc : RazorpayWebhookUseCase) (eventID : string)
    (ev : RazorpayWebhookEvent) : WM unit :=
  let entity := we_Payment ev in
  publish_failed uc (mkPaymentFailed eventID (pe_ID entity) (pe_OrderID entity)
    (pe_InvoiceID entity) (paise (pe_Amount entity)) (pe_Currency entity)
    (pe_ErrorCode entity) (pe_ErrorDescription entity)).

(** The [switch] on the event's type; others are acknowledged. *)
Definition apply_event (uc : RazorpayWebhookUseCase) (tenant eventID : string)
    (ev : RazorpayWebhookEvent) : WM string :=
  if String.eqb (we_Event ev) "payment.captured" then recordPaymentEntity uc tenant (we_Payment ev)
  else if String.eqb (we_Event ev) "order.paid" then recordOrderEntity uc tenant (we_Order ev)
  else if String.eqb (we_Event ev) "refund.processed" then
    processRefundEntity uc tenant (we_Refund ev)
  else if String.eqb (we_Event ev) "payment.failed" then
    _ ← processFailed uc eventID ev; mret ""%string
  else mret ""%string.

(** Past the two layers: apply the event and remember it in both. *)
Definition process_event (uc : RazorpayWebhookUseCase) (tenant eventID : string)
    (ev : RazorpayWebhookEvent) : WM string :=
  id ← apply_event uc tenant eventID ev;
  _ ← (if negb (is_empty id) && negb (is_empty eventID)
       then setWebhookEventID tenant id eventID else mret tt);
  _ ← markProcessed eventID id;
  _ ← incrementCount (we_Event ev);
  mret id.

(** [Unmarshal] decodes the body when the caller has not. *)
Definition ExecuteEvent (Unmarshal : string → result RazorpayWebhookEvent)
    (uc : RazorpayWebhookUseCase) (ctx_tenant : option string)
    (rawBody signature eventID : string) (ev : RazorpayWebhookEvent) : WM string :=
  _ ← SM_lift (VerifySignature uc rawBody signature);
  ev ← (if is_empty (we_Event ev) then SM_lift (Unmarshal rawBody) else mret ev);
  _ ← touchLastReceived;
  let tenantID := TenantIDFromContext ctx_tenant in
  cached ← isProcessed eventID;
  match cached with
  | Some id => mret id
  | None =>
      existing ← (if is_empty eventID then mret ""%string else findWebhookEvent tenantID eventID);
      if negb (is_empty existing) then
        _ ← markProcessed eventID existing;
        mret existing
      else process_event uc tenantID eventID ev
  end.
End UseCase.

(** ** Theorems *)
Section Theorems.
Context {env : Env} {S : Type}.
Implicit Types (s : WebhookState (S := S)) (uc : RazorpayWebhookUseCase (S := S)).

(** The database and the handlers' state of a webhook state. *)
Definition wdb (s : WebhookState (S := S)) : DB := w_db (wworld s).

(** *** Signatures *)
Definition authentic (secret_ rawBody signature : string) : Prop :=
  secret_ ≠ ""%string ∧ hex_decode signature = Some (hmac_sha256 secret_ rawBody).

Lemma VerifySignature_ok uc body sg :
  VerifySignature uc body sg = Ok tt → authentic (secret uc) body sg.
Proof.
  unfold VerifySignature, authentic, is_empty, hmac_Equal.
  destruct (String.eqb_spec (secret uc) ""); [done|]. destruct (String.eqb sg ""); [done|].
  destruct (hex_decode sg) as [want|]; [|done].
  destruct (String.eqb_spec want (hmac_sha256 (secret uc) body)); [|done]. by subst.
Qed.

(** C32: a webhook whose signature is not the HMAC-SHA256 of its body under
    the configured secret is refused before anything happens, whatever its
    event; the signature the gateway makes is accepted. *)
Theorem webhook_signature Unmarshal uc ctx body sg eid ev s :
  (¬ authentic (secret uc) body sg →
   ∃ e, ExecuteEvent Unmarshal uc ctx body sg eid ev s = (Fail e, s)) ∧
  (secret uc ≠ ""%string →
   VerifySignature uc body (hex_encode (hmac_sha256 (secret uc) body)) = Ok tt).
Proof.
  split.
  - intros Hn. unfold ExecuteEvent. cbv [mbind SM_mbind SM_bind SM_lift].
    destruct (VerifySignature uc body sg) as [[]|e] eqn:E; [|by exists e].
    by apply VerifySignature_ok in E.
  - intros Hs. unfold VerifySignature, is_empty. rewrite hex_decode_encode.
    destruct (String.eqb_spec (secret uc) ""); [done|].
    replace (String.eqb (hex_encode (hmac_sha256 (secret uc) body)) "") with false by reflexivity.
    unfold hmac_Equal. by rewrite String.eqb_refl.
Qed.

(** *** Lookups *)
Lemma in_world_inv {A} (m : M A) s r s' :
  in_world (S := S) m s = (r, s') →
  ∃ w, m (wworld s) = (r, w) ∧ s' = set_wworld w s.
Proof. unfold in_world. destruct (m (wworld s)) as [r0 w]. intros [= <- <-]. by exists w. Qed.

Lemma lookup_query_ok (f : DB → option string) w r w' :
  lookup_in_tx (query_row (λ _, f)) w = (r, w') →
  w_db w' = w_db w ∧ ∀ id, r = Ok id → id = default ""%string (f (w_db w)).
Proof.
  intros H. destruct r as [id|e]; [|apply UoWExecute_fail in H; by split].
  apply UoWExecute_ok in H as (w1 & H & Hd & _). rewrite Hd. clear Hd.
  apply bind_ok_inv in H as (r & w2 & Hq & H). unfold SM_try in Hq.
  destruct (query_row (λ _, f) (tick_stmts w)) as [r0 w0] eqn:E. injection Hq as -> ->.
  apply query_row_inv in E as (Hd & _ & E). cbn in Hd, E. destruct r as [id0|e].
  - injection H as -> <-. split; [done|]. intros ? [= <-]. by rewrite E.
  - destruct (is_no_rows e) eqn:Hn; [|discriminate H]. injection H as <- <-. split; [done|].
    intros ? [= <-]. by rewrite E.
Qed.

Lemma lookup_reference_ok reference t w r w' :
  lookup_in_tx (FindByReference reference t) w = (r, w') →
  w_db w' = w_db w ∧ ∀ id, r = Ok id →
    id = if is_empty (TrimSpace reference) then ""%string
         else default ""%string (key_id (payments (w_db w)) t ("ref:" +:+ reference)%string).
Proof.
  unfold FindByReference. destruct (is_empty (TrimSpace reference)).
  - intros H. destruct r as [id|e]; [|apply UoWExecute_fail in H; by split].
    apply UoWExecute_ok in H as (w1 & H & -> & _). injection H as <- <-. split; [done|].
    by intros ? [= <-].
  - apply (lookup_query_ok (λ d, key_id (payments d) t ("ref:" +:+ reference)%string)).
Qed.

(** An id of a payment of the tenant. *)
Definition names (d : DB) (t id : string) : Prop :=
  ∃ r, r ∈ payments d ∧ PaymentRow.ID r = id ∧ PaymentRow.TenantID r = t.

Lemma selected_names d t id (p : PaymentRow.Payment → bool) :
  (∀ r, p r = true → PaymentRow.TenantID r = t) →
  PaymentRow.ID <$> select_one p (payments d) = Some id → names d t id.
Proof.
  intros Hp (r & Hr & ->)%fmap_Some_1. apply select_one_Some in Hr as [Hin Hk].
  exists r. auto.
Qed.

Lemma key_id_names d t k id : key_id (payments d) t k = Some id → names d t id.
Proof. apply selected_names. intros r [? _]%idempotency_key_spec. done. Qed.

Lemma default_nonempty (o : option string) :
  is_empty (default ""%string o) = false → o = Some (default ""%string o).
Proof. by destruct o. Qed.

(** *** What an event does to the payments *)
Lemma in_world_Now s r s' :
  in_world (S := S) Now s = (r, s') → ∃ now, r = Ok now ∧ s' = set_wworld (tick_clock (wworld s)) s.
Proof. intros (w & [= <- <-] & ->)%in_world_inv. by eexists. Qed.

Record kept (s s' : WebhookState (S := S)) : Prop := {
  kept_db : wdb s' = wdb s; kept_ids : processedIDs s' = processedIDs s }.

Lemma record_gateway_ok t inv amount ref s id s' :
  billing_inv (wdb s) → record_gateway t inv amount ref s = (Ok id, s') →
  processedIDs s' = processedIDs s ∧ billing_inv (wdb s') ∧
  paid_into (wdb s) (wdb s') inv t (paise amount) ∧
  ∃ nid now date, ledger (wdb s) (wdb s')
    (payment_of (mkRecordPayment t inv date (paise amount) Payment.PaymentMethodRazorpay
       (Some ref) None "" "" "") nid now) id.
Proof.
  intros Hinv H. apply bind_ok_inv in H as (date & s1 & Hn & H).
  apply in_world_Now in Hn as (d0 & [= <-] & ->).
  apply in_world_inv in H as (w & H & ->). cbn in H.
  apply record_ok in H as (Hp & (nid & now & Hl) & Hi & _); [|done].
  split_and!; [done|done|done|]. by exists nid, now, date.
Qed.

Lemma ledger_names d d' p id : ledger d d' p id → names d' (Payment.TenantID p) id.
Proof. intros H%ledger_key. by eapply key_id_names. Qed.

Lemma publish_failed_kept uc mk s r s' :
  publish_failed uc mk s = (r, s') → kept s s'.
Proof.
  unfold publish_failed. destruct (eventBus uc) as [b|]; [|by intros [= <- <-]].
  cbv [mbind SM_mbind SM_bind SM_modify]. destruct (in_world Now s) as [r0 s1] eqn:E.
  apply in_world_Now in E as (now & -> & ->). by intros [= <- <-].
Qed.

Lemma reverse_names cmd w id w' :
  billing_inv (w_db w) → ReversePaymentExecute cmd w = (Ok id, w') →
  billing_inv (w_db w') ∧ names (w_db w') (rv_TenantID cmd) id.
Proof.
  intros Hinv. unfold ReversePaymentExecute.
  destruct (is_empty (rv_OriginalPayID cmd)); [intros H; discriminate H|].
  destruct (is_empty (rv_Reason cmd)); [intros H; discriminate H|]. intros H.
  apply with_errors_ok, UoWExecute_ok in H as (w1 & H & -> & _).
  set (w0 := tick_stmts w) in *. change (w_db w) with (w_db w0) in Hinv.
  apply bind_ok_inv in H as (orig & wa & Ho & H). apply find_payment_ok in Ho as (Hda & _).
  apply bind_ok_inv in H as (ex & wb & He & H).
  assert (Hb : w_db wb = w_db wa ∧ (is_empty ex = false → names (w_db wa) (rv_TenantID cmd) ex)).
  { unfold existing_by_reference, FindByReference in He.
    apply bind_ok_inv in He as (r & wc & Hf & He). unfold SM_try in Hf.
    destruct (is_empty (TrimSpace _)).
    { injection Hf as <- <-. injection He as <- <-. done. }
    destruct (findIDByIdempotencyKey _ _ wa) as [r0 w2] eqn:E. injection Hf as -> ->.
    apply query_row_inv in E as (Hd & _ & E). destruct r as [id0|e].
    - injection He as <- <-. split; [done|]. intros _. by eapply key_id_names.
    - destruct (is_no_rows e); [|discriminate He]. injection He as <- <-. done. }
  destruct Hb as [Hdb Hex]. destruct (is_empty ex).
  - apply reverse_ok in H as (_ & (n & date & now & Hl) & Hi); [|by rewrite Hdb, Hda].
    split; [done|]. by apply ledger_names in Hl.
  - injection H as <- <-. rewrite Hdb. split; [by rewrite Hda|]. by apply Hex.
Qed.

(** What an applied event leaves: the invariants, and a result that is empty
    or names a payment of the tenant. *)
Record applied (t : string) (s s' : WebhookState (S := S)) (id : string) : Prop := {
  applied_ids : processedIDs s' = processedIDs s;
  applied_inv : billing_inv (wdb s');
  applied_names : is_empty id = false → names (wdb s') t id }.

Lemma applied_kept t s s' : billing_inv (wdb s) → kept s s' → applied t s s' "".
Proof. intros Hinv [K1 K2]. split; [done|by rewrite K1|done]. Qed.

Lemma record_gateway_applied t inv amount ref s s1 id s' :
  billing_inv (wdb s) → kept s s1 → record_gateway t inv amount ref s1 = (Ok id, s') →
  applied t s s' id.
Proof.
  intros Hinv [K1 K2] H.
  apply record_gateway_ok in H as (G1 & G2 & _ & nid & now & date & Hl); [|by rewrite K1].
  split; [congruence|done|]. intros _. by apply ledger_names in Hl.
Qed.

Lemma publish_applied uc mk t s s1 s' :
  billing_inv (wdb s) → kept s s1 → publish_failed uc mk s1 = (Ok tt, s') → applied t s s' "".
Proof.
  intros Hinv [K1 K2] [K3 K4]%publish_failed_kept. apply applied_kept; [done|].
  split; congruence.
Qed.

(** A lookup leaves everything; the id it finds names a payment. *)
Lemma find_reference_applied ref t s id s' :
  billing_inv (wdb s) → findByReference ref t s = (Ok id, s') → kept s s' ∧ applied t s s' id.
Proof.
  intros Hinv (w & H & ->)%in_world_inv. apply lookup_reference_ok in H as [Hd H].
  specialize (H id eq_refl). assert (Hk : kept s (set_wworld w s)) by by split.
  split; [done|]. split; [done|by rewrite (kept_db _ _ Hk)|]. rewrite (kept_db _ _ Hk). intros Hne.
  destruct (is_empty (TrimSpace ref)); [by subst|]. rewrite H in Hne.
  apply default_nonempty in Hne. rewrite H. by eapply key_id_names.
Qed.

Lemma find_razorpay_applied pid_ t s id s' :
  billing_inv (wdb s) → findRazorpayPayment_ t pid_ s = (Ok id, s') →
  kept s s' ∧ applied t s s' id.
Proof.
  intros Hinv (w & H & ->)%in_world_inv.
  apply (lookup_query_ok (λ d, PaymentRow.ID <$> select_one (razorpay_key t pid_) (payments d)))
    in H as [Hd H].
  specialize (H id eq_refl). assert (Hk : kept s (set_wworld w s)) by by split.
  split; [done|]. split; [done|by rewrite (kept_db _ _ Hk)|]. rewrite (kept_db _ _ Hk). intros Hne.
  rewrite H in Hne. apply default_nonempty in Hne. rewrite H.
  eapply selected_names; [|exact Hne]. unfold razorpay_key.
  by intros r [?%String.eqb_eq _]%andb_true_iff.
Qed.

Lemma kept_trans s1 s2 s3 : kept s1 s2 → kept s2 s3 → kept s1 s3.
Proof. intros [A B] [C D]. split; congruence. Qed.

Lemma applied_after t s s1 s2 id : kept s s1 → applied t s1 s2 id → applied t s s2 id.
Proof. intros [A B] [C D E]. split; [congruence|done|done]. Qed.

Lemma recordPaymentEntity_ok uc t entity s id s' :
  billing_inv (wdb s) → recordPaymentEntity uc t entity s = (Ok id, s') → applied t s s' id.
Proof.
  intros Hinv. unfold recordPaymentEntity. destruct (is_empty (pe_ID _)); [intros Hd; discriminate Hd|]. intros H.
  apply bind_ok_inv in H as (ex & s1 & Hx & H).
  apply find_razorpay_applied in Hx as [K1 A1]; [|done].
  destruct (is_empty ex); cbn [negb] in H; [|by injection H as <- <-].
  destruct (is_empty (pe_InvoiceID _)).
  { apply bind_ok_inv in H as ([] & s2 & Hp & H). injection H as <- <-.
    by eapply publish_applied. }
  apply bind_ok_inv in H as (er & s2 & Hr & H).
  apply find_reference_applied in Hr as [K2 A2]; [|by apply A1].
  destruct (is_empty er); cbn [negb] in H.
  - eapply record_gateway_applied; [done| |exact H]. by eapply kept_trans.
  - injection H as <- <-. by eapply applied_after.
Qed.

Lemma recordOrderEntity_ok uc t entity s id s' :
  billing_inv (wdb s) → recordOrderEntity uc t entity s = (Ok id, s') → applied t s s' id.
Proof.
  intros Hinv. unfold recordOrderEntity. destruct (is_empty (oe_ID _)); [intros Hd; discriminate Hd|]. intros H.
  apply bind_ok_inv in H as (er & s1 & Hr & H).
  apply find_reference_applied in Hr as [K1 A1]; [|done].
  destruct (is_empty er); cbn [negb] in H; [|by injection H as <- <-].
  destruct (is_empty (oe_InvoiceID _)).
  - apply bind_ok_inv in H as ([] & s2 & Hp & H). injection H as <- <-.
    by eapply publish_applied.
  - by eapply record_gateway_applied.
Qed.

Lemma processRefundEntity_ok uc t entity s id s' :
  billing_inv (wdb s) → processRefundEntity uc t entity s = (Ok id, s') → applied t s s' id.
Proof.
  intros Hinv. unfold processRefundEntity. destruct (is_empty (re_PaymentID _)); [intros Hd; discriminate Hd|].
  destruct (negb (reverseUC uc)); [intros Hd; discriminate Hd|]. intros H.
  apply bind_ok_inv in H as (er & s1 & Hr & H).
  apply find_reference_applied in Hr as [K1 A1]; [|done].
  destruct (is_empty er); [discriminate H|]. apply in_world_inv in H as (w & H & ->).
  apply reverse_names in H as [Hi Hn]; [|by apply A1]. by split; [apply K1|..].
Qed.

Lemma apply_event_ok uc t eid ev s id s' :
  billing_inv (wdb s) → apply_event uc t eid ev s = (Ok id, s') → applied t s s' id.
Proof.
  intros Hinv. unfold apply_event. intros Hrun. repeat case_match.
  - by eapply recordPaymentEntity_ok.
  - by eapply recordOrderEntity_ok.
  - by eapply processRefundEntity_ok.
  - apply bind_ok_inv in Hrun as ([] & s2 & Hp & Hret). injection Hret as <- <-.
    eapply publish_applied; [done| |exact Hp]. by split.
  - injection Hrun as <- <-. by apply applied_kept.
Qed.

(** *** Event ids *)

(** The payment an event id is recorded on, if any. *)
Definition webhook_id (d : DB) (t eid : string) : option string :=
  PaymentRow.ID <$> select_one (webhook_key t eid) (payments d).

Lemma webhook_key_spec t eid r :
  webhook_key t eid r = true ↔ PaymentRow.TenantID r = t ∧ PaymentRow.WebhookEventID r = Some eid.
Proof. unfold webhook_key. by rewrite andb_true_iff, String.eqb_eq, bool_decide_eq_true. Qed.

Lemma payment_key_spec id t r :
  payment_key id t r = true ↔ PaymentRow.ID r = id ∧ PaymentRow.TenantID r = t.
Proof. unfold payment_key. by rewrite andb_true_iff, !String.eqb_eq. Qed.

Lemma set_webhook_id_ok id t eid w w' :
  SetWebhookEventID id t eid w = (Ok tt, w') → names (w_db w) t id →
  webhook_id (w_db w') t eid = Some id ∧ invoices (w_db w') = invoices (w_db w) ∧
  line_items (w_db w') = line_items (w_db w).
Proof.
  intros H (r0 & Hr0 & Hi0 & Ht0). apply stmt_inv in H as (_ & _ & _ & H). cbv beta zeta in H.
  set (l := payments (w_db w)) in *. set (now := db_now (w_stmts w)) in *.
  assert (Hmine : exists_row (payment_key id t) l = true)
    by (apply exists_row_spec; exists r0; by rewrite payment_key_spec).
  rewrite Hmine in H. cbn [andb] in H. destruct (exists_row _ l) eqn:Htaken in H; [discriminate H|].
  injection H as H. rewrite <- H. split; [|done]. unfold webhook_id. cbn [payments set_payments].
  assert (Hrow : ∀ r, r ∈ update_where (payment_key id t) (with_event eid now) l →
            webhook_key t eid r = true → PaymentRow.ID r = id).
  { intros r (x & Hx & ->)%elem_of_update Hk. destruct (payment_key id t x) eqn:Hp.
    - cbn. by apply payment_key_spec in Hp as [? _].
    - apply (proj1 (exists_row_false _ _)) with (r := x) in Htaken; [|done].
      by rewrite Hp, Hk in Htaken. }
  destruct (select_one (webhook_key t eid) _) as [r|] eqn:E.
  - apply select_one_Some in E as [Hin Hk]. cbn. f_equal. by apply Hrow.
  - exfalso. apply select_one_None with (r := with_event eid now r0) in E.
    + cbn in E. unfold webhook_key in E. cbn in E.
      by rewrite Ht0, String.eqb_refl, bool_decide_true in E.
    + apply elem_of_update. exists r0. split; [done|].
      by rewrite (proj2 (payment_key_spec id t r0)).
Qed.

Lemma markProcessed_ok eid id s r s' :
  markProcessed eid id s = (r, s') →
  r = Ok tt ∧ wdb s' = wdb s ∧ handlers_state s' = handlers_state s ∧
  (eid ≠ ""%string → pid <$> (processedIDs s' !! eid) = Some id).
Proof.
  unfold markProcessed, is_empty. destruct (String.eqb_spec eid ""); [by intros [= <- <-]|].
  cbv [mbind SM_mbind SM_bind SM_modify]. destruct (in_world Now s) as [r0 s1] eqn:E.
  apply in_world_Now in E as (now & -> & ->). intros [= <- <-]. split_and!; try done.
  intros _. cbn. by rewrite lookup_insert_eq.
Qed.

(** An event that was applied is remembered in both layers. *)
Lemma process_event_ok uc t eid ev s id s' :
  billing_inv (wdb s) → eid ≠ ""%string → process_event uc t eid ev s = (Ok id, s') →
  pid <$> (processedIDs s' !! eid) = Some id ∧
  (is_empty id = false → webhook_id (wdb s') t eid = Some id).
Proof.
  intros Hinv Heid H. apply bind_ok_inv in H as (id1 & s1 & Ha & H).
  apply apply_event_ok in Ha as [A1 A2 A3]; [|done].
  apply bind_ok_inv in H as ([] & s2 & Hs & H). apply bind_ok_inv in H as ([] & s3 & Hm & H).
  apply markProcessed_ok in Hm as (_ & Hd & _ & Hm).
  apply bind_ok_inv in H as ([] & s4 & Hc & H). injection Hc as <-. injection H as <- <-.
  cbn. split; [by apply Hm|]. unfold wdb in *. cbn. rewrite Hd. intros Hne.
  rewrite Hne in Hs. unfold is_empty in Hs. destruct (String.eqb_spec eid ""); [done|].
  apply in_world_inv in Hs as (w & Hs & ->). cbn.
  apply UoWExecute_ok in Hs as (w1 & Hs & -> & _).
  apply set_webhook_id_ok in Hs as (Hw & _); [done|]. by apply A3.
Qed.

(** The start of a request: what it reads and what stays. *)
Lemma isProcessed_ok eid s r s' :
  isProcessed eid s = (r, s') →
  ∃ o, r = Ok o ∧ wdb s' = wdb s ∧ handlers_state s' = handlers_state s ∧
    (o = None ∨ (eid ≠ ""%string ∧ o = pid <$> (processedIDs s !! eid))).
Proof.
  unfold isProcessed, is_empty. destruct (String.eqb_spec eid "").
  { intros [= <- <-]. eexists. split_and!; try done. by left. }
  unfold cleanProcessedLocked. cbv [mbind SM_mbind SM_bind SM_modify SM_get].
  destruct (in_world Now s) as [r0 s1] eqn:E. apply in_world_Now in E as (now & -> & ->).
  intros [= <- <-]. eexists. split_and!; try done. cbn.
  rewrite map_lookup_filter. destruct (processedIDs s !! eid) as [p|]; cbn; [|by left].
  case_guard; cbn; [by right|by left].
Qed.

(** A request past its signature: served from memory, from the table, or
    applied. *)
Inductive outcome (uc : RazorpayWebhookUseCase) (t eid : string) (ev0 : RazorpayWebhookEvent)
    (s : WebhookState)
    : result string → WebhookState → Prop :=
| out_cached id s' : eid ≠ ""%string → pid <$> (processedIDs s !! eid) = Some id →
    wdb s' = wdb s → handlers_state s' = handlers_state s → outcome uc t eid ev0 s (Ok id) s'
| out_stored id s' : eid ≠ ""%string → webhook_id (wdb s) t eid = Some id →
    is_empty id = false → wdb s' = wdb s → handlers_state s' = handlers_state s →
    pid <$> (processedIDs s' !! eid) = Some id → outcome uc t eid ev0 s (Ok id) s'
| out_applied ev s1 r s' : wdb s1 = wdb s → handlers_state s1 = handlers_state s →
    (eid ≠ ""%string → default ""%string (webhook_id (wdb s) t eid) = ""%string) →
    (is_empty (we_Event ev0) = false → ev = ev0) →
    process_event uc t eid ev s1 = (r, s') → outcome uc t eid ev0 s r s'
| out_failed e s' : wdb s' = wdb s → handlers_state s' = handlers_state s →
    outcome uc t eid ev0 s (Fail e) s'.

Lemma touch_ok s r s' :
  touchLastReceived s = (r, s') →
  r = Ok tt ∧ wdb s' = wdb s ∧ handlers_state s' = handlers_state s ∧
  processedIDs s' = processedIDs s.
Proof.
  unfold touchLastReceived. cbv [mbind SM_mbind SM_bind SM_modify].
  destruct (in_world Now s) as [r0 s1] eqn:E. apply in_world_Now in E as (now & -> & ->).
  by intros [= <- <-].
Qed.

(** [ExecuteEvent] from the lookups on. *)
Lemma lookups_outcome uc t eid ev0 ev s s0 r s' :
  (is_empty (we_Event ev0) = false → ev = ev0) →
  wdb s0 = wdb s → handlers_state s0 = handlers_state s →
  (existing ← (if is_empty eid then mret ""%string else findWebhookEvent t eid);
   if negb (is_empty existing) then _ ← markProcessed eid existing; mret existing
   else process_event uc t eid ev) s0 = (r, s') →
  outcome uc t eid ev0 s r s'.
Proof.
  intros Hev Hd Hh. cbv [mbind SM_mbind SM_bind].
  destruct ((if is_empty eid then mret ""%string else findWebhookEvent t eid) s0) as [re s1] eqn:Ef.
  assert (Hf : wdb s1 = wdb s ∧ handlers_state s1 = handlers_state s ∧
    ∀ id, re = Ok id → eid ≠ ""%string → id = default ""%string (webhook_id (wdb s) t eid)).
  { unfold is_empty in Ef. destruct (String.eqb_spec eid ""); [by injection Ef as <- <-|].
    apply in_world_inv in Ef as (w & Ef & ->).
    apply (lookup_query_ok (λ d, webhook_id d t eid)) in Ef as [Hw Hid].
    unfold wdb in *. cbn. rewrite Hw. split_and!; [done|done|].
    intros id Hr _. by rewrite (Hid id Hr), Hd. }
  destruct Hf as (Hd1 & Hh1 & Hid). destruct re as [ex|e].
  2:{ intros [= <- <-]. by apply out_failed. }
  destruct (is_empty ex) eqn:Hex; cbn [negb].
  - intros H. eapply (out_applied _ _ _ _ _ ev s1); [done|done| |done|exact H].
    intros Hne. rewrite <- (Hid ex eq_refl Hne). by apply String.eqb_eq.
  - unfold is_empty in Ef. destruct (String.eqb_spec eid "") as [|Hne].
    { injection Ef as <- <-. discriminate Hex. }
    destruct (markProcessed eid ex s1) as [rm s2] eqn:Hm.
    apply markProcessed_ok in Hm as (-> & Hd2 & Hh2 & Hm). intros [= <- <-].
    specialize (Hid ex eq_refl Hne).
    apply out_stored; [done| |done|congruence|congruence|by apply Hm].
    rewrite Hid in Hex. rewrite Hid. by apply default_nonempty.
Qed.

Lemma ExecuteEvent_outcome Unmarshal uc ctx body sg eid ev s r s' :
  ExecuteEvent Unmarshal uc ctx body sg eid ev s = (r, s') →
  outcome uc (TenantIDFromContext ctx) eid ev s r s'.
Proof.
  intros H. unfold ExecuteEvent in H. cbv [mbind SM_mbind] in H. unfold SM_bind at 1 in H.
  unfold SM_lift at 1 in H.
  destruct (VerifySignature uc body sg) as [[]|e]; [|injection H as <- <-; by apply out_failed].
  unfold SM_bind at 1 in H.
  destruct ((if is_empty (we_Event ev) then SM_lift (Unmarshal body) else mret ev) s) as [re s0] eqn:Eu.
  assert (s0 = s) as -> by (by destruct (is_empty (we_Event ev)); injection Eu).
  destruct re as [ev1|e]; [|injection H as <- <-; by apply out_failed].
  unfold SM_bind at 1 in H. destruct (touchLastReceived s) as [rt s1] eqn:Et.
  apply touch_ok in Et as (-> & Hd1 & Hh1 & Hi1). cbn zeta in H.
  unfold SM_bind at 1 in H. destruct (isProcessed eid s1) as [ri s2] eqn:Ei.
  apply isProcessed_ok in Ei as (o & -> & Hd2 & Hh2 & Ho).
  destruct o as [id|].
  - injection H as <- <-. destruct Ho as [Ho|[Hne Ho]]; [done|].
    apply out_cached; [done|by rewrite <- Hi1|congruence..].
  - eapply lookups_outcome; [|..|exact H]; [|congruence..].
    intros Hne. rewrite Hne in Eu. by injection Eu.
Qed.

(** *** Without a tenant *)
Lemma record_without_tenant cmd w r w' :
  rp_TenantID cmd = ""%string → (∀ i, i ∈ invoices (w_db w) → InvoiceRow.TenantID i ≠ ""%string) →
  RecordPaymentExecute cmd w = (r, w') → is_Ok r = false ∧ w_db w' = w_db w.
Proof.
  intros Ht Hno H. unfold RecordPaymentExecute in H.
  destruct (is_empty (rp_InvoiceID cmd)); [by injection H as <- <-|].
  destruct (fleb _ _); [by injection H as <- <-|].
  destruct r as [id|e].
  2:{ apply with_errors_fail in H as (e0 & H). by apply UoWExecute_fail in H. }
  exfalso. apply with_errors_ok, UoWExecute_ok in H as (w1 & H & _).
  apply bind_ok_inv in H as ([] & wa & Hp & _). apply bind_ok_inv in Hp as (a & wb & Hf & _).
  apply InvoiceApp.find_invoice_ok in Hf as [_ Hst]. rewrite Ht in Hst.
  apply InvoiceApp.stored_invoice_row in Hst as (i & Hi & _ & Hit & _). by apply (Hno i).
Qed.

Lemma no_tenant_select d (p : PaymentRow.Payment → bool) :
  (∀ r, r ∈ payments d → PaymentRow.TenantID r ≠ ""%string) →
  (∀ r, p r = true → PaymentRow.TenantID r = ""%string) →
  PaymentRow.ID <$> select_one p (payments d) = None.
Proof.
  intros Hno Hp. destruct (select_one p (payments d)) as [r|] eqn:E; [|done].
  apply select_one_Some in E as [Hr Hk]. by destruct (Hno r Hr (Hp r Hk)).
Qed.

(** Tables without rows of the empty tenant. *)
Definition tenanted (d : DB) : Prop :=
  (∀ i, i ∈ invoices d → InvoiceRow.TenantID i ≠ ""%string) ∧
  (∀ p, p ∈ payments d → PaymentRow.TenantID p ≠ ""%string).

Lemma find_reference_none ref s r s' :
  tenanted (wdb s) → findByReference ref "" s = (r, s') →
  wdb s' = wdb s ∧ ∀ id, r = Ok id → id = ""%string.
Proof.
  intros [_ Hno] (w & H & ->)%in_world_inv. apply lookup_reference_ok in H as [Hd H].
  split; [done|]. intros id Hr. specialize (H id Hr). unfold key_id in H.
  rewrite (no_tenant_select (w_db (wworld s))) in H; [|done|by intros x [? _]%idempotency_key_spec].
  by case_match.
Qed.

Lemma find_razorpay_none pid_ s r s' :
  tenanted (wdb s) → findRazorpayPayment_ "" pid_ s = (r, s') →
  wdb s' = wdb s ∧ ∀ id, r = Ok id → id = ""%string.
Proof.
  intros [_ Hno] (w & H & ->)%in_world_inv.
  apply (lookup_query_ok (λ d, PaymentRow.ID <$> select_one (razorpay_key "" pid_) (payments d)))
    in H as [Hd H].
  split; [done|]. intros id Hr. specialize (H id Hr).
  rewrite (no_tenant_select (w_db (wworld s))) in H; [done|done|].
  unfold razorpay_key. by intros x [?%String.eqb_eq _]%andb_true_iff.
Qed.

Lemma gateway_none inv amount ref s r s' :
  tenanted (wdb s) → record_gateway "" inv amount ref s = (r, s') →
  wdb s' = wdb s ∧ is_Ok r = false.
Proof.
  intros [Hno _]. unfold record_gateway. cbv [mbind SM_mbind SM_bind].
  destruct (in_world Now s) as [r0 s1] eqn:E. apply in_world_Now in E as (now & -> & ->).
  intros (w & H & ->)%in_world_inv. by apply record_without_tenant in H as [? ?].
Qed.

(** What an event does when nothing can be found: nothing to the tables,
    and no payment is returned. *)
Definition inert (s : WebhookState (S := S)) (r : result string) (s' : WebhookState (S := S)) : Prop :=
  wdb s' = wdb s ∧ ∀ id, r = Ok id → id = ""%string.

Lemma acknowledge_inert uc mk s r s' :
  (_ ← publish_failed uc mk; mret ""%string) s = (r, s') → inert s r s'.
Proof.
  cbv [mbind SM_mbind SM_bind]. destruct (publish_failed uc mk s) as [r0 s1] eqn:E.
  pose proof (publish_failed_kept _ _ _ _ _ E) as [Hd _].
  destruct r0; intros [= <- <-]; (split; [done|]); by intros ? [= <-].
Qed.

Lemma captured_inert uc entity s r s' :
  tenanted (wdb s) → recordPaymentEntity uc "" entity s = (r, s') → inert s r s'.
Proof.
  intros Ht. unfold recordPaymentEntity. destruct (is_empty (pe_ID _)); [by intros [= <- <-]|].
  unfold mbind, SM_mbind. unfold SM_bind at 1.
  destruct (findRazorpayPayment_ _ _ s) as [rx s1] eqn:Ex. apply find_razorpay_none in Ex as [Hd1 Hx]; [|done].
  destruct rx as [ex|e]; [|by intros [= <- <-]]. rewrite (Hx ex eq_refl). cbn [is_empty String.eqb negb].
  destruct (is_empty (pe_InvoiceID _)).
  { intros H%acknowledge_inert. unfold inert in *. by rewrite <- Hd1. }
  unfold SM_bind at 1. destruct (findByReference _ _ s1) as [rr s2] eqn:Er.
  apply find_reference_none in Er as [Hd2 Hr]; [|by rewrite Hd1].
  destruct rr as [er|e]; [|intros [= <- <-]; split; [congruence|done]]. rewrite (Hr er eq_refl).
  cbn [is_empty String.eqb negb]. intros H. apply gateway_none in H as [Hd3 Hf]; [|by rewrite Hd2, Hd1].
  split; [congruence|]. by intros id ->.
Qed.

Lemma order_inert uc entity s r s' :
  tenanted (wdb s) → recordOrderEntity uc "" entity s = (r, s') → inert s r s'.
Proof.
  intros Ht. unfold recordOrderEntity. destruct (is_empty (oe_ID _)); [by intros [= <- <-]|].
  unfold mbind, SM_mbind. unfold SM_bind at 1.
  destruct (findByReference _ _ s) as [rr s2] eqn:Er.
  apply find_reference_none in Er as [Hd2 Hr]; [|done].
  destruct rr as [er|e]; [|by intros [= <- <-]]. rewrite (Hr er eq_refl). cbn [is_empty String.eqb negb].
  destruct (is_empty (oe_InvoiceID _)).
  { intros H%acknowledge_inert. unfold inert in *. by rewrite <- Hd2. }
  intros H. apply gateway_none in H as [Hd3 Hf]; [|by rewrite Hd2]. split; [congruence|].
  by intros id ->.
Qed.

Lemma refund_inert uc entity s r s' :
  tenanted (wdb s) → processRefundEntity uc "" entity s = (r, s') → inert s r s'.
Proof.
  intros Ht. unfold processRefundEntity. destruct (is_empty (re_PaymentID _)); [by intros [= <- <-]|].
  destruct (negb (reverseUC uc)); [by intros [= <- <-]|].
  unfold mbind, SM_mbind. unfold SM_bind at 1.
  destruct (findByReference _ _ s) as [rr s2] eqn:Er.
  apply find_reference_none in Er as [Hd2 Hr]; [|done].
  destruct rr as [er|e]; [|by intros [= <- <-]]. rewrite (Hr er eq_refl).
  by intros [= <- <-].
Qed.

Lemma apply_event_inert uc eid ev s r s' :
  tenanted (wdb s) → apply_event uc "" eid ev s = (r, s') → inert s r s'.
Proof.
  intros Ht. unfold apply_event. intros Hrun. repeat case_match.
  - by eapply captured_inert.
  - by eapply order_inert.
  - by eapply refund_inert.
  - by eapply acknowledge_inert.
  - injection Hrun as <- <-. split; [done|]. by intros ? [= <-].
Qed.

(** a webhook request without a tenant in its context records nothing: no
    event of the gateway, captured, paid or refunded, changes any table as
    long as every row belongs to a tenant. *)
Theorem webhook_without_tenant Unmarshal uc ctx body sg eid ev s r s' :
  TenantIDFromContext ctx = ""%string → tenanted (wdb s) →
  ExecuteEvent Unmarshal uc ctx body sg eid ev s = (r, s') → wdb s' = wdb s.
Proof.
  intros Hctx Ht H. apply ExecuteEvent_outcome in H. rewrite Hctx in H.
  inversion H as [| |ev1 s1 r' s2 Hd1 _ _ _ Hp|]; subst; try done.
  unfold process_event, mbind, SM_mbind in Hp. unfold SM_bind at 1 in Hp.
  destruct (apply_event uc "" eid ev1 s1) as [ra s3] eqn:Ea.
  apply apply_event_inert in Ea as [Hd3 Hid]; [|by rewrite Hd1].
  destruct ra as [id|e]; [|injection Hp as <- <-; congruence].
  rewrite (Hid id eq_refl) in Hp. cbn [is_empty String.eqb negb andb] in Hp.
  unfold SM_bind at 1 in Hp. cbn [mret SM_mret SM_ret] in Hp. unfold SM_bind at 1 in Hp.
  destruct (markProcessed eid "" s3) as [rm s4] eqn:Em. apply markProcessed_ok in Em as (-> & Hd4 & _).
  injection Hp as <- <-. unfold wdb in *. cbn. congruence.
Qed.

(** *** One payment, two events *)
Lemma process_event_effect uc t eid ev s id s' :
  process_event uc t eid ev s = (Ok id, s') →
  ∃ s1, apply_event uc t eid ev s = (Ok id, s1) ∧ invoices (wdb s') = invoices (wdb s1) ∧
    line_items (wdb s') = line_items (wdb s1) ∧
    map immutable (payments (wdb s')) = map immutable (payments (wdb s1)).
Proof.
  intros H. apply bind_ok_inv in H as (id1 & s1 & Ha & H).
  apply bind_ok_inv in H as ([] & s2 & Hs & H). apply bind_ok_inv in H as ([] & s3 & Hm & H).
  apply markProcessed_ok in Hm as (_ & Hd & _ & _).
  apply bind_ok_inv in H as ([] & s4 & Hc & H). injection Hc as <-. injection H as <- <-.
  exists s1. split; [done|]. unfold wdb in *. cbn. rewrite Hd.
  destruct (negb (is_empty id1) && negb (is_empty eid)); [|by injection Hs as <-].
  apply in_world_inv in Hs as (w & Hs & ->). cbn. apply UoWExecute_ok in Hs as (w1 & Hs & -> & _).
  apply stmt_inv in Hs as (_ & _ & _ & Hs). cbv beta zeta in Hs.
  destruct (_ && exists_row (λ r, _) _); [discriminate Hs|]. injection Hs as <-. cbn.
  split_and!; [done|done|]. by apply map_update.
Qed.

(** An event id in neither layer. *)
Definition unseen (t eid : string) (s : WebhookState (S := S)) : Prop :=
  eid = ""%string ∨ (processedIDs s !! eid = None ∧ webhook_id (wdb s) t eid = None).

Lemma unseen_applied Unmarshal uc ctx body sg eid ev s id s' :
  let t := TenantIDFromContext ctx in
  unseen t eid s → is_empty (we_Event ev) = false →
  ExecuteEvent Unmarshal uc ctx body sg eid ev s = (Ok id, s') →
  ∃ s0 s1, wdb s0 = wdb s ∧ apply_event uc t eid ev s0 = (Ok id, s1) ∧
    invoices (wdb s') = invoices (wdb s1) ∧ line_items (wdb s') = line_items (wdb s1) ∧
    map immutable (payments (wdb s')) = map immutable (payments (wdb s1)).
Proof.
  intros t Hu Hev H. apply ExecuteEvent_outcome in H. fold t in H.
  inversion H as [id' s0 Hne Hc|id' s0 Hne Hst|ev1 s0 r' s0' Hd _ _ He Hp|]; subst.
  - destruct Hu as [Hu|[Hu _]]; [done|]. by rewrite Hu in Hc.
  - destruct Hu as [Hu|[_ Hu]]; [done|]. by rewrite Hu in Hst.
  - rewrite (He Hev) in Hp. apply process_event_effect in Hp as (s1 & Ha & H1 & H2 & H3).
    by exists s0, s1.
Qed.

Lemma paid_into_ext d d' e inv t x :
  paid_into d d' inv t x → invoices e = invoices d' → line_items e = line_items d' →
  paid_into d e inv t x.
Proof.
  intros (a & now & a1 & n & P1 & P2 & P3 & P4) Hi Hl. exists a, now, a1, n.
  split_and!; [done|done|by rewrite (stored_invoice_ext d')|].
  intros id t' Hne. rewrite (stored_invoice_ext d') by done. by apply P4.
Qed.

(** A reference no payment of the tenant carries. *)
Definition unreferenced (t ref : string) (d : DB) : Prop :=
  key_id (payments d) t ("ref:" +:+ ref)%string = None.

Lemma gateway_ledger t inv amount ref s id s' :
  billing_inv (wdb s) → TrimSpace ref = ref → ref ≠ ""%string → unreferenced t ref (wdb s) →
  record_gateway t inv amount ref s = (Ok id, s') →
  billing_inv (wdb s') ∧ paid_into (wdb s) (wdb s') inv t (paise amount) ∧
  List.length (payments (wdb s')) = Datatypes.S (List.length (payments (wdb s))) ∧
  ∀ ref', ref' ≠ ref → unreferenced t ref' (wdb s) → unreferenced t ref' (wdb s').
Proof.
  intros Hinv Htrim Hne Hun H.
  apply record_gateway_ok in H as (_ & Hi & Hp & nid & now & date & Hl); [|done].
  assert (Hkey : idempotencyKey (payment_of (mkRecordPayment t inv date (paise amount)
            Payment.PaymentMethodRazorpay (Some ref) None "" "" "") nid now)
          = ("ref:" +:+ ref)%string).
  { unfold idempotencyKey. cbn. rewrite Htrim. unfold is_empty.
    by destruct (String.eqb_spec ref ""). }
  destruct Hl as [(_ & Hk & _)|(_ & _ & n & Him)].
  { rewrite Hkey in Hk. unfold unreferenced in Hun. cbn in Hk, Hun. by rewrite Hun in Hk. }
  split_and!; [done|done| |].
  - apply (f_equal (@List.length _)) in Him. rewrite !List.length_map, List.length_app in Him.
    cbn in Him. lia.
  - intros ref' Hr Hu. unfold unreferenced. rewrite (key_id_immutable _ _ _ _ Him).
    unfold key_id. rewrite select_one_app. unfold unreferenced, key_id in Hu.
    destruct (select_one _ (payments (wdb s))); [done|]. cbn. rewrite Hkey.
    unfold idempotency_key. cbn. rewrite bool_decide_false; [by rewrite andb_false_r|].
    intros Heq. apply Hr. by injection Heq.
Qed.

(** The invariants read the invoices and the immutable columns alone. *)
Lemma immutable_row l l' r :
  map immutable l' = map immutable l → r ∈ l' → ∃ x, x ∈ l ∧ immutable x = immutable r.
Proof.
  intros Him Hr. assert (Hi : immutable r ∈ map immutable l).
  { rewrite <- Him. by apply list_elem_of_In, in_map, list_elem_of_In. }
  apply list_elem_of_In, in_map_iff in Hi as (x & Hx & Hin). exists x.
  split; [by apply list_elem_of_In|done].
Qed.

Lemma billing_inv_ext d d' :
  billing_inv d → invoices d' = invoices d →
  map immutable (payments d') = map immutable (payments d) → billing_inv d'.
Proof.
  intros [I1 I2 I3 I4] Hi Him. split.
  - unfold InvoiceRepo.invoices_pk. by rewrite Hi.
  - by rewrite Hi.
  - assert (Hf : ∀ l, map PaymentRow.ID l = map (λ c, c.1.1.1.1.1.1.1.1.1) (map immutable l)).
    { intros l. rewrite map_map. by apply map_ext. }
    by rewrite Hf, Him, <- Hf.
  - intros r1 r2 k H1 H2 K1 K2 Ht.
    apply (immutable_row (payments d)) in H1 as (x1 & H1 & [= E1 _ _ _ _ _ _ T1 _ J1]); [|done].
    apply (immutable_row (payments d)) in H2 as (x2 & H2 & [= E2 _ _ _ _ _ _ T2 _ J2]); [|done].
    rewrite <- E1, <- E2. apply (I4 x1 x2 k); congruence.
Qed.

(** A payment or an order not seen before reaches [record_gateway]. *)
Lemma find_reference_fresh ref t s id s' :
  unreferenced t ref (wdb s) → findByReference ref t s = (Ok id, s') →
  id = ""%string ∧ wdb s' = wdb s.
Proof.
  intros Hu (w & H & ->)%in_world_inv. apply lookup_reference_ok in H as [Hd H].
  split; [|done]. rewrite (H id eq_refl). unfold unreferenced, wdb in Hu. rewrite Hu.
  by case_match.
Qed.

Lemma captured_fresh uc t pay s id s' :
  PaymentRow.ID <$> select_one (razorpay_key t (pe_ID pay)) (payments (wdb s)) = None →
  unreferenced t (pe_ID pay) (wdb s) → pe_InvoiceID pay ≠ ""%string →
  recordPaymentEntity uc t pay s = (Ok id, s') →
  pe_ID pay ≠ ""%string ∧ ∃ s1, wdb s1 = wdb s ∧
    record_gateway t (pe_InvoiceID pay) (pe_Amount pay) (pe_ID pay) s1 = (Ok id, s').
Proof.
  intros Hz Hu Hne. unfold recordPaymentEntity.
  destruct (is_empty (pe_ID pay)) eqn:Hp; [intros H; discriminate H|]. intros H.
  split; [by apply String.eqb_neq|].
  apply bind_ok_inv in H as (ex & s1 & Hx & H). apply in_world_inv in Hx as (w & Hx & ->).
  apply (lookup_query_ok (λ d, PaymentRow.ID <$> select_one (razorpay_key t (pe_ID pay)) (payments d)))
    in Hx as [Hd1 Hx].
  specialize (Hx ex eq_refl). unfold wdb in Hz. rewrite Hz in Hx. cbn in Hx. subst ex.
  cbn [is_empty String.eqb negb] in H. unfold is_empty at 1 in H.
  destruct (String.eqb_spec (pe_InvoiceID pay) ""); [done|].
  apply bind_ok_inv in H as (er & s2 & Hr & H).
  apply find_reference_fresh in Hr as [-> Hd2].
  2:{ unfold unreferenced, wdb in *. cbn. by rewrite Hd1. }
  cbn [is_empty String.eqb negb] in H. exists s2. split; [|done]. rewrite Hd2. exact Hd1.
Qed.

Lemma order_fresh uc t ord s id s' :
  unreferenced t (oe_ID ord) (wdb s) → oe_InvoiceID ord ≠ ""%string →
  recordOrderEntity uc t ord s = (Ok id, s') →
  oe_ID ord ≠ ""%string ∧ ∃ s1, wdb s1 = wdb s ∧
    record_gateway t (oe_InvoiceID ord) (oe_AmountPaid ord) (oe_ID ord) s1 = (Ok id, s').
Proof.
  intros Hu Hne. unfold recordOrderEntity.
  destruct (is_empty (oe_ID ord)) eqn:Hp; [intros H; discriminate H|]. intros H.
  split; [by apply String.eqb_neq|].
  apply bind_ok_inv in H as (er & s2 & Hr & H).
  apply find_reference_fresh in Hr as [-> Hd2]; [|done].
  cbn [is_empty String.eqb negb] in H. unfold is_empty at 1 in H.
  destruct (String.eqb_spec (oe_InvoiceID ord) ""); [done|]. by exists s2.
Qed.

(** the gateway announces one payment with [payment.captured] and its
    order with [order.paid]; when both are delivered the invoice is credited
    twice and the ledger has two payments, because the one is recorded under
    the payment's id and the other under the order's. *)
Theorem captured_and_paid_credit_twice Unmarshal uc ctx b1 g1 e1 ev1 s id1 s1 b2 g2 e2 ev2 id2 s2 :
  let t := TenantIDFromContext ctx in
  let pay := we_Payment ev1 in
  let ord := we_Order ev2 in
  billing_inv (wdb s) →
  we_Event ev1 = "payment.captured"%string → we_Event ev2 = "order.paid"%string →
  pe_InvoiceID pay ≠ ""%string → oe_InvoiceID ord = pe_InvoiceID pay →
  pe_ID pay ≠ oe_ID ord → TrimSpace (pe_ID pay) = pe_ID pay → TrimSpace (oe_ID ord) = oe_ID ord →
  unseen t e1 s → unseen t e2 s1 →
  PaymentRow.ID <$> select_one (razorpay_key t (pe_ID pay)) (payments (wdb s)) = None →
  unreferenced t (pe_ID pay) (wdb s) → unreferenced t (oe_ID ord) (wdb s) →
  ExecuteEvent Unmarshal uc ctx b1 g1 e1 ev1 s = (Ok id1, s1) →
  ExecuteEvent Unmarshal uc ctx b2 g2 e2 ev2 s1 = (Ok id2, s2) →
  paid_into (wdb s) (wdb s1) (pe_InvoiceID pay) t (paise (pe_Amount pay)) ∧
  paid_into (wdb s1) (wdb s2) (pe_InvoiceID pay) t (paise (oe_AmountPaid ord)) ∧
  List.length (payments (wdb s2)) = (2 + List.length (payments (wdb s)))%nat.
Proof.
  intros t pay ord Hinv He1 He2 Hne Hsame Hdiff Ht1 Ht2 Hu1 Hu2 Hz Hr1 Hr2 H1 H2.
  apply unseen_applied in H1 as (s0 & sa & Hd0 & H1 & I1 & L1 & P1); [|done|by rewrite He1].
  apply unseen_applied in H2 as (s3 & sb & Hd3 & H2 & I2 & L2 & P2); [|done|by rewrite He2].
  fold t pay ord in H1, H2. unfold apply_event in H1, H2. rewrite He1 in H1. rewrite He2 in H2.
  cbn [String.eqb Ascii.eqb Bool.eqb] in H1, H2. fold pay in H1. fold ord in H2.
  rewrite <- Hd0 in Hinv, Hz, Hr1, Hr2.
  apply captured_fresh in H1 as (Hnp & s4 & Hd4 & H1); [|done..]. rewrite <- Hd4 in Hinv, Hr1, Hr2.
  apply gateway_ledger in H1 as (Hinv1 & Hp1 & Hl1 & Hr2'); [|done..].
  specialize (Hr2' _ (not_eq_sym Hdiff) Hr2).
  assert (Hids : map immutable (payments (wdb s3)) = map immutable (payments (wdb sa)))
    by congruence.
  assert (Hinv3 : billing_inv (wdb s3)).
  { rewrite Hd3. by apply (billing_inv_ext (wdb sa)). }
  assert (Hr3 : unreferenced t (oe_ID ord) (wdb s3)).
  { unfold unreferenced. by rewrite (key_id_immutable _ _ _ _ Hids). }
  apply order_fresh in H2 as (Hno & s5 & Hd5 & H2); [|done|congruence].
  rewrite <- Hd5 in Hinv3, Hr3.
  apply gateway_ledger in H2 as (_ & Hp2 & Hl2 & _); [|done..]. split_and!.
  - eapply paid_into_ext; [|done|done]. congruence.
  - rewrite Hsame in Hp2. eapply paid_into_ext; [|done|done]. congruence.
  - apply (f_equal (@List.length _)) in P1, P2. rewrite !List.length_map in P1, P2.
    rewrite P2, Hl2, Hd5, Hd3, P1, Hl1, Hd4, Hd0. done.
Qed.
End Theorems.

(** ** Concrete runs: an invoice of the demonstration company, paid through
    the gateway. *)
Definition demo_uc : RazorpayWebhookUseCase (S := unit) := mkWebhook "whsec" true None.
Definition demo_unmarshal (_ : string) : result RazorpayWebhookEvent := Fail (Err "unused").
Definition demo_sig : string := hex_encode (hmac_sha256 "whsec" "{}").
Definition demo_wstate (w : World) : WebhookState (S := unit) := mkWState w ∅ 0 ∅ tt.

Definition no_payment : RazorpayPaymentEntity := mkPaymentEntity "" "" 0 "" "" "" "" "".
Definition no_order : RazorpayOrderEntity := mkOrderEntity "" 0 "" "" "".
Definition no_refund : RazorpayRefundEntity := mkRefundEntity "" "" 0 "" "" "".
Definition demo_captured : RazorpayWebhookEvent :=
  mkWebhookEvent "payment.captured"
    (mkPaymentEntity "pay_1" "order_1" 59000 "INR" "captured" "" "" "id-0") no_order no_refund.
Definition demo_paid : RazorpayWebhookEvent :=
  mkWebhookEvent "order.paid" no_payment (mkOrderEntity "order_1" 59000 "INR" "paid" "id-0") no_refund.

Definition demo_execute (ctx : option string) (eid : string) (ev : RazorpayWebhookEvent)
    (s : WebhookState (S := unit)) : result string * WebhookState (S := unit) :=
  ExecuteEvent (env := demo_env) demo_unmarshal demo_uc ctx "{}" demo_sig eid ev s.

Definition webhook_s0 : WebhookState (S := unit) := demo_wstate InvoiceApp.generated_w.
Definition webhook_id1 : string :=
  match fst (demo_execute (Some "acme"%string) "evt_1" demo_captured webhook_s0) with
  | Ok id => id | Fail _ => ""%string end.
Definition webhook_s1 : WebhookState (S := unit) :=
  snd (demo_execute (Some "acme"%string) "evt_1" demo_captured webhook_s0).
Definition webhook_s3 : WebhookState (S := unit) :=
  snd (demo_execute (Some "acme"%string) "evt_2" demo_paid webhook_s1).
Definition webhook_id3 : string :=
  match fst (demo_execute (Some "acme"%string) "evt_2" demo_paid webhook_s1) with
  | Ok id => id | Fail _ => ""%string end.

Lemma tenanted_check d :
  forallb (λ i, negb (String.eqb (InvoiceRow.TenantID i) "")) (invoices d) = true →
  forallb (λ p, negb (String.eqb (PaymentRow.TenantID p) "")) (payments d) = true → tenanted d.
Proof.
  rewrite !forallb_forall. intros Hi Hp. split.
  - intros i Hin%list_elem_of_In Ht. specialize (Hi i Hin). by rewrite Ht in Hi.
  - intros p Hin%list_elem_of_In Ht. specialize (Hp p Hin). by rewrite Ht in Hp.
Qed.

Lemma webhook_without_tenant_witness :
  wdb (snd (demo_execute None "evt_1" demo_captured webhook_s0)) = wdb webhook_s0.
Proof.
  apply (webhook_without_tenant (env := demo_env) demo_unmarshal demo_uc None "{}" demo_sig "evt_1"
           demo_captured webhook_s0 (fst (demo_execute None "evt_1" demo_captured webhook_s0))
           (snd (demo_execute None "evt_1" demo_captured webhook_s0))).
  - reflexivity.
  - apply tenanted_check; vm_compute; reflexivity.
  - vm_compute. reflexivity.
Defined.

Lemma captured_and_paid_credit_twice_witness :
  paid_into (wdb webhook_s0) (wdb webhook_s1) "id-0" "acme" (paise 59000) ∧
  paid_into (wdb webhook_s1) (wdb webhook_s3) "id-0" "acme" (paise 59000) ∧
  List.length (payments (wdb webhook_s3)) = (2 + List.length (payments (wdb webhook_s0)))%nat.
Proof.
  apply (captured_and_paid_credit_twice (env := demo_env) demo_unmarshal demo_uc
           (Some "acme"%string) "{}" demo_sig "evt_1" demo_captured webhook_s0 webhook_id1
           webhook_s1 "{}" demo_sig "evt_2" demo_paid webhook_id3 webhook_s3).
  - apply billing_inv_short; vm_compute; reflexivity.
  - reflexivity.
  - reflexivity.
  - discriminate.
  - reflexivity.
  - discriminate.
  - reflexivity.
  - reflexivity.
  - right. split; vm_compute; reflexivity.
  - right. split; vm_compute; reflexivity.
  - vm_compute. reflexivity.
  - vm_compute. reflexivity.
  - vm_compute. reflexivity.
  - vm_compute. reflexivity.
  - vm_compute. reflexivity.
Defined.
End Webhook.
