(* ===== verification/WebhookHistory.v ===== *)
(** * Razorpay's redeliveries over a history

    [internal/payment/application/razorpay_webhook.go]: what the two layers
    that recognise an event id, the memory of the process and the column
    [payments.webhook_event_id], keep while other events are delivered and
    the process restarts. *)
From stdpp Require Import base decidable list strings option gmap.
From Stdlib Require Import ZArith Lia String.
From S2P Require Import Prelude GoFloat GoCrypto Shared Events InvoiceAggregate Database Outbox.
From S2P Require Import Repository InvoiceRepository InvoiceUseCases PaymentUseCases Razorpay.
Open Scope Z_scope.

Module WebhookHistory.
Import PaymentRepo PaymentApp Checkout Webhook.

Section History.
Context {env : Env} {S : Type}.
Abbreviation WS := (WebhookState (S := S)).
Abbreviation clock s := (w_clock (wworld s)).

(** ** The column *)
Definition columns_kept (d d' : DB) : Prop :=
  ∀ t eid id, webhook_id d t eid = Some id → webhook_id d' t eid = Some id.
#[local] Instance columns_kept_preorder : PreOrder columns_kept.
Proof. split; [by intros d t e i|intros d1 d2 d3 H1 H2 t e i H; by apply H2, H1]. Qed.

Lemma columns_kept_append r d : columns_kept d (set_payments (payments d ++ [r])%list d).
Proof.
  intros t e i. unfold webhook_id. cbn. induction (payments d) as [|x l IH]; [done|].
  cbn. by destruct (webhook_key t e x).
Qed.

Lemma columns_kept_update p g d :
  (∀ r, PaymentRow.ID (g r) = PaymentRow.ID r ∧ PaymentRow.TenantID (g r) = PaymentRow.TenantID r ∧
        PaymentRow.WebhookEventID (g r) = PaymentRow.WebhookEventID r) →
  columns_kept d (set_payments (update_where p g (payments d)) d).
Proof.
  intros Hg t e i. unfold webhook_id. cbn. rewrite select_one_update.
  - destruct (select_one _ _) as [x|]; [|done]. cbn. destruct (p x); [|done]. by destruct (Hg x) as [-> _].
  - intros r. destruct (Hg r) as (_ & Ht & Hw). unfold webhook_key. by rewrite Ht, Hw.
Qed.

(** An event id put on one payment is not taken from another. *)
Lemma set_event_kept t' id' eid' now t eid id d :
  webhook_id d t eid = Some id → (t' = t → id' ≠ id ∧ eid' ≠ eid) →
  webhook_id (set_payments (update_where (payment_key id' t') (with_event eid' now) (payments d)) d) t eid = Some id.
Proof.
  unfold webhook_id. cbn. intros H Hne. induction (payments d) as [|x l IH]; [done|].
  cbn in *. destruct (payment_key id' t' x) eqn:Hp.
  - apply payment_key_spec in Hp as [Hi Ht]. assert (Hno : webhook_key t eid (with_event eid' now x) = false).
    { apply not_true_iff_false. rewrite webhook_key_spec. cbn. rewrite Ht. intros [E [= F]]. by destruct (Hne E). }
    rewrite Hno. destruct (webhook_key t eid x) eqn:Hw; [|by apply IH].
    apply webhook_key_spec in Hw as [Ht' _]. cbn in H. injection H as H.
    destruct (Hne ltac:(congruence)) as [E _]. congruence.
  - destruct (webhook_key t eid x); [done|]. by apply IH.
Qed.

(** ** Time moves on and the columns stay *)
Definition onward (w w' : World) : Prop := (w_clock w <= w_clock w')%nat ∧ columns_kept (w_db w) (w_db w').
#[local] Instance onward_preorder : PreOrder onward.
Proof. split; [intros w; by split|]. intros w1 w2 w3 [A B] [C D]. split; [lia|by etrans]. Qed.

Lemma stmt_onward {A} (q : Time → DB → result A * DB) :
  (∀ now d, columns_kept d (snd (q now d))) → preserves onward (stmt q).
Proof.
  intros Hq w. destruct (stmt q w) as [r w'] eqn:E. apply stmt_inv in E as (_ & Hc & _ & E). cbn [snd].
  split; [lia|]. destruct r as [a|e]; [|by destruct E as [-> _]].
  specialize (Hq (db_now (w_stmts w)) (w_db w)). by rewrite E in Hq.
Qed.
Lemma Now_onward : preserves onward Now.
Proof. intros w. split; cbn; [lia|done]. Qed.
Lemma GenerateUUID_onward : preserves onward GenerateUUID.
Proof. intros w. by split. Qed.
Lemma UoWExecute_onward {A} (fn : M A) : preserves onward fn → preserves onward (UoWExecute fn).
Proof.
  intros Hf w. specialize (Hf (tick_stmts w)). unfold UoWExecute, WithTransaction.
  destruct (stmt_fault _); [by split|]. destruct (fn (tick_stmts w)) as [[a|e] w'].
  - destruct (stmt_fault _); destruct Hf as [Hc Hd]; split; cbn in *; [lia|done|lia|done].
  - destruct Hf as [Hc _]. split; cbn in *; [lia|done].
Qed.
Lemma with_errors_onward {A} l (m : M A) : preserves onward m → preserves onward (with_errors l m).
Proof. intros Hm w. specialize (Hm w). unfold with_errors. by destruct (m w) as [[]]. Qed.

Ltac onward_leaf u :=
  first [ apply Now_onward | apply GenerateUUID_onward | apply UoWExecute_onward; preserve_with onward_leaf
        | apply with_errors_onward; preserve_with onward_leaf
        | apply stmt_onward; intros ? ?; cbn; repeat case_match; cbn; simplify_eq;
          first [ done | by intros ? ? ? ? | apply columns_kept_append | by apply columns_kept_update ] ].

Lemma invoice_Save_onward a : preserves onward (InvoiceRepo.Save a).
Proof.
  unfold InvoiceRepo.Save, InvoiceRepo.InvoiceExists, InvoiceRepo.updateInvoiceFull, InvoiceRepo.CreateInvoice,
    InvoiceRepo.insertInvoiceExtended, SaveEvents, save_event, InvoiceRepo.persistLineItems,
    InvoiceRepo.deleteLineItems, InvoiceRepo.insertLineItem, query, query_row, exec.
  preserve_with onward_leaf.
Qed.
Lemma pay_invoice_onward i t a : preserves onward (pay_invoice i t a).
Proof.
  unfold pay_invoice, InvoiceApp.find_invoice, InvoiceRepo.Find, InvoiceRepo.findInvoiceBySQL,
    InvoiceRepo.loadLineItems, query, query_row.
  preserve_with ltac:(fun u => first [apply invoice_Save_onward | onward_leaf u]).
Qed.
Lemma payment_Save_onward p : preserves onward (PaymentRepo.Save p).
Proof.
  unfold PaymentRepo.Save, save_new, insert_or_existing, findIDByIdempotencyKey, GetPaymentByID, CreatePayment,
    insertPayment, insert_row, SaveEvents, save_event, query, query_row, exec.
  preserve_with onward_leaf.
Qed.
Lemma RecordPaymentExecute_onward cmd : preserves onward (RecordPaymentExecute cmd).
Proof.
  unfold RecordPaymentExecute, SetRazorpayFields, update_unique, exec.
  repeat case_match; try (by intros w; cbn).
  all: apply with_errors_onward, UoWExecute_onward.
  all: preserve_with ltac:(fun u => first [apply pay_invoice_onward | apply payment_Save_onward | onward_leaf u]).
Qed.
Lemma ReversePaymentExecute_onward cmd : preserves onward (ReversePaymentExecute cmd).
Proof.
  unfold ReversePaymentExecute, find_payment, PaymentRepo.Find, GetPaymentByID, existing_by_reference,
    FindByReference, findIDByIdempotencyKey, reverse, query_row.
  repeat case_match; try (by intros w; cbn).
  all: apply with_errors_onward, UoWExecute_onward.
  all: preserve_with ltac:(fun u => first [apply pay_invoice_onward | apply payment_Save_onward | onward_leaf u]).
Qed.
Lemma lookup_onward q : preserves onward q → preserves onward (lookup_in_tx q).
Proof. intros Hq. unfold lookup_in_tx. apply UoWExecute_onward. preserve_with ltac:(fun _ => exact Hq). Qed.
Lemma find_onward t r : preserves onward (FindByReference r t).
Proof. unfold FindByReference, findIDByIdempotencyKey, query_row. preserve_with onward_leaf. Qed.

(** ** The use case, without the step that puts the id on a payment *)
Definition steady (s s' : WS) : Prop := onward (wworld s) (wworld s') ∧ processedIDs s' = processedIDs s.
#[local] Instance steady_preorder : PreOrder steady.
Proof. split; [intros s; by split|]. intros s1 s2 s3 [A B] [C D]. split; [by etrans|congruence]. Qed.

Lemma in_world_steady {A} (m : M A) : preserves onward m → preserves steady (in_world (S := S) m).
Proof. intros Hm s. specialize (Hm (wworld s)). unfold in_world. by destruct (m (wworld s)). Qed.
Lemma modify_steady (f : WS → WS) :
  (∀ s, wworld (f s) = wworld s ∧ processedIDs (f s) = processedIDs s) → preserves steady (SM_modify f).
Proof. intros Hf s. destruct (Hf s) as [A B]. split; cbn; [by rewrite A|done]. Qed.

Ltac steady_leaf u :=
  first [ apply modify_steady; by intros []
        | apply in_world_steady;
          first [ apply Now_onward | apply RecordPaymentExecute_onward | apply ReversePaymentExecute_onward
                | apply lookup_onward; first [apply find_onward | by apply stmt_onward] ] ].

Lemma apply_event_steady uc t eid ev : preserves steady (apply_event uc t eid ev).
Proof.
  unfold apply_event, recordPaymentEntity, recordOrderEntity, processRefundEntity, processFailed,
    acknowledgeUnattributable, publish_failed, record_gateway, findRazorpayPayment_, findByReference,
    ExistsRazorpayPayment, query_row.
  preserve_with steady_leaf.
Qed.
Lemma touch_steady : preserves steady (touchLastReceived (S := S)).
Proof. unfold touchLastReceived. preserve_with steady_leaf. Qed.
Lemma findWebhookEvent_steady t eid : preserves steady (findWebhookEvent (S := S) t eid).
Proof. unfold findWebhookEvent, ExistsWebhookEvent, query_row. steady_leaf tt. Qed.

(** ** The memory *)

(** The entry is younger than a day at every reading of the clock between
    two states. *)
Definition in_time (s s' : WS) (p : processedEvent) : Prop :=
  ∀ n, (clock s <= n < clock s')%nat → fresh_event (clock_now n) p = true.

Definition entry_kept (eid : string) (p : processedEvent) (s s' : WS) : Prop :=
  (clock s <= clock s')%nat ∧
  (processedIDs s !! eid = Some p → in_time s s' p → processedIDs s' !! eid = Some p).
#[local] Instance entry_kept_preorder eid p : PreOrder (entry_kept eid p).
Proof.
  split; [intros s; split; [lia|done]|]. intros s1 s2 s3 [A B] [C D]. split; [lia|].
  intros H Ht. apply D; [apply B; [done|]|]; intros n Hn; apply Ht; lia.
Qed.

Lemma steady_entry eid p {A} (m : SM WS A) : preserves steady m → preserves (entry_kept eid p) m.
Proof. intros Hm s. destruct (Hm s) as [[A1 _] B]. split; [done|]. by rewrite B. Qed.

Lemma clean_entry eid p : preserves (entry_kept eid p) (cleanProcessedLocked (S := S)).
Proof.
  intros s. unfold cleanProcessedLocked. cbv [mbind SM_mbind SM_bind SM_modify].
  unfold in_world, Now. cbn. split; cbn; [lia|]. intros H Ht. apply map_lookup_filter_Some. split; [done|].
  cbn. apply Ht. cbn. lia.
Qed.
Lemma mark_entry eid p eid' id : eid' ≠ eid → preserves (entry_kept eid p) (markProcessed (S := S) eid' id).
Proof.
  intros Hne s. unfold markProcessed. destruct (is_empty eid'); [by split|].
  cbv [mbind SM_mbind SM_bind SM_modify]. unfold in_world, Now. cbn. split; cbn; [lia|].
  intros H _. by rewrite lookup_insert_ne.
Qed.
Lemma set_event_clock t id eid s :
  (clock s <= clock (snd (setWebhookEventID (S := S) t id eid s)))%nat ∧
  processedIDs (snd (setWebhookEventID (S := S) t id eid s)) = processedIDs s ∧
  handlers_state (snd (setWebhookEventID (S := S) t id eid s)) = handlers_state s.
Proof.
  unfold setWebhookEventID, in_world, UoWExecute, WithTransaction, SetWebhookEventID, update_unique, exec.
  destruct (stmt_fault _); [by split_and!|].
  destruct (stmt _ _) as [[a|e] w] eqn:E; apply stmt_inv in E as (_ & Hc & _); cbn in Hc.
  - destruct (stmt_fault _); cbn; rewrite Hc; by split_and!.
  - cbn. rewrite Hc. by split_and!.
Qed.

Lemma set_entry eid p t id eid' : preserves (entry_kept eid p) (setWebhookEventID (S := S) t id eid').
Proof. intros s. destruct (set_event_clock t id eid' s) as (A & B & _). split; [exact A|]. by rewrite B. Qed.

Lemma process_entry eid p uc t eid' ev : eid' ≠ eid → preserves (entry_kept eid p) (process_event uc t eid' ev).
Proof.
  intros Hne. unfold process_event, incrementCount. preserve_with ltac:(fun _ =>
    first [ apply steady_entry, apply_event_steady | by apply mark_entry | apply steady_entry, modify_steady; by intros []
          | apply set_entry ]).
Qed.

(** A request with another event id leaves the entry. *)
Lemma other_entry eid p Unmarshal uc ctx body sg eid' ev :
  eid' ≠ eid → preserves (entry_kept eid p) (ExecuteEvent Unmarshal uc ctx body sg eid' ev).
Proof.
  intros Hne. unfold ExecuteEvent, isProcessed. cbn zeta. preserve_with ltac:(fun _ =>
    first [ apply steady_entry, touch_steady | apply clean_entry | by apply mark_entry | by apply process_entry
          | apply steady_entry, findWebhookEvent_steady ]).
Qed.

(** Past the memory. *)
Definition past_memory (uc : RazorpayWebhookUseCase) (t eid : string) (ev : RazorpayWebhookEvent)
    (cached : option string) : SM WS string :=
  match cached with
  | Some id => mret id
  | None =>
      existing ← (if is_empty eid then mret ""%string else findWebhookEvent t eid);
      if negb (is_empty existing) then _ ← markProcessed eid existing; mret existing
      else process_event uc t eid ev
  end.
Definition ticking (s s' : WS) : Prop := (clock s <= clock s')%nat.
#[local] Instance ticking_preorder : PreOrder ticking.
Proof. split; [intros s; unfold ticking; lia|]. intros s1 s2 s3. unfold ticking. lia. Qed.
Lemma steady_ticking {A} (m : SM WS A) : preserves steady m → preserves ticking m.
Proof. intros Hm s. by destruct (Hm s) as [[A1 _] _]. Qed.
Lemma set_ticking t id eid : preserves ticking (setWebhookEventID (S := S) t id eid).
Proof. intros s. by destruct (set_event_clock t id eid s). Qed.
Lemma mark_ticking eid id : preserves ticking (markProcessed (S := S) eid id).
Proof.
  intros s. unfold markProcessed, ticking. destruct (is_empty eid); [done|].
  cbv [mbind SM_mbind SM_bind SM_modify]. unfold in_world, Now. cbn. lia.
Qed.
Lemma past_memory_ticking uc t eid ev cached : preserves ticking (past_memory uc t eid ev cached).
Proof.
  unfold past_memory, process_event, incrementCount. preserve_with ltac:(fun _ =>
    first [ apply steady_ticking, apply_event_steady | apply mark_ticking
          | apply steady_ticking, findWebhookEvent_steady | apply steady_ticking, modify_steady; by intros []
          | apply set_ticking ]).
Qed.

(** What a request answers while its entry is in time. *)
Lemma remembered_answer Unmarshal uc ctx body sg eid ev p s r s' :
  eid ≠ ""%string → processedIDs s !! eid = Some p →
  ExecuteEvent Unmarshal uc ctx body sg eid ev s = (r, s') → in_time s s' p →
  wdb s' = wdb s ∧ handlers_state s' = handlers_state s ∧ processedIDs s' !! eid = Some p ∧
  ∀ id', r = Ok id' → id' = pid p.
Proof.
  intros Hne Hp H Ht. unfold ExecuteEvent in H. cbv [mbind SM_mbind] in H. unfold SM_bind at 1 in H.
  unfold SM_lift at 1 in H.
  destruct (VerifySignature uc body sg) as [[]|e]; [|injection H as <- <-; by split_and!].
  unfold SM_bind at 1 in H.
  destruct ((if is_empty (we_Event ev) then SM_lift (Unmarshal body) else mret ev) s) as [re s0] eqn:Eu.
  assert (s0 = s) as -> by (by destruct (is_empty (we_Event ev)); injection Eu).
  destruct re as [ev1|e]; [|injection H as <- <-; by split_and!].
  assert (He : is_empty eid = false) by (unfold is_empty; by apply String.eqb_neq).
  unfold SM_bind at 1 in H. unfold touchLastReceived, isProcessed, cleanProcessedLocked in H. rewrite He in H.
  cbv [mbind SM_mbind SM_bind SM_modify SM_get in_world Now] in H. cbn in H.
  match type of H with (match ?o with Some _ => _ | None => _ end) ?st = _ =>
    pose proof (past_memory_ticking uc (TenantIDFromContext ctx) eid ev1 None st) as Hk;
    destruct o as [id|] eqn:Eo; [|exfalso] end.
  - injection H as <- <-. cbn in *. rewrite map_lookup_filter, Hp in Eo. cbn in Eo.
    split_and!; [done|done| |].
    + rewrite map_lookup_filter, Hp. cbn. by case_guard.
    + intros id' [= <-]. case_guard; [|done]. by injection Eo.
  - unfold past_memory in Hk. rewrite He in Hk. cbv [mbind SM_mbind SM_bind] in Hk. cbn in Hk, H. unfold ticking in Hk.
    rewrite H in Hk. cbn in Hk. rewrite map_lookup_filter, Hp in Eo. cbn in Eo.
    case_guard as Hg; [done|]. apply Hg. cbn. apply Ht. lia.
Qed.

(** ** The column under a request *)
Lemma process_column uc t' eid' ev t eid id (s : WS) r (s' : WS) :
  webhook_id (wdb s) t eid = Some id → (t' = t → eid' ≠ eid ∧ r ≠ Ok id) →
  process_event uc t' eid' ev s = (r, s') → webhook_id (wdb s') t eid = Some id.
Proof.
  intros Hw Hne H. unfold process_event in H. cbv [mbind SM_mbind] in H. unfold SM_bind at 1 in H.
  pose proof (apply_event_steady uc t' eid' ev s) as Ha.
  destruct (apply_event uc t' eid' ev s) as [ra s1]. destruct Ha as [[_ Ha] _]. cbn in Ha.
  specialize (Ha t eid id Hw).
  destruct ra as [id1|e]; [|by injection H as <- <-]. unfold SM_bind at 1 in H.
  destruct (_ && _).
  - unfold setWebhookEventID at 1, in_world at 1 in H.
    destruct (UoWExecute _ (wworld s1)) as [ru w] eqn:Eu. destruct ru as [[]|e].
    + assert (r = Ok id1 ∧ wdb s' = w_db w) as [-> ->].
      { unfold SM_bind at 1 in H. destruct (markProcessed eid' id1 _) as [rm s2] eqn:Em.
        apply markProcessed_ok in Em as (-> & Hd & _). unfold wdb in *. cbn in Hd, H. by injection H as <- <-. }
      apply UoWExecute_ok in Eu as (w1 & Eu & -> & _). apply stmt_inv in Eu as (_ & _ & _ & Eu). cbv beta in Eu.
      destruct (_ && _); [discriminate Eu|]. injection Eu as <-. apply set_event_kept; [done|].
      intros E. destruct (Hne E) as [? Hr]. split; [congruence|done].
    + injection H as <- <-. apply UoWExecute_spec in Eu. unfold wdb in *. cbn. by rewrite Eu.
  - unfold SM_bind at 1, mret, SM_mret, SM_ret in H. unfold SM_bind at 1 in H.
    destruct (markProcessed eid' id1 s1) as [rm s2] eqn:Em.
    apply markProcessed_ok in Em as (-> & Hd & _). cbn in H. injection H as <- <-.
    unfold wdb in *. cbn. by rewrite Hd.
Qed.

(** The column stays unless another event of the tenant is answered with the
    same payment, whose row then takes the other id. *)
Lemma request_column Unmarshal uc ctx body sg eid' ev t eid id (s : WS) r (s' : WS) :
  webhook_id (wdb s) t eid = Some id → id ≠ ""%string → eid ≠ ""%string →
  (TenantIDFromContext ctx = t → eid' ≠ eid → r ≠ Ok id) →
  ExecuteEvent Unmarshal uc ctx body sg eid' ev s = (r, s') → webhook_id (wdb s') t eid = Some id.
Proof.
  intros Hw Hid Heid Hne H. apply ExecuteEvent_outcome in H.
  destruct H as [id' s' _ _ Hd _|id' s' _ _ _ Hd _ _|ev1 s1 r s' Hd1 _ Hno _ Hp|e s' Hd _];
    [by rewrite Hd|by rewrite Hd| |by rewrite Hd].
  eapply process_column; [by rewrite Hd1| |exact Hp]. intros Ht. split; [|apply Hne; [done|]].
  all: intros ->; rewrite Ht, Hw in Hno; by apply Hid, Hno.
Qed.

(** What the memory holds of the id, if anything, is its payment. *)
Definition memory_agrees (eid id : string) (s : WS) : Prop := ∀ p, processedIDs s !! eid = Some p → pid p = id.
Definition agreement (eid id : string) (s s' : WS) : Prop := memory_agrees eid id s → memory_agrees eid id s'.
#[local] Instance agreement_preorder eid id : PreOrder (agreement eid id).
Proof. split; [intros s H; exact H|]. intros s1 s2 s3 A B H. by apply B, A. Qed.

Lemma steady_agreement eid id {A} (m : SM WS A) : preserves steady m → preserves (agreement eid id) m.
Proof. intros Hm s H p. destruct (Hm s) as [_ ->]. apply H. Qed.
Lemma clean_agreement eid id : preserves (agreement eid id) (cleanProcessedLocked (S := S)).
Proof.
  intros s H p. unfold cleanProcessedLocked. cbv [mbind SM_mbind SM_bind SM_modify in_world Now]. cbn.
  intros [Hp _]%map_lookup_filter_Some. by apply H.
Qed.
Lemma mark_agreement eid id eid' x : eid' ≠ eid ∨ x = id → preserves (agreement eid id) (markProcessed (S := S) eid' x).
Proof.
  intros Hx s H p. unfold markProcessed. destruct (is_empty eid'); [apply H|].
  cbv [mbind SM_mbind SM_bind SM_modify in_world Now]. cbn.
  destruct (decide (eid' = eid)) as [->|Hne]; [|rewrite lookup_insert_ne by done; apply H].
  rewrite lookup_insert_eq. intros [= <-]. by destruct Hx.
Qed.
Lemma set_agreement eid id t x eid' : preserves (agreement eid id) (setWebhookEventID (S := S) t x eid').
Proof. intros s H p. destruct (set_event_clock t x eid' s) as (_ & -> & _). apply H. Qed.
Lemma other_agreement eid id Unmarshal uc ctx body sg eid' ev :
  eid' ≠ eid → preserves (agreement eid id) (ExecuteEvent Unmarshal uc ctx body sg eid' ev).
Proof.
  intros Hne. unfold ExecuteEvent, isProcessed, process_event, incrementCount. cbn zeta. preserve_with ltac:(fun _ =>
    first [ apply steady_agreement, touch_steady | apply clean_agreement | apply mark_agreement; by left
          | apply set_agreement | apply steady_agreement, apply_event_steady
          | apply steady_agreement, modify_steady; by intros []
          | apply steady_agreement, findWebhookEvent_steady ]).
Qed.

Lemma same_agreement Unmarshal uc ctx body sg eid ev id (s : WS) :
  eid ≠ ""%string → id ≠ ""%string → webhook_id (wdb s) (TenantIDFromContext ctx) eid = Some id →
  agreement eid id s (snd (ExecuteEvent Unmarshal uc ctx body sg eid ev s)).
Proof.
  intros Heid Hid Hw Hm. destruct (ExecuteEvent Unmarshal uc ctx body sg eid ev s) as [r s'] eqn:H. cbn [snd].
  unfold ExecuteEvent in H. cbv [mbind SM_mbind] in H. unfold SM_bind at 1 in H. unfold SM_lift at 1 in H.
  destruct (VerifySignature uc body sg) as [[]|e]; [|by injection H as <- <-].
  unfold SM_bind at 1 in H.
  destruct ((if is_empty (we_Event ev) then SM_lift (Unmarshal body) else mret ev) s) as [re s0] eqn:Eu.
  assert (s0 = s) as -> by (by destruct (is_empty (we_Event ev)); injection Eu).
  destruct re as [ev1|e]; [|by injection H as <- <-].
  unfold SM_bind at 1 in H. pose proof (steady_agreement eid id _ touch_steady s Hm) as Hm1.
  destruct (touchLastReceived s) as [rt s1] eqn:Et. apply touch_ok in Et as (-> & Hd1 & _). cbn in Hm1.
  cbn zeta in H. unfold SM_bind at 1 in H.
  assert (Hm2 : memory_agrees eid id (snd (isProcessed eid s1))).
  { unfold isProcessed. destruct (is_empty eid); [done|].
    pose proof (clean_agreement eid id s1 Hm1) as Hc. cbv [mbind SM_mbind SM_bind SM_get].
    by destruct (cleanProcessedLocked s1) as [[]]. }
  destruct (isProcessed eid s1) as [ri s2] eqn:Ei. cbn in Hm2.
  apply isProcessed_ok in Ei as (o & -> & Hd2 & _ & _). destruct o as [x|]; [by injection H as <- <-|].
  assert (He : is_empty eid = false) by (unfold is_empty; by apply String.eqb_neq). rewrite He in H.
  unfold SM_bind at 1 in H. pose proof (steady_agreement eid id _ (findWebhookEvent_steady (TenantIDFromContext ctx) eid) s2 Hm2) as Hm3.
  destruct (findWebhookEvent _ eid s2) as [rf s3] eqn:Ef. cbn in Hm3.
  apply in_world_inv in Ef as (w & Ef & ->).
  apply (lookup_query_ok (λ d, webhook_id d (TenantIDFromContext ctx) eid)) in Ef as [_ Hf].
  destruct rf as [x|e]; [|by injection H as <- <-].
  rewrite (Hf x eq_refl) in H. change (w_db (wworld s2)) with (wdb s2) in H.
  rewrite Hd2, Hd1, Hw in H.
  assert (Hi : is_empty id = false) by (unfold is_empty; by apply String.eqb_neq).
  cbv beta iota in H. unfold default, from_option, Datatypes.id in H. rewrite Hi in H. cbn [negb] in H. unfold SM_bind at 1 in H.
  pose proof (mark_agreement eid id eid id (or_intror eq_refl) _ Hm3) as Hm4.
  destruct (markProcessed eid id _) as [rm s4] eqn:Em. apply markProcessed_ok in Em as (-> & _).
  by injection H as <- <-.
Qed.

(** An event id that is on its payment is never processed again. *)
Lemma stored_answer Unmarshal uc ctx body sg eid ev id (s : WS) r (s' : WS) :
  eid ≠ ""%string → id ≠ ""%string → webhook_id (wdb s) (TenantIDFromContext ctx) eid = Some id →
  memory_agrees eid id s → ExecuteEvent Unmarshal uc ctx body sg eid ev s = (r, s') →
  wdb s' = wdb s ∧ handlers_state s' = handlers_state s ∧ ∀ id', r = Ok id' → id' = id.
Proof.
  intros Heid Hid Hw Hm H. apply ExecuteEvent_outcome in H.
  destruct H as [id' s' _ Hc Hd Hh|id' s' _ Hw' _ Hd Hh _|ev1 s1 r s' _ _ Hno _ _|e s' Hd Hh].
  - split_and!; [done..|]. intros ? [= <-]. destruct (processedIDs s !! eid) as [p|] eqn:E; [|done].
    rewrite <- (Hm p E). by injection Hc.
  - split_and!; [done..|]. intros ? [= <-]. congruence.
  - rewrite Hw in Hno. by specialize (Hno Heid).
  - by split_and!.
Qed.

(** ** Histories *)
Inductive request :=
| Deliver (ctx : option string) (body sg eid : string) (ev : RazorpayWebhookEvent)
| Restart.

Context (Unmarshal : string → result RazorpayWebhookEvent) (uc : RazorpayWebhookUseCase (S := S)).

(** A restart empties the memory of the process. *)
Definition serve (q : request) (s : WS) : result string * WS :=
  match q with
  | Deliver ctx body sg eid ev => ExecuteEvent Unmarshal uc ctx body sg eid ev s
  | Restart => (Ok ""%string, mkWState (wworld s) ∅ 0 ∅ (handlers_state s))
  end.
Definition serve_all (qs : list request) (s : WS) : WS := fold_left (λ s q, snd (serve q s)) qs s.

(** No request of the history takes the event id off the payment [id]: no
    other event of the tenant is answered with it, and the event id is the
    tenant's. *)
Definition undisturbed (t eid id : string) (qs : list request) (s : WS) : Prop :=
  ∀ qs1 ctx body sg eid' ev qs2, qs = (qs1 ++ Deliver ctx body sg eid' ev :: qs2)%list →
    (eid' = eid → TenantIDFromContext ctx = t) ∧
    (TenantIDFromContext ctx = t → eid' ≠ eid →
     fst (serve (Deliver ctx body sg eid' ev) (serve_all qs1 s)) ≠ Ok id).

Lemma undisturbed_next t eid id q qs s :
  undisturbed t eid id (q :: qs) s → undisturbed t eid id qs (snd (serve q s)).
Proof. intros H qs1 ctx b g e ev qs2 ->. by apply (H (q :: qs1) ctx b g e ev qs2). Qed.

Lemma serve_clock q s : (clock s <= clock (snd (serve q s)))%nat.
Proof.
  destruct q as [ctx body sg eid ev|]; [|done].
  assert (∃ other, eid ≠ other) as [other Hne].
  { destruct (decide (eid = ""%string)) as [->|]; [by exists "x"%string|by exists ""%string]. }
  by apply (other_entry other (mkProcessed 0 "") Unmarshal uc ctx body sg eid ev Hne s).
Qed.
Lemma serve_all_clock qs s : (clock s <= clock (serve_all qs s))%nat.
Proof. revert s. induction qs as [|q qs IH]; intros s; cbn; [done|]. specialize (IH (snd (serve q s))). pose proof (serve_clock q s). unfold serve_all in *. lia. Qed.

(** Without a restart an entry stays in the memory for a day. *)
Lemma entry_through eid p qs s :
  eid ≠ ""%string → Restart ∉ qs → processedIDs s !! eid = Some p → in_time s (serve_all qs s) p →
  processedIDs (serve_all qs s) !! eid = Some p.
Proof.
  intros Heid. revert s. induction qs as [|q qs IH]; intros s Hno Hp Ht; [done|].
  apply not_elem_of_cons in Hno as [Hq Hno]. destruct q as [ctx body sg eid' ev|]; [|done].
  cbn [serve_all fold_left] in *. change (fold_left _ qs ?x) with (serve_all qs x) in *.
  pose proof (serve_all_clock qs (snd (serve (Deliver ctx body sg eid' ev) s))) as Hc.
  pose proof (serve_clock (Deliver ctx body sg eid' ev) s) as Hc'.
  apply IH; [done| |intros n Hn; apply Ht; lia].
  assert (Hin : in_time s (snd (serve (Deliver ctx body sg eid' ev) s)) p) by (intros n Hn; apply Ht; lia).
  cbn [serve] in *. destruct (decide (eid' = eid)) as [->|Hne].
  - destruct (ExecuteEvent _ _ _ _ _ _ _ s) as [r s'] eqn:H. by apply (remembered_answer _ _ _ _ _ _ _ p) in H as (_ & _ & ? & _).
  - by apply (other_entry eid p Unmarshal uc ctx body sg eid' ev Hne s).
Qed.

(** An undisturbed event id stays on its payment, restarts or not. *)
Lemma column_through t eid id qs s :
  eid ≠ ""%string → id ≠ ""%string → webhook_id (wdb s) t eid = Some id → memory_agrees eid id s →
  undisturbed t eid id qs s →
  webhook_id (wdb (serve_all qs s)) t eid = Some id ∧ memory_agrees eid id (serve_all qs s).
Proof.
  intros Heid Hid. revert s. induction qs as [|q qs IH]; intros s Hw Hm Hu; [done|].
  cbn [serve_all fold_left]. change (fold_left _ qs ?x) with (serve_all qs x).
  apply IH; [| |by apply undisturbed_next]; clear IH; destruct q as [ctx body sg eid' ev|]; try done.
  - destruct (Hu [] ctx body sg eid' ev qs eq_refl) as [_ H2]. cbn [serve serve_all fold_left] in *.
    destruct (ExecuteEvent _ _ _ _ _ _ _ s) as [r s'] eqn:H. by eapply request_column.
  - destruct (Hu [] ctx body sg eid' ev qs eq_refl) as [H1 _]. cbn [serve] in *.
    destruct (decide (eid' = eid)) as [->|Hne]; [|by apply other_agreement].
    apply same_agreement; [done|done| |done]. by rewrite H1.
Qed.

End History.

(** ** Concrete runs: the invoice of [Razorpay], paid through the gateway;
    then another event, and a restart. *)
Definition acme : option string := Some "acme"%string.
Definition deliver (eid : string) (ev : RazorpayWebhookEvent) : request := Deliver acme "{}" demo_sig eid ev.
Abbreviation serve_demo := (serve_all (env := demo_env) demo_unmarshal demo_uc).
Definition later_events : list request := [deliver "evt_2" demo_paid; Restart].


(** The condition is needed: a second event of the same payment puts its own
    id in the row, and after a restart the first is processed again: here it
    only takes the row back. *)
Definition stored_events (s : WebhookState (S := unit)) : list (option string) :=
  PaymentRow.WebhookEventID <$> payments (wdb s).
Example second_event_takes_the_row :
  let s2 := serve_demo [deliver "evt_9" demo_captured; Restart] webhook_s1 in
  let again := demo_execute acme "evt_1" demo_captured s2 in
  stored_events webhook_s1 = [Some "evt_1"]%string ∧ stored_events s2 = [Some "evt_9"]%string ∧
  stored_events (snd again) = [Some "evt_1"]%string ∧ fst again = Ok webhook_id1.
Proof. vm_compute. by split_and!. Qed.

(** An event without a payment is nowhere in the tables: after a restart a
    failed payment is announced again. *)
Definition counting_bus : InMemoryBus RazorpayPaymentFailedEvent nat :=
  snd (Subscribe NewInMemoryBus RazorpayPaymentFailed (λ _ _ n, (HandlerOk, S n))).
Example failure_announced_again :
  let uc := mkWebhook "whsec" true (Some counting_bus) in
  let failed := mkWebhookEvent "payment.failed" (mkPaymentEntity "pay_1" "order_1" 59000 "INR" "failed" "" "" "id-0")
                  no_order no_refund in
  let s0 := mkWState InvoiceApp.generated_w ∅ 0 ∅ 0%nat in
  let run qs := handlers_state (serve_all (env := demo_env) demo_unmarshal uc qs s0) in
  run [deliver "evt_1" failed; deliver "evt_1" failed] = 1%nat ∧
  run [deliver "evt_1" failed; Restart; deliver "evt_1" failed] = 2%nat.
Proof. vm_compute. by split. Qed.
End WebhookHistory.
