(* ===== verification/GeofenceStore.v ===== *)
(** * Geofence persistence, configuration and administration

    [internal/geofence/infrastructure/persistence/sql]: zones, the rows of
    the dwell engine, the event log with its detention windows, and the
    query for new fixes; [internal/geofence/application]: the cached
    [company_config] reader (config.go), zone administration (zone_crud.go)
    and detention billing (detention.go). *)
From stdpp Require Import base decidable list strings option gmap.
From Stdlib Require Import ZArith Lia String Sorting.Sorted.
From S2P Require Import Prelude GoFloat Shared GoMath Geofence InvoiceAggregate Database Repository.
From S2P Require Import InvoiceRepository InvoiceUseCases.
Open Scope Z_scope.

(** [ORDER BY]: a stable insertion sort; rows that compare equal stay in
    table order. *)
Section OrderBy.
Context {A : Type} (le : A → A → bool).
Fixpoint insert_by (x : A) (l : list A) : list A :=
  match l with
  | [] => [x]
  | y :: l' => if le x y then x :: l else y :: insert_by x l'
  end.
Definition order_by (l : list A) : list A := foldr insert_by [] l.

Lemma insert_by_perm x l : insert_by x l ≡ₚ x :: l.
Proof.
  induction l as [|y l IH]; cbn; [done|]. destruct (le x y); [done|].
  rewrite IH. apply perm_swap.
Qed.
Lemma order_by_perm l : order_by l ≡ₚ l.
Proof. induction l as [|x l IH]; cbn; [done|]. by rewrite insert_by_perm, IH. Qed.
Lemma order_by_in x l : x ∈ order_by l ↔ x ∈ l.
Proof. by rewrite order_by_perm. Qed.

Lemma insert_by_sorted (key : A → Z) x l :
  (∀ a b, le a b = (key a <=? key b)) →
  StronglySorted (λ a b, key a <= key b) l → StronglySorted (λ a b, key a <= key b) (insert_by x l).
Proof.
  intros Hle Hs. induction Hs as [|y l Hs IH Hy]; cbn; [repeat constructor|].
  rewrite Hle. destruct (Z.leb_spec (key x) (key y)).
  - constructor; [by constructor|]. constructor; [done|].
    eapply Forall_impl; [exact Hy|]. cbn. lia.
  - constructor; [done|]. apply Forall_forall. intros z Hz.
    rewrite insert_by_perm in Hz. apply elem_of_cons in Hz as [->|Hz]; [lia|].
    by apply (proj1 (Forall_forall _ _) Hy).
Qed.
Lemma order_by_sorted (key : A → Z) l :
  (∀ a b, le a b = (key a <=? key b)) → StronglySorted (λ a b, key a <= key b) (order_by l).
Proof. intros Hle. induction l as [|x l IH]; cbn; [constructor|]. by apply insert_by_sorted. Qed.
End OrderBy.

(** ** The operational tables, left alone *)
Definition same_ops (d d' : DB) : Prop := ops d' = ops d.
#[export] Instance same_ops_preorder : PreOrder same_ops.
Proof. split; [done|]. intros d1 d2 d3 H1 H2. unfold same_ops in *. congruence. Qed.

Section SameOps.
Context {env : Env}.
Lemma audit_ops t a r o n : preserves (on_db same_ops) (log_audit t a r o n).
Proof.
  eapply preserves_weaken; [|apply log_audit_only]. intros w w' [rows Hd]. unfold on_db. by rewrite Hd.
Qed.
(** A relation on the operational tables alone. *)
Lemma of_ops (P : DB → DB → Prop) `{!PreOrder P} {A} (m : M A) :
  (∀ d d', same_ops d d' → P d d') → preserves (on_db same_ops) m → preserves (on_db P) m.
Proof. intros Hp. apply preserves_weaken. intros w w' H'. by apply Hp. Qed.

End SameOps.

Module GeoStore.
Import Geo.

(** ** Zones (geofence_repository.go) *)
Definition by_priority (x y : Geofence) : bool :=
  (Priority y <? Priority x) ||
  ((Priority x =? Priority y) && String.leb (Name x) (Name y)).
Definition active_zone (tenant : string) (z : Geofence) : bool :=
  String.eqb (TenantID z) tenant && IsActive z.
Definition zone_key (tenant id : string) (z : Geofence) : bool :=
  String.eqb (ID z) id && String.eqb (TenantID z) tenant.

(** [PolygonJSON] then [PolygonFromJSON]: a number JSON cannot write is
    refused, the others read back as they were. *)
Definition PolygonJSON (pts : list Point) : result (list Point) :=
  if forallb (λ p, is_finite (Lat p) && is_finite (Lng p)) pts then Ok pts
  else Fail (Err "serialize polygon: json: unsupported value").

(** [nullIfZero]: NULL reads back as [0]. *)
Definition nullIfZero (v : float64) : float64 := if feqb v f0 then f0 else v.

Definition zone_row (g : Geofence) (polygon : list Point) (active : bool) (created now : Time)
    : Geofence :=
  mkGeofence (ID g) (TenantID g) (Name g) (Kind g) (Shape g) (nullIfZero (CenterLat g))
    (nullIfZero (CenterLng g)) (nullIfZero (RadiusM g)) polygon (RouteName g) (Priority g) active
    (CreatedBy g) created now.

Section Store.
Context {env : Env}.

Definition ListActiveByTenant (tenant : string) : M (list Geofence) :=
  SM_wrap "list active geofences"
    (query (λ _ d, order_by by_priority (select_many (active_zone tenant) (geofences (ops d))))).

Definition bound_to (vehicleID : string) (d : DB) (z : Geofence) : bool :=
  exists_row (λ b, String.eqb (vg_VehicleID b) vehicleID && String.eqb (vg_GeofenceID b) (ID z))
    (vehicle_geofences (ops d)).
Definition ListBoundForVehicle (tenant vehicleID : string) : M (list Geofence) :=
  SM_wrap "list bound geofences"
    (query (λ _ d, order_by by_priority
       (select_many (λ z, bound_to vehicleID d z && active_zone tenant z) (geofences (ops d))))).

Definition Create (g : Geofence) : M unit :=
  polygon ← SM_lift (PolygonJSON (Polygon g));
  SM_wrap "insert geofence"
    (exec (λ now d,
       if exists_row (λ z, String.eqb (ID z) (ID g)) (geofences (ops d))
       then (Fail (Err "UNIQUE constraint failed: geofences.id"), d)
       else (Ok tt, set_geofences
               (geofences (ops d) ++ [zone_row g polygon (IsActive g) now now]) d))).

(** The columns of the UPDATE; the others stay. *)
Definition rewrite_zone (g : Geofence) (polygon : list Point) (now : Time) (z : Geofence) : Geofence :=
  mkGeofence (ID z) (TenantID z) (Name g) (Kind g) (Shape g) (nullIfZero (CenterLat g))
    (nullIfZero (CenterLng g)) (nullIfZero (RadiusM g)) polygon (RouteName g) (Priority g)
    (IsActive g) (CreatedBy z) (CreatedAt z) now.
Definition Update (g : Geofence) : M unit :=
  polygon ← SM_lift (PolygonJSON (Polygon g));
  SM_wrap "update geofence"
    (exec (λ now d,
       (Ok tt, set_geofences
          (update_where (zone_key (TenantID g) (ID g)) (rewrite_zone g polygon now)
             (geofences (ops d))) d))).

Definition deactivated (now : Time) (z : Geofence) : Geofence :=
  mkGeofence (ID z) (TenantID z) (Name z) (Kind z) (Shape z) (CenterLat z) (CenterLng z) (RadiusM z)
    (Polygon z) (RouteName z) (Priority z) false (CreatedBy z) (CreatedAt z) now.
Definition SoftDelete (tenant id : string) : M unit :=
  SM_wrap "soft delete geofence"
    (exec (λ now d,
       (Ok tt, set_geofences
          (update_where (zone_key tenant id) (deactivated now) (geofences (ops d))) d))).

Definition FindZone (tenant id : string) : M Geofence :=
  SM_wrap "find geofence" (query_row (λ _ d, select_one (zone_key tenant id) (geofences (ops d)))).

(** ** Engine rows (engine_state_repository.go)

    [None] is [ErrNoEngineState]. *)
Definition state_key (tenant vehicleID : string) (s : EngineState) : bool :=
  String.eqb (es_VehicleID s) vehicleID && String.eqb (es_TenantID s) tenant.
Definition on_state (vehicleID : string) (s : EngineState) : bool :=
  String.eqb (es_VehicleID s) vehicleID.
Definition GetByVehicle (tenant vehicleID : string) : M (option EngineState) :=
  SM_wrap "engine state lookup"
    (query (λ _ d, select_one (state_key tenant vehicleID) (engine_state (ops d)))).

Definition with_tenant (t : string) (now : Time) (s : EngineState) : EngineState :=
  mkEngineState (es_VehicleID s) t (State s) (es_TripID s) (GeofenceID s) (ZoneKind s)
    (ZoneEnteredAt s) (ConfirmedAt s) (ExitStartedAt s) (LastFixAt s) (LastLat s) (LastLng s) now.
(** [ON CONFLICT(vehicle_id)]: the tenant of the row is kept. *)
Definition upsert_state (now : Time) (s : EngineState) (l : list EngineState) : list EngineState :=
  if exists_row (on_state (es_VehicleID s)) l
  then update_where (on_state (es_VehicleID s)) (λ r, with_tenant (es_TenantID r) now s) l
  else l ++ [with_tenant (es_TenantID s) now s].
Definition Upsert (s : EngineState) : M unit :=
  SM_wrap "upsert engine state"
    (exec (λ now d, (Ok tt, set_engine_state (upsert_state now s (engine_state (ops d))) d))).

(** ** The event log (event_log_repository.go) *)
Definition InsertEvent (e : GeofenceEvent) : M unit :=
  SM_wrap "insert geofence event"
    (exec (λ _ d,
       if exists_row (λ r, String.eqb (ge_ID r) (ge_ID e)) (geofence_events (ops d))
       then (Fail (Err "UNIQUE constraint failed: geofence_events.id"), d)
       else (Ok tt, set_geofence_events (geofence_events (ops d) ++ [e]) d))).

(** The columns of the INSERT; the others take their defaults. *)
Definition opened (d : Detention) : Detention :=
  mkDetention (d_ID d) (d_TenantID d) (d_TripID d) (d_VehicleID d) (d_GeofenceID d) (d_ZoneKind d)
    "" (EnteredAt d) None 0 0 0 f0 f0 DetentionOpen.
Definition OpenDetention (x : Detention) : M unit :=
  SM_wrap "open detention"
    (exec (λ _ d,
       if exists_row (λ r, String.eqb (d_ID r) (d_ID x)) (trip_detentions (ops d))
       then (Fail (Err "UNIQUE constraint failed: trip_detentions.id"), d)
       else (Ok tt, set_trip_detentions (trip_detentions (ops d) ++ [opened x]) d))).

(** [ORDER BY entered_at DESC LIMIT 1]. *)
Definition open_window (tenant trip kind : string) (x : Detention) : bool :=
  String.eqb (d_TenantID x) tenant && String.eqb (d_TripID x) trip &&
  String.eqb (d_ZoneKind x) kind && String.eqb (Status x) DetentionOpen.
Definition FindOpenDetention (tenant trip kind : string) : M (option Detention) :=
  SM_wrap "find open detention"
    (query (λ _ d,
       head (order_by (λ x y, EnteredAt y <=? EnteredAt x)
               (select_many (open_window tenant trip kind) (trip_detentions (ops d)))))).

Definition closed (exited : Time) (dwell free billable : Z) (rate amount : float64) (x : Detention)
    : Detention :=
  mkDetention (d_ID x) (d_TenantID x) (d_TripID x) (d_VehicleID x) (d_GeofenceID x) (d_ZoneKind x)
    (ZoneName x) (EnteredAt x) (Some exited) dwell free billable rate amount DetentionClosed.
Definition CloseDetention (id : string) (exited : Time) (dwell free : Z) (rate amount : float64)
    : M unit :=
  let billable := wrap64 (dwell - free) in
  let billable := if billable <? 0 then 0 else billable in
  SM_wrap "close detention"
    (exec (λ _ d,
       (Ok tt, set_trip_detentions
          (update_where (λ x, String.eqb (d_ID x) id && String.eqb (Status x) DetentionOpen)
             (closed exited dwell free billable rate amount) (trip_detentions (ops d))) d))).

(** The name is joined in from [geofences], whatever its tenant. *)
Definition with_name (n : string) (x : Detention) : Detention :=
  mkDetention (d_ID x) (d_TenantID x) (d_TripID x) (d_VehicleID x) (d_GeofenceID x) (d_ZoneKind x)
    n (EnteredAt x) (ExitedAt x) (DwellSeconds x) (FreeSeconds x) (BillableSeconds x)
    (RatePerHour x) (Amount x) (Status x).
Definition zone_name (d : DB) (id : option string) : string :=
  match id ≫= λ i, select_one (λ z, String.eqb (ID z) i) (geofences (ops d)) with
  | Some z => Name z
  | None => ""
  end.
Definition detention_key (tenant id : string) (x : Detention) : bool :=
  String.eqb (d_ID x) id && String.eqb (d_TenantID x) tenant.
Definition FindDetention (tenant id : string) : M Detention :=
  SM_map_err (λ e, if is_no_rows e then ErrNoRows else Wrap "find detention" e)
    (query_row (λ _ d,
       (λ x, with_name (zone_name d (d_GeofenceID x)) x) <$>
         select_one (detention_key tenant id) (trip_detentions (ops d)))).

Definition with_status (st : string) (x : Detention) : Detention :=
  mkDetention (d_ID x) (d_TenantID x) (d_TripID x) (d_VehicleID x) (d_GeofenceID x) (d_ZoneKind x)
    (ZoneName x) (EnteredAt x) (ExitedAt x) (DwellSeconds x) (FreeSeconds x) (BillableSeconds x)
    (RatePerHour x) (Amount x) st.
Definition waived (x : Detention) : Detention :=
  mkDetention (d_ID x) (d_TenantID x) (d_TripID x) (d_VehicleID x) (d_GeofenceID x) (d_ZoneKind x)
    (ZoneName x) (EnteredAt x) (ExitedAt x) (DwellSeconds x) (FreeSeconds x) (BillableSeconds x)
    (RatePerHour x) f0 DetentionWaived.
Definition update_detention (f : Detention → Detention) (id : string) : M unit :=
  exec (λ _ d,
    (Ok tt, set_trip_detentions
       (update_where (λ x, String.eqb (d_ID x) id) f (trip_detentions (ops d))) d)).
Definition MarkAttached (id : string) : M unit :=
  SM_wrap "mark detention attached" (update_detention (with_status DetentionAttached) id).
Definition Waive (id : string) : M unit :=
  SM_wrap "waive detention" (update_detention waived id).

(** [LoadNewFixes] (snapshot_repository.go): the watermark of a vehicle is
    its engine row's last fix, whatever the tenant.  A NULL in a column that
    is scanned into a plain Go variable fails the whole query. *)
Definition watermark (d : DB) (vehicle : option string) : option Time :=
  LastFixAt <$> (vehicle ≫= λ v, select_one (on_state v) (engine_state (ops d))).
Definition new_fix (d : DB) (s : SnapshotRow) : bool :=
  match watermark d (sn_VehicleID s) with None => true | Some t => t <? sn_Timestamp s end &&
  bool_decide (is_Some (sn_Latitude s)) && bool_decide (is_Some (sn_Longitude s)).
Definition scan_fix (s : SnapshotRow) : result Fix :=
  match sn_VehicleID s, sn_Latitude s, sn_Longitude s, sn_Speed s with
  | Some v, Some lat, Some lng, Some speed => Ok (mkFix v (sn_TripID s) (sn_Timestamp s) lat lng speed)
  | _, _, _, _ => Fail (Err "sql: Scan error: converting NULL is unsupported")
  end.
Fixpoint scan_fixes (l : list SnapshotRow) : result (list Fix) :=
  match l with
  | [] => Ok []
  | s :: l' => f ← scan_fix s; fs ← scan_fixes l'; Ok (f :: fs)
  end.
Definition oldest_first (x y : SnapshotRow) : bool := sn_Timestamp x <=? sn_Timestamp y.
Definition new_rows (limit : nat) (d : DB) : list SnapshotRow :=
  take limit (order_by oldest_first (select_many (new_fix d) (telemetry_snapshots (ops d)))).
Definition LoadNewFixes (limit : nat) : M (list Fix) :=
  rows ← SM_wrap "load new fixes" (query (λ _, new_rows limit));
  SM_lift (scan_fixes rows).
End Store.
End GeoStore.

(** ** The configuration reader (config.go) *)
Module Config.
Definition ConfigDwellDebounceSeconds : string := "geofence.dwell_debounce_seconds".
Definition ConfigBufferMetres : string := "geofence.buffer_metres".
Definition ConfigHysteresisMetres : string := "geofence.hysteresis_metres".
Definition ConfigAutoReachPickup : string := "geofence.auto_reach_pickup".
Definition ConfigAutoStartTransit : string := "geofence.auto_start_transit".
Definition ConfigDetentionFreeSeconds : string := "geofence.detention_free_seconds".
Definition ConfigDetentionRatePerHour : string := "geofence.detention_rate_per_hour".
Definition DefaultDetentionFree : Z := 30 * Dwell.minute.
Definition DefaultDetentionRate : float64 := f0.
Definition cacheTTL : Z := 30 * Dwell.second.

(** The cache, and when it was filled ([None]: the zero time). *)
Record ConfigReader := mkReader { cache : gmap string string; cacheAt : option Time }.
Definition NewConfigReader : ConfigReader := mkReader ∅ None.

Section Reader.
Context {env : Env} {gm : GoMath}.
Abbreviation CM := (SM (World * ConfigReader)).

Definition on_world {A} (m : M A) : CM A := λ s,
  match m (fst s) with (r, w) => (r, (w, snd s)) end.
Definition set_reader (c : ConfigReader) : CM unit := SM_modify (λ s, (fst s, c)).

(** Older than the lifetime, by a reading of the clock of its own. *)
Definition expired (at_ : option Time) : CM bool :=
  match at_ with
  | None => mret true
  | Some t => now ← on_world Now; mret (cacheTTL <? Geo.Sub now t)
  end.

Definition config_rows (tenant : string) (d : DB) : gmap string string :=
  foldl (λ m r, <[cc_Key r := cc_Value r]> m) ∅
    (select_many (λ r, String.eqb (cc_TenantID r) tenant) (company_config (ops d))).

Definition refreshIfStale (tenant : string) : CM unit :=
  c ← SM_get snd;
  stale ← expired (cacheAt c);
  if negb (stale : bool) then mret tt
  else
    still ← expired (cacheAt c);
    if negb (still : bool) then mret tt
    else
      fresh ← on_world (query (λ _, config_rows tenant));
      now ← on_world Now;
      set_reader (mkReader fresh (Some now)).

Definition Get (tenant key : string) : CM string :=
  _ ← refreshIfStale tenant;
  SM_get (λ s, default ""%string (cache (snd s) !! key)).

Definition GetDurationSeconds (tenant key : string) (def : Z) : CM Z :=
  raw ← Get tenant key;
  mret (if is_empty raw then def
        else match Atoi raw with
             | Some n => if n <=? 0 then def else wrap64 (n * Dwell.second)
             | None => def
             end).

Definition GetFloat (tenant key : string) (def : float64) : CM float64 :=
  raw ← Get tenant key;
  mret (if is_empty raw then def else default def (ParseFloat raw)).

(** The lenient second parse accepts nothing [ParseBool] refuses. *)
Definition GetBool (tenant key : string) (def : bool) : CM bool :=
  raw ← Get tenant key;
  mret (if is_empty raw then def
        else match ParseBool raw with
             | Some b => b
             | None => if String.eqb raw "1" then true else if String.eqb raw "0" then false else def
             end).
End Reader.
End Config.

(** ** Zone administration (zone_crud.go) *)
Module ZoneApp.
Import Geo GeoStore.

Record CreateZoneCommand := mkCreateZone {
  cz_TenantID : string; cz_Name : string; cz_Kind : string; cz_Shape : string;
  cz_CenterLat : float64; cz_CenterLng : float64; cz_RadiusM : float64; cz_Polygon : list Point;
  cz_RouteName : string; cz_Priority : Z; cz_CreatedBy : option string }.
Record UpdateZoneCommand := mkUpdateZone {
  uz_TenantID : string; uz_ID : string; uz_Name : string; uz_Kind : string; uz_Shape : string;
  uz_CenterLat : float64; uz_CenterLng : float64; uz_RadiusM : float64; uz_Polygon : list Point;
  uz_RouteName : string; uz_Priority : Z }.

Definition validateZoneShape (shape : string) (lat lng radius : float64) (polygon : list Point)
    : result unit :=
  if String.eqb shape ShapeCircle then
    if feqb lat f0 || feqb lng f0 || fleb radius f0
    then Fail (Err "circle zones require center_lat, center_lng and radius_m > 0") else Ok tt
  else if String.eqb shape ShapePolygon then
    if Nat.ltb (List.length polygon) 3
    then Fail (Err "polygon zones require at least 3 vertices") else Ok tt
  else Fail (Err "invalid zone shape").

Definition validKind (kind : string) : bool :=
  bool_decide (kind ∈ [KindPickup; KindDrop; KindDepot; KindRestricted; KindNoEntry]).

(** The checks both commands go through, in their order. *)
Definition validate (shape : string) (lat lng radius : float64) (polygon : list Point)
    (name kind : string) : result unit :=
  _ ← validateZoneShape shape lat lng radius polygon;
  if is_empty name then Fail (Err "zone name is required")
  else if negb (validKind kind) then Fail (Err "invalid zone kind")
  else Ok tt.

Definition created_zone (id : string) (cmd : CreateZoneCommand) : Geofence :=
  mkGeofence id (cz_TenantID cmd) (cz_Name cmd) (cz_Kind cmd) (cz_Shape cmd) (cz_CenterLat cmd)
    (cz_CenterLng cmd) (cz_RadiusM cmd) (cz_Polygon cmd) (cz_RouteName cmd) (cz_Priority cmd) true
    (cz_CreatedBy cmd) 0 0.
Definition updated_zone (cmd : UpdateZoneCommand) (active : bool) : Geofence :=
  mkGeofence (uz_ID cmd) (uz_TenantID cmd) (uz_Name cmd) (uz_Kind cmd) (uz_Shape cmd)
    (uz_CenterLat cmd) (uz_CenterLng cmd) (uz_RadiusM cmd) (uz_Polygon cmd) (uz_RouteName cmd)
    (uz_Priority cmd) active None 0 0.

Section UseCases.
Context {env : Env}.

Definition CreateZone (cmd : CreateZoneCommand) : M string :=
  _ ← SM_lift (validate (cz_Shape cmd) (cz_CenterLat cmd) (cz_CenterLng cmd) (cz_RadiusM cmd)
                 (cz_Polygon cmd) (cz_Name cmd) (cz_Kind cmd));
  id ← GenerateUUID;
  _ ← UoWExecute (Create (created_zone id cmd));
  mret id.

Definition UpdateZone (cmd : UpdateZoneCommand) : M unit :=
  (when is_empty (uz_ID cmd) fail Err "zone ID is required";
   (_ ← SM_lift (validate (uz_Shape cmd) (uz_CenterLat cmd) (uz_CenterLng cmd) (uz_RadiusM cmd)
                   (uz_Polygon cmd) (uz_Name cmd) (uz_Kind cmd));
    UoWExecute
      (existing ← SM_wrap "geofence not found" (FindZone (uz_TenantID cmd) (uz_ID cmd));
       Update (updated_zone cmd (IsActive existing)))))%go.

Definition SoftDeleteZone (tenant id : string) : M unit :=
  (when is_empty id fail Err "zone ID is required"; UoWExecute (SoftDelete tenant id))%go.
End UseCases.
End ZoneApp.

(** ** Detention billing (detention.go) *)
Module DetentionApp.
Import Geo GeoStore.

Record DetentionCommand := mkDetentionCommand { dc_DetentionID : string; dc_TenantID : string }.
Definition ErrInvoicePaid : error := Err "invoice for this trip is already paid".
Definition DetentionTableName : string := "trip_detentions".

Section UseCases.
Context {env : Env}.

(** Without an address, unlike the audit of the other modules. *)
Definition logGeofenceAudit (action recordID : string) : M unit :=
  SM_ignore
    (id ← GenerateUUID;
     CreateAuditLog (mkAuditRow id getUserID action DetentionTableName recordID None None None)).

Definition detention_line (d : Detention) : InvoiceApp.InvoiceLineItemInput :=
  InvoiceApp.mkLineInput (Some (d_TripID d)) Invoice.LineTypeDetention
    (if is_empty (ZoneName d) then "Detention" else "Detention at " +:+ ZoneName d)%string
    (fdiv (f64_of_Z (BillableSeconds d)) (f64_of_Z 3600)) (RatePerHour d) (Some (d_ID d)).
Definition detention_invoice (tenant : string) (d : Detention) : InvoiceApp.GenerateInvoiceCommand :=
  InvoiceApp.mkGenerate tenant "" "" (Some (d_TripID d)) f0 f0 f0 f0 [detention_line d].

Definition AttachDetention (cmd : DetentionCommand) : M unit :=
  UoWExecute
    (d ← FindDetention (dc_TenantID cmd) (dc_DetentionID cmd);
     (when negb (String.eqb (Status d) DetentionClosed) fail
        Err "only closed detentions can be attached";
      when fleb (Amount d) f0 fail Err "detention has no billable amount";
      (r ← InvoiceApp.GenerateInTx (detention_invoice (dc_TenantID cmd) d);
       when negb (snd r) fail ErrInvoicePaid;
       (_ ← MarkAttached (d_ID d); logGeofenceAudit "attach_detention" (d_ID d))))%go).

Definition WaiveDetention (cmd : DetentionCommand) : M unit :=
  UoWExecute
    (d ← FindDetention (dc_TenantID cmd) (dc_DetentionID cmd);
     (when String.eqb (Status d) DetentionWaived || String.eqb (Status d) DetentionInvoiced fail
        Err "detention already resolved";
      (_ ← Waive (d_ID d); logGeofenceAudit "waive_detention" (d_ID d)))%go).
End UseCases.
End DetentionApp.
