(* ===== verification/DwellWorker.v ===== *)
(** * The dwell worker

    [internal/geofence/infrastructure/worker/dwell_worker.go]: a sweep takes
    the new fixes of every vehicle, oldest first, through the dwell engine,
    writes each transition with its events, detention windows and breach
    alerts in a transaction of its own, and then lets the trips follow. *)
From stdpp Require Import base decidable list strings option gmap.
From Stdlib Require Import ZArith Lia String Sorting.Sorted.
From S2P Require Import Prelude GoFloat Shared GoMath Geofence Events InvoiceAggregate TripAggregate Database.
From S2P Require Import Outbox Repository TripRepository TripUseCases TripSafety InvoiceUseCases GeofenceStore.
Open Scope Z_scope.

Module Worker.
Import Geo Dwell GeoStore Config.

Definition maxFixesPerSweep : nat := 500.

(** ** Breach alerts (alerts.go) *)
Definition SeverityHigh : string := "high".
Definition SeverityMedium : string := "medium".
Definition SeverityLow : string := "low".
Definition SeverityFor (kind : string) : string :=
  if String.eqb kind "no_entry" then SeverityHigh
  else if String.eqb kind "restricted" then SeverityMedium
  else SeverityLow.

(** [d.Seconds()]. *)
Definition Seconds (d : Z) : float64 :=
  fadd (f64_of_Z (Z.quot d second)) (fdiv (f64_of_Z (Z.rem d second)) (f64_of_Z second)).

Section Worker.
Context {env : Env} {gm : GoMath} {S : Type}.

(** The database, the configuration cache, and the subscribers of the bus. *)
Abbreviation State_ := (World * ConfigReader * S)%type.
Abbreviation WM := (SM State_).

(** [bus] may be nil; the two trip use cases may not be wired. *)
Record DwellWorker := mkWorker {
  tenantID : string; bus : option (InMemoryBus GeofenceAlert S);
  reachPickupUC : bool; startTransitUC : bool }.

Definition in_config {A} (m : SM (World * ConfigReader) A) : WM A := λ s,
  match m (fst s) with (r, c) => (r, (c, snd s)) end.
Definition in_world {A} (m : M A) : WM A := in_config (on_world m).

Definition world (s : State_) : World := fst (fst s).
Definition set_world (w : World) (s : State_) : State_ := (w, snd (fst s), snd s).

(** [uow.Execute] around a body that also reads the cache and publishes:
    only the database is rolled back. *)
Definition UoWExecute_in {A} (fn : WM A) : WM A := λ s,
  match stmt_fault (w_stmts (world s)) with
  | Some e => (Fail e, set_world (tick_stmts (world s)) s)
  | None =>
      match fn (set_world (tick_stmts (world s)) s) with
      | (Fail e, s') => (Fail e, set_world (set_w_db (w_db (world s)) (world s')) s')
      | (Ok a, s') =>
          match stmt_fault (w_stmts (world s')) with
          | Some e => (Fail e, set_world (set_w_db (w_db (world s)) (tick_stmts (world s'))) s')
          | None => (Ok a, set_world (tick_stmts (world s')) s')
          end
      end
  end.

Context (k : DwellWorker).

Definition or_default {A} (def : A) (m : SM (World * ConfigReader) A) : WM A :=
  r ← SM_try (in_config m); mret (match r with Ok a => a | Fail _ => def end).
Definition mustDuration (key : string) (def : Z) : WM Z :=
  or_default def (GetDurationSeconds (tenantID k) key def).
Definition mustFloat (key : string) (def : float64) : WM float64 :=
  or_default def (GetFloat (tenantID k) key def).

(** ** What a fix is evaluated against *)
Definition tripContext (tripID : string) : M (string * string * string) :=
  r ← SM_try (query_row (λ _ d,
        t ← select_one (λ t, String.eqb (TripRow.ID t) tripID &&
                             String.eqb (TripRow.TenantID t) (tenantID k)) (trips d);
        let route := select_one (λ r, String.eqb (RouteRowID r) (TripRow.RouteID t)) (routes d) in
        Some (TripRow.Status t, match route with Some r => RouteSource r | None => ""%string end,
              match route with Some r => RouteDestination r | None => ""%string end)));
  mret (match r with Ok c => c | Fail _ => (""%string, ""%string, ""%string) end).

Definition zoneApplies (z : Geofence) (tripID : option string) (routeSource routeDest : string) : bool :=
  if (String.eqb (Kind z) KindPickup || String.eqb (Kind z) KindDrop) &&
     bool_decide (tripID = None) then false
  else if is_empty (RouteName z) then true
  else
    let route := ToLower (TrimSpace (RouteName z)) in
    String.eqb route (ToLower (TrimSpace routeSource)) ||
    String.eqb route (ToLower (TrimSpace routeDest)).

(** Explicit bindings first; then the tenant's zones that are not among the
    bindings taken. *)
Definition merge_zones (applies : Geofence → bool) (bound active : list Geofence) : list Geofence :=
  let taken := List.filter applies bound in
  (taken ++ List.filter (λ z, negb (bool_decide (ID z ∈ map ID taken)) && applies z) active)%list.

Definition zonesFor (vehicleID : string) (tripID : option string) (routeSource routeDest : string)
    : M (list Geofence) :=
  bound ← ListBoundForVehicle (tenantID k) vehicleID;
  active ← ListActiveByTenant (tenantID k);
  mret (merge_zones (λ z, zoneApplies z tripID routeSource routeDest) bound active).

(** ** Persisting a transition *)
Definition is_stop (kind : string) : bool := String.eqb kind KindPickup || String.eqb kind KindDrop.

Definition openDetention (f : Fix) (ev : ZoneEvent) : WM unit :=
  match fix_TripID f with
  | Some trip =>
      if is_stop (Kind (Zone ev)) then
        id ← in_world GenerateUUID;
        in_world (OpenDetention
          (mkDetention id (tenantID k) trip (Some (fix_VehicleID f)) (Some (ID (Zone ev)))
             (Kind (Zone ev)) "" (At ev) None 0 0 0 f0 f0 DetentionOpen))
      else mret tt
  | None => mret tt
  end.

(** [math.Round(x*100) / 100], not below zero. *)
Definition detention_amount (dwell free : Z) (rate : float64) : float64 :=
  let amount := Invoice.RoundMoney
    (fmul (fdiv (f64_of_Z (wrap64 (dwell - free))) (f64_of_Z 3600)) rate) in
  if fltb amount f0 then f0 else amount.
Definition dwell_seconds (entered left_ : Time) : Z :=
  let dwell := f64_to_int64 (Seconds (Sub left_ entered)) in
  if dwell <? 0 then 0 else dwell.

Definition closeDetention (f : Fix) (ev : ZoneEvent) : WM unit :=
  match fix_TripID f with
  | Some trip =>
      if is_stop (Kind (Zone ev)) then
        d ← in_world (FindOpenDetention (tenantID k) trip (Kind (Zone ev)));
        match d with
        | None => mret tt
        | Some d =>
            let dwell := dwell_seconds (EnteredAt d) (At ev) in
            window ← mustDuration ConfigDetentionFreeSeconds DefaultDetentionFree;
            rate ← mustFloat ConfigDetentionRatePerHour DefaultDetentionRate;
            let free := f64_to_int64 (Seconds window) in
            in_world (CloseDetention (d_ID d) (At ev) dwell free rate (detention_amount dwell free rate))
        end
      else mret tt
  | None => mret tt
  end.

Definition breach_alert (f : Fix) (ev : ZoneEvent) : GeofenceAlert :=
  mkGeofenceAlert (tenantID k) (fix_VehicleID f) (default ""%string (fix_TripID f)) (ID (Zone ev))
    (Kind (Zone ev)) "zone_breach" (SeverityFor (Kind (Zone ev))) (fix_Latitude f) (fix_Longitude f)
    (Details ev) (At ev).
Definition EmitGeofenceAlert (a : GeofenceAlert) : M unit :=
  SaveEvents (al_VehicleID a) "Vehicle" [GeofenceAlertEvent a].
Definition publish_breach (a : GeofenceAlert) : WM unit :=
  match bus k with
  | Some b => SM_modify (λ s, (fst s, Publish b GeofenceZoneBreach a (snd s)))
  | None => mret tt
  end.

Definition logged_event (id : string) (f : Fix) (ev : ZoneEvent) : GeofenceEvent :=
  mkGeofenceEvent id (tenantID k) (Some (fix_VehicleID f)) (fix_TripID f) (Some (ID (Zone ev)))
    (Some (Kind (Zone ev))) (EventType ev) None None (Some (fix_Latitude f)) (Some (fix_Longitude f))
    (if is_empty (Details ev) then None else Some (Details ev)) (At ev).

Definition persist_event (f : Fix) (ev : ZoneEvent) : WM unit :=
  id ← in_world GenerateUUID;
  _ ← in_world (InsertEvent (logged_event id f ev));
  if String.eqb (EventType ev) EventEntering then openDetention f ev
  else if String.eqb (EventType ev) EventLeaving then closeDetention f ev
  else if String.eqb (EventType ev) EventBreach then
    _ ← in_world (EmitGeofenceAlert (breach_alert f ev));
    publish_breach (breach_alert f ev)
  else mret tt.

Definition persist (next : EngineState) (f : Fix) (evs : list ZoneEvent) : WM unit :=
  UoWExecute_in (_ ← in_world (Upsert next); SM_iter (persist_event f) evs).

(** ** The trips that follow *)
Definition transition_of (autoReach autoTransit : bool) (tripStatus : string) (ev : ZoneEvent)
    : option (string → string → M unit) :=
  let entering := String.eqb (EventType ev) EventEntering in
  let leaving := String.eqb (EventType ev) EventLeaving in
  let kind := Kind (Zone ev) in
  let started := String.eqb tripStatus (Trip.status_string Trip.TripStarted) in
  let reached := String.eqb tripStatus (Trip.status_string Trip.TripReachedPickup) in
  if entering && String.eqb kind KindPickup && started && autoReach && reachPickupUC k
  then Some TripApp.ReachPickupExecute
  else if entering && String.eqb kind KindDrop && reached && autoTransit && startTransitUC k
  then Some TripApp.StartTransitExecute
  else if leaving && String.eqb kind KindPickup && reached && autoTransit && startTransitUC k
  then Some TripApp.StartTransitExecute
  else None.

Definition applyTransitions (f : Fix) (evs : list ZoneEvent) (tripStatus : string) : WM unit :=
  match fix_TripID f with
  | None => mret tt
  | Some trip =>
      autoReach ← or_default false (GetBool (tenantID k) ConfigAutoReachPickup false);
      autoTransit ← or_default false (GetBool (tenantID k) ConfigAutoStartTransit false);
      SM_iter (λ ev,
        match transition_of autoReach autoTransit tripStatus ev with
        | Some execute => SM_ignore (in_world (execute trip (tenantID k)))
        | None => mret tt
        end) evs
  end.

(** ** A sweep *)
(** One fix: was it handled?  A nil pointer would end the sweep. *)
Definition sweep_fix (cfg : EngineConfig) (f : Fix) : WM bool :=
  ctx ← match fix_TripID f with
        | Some trip => in_world (tripContext trip)
        | None => mret (""%string, ""%string, ""%string)
        end;
  let '(tripStatus, routeSource, routeDest) := ctx in
  zones ← SM_try (in_world (zonesFor (fix_VehicleID f) (fix_TripID f) routeSource routeDest));
  match zones with
  | Fail _ => mret false
  | Ok zones =>
      current ← SM_try (in_world (GetByVehicle (tenantID k) (fix_VehicleID f)));
      match current with
      | Fail _ => mret false
      | Ok current =>
          next ← SM_lift (Evaluate cfg (default (fresh_state (fix_VehicleID f) (tenantID k)) current) f zones);
          r ← SM_try (persist (fst next) f (snd next));
          match r with
          | Fail _ => mret false
          | Ok _ => _ ← applyTransitions f (snd next) tripStatus; mret true
          end
      end
  end.

Fixpoint sweep (cfg : EngineConfig) (fixes : list Fix) : WM nat :=
  match fixes with
  | [] => mret 0%nat
  | f :: fixes' =>
      handled ← sweep_fix cfg f;
      n ← sweep cfg fixes';
      mret (if handled : bool then Datatypes.S n else n)
  end.

(** The context is not cancelled. *)
Definition Tick : WM nat :=
  fixes ← in_world (LoadNewFixes maxFixesPerSweep);
  debounce ← mustDuration ConfigDwellDebounceSeconds DefaultDwellDebounce;
  buffer ← mustFloat ConfigBufferMetres DefaultBufferMetres;
  hysteresis ← mustFloat ConfigHysteresisMetres DefaultHysteresisMetres;
  sweep (mkEngineConfig debounce buffer hysteresis) fixes.

(** ** What each step touches *)
Definition db (s : State_) : DB := w_db (world s).
Definition on_tables (P : DB → DB → Prop) (s s' : State_) : Prop := P (db s) (db s').
#[local] Instance on_tables_preorder P `{!PreOrder P} : PreOrder (on_tables P).
Proof.
  split; [intros s; unfold on_tables; reflexivity|]. intros s1 s2 s3. unfold on_tables. apply transitivity.
Qed.
Definition on_config (s s' : World * ConfigReader) : Prop := w_db (fst s') = w_db (fst s).
#[local] Instance on_config_preorder : PreOrder on_config.
Proof. split; [done|]. intros s1 s2 s3 H1 H2. unfold on_config in *. congruence. Qed.

Lemma on_world_same {A} (m : M A) : preserves (on_db eq) m → preserves on_config (on_world m).
Proof. intros Hm s. specialize (Hm (fst s)). unfold on_world. destruct (m (fst s)). by symmetry. Qed.
Lemma refresh_same t : preserves on_config (refreshIfStale t).
Proof.
  assert (He : ∀ a, preserves on_config (expired a)).
  { intros [a|]; cbn; [|by apply preserves_ret; exact _].
    apply preserves_bind; [exact _|apply on_world_same, Now_same|]. intros now. apply preserves_ret, _. }
  unfold refreshIfStale, set_reader.
  preserve_with ltac:(fun _ => first [ apply He | apply on_world_same, query_same
    | apply on_world_same, Now_same | by intros [w c] ]).
Qed.

Section Frame.
Context (P : DB → DB → Prop) `{!PreOrder P}.

Lemma in_config_P {A} (m : SM (World * ConfigReader) A) :
  preserves on_config m → preserves (on_tables P) (in_config m).
Proof.
  intros Hm s. specialize (Hm (fst s)). unfold in_config, on_tables, db, world.
  destruct (m (fst s)) as [r c]. unfold on_config in Hm. cbn in *. rewrite Hm. reflexivity.
Qed.
Lemma in_world_P {A} (m : M A) : preserves (on_db P) m → preserves (on_tables P) (in_world m).
Proof.
  intros Hm s. specialize (Hm (fst (fst s))). unfold in_world, in_config, on_world, on_tables, db, world.
  by destruct (m (fst (fst s))).
Qed.
Lemma Get_P t key {A} (g : string → A) :
  preserves on_config (raw ← Get t key; mret (g raw)).
Proof.
  unfold Get. preserve_with ltac:(fun _ => apply refresh_same).
Qed.
Lemma mustDuration_P key def : preserves (on_tables P) (mustDuration key def).
Proof.
  unfold mustDuration, or_default, GetDurationSeconds.
  preserve_with ltac:(fun _ => apply in_config_P, Get_P).
Qed.
Lemma mustFloat_P key def : preserves (on_tables P) (mustFloat key def).
Proof.
  unfold mustFloat, or_default, GetFloat. preserve_with ltac:(fun _ => apply in_config_P, Get_P).
Qed.
Lemma getBool_P key : preserves (on_tables P) (or_default false (GetBool (tenantID k) key false)).
Proof. unfold or_default, GetBool. preserve_with ltac:(fun _ => apply in_config_P, Get_P). Qed.

Lemma UoWExecute_in_P {A} (fn : WM A) :
  preserves (on_tables P) fn → preserves (on_tables P) (UoWExecute_in fn).
Proof.
  intros Hfn s. unfold on_tables, db, UoWExecute_in. destruct (stmt_fault _); [cbn; reflexivity|].
  specialize (Hfn (set_world (tick_stmts (world s)) s)). unfold on_tables, db in Hfn.
  destruct (fn _) as [[a|e] s1]; cbn in *; [|reflexivity].
  destruct (stmt_fault _); cbn; [reflexivity|exact Hfn].
Qed.

(** The statements of the sweep, table by table. *)
Hypothesis P_state : ∀ l d, P d (set_engine_state l d).
Hypothesis P_event : ∀ l d, P d (set_geofence_events l d).
Hypothesis P_outbox : ∀ l d, P d (set_outbox_events l d).
Hypothesis P_open : ∀ x, preserves (on_db P) (OpenDetention x).
Hypothesis P_close : ∀ id entered exited free rate,
  let dwell := dwell_seconds entered exited in
  preserves (on_db P) (CloseDetention id exited dwell free rate (detention_amount dwell free rate)).
Hypothesis P_reach : ∀ id t, preserves (on_db P) (TripApp.ReachPickupExecute id t).
Hypothesis P_transit : ∀ id t, preserves (on_db P) (TripApp.StartTransitExecute id t).

Ltac stmt_leaf :=
  apply preserves_map_err, stmt_on_db; [exact _|]; intros ? ?; cbn; repeat case_match; cbn;
  first [ reflexivity | by auto ].
Lemma Upsert_P x : preserves (on_db P) (Upsert x).
Proof. stmt_leaf. Qed.
Lemma InsertEvent_P x : preserves (on_db P) (InsertEvent x).
Proof. stmt_leaf. Qed.
Lemma Emit_P a : preserves (on_db P) (EmitGeofenceAlert a).
Proof.
  eapply preserves_weaken; [|apply SaveEvents_only]. intros w w' [rows Hd]. unfold on_db. rewrite Hd.
  apply P_outbox.
Qed.
Lemma publish_P a : preserves (on_tables P) (publish_breach a).
Proof. unfold publish_breach. destruct (bus k); intros s; unfold on_tables, db; cbn; reflexivity. Qed.

Ltac world_same := apply in_world_P, on_db_of_eq; [exact _|]; try (apply preserves_map_err); 
  first [ apply query_same | apply GenerateUUID_same | apply query_row_same ].

Lemma persist_event_P f ev : preserves (on_tables P) (persist_event f ev).
Proof.
  unfold persist_event, openDetention, closeDetention.
  preserve_with ltac:(fun _ => first
    [ apply in_world_P, InsertEvent_P | apply in_world_P, P_open
    | apply in_world_P, P_close | apply in_world_P, Emit_P | apply publish_P
    | apply mustDuration_P | apply mustFloat_P | world_same ]).
Qed.
Lemma persist_P next f evs : preserves (on_tables P) (persist next f evs).
Proof.
  unfold persist. apply UoWExecute_in_P.
  preserve_with ltac:(fun _ => first [ apply in_world_P, Upsert_P | apply persist_event_P ]).
Qed.
Lemma transition_cases r t st ev ex :
  transition_of r t st ev = Some ex → ex = TripApp.ReachPickupExecute ∨ ex = TripApp.StartTransitExecute.
Proof. unfold transition_of. repeat (destruct (_ && _)); intros [= <-]; auto. Qed.
Lemma applyTransitions_P f evs st : preserves (on_tables P) (applyTransitions f evs st).
Proof.
  unfold applyTransitions. destruct (fix_TripID f) as [trip|]; [|apply preserves_ret, _].
  apply preserves_bind; [exact _|apply getBool_P|intros r].
  apply preserves_bind; [exact _|apply getBool_P|intros t]. apply preserves_iter; [exact _|intros ev].
  destruct (transition_of r t st ev) as [ex|] eqn:Ht; [|apply preserves_ret, _].
  apply preserves_ignore, in_world_P. apply transition_cases in Ht as [->| ->]; auto.
Qed.
Lemma tripContext_same t : preserves (on_db eq) (tripContext t).
Proof. unfold tripContext. preserve. Qed.
Lemma zonesFor_same v t a b : preserves (on_db eq) (zonesFor v t a b).
Proof.
  unfold zonesFor, ListBoundForVehicle, ListActiveByTenant. preserve.
Qed.
Lemma sweep_fix_P cfg f : preserves (on_tables P) (sweep_fix cfg f).
Proof.
  unfold sweep_fix.
  preserve_with ltac:(fun _ => first
    [ apply in_world_P, on_db_of_eq; [exact _|]; first [ apply tripContext_same | apply zonesFor_same ]
    | world_same | apply persist_P | apply applyTransitions_P ]).
Qed.
Lemma LoadNewFixes_same n : preserves (on_db eq) (LoadNewFixes n).
Proof. unfold LoadNewFixes. preserve. Qed.
Lemma Tick_P : preserves (on_tables P) Tick.
Proof.
  assert (∀ cfg l, preserves (on_tables P) (sweep cfg l)).
  { intros cfg l. induction l as [|f l IH]; cbn [sweep];
      preserve_with ltac:(fun _ => first [ apply sweep_fix_P | apply IH ]). }
  unfold Tick.
  preserve_with ltac:(fun _ => first
    [ apply in_world_P, on_db_of_eq; [exact _|]; apply LoadNewFixes_same
    | apply mustDuration_P | apply mustFloat_P | auto ]).
Qed.
End Frame.

(** ** The trip use cases leave the other tables alone *)
Lemma trip_Save_ops t : preserves (on_db same_ops) (TripRepo.Save t).
Proof.
  assert (He : ∀ a b evs, preserves (on_db same_ops) (SaveEvents a b evs)).
  { intros a b evs. eapply preserves_weaken; [|apply SaveEvents_only]. intros w w' [rows Hd].
    unfold on_db. by rewrite Hd. }
  assert (Hu : ∀ p, preserves (on_db same_ops) (TripRepo.UpdateTrip p)).
  { intros p. apply stmt_on_db; [exact _|]. intros now d. cbn. by repeat case_match. }
  assert (Hc : ∀ p, preserves (on_db same_ops) (TripRepo.CreateTrip p)).
  { intros p. apply stmt_on_db; [exact _|]. intros now d. cbn. by repeat case_match. }
  assert (Hx : ∀ a b, preserves (on_db same_ops) (TripRepo.Exists a b)).
  { intros a b. apply on_db_of_eq; [exact _|]. unfold TripRepo.Exists. preserve. }
  unfold TripRepo.Save. preserve_with ltac:(fun _ => first [ apply Hx | apply Hu | apply Hc | apply He ]).
Qed.

Ltac trip_uc :=
  apply UoWExecute_on_db; [exact _|];
  preserve_with ltac:(fun _ => first
    [ apply on_db_of_eq; [exact _|]; first [ apply TripRepo.Find_same | apply Now_same ]
    | apply trip_Save_ops | apply audit_ops ]).
Lemma ReachPickup_ops id t : preserves (on_db same_ops) (TripApp.ReachPickupExecute id t).
Proof. unfold TripApp.ReachPickupExecute. trip_uc. Qed.
Lemma StartTransit_ops id t : preserves (on_db same_ops) (TripApp.StartTransitExecute id t).
Proof. unfold TripApp.StartTransitExecute. trip_uc. Qed.

Lemma detention_stmts (P : DB → DB → Prop) `{!PreOrder P} :
  (∀ l d, P d (set_trip_detentions l d)) →
  (∀ x, preserves (on_db P) (OpenDetention x)) ∧
  (∀ id e w f r a, preserves (on_db P) (CloseDetention id e w f r a)).
Proof.
  intros Hp. split; intros; apply preserves_map_err, stmt_on_db; try exact _; intros now d; cbn;
    repeat case_match; cbn; first [ reflexivity | apply Hp ].
Qed.

(** the worker cannot break the exclusive assignment of drivers and
    vehicles: the states a sweep reaches are among those the trip use cases
    reach, whatever fails and whatever the configuration switches on. *)
Theorem sweep_trips_reachable s :
  TripSafety.reachable (db s) → TripSafety.reachable (db (snd (Tick s))).
Proof.
  destruct (detention_stmts (keeps TripSafety.reachable)) as [Ho Hc].
  { intros l d Hr. by eapply TripSafety.reach_other. }
  apply (Tick_P (keeps TripSafety.reachable)).
  - intros l d Hr. by eapply TripSafety.reach_other.
  - intros l d Hr. by eapply TripSafety.reach_other.
  - intros l d Hr. by eapply TripSafety.reach_other.
  - exact Ho.
  - intros id e x f r. apply Hc.
  - intros id t w Hr. exact (TripSafety.reach_command _ (TripSafety.CmdReachPickup id t) w Hr).
  - intros id t w Hr. exact (TripSafety.reach_command _ (TripSafety.CmdStartTransit id t) w Hr).
Qed.

(** ** One fix, on the tables of the engine *)
Lemma in_store_inv {A} (m : M A) s r s' :
  in_world m s = (r, s') → ∃ w, m (world s) = (r, w) ∧ db s' = w_db w.
Proof.
  unfold in_world, in_config, on_world, world, db. destruct (m (fst (fst s))) as [r1 w].
  intros [= <- <-]. by exists w.
Qed.

Lemma UoWExecute_in_cases {A} (fn : WM A) s r s' :
  UoWExecute_in fn s = (r, s') →
  match r with
  | Ok a => ∃ s1, fn (set_world (tick_stmts (world s)) s) = (Ok a, s1) ∧ db s' = db s1
  | Fail _ => db s' = db s
  end.
Proof.
  unfold UoWExecute_in. destruct (stmt_fault _); [by intros [= <- <-]|].
  destruct (fn _) as [[a|e] s1]; [|by intros [= <- <-]].
  destruct (stmt_fault _); intros [= <- <-]; [done|]. by exists s1.
Qed.

(** The tables a sweep reads its fixes from. *)
Definition same_engine (d d' : DB) : Prop :=
  engine_state (ops d') = engine_state (ops d) ∧
  telemetry_snapshots (ops d') = telemetry_snapshots (ops d).
#[local] Instance same_engine_preorder : PreOrder same_engine.
Proof.
  split; [by intros d|]. intros d1 d2 d3 [H1 H2] [H3 H4]. split; congruence.
Qed.
Lemma same_ops_engine d d' : same_ops d d' → same_engine d d'.
Proof. intros Hd. unfold same_engine. by rewrite Hd. Qed.

Lemma persist_ok next f evs s s' :
  persist next f evs s = (Ok tt, s') →
  ∃ now, engine_state (ops (db s')) = upsert_state now next (engine_state (ops (db s))) ∧
         telemetry_snapshots (ops (db s')) = telemetry_snapshots (ops (db s)).
Proof.
  intros H%UoWExecute_in_cases. destruct H as (s1 & H & ->). run_ok H. destruct v.
  apply in_store_inv in Hrun as (w & Hu & Hdb). apply map_err_ok_inv in Hu.
  apply stmt_inv in Hu as (_ & _ & _ & Hu). injection Hu as Hu.
  assert (He : same_engine (db s0) (db s1)).
  { cut (preserves (on_tables same_engine) (SM_iter (persist_event f) evs)).
    { intros Hp. specialize (Hp s0). by rewrite H in Hp. }
    destruct (detention_stmts same_engine) as [Ho Hc]; [by intros l d; split|].
    apply preserves_iter; [exact _|]. intros ev. apply persist_event_P; [exact _|by intros l d; split..|exact Ho|].
    intros id e x fr r. apply Hc. }
  destruct He as [He1 He2]. eexists. rewrite He1, He2, Hdb, <- Hu. split; reflexivity.
Qed.

Lemma transitions_engine f evs st s : same_engine (db s) (db (snd (applyTransitions f evs st s))).
Proof.
  apply applyTransitions_P; [exact _|..]; intros id t; (apply of_ops; [exact _|exact same_ops_engine|]);
    [apply ReachPickup_ops|apply StartTransit_ops].
Qed.
Lemma transitions_total f evs st s : ∃ s', applyTransitions f evs st s = (Ok tt, s').
Proof.
  assert (Hd : ∀ A (def : A) m s0, ∃ a s1, or_default def m s0 = (Ok a, s1)).
  { intros A def m s0. unfold or_default, SM_try. cbv [mbind SM_mbind SM_bind].
    destruct (in_config m s0) as [[a|e] s1]; cbn; eauto. }
  unfold applyTransitions. destruct (fix_TripID f) as [trip|]; [|eexists; reflexivity].
  destruct (Hd _ false (GetBool (tenantID k) ConfigAutoReachPickup false) s) as (a & s1 & H1).
  rewrite (bind_ok _ _ _ _ _ H1).
  destruct (Hd _ false (GetBool (tenantID k) ConfigAutoStartTransit false) s1) as (b & s2 & H2).
  rewrite (bind_ok _ _ _ _ _ H2). generalize s2 as s3. clear. induction evs as [|ev evs IH]; intros s3.
  - eexists. reflexivity.
  - cbn [SM_iter]. destruct (transition_of a b st ev) as [ex|].
    + edestruct (IH (snd (in_world (ex trip (tenantID k)) s3))) as (s' & Hs). exists s'.
      rewrite <- Hs. reflexivity.
    + apply IH.
Qed.

Lemma try_same {A} (m : WM A) s :
  preserves (on_tables eq) m →
  ∃ r s1, SM_try m s = (Ok r, s1) ∧ m s = (r, s1) ∧ db s1 = db s.
Proof.
  intros Hm. specialize (Hm s). unfold SM_try. destruct (m s) as [r s1]. exists r, s1.
  split; [done|]. by split; [|symmetry].
Qed.

Definition engine_inv (d : DB) : Prop :=
  NoDup (map es_VehicleID (engine_state (ops d))) ∧
  ∀ x, x ∈ engine_state (ops d) → well_formed x = true.

(** What a fix does: nothing, or one upsert of a well-formed row. *)
Definition handled_fix (f : Fix) (d d' : DB) : Prop :=
  ∃ next now, well_formed next = true ∧ LastFixAt next = fix_Timestamp f ∧
    es_VehicleID next = fix_VehicleID f ∧
    engine_state (ops d') = upsert_state now next (engine_state (ops d)).

Lemma tripContext_total t w : ∃ c w', tripContext t w = (Ok c, w') ∧ w_db w' = w_db w.
Proof.
  pose proof (tripContext_same t w) as Hs. unfold tripContext in *.
  cbv [SM_try mbind SM_mbind SM_bind] in *. destruct (query_row _ _) as [r w1]. cbn in *.
  eexists _, _. split; [reflexivity|]. by symmetry.
Qed.

Lemma context_total f s :
  ∃ c s1, (match fix_TripID f with
           | Some trip => in_world (tripContext trip)
           | None => mret (""%string, ""%string, ""%string)
           end : WM _) s = (Ok c, s1) ∧ db s1 = db s.
Proof.
  destruct (fix_TripID f) as [trip|]; [|eexists _, s; by split].
  destruct (tripContext_total trip (world s)) as (c & w & Ht & Hd).
  exists c, (set_world w s). split; [|exact Hd].
  unfold in_world, in_config, on_world. unfold world in Ht. by rewrite Ht.
Qed.

Lemma current_ok d v cur :
  engine_inv d → cur = select_one (state_key (tenantID k) v) (engine_state (ops d)) →
  let s := default (fresh_state v (tenantID k)) cur in
  well_formed s = true ∧ es_VehicleID s = v.
Proof.
  intros [_ Hw] ->. destruct (select_one _ _) as [x|] eqn:Hx; [|by split].
  apply select_one_Some in Hx as [Hin Hk]. split; [by apply Hw|].
  apply andb_true_iff in Hk as [Hk _]. by apply String.eqb_eq in Hk.
Qed.

Lemma sweep_fix_step cfg f s :
  engine_inv (db s) →
  ∃ b s', sweep_fix cfg f s = (Ok b, s') ∧
    telemetry_snapshots (ops (db s')) = telemetry_snapshots (ops (db s)) ∧
    (if b : bool then handled_fix f (db s) (db s')
     else engine_state (ops (db s')) = engine_state (ops (db s))).
Proof.
  intros Hinv. unfold sweep_fix.
  destruct (context_total f s) as ([[st src] dst] & s1 & Hc & Hd1).
  rewrite (bind_ok _ _ _ _ _ Hc). clear Hc. cbn beta iota zeta.
  destruct (try_same (in_world (zonesFor (fix_VehicleID f) (fix_TripID f) src dst)) s1)
    as (rz & s2 & Hz & _ & Hd2).
  { apply in_world_P, zonesFor_same. }
  rewrite (bind_ok _ _ _ _ _ Hz). clear Hz. rewrite Hd1 in Hd2.
  destruct rz as [zones|e]; [|exists false, s2; split; [done|by rewrite Hd2]].
  destruct (try_same (in_world (GetByVehicle (tenantID k) (fix_VehicleID f))) s2)
    as (rc & s3 & Hz & Hg & Hd3).
  { apply in_world_P, preserves_map_err, query_same. }
  rewrite (bind_ok _ _ _ _ _ Hz). clear Hz. rewrite Hd2 in Hd3.
  destruct rc as [cur|e]; [|exists false, s3; split; [done|by rewrite Hd3]].
  apply in_store_inv in Hg as (w & Hg & _). apply map_err_ok_inv in Hg.
  apply query_inv in Hg as (_ & _ & ->). fold (db s2). rewrite Hd2.
  destruct (current_ok (db s) (fix_VehicleID f) _ Hinv eq_refl) as [Hw Hv].
  set (cur := default _ _) in *.
  destruct (evaluate_ok cfg cur f zones Hw) as (next & evs & He & Hwn & _ & Hts & Hvn & _).
  assert (Hl : (SM_lift (Evaluate cfg cur f zones) : WM _) s3 = (Ok (next, evs), s3)) by (by rewrite He).
  rewrite (bind_ok _ _ _ _ _ Hl). clear Hl. cbn [fst snd].
  destruct (persist next f evs s3) as [rp s4] eqn:Hp.
  assert (Ht : SM_try (persist next f evs) s3 = (Ok rp, s4)) by (unfold SM_try; by rewrite Hp).
  rewrite (bind_ok _ _ _ _ _ Ht). clear Ht. destruct rp as [[]|e].
  - apply persist_ok in Hp as (now & He4 & Hs4). destruct (transitions_total f evs st s4) as (s5 & Ht).
    rewrite (bind_ok _ _ _ _ _ Ht). pose proof (transitions_engine f evs st s4) as [H5 H6].
    rewrite Ht in H5, H6. cbn [snd] in H5, H6.
    exists true, s5. split; [done|]. rewrite H6, Hs4, Hd3. split; [done|].
    exists next, now. rewrite H5, He4, Hd3, Hvn, Hv. done.
  - apply UoWExecute_in_cases in Hp. exists false, s4. split; [done|]. by rewrite Hp, Hd3.
Qed.

(** ** The invariant of the engine's rows *)
Lemma upsert_find now x l v :
  LastFixAt <$> select_one (on_state v) (upsert_state now x l) =
  if decide (v = es_VehicleID x) then Some (LastFixAt x) else LastFixAt <$> select_one (on_state v) l.
Proof.
  unfold upsert_state. destruct (exists_row _ l) eqn:Hex.
  - rewrite select_one_update.
    2:{ intros y _ Hy. apply String.eqb_eq in Hy. unfold on_state. cbn. by rewrite Hy. }
    destruct (decide (v = es_VehicleID x)) as [->|Hne].
    + rewrite select_one_exists in Hex. apply bool_decide_eq_true in Hex as [y Hy].
      rewrite Hy. apply select_one_Some in Hy as [_ Hy]. cbn. by rewrite Hy.
    + destruct (select_one (on_state v) l) as [y|] eqn:Hy; [|done]. cbn.
      apply select_one_Some in Hy as [_ Hy]. unfold on_state in *. apply String.eqb_eq in Hy.
      destruct (String.eqb_spec (es_VehicleID y) (es_VehicleID x)); [congruence|done].
  - rewrite select_one_app. destruct (decide (v = es_VehicleID x)) as [->|Hne].
    + apply exists_row_select in Hex. rewrite Hex. cbn. unfold on_state. cbn. by rewrite String.eqb_refl.
    + destruct (select_one (on_state v) l); [done|]. cbn. unfold on_state. cbn.
      by destruct (String.eqb_spec (es_VehicleID x) v).
Qed.

Lemma upsert_keys now x l : NoDup (map es_VehicleID l) → NoDup (map es_VehicleID (upsert_state now x l)).
Proof.
  unfold upsert_state. intros Hn. destruct (exists_row _ l) eqn:E.
  - unfold update_where. rewrite map_map. erewrite map_ext_in; [exact Hn|]. intros r _. cbn.
    destruct (on_state _ r) eqn:Ho; [|done]. cbn. by apply String.eqb_eq in Ho.
  - apply NoDup_map_snoc; [done|]. intros r Hr. rewrite exists_row_false in E.
    specialize (E r Hr). by apply String.eqb_neq in E.
Qed.

Lemma with_tenant_wf t now x : well_formed (with_tenant t now x) = well_formed x.
Proof. done. Qed.

Lemma handled_inv f d d' : engine_inv d → handled_fix f d d' → engine_inv d'.
Proof.
  intros [Hn Hw] (next & now & Hwn & _ & _ & He). unfold engine_inv. rewrite He.
  split; [by apply upsert_keys|]. intros x Hx. unfold upsert_state in Hx. destruct (exists_row _ _).
  - apply elem_of_update in Hx as (y & Hy & ->). destruct (on_state _ y); [by rewrite with_tenant_wf|auto].
  - apply elem_of_app in Hx as [Hx|Hx]; [auto|]. apply list_elem_of_singleton in Hx as ->.
    by rewrite with_tenant_wf.
Qed.

(** ** Watermarks *)
Definition mark (d : DB) (v : string) : option Time := watermark d (Some v).
Definition reached_mark (d : DB) (f : Fix) : Prop :=
  ∃ t, mark d (fix_VehicleID f) = Some t ∧ fix_Timestamp f <= t.
Definition marks_grow (d d' : DB) : Prop :=
  ∀ v t, mark d v = Some t → ∃ t', mark d' v = Some t' ∧ t <= t'.
#[local] Instance marks_grow_preorder : PreOrder marks_grow.
Proof.
  split; [intros d v t Ht; exists t; split; [done|lia]|].
  intros d1 d2 d3 H1 H2 v t Ht. destruct (H1 v t Ht) as (t2 & Ht2 & ?).
  destruct (H2 v t2 Ht2) as (t3 & Ht3 & ?). exists t3. split; [done|lia].
Qed.

Lemma mark_same d d' v : engine_state (ops d') = engine_state (ops d) → mark d' v = mark d v.
Proof. intros He. unfold mark, watermark. cbn. by rewrite He. Qed.
Lemma mark_handled f d d' v :
  handled_fix f d d' →
  mark d' v = if decide (v = fix_VehicleID f) then Some (fix_Timestamp f) else mark d v.
Proof.
  intros (next & now & _ & Ht & Hv & He). unfold mark, watermark. cbn. rewrite He, upsert_find.
  by rewrite Hv, Ht.
Qed.

(** No fix of the rest of a sweep lies before its vehicle's watermark. *)
Definition ahead (d : DB) (fixes : list Fix) : Prop :=
  ∀ f, f ∈ fixes → ∀ t, mark d (fix_VehicleID f) = Some t → t <= fix_Timestamp f.
Abbreviation by_time := (StronglySorted (λ f g, fix_Timestamp f <= fix_Timestamp g)).

Lemma handled_ahead f fixes d d' :
  by_time (f :: fixes) → ahead d (f :: fixes) → handled_fix f d d' →
  marks_grow d d' ∧ ahead d' fixes ∧ reached_mark d' f.
Proof.
  intros Hs Ha Hh. split; [|split].
  - intros v t Ht. rewrite (mark_handled _ _ _ _ Hh). destruct (decide _) as [->|]; [|exists t; split; [done|lia]].
    eexists. split; [done|]. by apply (Ha f); [left|].
  - intros g Hg t. rewrite (mark_handled _ _ _ _ Hh). destruct (decide _) as [He|].
    + intros [= <-]. apply StronglySorted_inv in Hs as [_ Hf]. by apply (proj1 (Forall_forall _ _) Hf).
    + apply Ha. by right.
  - exists (fix_Timestamp f). rewrite (mark_handled _ _ _ _ Hh), decide_True by done. split; [done|lia].
Qed.

Record sweep_effect (n : nat) (fixes : list Fix) (d d' : DB) : Prop := {
  eff_snapshots : telemetry_snapshots (ops d') = telemetry_snapshots (ops d);
  eff_bound : (n <= List.length fixes)%nat;
  eff_marks : marks_grow d d';
  eff_some : n = 0%nat ∨ ∃ f, f ∈ fixes ∧ reached_mark d' f;
  eff_all : n = List.length fixes → ∀ f, f ∈ fixes → reached_mark d' f }.

Lemma reached_grow d d' f : marks_grow d d' → reached_mark d f → reached_mark d' f.
Proof. intros Hg (t & Ht & ?). destruct (Hg _ _ Ht) as (t' & ? & ?). exists t'. split; [done|lia]. Qed.

Lemma sweep_run cfg fixes s :
  engine_inv (db s) → by_time fixes → ahead (db s) fixes →
  ∃ n s', sweep cfg fixes s = (Ok n, s') ∧ engine_inv (db s') ∧ sweep_effect n fixes (db s) (db s').
Proof.
  revert s. induction fixes as [|f fixes IH]; intros s Hinv Hs Ha.
  { exists 0%nat, s. split; [done|]. split; [done|]. split; [done|cbn; lia|reflexivity|by left|].
    intros _ f Hf. by apply not_elem_of_nil in Hf. }
  destruct (sweep_fix_step cfg f s Hinv) as (b & s1 & H1 & Hsn & Hb).
  assert (Hstep : engine_inv (db s1) ∧ marks_grow (db s) (db s1) ∧ ahead (db s1) fixes ∧
                  (b = true → reached_mark (db s1) f)).
  { destruct b.
    - destruct (handled_ahead f fixes _ _ Hs Ha Hb) as (Hg & Ha1 & Hr).
      split; [by eapply handled_inv|]. by split_and!.
    - assert (Hm : ∀ v, mark (db s1) v = mark (db s) v) by (intros v; by apply mark_same).
      split; [unfold engine_inv; by rewrite Hb|]. split; [intros v t; rewrite Hm; eauto with lia|].
      split; [|done]. intros g Hg t. rewrite Hm. apply Ha. by right. }
  destruct Hstep as (Hinv1 & Hg1 & Ha1 & Hr1). apply StronglySorted_inv in Hs as [Hs _].
  destruct (IH s1 Hinv1 Hs Ha1) as (n & s2 & H2 & Hinv2 & [E1 E2 E3 E4 E5]).
  exists (if b then Datatypes.S n else n), s2. split.
  { cbn [sweep]. rewrite (bind_ok _ _ _ _ _ H1), (bind_ok _ _ _ _ _ H2). by destruct b. }
  split; [done|]. split.
  - congruence.
  - cbn. destruct b; lia.
  - by transitivity (db s1).
  - destruct b; [right; exists f; split; [by left|]; eapply reached_grow; eauto|].
    destruct E4 as [?|(g & Hg & ?)]; [by left|right]. exists g. split; [by right|done].
  - intros Hn g Hg. destruct b; cbn in Hn; [|lia]. apply elem_of_cons in Hg as [->|Hg].
    + eapply reached_grow; eauto.
    + apply E5; [lia|done].
Qed.

(** ** A sweep as a whole *)
Lemma or_default_total {A} (def : A) m s :
  preserves on_config m → ∃ a s1, or_default def m s = (Ok a, s1) ∧ db s1 = db s.
Proof.
  intros Hm. destruct (try_same (in_config m) s) as (r & s1 & Ht & _ & Hd); [by apply in_config_P; [exact _|]|].
  unfold or_default. rewrite (bind_ok _ _ _ _ _ Ht). by eexists _, s1.
Qed.

Lemma scan_fixes_ok l fs :
  scan_fixes l = Ok fs →
  Forall2 (λ r f, sn_VehicleID r = Some (fix_VehicleID f) ∧ sn_Timestamp r = fix_Timestamp f) l fs.
Proof.
  revert fs. induction l as [|r l IH]; intros fs; cbn [scan_fixes].
  { intros [= <-]. constructor. }
  unfold scan_fix. destruct (sn_VehicleID r) as [v|] eqn:Hv, (sn_Latitude r), (sn_Longitude r), (sn_Speed r);
    cbn; try discriminate 1.
  destruct (scan_fixes l) as [fs'|] eqn:Hl; [|discriminate 1]. intros [= <-].
  constructor; [by split|by apply IH].
Qed.

Definition pending (d : DB) : list SnapshotRow := select_many (new_fix d) (telemetry_snapshots (ops d)).

Lemma new_rows_pending limit d r : r ∈ new_rows limit d → r ∈ pending d.
Proof.
  intros Hr. unfold new_rows in Hr. rewrite <- (order_by_in oldest_first).
  rewrite <- (firstn_skipn limit). apply elem_of_app. by left.
Qed.
Lemma new_rows_sorted limit d :
  StronglySorted (λ a b, sn_Timestamp a <= sn_Timestamp b) (new_rows limit d).
Proof.
  unfold new_rows. pose proof (order_by_sorted oldest_first sn_Timestamp
    (select_many (new_fix d) (telemetry_snapshots (ops d))) (λ _ _, eq_refl)) as Hs.
  rewrite <- (firstn_skipn limit) in Hs. revert Hs. generalize (take limit (order_by oldest_first
    (select_many (new_fix d) (telemetry_snapshots (ops d))))).
  intros l. induction l as [|x l IH]; cbn; intros Hs; [constructor|].
  apply StronglySorted_inv in Hs as [Hs Hx]. constructor; [by apply IH|].
  by apply Forall_app in Hx as [Hx _].
Qed.

Lemma pending_spec d r : r ∈ pending d ↔ r ∈ telemetry_snapshots (ops d) ∧ new_fix d r = true.
Proof.
  unfold pending, select_many. rewrite !list_elem_of_In, filter_In. done.
Qed.

Lemma fixes_of_rows d limit fs :
  scan_fixes (new_rows limit d) = Ok fs → by_time fs ∧ ahead d fs.
Proof.
  intros H%scan_fixes_ok. split.
  - pose proof (new_rows_sorted limit d) as Hs. revert Hs. induction H as [|r f l fs [_ Ht] Hl IH]; [constructor|].
    intros [Hs Hr]%StronglySorted_inv. constructor; [by apply IH|].
    apply Forall_forall. intros g Hg.
    apply list_elem_of_lookup in Hg as [j Hj]. destruct (Forall2_lookup_r _ _ _ _ _ Hl Hj) as (r' & Hj' & _ & Ht').
    apply list_elem_of_lookup_2 in Hj'. apply (proj1 (Forall_forall _ _) Hr) in Hj'. lia.
  - intros f Hf t Hm. apply list_elem_of_lookup in Hf as [j Hj].
    destruct (Forall2_lookup_r _ _ _ _ _ H Hj) as (r & Hr & Hv & Ht).
    apply list_elem_of_lookup_2, new_rows_pending, pending_spec in Hr as [_ Hr].
    unfold new_fix in Hr. rewrite Hv in Hr. unfold mark in Hm. rewrite Hm in Hr.
    rewrite !andb_true_iff in Hr. destruct Hr as [[Hr _] _]. apply Z.ltb_lt in Hr. lia.
Qed.

Lemma load_ok limit s fs s1 :
  in_world (LoadNewFixes limit) s = (Ok fs, s1) → db s1 = db s ∧ scan_fixes (new_rows limit (db s)) = Ok fs.
Proof.
  intros H. apply in_store_inv in H as (w & H & Hd). unfold LoadNewFixes in H. run_ok H.
  apply map_err_ok_inv, query_inv in Hrun as (Hq & _ & ->). injection H as H <-.
  rewrite Hd, Hq. by split.
Qed.

(** Everything a sweep does. *)
Lemma Tick_run s :
  engine_inv (db s) →
  ∃ r s', Tick s = (r, s') ∧ engine_inv (db s') ∧
    match r with
    | Ok n => ∃ fixes, scan_fixes (new_rows maxFixesPerSweep (db s)) = Ok fixes ∧
                       sweep_effect n fixes (db s) (db s')
    | Fail e => db s' = db s ∧ fst (in_world (LoadNewFixes maxFixesPerSweep) s) = Fail e
    end.
Proof.
  intros Hinv. unfold Tick. destruct (in_world (LoadNewFixes maxFixesPerSweep) s) as [[fixes|e] s1] eqn:Hl.
  - rewrite (bind_ok _ _ _ _ _ Hl). apply load_ok in Hl as [Hd1 Hf].
    destruct (or_default_total DefaultDwellDebounce
      (GetDurationSeconds (tenantID k) ConfigDwellDebounceSeconds DefaultDwellDebounce) s1)
      as (a & s2 & H2 & Hd2); [apply Get_P|].
    unfold mustDuration. rewrite (bind_ok _ _ _ _ _ H2). clear H2.
    destruct (or_default_total DefaultBufferMetres
      (GetFloat (tenantID k) ConfigBufferMetres DefaultBufferMetres) s2) as (b & s3 & H3 & Hd3); [apply Get_P|].
    unfold mustFloat. rewrite (bind_ok _ _ _ _ _ H3). clear H3.
    destruct (or_default_total DefaultHysteresisMetres
      (GetFloat (tenantID k) ConfigHysteresisMetres DefaultHysteresisMetres) s3)
      as (c & s4 & H4 & Hd4); [apply Get_P|].
    rewrite (bind_ok _ _ _ _ _ H4). clear H4.
    assert (Hd : db s4 = db s) by congruence. destruct (fixes_of_rows _ _ _ Hf) as [Hs Ha].
    destruct (sweep_run (mkEngineConfig a b c) fixes s4) as (n & s5 & H5 & Hi & He);
      [by rewrite Hd|done|by rewrite Hd|].
    exists (Ok n), s5. rewrite Hd in He. split; [done|]. split; [done|]. by exists fixes.
  - rewrite (bind_fail _ _ _ _ _ Hl). exists (Fail e), s1. split; [done|].
    assert (Hd : db s1 = db s).
    { pose proof (in_world_P eq _ (LoadNewFixes_same maxFixesPerSweep) s) as Hs. rewrite Hl in Hs. by symmetry. }
    by rewrite Hd.
Qed.

(** the engine's table stays well-formed under every sweep, whatever
    fails: one row per vehicle, each a row of the dwell machine.  A sweep
    never panics: it fails only when the fixes could not be loaded, and then
    changes nothing. *)
Theorem engine_invariant s :
  engine_inv (db s) →
  engine_inv (db (snd (Tick s))) ∧
  ∀ e, fst (Tick s) = Fail e →
    db (snd (Tick s)) = db s ∧ fst (in_world (LoadNewFixes maxFixesPerSweep) s) = Fail e.
Proof.
  intros Hinv. destruct (Tick_run s Hinv) as (r & s' & -> & Hi & Hr). split; [done|].
  cbn. by intros e ->.
Qed.

Lemma new_fix_grow d d' r : marks_grow d d' → new_fix d' r = true → new_fix d r = true.
Proof.
  intros Hg. unfold new_fix. rewrite !andb_true_iff. intros [[H1 ?] ?]. split; [|done]. split; [|done].
  destruct (sn_VehicleID r) as [v|]; [|done]. fold (mark d v). fold (mark d' v) in H1.
  destruct (mark d v) as [t|] eqn:Hm; [|done]. destruct (Hg _ _ Hm) as (t' & Hm' & ?). rewrite Hm' in H1.
  apply Z.ltb_lt in H1. apply Z.ltb_lt. lia.
Qed.

Lemma pending_again d d' :
  marks_grow d d' → telemetry_snapshots (ops d') = telemetry_snapshots (ops d) →
  pending d' = select_many (new_fix d') (pending d).
Proof.
  intros Hg Hs. unfold pending. rewrite Hs. clear Hs. unfold select_many.
  generalize (telemetry_snapshots (ops d)) as l. intros l. induction l as [|r l IH]; cbn; [done|].
  destruct (new_fix d r) eqn:Hr; cbn.
  - destruct (new_fix d' r); by rewrite IH.
  - destruct (new_fix d' r) eqn:Hr'; [|done]. apply (new_fix_grow d) in Hr'; [congruence|done].
Qed.

Lemma reached_not_new d r f :
  sn_VehicleID r = Some (fix_VehicleID f) → sn_Timestamp r = fix_Timestamp f →
  reached_mark d f → new_fix d r = false.
Proof.
  intros Hv Ht (t & Hm & Hle). unfold new_fix. rewrite Hv. unfold mark in Hm. rewrite Hm, Ht.
  by rewrite (proj2 (Z.ltb_ge _ _)).
Qed.

Lemma filter_shorter {A} (p : A → bool) l x :
  x ∈ l → p x = false → (List.length (select_many p l) < List.length l)%nat.
Proof.
  unfold select_many. intros Hx Hp. induction l as [|y l IH]; [by apply not_elem_of_nil in Hx|].
  pose proof (filter_length_le p l) as Hle. cbn. apply elem_of_cons in Hx as [<-|Hx].
  - rewrite Hp. lia.
  - specialize (IH Hx). destruct (p y); cbn; lia.
Qed.

Lemma tick_pending s n s' :
  engine_inv (db s) → Tick s = (Ok n, s') →
  engine_inv (db s') ∧ marks_grow (db s) (db s') ∧
  pending (db s') = select_many (new_fix (db s')) (pending (db s)) ∧
  (n ≠ 0%nat → (List.length (pending (db s')) < List.length (pending (db s)))%nat) ∧
  (n = List.length (pending (db s)) → (n <= maxFixesPerSweep)%nat → pending (db s') = []).
Proof.
  intros Hinv H. destruct (Tick_run s Hinv) as (r & s1 & Hr & Hi & He). rewrite Hr in H.
  injection H as -> ->. destruct He as (fixes & Hf & [E1 E2 E3 E4 E5]).
  pose proof (scan_fixes_ok _ _ Hf) as H2. pose proof (pending_again _ _ E3 E1) as Hp.
  assert (Hold : ∀ r f, r ∈ new_rows maxFixesPerSweep (db s) → reached_mark (db s') f →
    sn_VehicleID r = Some (fix_VehicleID f) → sn_Timestamp r = fix_Timestamp f →
    r ∈ pending (db s) ∧ new_fix (db s') r = false).
  { intros r f Hin Hm Hv Ht. split; [by eapply new_rows_pending|by eapply reached_not_new]. }
  split; [done|]. split; [done|]. split; [done|]. split.
  - intros Hn. destruct E4 as [?|(f & Hin & Hm)]; [done|]. apply list_elem_of_lookup in Hin as [j Hj].
    destruct (Forall2_lookup_r _ _ _ _ _ H2 Hj) as (r & Hrj & Hv & Ht). apply list_elem_of_lookup_2 in Hrj.
    destruct (Hold r f) as [Hin Hnew]; [done..|]. rewrite Hp. by eapply filter_shorter.
  - intros Hn Hcap. assert (Hall : new_rows maxFixesPerSweep (db s) ≡ₚ pending (db s)).
    { unfold new_rows. rewrite take_ge; [apply order_by_perm|].
      rewrite order_by_perm. fold (pending (db s)). lia. }
    assert (Hlen : n = List.length fixes).
    { rewrite <- (Forall2_length _ _ _ H2), Hall. exact Hn. }
    rewrite Hp.
    destruct (select_many (new_fix (db s')) (pending (db s))) as [|r l] eqn:El; [done|]. exfalso.
    assert (Hr0 : r ∈ select_many (new_fix (db s')) (pending (db s))) by (rewrite El; by left).
    unfold select_many in Hr0. apply list_elem_of_In, filter_In in Hr0 as [Hr0 Hnew].
    apply list_elem_of_In in Hr0. rewrite <- Hall in Hr0. apply list_elem_of_lookup in Hr0 as [j Hj].
    destruct (Forall2_lookup_l _ _ _ _ _ H2 Hj) as (f & Hfj & Hv & Ht).
    apply list_elem_of_lookup_2 in Hfj. rewrite (reached_not_new _ _ f) in Hnew; [done..|by apply E5].
Qed.

(** no fix is taken twice and no watermark goes back: after a sweep the
    fixes still to come are some of those that were, fewer if the sweep
    handled any, and none if it handled all that were. *)
Theorem sweep_progress s n s' :
  engine_inv (db s) → Tick s = (Ok n, s') →
  marks_grow (db s) (db s') ∧
  pending (db s') = select_many (new_fix (db s')) (pending (db s)) ∧
  (n ≠ 0%nat → (List.length (pending (db s')) < List.length (pending (db s)))%nat) ∧
  (n = List.length (pending (db s)) → (n <= maxFixesPerSweep)%nat → pending (db s') = []).
Proof. intros Hinv H. by apply tick_pending in H as [_ H]. Qed.

Fixpoint ticks (n : nat) (s : State_) : State_ :=
  match n with O => s | Datatypes.S n' => ticks n' (snd (Tick s)) end.

Lemma ticks_drain l s :
  engine_inv (db s) → (List.length (pending (db s)) <= l)%nat →
  (∀ m, (m < l)%nat → pending (db (ticks m s)) ≠ [] → ∃ n, fst (Tick (ticks m s)) = Ok (Datatypes.S n)) →
  ∃ m, (m <= l)%nat ∧ pending (db (ticks m s)) = [].
Proof.
  revert s. induction l as [|l IH]; intros s Hinv Hl Hprog.
  { exists 0%nat. split; [done|]. apply nil_length_inv. cbn. lia. }
  destruct (decide (pending (db s) = [])) as [He|Hne]; [exists 0%nat; split; [lia|done]|].
  destruct (Hprog 0%nat) as (n & Hn); [lia|done|]. cbn in Hn.
  assert (Ht : Tick s = (Ok (Datatypes.S n), snd (Tick s))) by (destruct (Tick s); cbn in *; congruence).
  apply tick_pending in Ht as (Hi & _ & _ & Hlt & _); [|done].
  destruct (IH (snd (Tick s))) as (m & Hm & Hp); [done|specialize (Hlt ltac:(done)); lia| |].
  - intros m Hm. apply (Hprog (Datatypes.S m)). lia.
  - exists (Datatypes.S m). split; [lia|done].
Qed.

(** C39: the backlog is worked off: as long as a sweep that finds new fixes
    handles at least one of them, sweeping ends with nothing left to do,
    within as many sweeps as there were fixes. *)
Theorem sweeps_drain s :
  engine_inv (db s) →
  (∀ m, (m < List.length (pending (db s)))%nat → pending (db (ticks m s)) ≠ [] →
     ∃ n, fst (Tick (ticks m s)) = Ok (Datatypes.S n)) →
  ∃ m, (m <= List.length (pending (db s)))%nat ∧ pending (db (ticks m s)) = [].
Proof. intros Hinv. by apply ticks_drain. Qed.
End Worker.

(** ** A day at the yard *)
(** Trip t1 calls at a pickup yard: it stays for about an hour, beyond the
    minute that is free, and drives on. *)
Definition pickup_yard : Geofence :=
  mkGeofence "z1" "acme" "Yard" KindPickup ShapeCircle (f64_of_Z 12) (f64_of_Z 77) (f64_of_Z 500) []
    "" 0 true None jan1 jan1.
Definition snap (id : string) (lat : Z) (t : Time) : SnapshotRow :=
  mkSnapshot id (Some "t1"%string) (Some "v1"%string) t (Some (f64_of_Z lat)) (Some (f64_of_Z 77))
    (Some f0) None None.
Definition yard_snaps : list SnapshotRow :=
  [snap "s3" 14 (jan1 + 4000 * second); snap "s1" 12 (jan1 + 10 * second);
   snap "s2" 12 (jan1 + 80 * second); snap "s4" 14 (jan1 + 4080 * second)].
Definition with_config (l : list ConfigRow) (d : DB) : DB :=
  let o := ops d in
  set_ops (mkOps (telemetry_devices o) (telemetry_raw_events o) (telemetry_positions o)
    (vehicle_latest_position o) (telemetry_snapshots o) (device_quarantine o) (geofences o)
    (vehicle_geofences o) (engine_state o) (geofence_events o) (trip_detentions o) l) d.
Definition yard_db (d : DB) : DB :=
  with_config [mkConfigRow "acme" ConfigDetentionRatePerHour "100";
                      mkConfigRow "acme" ConfigDetentionFreeSeconds "60";
                      mkConfigRow "acme" ConfigAutoReachPickup "true"]
    (set_telemetry_snapshots yard_snaps (set_geofences [pickup_yard] d)).
Definition demo_worker : DwellWorker (S := list GeofenceAlert) := mkWorker "acme" None true true.
Abbreviation yard_start := (set_w_db (yard_db (w_db TripSafety.started_w)) TripSafety.started_w,
  NewConfigReader, [] : list GeofenceAlert).
Abbreviation demo_tick s := (@Tick demo_env go_math (list GeofenceAlert) demo_worker s).

Abbreviation two_trips_start := (set_w_db (yard_db (w_db TripSafety.two_trips)) TripSafety.two_trips,
  NewConfigReader, [] : list GeofenceAlert).
Lemma two_trips_reachable : TripSafety.reachable (w_db TripSafety.two_trips).
Proof.
  unfold TripSafety.two_trips, TripSafety.demo_cmd. repeat apply TripSafety.reach_command.
  apply TripSafety.reach_empty. reflexivity.
Qed.
Lemma yard_trips (w : World) (r : ConfigReader) (l : list GeofenceAlert) :
  TripSafety.reachable (w_db w) → TripSafety.reachable (db (set_w_db (yard_db (w_db w)) w, r, l)).
Proof. intros H. by eapply TripSafety.reach_other. Qed.
Lemma two_trips_start_reachable : TripSafety.reachable (db two_trips_start).
Proof. exact (yard_trips _ _ _ two_trips_reachable). Qed.

Lemma sweep_trips_reachable_witness : TripSafety.reachable (db (snd (demo_tick two_trips_start))).
Proof.
  exact (@sweep_trips_reachable demo_env go_math _ demo_worker two_trips_start two_trips_start_reachable).
Defined.

Lemma no_rows_engine d : engine_state (ops d) = [] → engine_inv d.
Proof.
  intros He. unfold engine_inv. rewrite He. split; [apply NoDup_nil_2|]. intros x Hx.
  by apply not_elem_of_nil in Hx.
Qed.
Lemma yard_engine : engine_inv (db yard_start).
Proof. apply no_rows_engine. vm_compute. reflexivity. Qed.

Lemma engine_invariant_witness :
  engine_inv (db (snd (demo_tick yard_start))) ∧
  map State (engine_state (ops (db (snd (demo_tick yard_start))))) = [StateOutside].
Proof.
  split; [|vm_compute; reflexivity].
  exact (proj1 (@engine_invariant demo_env go_math _ demo_worker yard_start yard_engine)).
Defined.

Lemma sweep_progress_witness :
  pending (db (snd (demo_tick yard_start))) = [] ∧
  trip_detentions (ops (db (snd (demo_tick yard_start)))) ≠ [].
Proof.
  split; [|vm_compute; discriminate].
  apply (@sweep_progress demo_env go_math _ demo_worker yard_start 4 (snd (demo_tick yard_start)) yard_engine).
  - vm_compute. reflexivity.
  - vm_compute. reflexivity.
  - unfold maxFixesPerSweep. lia.
Defined.

Lemma yard_progress m :
  (m < List.length (pending (db yard_start)))%nat →
  pending (db (@ticks demo_env go_math _ demo_worker m yard_start)) ≠ [] →
  ∃ n, fst (demo_tick (@ticks demo_env go_math _ demo_worker m yard_start)) = Ok (Datatypes.S n).
Proof.
  assert (Hl : List.length (pending (db yard_start)) = 4%nat) by (vm_compute; reflexivity).
  rewrite Hl. intros Hm Hp. destruct m as [|[|[|[|m]]]].
  - exists 3%nat. vm_compute. reflexivity.
  - exfalso. apply Hp. vm_compute. reflexivity.
  - exfalso. apply Hp. vm_compute. reflexivity.
  - exfalso. apply Hp. vm_compute. reflexivity.
  - lia.
Qed.

Lemma sweeps_drain_witness :
  ∃ m, (m <= List.length (pending (db yard_start)))%nat ∧
       pending (db (@ticks demo_env go_math _ demo_worker m yard_start)) = [].
Proof. apply (@sweeps_drain demo_env go_math _ demo_worker yard_start yard_engine yard_progress). Defined.
End Worker.
