(* ===== verification/DetentionBilling.v ===== *)
(** * Detention windows from the gate to the invoice

    The operations of the geofence module together: sweeps of the dwell
    worker, which open and close the windows, the attachment of a window to
    the invoice of its trip, its waiver, and the administration of zones.
    Their histories keep the windows consistent and bill each at most once. *)
From stdpp Require Import base decidable list strings option gmap.
From Stdlib Require Import ZArith Lia String.
From S2P Require Import Prelude GoFloat Shared GoMath Geofence Events InvoiceAggregate Database.
From S2P Require Import Outbox Repository BookingRepository InvoiceRepository InvoiceUseCases GeofenceStore DwellWorker.
Open Scope Z_scope.

Module Billing.
Import Geo GeoStore DetentionApp ZoneApp Worker.

(** ** Invoices leave the operational tables alone *)
Section Invoices.
Context {env : Env}.

Ltac ops_stmt := apply stmt_on_db; [exact _|]; intros ? ?; cbn; by repeat case_match.
Lemma outbox_ops a b evs : preserves (on_db same_ops) (SaveEvents a b evs).
Proof.
  eapply preserves_weaken; [|apply SaveEvents_only]. intros w w' [rows Hd]. unfold on_db. by rewrite Hd.
Qed.
Lemma invoice_Save_ops a : preserves (on_db same_ops) (InvoiceRepo.Save a).
Proof.
  unfold InvoiceRepo.Save, InvoiceRepo.persistLineItems, InvoiceRepo.InvoiceExists.
  preserve_with ltac:(fun _ => first
    [ apply outbox_ops | apply on_db_of_eq; [exact _|]; apply query_same
    | unfold InvoiceRepo.updateInvoiceFull, InvoiceRepo.CreateInvoice, InvoiceRepo.insertInvoiceExtended,
        InvoiceRepo.deleteLineItems, InvoiceRepo.insertLineItem; ops_stmt ]).
Qed.
Lemma attach_inputs_ops refs ls a : preserves (on_db same_ops) (InvoiceApp.attach_inputs refs ls a).
Proof.
  revert a. induction ls as [|l ls IH]; intros a; cbn [InvoiceApp.attach_inputs].
  { apply preserves_ret, _. }
  destruct (InvoiceApp.has_ref _ _); [apply IH|].
  apply preserves_bind; [exact _| |intros id; apply IH].
  apply on_db_of_eq; [exact _|apply GenerateUUID_same].
Qed.
Lemma GenerateInTx_ops cmd : preserves (on_db same_ops) (InvoiceApp.GenerateInTx cmd).
Proof.
  unfold InvoiceApp.GenerateInTx, InvoiceApp.find_existing, InvoiceRepo.FindByTripID,
    InvoiceRepo.FindByBookingID, InvoiceRepo.findInvoiceBySQL, InvoiceRepo.loadLineItems,
    InvoiceApp.extend_existing, InvoiceApp.create_new, InvoiceApp.attachLineItems.
  preserve_with ltac:(fun _ => first
    [ apply invoice_Save_ops | apply attach_inputs_ops
    | apply on_db_of_eq; [exact _|];
      first [ apply query_same | apply query_row_same | apply GenerateUUID_same | apply Now_same
            | apply GenerateDisplayID_same | apply InvoiceApp.price_of_same ] ]).
Qed.
Lemma geofence_audit_ops a r : preserves (on_db same_ops) (logGeofenceAudit a r).
Proof.
  unfold logGeofenceAudit, CreateAuditLog.
  preserve_with ltac:(fun _ => first
    [ apply on_db_of_eq; [exact _|]; apply GenerateUUID_same | ops_stmt ]).
Qed.
End Invoices.

(** ** The windows *)
Definition windows (d : DB) : list Detention := trip_detentions (ops d).

Definition billable_of (dwell free : Z) : Z :=
  let b := wrap64 (dwell - free) in if b <? 0 then 0 else b.

(** What each status has set. *)
Definition stage_ok (x : Detention) : Prop :=
  (Status x = DetentionOpen ∧ ExitedAt x = None ∧ Amount x = f0) ∨
  ((Status x = DetentionClosed ∨ Status x = DetentionAttached) ∧ is_Some (ExitedAt x)) ∨
  (Status x = DetentionWaived ∧ Amount x = f0).
Record window_ok (x : Detention) : Prop := {
  dwell_nonneg : 0 <= DwellSeconds x;
  billable_is : BillableSeconds x = billable_of (DwellSeconds x) (FreeSeconds x);
  amount_nonneg : fltb (Amount x) f0 = false;
  stage : stage_ok x }.
Definition windows_inv (d : DB) : Prop :=
  NoDup (map d_ID (windows d)) ∧ ∀ x, x ∈ windows d → window_ok x.

(** A window that can be billed no more. *)
Definition resolved (tenant id : string) (d : DB) : Prop :=
  ∃ x, select_one (detention_key tenant id) (windows d) = Some x ∧
       (Status x = DetentionAttached ∨ Status x = DetentionWaived).
Definition billed (tenant id : string) (d : DB) : Prop := windows_inv d ∧ resolved tenant id d.

Lemma windows_update p f d :
  (∀ x, d_ID (f x) = d_ID x) → windows_inv d →
  (∀ x, x ∈ windows d → p x = true → window_ok (f x)) →
  windows_inv (set_trip_detentions (update_where p f (windows d)) d).
Proof.
  intros Hid [Hn Hw] Hf. split.
  - cbn. unfold windows at 1. cbn. rewrite map_update by done. exact Hn.
  - intros x Hx. apply elem_of_update in Hx as (y & Hy & ->). destruct (p y) eqn:Hp; auto.
Qed.

Lemma resolved_update tenant id p f d :
  (∀ x, p x = true → detention_key tenant id (f x) = detention_key tenant id x) →
  (∀ x, x ∈ windows d → p x = true → d_ID x = id →
        Status x = DetentionAttached ∨ Status x = DetentionWaived →
        Status (f x) = DetentionAttached ∨ Status (f x) = DetentionWaived) →
  resolved tenant id d → resolved tenant id (set_trip_detentions (update_where p f (windows d)) d).
Proof.
  intros Hk Hf (x & Hx & Hs). unfold resolved. cbn. unfold windows at 1. cbn.
  rewrite select_one_update by auto. fold (windows d). rewrite Hx. eexists. split; [reflexivity|].
  destruct (p x) eqn:Hp; [|done]. apply select_one_Some in Hx as [Hin Hkey].
  apply andb_true_iff in Hkey as [Hkey _]. apply String.eqb_eq in Hkey. by apply Hf.
Qed.

Lemma windows_ext d d' : trip_detentions (ops d') = trip_detentions (ops d) → windows_inv d → windows_inv d'.
Proof. unfold windows_inv, windows. by intros ->. Qed.
Lemma resolved_ext t id d d' :
  trip_detentions (ops d') = trip_detentions (ops d) → resolved t id d → resolved t id d'.
Proof. unfold resolved, windows. by intros ->. Qed.
Lemma billed_ext t id d d' :
  trip_detentions (ops d') = trip_detentions (ops d) → billed t id d → billed t id d'.
Proof. intros He [H1 H2]. split; [by eapply windows_ext|by eapply resolved_ext]. Qed.

(** ** The statements on the windows *)
Section Statements.
Context {env : Env} {gm : GoMath}.

Lemma open_keeps (J : DB → Prop) x :
  (∀ d d', trip_detentions (ops d') = trip_detentions (ops d) → J d → J d') →
  (∀ d, J d → exists_row (λ r, String.eqb (d_ID r) (d_ID x)) (windows d) = false →
        J (set_trip_detentions (windows d ++ [opened x]) d)) →
  preserves (on_db (keeps J)) (OpenDetention x).
Proof.
  intros He Hj. apply preserves_map_err, stmt_on_db; [exact _|]. intros now d.
  destruct (exists_row _ _) eqn:Hex; cbn; [done|]. intros Hd. by apply Hj.
Qed.
Lemma opened_ok x : window_ok (opened x).
Proof. split; [cbn; lia|done|done|by left]. Qed.

Lemma open_windows x : preserves (on_db (keeps windows_inv)) (OpenDetention x).
Proof.
  apply open_keeps; [exact windows_ext|]. intros d [Hn Hw] Hex. split.
  - cbn. unfold windows at 1. cbn. apply NoDup_map_snoc; [done|]. intros r Hr. cbn.
    rewrite exists_row_false in Hex. specialize (Hex r Hr). by apply String.eqb_neq in Hex.
  - intros y Hy. unfold windows at 1 in Hy. cbn in Hy. apply elem_of_app in Hy as [Hy|Hy]; [auto|].
    apply list_elem_of_singleton in Hy as ->. apply opened_ok.
Qed.
Lemma open_resolved t id x : preserves (on_db (keeps (resolved t id))) (OpenDetention x).
Proof.
  apply open_keeps; [intros d d2; apply resolved_ext|]. intros d (y & Hy & Hs) _. exists y. split; [|done].
  unfold windows at 1. cbn. by rewrite select_one_app, Hy.
Qed.

Lemma dwell_seconds_nonneg a b : 0 <= dwell_seconds a b.
Proof. unfold dwell_seconds. destruct (Z.ltb_spec (f64_to_int64 (Seconds (Sub b a))) 0); lia. Qed.
Lemma detention_amount_nonneg dw fr r : fltb (detention_amount dw fr r) f0 = false.
Proof.
  unfold detention_amount. set (a := Invoice.RoundMoney _). by destruct (fltb a f0) eqn:E.
Qed.

Lemma close_windows id entered exited free rate :
  let dwell := dwell_seconds entered exited in
  preserves (on_db (keeps windows_inv))
    (CloseDetention id exited dwell free rate (detention_amount dwell free rate)).
Proof.
  intros dwell. apply preserves_map_err, stmt_on_db; [exact _|]. intros now d Hd. cbn.
  apply windows_update; [done|exact Hd|]. intros x _ _. split; cbn.
  - apply dwell_seconds_nonneg.
  - done.
  - apply detention_amount_nonneg.
  - right. left. split; [by left|by eexists].
Qed.
Lemma close_resolved t id i e dw fr r a :
  preserves (on_db (keeps (resolved t id))) (CloseDetention i e dw fr r a).
Proof.
  apply preserves_map_err, stmt_on_db; [exact _|]. intros now d Hd. cbn.
  apply resolved_update; [done| |exact Hd]. intros x _ [_ Hs%String.eqb_eq]%andb_true_iff _ Hr.
  rewrite Hs in Hr. by destruct Hr.
Qed.

Lemma mark_ok i w w' :
  MarkAttached i w = (Ok tt, w') →
  w_db w' = set_trip_detentions
    (update_where (λ x, String.eqb (d_ID x) i) (GeoStore.with_status DetentionAttached) (windows (w_db w)))
    (w_db w).
Proof. intros H%map_err_ok_inv. apply stmt_inv in H as (_ & _ & _ & H). by injection H. Qed.
Lemma waive_ok i w w' :
  Waive i w = (Ok tt, w') →
  w_db w' = set_trip_detentions (update_where (λ x, String.eqb (d_ID x) i) waived (windows (w_db w)))
    (w_db w).
Proof. intros H%map_err_ok_inv. apply stmt_inv in H as (_ & _ & _ & H). by injection H. Qed.

Lemma same_id_same d x y : windows_inv d → x ∈ windows d → y ∈ windows d → d_ID x = d_ID y → x = y.
Proof. intros [Hn _] Hx Hy He. by eapply NoDup_map_inj. Qed.

Lemma find_detention_ok t i w x w' :
  FindDetention t i w = (Ok x, w') →
  w_db w' = w_db w ∧ ∃ r, select_one (detention_key t i) (windows (w_db w)) = Some r ∧
    x = with_name (zone_name (w_db w) (d_GeofenceID r)) r.
Proof.
  intros H%map_err_ok_inv. apply query_row_inv in H as (Hd & _ & H). split; [done|].
  fold (windows (w_db w)) in H. destruct (select_one _ _) as [r|]; [|discriminate H].
  exists r. split; [done|]. by injection H.
Qed.

(** ** Attaching and waiving *)
Inductive attached (t i : string) (w : World) (d' : DB) : Prop :=
| attached_intro x inv w1 w2 :
    select_one (detention_key t i) (windows (w_db w)) = Some x →
    Status x = DetentionClosed → fleb (Amount x) f0 = false →
    w_db w1 = w_db w →
    InvoiceApp.generated
      (detention_invoice t (with_name (zone_name (w_db w) (d_GeofenceID x)) x)) w1 w2 inv true →
    only_audit (set_trip_detentions
      (update_where (λ y, String.eqb (d_ID y) i) (GeoStore.with_status DetentionAttached)
         (windows (w_db w))) (w_db w2)) d' →
    attached t i w d'.

Lemma geofence_audit_only a r w w' u :
  logGeofenceAudit a r w = (u, w') → only_audit (w_db w) (w_db w').
Proof.
  intros H. assert (Hp : preserves (on_db only_audit) (logGeofenceAudit a r)).
  { unfold logGeofenceAudit, CreateAuditLog. preserve. apply stmt_on_db; [exact _|].
    intros now d. cbn. case_match; [reflexivity|]. by eexists. }
  specialize (Hp w). by rewrite H in Hp.
Qed.

Lemma AttachDetention_cases cmd w r w' :
  AttachDetention cmd w = (r, w') →
  match r with
  | Ok _ => attached (dc_TenantID cmd) (dc_DetentionID cmd) w (w_db w')
  | Fail _ => w_db w' = w_db w
  end.
Proof.
  intros H. apply UoWExecute_spec in H. destruct r as [[]|e]; [|done].
  destruct H as (w1 & H & Hd & _). run_ok H. apply find_detention_ok in Hrun as (Hd0 & x & Hx & ->).
  destruct (String.eqb _ _) eqn:Hs; [|discriminate H]. apply String.eqb_eq in Hs. cbn [negb] in H.
  destruct (fleb _ _) eqn:Ha; [discriminate H|]. cbn [negb] in H.
  run_ok H. destruct v as [inv att]. cbn [snd] in H. destruct att; [|discriminate H]. cbn [negb] in H.
  pose proof (GenerateInTx_ops (detention_invoice (dc_TenantID cmd)
    (with_name (zone_name (w_db (tick_stmts w)) (d_GeofenceID x)) x)) s) as Ho.
  rewrite Hrun in Ho. cbn [snd] in Ho. unfold on_db, same_ops in Ho.
  apply InvoiceApp.GenerateInTx_ok in Hrun. run_ok H. destruct v. apply mark_ok in Hrun0.
  apply geofence_audit_only in H.
  assert (Hi : d_ID x = dc_DetentionID cmd).
  { apply select_one_Some in Hx as [_ Hk]. apply andb_true_iff in Hk as [Hk _]. by apply String.eqb_eq in Hk. }
  rewrite Hrun0 in H. cbn [d_ID with_name] in H. rewrite Hi in H. unfold windows at 1 in H.
  rewrite Ho, Hd0 in H. change (w_db (tick_stmts w)) with (w_db w) in *. rewrite <- Hd in H.
  eapply attached_intro; [exact Hx|exact Hs|exact Ha| |exact Hrun|exact H]. by rewrite Hd0.
Qed.
End Statements.

(** ** Histories *)
Section History.
Context {env : Env} {gm : GoMath} {S : Type} (k : DwellWorker (S := S)).

Inductive geo_op :=
| OpTick
| OpAttach (cmd : DetentionCommand) | OpWaive (cmd : DetentionCommand)
| OpCreateZone (cmd : CreateZoneCommand) | OpUpdateZone (cmd : UpdateZoneCommand)
| OpDeleteZone (tenant id : string).

Definition run_geo (o : geo_op) : SM (World * Config.ConfigReader * S) unit :=
  match o with
  | OpTick => SM_ignore (Tick k)
  | OpAttach cmd => SM_ignore (in_world (AttachDetention cmd))
  | OpWaive cmd => SM_ignore (in_world (WaiveDetention cmd))
  | OpCreateZone cmd => SM_ignore (in_world (CreateZone cmd))
  | OpUpdateZone cmd => SM_ignore (in_world (UpdateZone cmd))
  | OpDeleteZone t id => SM_ignore (in_world (SoftDeleteZone t id))
  end.

Lemma attach_windows cmd w :
  windows_inv (w_db w) → windows_inv (w_db (snd (AttachDetention cmd w))) ∧
  ∀ t i, resolved t i (w_db w) → resolved t i (w_db (snd (AttachDetention cmd w))).
Proof.
  intros Hw. destruct (AttachDetention cmd w) as [r w'] eqn:H. apply AttachDetention_cases in H. cbn [snd].
  destruct r as [[]|e]; [|by rewrite H]. destruct H as [x inv w1 w2 Hx Hs Ha _ _ [rows ->]].
  set (i := dc_DetentionID cmd) in *.
  assert (Hi : x ∈ windows (w_db w) ∧ d_ID x = i).
  { apply select_one_Some in Hx as [Hin Hk]. apply andb_true_iff in Hk as [Hk _].
    split; [done|]. by apply String.eqb_eq in Hk. }
  split.
  - apply (windows_ext (set_trip_detentions (update_where (λ y, String.eqb (d_ID y) i)
      (GeoStore.with_status DetentionAttached) (windows (w_db w))) (w_db w))); [done|].
    apply windows_update; [done|done|]. intros y Hy Hyi%String.eqb_eq.
    assert (y = x) as ->.
    { destruct Hi as [Hin Hxi]. apply (same_id_same (w_db w)); [done..|congruence]. }
    destruct Hw as [_ Hw]. destruct (Hw x Hy) as [W1 W2 W3 W4]. split; [done..|].
    right. left. split; [by right|]. destruct W4 as [(W4 & _)|[[_ W4]|(W4 & _)]]; [|done|]; by rewrite Hs in W4.
  - intros t j Hr. apply (resolved_ext t j (set_trip_detentions (update_where (λ y, String.eqb (d_ID y) i)
      (GeoStore.with_status DetentionAttached) (windows (w_db w))) (w_db w))); [done|].
    apply resolved_update; [done| |done]. intros y _ _ _ _. by left.
Qed.

Lemma waive_windows cmd w :
  windows_inv (w_db w) → windows_inv (w_db (snd (WaiveDetention cmd w))) ∧
  ∀ t i, resolved t i (w_db w) → resolved t i (w_db (snd (WaiveDetention cmd w))).
Proof.
  intros Hw. destruct (WaiveDetention cmd w) as [r w'] eqn:H. apply UoWExecute_spec in H. cbn [snd].
  destruct r as [[]|e]; [|by rewrite H]. destruct H as (w1 & H & Hd & _).
  run_ok H. apply find_detention_ok in Hrun as (Hd0 & x & Hx & ->). destruct (_ || _); [discriminate H|].
  run_ok H. destruct v. apply waive_ok in Hrun. apply geofence_audit_only in H as [rows H].
  change (w_db (tick_stmts w)) with (w_db w) in *. rewrite Hd0 in Hrun.
  assert (He : trip_detentions (ops (w_db w')) =
    update_where (λ y, String.eqb (d_ID y) (d_ID x)) waived (windows (w_db w))) by (by rewrite Hd, H, Hrun).
  split.
  - apply (windows_ext (set_trip_detentions (update_where (λ y, String.eqb (d_ID y) (d_ID x)) waived
      (windows (w_db w))) (w_db w))); [done|].
    apply windows_update; [done|done|]. intros y Hy _. destruct Hw as [_ Hw].
    destruct (Hw y Hy) as [W1 W2 W3 W4]. split; [done..|]. right. by right.
  - intros t j Hr. apply (resolved_ext t j (set_trip_detentions (update_where
      (λ y, String.eqb (d_ID y) (d_ID x)) waived (windows (w_db w))) (w_db w))); [done|].
    apply resolved_update; [done| |done]. intros y _ _ _ _. by right.
Qed.

(** Zones are administered in a table of their own. *)
Definition same_windows (d d' : DB) : Prop := trip_detentions (ops d') = trip_detentions (ops d).
#[local] Instance same_windows_preorder : PreOrder same_windows.
Proof. split; [done|]. intros d1 d2 d3 H1 H2. unfold same_windows in *. congruence. Qed.
Ltac zone_leaf u :=
  first
    [ apply on_db_of_eq; [exact _|]; first [ apply GenerateUUID_same | apply query_row_same ]
    | apply UoWExecute_on_db; [exact _|]; preserve_with zone_leaf
    | apply stmt_on_db; [exact _|]; intros ? ?; cbn; by repeat case_match ].
Ltac zone_uc := preserve_with zone_leaf.
Lemma zones_windows o w :
  match o with
  | OpCreateZone cmd => same_windows (w_db w) (w_db (snd (CreateZone cmd w)))
  | OpUpdateZone cmd => same_windows (w_db w) (w_db (snd (UpdateZone cmd w)))
  | OpDeleteZone t id => same_windows (w_db w) (w_db (snd (SoftDeleteZone t id w)))
  | _ => True
  end.
Proof.
  destruct o as [|c|c|cmd|cmd|t id]; try exact I.
  - cut (preserves (on_db same_windows) (CreateZone cmd)); [intros H; apply H|].
    unfold CreateZone, Create. zone_uc.
  - cut (preserves (on_db same_windows) (UpdateZone cmd)); [intros H; apply H|].
    unfold UpdateZone, Update, FindZone. zone_uc.
  - cut (preserves (on_db same_windows) (SoftDeleteZone t id)); [intros H; apply H|].
    unfold SoftDeleteZone, SoftDelete. zone_uc.
Qed.

Lemma tick_keeps (J : DB → Prop) s :
  (∀ d d', trip_detentions (ops d') = trip_detentions (ops d) → J d → J d') →
  (∀ x, preserves (on_db (keeps J)) (OpenDetention x)) →
  (∀ id entered exited free rate, let dwell := dwell_seconds entered exited in
     preserves (on_db (keeps J)) (CloseDetention id exited dwell free rate (detention_amount dwell free rate))) →
  J (db s) → J (db (snd (Tick k s))).
Proof.
  intros He Ho Hc. apply (Tick_P k (keeps J)).
  1-3: intros ? d Hd; apply (He d); [reflexivity|exact Hd].
  - exact Ho.
  - exact Hc.
  - intros id t. apply of_ops; [exact _| |apply ReachPickup_ops].
    intros d d' Hd Hj. apply (He d); [by rewrite Hd|exact Hj].
  - intros id t. apply of_ops; [exact _| |apply StartTransit_ops].
    intros d d' Hd Hj. apply (He d); [by rewrite Hd|exact Hj].
Qed.

Lemma run_geo_windows o s :
  windows_inv (db s) → windows_inv (db (snd (run_geo o s))) ∧
  ∀ t i, resolved t i (db s) → resolved t i (db (snd (run_geo o s))).
Proof.
  intros Hw. assert (Hin : ∀ A (m : M A), db (snd (SM_ignore (in_world m) s)) = w_db (snd (m (world s)))).
  { intros A m. unfold SM_ignore, in_world, in_config, Config.on_world, db, world. cbn.
    by destruct (m (fst (fst s))). }
  pose proof (zones_windows o (world s)) as Hz.
  destruct o as [|cmd|cmd|cmd|cmd|t id]; cbn [run_geo]; rewrite ?Hin.
  - change (snd (SM_ignore (Tick k) s)) with (snd (Tick k s)). split.
    + apply tick_keeps; [exact windows_ext|apply open_windows|apply close_windows|exact Hw].
    + intros t i. apply tick_keeps; [by intros d d2; apply resolved_ext|apply open_resolved|].
      intros; apply close_resolved.
  - by apply attach_windows.
  - by apply waive_windows.
  - split; [by eapply windows_ext|]. intros u i. by eapply resolved_ext.
  - split; [by eapply windows_ext|]. intros u i. by eapply resolved_ext.
  - split; [by eapply windows_ext|]. intros u i. by eapply resolved_ext.
Qed.

Lemma tick_windows s : windows_inv (db s) → windows_inv (db (snd (Tick k s))).
Proof. intros Hw. exact (proj1 (run_geo_windows OpTick s Hw)). Qed.

Lemma history_windows os s :
  windows_inv (db s) → windows_inv (db (snd (SM_iter run_geo os s))) ∧
  ∀ t i, resolved t i (db s) → resolved t i (db (snd (SM_iter run_geo os s))).
Proof.
  intros Hw.
  cut (preserves (on_tables (λ d d', windows_inv d → windows_inv d' ∧ ∀ t i, resolved t i d → resolved t i d'))
         (SM_iter run_geo os)).
  { intros H. by apply H. }
  apply preserves_iter.
  - split; [by intros x; split|]. intros x y z H1 H2 Hx. destruct (H1 Hx) as [Hy Hxy].
    destruct (H2 Hy) as [Hz Hyz]. split; auto.
  - intros o s0 Hi. by apply run_geo_windows.
Qed.

(** however sweeps, attachments, waivers and changes of the zones are
    mixed, whatever fails: every window has one id, a dwell time that is not
    negative, the billable part its dwell and free times give, an amount
    that is not negative, and exactly the fields its stage needs. *)
Theorem windows_invariant os s :
  windows_inv (db s) → windows_inv (db (snd (SM_iter run_geo os s))).
Proof. intros Hw. by apply history_windows. Qed.

(** C38: a window is billed at most once: after it has been attached to an
    invoice, and whatever happens then, attaching it again fails and changes
    nothing. *)
Theorem billed_once cmd s s1 os s2 :
  windows_inv (db s) → in_world (AttachDetention cmd) s = (Ok tt, s1) →
  s2 = snd (SM_iter run_geo os s1) →
  ∃ e s3, in_world (AttachDetention cmd) s2 = (Fail e, s3) ∧ db s3 = db s2.
Proof.
  intros Hw H1 ->. apply in_store_inv in H1 as (w1 & H1 & Hd1).
  pose proof (attach_windows cmd (world s) Hw) as [Hw1 _]. rewrite H1 in Hw1. cbn [snd] in Hw1.
  apply AttachDetention_cases in H1. destruct H1 as [x inv wa wb Hx Hs _ _ _ [rows Ht]].
  assert (Hr : resolved (dc_TenantID cmd) (dc_DetentionID cmd) (db s1)).
  { rewrite Hd1, Ht. unfold resolved. cbn. unfold windows at 1. cbn. fold (windows (w_db (world s))).
    rewrite select_one_update by done. rewrite Hx. eexists. split; [reflexivity|].
    apply select_one_Some in Hx as [_ Hk]. apply andb_true_iff in Hk as [Hk _]. rewrite Hk. by left. }
  rewrite <- Hd1 in Hw1. destruct (history_windows os s1 Hw1) as [_ Hr2].
  specialize (Hr2 _ _ Hr). set (s2 := snd (SM_iter run_geo os s1)) in *.
  destruct (in_world (AttachDetention cmd) s2) as [r s3] eqn:H2.
  apply in_store_inv in H2 as (w3 & H2 & Hd3). apply AttachDetention_cases in H2.
  destruct r as [[]|e]; [|exists e, s3; split; [done|by rewrite Hd3]]. exfalso.
  destruct H2 as [y inv2 wc wd Hy Hsy _ _ _ _]. destruct Hr2 as (z & Hz & Hsz).
  unfold db in Hz. rewrite Hy in Hz. injection Hz as <-. rewrite Hsy in Hsz. by destruct Hsz.
Qed.
End History.

(** ** The bill of the day at the yard *)
Abbreviation yard_swept := (snd (demo_tick yard_start)).
Definition yard_cmd : DetentionCommand :=
  mkDetentionCommand (default ""%string (d_ID <$> head (windows (db yard_swept)))) "acme".
Abbreviation demo_attach s := (@in_world (list GeofenceAlert) _ (@AttachDetention demo_env yard_cmd) s).
Abbreviation demo_history := (@run_geo demo_env go_math (list GeofenceAlert) demo_worker).

Lemma no_rows_windows d : windows d = [] → windows_inv d.
Proof.
  intros He. unfold windows_inv. rewrite He. split; [apply NoDup_nil_2|]. intros x Hx.
  by apply not_elem_of_nil in Hx.
Qed.
Lemma yard_windows : windows_inv (db yard_start).
Proof. apply no_rows_windows. vm_compute. reflexivity. Qed.

Lemma windows_invariant_witness :
  let s := snd (SM_iter demo_history [OpTick; OpAttach yard_cmd; OpWaive yard_cmd] yard_start) in
  windows_inv (db s) ∧ map Status (windows (db s)) = [DetentionWaived].
Proof.
  intros s. split; [|vm_compute; reflexivity].
  exact (@windows_invariant demo_env go_math _ demo_worker
    [OpTick; OpAttach yard_cmd; OpWaive yard_cmd] yard_start yard_windows).
Defined.

Abbreviation yard_billed := (snd (demo_attach yard_swept)).
Abbreviation yard_later := (snd (SM_iter demo_history [OpTick; OpWaive yard_cmd; OpTick] yard_billed)).
Lemma yard_attached : in_world (@AttachDetention demo_env yard_cmd) yard_swept = (Ok tt, yard_billed).
Proof. vm_compute. reflexivity. Qed.
Lemma swept_windows : windows_inv (db yard_swept).
Proof. exact (@tick_windows demo_env go_math _ demo_worker yard_start yard_windows). Qed.

Lemma billed_once_witness :
  map Status (windows (db yard_billed)) = [DetentionAttached] ∧
  ∃ e s3, in_world (@AttachDetention demo_env yard_cmd) yard_later = (Fail e, s3) ∧ db s3 = db yard_later.
Proof.
  split; [vm_compute; reflexivity|].
  exact (@billed_once demo_env go_math _ demo_worker yard_cmd yard_swept yard_billed
    [OpTick; OpWaive yard_cmd; OpTick] yard_later swept_windows yard_attached eq_refl).
Defined.
End Billing.
