(* ===== verification/RateLimit.v ===== *)
(** * Rate limiting and the in-process cache

    [internal/middleware/ratelimit.go]: the sharded per-address limiter and
    its variant over cache counters; [internal/cache/cache.go]: the in-process
    cache with its lifetimes, counters and janitor.  Both forget lazily, so
    what is proved of them is that forgetting cannot be observed.  The Redis
    driver is a remote service and is not modelled. *)
From stdpp Require Import base decidable list strings option gmap.
From Stdlib Require Import ZArith Lia Sorting.Sorted.
From S2P Require Import Prelude GoFloat GoCrypto Shared GoMath Geofence.
Open Scope Z_scope.

(** ** What a clock reading still sees

    [live exp t o]: the entry [o] of a map, unless it has expired by [t]. *)
Section Live.
Context {V : Type} (exp : V → Time).

(** [now.After(v.expiresAt)]. *)
Definition expired (v : V) (now : Time) : bool := exp v <? now.
Definition live (now : Time) (o : option V) : option V :=
  match o with
  | Some v => if expired v now then None else Some v
  | None => None
  end.

Lemma live_idle t o : live t (live t o) = live t o.
Proof. destruct o as [v|]; [|done]. cbn. destruct (expired v t) eqn:He; [done|]. cbn. by rewrite He. Qed.
Lemma live_later t t' o : t <= t' → live t' (live t o) = live t' o.
Proof.
  intros Ht. destruct o as [v|]; [|done]. cbn. destruct (expired v t) eqn:He; [|done]. cbn.
  unfold expired in *. apply Z.ltb_lt in He. by rewrite (proj2 (Z.ltb_lt _ _)) by lia.
Qed.
Lemma live_agree t t' o o' : t <= t' → live t o = live t o' → live t' o = live t' o'.
Proof. intros Ht Ho. rewrite <- (live_later t t' o), <- (live_later t t' o') by done. by rewrite Ho. Qed.
Lemma live_some t o v : live t o = Some v → o = Some v ∧ t <= exp v.
Proof.
  destruct o as [v'|]; [|done]. cbn. unfold expired. destruct (Z.ltb_spec (exp v') t); [done|].
  by intros [= ->].
Qed.
End Live.

(** The readings of one clock. *)
Abbreviation in_order := (StronglySorted Z.le).

(** ** The in-process cache (cache.go) *)
Module Cache.
(** [expiresAt] is never the zero time: [Set] and [Increment] replace a
    lifetime that is not positive by the default, which is positive. *)
Record entry := mkEntry { value : string; e_expiresAt : Time }.
Record counter := mkCounter { n : Z; c_expiresAt : Time }.
Record memoryCache := mkCache {
  items : gmap string entry; counters : gmap string counter; defaultTTL : Z }.

Definition newMemoryCache (defaultTTL : Z) : memoryCache :=
  mkCache ∅ ∅ (if defaultTTL <=? 0 then 5 * Dwell.minute else defaultTTL).

Definition Get (now : Time) (key : string) (m : memoryCache) : option string :=
  match items m !! key with
  | Some e => if expired e_expiresAt e now then None else Some (value e)
  | None => None
  end.

Definition ttl_or_default (m : memoryCache) (ttl : Z) : Z :=
  if ttl <=? 0 then defaultTTL m else ttl.
Definition Set_ (now : Time) (key v : string) (ttl : Z) (m : memoryCache) : memoryCache :=
  mkCache (<[key := mkEntry v (now + ttl_or_default m ttl)]> (items m)) (counters m) (defaultTTL m).
Definition Delete (key : string) (m : memoryCache) : memoryCache :=
  mkCache (delete key (items m)) (counters m) (defaultTTL m).
(** The counters survive. *)
Definition Close (m : memoryCache) : memoryCache := mkCache ∅ (counters m) (defaultTTL m).

Definition Increment (now : Time) (key : string) (ttl : Z) (m : memoryCache) : Z * memoryCache :=
  let fresh := mkCounter 1 (now + ttl_or_default m ttl) in
  let put c := mkCache (items m) (<[key := c]> (counters m)) (defaultTTL m) in
  match counters m !! key with
  | Some c =>
      if expired c_expiresAt c now then (1, put fresh)
      else let c' := mkCounter (wrap64 (n c + 1)) (c_expiresAt c) in (n c', put c')
  | None => (1, put fresh)
  end.

(** One round of the janitor. *)
Definition sweep (now : Time) (m : memoryCache) : memoryCache :=
  mkCache (filter (λ kv, expired e_expiresAt (snd kv) now = false) (items m))
    (filter (λ kv, expired c_expiresAt (snd kv) now = false) (counters m)) (defaultTTL m).

(** ** Histories *)
Inductive op :=
| OpGet (key : string) | OpSet (key v : string) (ttl : Z) | OpDelete (key : string)
| OpIncrement (key : string) (ttl : Z) | OpClose | OpJanitor.
Inductive answer := Value (v : option string) | Count (z : Z) | Done.
#[export] Instance op_eq_dec : EqDecision op.
Proof. solve_decision. Defined.

Definition apply (now : Time) (o : op) (m : memoryCache) : answer * memoryCache :=
  match o with
  | OpGet key => (Value (Get now key m), m)
  | OpSet key v ttl => (Done, Set_ now key v ttl m)
  | OpDelete key => (Done, Delete key m)
  | OpIncrement key ttl => let '(z, m') := Increment now key ttl m in (Count z, m')
  | OpClose => (Done, Close m)
  | OpJanitor => (Done, sweep now m)
  end.
(** What the callers are answered; the janitor answers nobody. *)
Fixpoint answers (h : list (Time * op)) (m : memoryCache) : list answer :=
  match h with
  | [] => []
  | (now, OpJanitor) :: h' => answers h' (sweep now m)
  | (now, o) :: h' => let '(a, m') := apply now o m in a :: answers h' m'
  end.
Definition by_callers (h : list (Time * op)) : list (Time * op) :=
  filter (λ x, snd x ≠ OpJanitor) h.

(** Two caches no reading from [t] on tells apart. *)
Record agree (t : Time) (m m' : memoryCache) : Prop := {
  agree_items : ∀ k, live e_expiresAt t (items m !! k) = live e_expiresAt t (items m' !! k);
  agree_counters : ∀ k, live c_expiresAt t (counters m !! k) = live c_expiresAt t (counters m' !! k);
  agree_ttl : defaultTTL m = defaultTTL m' }.

Lemma agree_later t t' m m' : t <= t' → agree t m m' → agree t' m m'.
Proof. intros Ht [H1 H2 H3]. split; intros; eauto using live_agree. Qed.

Lemma live_sweep {V} (ex : V → Time) (l : gmap string V) t k :
  live ex t (filter (λ kv, expired ex (snd kv) t = false) l !! k) = live ex t (l !! k).
Proof.
  destruct (l !! k) as [v|] eqn:Hk.
  - destruct (expired ex v t) eqn:He.
    + rewrite map_lookup_filter_None_2; [cbn; by rewrite He|]. right. intros x Hx. rewrite Hk in Hx.
      injection Hx as <-. cbn. by rewrite He.
    + by rewrite (map_lookup_filter_Some_2 _ _ _ v).
  - by rewrite map_lookup_filter_None_2; [|left].
Qed.
Lemma sweep_agree t m m' : agree t m m' → agree t (sweep t m) m'.
Proof.
  intros [H1 H2 H3]. split; [|intros k; cbn; rewrite live_sweep..|done]; [|apply H2].
  intros k; cbn; rewrite live_sweep. apply H1.
Qed.

Lemma live_insert {V} (ex : V → Time) t (l l' : gmap string V) k v :
  (∀ j, live ex t (l !! j) = live ex t (l' !! j)) →
  ∀ j, live ex t (<[k := v]> l !! j) = live ex t (<[k := v]> l' !! j).
Proof.
  intros H j. destruct (decide (k = j)) as [->|Hne]; [by rewrite !lookup_insert_eq|].
  rewrite !lookup_insert_ne by done. apply H.
Qed.
Lemma live_delete {V} (ex : V → Time) t (l l' : gmap string V) k :
  (∀ j, live ex t (l !! j) = live ex t (l' !! j)) →
  ∀ j, live ex t (delete k l !! j) = live ex t (delete k l' !! j).
Proof.
  intros H j. destruct (decide (k = j)) as [->|Hne]; [by rewrite !lookup_delete_eq|].
  rewrite !lookup_delete_ne by done. apply H.
Qed.

(** The two lookups of a key, seen through [live]. *)
Lemma get_live t k m : Get t k m = value <$> live e_expiresAt t (items m !! k).
Proof. unfold Get. destruct (items m !! k) as [e|]; [|done]. cbn. by destruct (expired _ e t). Qed.
Definition counted (t : Time) (ttl : Z) (o : option counter) : counter :=
  match o with
  | Some c => mkCounter (wrap64 (n c + 1)) (c_expiresAt c)
  | None => mkCounter 1 (t + ttl)
  end.
Lemma increment_live t k ttl m :
  let c := counted t (ttl_or_default m ttl) (live c_expiresAt t (counters m !! k)) in
  Increment t k ttl m = (n c, mkCache (items m) (<[k := c]> (counters m)) (defaultTTL m)).
Proof. unfold Increment. destruct (counters m !! k) as [c|]; [|done]. cbn. by destruct (expired _ c t). Qed.

Lemma apply_agree t o m m' :
  agree t m m' →
  fst (apply t o m) = fst (apply t o m') ∧ agree t (snd (apply t o m)) (snd (apply t o m')).
Proof.
  intros [H1 H2 H3].
  assert (Ht : ∀ ttl, ttl_or_default m ttl = ttl_or_default m' ttl) by (intros; unfold ttl_or_default; by rewrite H3).
  destruct o as [k|k v ttl|k|k ttl| |]; cbn [apply].
  - split; [|by split]. cbn. by rewrite !get_live, H1.
  - split; [done|]. split; cbn; [|done..]. unfold Set_. rewrite Ht. by apply live_insert.
  - split; [done|]. split; cbn; [by apply live_delete|done..].
  - rewrite !increment_live. rewrite Ht, H2. split; [done|]. split; cbn; [done|by apply live_insert|done].
  - split; [done|]. by split.
  - split; [done|]. apply sweep_agree. pose proof (sweep_agree t m' m) as Hs.
    destruct Hs as [G1 G2 G3]; [by split|]. by split.
Qed.

Lemma answers_agree h t m m' :
  in_order (t :: map fst h) → agree t m m' → answers h m = answers (by_callers h) m'.
Proof.
  revert t m m'. induction h as [|[t' o] h IH]; intros t m m' Ho Ha; [done|].
  apply StronglySorted_inv in Ho as [Ho Ht]. inversion Ht; subst.
  apply (agree_later t t') in Ha; [|done]. destruct (decide (o = OpJanitor)) as [->|Hne].
  - cbn [answers]. unfold by_callers. rewrite filter_cons_False by (intros []; done).
    apply (IH t'); [done|]. by apply sweep_agree.
  - unfold by_callers. rewrite filter_cons_True by done. fold (by_callers h).
    destruct (apply_agree t' o m m' Ha) as [He Hs].
    assert (Hc : ∀ l c, answers ((t', o) :: l) c = fst (apply t' o c) :: answers l (snd (apply t' o c))).
    { intros l c. cbn [answers]. destruct o; try done; by destruct (apply _ _ c). }
    rewrite !Hc, He. f_equal. by apply (IH t').
Qed.

(** the janitor cannot be observed: whatever values and counters are
    written, read, deleted and incremented, with whatever lifetimes, dropping
    the rounds of the janitor changes no answer, as long as the clock does
    not go back. *)
Theorem janitor_invisible h ttl :
  in_order (map fst h) →
  answers h (newMemoryCache ttl) = answers (by_callers h) (newMemoryCache ttl).
Proof.
  intros Ho. destruct h as [|[t o] h]; [done|]. apply (answers_agree _ t).
  - constructor; [done|]. apply StronglySorted_inv in Ho as [_ Ht]. constructor; [done|exact Ht].
  - by split.
Qed.
Lemma janitor_invisible_witness :
  let h := [(0, OpSet "k" "v" Dwell.second); (Dwell.second, OpGet "k");
            (Dwell.minute, OpJanitor); (Dwell.minute, OpGet "k")]%string in
  answers h (newMemoryCache 0) = [Done; Value (Some "v"%string); Value None] ∧
  answers h (newMemoryCache 0) = answers (by_callers h) (newMemoryCache 0).
Proof.
  intros h. split; [vm_compute; reflexivity|]. apply (janitor_invisible h 0).
  repeat constructor; vm_compute; discriminate.
Defined.
End Cache.

(** ** The limiter (ratelimit.go) *)
Module Limiter.
Record ipBucket := mkBucket { count : Z; resetAt : Time; lastSeen : Time }.
Abbreviation shard := (gmap string ipBucket).
Record rateLimiter := mkLimiter { shards : list shard; limit : Z; window : Z }.

Definition rateLimiterShards : nat := 16.
Definition newRateLimiter (lim win : Z) : rateLimiter :=
  mkLimiter (replicate rateLimiterShards ∅) (if lim <=? 0 then 10 else lim)
    (if win <=? 0 then Dwell.minute else win).

(** [fnv.New32a]. *)
Definition fnv32a (s : string) : Z :=
  foldl (λ h b, (Z.lxor h b * 16777619) mod 2 ^ 32) 2166136261 (bytes s).
Definition shardFor (ip : string) : nat := Z.to_nat (fnv32a ip mod Z.of_nat rateLimiterShards).

Definition sweep (now : Time) (win : Z) (sh : shard) : shard :=
  filter (λ kv, (Geo.Sub now (lastSeen (snd kv)) <=? win) = true) sh.

Definition allow_in (ip : string) (now : Time) (lim win : Z) (sh : shard) : bool * shard :=
  let sh := sweep now win sh in
  let fresh := (true, <[ip := mkBucket 1 (now + win) now]> sh) in
  match sh !! ip with
  | None => fresh
  | Some b =>
      if expired resetAt b now then fresh
      else if lim <=? count b then (false, <[ip := mkBucket (count b) (resetAt b) now]> sh)
      else (true, <[ip := mkBucket (count b + 1) (resetAt b) now]> sh)
  end.
Definition allow (ip : string) (now : Time) (rl : rateLimiter) : bool * rateLimiter :=
  let i := shardFor ip in
  match shards rl !! i with
  | Some sh =>
      let '(b, sh') := allow_in ip now (limit rl) (window rl) sh in
      (b, mkLimiter (<[i := sh']> (shards rl)) (limit rl) (window rl))
  | None => (true, rl)
  end.

(** [RateLimitDistributed] over a counter: allowed up to [limit]. *)
Definition distributed (ip : string) (now : Time) (lim : Z) (c : Cache.memoryCache) : bool * Cache.memoryCache :=
  let '(n, c') := Cache.Increment now ("ratelimit:" +:+ ip) Dwell.minute c in (n <=? lim, c').

(** ** What a limiter promises

    A window opens with the first request after the last one ended; of the
    requests of a window the first [lim] pass. *)
Abbreviation frame := (Time * Z)%type.
Definition spec_step (now : Time) (lim win : Z) (o : option frame) : bool * frame :=
  match live fst now o with
  | Some (ends, hits) => (hits + 1 <=? lim, (ends, hits + 1))
  | None => (1 <=? lim, (now + win, 1))
  end.
Definition spec := string → option frame.
Definition spec_allow (lim win : Z) (ip : string) (now : Time) (σ : spec) : bool * spec :=
  let '(b, f) := spec_step now lim win (σ ip) in
  (b, λ j, if String.eqb j ip then Some f else σ j).

(** The answers to a history of requests. *)
Section Serve.
Context {S : Type} (step : string → Time → S → bool * S).
Fixpoint serve (h : list (string * Time)) (s : S) : list bool :=
  match h with
  | [] => []
  | (ip, now) :: h' => let '(b, s') := step ip now s in b :: serve h' s'
  end.
End Serve.

(** A relation kept by every step, given the hour, relates the answers. *)
Lemma serve_related {S S'} (R : Time → S → S' → Prop) step step' h t s s' :
  (∀ t t' s s', t <= t' → R t s s' → R t' s s') →
  (∀ ip t s s', R t s s' → fst (step ip t s) = fst (step' ip t s') ∧ R t (snd (step ip t s)) (snd (step' ip t s'))) →
  in_order (t :: map snd h) → R t s s' → serve step h s = serve step' h s'.
Proof.
  intros Hl Hs. revert t s s'. induction h as [|[ip t'] h IH]; intros t s s' Ho Hr; [done|].
  apply StronglySorted_inv in Ho as [Ho Ht]. inversion Ht; subst. apply (Hl t t') in Hr; [|done].
  destruct (Hs ip t' s s' Hr) as [He Hn]. cbn [serve].
  destruct (step ip t' s) as [b s1], (step' ip t' s') as [b' s1']. cbn in *. subst b'. f_equal.
  by apply (IH t').
Qed.

Lemma shardFor_lt ip : (shardFor ip < rateLimiterShards)%nat.
Proof.
  unfold shardFor, rateLimiterShards. pose proof (Z.mod_pos_bound (fnv32a ip) (Z.of_nat 16)). lia.
Qed.

(** A bucket and the frame it stands for: the count stops at the limit. *)
Definition stands_for (t : Time) (lim win : Z) (o : option ipBucket) (f : option frame) : Prop :=
  match live resetAt t o, live fst t f with
  | Some b, Some (ends, hits) =>
      resetAt b = ends ∧ count b = Z.min hits lim ∧ 1 <= hits
  | None, None => True
  | _, _ => False
  end.
Definition bucket_ok (t : Time) (win : Z) (b : ipBucket) : Prop :=
  resetAt b <= lastSeen b + win ∧ lastSeen b <= t.

Record related (lim win : Z) (t : Time) (rl : rateLimiter) (σ : spec) : Prop := {
  rel_limit : limit rl = lim; rel_window : window rl = win;
  rel_shards : List.length (shards rl) = rateLimiterShards;
  rel_ok : ∀ i sh ip b, shards rl !! i = Some sh → sh !! ip = Some b → bucket_ok t win b;
  rel_frames : ∀ ip sh, shards rl !! shardFor ip = Some sh → stands_for t lim win (sh !! ip) (σ ip) }.

Lemma stands_for_later lim win t t' o f :
  t <= t' → stands_for t lim win o f → stands_for t' lim win o f.
Proof.
  intros Ht. unfold stands_for. rewrite <- (live_later resetAt t t' o), <- (live_later fst t t' f) by done.
  destruct (live resetAt t o) as [b|], (live fst t f) as [[ends hits]|]; try done.
  intros (He & Hc & Hh). cbn. unfold expired. rewrite He. cbn. by destruct (ends <? t').
Qed.
Lemma related_later lim win t t' rl σ : t <= t' → related lim win t rl σ → related lim win t' rl σ.
Proof.
  intros Ht [H1 H2 H3 H4 H5]. split; eauto using stands_for_later. intros i sh ip b Hi Hb.
  destruct (H4 _ _ _ _ Hi Hb). split; [done|lia].
Qed.

(** A bucket that has been idle for longer than the window has expired. *)
Lemma sweep_live t win sh ip :
  0 < win → win <= max_int64 → (∀ b, sh !! ip = Some b → bucket_ok t win b) →
  live resetAt t (sweep t win sh !! ip) = live resetAt t (sh !! ip).
Proof.
  intros Hw Hm Hok. unfold sweep. destruct (sh !! ip) as [b|] eqn:Hb.
  - destruct (Geo.Sub t (lastSeen b) <=? win) eqn:Hs.
    + by rewrite (map_lookup_filter_Some_2 _ _ _ b).
    + rewrite map_lookup_filter_None_2.
      2:{ right. intros x Hx. rewrite Hb in Hx. injection Hx as <-. cbn. by rewrite Hs. }
      cbn. unfold expired. specialize (Hok b eq_refl). unfold bucket_ok in Hok.
      apply Z.leb_gt in Hs. unfold Geo.Sub in Hs. unfold min_int64, max_int64 in *.
      rewrite (proj2 (Z.ltb_lt _ _)); [done|lia].
  - by rewrite map_lookup_filter_None_2; [|left].
Qed.
Lemma sweep_sub t win sh ip b : sweep t win sh !! ip = Some b → sh !! ip = Some b.
Proof. intros H. unfold sweep in H. by apply map_lookup_filter_Some in H as [H _]. Qed.

Lemma bucket_step t lim win (o : option ipBucket) f :
  1 <= lim → stands_for t lim win o f →
  let '(b, bk) := match live resetAt t o with
                  | None => (true, mkBucket 1 (t + win) t)
                  | Some b => (negb (lim <=? count b),
                      mkBucket (if lim <=? count b then count b else count b + 1) (resetAt b) t)
                  end in
  b = fst (spec_step t lim win f) ∧ stands_for t lim win (Some bk) (Some (snd (spec_step t lim win f))).
Proof.
  intros Hl. unfold stands_for at 1, spec_step.
  destruct (live resetAt t o) as [b|] eqn:Hb, (live fst t f) as [[ends hits]|] eqn:Hf; try done; cbn.
  - intros (He & Hc & Hh). apply live_some in Hb as [_ Hb]. apply live_some in Hf as [_ Hf]. cbn in Hf.
    split.
    + rewrite Hc. destruct (Z.leb_spec lim (Z.min hits lim)), (Z.leb_spec (hits + 1) lim); cbn; lia.
    + unfold stands_for, live, expired. cbn [resetAt fst snd count].
      rewrite (proj2 (Z.ltb_ge (resetAt b) t)), (proj2 (Z.ltb_ge ends t)) by lia. split; [done|]. rewrite Hc. destruct (Z.leb_spec lim (Z.min hits lim)); cbn [count]; lia.
  - intros _. split; [symmetry; by apply Z.leb_le|]. unfold stands_for. cbn. unfold expired. cbn.
    destruct (t + win <? t); [done|]. split; [done|]. cbn. lia.
Qed.

Lemma live_lookup t lim win sh ip :
  allow_in ip t lim win sh =
  let sh := sweep t win sh in
  match live resetAt t (sh !! ip) with
  | None => (true, <[ip := mkBucket 1 (t + win) t]> sh)
  | Some b => (negb (lim <=? count b),
      <[ip := mkBucket (if lim <=? count b then count b else count b + 1) (resetAt b) t]> sh)
  end.
Proof.
  unfold allow_in. cbv zeta. destruct (sweep t win sh !! ip) as [b|]; [|done]. cbn.
  destruct (expired resetAt b t); [done|]. by destruct (lim <=? count b).
Qed.

Lemma allow_related lim win t ip rl σ :
  1 <= lim → 0 < win <= max_int64 → related lim win t rl σ →
  fst (allow ip t rl) = fst (spec_allow lim win ip t σ) ∧
  related lim win t (snd (allow ip t rl)) (snd (spec_allow lim win ip t σ)).
Proof.
  intros Hl Hw [H1 H2 H3 H4 H5]. unfold allow, spec_allow.
  destruct (shards rl !! shardFor ip) as [sh|] eqn:Hsh.
  2:{ apply lookup_ge_None_1 in Hsh. pose proof (shardFor_lt ip). lia. }
  rewrite H1, H2, live_lookup. cbv zeta.
  assert (Hlv : ∀ j, live resetAt t (sweep t win sh !! j) = live resetAt t (sh !! j)).
  { intros j. apply sweep_live; [lia|lia|]. intros b Hb. by eapply H4. }
  pose proof (bucket_step t lim win (sh !! ip) (σ ip) Hl (H5 ip sh Hsh)) as Hstep. rewrite Hlv.
  assert (Hbk : ∃ b bk, match live resetAt t (sh !! ip) with
      | Some b => (negb (lim <=? count b),
          <[ip := mkBucket (if lim <=? count b then count b else count b + 1) (resetAt b) t]> (sweep t win sh))
      | None => (true, <[ip := mkBucket 1 (t + win) t]> (sweep t win sh))
      end = (b, <[ip := bk]> (sweep t win sh)) ∧ b = fst (spec_step t lim win (σ ip)) ∧
      stands_for t lim win (Some bk) (Some (snd (spec_step t lim win (σ ip)))) ∧ bucket_ok t win bk).
  { destruct (live resetAt t (sh !! ip)) as [b|] eqn:Hb; destruct Hstep as [? ?];
      eexists _, _; (split; [reflexivity|]); (split; [done|]); (split; [done|]); unfold bucket_ok; cbn; [|lia].
    apply live_some in Hb as [Hb Hr]. destruct (H4 _ _ _ _ Hsh Hb). lia. }
  destruct Hbk as (b & bk & -> & Hb & Hst & Hok). destruct (spec_step t lim win (σ ip)) as [b' f] eqn:Hsp.
  cbn in *. subst b'. split; [done|]. split; cbn; [done|done|by rewrite length_insert|..].
  - intros i sh' j x Hi Hj. apply list_lookup_insert_Some in Hi as [(<- & <- & _)|[Hne Hi]]; [|by eapply H4].
    apply lookup_insert_Some in Hj as [(<- & <-)|[_ Hj]]; [done|]. apply sweep_sub in Hj. by eapply H4.
  - intros j sh' Hj. apply list_lookup_insert_Some in Hj as [(Hi & <- & _)|[Hne Hj]].
    + rewrite Hi in Hsh. destruct (String.eqb_spec j ip) as [->|Hne]; [by rewrite lookup_insert_eq|].
      rewrite lookup_insert_ne by done. specialize (H5 j sh Hsh). unfold stands_for in *. by rewrite Hlv.
    + destruct (String.eqb_spec j ip) as [->|]; [done|]. by apply H5.
Qed.

Lemma fresh_related lim win t :
  related lim win t (mkLimiter (replicate rateLimiterShards ∅) lim win) (λ _, None).
Proof.
  split; [done|done|reflexivity|..]; unfold shards.
  - intros i sh ip b Hi Hb. apply lookup_replicate in Hi as [-> _]. by rewrite lookup_empty in Hb.
  - intros ip sh Hi. apply lookup_replicate in Hi as [-> _]. by rewrite lookup_empty.
Qed.

Lemma limiter_equal lim win h :
  1 <= lim → 0 < win <= max_int64 → in_order (map snd h) →
  serve allow h (newRateLimiter lim win) = serve (spec_allow lim win) h (λ _, None).
Proof.
  intros Hl Hw Ho. unfold newRateLimiter. rewrite (proj2 (Z.leb_gt lim 0)), (proj2 (Z.leb_gt win 0)) by lia.
  destruct h as [|[ip t] h]; [done|]. apply (serve_related (related lim win) _ _ _ t).
  - intros. by eapply related_later.
  - intros. by apply allow_related.
  - constructor; [done|]. apply StronglySorted_inv in Ho as [_ Ho]. constructor; [done|exact Ho].
  - apply fresh_related.
Qed.

(** the limiter implements its specification: for every history of
    requests in order of time, the sixteen shards and the sweeping of idle
    buckets change no answer. *)
Theorem limiter_refines lim win h :
  1 <= lim → 0 < win <= max_int64 → in_order (map snd h) →
  serve allow h (newRateLimiter lim win) = serve (spec_allow lim win) h (λ _, None).
Proof. exact (limiter_equal lim win h). Qed.

(** ** How many requests pass *)
(** The requests of [ip] in [[t0, t1]] that were let through. *)
Fixpoint passed (ip : string) (t0 t1 : Time) (h : list (string * Time)) (bs : list bool) : Z :=
  match h, bs with
  | (j, t) :: h', b :: bs' =>
      (if String.eqb j ip && (t0 <=? t) && (t <=? t1) && b then 1 else 0) + passed ip t0 t1 h' bs'
  | _, _ => 0
  end.

Section Bound.
Context (lim win t0 : Z) (ip : string) (Hlim : 1 <= lim) (Hwin : 0 < win).
Abbreviation t1 := (t0 + win).

(** What may still pass in [[now, t1]]. *)
Definition allowance (now : Time) (o : option frame) : Z :=
  if t1 <? now then 0
  else match live fst now o with
       | None => lim
       | Some (ends, hits) => Z.max 0 (lim - hits) + (if ends <? t1 then lim else 0)
       end.
Definition frame_ok (o : option frame) : Prop := match o with Some (_, hits) => 1 <= hits | None => True end.

Lemma allowance_bounds now o : frame_ok o → 0 <= allowance now o <= 2 * lim.
Proof.
  unfold allowance, frame_ok. intros Hf. destruct (t1 <? now); [lia|].
  destruct (live fst now o) as [[ends hits]|] eqn:Hl; [|lia].
  apply live_some in Hl as [-> _]. destruct (ends <? t1); lia.
Qed.
Lemma allowance_falls t t' o : frame_ok o → t <= t' → allowance t' o <= allowance t o.
Proof.
  unfold allowance, frame_ok. intros Hf Ht. rewrite <- (live_later fst t t' o) by done.
  destruct (Z.ltb_spec t1 t), (Z.ltb_spec t1 t'); try lia.
  - destruct (live fst t o) as [[ends hits]|]; [destruct (ends <? t1); lia|lia].
  - destruct (live fst t o) as [[ends hits]|] eqn:Hl; cbn; [|lia]. unfold expired. cbn.
    destruct (Z.ltb_spec ends t'), (Z.ltb_spec ends t1); lia.
Qed.

Lemma spec_step_ok now o : frame_ok o → frame_ok (Some (snd (spec_step now lim win o))).
Proof.
  unfold spec_step, frame_ok. destruct (live fst now o) as [[ends hits]|] eqn:Hl; cbn; [|lia].
  apply live_some in Hl as [-> _]. lia.
Qed.
Lemma spec_step_pays now o :
  frame_ok o → t0 <= now <= t1 →
  (if fst (spec_step now lim win o) then 1 else 0) + allowance now (Some (snd (spec_step now lim win o)))
  <= allowance now o.
Proof.
  intros Hf Hn. unfold allowance at 2, spec_step. rewrite (proj2 (Z.ltb_ge t1 now)) by lia.
  destruct (live fst now o) as [[ends hits]|] eqn:Hl; cbn.
  - apply live_some in Hl as [-> He]. cbn in *. unfold allowance. rewrite (proj2 (Z.ltb_ge t1 now)) by lia.
    unfold live, expired. cbn. rewrite (proj2 (Z.ltb_ge ends now)) by lia.
    destruct (Z.leb_spec (hits + 1) lim), (ends <? t1); lia.
  - rewrite (proj2 (Z.leb_le 1 lim)) by lia. unfold allowance. rewrite (proj2 (Z.ltb_ge t1 now)) by lia.
    unfold live, expired. cbn. rewrite (proj2 (Z.ltb_ge (now + win) now)), (proj2 (Z.ltb_ge (now + win) t1)) by lia.
    lia.
Qed.

Lemma passed_bound h now (σ : spec) :
  in_order (now :: map snd h) → frame_ok (σ ip) →
  passed ip t0 t1 h (serve (spec_allow lim win) h σ) <= (if now <? t0 then 2 * lim else allowance now (σ ip)).
Proof.
  revert now σ. induction h as [|[j t] h IH]; intros now σ Ho Hf.
  { cbn. pose proof (allowance_bounds now (σ ip) Hf). destruct (now <? t0); lia. }
  apply StronglySorted_inv in Ho as [Ho Ht]. inversion Ht as [|? ? Hle _]; subst.
  assert (Hdown : (if t <? t0 then 2 * lim else allowance t (σ ip))
                  <= (if now <? t0 then 2 * lim else allowance now (σ ip))).
  { pose proof (allowance_bounds t (σ ip) Hf). pose proof (allowance_falls now t (σ ip) Hf Hle).
    destruct (Z.ltb_spec t t0), (Z.ltb_spec now t0); lia. }
  etransitivity; [|exact Hdown]. clear Hdown Hle Ht now. cbn [serve map] in *. unfold spec_allow at 1.
  destruct (spec_step t lim win (σ j)) as [b f] eqn:Hs. cbn [passed].
  set (σ' := λ i, if String.eqb i j then Some f else σ i). specialize (IH t σ' Ho).
  destruct (String.eqb_spec j ip) as [->|Hne]; cbn [andb].
  - assert (Hi : σ' ip = Some f) by (unfold σ'; by rewrite String.eqb_refl). rewrite Hi in IH.
    pose proof (spec_step_ok t (σ ip) Hf) as Hok. pose proof (spec_step_pays t (σ ip) Hf) as Hp.
    rewrite Hs in Hok, Hp. cbn [fst snd] in Hok, Hp. specialize (IH Hok).
    destruct (Z.ltb_spec t t0), (Z.leb_spec t0 t); cbn [andb]; try lia.
    destruct (Z.leb_spec t t1); cbn [andb]; [specialize (Hp ltac:(lia)); destruct b; lia|].
    unfold allowance in *. rewrite (proj2 (Z.ltb_lt t1 t)) in * by lia. lia.
  - assert (Hi : σ' ip = σ ip) by (unfold σ'; by destruct (String.eqb_spec ip j); [congruence|]).
    rewrite Hi in IH. apply IH. done.
Qed.
End Bound.

(** C30: the promise of a limit: in whatever stretch of time as long as the
    window, and however the requests of all addresses interleave, at most
    twice [lim] of one address are let through. *)
Theorem rate_bound lim win h ip t0 :
  1 <= lim → 0 < win <= max_int64 → in_order (map snd h) →
  passed ip t0 (t0 + win) h (serve allow h (newRateLimiter lim win)) <= 2 * lim.
Proof.
  intros Hl Hw Ho. rewrite limiter_equal by done. destruct h as [|[j t] h]; [cbn; lia|].
  pose proof (passed_bound lim win t0 ip Hl ltac:(lia) ((j, t) :: h) t (λ _, None)) as Hb.
  pose proof (allowance_bounds lim win t0 Hl t None I).
  assert (Ht : in_order (t :: map snd ((j, t) :: h))).
  { constructor; [done|]. apply StronglySorted_inv in Ho as [_ Ho]. constructor; [done|exact Ho]. }
  specialize (Hb Ht I). destruct (t <? t0); cbn beta in Hb; lia.
Qed.

(** ** The limiter over cache counters *)
Definition rl_key (ip : string) : string := "ratelimit:" +:+ ip.
Record counting (N : Z) (t : Time) (c : Cache.memoryCache) (σ : spec) : Prop := {
  cnt_frames : ∀ ip,
    live Cache.c_expiresAt t (Cache.counters c !! rl_key ip)
    = (λ f, Cache.mkCounter (snd f) (fst f)) <$> live fst t (σ ip);
  cnt_small : ∀ ip f, σ ip = Some f → 1 <= snd f <= N }.

Lemma rl_key_inj ip j : rl_key ip = rl_key j → ip = j.
Proof. unfold rl_key. cbn. by intros [= ?]. Qed.

Lemma distributed_step N lim ip t c σ :
  N < max_int64 → counting N t c σ →
  fst (distributed ip t lim c) = fst (spec_allow lim Dwell.minute ip t σ) ∧
  counting (Z.max 1 (N + 1)) t (snd (distributed ip t lim c)) (snd (spec_allow lim Dwell.minute ip t σ)).
Proof.
  intros HN [H1 H2]. unfold distributed. fold (rl_key ip). rewrite Cache.increment_live, H1.
  unfold Cache.ttl_or_default. cbn [Dwell.minute Z.leb]. unfold spec_allow, spec_step.
  assert (Hold : ∀ j f, σ j = Some f → 1 <= snd f <= Z.max 1 (N + 1)).
  { intros j f Hj. specialize (H2 j f Hj). lia. }
  assert (Hput : ∀ f : frame, t <= fst f → 1 <= snd f <= Z.max 1 (N + 1) →
    counting (Z.max 1 (N + 1)) t
      (Cache.mkCache (Cache.items c) (<[rl_key ip := Cache.mkCounter (snd f) (fst f)]> (Cache.counters c))
         (Cache.defaultTTL c)) (λ j, if String.eqb j ip then Some f else σ j)).
  { intros f Hf Hn. split; cbn [Cache.counters].
    - intros j. destruct (String.eqb_spec j ip) as [->|Hne].
      + rewrite lookup_insert_eq. cbn. unfold expired. cbn. by rewrite (proj2 (Z.ltb_ge _ _)).
      + rewrite lookup_insert_ne; [apply H1|]. intros Hk. by apply rl_key_inj in Hk.
    - intros j g. destruct (String.eqb_spec j ip); [by intros [= <-]|apply Hold]. }
  destruct (live fst t (σ ip)) as [[ends hits]|] eqn:Hl; cbn [fmap option_fmap option_map Cache.counted fst snd].
  - apply live_some in Hl as [Hs He]. specialize (H2 ip _ Hs). cbn in H2, He.
    cbn [Cache.n Cache.c_expiresAt]. rewrite wrap64_id by (unfold min_int64, max_int64 in *; lia).
    split; [done|]. apply (Hput (ends, hits + 1)); cbn; lia.
  - split; [done|]. apply (Hput (t + Dwell.minute, 1)); cbn [fst snd]; unfold Dwell.minute, Dwell.second; lia.
Qed.

Lemma distributed_serve lim h t N c σ :
  1 <= N → N + Z.of_nat (List.length h) <= max_int64 → in_order (t :: map snd h) → counting N t c σ →
  serve (λ ip now, distributed ip now lim) h c = serve (spec_allow lim Dwell.minute) h σ.
Proof.
  revert t N c σ. induction h as [|[ip t'] h IH]; intros t N c σ HN Hl Ho Hc; [done|].
  apply StronglySorted_inv in Ho as [Ho Ht]. inversion Ht as [|? ? Hle _]; subst. cbn [serve].
  cbn [List.length] in Hl.
  assert (Hc' : counting N t' c σ).
  { destruct Hc as [H1 H2]. split; [|done]. intros j. specialize (H1 j).
    rewrite <- (live_later _ t t' (Cache.counters c !! _)), H1 by done.
    rewrite <- (live_later _ t t' (σ j)) by done.
    destruct (live fst t (σ j)) as [[ends hits]|]; [|done]. cbn. unfold expired. cbn. by destruct (ends <? t'). }
  destruct (distributed_step N lim ip t' c σ) as [He Hn]; [lia|done|].
  destruct (distributed ip t' lim c) as [b c1], (spec_allow lim Dwell.minute ip t' σ) as [b' σ1].
  cbn in He, Hn. subst b'. f_equal. apply (IH t' (Z.max 1 (N + 1))); [lia|lia|exact Ho|exact Hn].
Qed.

(** C31: on one server the limiter over cache counters and the limiter in
    memory give the same answers to every history of requests. *)
Theorem distributed_equivalent lim ttl h :
  1 <= lim → in_order (map snd h) → Z.of_nat (List.length h) < max_int64 →
  serve (λ ip now, distributed ip now lim) h (Cache.newMemoryCache ttl)
  = serve allow h (newRateLimiter lim Dwell.minute).
Proof.
  intros Hl Ho Hn. rewrite limiter_equal; [|done|by split|done]. destruct h as [|[ip t] h]; [done|].
  apply (distributed_serve lim _ t 1); [lia|lia| |by split].
  constructor; [done|]. apply StronglySorted_inv in Ho as [_ Ho]. constructor; [done|exact Ho].
Qed.

(** ** Concrete runs *)
(** Three requests a second apart, one after the window, one of another
    address, against a limit of two a minute. *)
Definition demo_requests : list (string * Time) :=
  [("10.0.0.1", 0); ("10.0.0.1", Dwell.second); ("10.0.0.1", 2 * Dwell.second);
   ("10.0.0.2", 2 * Dwell.second); ("10.0.0.1", 61 * Dwell.second)]%string.
Lemma demo_in_order : in_order (map snd demo_requests).
Proof. repeat constructor; vm_compute; discriminate. Qed.

Lemma limiter_refines_witness :
  serve (spec_allow 2 Dwell.minute) demo_requests (λ _, None) = [true; true; false; true; true].
Proof.
  rewrite <- (limiter_refines 2 Dwell.minute demo_requests); [vm_compute; reflexivity|lia| |exact demo_in_order].
  split; [reflexivity|vm_compute; discriminate].
Defined.
Lemma rate_bound_witness :
  passed "10.0.0.1" Dwell.second (Dwell.second + Dwell.minute) demo_requests
    (serve allow demo_requests (newRateLimiter 2 Dwell.minute)) <= 4.
Proof.
  apply (rate_bound 2 Dwell.minute demo_requests "10.0.0.1" Dwell.second); [lia| |exact demo_in_order].
  split; [reflexivity|vm_compute; discriminate].
Defined.
Lemma distributed_equivalent_witness :
  serve (λ ip now, distributed ip now 2) demo_requests (Cache.newMemoryCache 0) = [true; true; false; true; true].
Proof.
  rewrite (distributed_equivalent 2 0 demo_requests); [vm_compute; reflexivity|lia|exact demo_in_order|reflexivity].
Defined.
End Limiter.
