(* ===== verification/Leader.v ===== *)
(** * Leader election by leases

    [internal/leader/leader.go]: a background worker runs on the replica that
    holds its lease, a row of [worker_leases] with an expiry.  The replicas,
    their clock and their failures are a step relation; what the lease
    promises is an invariant of the states it reaches. *)
From stdpp Require Import base decidable list strings option gmap relations.
From Stdlib Require Import ZArith Lia.
From S2P Require Import Prelude Shared Geofence.
Open Scope Z_scope.

Module Leader.
(** [time.Duration]s are in nanoseconds, readings of the clock
    ([UnixMilli]) in milliseconds; their sum is far from overflow. *)
Definition DefaultTTL : Z := 30 * Dwell.second.
Record Manager := mkManager { holder : string; ttl : Z }.
(** [host] is the host name and the process id. *)
Definition NewManager (holder host : string) (ttl : Z) : Manager :=
  mkManager (if is_empty holder then host else holder) (if ttl <=? 0 then DefaultTTL else ttl).
Definition ttl_ms (m : Manager) : Z := Z.quot (ttl m) 1000000.

(** [worker_leases], by name. *)
Record Lease := mkLease { l_holder : string; expires_at : Z }.
Abbreviation Leases := (gmap string Lease).

(** The upsert and whether it changed a row. *)
Definition tryAcquire (m : Manager) (name : string) (now : Z) (ls : Leases) : bool * Leases :=
  let won := (true, <[name := mkLease (holder m) (now + ttl_ms m)]> ls) in
  match ls !! name with
  | None => won
  | Some l => if (expires_at l <? now) || String.eqb (l_holder l) (holder m) then won else (false, ls)
  end.
Definition Release (m : Manager) (name : string) (ls : Leases) : Leases :=
  match ls !! name with
  | Some l => if String.eqb (l_holder l) (holder m) then delete name ls else ls
  | None => ls
  end.

(** ** The fleet *)
(** A worker under way: since when its lease was last granted, whether it
    renews ([RunAsLeader]) or not ([TryRunAsLeader]), and whether its context
    has been cancelled, which a body may be slow to notice. *)
Record Run := mkRun {
  r_manager : Manager; r_name : string; r_renews : bool; r_since : Z; r_cancelled : bool }.
Record Fleet := mkFleet { leases : Leases; clock : Z; runs : gmap nat Run }.
Definition granted (t : Z) (r : Run) : Run :=
  mkRun (r_manager r) (r_name r) (r_renews r) t (r_cancelled r).
Definition cancelled (r : Run) : Run := mkRun (r_manager r) (r_name r) (r_renews r) (r_since r) true.

(** [name] is started once by a process: [cmd/server/main.go]. *)
Definition not_started (h name : string) (f : Fleet) : Prop :=
  ∀ i r, runs f !! i = Some r → r_name r = name → holder (r_manager r) ≠ h.

Inductive step : Fleet → Fleet → Prop :=
| step_clock f t : clock f <= t → step f (mkFleet (leases f) t (runs f))
| step_win f i m name renews ls :
    runs f !! i = None → not_started (holder m) name f →
    tryAcquire m name (clock f) (leases f) = (true, ls) →
    step f (mkFleet ls (clock f) (<[i := mkRun m name renews (clock f) false]> (runs f)))
| step_wait f m name ls :
    tryAcquire m name (clock f) (leases f) = (false, ls) →
    step f (mkFleet ls (clock f) (runs f))
| step_renew f i r ls :
    runs f !! i = Some r → r_renews r = true → r_cancelled r = false →
    tryAcquire (r_manager r) (r_name r) (clock f) (leases f) = (true, ls) →
    step f (mkFleet ls (clock f) (<[i := granted (clock f) r]> (runs f)))
| step_lost f i r :
    (** the renewal was refused, or its statement failed *)
    runs f !! i = Some r → r_renews r = true →
    step f (mkFleet (leases f) (clock f) (<[i := cancelled r]> (runs f)))
| step_return f i r :
    runs f !! i = Some r →
    step f (mkFleet (Release (r_manager r) (r_name r) (leases f)) (clock f) (delete i (runs f)))
| step_vanish f i :
    (** a crash, or a body whose release failed *)
    step f (mkFleet (leases f) (clock f) (delete i (runs f))).

Definition start (t : Z) : Fleet := mkFleet ∅ t ∅.
Definition reachable (f : Fleet) : Prop := ∃ t, rtc step (start t) f.

(** ** What a lease promises *)
(** The lease a run was granted has not run out. *)
Definition fresh (f : Fleet) (r : Run) : Prop := clock f <= r_since r + ttl_ms (r_manager r).

Record fleet_inv (f : Fleet) : Prop := {
  inv_lease : ∀ i r, runs f !! i = Some r → fresh f r →
    leases f !! r_name r = Some (mkLease (holder (r_manager r)) (r_since r + ttl_ms (r_manager r)));
  inv_solo : ∀ i j r s, runs f !! i = Some r → runs f !! j = Some s → r_name r = r_name s →
    holder (r_manager r) = holder (r_manager s) → i = j }.

Lemma tryAcquire_won m name t ls ls' :
  tryAcquire m name t ls = (true, ls') →
  ls' = <[name := mkLease (holder m) (t + ttl_ms m)]> ls ∧
  ∀ l, ls !! name = Some l → l_holder l = holder m ∨ expires_at l < t.
Proof.
  unfold tryAcquire. destruct (ls !! name) as [l|]; [|by intros [= <-]].
  destruct (_ || _) eqn:H; [|done]. intros [= <-]. split; [done|]. intros l' [= <-].
  apply orb_true_iff in H as [H|H]; [right; by apply Z.ltb_lt|left; by apply String.eqb_eq].
Qed.
Lemma tryAcquire_denied m name t ls ls' : tryAcquire m name t ls = (false, ls') → ls' = ls.
Proof. unfold tryAcquire. destruct (ls !! name); [|done]. by destruct (_ || _); intros [= <-]. Qed.

(** Granting [name] to [m] leaves the fresh runs of the others alone. *)
Lemma grant_keeps f i r m name ls :
  fleet_inv f → tryAcquire m name (clock f) (leases f) = (true, ls) →
  runs f !! i = Some r → fresh f r → (r_name r = name → holder (r_manager r) ≠ holder m) →
  ls !! r_name r = Some (mkLease (holder (r_manager r)) (r_since r + ttl_ms (r_manager r))).
Proof.
  intros [H1 H2] [-> Hw]%tryAcquire_won Hr Hf Hne. specialize (H1 i r Hr Hf).
  destruct (decide (r_name r = name)) as [<-|Hn]; [|by rewrite lookup_insert_ne].
  destruct (Hw _ H1) as [He|He]; cbn in He; [by apply Hne in He|]. unfold fresh in Hf. lia.
Qed.

Lemma step_inv f f' : step f f' → fleet_inv f → fleet_inv f'.
Proof.
  intros Hs Hinv. pose proof Hinv as [H1 H2].
  destruct Hs as [f t Ht|f i m name renews ls Hi Hn Ha|f m name ls Ha|f i r ls Hr Hre Hc Ha|f i r Hr Hre|f i r Hr|f i].
  - split; [|done]. intros i r Hr Hf. apply H1 with i; [done|]. unfold fresh in *. cbn in *. lia.
  - split; cbn.
    + intros j s Hs Hf. apply lookup_insert_Some in Hs as [[<- <-]|[Hne Hs]]; cbn.
      * apply tryAcquire_won in Ha as [-> _]. by rewrite lookup_insert_eq.
      * eapply grant_keeps; [done|exact Ha|done|exact Hf|]. intros Hname. by apply (Hn j).
    + intros j k r s Hj Hk. apply lookup_insert_Some in Hj as [[<- <-]|[Hne Hj]];
        apply lookup_insert_Some in Hk as [[<- <-]|[Hne' Hk]]; cbn; [done|..|by eauto].
      * intros Hname Hh. by destruct (Hn k s Hk).
      * intros Hname Hh. by destruct (Hn j r Hj).
  - apply tryAcquire_denied in Ha as ->. by destruct f.
  - split; cbn.
    + intros j s Hs Hf. apply lookup_insert_Some in Hs as [[<- <-]|[Hne Hs]]; cbn.
      * apply tryAcquire_won in Ha as [-> _]. by rewrite lookup_insert_eq.
      * eapply grant_keeps; [done|exact Ha|done|exact Hf|]. intros Hname Hh. apply Hne. by eapply H2.
    + intros j k s u Hj Hk. apply lookup_insert_Some in Hj as [[<- <-]|[Hne Hj]];
        apply lookup_insert_Some in Hk as [[<- <-]|[Hne' Hk]]; cbn; by eauto.
  - split; cbn.
    + intros j s Hs Hf. apply lookup_insert_Some in Hs as [[<- <-]|[Hne Hs]]; [exact (H1 _ _ Hr Hf)|exact (H1 _ _ Hs Hf)].
    + intros j k s u Hj Hk. apply lookup_insert_Some in Hj as [[<- <-]|[Hne Hj]];
        apply lookup_insert_Some in Hk as [[<- <-]|[Hne' Hk]]; cbn; by eauto.
  - split; cbn.
    + intros j s Hs Hf. apply lookup_delete_Some in Hs as [Hne Hs]. specialize (H1 j s Hs Hf).
      unfold Release. destruct (leases f !! r_name r) as [l|] eqn:Hl; [|done].
      destruct (String.eqb_spec (l_holder l) (holder (r_manager r))) as [He|]; [|done].
      destruct (decide (r_name r = r_name s)) as [Hname|]; [|by rewrite lookup_delete_ne].
      rewrite <- Hname, Hl in H1. injection H1 as ->. cbn in He. destruct Hne. by eapply H2.
    + intros j k s u [_ Hj]%lookup_delete_Some [_ Hk]%lookup_delete_Some. by eauto.
  - split; cbn.
    + intros j s [_ Hs]%lookup_delete_Some. exact (H1 _ _ Hs).
    + intros j k s u [_ Hj]%lookup_delete_Some [_ Hk]%lookup_delete_Some. by eauto.
Qed.

Lemma reachable_inv f : reachable f → fleet_inv f.
Proof.
  intros [t Hf]. cut (∀ g, rtc step g f → fleet_inv g → fleet_inv f).
  { intros H. apply (H (start t) Hf). split; cbn; [intros i r|intros i j r s]; by rewrite lookup_empty. }
  clear. intros g H. induction H as [|g g' f Hs _ IH]; [done|]. intros Hi. by apply IH, (step_inv g).
Qed.

(** C29: mutual exclusion: however the replicas acquire, renew, lose, release
    and crash, of one worker at most one run holds a lease that has not run
    out. *)
Theorem one_fresh_leader f i j r s :
  reachable f → runs f !! i = Some r → runs f !! j = Some s → r_name r = r_name s →
  fresh f r → fresh f s → i = j.
Proof.
  intros [H1 H2]%reachable_inv Hi Hj Hn Hr Hs. eapply H2; [exact Hi|exact Hj|exact Hn|].
  pose proof (H1 i r Hi Hr) as Lr. pose proof (H1 j s Hj Hs) as Ls. rewrite Hn, Ls in Lr. by injection Lr as ->.
Qed.

(** A crashed holder's lease can be claimed by anyone once it has run out,
    and by nobody else before. *)
Lemma lease_claimable m name t ls l :
  ls !! name = Some l → l_holder l ≠ holder m →
  fst (tryAcquire m name t ls) = true ↔ expires_at l < t.
Proof.
  intros Hl Hne. unfold tryAcquire. rewrite Hl. destruct (String.eqb_spec (l_holder l) (holder m)); [done|].
  rewrite orb_false_r. destruct (Z.ltb_spec (expires_at l) t); cbn; split; (done || lia).
Qed.

(** exclusion holds for leases, not for bodies: a body that is not renewed
    goes on when its lease runs out, so any two replicas can run one worker
    at the same time, neither of them told to stop. *)
Theorem bodies_overlap m1 m2 name :
  holder m1 ≠ holder m2 → 0 <= ttl_ms m1 →
  ∃ f r s, reachable f ∧ runs f !! 0%nat = Some r ∧ runs f !! 1%nat = Some s ∧
    r_name r = name ∧ r_name s = name ∧ r_manager r = m1 ∧ r_manager s = m2 ∧
    r_cancelled r = false ∧ r_cancelled s = false.
Proof.
  intros Hne Ht. set (r := mkRun m1 name false 0 false). set (t := ttl_ms m1 + 1).
  set (ls := <[name := mkLease (holder m1) (0 + ttl_ms m1)]> (∅ : Leases)).
  set (s := mkRun m2 name false t false).
  exists (mkFleet (<[name := mkLease (holder m2) (t + ttl_ms m2)]> ls) t (<[1%nat := s]> (<[0%nat := r]> ∅))), r, s.
  split; [|by split_and!]. exists 0. set (f1 := mkFleet ls 0 (<[0%nat := r]> ∅)).
  assert (H1 : step (start 0) f1).
  { apply (step_win (start 0)); [done|intros i x Hx; discriminate Hx|done]. }
  set (f2 := mkFleet ls t (<[0%nat := r]> ∅)).
  assert (H2 : step f1 f2) by (apply (step_clock f1); cbn; lia).
  eapply rtc_l; [exact H1|]. eapply rtc_l; [exact H2|]. apply rtc_once. apply (step_win f2).
  - cbn. by rewrite lookup_insert_ne.
  - intros i x Hx. unfold f2 in Hx. cbn [runs] in Hx.
    apply lookup_insert_Some in Hx as [[<- <-]|[_ Hx]]; [done|discriminate Hx].
  - unfold tryAcquire. cbn [leases clock f2]. unfold ls at 1. rewrite lookup_insert_eq. cbn [expires_at].
    by rewrite (proj2 (Z.ltb_lt _ _)) by lia.
Qed.

(** ** A run *)
Definition replica (h : string) : Manager := NewManager h "" 0.
Lemma one_fresh_leader_witness :
  let r := mkRun (replica "a") "relay" true 0 false in
  let f := mkFleet {["relay"%string := mkLease "a" 30000]} 0 {[0%nat := r]} in
  reachable f ∧ 0%nat = 0%nat.
Proof.
  intros r f.
  assert (Hf : reachable f).
  { exists 0. eapply rtc_l; [|apply rtc_refl]. apply (step_win (start 0) 0 (replica "a") "relay" true).
    - apply lookup_empty.
    - intros i x Hx. discriminate Hx.
    - vm_compute. reflexivity. }
  split; [exact Hf|].
  apply (one_fresh_leader f 0 0 r r Hf); [reflexivity..| |]; vm_compute; discriminate.
Defined.
Lemma bodies_overlap_witness :
  ∃ f r s, reachable f ∧ runs f !! 0%nat = Some r ∧ runs f !! 1%nat = Some s ∧
    r_name r = "relay"%string ∧ r_name s = "relay"%string ∧
    r_manager r = replica "a" ∧ r_manager s = replica "b" ∧
    r_cancelled r = false ∧ r_cancelled s = false.
Proof.
  apply (bodies_overlap (replica "a") (replica "b") "relay"); [discriminate|vm_compute; discriminate].
Defined.
End Leader.
