(* ===== verification/SideTables.v ===== *)
(** * Components with tables of their own

    The alert pipeline, the e-way bills, the fuel engine and the like keep
    tables nothing else writes.  Such a component runs on the world of the
    request, its own tables [X], and an outside [S] that no transaction rolls
    back: messages sent, subscribers called, calls to providers.  A statement
    on either set of tables is one statement of the same connection: it is
    numbered, and may fault, as every other. *)
From stdpp Require Import base decidable list strings option gmap.
From Stdlib Require Import ZArith Lia.
From S2P Require Import Prelude Shared Database.
Open Scope Z_scope.

Lemma iter_ok {S A} (f : A → SM S unit) a l s s1 :
  f a s = (Ok tt, s1) → SM_iter f (a :: l) s = SM_iter f l s1.
Proof. intros H. cbn [SM_iter]. cbv [mbind SM_mbind SM_bind]. by rewrite H. Qed.

Section SideTables.
Context {env : Env} {X S : Type}.

Abbreviation State := (World * X * S)%type.
Abbreviation XM := (SM State).
Definition s_world (s : State) : World := fst (fst s).
Definition s_tables (s : State) : X := snd (fst s).
Definition s_out (s : State) : S := snd s.
Definition s_db (s : State) : DB := w_db (s_world s).

(** What runs on the core's tables alone. *)
Definition core {A} (m : M A) : XM A := λ s,
  match m (s_world s) with (r, w) => (r, (w, s_tables s, s_out s)) end.

(** One statement that reads both and writes the component's tables. *)
Definition xstmt {A} (q : Time → DB → X → result A * X) : XM A := λ s,
  let w := s_world s in
  match stmt_fault (w_stmts w) with
  | Some e => (Fail e, (tick_stmts w, s_tables s, s_out s))
  | None =>
      match q (db_now (w_stmts w)) (w_db w) (s_tables s) with
      | (Ok a, x) => (Ok a, (tick_stmts w, x, s_out s))
      | (Fail e, _) => (Fail e, (tick_stmts w, s_tables s, s_out s))
      end
  end.
Definition xexec {A} (q : Time → DB → X → result A * X) : XM A := xstmt q.
Definition xquery {A} (q : Time → DB → X → A) : XM A := xstmt (λ now d x, (Ok (q now d x), x)).
Definition xquery_row {A} (q : Time → DB → X → option A) : XM A :=
  xstmt (λ now d x, (match q now d x with Some a => Ok a | None => Fail ErrNoRows end, x)).
(** An INSERT, UPDATE or DELETE that cannot fail by itself. *)
Definition xwrite (f : Time → X → X) : XM unit := xexec (λ now _ x, (Ok tt, f now x)).
(** Something done outside. *)
Definition outside (f : S → S) : XM unit := SM_modify (λ s, (fst s, f (snd s))).

(** [uow.Execute]: both sets of tables are rolled back. *)
Definition xtransaction {A} (fn : XM A) : XM A := λ s,
  let w := s_world s in
  match stmt_fault (w_stmts w) with
  | Some e => (Fail e, (tick_stmts w, s_tables s, s_out s))
  | None =>
      match fn (tick_stmts w, s_tables s, s_out s) with
      | (Fail e, s') => (Fail e, (set_w_db (w_db w) (s_world s'), s_tables s, s_out s'))
      | (Ok a, s') =>
          match stmt_fault (w_stmts (s_world s')) with
          | Some e => (Fail e, (set_w_db (w_db w) (tick_stmts (s_world s')), s_tables s, s_out s'))
          | None => (Ok a, (tick_stmts (s_world s'), s_tables s', s_out s'))
          end
      end
  end.

(** A transaction whose body may also roll back without an error. *)
Definition xtransaction_opt {A} (fn : XM (option A)) : XM (option A) := λ s,
  let w := s_world s in
  match stmt_fault (w_stmts w) with
  | Some e => (Fail e, (tick_stmts w, s_tables s, s_out s))
  | None =>
      match fn (tick_stmts w, s_tables s, s_out s) with
      | (Fail e, s') => (Fail e, (set_w_db (w_db w) (s_world s'), s_tables s, s_out s'))
      | (Ok None, s') => (Ok None, (set_w_db (w_db w) (s_world s'), s_tables s, s_out s'))
      | (Ok (Some a), s') =>
          match stmt_fault (w_stmts (s_world s')) with
          | Some e => (Fail e, (set_w_db (w_db w) (tick_stmts (s_world s')), s_tables s, s_out s'))
          | None => (Ok (Some a), (tick_stmts (s_world s'), s_tables s', s_out s'))
          end
      end
  end.

(** ** Laws *)
Lemma xstmt_inv {A} (q : Time → DB → X → result A * X) s r s' :
  xstmt q s = (r, s') →
  s_db s' = s_db s ∧ s_out s' = s_out s ∧
  match r with
  | Ok a => q (db_now (w_stmts (s_world s))) (s_db s) (s_tables s) = (Ok a, s_tables s')
  | Fail e => s_tables s' = s_tables s ∧
      (stmt_fault (w_stmts (s_world s)) = Some e ∨
       fst (q (db_now (w_stmts (s_world s))) (s_db s) (s_tables s)) = Fail e)
  end.
Proof.
  unfold xstmt, s_db. destruct (stmt_fault _) as [e|]; [intros [= <- <-]; cbn; auto 10|].
  destruct (q _ _ _) as [[a|e] x] eqn:E; intros [= <- <-]; cbn; auto 10.
Qed.
Lemma xquery_inv {A} (q : Time → DB → X → A) s r s' :
  xquery q s = (r, s') →
  s_db s' = s_db s ∧ s_out s' = s_out s ∧ s_tables s' = s_tables s ∧
  match r with
  | Ok a => a = q (db_now (w_stmts (s_world s))) (s_db s) (s_tables s)
  | Fail e => is_no_rows e = false
  end.
Proof.
  intros (H1 & H2 & H3)%xstmt_inv. destruct r as [a|e].
  - injection H3 as H3 H4. by subst.
  - destruct H3 as [H3 [H4|H4]]; [|discriminate H4]. split_and!; try done. by apply (stmt_fault_rows _ _ H4).
Qed.
Lemma xquery_row_inv {A} (q : Time → DB → X → option A) s r s' :
  xquery_row q s = (r, s') →
  s_db s' = s_db s ∧ s_out s' = s_out s ∧ s_tables s' = s_tables s ∧
  match r with
  | Ok a => q (db_now (w_stmts (s_world s))) (s_db s) (s_tables s) = Some a
  | Fail e => is_no_rows e = true → q (db_now (w_stmts (s_world s))) (s_db s) (s_tables s) = None
  end.
Proof.
  intros (H1 & H2 & H3)%xstmt_inv. destruct r as [a|e].
  - destruct (q _ _ _) eqn:E; [injection H3 as H3 H4; by subst|discriminate H3].
  - destruct H3 as [H3 [H4|H4]]; split_and!; try done; intros Hn.
    + by rewrite (stmt_fault_rows _ _ H4) in Hn.
    + by destruct (q _ _ _).
Qed.
Lemma xwrite_inv f s r s' :
  xwrite f s = (r, s') →
  s_db s' = s_db s ∧ s_out s' = s_out s ∧
  s_tables s' = (if is_Ok r then f (db_now (w_stmts (s_world s))) (s_tables s) else s_tables s).
Proof.
  intros (H1 & H2 & H3)%xstmt_inv. split; [done|]. split; [done|]. destruct r as [a|e]; cbn.
  - by injection H3 as _ <-.
  - by destruct H3.
Qed.

Lemma core_inv {A} (m : M A) s r s' :
  core m s = (r, s') → ∃ w, m (s_world s) = (r, w) ∧ s' = (w, s_tables s, s_out s).
Proof. unfold core. destruct (m (s_world s)) as [r1 w]. intros [= <- <-]. by exists w. Qed.

Lemma xtransaction_spec {A} (fn : XM A) s r s' :
  xtransaction fn s = (r, s') →
  match r with
  | Ok a => ∃ s1, fn (tick_stmts (s_world s), s_tables s, s_out s) = (Ok a, s1) ∧
      s_db s' = s_db s1 ∧ s_tables s' = s_tables s1 ∧ s_out s' = s_out s1
  | Fail _ => s_db s' = s_db s ∧ s_tables s' = s_tables s
  end.
Proof.
  unfold xtransaction. destruct (stmt_fault _); [by intros [= <- <-]|].
  destruct (fn _) as [[a|e] s1]; [|by intros [= <- <-]].
  destruct (stmt_fault _); intros [= <- <-]; [done|]. by exists s1.
Qed.

Lemma xtransaction_opt_spec {A} (fn : XM (option A)) s r s' :
  xtransaction_opt fn s = (r, s') →
  match r with
  | Ok (Some a) => ∃ s1, fn (tick_stmts (s_world s), s_tables s, s_out s) = (Ok (Some a), s1) ∧
      s_db s' = s_db s1 ∧ s_tables s' = s_tables s1 ∧ s_out s' = s_out s1
  | _ => s_db s' = s_db s ∧ s_tables s' = s_tables s
  end.
Proof.
  unfold xtransaction_opt. destruct (stmt_fault _); [by intros [= <- <-]|].
  destruct (fn _) as [[[a|]|e] s1]; [|by intros [= <- <-]..].
  destruct (stmt_fault _); intros [= <- <-]; [done|]. by exists s1.
Qed.

(** On a healthy database a statement takes its effect. *)
Definition healthy : Prop := ∀ n, stmt_fault n = None.
Definition s_set (w : World) (x : X) (s : State) : State := (w, x, s_out s).
Definition s_now (s : State) : Time := db_now (w_stmts (s_world s)).
Lemma xquery_run {A} (q : Time → DB → X → A) s :
  healthy → xquery q s = (Ok (q (s_now s) (s_db s) (s_tables s)), s_set (tick_stmts (s_world s)) (s_tables s) s).
Proof. intros Hh. unfold xquery, xstmt. by rewrite Hh. Qed.
Lemma xquery_row_run {A} (q : Time → DB → X → option A) s :
  healthy → xquery_row q s =
    (match q (s_now s) (s_db s) (s_tables s) with Some a => Ok a | None => Fail ErrNoRows end,
     s_set (tick_stmts (s_world s)) (s_tables s) s).
Proof. intros Hh. unfold xquery_row, xstmt. rewrite Hh. unfold s_now, s_db. by destruct (q _ _ _). Qed.
Lemma xwrite_run f s :
  healthy → xwrite f s = (Ok tt, s_set (tick_stmts (s_world s)) (f (s_now s) (s_tables s)) s).
Proof. intros Hh. unfold xwrite, xexec, xstmt. by rewrite Hh. Qed.

(** Relations on the tables of both, and on what happens outside. *)
Definition on_parts (P : DB * X → DB * X → Prop) (s s' : State) : Prop :=
  P (s_db s, s_tables s) (s_db s', s_tables s').
#[export] Instance on_parts_preorder P `{!PreOrder P} : PreOrder (on_parts P).
Proof.
  split; [intros s; unfold on_parts; reflexivity|]. intros s1 s2 s3. unfold on_parts. apply transitivity.
Qed.
Definition on_tables (P : X → X → Prop) (s s' : State) : Prop := P (s_tables s) (s_tables s').
#[export] Instance on_tables_preorder P `{!PreOrder P} : PreOrder (on_tables P).
Proof.
  split; [intros s; unfold on_tables; reflexivity|]. intros s1 s2 s3. unfold on_tables. apply transitivity.
Qed.

Section OnTables.
Context (P : X → X → Prop) `{!PreOrder P}.
Lemma xstmt_on {A} (q : Time → DB → X → result A * X) :
  (∀ now d x, P x (snd (q now d x))) → preserves (on_tables P) (xstmt q).
Proof.
  intros Hq s. unfold on_tables, xstmt. destruct (stmt_fault _); [cbn; reflexivity|].
  specialize (Hq (db_now (w_stmts (s_world s))) (w_db (s_world s)) (s_tables s)).
  destruct (q _ _ _) as [[a|e] x]; cbn in *; [exact Hq|reflexivity].
Qed.
Lemma xquery_on {A} (q : Time → DB → X → A) : preserves (on_tables P) (xquery q).
Proof. apply xstmt_on. intros. cbn. reflexivity. Qed.
Lemma xquery_row_on {A} (q : Time → DB → X → option A) : preserves (on_tables P) (xquery_row q).
Proof. apply xstmt_on. intros. cbn. by destruct (q now d x). Qed.
Lemma xwrite_on f : (∀ now x, P x (f now x)) → preserves (on_tables P) (xwrite f).
Proof. intros Hf. apply xstmt_on. intros. cbn. apply Hf. Qed.
Lemma core_on {A} (m : M A) : preserves (on_tables P) (core m).
Proof. intros s. unfold on_tables, core. destruct (m _). cbn. reflexivity. Qed.
Lemma outside_on f : preserves (on_tables P) (outside f).
Proof. intros s. unfold on_tables. cbn. reflexivity. Qed.
Lemma xtransaction_on {A} (fn : XM A) :
  preserves (on_tables P) fn → preserves (on_tables P) (xtransaction fn).
Proof.
  intros Hfn s. specialize (Hfn (tick_stmts (s_world s), s_tables s, s_out s)).
  destruct (xtransaction fn s) as [r s'] eqn:H. apply xtransaction_spec in H. unfold on_tables in *. cbn [snd].
  destruct r as [a|e]; [|destruct H as [_ ->]; reflexivity].
  destruct H as (s1 & Hf & _ & -> & _). by rewrite Hf in Hfn.
Qed.
Lemma xtransaction_opt_on {A} (fn : XM (option A)) :
  preserves (on_tables P) fn → preserves (on_tables P) (xtransaction_opt fn).
Proof.
  intros Hfn s. specialize (Hfn (tick_stmts (s_world s), s_tables s, s_out s)).
  destruct (xtransaction_opt fn s) as [r s'] eqn:H. apply xtransaction_opt_spec in H. unfold on_tables in *. cbn [snd].
  destruct r as [[a|]|e]; [|destruct H as [_ ->]; reflexivity..].
  destruct H as (s1 & Hf & _ & -> & _). by rewrite Hf in Hfn.
Qed.
End OnTables.

Section OnParts.
Context (P : DB * X → DB * X → Prop) `{!PreOrder P}.
Lemma xstmt_parts {A} (q : Time → DB → X → result A * X) :
  (∀ now d x, P (d, x) (d, snd (q now d x))) → preserves (on_parts P) (xstmt q).
Proof.
  intros Hq s. unfold on_parts, s_db, xstmt. destruct (stmt_fault _); [cbn; reflexivity|].
  specialize (Hq (db_now (w_stmts (s_world s))) (w_db (s_world s)) (s_tables s)).
  destruct (q _ _ _) as [[a|e] x]; cbn in *; [exact Hq|reflexivity].
Qed.
Lemma xquery_parts {A} (q : Time → DB → X → A) : preserves (on_parts P) (xquery q).
Proof. apply xstmt_parts. intros. cbn. reflexivity. Qed.
Lemma xquery_row_parts {A} (q : Time → DB → X → option A) : preserves (on_parts P) (xquery_row q).
Proof. apply xstmt_parts. intros. cbn. by destruct (q now d x). Qed.
Lemma xwrite_parts f : (∀ now d x, P (d, x) (d, f now x)) → preserves (on_parts P) (xwrite f).
Proof. intros Hf. apply xstmt_parts. intros. cbn. apply Hf. Qed.
Lemma core_parts {A} (m : M A) (R : DB → DB → Prop) :
  (∀ d d' x, R d d' → P (d, x) (d', x)) → preserves (on_db R) m → preserves (on_parts P) (core m).
Proof.
  intros Hr Hm s. specialize (Hm (s_world s)). unfold on_parts, on_db, core, s_db in *.
  destruct (m (s_world s)). cbn in *. by apply Hr.
Qed.
Lemma core_same_parts {A} (m : M A) : preserves (on_db eq) m → preserves (on_parts P) (core m).
Proof. apply core_parts. intros d d' x ->. reflexivity. Qed.
Lemma outside_parts f : preserves (on_parts P) (outside f).
Proof. intros s. unfold on_parts. cbn. reflexivity. Qed.
Lemma xtransaction_parts {A} (fn : XM A) :
  preserves (on_parts P) fn → preserves (on_parts P) (xtransaction fn).
Proof.
  intros Hfn s. specialize (Hfn (tick_stmts (s_world s), s_tables s, s_out s)).
  destruct (xtransaction fn s) as [r s'] eqn:H. apply xtransaction_spec in H. unfold on_parts in *. cbn [snd].
  destruct r as [a|e]; [|destruct H as [-> ->]; reflexivity].
  destruct H as (s1 & Hf & -> & -> & _). by rewrite Hf in Hfn.
Qed.
End OnParts.

(** Relations on the outside: no statement changes it, a transaction does
    not roll it back. *)
Definition on_out (P : S → S → Prop) (s s' : State) : Prop := P (s_out s) (s_out s').
#[export] Instance on_out_preorder P `{!PreOrder P} : PreOrder (on_out P).
Proof.
  split; [intros s; unfold on_out; reflexivity|]. intros s1 s2 s3. unfold on_out. apply transitivity.
Qed.
Section OnOut.
Context (P : S → S → Prop) `{!PreOrder P}.
Lemma xstmt_out {A} (q : Time → DB → X → result A * X) : preserves (on_out P) (xstmt q).
Proof.
  intros s. unfold on_out. destruct (xstmt q s) as [r s'] eqn:H. apply xstmt_inv in H as (_ & H & _). cbn [snd].
  rewrite H. reflexivity.
Qed.
Lemma core_out {A} (m : M A) : preserves (on_out P) (core m).
Proof. intros s. unfold on_out, core. destruct (m _). cbn. reflexivity. Qed.
Lemma outside_out f : (∀ o, P o (f o)) → preserves (on_out P) (outside f).
Proof. intros Hf s. apply Hf. Qed.
Lemma xtransaction_out {A} (fn : XM A) : preserves (on_out P) fn → preserves (on_out P) (xtransaction fn).
Proof.
  intros Hfn s. specialize (Hfn (tick_stmts (s_world s), s_tables s, s_out s)). unfold on_out, xtransaction in *.
  destruct (stmt_fault _); [cbn; reflexivity|]. destruct (fn _) as [[a|e] s1]; cbn in *; [|done].
  by destruct (stmt_fault _).
Qed.
End OnOut.
End SideTables.
#[export] Existing Instances on_parts_preorder on_tables_preorder on_out_preorder.
Abbreviation XM X S := (SM (World * X * S)%type).

(** The leaves of a component: queries, the clock and identifiers change
    none of its tables; its writes are what [leaf] proves. *)
Ltac tables_leaf leaf :=
  first
    [ apply xquery_on; exact _ | apply xquery_row_on; exact _ | apply core_on; exact _
    | apply outside_on; exact _
    | apply xtransaction_on; [exact _|]; preserve_with ltac:(fun _ => tables_leaf leaf)
    | apply xwrite_on; [exact _|]; intros ? ?; leaf ()
    | apply xstmt_on; [exact _|]; intros ? ? ?; leaf () ].
Ltac preserve_tables leaf := preserve_with ltac:(fun _ => tables_leaf leaf).
Ltac parts_leaf leaf :=
  first
    [ apply xquery_parts; exact _ | apply xquery_row_parts; exact _
    | apply core_same_parts; [exact _|]; first [ apply Now_same | apply GenerateUUID_same ]
    | apply outside_parts; exact _ | leaf ()
    | apply xtransaction_parts; [exact _|]; preserve_with ltac:(fun _ => parts_leaf leaf)
    | apply xwrite_parts; [exact _|]; intros ? ? ?; leaf () ].
Ltac preserve_parts leaf := preserve_with ltac:(fun _ => parts_leaf leaf).
Ltac out_leaf leaf :=
  first
    [ apply xstmt_out; exact _ | apply core_out; exact _
    | apply xtransaction_out; [exact _|]; preserve_with ltac:(fun _ => out_leaf leaf)
    | apply outside_out; intros ?; leaf () | leaf () ].
Ltac preserve_out leaf := preserve_with ltac:(fun _ => out_leaf leaf).
