(* ===== verification/Alerts.v ===== *)
(** * Operational alerts: rules, alerts and their repository

    [internal/alerts/domain/alert.go], the channel providers of
    [internal/alerts/channels] and the repository of
    [internal/alerts/repository/sqlite/alerts_repo.go] over the tables
    [alert_rules], [rule_overrides] and [alerts].  [encoding/json] is used
    through the interface [AlertJson]; a Go map is a [gmap], whose iteration
    order is the parameter [range]. *)
From stdpp Require Import base decidable list strings option gmap pretty.
From Stdlib Require Import ZArith Lia Ascii String.
From S2P Require Import Prelude GoFloat Shared GoMath Geofence InvoiceAggregate Database SideTables GeofenceStore.
Open Scope Z_scope.

(** ** JSON values *)
#[local] Set Warnings "-register-all".
Inductive jv :=
| JNull | JBool (b : bool) | JNum (x : float64) | JStr (s : string)
| JArr (l : list jv) | JObj (m : list (string * jv)).
(** [map[string]interface{}]. *)
Abbreviation object := (gmap string jv).

Definition dquote : string := String "034"%char "".
Definition quoted (s : string) : string := (dquote +:+ s +:+ dquote)%string.

Record EscalationStep := mkStep { AfterSeconds : Z; TargetRole : string; Channel : string }.

(** What the pipeline uses of [encoding/json], and the order in which a map
    is ranged over.  The one law of the encoder that matters to the code is
    that a true member is written as the pair the SQL pattern looks for. *)
Class AlertJson := {
  Marshal : object → option string;
  Unmarshal : string → result (option object);
  UnmarshalSchedule : string → result (list EscalationStep);
  range : ∀ A, gmap string A → list (string * A);
  Marshal_member : ∀ k m s, Marshal m = Some s → m !! k = Some (JBool true) →
    contains s (quoted k +:+ ":true")%string = true;
  range_perm : ∀ A (m : gmap string A), range A m ≡ₚ map_to_list m }.
Arguments range {_ _} _.

Definition get_string (k : string) (m : object) : option string :=
  match m !! k with Some (JStr s) => Some s | _ => None end.
Definition get_float (k : string) (m : object) : option float64 :=
  match m !! k with Some (JNum x) => Some x | _ => None end.
(** [s != ""] among the conditions. *)
Definition nonempty (o : option string) : option string :=
  match o with Some s => if is_empty s then None else Some s | None => None end.
(** [if a, ok := ...; ok {...} else if b, ok := ...]. *)
Definition or_else {A} (a b : option A) : option A := match a with Some _ => a | None => b end.
Definition or_empty (o : option string) : string := match o with Some s => s | None => "" end.

(** ** The domain (domain/alert.go) *)
Definition SeverityInfo : string := "info".
Definition SeverityWarning : string := "warning".
Definition SeverityCritical : string := "critical".
Definition SeverityBlocker : string := "blocker".
Definition StatusOpen : string := "open".
Definition StatusAcknowledged : string := "acknowledged".
Definition StatusResolved : string := "resolved".
Definition StatusEscalated : string := "escalated".
Definition StatusClosed : string := "closed".
Definition SourceTelemetry : string := "telemetry".
Definition SourceCompliance : string := "compliance".
Definition AlertTypeComplianceBlocked : string := "compliance_blocked".

Record Rule := mkRule {
  r_ID : string; r_Source : string; r_AlertType : string; r_Name : string; r_Severity : string;
  r_Threshold : option float64; r_ThresholdUnit : option string; r_DedupKeyExpr : string;
  r_CooldownSeconds : Z; r_StormWindowSeconds : Z; r_StormBatchMin : Z; r_ChannelRouting : string;
  r_EscalationSchedule : option string; r_IsActive : bool; r_CreatedAt : Time; r_UpdatedAt : Time }.

Record RuleOverride := mkOverride {
  o_ID : string; o_RuleID : string; o_EntityID : option string; o_Severity : option string;
  o_Threshold : option float64; o_CooldownSeconds : option Z; o_Channels : option string;
  o_IsActive : bool; o_CreatedAt : Time }.

Record Alert := mkAlert {
  ID : string; RuleID : option string; Source : string; AlertType : string; Severity : string;
  Status : string; DedupKey : string; EntityType : option string; EntityID : option string;
  UserID : option string; Title : string; Message_ : string; Occurrences : Z;
  FirstSeenAt : Time; LastSeenAt : Time; NextEscalationAt : option Time; EscalationStep_ : Z;
  Latitude : option float64; Longitude : option float64; Metadata : string;
  AckedBy : option string; AckedAt : option Time; ResolvedBy : option string;
  ResolvedAt : option Time; CreatedAt : Time; UpdatedAt : Time }.

#[export] Instance spec_float_eq_dec : EqDecision SpecFloat.spec_float.
Proof. solve_decision. Defined.
#[export] Instance float64_eq_dec : EqDecision float64 := spec_float_eq_dec.
#[export] Instance Alert_eq_dec : EqDecision Alert.
Proof. solve_decision. Defined.

(** ** Channels (channels) *)
Record Message := mkMessage {
  m_AlertID : string; m_Title : string; m_Body : string; m_Severity : string; m_UserID : string;
  m_Meta : object }.
Inductive Provider :=
| InAppProvider
| StubProvider (name : string)
| TelegramProvider (bot : bool) (chatID : Z).
Definition Name (p : Provider) : string :=
  match p with InAppProvider => "in_app" | StubProvider n => n | TelegramProvider _ _ => "telegram" end.
(** The text [TelegramProvider.Send] hands to the bot, if it calls it; the
    other providers only log. *)
Definition telegram_text (msg : Message) : string :=
  let et := or_empty (get_string "entity_type" (m_Meta msg)) in
  let eid := or_empty (get_string "entity_id" (m_Meta msg)) in
  let text := ("🚨 *" +:+ m_Severity msg +:+ " Alert: " +:+ m_Title msg +:+ "*" +:+ String "010" "" +:+ m_Body msg)%string in
  if is_empty et && is_empty eid then text
  else (text +:+ String "010" "" +:+ "_Entity: " +:+ et +:+ " " +:+ eid +:+ "_")%string.
Definition Send (p : Provider) (msg : Message) : option (Z * string) :=
  match p with
  | TelegramProvider true chat => if chat =? 0 then None else Some (chat, telegram_text msg)
  | _ => None
  end.
(** A [map[string]channels.Provider]; an entry may be nil. *)
Abbreviation Channels := (gmap string (option Provider)).
Definition NewStubProviders : Channels :=
  <["email" := Some (StubProvider "email")]>
    (<["whatsapp" := Some (StubProvider "whatsapp")]> (<["sms" := Some (StubProvider "sms")]> ∅)).

(** ** The repository (repository/sqlite/alerts_repo.go) *)
Record AlertTables := mkTables {
  alert_rules : list Rule; rule_overrides : list RuleOverride; alerts : list Alert }.
Definition set_alerts (l : list Alert) (x : AlertTables) : AlertTables :=
  mkTables (alert_rules x) (rule_overrides x) l.
(** The calls of [Send], in order. *)
Abbreviation Sent := (list (Provider * Message)).
Abbreviation AM := (XM AlertTables Sent).

Definition status_in (l : list string) (a : Alert) : bool := existsb (String.eqb (Status a)) l.
Definition active_statuses : list string := [StatusOpen; StatusAcknowledged; StatusEscalated].
Definition is_active (a : Alert) : bool := status_in active_statuses a.
Definition pending_statuses : list string := [StatusOpen; StatusEscalated].

(** [UPDATE alerts SET ... WHERE p]. *)
Definition update_alerts (p : Alert → bool) (f : Alert → Alert) (x : AlertTables) : AlertTables :=
  set_alerts ((λ a, if p a then f a else a) <$> alerts x) x.
Definition by_id (id : string) (a : Alert) : bool := String.eqb (ID a) id.

Definition set_seen (t now : Time) (a : Alert) : Alert :=
  mkAlert (ID a) (RuleID a) (Source a) (AlertType a) (Severity a) (Status a) (DedupKey a) (EntityType a)
    (EntityID a) (UserID a) (Title a) (Message_ a) (Occurrences a + 1) (FirstSeenAt a) t
    (NextEscalationAt a) (EscalationStep_ a) (Latitude a) (Longitude a) (Metadata a) (AckedBy a)
    (AckedAt a) (ResolvedBy a) (ResolvedAt a) (CreatedAt a) now.
Definition set_acked (next : option Time) (user : string) (t now : Time) (a : Alert) : Alert :=
  mkAlert (ID a) (RuleID a) (Source a) (AlertType a) (Severity a) StatusAcknowledged (DedupKey a)
    (EntityType a) (EntityID a) (UserID a) (Title a) (Message_ a) (Occurrences a) (FirstSeenAt a)
    (LastSeenAt a) next (EscalationStep_ a) (Latitude a) (Longitude a) (Metadata a) (Some user)
    (Some t) (ResolvedBy a) (ResolvedAt a) (CreatedAt a) now.
Definition set_resolved (user : string) (t now : Time) (a : Alert) : Alert :=
  mkAlert (ID a) (RuleID a) (Source a) (AlertType a) (Severity a) StatusResolved (DedupKey a)
    (EntityType a) (EntityID a) (UserID a) (Title a) (Message_ a) (Occurrences a) (FirstSeenAt a)
    (LastSeenAt a) None (EscalationStep_ a) (Latitude a) (Longitude a) (Metadata a) (AckedBy a)
    (AckedAt a) (Some user) (Some t) (CreatedAt a) now.
Definition set_escalation (step : Z) (next : option Time) (status : string) (now : Time) (a : Alert) : Alert :=
  mkAlert (ID a) (RuleID a) (Source a) (AlertType a) (Severity a) status (DedupKey a) (EntityType a)
    (EntityID a) (UserID a) (Title a) (Message_ a) (Occurrences a) (FirstSeenAt a) (LastSeenAt a)
    next step (Latitude a) (Longitude a) (Metadata a) (AckedBy a) (AckedAt a) (ResolvedBy a)
    (ResolvedAt a) (CreatedAt a) now.
Definition set_metadata (meta : string) (now : Time) (a : Alert) : Alert :=
  mkAlert (ID a) (RuleID a) (Source a) (AlertType a) (Severity a) (Status a) (DedupKey a) (EntityType a)
    (EntityID a) (UserID a) (Title a) (Message_ a) (Occurrences a) (FirstSeenAt a) (LastSeenAt a)
    (NextEscalationAt a) (EscalationStep_ a) (Latitude a) (Longitude a) meta (AckedBy a) (AckedAt a)
    (ResolvedBy a) (ResolvedAt a) (CreatedAt a) now.

(** [ORDER BY last_seen_at DESC]. *)
Definition newest (a b : Alert) : bool := LastSeenAt b <=? LastSeenAt a.
Definition oldest (a b : Alert) : bool := LastSeenAt a <=? LastSeenAt b.
(** [NULL]s do not pass the WHERE clause of the query sorted by it. *)
Definition due_first (a b : Alert) : bool :=
  match NextEscalationAt a, NextEscalationAt b with
  | Some t, Some u => t <=? u
  | None, _ => true
  | _, None => false
  end.
(** [ORDER BY entity_id DESC]: descending, NULLs last. *)
Definition entity_first (a b : RuleOverride) : bool :=
  match o_EntityID a, o_EntityID b with
  | Some s, Some t => String.leb t s
  | Some _, None => true
  | None, o => bool_decide (o = None)
  end.
(** [metadata LIKE '%"flushed":true%']: ASCII letters match in either case. *)
Definition marked_flushed (a : Alert) : bool :=
  contains (ToLower (Metadata a)) (quoted "flushed" +:+ ":true")%string.

(** The queries, on the tables. *)
Definition open_by_key (key : string) (l : list Alert) : option Alert :=
  head (order_by newest (List.filter (λ a, String.eqb (DedupKey a) key && is_active a) l)).
Definition active_rule (source alertType : string) (l : list Rule) : option Rule :=
  List.find (λ r, String.eqb (r_Source r) source && String.eqb (r_AlertType r) alertType && r_IsActive r) l.
Definition override_for (ruleID entityID : string) (l : list RuleOverride) : option RuleOverride :=
  head (order_by entity_first (List.filter (λ o,
    String.eqb (o_RuleID o) ruleID && o_IsActive o &&
    match o_EntityID o with Some e => String.eqb e entityID | None => true end) l)).
Definition due (now : Time) (a : Alert) : bool :=
  status_in pending_statuses a &&
  match NextEscalationAt a with Some t => t <=? now | None => false end.
Definition unflushed (cutoff : Time) (a : Alert) : bool :=
  status_in pending_statuses a && (1 <? Occurrences a) && (LastSeenAt a <=? cutoff) &&
  negb (marked_flushed a).
Definition for_user (userID : string) (a : Alert) : bool :=
  match UserID a with Some u => String.eqb u userID | None => true end.

Section Repository.
Context {env : Env}.

(** [errors.Is(err, sql.ErrNoRows)] turned into nil. *)
Definition row_or_nil {A} (q : AlertTables → option A) : AM (option A) :=
  xquery (λ _ _ x, q x).
Definition FindOpenByDedupKey (key : string) : AM (option Alert) :=
  row_or_nil (λ x, open_by_key key (alerts x)).
Definition GetRule (id : string) : AM (option Rule) :=
  row_or_nil (λ x, List.find (λ r, String.eqb (r_ID r) id) (alert_rules x)).
Definition GetOverrides (ruleID entityID : string) : AM (option RuleOverride) :=
  row_or_nil (λ x, override_for ruleID entityID (rule_overrides x)).
(** The override is looked up for a named entity only, its error dropped. *)
Definition GetActiveRuleForType (source alertType entityID : string) : AM (option Rule * option RuleOverride) :=
  rule ← row_or_nil (λ x, active_rule source alertType (alert_rules x));
  match rule with
  | None => mret (None, None)
  | Some r =>
      if is_empty entityID then mret (Some r, None)
      else o ← SM_try (GetOverrides (r_ID r) entityID);
           mret (Some r, match o with Ok o => o | Fail _ => None end)
  end.
Definition ListRulesBySource (source : string) : AM (list Rule) :=
  xquery (λ _ _ x, List.filter (λ r, String.eqb (r_Source r) source && r_IsActive r) (alert_rules x)).

(** The defaults [CreateAlert] fills in. *)
Definition or_now (now t : Time) : Time := if time_IsZero t then now else t.
Definition with_defaults (now : Time) (a : Alert) : Alert :=
  mkAlert (ID a) (RuleID a) (Source a) (AlertType a) (Severity a)
    (if is_empty (Status a) then StatusOpen else Status a) (DedupKey a) (EntityType a)
    (EntityID a) (UserID a) (Title a) (Message_ a) (if Occurrences a =? 0 then 1 else Occurrences a)
    (or_now now (FirstSeenAt a)) (or_now now (LastSeenAt a)) (NextEscalationAt a) (EscalationStep_ a)
    (Latitude a) (Longitude a) (Metadata a) (AckedBy a) (AckedAt a) (ResolvedBy a) (ResolvedAt a)
    (or_now now (CreatedAt a)) (or_now now (UpdatedAt a)).
Definition insert_alert (a : Alert) (x : AlertTables) : result unit * AlertTables :=
  if existsb (by_id (ID a)) (alerts x) then (Fail (Err "UNIQUE constraint failed: alerts.id"), x)
  else (Ok tt, set_alerts (alerts x ++ [a])%list x).
Definition CreateAlert (a : Alert) : AM unit :=
  now ← core Now;
  xexec (λ _ _ x, insert_alert (with_defaults now a) x).
Definition IncrementOccurrences (id : string) (lastSeen : Time) : AM unit :=
  xwrite (λ now, update_alerts (by_id id) (set_seen lastSeen now)).

Definition Ack (id userID : string) : AM unit :=
  t ← core Now;
  xwrite (λ now, update_alerts (λ a, by_id id a && status_in pending_statuses a)
            (set_acked None userID t now)).
Definition Resolve (id userID : string) : AM unit :=
  t ← core Now;
  xwrite (λ now, update_alerts (λ a, by_id id a && is_active a) (set_resolved userID t now)).
(** The UPDATE keeps [next_escalation_at]. *)
Definition MarkAllRead (userID : string) : AM unit :=
  t ← core Now;
  xwrite (λ now, update_alerts (λ a, String.eqb (Status a) StatusOpen && for_user userID a)
            (λ a, set_acked (NextEscalationAt a) userID t now a)).

Definition ListAlerts (status : string) (limit offset : Z) : AM (list Alert) :=
  xquery (λ _ _ x,
    let l := order_by newest (List.filter (λ a, is_empty status || String.eqb (Status a) status) (alerts x)) in
    if 0 <? limit then take (Z.to_nat limit) (drop (Z.to_nat offset) l) else l).
Definition Recent (userID : string) (limit : Z) : AM (list Alert) :=
  ListAlerts "" (if limit <=? 0 then 5 else limit) 0.
Definition UnreadCount (userID : string) : AM Z :=
  xquery (λ _ _ x, Z.of_nat (List.length (List.filter (λ a, is_active a && for_user userID a) (alerts x)))).
Definition ListPendingEscalations (now : Time) : AM (list Alert) :=
  xquery (λ _ _ x, order_by due_first (List.filter (due now) (alerts x))).
Definition UpdateEscalation (id : string) (nextStep : Z) (nextAt : option Time) (status : string) : AM unit :=
  xwrite (λ now, update_alerts (by_id id) (set_escalation nextStep nextAt status now)).
Definition ListUnflushedStormAlerts (cutoff : Time) : AM (list Alert) :=
  xquery (λ _ _ x, order_by oldest (List.filter (unflushed cutoff) (alerts x))).
Definition UpdateMetadata (id meta : string) : AM unit :=
  xwrite (λ now, update_alerts (by_id id) (set_metadata meta now)).
End Repository.
