(* ===== verification/AlertPipeline.v ===== *)
(** * The alert pipeline: ingestion, SOS, escalation and storm flushing

    [internal/alerts/pipeline/engine.go], [sos.go], [escalator.go] and
    [flusher.go], over the repository of [Alerts.v].  The clock of the four is
    [time.Now]. *)
From stdpp Require Import base decidable list strings option gmap pretty.
From Stdlib Require Import ZArith Lia Ascii String Sorting.Sorted.
From S2P Require Import Prelude GoFloat Shared GoTime GoMath Geofence InvoiceAggregate Database SideTables GeofenceStore.
From S2P Require Import Alerts.
Open Scope Z_scope.

Module Pipeline.
Abbreviation second := Dwell.second.
Abbreviation minute := Dwell.minute.
Abbreviation Sub := Geo.Sub.

(** [time.Duration(n) * time.Second]. *)
Definition Seconds (n : Z) : Z := wrap64 (n * second).
Definition minutes (n : Z) : Z := n * minute.

(** The events of the bus: a type, and a payload given by its JSON. *)
Record BusEvent := mkBusEvent { ev_Type : string; ev_Payload : result jv }.
(** [json.Unmarshal] of a document into a map. *)
Definition as_map (j : jv) : result object :=
  match j with
  | JObj m => Ok (list_to_map (reverse m))
  | JNull => Ok ∅
  | _ => Fail (Err "json: cannot unmarshal into Go value of type map[string]interface {}")
  end.

Record IngestEvent := mkIngest {
  Source : string; AlertType : string; Severity : string; Title : string; Message : string;
  EntityType : string; EntityID : string; UserID : string; Latitude : option float64;
  Longitude : option float64; Metadata : option object }.

(** ** Normalisation *)
Definition payload_map (ev : BusEvent) : result object := ev_Payload ev ≫= as_map.
(** The errors of the two calls dropped: the map stays nil. *)
Definition payload_or_nil (ev : BusEvent) : object :=
  match payload_map ev with Ok m => m | Fail _ => ∅ end.
(** The entity an alert is about: vehicle, trip or driver, whichever is
    named first. *)
Definition entity_of (m : object) : string * string :=
  match nonempty (get_string "vehicle_id" m), nonempty (get_string "trip_id" m),
        nonempty (get_string "driver_id" m) with
  | Some v, _, _ => ("vehicle", v)
  | None, Some t, _ => ("trip", t)
  | None, None, Some d => ("driver", d)
  | None, None, None => ("", "")
  end%string.

Definition normalizeEvent (ev : BusEvent) : result IngestEvent :=
  if String.eqb (ev_Type ev) "AlertEvent" || String.eqb (ev_Type ev) "telemetry.alert" then
    match payload_map ev with
    | Fail e => Fail e
    | Ok m =>
        Ok (mkIngest
          (match nonempty (get_string "source" m) with Some s => s | None => SourceTelemetry end)
          (or_empty (or_else (get_string "alert_type" m) (get_string "type" m)))
          (or_empty (get_string "severity" m)) (or_empty (get_string "title" m))
          (or_empty (or_else (get_string "details" m) (get_string "message" m)))
          (fst (entity_of m)) (snd (entity_of m)) "" (get_float "latitude" m) (get_float "longitude" m) (Some m))
    end
  else if String.eqb (ev_Type ev) "alert.dtc" then
    let m := payload_or_nil ev in
    let id := or_empty (get_string "vehicle_id" m) in
    Ok (mkIngest SourceTelemetry "dtc_fault"
      (match nonempty (get_string "severity" m) with Some s => s | None => SeverityWarning end)
      (match get_string "code" m with Some c => "DTC Fault: " +:+ c | None => "" end)%string
      (match get_string "code" m with
       | Some c => "Diagnostic Trouble Code " +:+ c +:+ " detected on vehicle " +:+ id
       | None => ""
       end)%string
      (match get_string "vehicle_id" m with Some _ => "vehicle" | None => "" end)%string id
      "" None None (Some m))
  else if String.eqb (ev_Type ev) "ComplianceBlocked" then
    let m := payload_or_nil ev in
    Ok (mkIngest SourceCompliance AlertTypeComplianceBlocked SeverityBlocker "Dispatch Compliance Blocked"
      (or_empty (get_string "reason" m)) (or_empty (get_string "entity_type" m))
      (or_empty (get_string "entity_id" m)) "" None None (Some m))
  else Fail (Err ("unsupported event type: " +:+ ev_Type ev)).

(** ** Decisions of [Ingest] *)
Definition severity_of (ev : IngestEvent) (rule : option Rule) (o : option RuleOverride) : string :=
  match nonempty (o ≫= o_Severity) with
  | Some s => s
  | None =>
      if is_empty (Severity ev) then
        match rule with Some r => r_Severity r | None => SeverityWarning end
      else Severity ev
  end.
Definition cooldown_of (rule : option Rule) (o : option RuleOverride) : Z :=
  let base := match rule with Some r => r_CooldownSeconds r | None => 300 end in
  match o ≫= o_CooldownSeconds with Some c => if 0 <? c then c else base | None => base end.
Definition dedup_key (source alertType entityID : string) : string :=
  if is_empty entityID then (source +:+ ":" +:+ alertType +:+ ":global")%string
  else (source +:+ ":" +:+ alertType +:+ ":" +:+ entityID)%string.
Definition ptr (s : string) : option string := if is_empty s then None else Some s.

Section Pipeline.
Context {env : Env} {aj : AlertJson}.
(** The map given to the engine, the escalator and the flusher. *)
Context (channels : Channels).

Definition schedule_of (rule : option Rule) : list EscalationStep :=
  match nonempty (rule ≫= r_EscalationSchedule) with
  | Some s => match UnmarshalSchedule s with Ok l => l | Fail _ => [] end
  | None => []
  end.
Definition first_escalation (now : Time) (rule : option Rule) : option Time :=
  match schedule_of rule with
  | step :: _ => Some (now + Seconds (AfterSeconds step))
  | [] => None
  end.

(** ** Dispatch *)
Definition default_routing : string :=
  ("{" +:+ quoted "in_app" +:+ ":true," +:+ quoted "telegram" +:+ ":[" +:+ quoted "critical" +:+ "," +:+ quoted "blocker"
   +:+ "]}")%string.
Definition routing_of (rule : option Rule) (o : option RuleOverride) : string :=
  match nonempty (o ≫= o_Channels), nonempty (r_ChannelRouting <$> rule) with
  | Some s, _ => s
  | None, Some s => s
  | None, None => default_routing
  end.
Definition routing_map (routing : string) : object :=
  match Unmarshal routing with
  | Ok (Some m) => m
  | Ok None => ∅
  | Fail _ => {[ routing := JBool true ]}
  end.
Definition should_send (cfg : jv) (severity : string) : bool :=
  match cfg with
  | JBool b => b
  | JArr l => existsb (λ v, match v with JStr s => String.eqb s severity | _ => false end) l
  | JStr s => String.eqb s severity || String.eqb s "all" || String.eqb s "true"
  | _ => false
  end.
Definition alert_message (a : Alert) : Alerts.Message :=
  mkMessage (ID a) (Alerts.Title a) (Message_ a) (Alerts.Severity a) (or_empty (Alerts.UserID a))
    (list_to_map [("alert_type", JStr (Alerts.AlertType a)); ("source", JStr (Alerts.Source a));
                  ("entity_type", JStr (or_empty (Alerts.EntityType a)));
                  ("entity_id", JStr (or_empty (Alerts.EntityID a)))]%string).
(** A call of [Send]; its error is only logged. *)
Definition send (p : Provider) (msg : Alerts.Message) : AM unit :=
  outside (λ sent, (sent ++ [(p, msg)])%list).
Definition provider_of (name : string) : option Provider := mjoin (channels !! name).
Definition send_to (name : string) (msg : Alerts.Message) : AM unit :=
  match provider_of name with Some p => send p msg | None => mret tt end.
Definition dispatchToChannels (a : Alert) (rule : option Rule) (o : option RuleOverride) : AM unit :=
  SM_iter (λ e, if should_send (snd e) (Alerts.Severity a) then send_to (fst e) (alert_message a) else mret tt)
    (range (routing_map (routing_of rule o))).

(** ** Ingestion *)
Definition new_alert (id : string) (now : Time) (ev : IngestEvent) (source : string)
    (rule : option Rule) (o : option RuleOverride) : Alert :=
  let title := if is_empty (Title ev) then
                 match rule with Some r => r_Name r | None => ("Alert: " +:+ AlertType ev)%string end
               else Title ev in
  mkAlert id (r_ID <$> rule) source (AlertType ev) (severity_of ev rule o) StatusOpen
    (dedup_key source (AlertType ev) (EntityID ev)) (ptr (EntityType ev)) (ptr (EntityID ev))
    (ptr (UserID ev)) title (if is_empty (Message ev) then title else Message ev) 1 now now
    (first_escalation now rule) 0 (Latitude ev) (Longitude ev)
    (match Metadata ev ≫= Marshal with Some s => s | None => "{}" end)
    None None None None now now.

(** [err] of the two lookups is only logged. *)
Definition Ingest (ev : IngestEvent) : AM unit :=
  now ← core Now;
  let source := if is_empty (Source ev) then SourceTelemetry else Source ev in
  looked ← SM_try (GetActiveRuleForType source (AlertType ev) (EntityID ev));
  let (rule, o) := match looked with Ok p => p | Fail _ => (None, None) end in
  found ← SM_try (FindOpenByDedupKey (dedup_key source (AlertType ev) (EntityID ev)));
  let existing := match found with Ok a => a | Fail _ => None end in
  match existing with
  | Some a =>
      if Sub now (LastSeenAt a) <? Seconds (cooldown_of rule o) then IncrementOccurrences (ID a) now
      else id ← core GenerateUUID;
           let alert := new_alert id now ev source rule o in
           _ ← CreateAlert alert; dispatchToChannels alert rule o
  | None =>
      id ← core GenerateUUID;
      let alert := new_alert id now ev source rule o in
      _ ← CreateAlert alert; dispatchToChannels alert rule o
  end.

(** ** SOS (sos.go) *)
Definition sos_string (k1 k2 : string) (m : object) : string :=
  or_empty (or_else (nonempty (get_string k1 m)) (get_string k2 m)).
Definition sos_float (k1 k2 : string) (m : object) : option float64 :=
  or_else (get_float k1 m) (get_float k2 m).
Definition sos_alert (id : string) (now : Time) (m : object) : Alert :=
  let vehicleID := sos_string "VehicleID" "vehicle_id" m in
  let driverID := sos_string "DriverID" "driver_id" m in
  let lat := sos_float "Latitude" "latitude" m in
  let lng := sos_float "Longitude" "longitude" m in
  let '(latStr, lngStr) := match lat, lng with
                           | Some x, Some y => (FormatFloat6 x, FormatFloat6 y)
                           | _, _ => ("unknown", "unknown")%string
                           end in
  mkAlert id None "sos" "sos" SeverityBlocker StatusOpen ("sos:" +:+ vehicleID) (Some "vehicle"%string)
    (Some vehicleID) None ("🚨 SOS — Emergency from vehicle " +:+ vehicleID)
    ("SOS triggered at (" +:+ latStr +:+ ", " +:+ lngStr +:+ "). Driver: " +:+ driverID +:+ ". Immediate response required.")%string
    1 now now (Some (now + minutes 10)) 0 lat lng "" None None None None now 0.
Definition sos_message (a : Alert) (m : object) : Alerts.Message :=
  mkMessage (ID a) (Alerts.Title a) (Message_ a) SeverityBlocker ""
    (list_to_map [("alert_type", JStr (Alerts.AlertType a)); ("source", JStr (Alerts.Source a));
                  ("entity_type", JStr "vehicle");
                  ("entity_id", JStr (sos_string "VehicleID" "vehicle_id" m));
                  ("driver_id", JStr (sos_string "DriverID" "driver_id" m))]%string).
(** A payload that is no object, or [null], is dropped. *)
Definition sos_payload (ev : BusEvent) : option object :=
  match ev_Payload ev with Ok (JObj m) => Some (list_to_map (reverse m)) | _ => None end.
Definition HandleSOS (ev : BusEvent) : AM unit :=
  match sos_payload ev with
  | None => mret tt
  | Some m =>
      now ← core Now;
      found ← SM_try (FindOpenByDedupKey ("sos:" +:+ sos_string "VehicleID" "vehicle_id" m));
      let create :=
        id ← core GenerateUUID;
        let alert := sos_alert id now m in
        _ ← CreateAlert alert;
        _ ← send_to "in_app" (sos_message alert m);
        send_to "telegram" (sos_message alert m) in
      match found with
      | Ok (Some a) =>
          if Sub now (LastSeenAt a) <? 60 * second then SM_ignore (IncrementOccurrences (ID a) now)
          else create
      | _ => create
      end
  end.

Definition ProcessEvent (ev : BusEvent) : AM unit :=
  if String.eqb (ev_Type ev) "SOSEvent" || String.eqb (ev_Type ev) "telemetry.sos" then HandleSOS ev
  else match normalizeEvent ev with Ok i => Ingest i | Fail _ => mret tt end.

(** ** Escalation (escalator.go) *)
Definition escalation_message (a : Alert) (step : EscalationStep) : Alerts.Message :=
  mkMessage (ID a)
    ("[Escalation Step " +:+ pretty (EscalationStep_ a + 1)%Z +:+ "] " +:+ Alerts.Title a)%string
    ("Alert unresolved for role " +:+ TargetRole step +:+ ": " +:+ Message_ a)%string (Alerts.Severity a) ""
    (list_to_map [("escalation_step", JNum (f64_of_Z (EscalationStep_ a + 1)%Z));
                  ("target_role", JStr (TargetRole step))]%string).
Definition next_escalation (now : Time) (schedule : list EscalationStep) (next : nat) : option Time :=
  (λ s, now + Seconds (AfterSeconds s)) <$> schedule !! next.
(** [schedule[a.EscalationStep]]: the step is never negative; a negative one
    would panic. *)
Definition escalate_one (now : Time) (a : Alert) : AM unit :=
  match RuleID a with
  | None => mret tt
  | Some ruleID =>
      rule ← SM_try (GetRule ruleID);
      let schedule := match rule with Ok r => schedule_of r | Fail _ => [] end in
      match schedule !! Z.to_nat (EscalationStep_ a) with
      | None => mret tt
      | Some step =>
          _ ← send_to (Channel step) (escalation_message a step);
          SM_ignore (UpdateEscalation (ID a) (EscalationStep_ a + 1)
            (next_escalation now schedule (Datatypes.S (Z.to_nat (EscalationStep_ a)))) StatusEscalated)
      end
  end.
Definition Tick : AM unit :=
  now ← core Now;
  pending ← ListPendingEscalations now;
  SM_iter (escalate_one now) pending.

(** ** Storms (flusher.go) *)
Definition storm_message (a : Alert) (meta : object) : Alerts.Message :=
  mkMessage (ID a) ("⚠️ Storm: " +:+ Alerts.Title a)
    (Alerts.Title a +:+ " occurred " +:+ pretty (Occurrences a) +:+ " times since " +:+ FormatRFC3339 (FirstSeenAt a))%string
    (Alerts.Severity a) "" meta.
Definition meta_of (a : Alert) : object :=
  if is_empty (Alerts.Metadata a) then ∅
  else match Unmarshal (Alerts.Metadata a) with Ok (Some m) => m | _ => ∅ end.
Definition flushed_meta (a : Alert) (meta : object) : object :=
  <["flushed_occurrences" := JNum (f64_of_Z (Occurrences a))]> (<["flushed" := JBool true]> meta).
Definition flush_one (a : Alert) : AM unit :=
  let meta := meta_of a in
  match meta !! "flushed"%string with
  | Some (JBool true) => mret tt
  | _ =>
      _ ← SM_iter (λ e, match snd e with Some p => send p (storm_message a meta) | None => mret tt end)
            (range channels);
      SM_ignore (UpdateMetadata (ID a)
        (match Marshal (flushed_meta a meta) with Some s => s | None => "" end))
  end.
Definition Flush (stormWindowSec : Z) : AM unit :=
  now ← core Now;
  batch ← ListUnflushedStormAlerts (now + Seconds (- stormWindowSec));
  SM_iter flush_one batch.
End Pipeline.
(** ** What the writes do to the rows *)
Section Escalation.
Context {env : Env} {aj : AlertJson} (channels : Channels).

Definition rule_of (rules : list Rule) (a : Alert) : option Rule :=
  RuleID a ≫= λ id, List.find (λ r, String.eqb (r_ID r) id) rules.
(** The step that is due, and when the one after it will be. *)
Definition due_step (rules : list Rule) (a : Alert) : option EscalationStep :=
  schedule_of (rule_of rules a) !! Z.to_nat (EscalationStep_ a).
Definition after_step (now : Time) (rules : list Rule) (a : Alert) : option Time :=
  next_escalation now (schedule_of (rule_of rules a)) (Datatypes.S (Z.to_nat (EscalationStep_ a))).
(** The reference: one step of the escalation of one alert. *)
Definition escalates (now : Time) (rules : list Rule) (a a' : Alert) : Prop :=
  match due_step rules a with
  | Some _ => ∃ u, a' = set_escalation (EscalationStep_ a + 1) (after_step now rules a) StatusEscalated u a
  | None => a' = a
  end.
Definition messages_of (rules : list Rule) (a : Alert) : Sent :=
  match due_step rules a with
  | Some st => match provider_of channels (Channel st) with Some p => [(p, escalation_message a st)] | None => [] end
  | None => []
  end.

Lemma send_to_run name msg s :
  send_to channels name msg s =
    (Ok tt, (s_world s, s_tables s,
       (s_out s ++ match provider_of channels name with Some p => [(p, msg)] | None => [] end)%list)).
Proof.
  unfold send_to. destruct (provider_of channels name) as [p|]; destruct s as [[w x] o]; cbn; [done|].
  by rewrite app_nil_r.
Qed.

Lemma escalate_one_run now a s :
  healthy → ∃ w u,
    escalate_one channels now a s =
      (Ok tt, (w, match due_step (alert_rules (s_tables s)) a with
                  | Some _ => update_alerts (by_id (ID a)) (set_escalation (EscalationStep_ a + 1)
                      (after_step now (alert_rules (s_tables s)) a) StatusEscalated u) (s_tables s)
                  | None => s_tables s
                  end, (s_out s ++ messages_of (alert_rules (s_tables s)) a)%list)).
Proof.
  intros Hh. unfold escalate_one, due_step, messages_of, after_step, due_step, rule_of.
  destruct (RuleID a) as [id|]; cbn [mbind option_bind].
  2: { destruct s as [[w x] o]. exists w, 0. cbn. by rewrite app_nil_r. }
  unfold GetRule, row_or_nil. cbv [mbind SM_mbind SM_bind SM_try]. rewrite xquery_run by done.
  cbn [s_tables s_set fst snd]. change (s_tables s) with (snd (fst s)).
  destruct (schedule_of _ !! _) as [st|].
  - rewrite send_to_run. cbv [SM_ignore UpdateEscalation]. rewrite xwrite_run by done. by eexists _, _.
  - exists (tick_stmts (s_world s)), 0. by rewrite app_nil_r.
Qed.

Lemma update_rules p f x : alert_rules (update_alerts p f x) = alert_rules x.
Proof. done. Qed.
Lemma update_id id f (l : list Alert) a :
  (∀ a, ID (f a) = ID a) → ID (if by_id id a then f a else a) = ID a.
Proof. intros Hf. by destruct (by_id id a). Qed.
Lemma update_ids p f x :
  (∀ a, ID (f a) = ID a) → (ID <$> alerts (update_alerts p f x)) = (ID <$> alerts x).
Proof. intros Hf. cbn. rewrite <- list_fmap_compose. apply list_fmap_ext. intros i a _. cbn. by destruct (p a). Qed.

(** The rows of a list of alerts escalate, the others stay. *)
Definition escalates_in (now : Time) (rules : list Rule) (l : list Alert) (a a' : Alert) : Prop :=
  (a ∈ l ∧ escalates now rules a a') ∨ ((a ∉ l) ∧ a' = a).

Lemma same_row (l : list Alert) a b : NoDup (ID <$> l) → a ∈ l → b ∈ l → ID a = ID b → a = b.
Proof.
  intros Hnd [i Hi]%list_elem_of_lookup [j Hj]%list_elem_of_lookup Hid.
  assert (i = j) as ->; [|congruence].
  eapply (NoDup_lookup (ID <$> l)); [done|by rewrite list_lookup_fmap, Hi|by rewrite list_lookup_fmap, Hj; cbn; congruence].
Qed.

(** One row by its id. *)
Lemma escalate_row now rules x a l u :
  NoDup (ID <$> (alerts x)) → a ∈ alerts x → NoDup (ID <$> (a :: l)) →
  let x1 := match due_step rules a with
            | Some _ => update_alerts (by_id (ID a)) (set_escalation (EscalationStep_ a + 1)
                          (after_step now rules a) StatusEscalated u) x
            | None => x
            end in
  (ID <$> alerts x1) = (ID <$> alerts x) ∧ alert_rules x1 = alert_rules x ∧
  (∀ b, b ∈ l → b ∈ alerts x → b ∈ alerts x1) ∧
  ∀ l', Forall2 (escalates_in now rules l) (alerts x1) l' →
        Forall2 (escalates_in now rules (a :: l)) (alerts x) l'.
Proof.
  intros Hnd Ha Hl x1. cbn in Hl. apply NoDup_cons in Hl as [Hal Hl].
  assert (Hfresh : ∀ b, ID b = ID a → b ∉ l).
  { intros b Hb Hin. apply Hal. rewrite <- Hb. by apply (list_elem_of_fmap_2 ID). }
  subst x1. destruct (due_step rules a) as [st|] eqn:Hd.
  - split_and!; [by rewrite update_ids|done| |].
    + intros b Hb Hx. cbn. apply (list_elem_of_fmap_2' _ _ b); [done|].
      unfold by_id. destruct (String.eqb_spec (ID b) (ID a)); [|done]. by destruct (Hfresh b).
    + cbn. intros l' H. rewrite Forall2_fmap_l in H. apply Forall2_same_length_lookup_2.
      { exact (Forall2_length _ _ _ H). }
      intros i b b' Hb Hb'. apply (Forall2_lookup_lr _ _ _ _ _ _ H Hb) in Hb'. unfold by_id, compose in Hb'.
      destruct (String.eqb_spec (ID b) (ID a)) as [Heq|Hne].
      * assert (b = a) as -> by (apply (same_row (alerts x)); [done|by apply list_elem_of_lookup_2 in Hb|done|done]).
        left. split; [apply list_elem_of_here|]. unfold escalates. rewrite Hd. exists u.
        destruct Hb' as [[Hin _]|[_ ->]]; [|done]. by apply Hfresh in Hin.
      * destruct Hb' as [[Hin He]|[Hin ->]]; [left; split; [by apply list_elem_of_further|done]|].
        right. split; [|done]. intros [->|]%elem_of_cons; done.
  - split_and!; [done..|]. intros l' H. eapply Forall2_impl; [exact H|].
    intros b b' [[Hin He]|[Hin ->]]; [left; split; [by apply list_elem_of_further|done]|].
    destruct (decide (b = a)) as [->|Hne].
    + left. split; [apply list_elem_of_here|]. unfold escalates. by rewrite Hd.
    + right. split; [|done]. intros [->|]%elem_of_cons; done.
Qed.

Lemma escalate_run now l s :
  healthy → NoDup (ID <$> (alerts (s_tables s))) → NoDup (ID <$> l) →
  (∀ a, a ∈ l → a ∈ alerts (s_tables s)) →
  ∃ w x, SM_iter (escalate_one channels now) l s =
           (Ok tt, (w, x, (s_out s ++ mjoin (messages_of (alert_rules (s_tables s)) <$> l))%list)) ∧
    alert_rules x = alert_rules (s_tables s) ∧ rule_overrides x = rule_overrides (s_tables s) ∧
    Forall2 (escalates_in now (alert_rules (s_tables s)) l) (alerts (s_tables s)) (alerts x).
Proof.
  intros Hh. revert s. induction l as [|a l IH]; intros s Hnd Hl Hin.
  { destruct s as [[w x] o]. exists w, x. cbn. rewrite app_nil_r. split_and!; try done.
    apply Forall2_same_length_lookup_2; [done|]. intros i b b' Hb Hb'. right. split; [apply not_elem_of_nil|congruence]. }
  destruct (escalate_one_run now a s Hh) as (w & u & Hrun).
  pose proof (escalate_row now (alert_rules (s_tables s)) (s_tables s) a l u Hnd (Hin a (list_elem_of_here _ _)) Hl) as Hrow.
  cbv zeta in Hrow. erewrite iter_ok by exact Hrun.
  set (x1 := match due_step _ a with Some _ => _ | None => _ end) in *.
  destruct Hrow as (Hid & Hr & Hkeep & Hf2).
  assert (Ho : rule_overrides x1 = rule_overrides (s_tables s)) by (subst x1; by destruct (due_step _ a)).
  destruct (IH (w, x1, (s_out s ++ messages_of (alert_rules (s_tables s)) a)%list)) as (w' & x' & Hrun' & Hr' & Ho' & Hf').
  { change (NoDup (ID <$> alerts x1)). by rewrite Hid. }
  { by apply NoDup_cons in Hl as [_ Hl]. }
  { intros b Hb. apply Hkeep; [done|]. apply Hin. by right. }
  cbn in *. rewrite Hr in *. exists w', x'. rewrite Hrun'. split_and!; [|congruence|congruence|by apply Hf2].
  cbn. by rewrite <- app_assoc.
Qed.
End Escalation.
(** ** Escalation, as a whole *)
Section Ticks.
Context {env : Env} {aj : AlertJson} (channels : Channels).

Definition tick_row (now : Time) (rules : list Rule) (a a' : Alert) : Prop :=
  if due now a then escalates now rules a a' else a' = a.

Lemma pending_rows now (l : list Alert) a : a ∈ order_by due_first (List.filter (due now) l) ↔ a ∈ l ∧ due now a = true.
Proof. rewrite order_by_in, !list_elem_of_In. apply filter_In. Qed.
Lemma sublist_filter {A} (f : A → bool) (l : list A) : sublist (List.filter f l) l.
Proof. induction l as [|x l IH]; cbn; [done|]. destruct (f x); by constructor. Qed.
Lemma pending_ids now (l : list Alert) :
  NoDup (ID <$> l) → NoDup (ID <$> order_by due_first (List.filter (due now) l)).
Proof.
  intros H. rewrite order_by_perm. eapply sublist_NoDup; [exact H|]. apply fmap_sublist, sublist_filter.
Qed.

Lemma tick_run s :
  healthy → NoDup (ID <$> alerts (s_tables s)) →
  let now := clock_now (w_clock (s_world s)) in
  let rules := alert_rules (s_tables s) in
  ∃ s', Tick channels s = (Ok tt, s') ∧
    alert_rules (s_tables s') = rules ∧ rule_overrides (s_tables s') = rule_overrides (s_tables s) ∧
    Forall2 (tick_row now rules) (alerts (s_tables s)) (alerts (s_tables s')) ∧
    s_out s' = (s_out s ++ mjoin (messages_of channels rules <$>
                  order_by due_first (List.filter (due now) (alerts (s_tables s)))))%list.
Proof.
  intros Hh Hnd now rules. subst now rules. destruct s as [[w x] o]. cbn in Hnd |- *.
  set (now := clock_now (w_clock w)).
  unfold Tick, ListPendingEscalations. cbv [mbind SM_mbind SM_bind core Now]. rewrite xquery_run by done.
  cbn [s_world s_tables s_out s_set fst snd]. cbv [s_out s_tables snd fst].
  edestruct (escalate_run channels now) with (s := (tick_stmts (tick_clock w), x, o))
    as (w' & x' & Hrun & Hr & Ho & Hf); [done|exact Hnd|by apply pending_ids| |].
  { intros a Ha. by apply pending_rows in Ha as [Ha _]. }
  cbn in Hrun, Hr, Ho, Hf. exists (w', x', (o ++ mjoin (messages_of channels (alert_rules x) <$>
     order_by due_first (List.filter (due now) (alerts x))))%list).
  split_and!; [exact Hrun|exact Hr|exact Ho| |done].
  cbn. apply Forall2_same_length_lookup_2; [exact (Forall2_length _ _ _ Hf)|].
  intros i a a' Ha Ha'. apply (Forall2_lookup_lr _ _ _ _ _ _ Hf Ha) in Ha'. unfold tick_row.
  apply list_elem_of_lookup_2 in Ha. destruct Ha' as [[Hin He]|[Hin ->]].
  - apply pending_rows in Hin as [_ Hd]. unfold now in *. by rewrite Hd.
  - destruct (due now a) eqn:Hd; [|done]. destruct Hin. by apply pending_rows.
Qed.

(** C20: on a healthy database a tick of the escalator is one step of the
    escalation of every alert that is due, and of no other: the step its
    schedule has for it is announced on its channel, the alert counts it and
    waits for the next one, if any; an alert without a rule, or past its
    schedule, stays as it is. *)
Theorem tick_refines s r s' :
  healthy → NoDup (ID <$> alerts (s_tables s)) → Tick channels s = (r, s') →
  let now := clock_now (w_clock (s_world s)) in
  let rules := alert_rules (s_tables s) in
  r = Ok tt ∧
  Forall2 (tick_row now rules) (alerts (s_tables s)) (alerts (s_tables s')) ∧
  s_out s' = (s_out s ++ mjoin (messages_of channels rules <$>
                order_by due_first (List.filter (due now) (alerts (s_tables s)))))%list.
Proof.
  intros Hh Hnd H. destruct (tick_run s Hh Hnd) as (s1 & Hrun & _ & _ & Hf & Ho).
  rewrite H in Hrun. injection Hrun as -> ->. by split_and!.
Qed.

(** ** The steps an alert has left *)
Definition remaining (rules : list Rule) (a : Alert) : nat :=
  (Datatypes.length (schedule_of (rule_of rules a)) - Z.to_nat (EscalationStep_ a))%nat.
Definition budget (x : AlertTables) : nat := sum_list (remaining (alert_rules x) <$> alerts x).

Lemma messages_le rules a : (Datatypes.length (messages_of channels rules a) <= remaining rules a)%nat.
Proof.
  unfold messages_of, due_step, remaining. destruct (schedule_of _ !! _) as [st|] eqn:E; [|cbn; lia].
  apply lookup_lt_Some in E. destruct (provider_of _ _); cbn; lia.
Qed.
Lemma tick_row_pays now rules a a' :
  0 <= EscalationStep_ a → tick_row now rules a a' →
  ((if due now a then Datatypes.length (messages_of channels rules a) else 0%nat) + remaining rules a' <= remaining rules a)%nat ∧
  ID a' = ID a ∧ 0 <= EscalationStep_ a'.
Proof.
  intros Hpos. unfold tick_row, escalates, messages_of, due_step.
  destruct (due now a); [|intros ->; split_and!; cbn; [lia|done|lia]].
  destruct (schedule_of _ !! _) as [st|] eqn:E; [|intros ->; split_and!; cbn; [lia|done|lia]].
  intros [u ->]. apply lookup_lt_Some in E. split; [|split; [done|cbn; lia]].
  unfold remaining. change (rule_of rules (set_escalation _ _ _ _ a)) with (rule_of rules a).
  cbn [EscalationStep_ set_escalation]. rewrite Z2Nat.inj_add by lia.
  destruct (provider_of _ _); cbn [Datatypes.length]; lia.
Qed.
Lemma tick_rows_pay now rules l l' :
  Forall (λ a, 0 <= EscalationStep_ a) l → Forall2 (tick_row now rules) l l' →
  (Datatypes.length (mjoin (messages_of channels rules <$> List.filter (due now) l)) + sum_list (remaining rules <$> l')
     <= sum_list (remaining rules <$> l))%nat ∧
  ID <$> l' = ID <$> l ∧ Forall (λ a, 0 <= EscalationStep_ a) l'.
Proof.
  intros Hp Hf. induction Hf as [|a a' l l' Ha Hf IH]; [cbn; split_and!; [lia|done|constructor]|].
  apply Forall_cons in Hp as [Hp Hps]. destruct (IH Hps) as (IH1 & IH2 & IH3).
  destruct (tick_row_pays now rules a a' Hp Ha) as (H1 & H2 & H3).
  cbn [List.filter]. split_and!.
  - assert (Hs : ∀ k, sum_list (remaining rules <$> a :: k) = (remaining rules a + sum_list (remaining rules <$> k))%nat) by done.
    assert (Hs' : ∀ k, sum_list (remaining rules <$> a' :: k) = (remaining rules a' + sum_list (remaining rules <$> k))%nat) by done.
    rewrite Hs, Hs'. revert H1. destruct (due now a); intros H1; cbv iota in H1; [|lia].
    change (mjoin (messages_of channels rules <$> a :: List.filter (due now) l)) with
      (messages_of channels rules a ++ mjoin (messages_of channels rules <$> List.filter (due now) l))%list.
    rewrite length_app. lia.
  - cbn. by rewrite H2, IH2.
  - by constructor.
Qed.

(** Ticks of the escalator, and users reading and resolving alerts. *)
Inductive watch := WTick | WAck (id user : string) | WResolve (id user : string) | WReadAll (user : string).
Definition watch_step (o : watch) : AM unit :=
  match o with
  | WTick => Tick channels
  | WAck id u => Ack id u
  | WResolve id u => Resolve id u
  | WReadAll u => MarkAllRead u
  end.
(** The error of a request or of a tick stops nothing that follows. *)
Definition watched (l : list watch) : AM unit := SM_iter (λ o, SM_ignore (watch_step o)) l.

Definition wf_rows (x : AlertTables) : Prop :=
  NoDup (ID <$> alerts x) ∧ Forall (λ a, 0 <= EscalationStep_ a) (alerts x).
Lemma update_keeps p f x :
  (∀ a, ID (f a) = ID a ∧ RuleID (f a) = RuleID a ∧ EscalationStep_ (f a) = EscalationStep_ a) →
  wf_rows x → wf_rows (update_alerts p f x) ∧ budget (update_alerts p f x) = budget x.
Proof.
  intros Hf [Hnd Hp]. split; [split|].
  - rewrite update_ids; [done|]. intros a. apply Hf.
  - cbn. apply Forall_fmap. eapply Forall_impl; [exact Hp|]. intros a. cbn.
    destruct (p a); [|done]. by destruct (Hf a) as (_ & _ & ->).
  - unfold budget. cbn. rewrite <- list_fmap_compose. f_equal. apply list_fmap_ext.
    intros i a _. cbn. destruct (p a); [|done]. unfold remaining, rule_of.
    by destruct (Hf a) as (_ & -> & ->).
Qed.
Lemma escalated_budget x a st na u :
  wf_rows x → a ∈ alerts x → due_step (alert_rules x) a = Some st →
  let x' := update_alerts (by_id (ID a)) (set_escalation (EscalationStep_ a + 1) na StatusEscalated u) x in
  wf_rows x' ∧ (budget x' + 1 <= budget x)%nat.
Proof.
  intros [Hnd Hp] Ha Hd x'. unfold due_step in Hd. apply lookup_lt_Some in Hd.
  assert (Hpos : 0 <= EscalationStep_ a) by exact (proj1 (Forall_forall _ _) Hp a Ha).
  assert (Hids : (ID <$> alerts x') = (ID <$> alerts x)) by (by apply update_ids).
  split; [split; [by rewrite Hids|]|].
  - apply Forall_fmap. eapply Forall_impl; [exact Hp|]. intros b Hb. cbn. destruct (by_id _ b); [cbn; lia|done].
  - unfold budget. change (alert_rules x') with (alert_rules x). unfold x'.
    change (alerts (update_alerts ?p ?f x)) with ((λ b, if p b then f b else b) <$> alerts x).
    apply list_elem_of_split in Ha as (l1 & l2 & E). rewrite E in *.
    rewrite fmap_app, fmap_cons in Hnd. apply NoDup_app in Hnd as (_ & H1 & H2).
    apply NoDup_cons in H2 as [H2 _].
    assert (Hsame : ∀ l : list Alert, ID a ∉ (ID <$> l) →
      ((λ b, if by_id (ID a) b then set_escalation (EscalationStep_ a + 1) na StatusEscalated u b else b) <$> l) = l).
    { intros l Hl. rewrite <- (list_fmap_id l) at 2. apply list_fmap_ext. intros k b Hb. unfold by_id.
      destruct (String.eqb_spec (ID b) (ID a)) as [Hab|]; [|done]. destruct Hl. rewrite <- Hab.
      apply list_elem_of_fmap_2. by eapply list_elem_of_lookup_2. }
    rewrite fmap_app, fmap_cons, !Hsame; [|done|intros Hin; apply (H1 _ Hin); left].
    unfold by_id. rewrite String.eqb_refl, !fmap_app, !fmap_cons, !sum_list_with_app. cbn [sum_list_with].
    assert (Hr : (remaining (alert_rules x) (set_escalation (EscalationStep_ a + 1) na StatusEscalated u a)
                 + 1 = remaining (alert_rules x) a)%nat).
    { unfold remaining. change (rule_of _ (set_escalation _ _ _ _ a)) with (rule_of (alert_rules x) a).
      cbn [EscalationStep_ set_escalation]. rewrite Z2Nat.inj_add by lia. lia. }
    unfold id. lia.
Qed.

(** The statements that failed between two states. *)
Definition failed (s s' : World * AlertTables * Sent) : nat :=
  Datatypes.length (List.filter (λ n, bool_decide (is_Some (stmt_fault n)))
    (seq (w_stmts (s_world s)) (w_stmts (s_world s') - w_stmts (s_world s)))).
(** Each message uses up a step of a schedule or goes with a failed statement. *)
Definition pays (s s' : World * AlertTables * Sent) : Prop :=
  wf_rows (s_tables s) →
  wf_rows (s_tables s') ∧ (w_stmts (s_world s) <= w_stmts (s_world s'))%nat ∧
  (Datatypes.length (s_out s') + budget (s_tables s') <=
   Datatypes.length (s_out s) + budget (s_tables s) + failed s s')%nat.
Lemma failed_trans s1 s2 s3 :
  (w_stmts (s_world s1) <= w_stmts (s_world s2))%nat → (w_stmts (s_world s2) <= w_stmts (s_world s3))%nat →
  failed s1 s3 = (failed s1 s2 + failed s2 s3)%nat.
Proof.
  intros H1 H2. unfold failed.
  replace (w_stmts (s_world s3) - w_stmts (s_world s1))%nat with
    ((w_stmts (s_world s2) - w_stmts (s_world s1)) + (w_stmts (s_world s3) - w_stmts (s_world s2)))%nat by lia.
  rewrite seq_app, List.filter_app, length_app. repeat f_equal. lia.
Qed.
#[local] Instance pays_preorder : PreOrder pays.
Proof.
  split; [intros s Hwf; split_and!; [done|lia|lia]|]. intros s1 s2 s3 H1 H2 Hwf.
  destruct (H1 Hwf) as (Hwf2 & A1 & B1). destruct (H2 Hwf2) as (Hwf3 & A2 & B2).
  split_and!; [done|lia|]. rewrite (failed_trans s1 s2 s3) by done. lia.
Qed.

(** A statement is counted, and counted as failed when it failed. *)
Lemma xstmt_counted {A} (q : Time → DB → AlertTables → result A * AlertTables) s r s' :
  xstmt q s = (r, s') →
  w_stmts (s_world s') = Datatypes.S (w_stmts (s_world s)) ∧
  failed s s' = (if bool_decide (is_Some (stmt_fault (w_stmts (s_world s)))) then 1 else 0)%nat.
Proof.
  intros H. assert (Hs : w_stmts (s_world s') = Datatypes.S (w_stmts (s_world s))).
  { unfold xstmt in H. destruct (stmt_fault _); [by injection H as _ <-|]. by destruct (q _ _ _) as [[] x]; injection H as _ <-. }
  split; [done|]. unfold failed. rewrite Hs, Nat.sub_succ_l, Nat.sub_diag by lia. cbn.
  by destruct (bool_decide _).
Qed.
Lemma xwrite_pays f :
  (∀ now x, wf_rows x → wf_rows (f now x) ∧ budget (f now x) = budget x) → preserves pays (xwrite f : AM unit).
Proof.
  intros Hf s. destruct (xwrite f s) as [r s'] eqn:H. cbn [snd].
  pose proof (xstmt_counted _ _ _ _ H) as [Hc _]. apply xwrite_inv in H as (_ & Ho & Hx).
  intros Hwf. rewrite Ho, Hx. destruct (is_Ok r); [|split_and!; [done|lia|lia]].
  destruct (Hf (db_now (w_stmts (s_world s))) _ Hwf) as [H1 H2]. rewrite H2. split_and!; [done|lia|lia].
Qed.
Lemma xquery_pays {A} (q : Time → DB → AlertTables → A) : preserves pays (xquery q : AM A).
Proof.
  intros s. destruct (xquery q s) as [r s'] eqn:H. cbn [snd].
  pose proof (xstmt_counted _ _ _ _ H) as [Hc _]. apply xquery_inv in H as (_ & Ho & Hx & _).
  intros Hwf. rewrite Ho, Hx. split_and!; [done|lia|lia].
Qed.
Lemma Now_pays : preserves pays (core Now : AM Time).
Proof. intros [[w x] o] Hwf. cbn in *. split_and!; [done|lia|]. unfold failed. cbn. lia. Qed.

(** The escalation of one alert as its row has it. *)
Lemma escalate_pays now a l s :
  wf_rows (s_tables s) → a ∈ alerts (s_tables s) → NoDup (ID <$> (a :: l)) →
  (∀ b, b ∈ l → b ∈ alerts (s_tables s)) →
  let s' := snd (escalate_one channels now a s) in
  pays s s' ∧ ∀ b, b ∈ l → b ∈ alerts (s_tables s').
Proof.
  intros Hwf Ha Hl Hin s'. subst s'. unfold escalate_one.
  destruct (RuleID a) as [id|] eqn:Er; [|split; [reflexivity|done]].
  cbv [mbind SM_mbind SM_bind SM_try]. destruct (GetRule id s) as [rr s1] eqn:Hg.
  pose proof (xquery_pays _ s : pays s (snd (GetRule id s))) as Hp. rewrite Hg in Hp. cbn [snd] in Hp.
  apply xquery_inv in Hg as (_ & Ho & Hx & Hr).
  destruct (match rr with Ok r => schedule_of r | Fail _ => [] end !! _) as [st|] eqn:Est;
    [|change (pays s s1 ∧ ∀ b, b ∈ l → b ∈ alerts (s_tables s1)); rewrite Hx; by split].
  destruct rr as [r|e]; [|by rewrite lookup_nil in Est].
  assert (Hd : due_step (alert_rules (s_tables s)) a = Some st).
  { unfold due_step, rule_of. rewrite Er. cbn [mbind option_bind]. by rewrite <- Hr. }
  rewrite send_to_run. set (s2 := (s_world s1, s_tables s1, _)).
  cbv [SM_ignore]. destruct (UpdateEscalation _ _ _ _ s2) as [ru s3] eqn:Hu. cbn [snd].
  pose proof (xstmt_counted _ _ _ _ Hu) as [Hc Hf].
  unfold UpdateEscalation in Hu. unfold xwrite, xexec in Hu. apply xstmt_inv in Hu as (_ & Ho3 & Hu).
  change (w_stmts (s_world s2)) with (w_stmts (s_world s1)) in *. change (s_tables s2) with (s_tables s1) in *.
  assert (Hmsg : (Datatypes.length (s_out s2) <= Datatypes.length (s_out s) + 1)%nat).
  { unfold s2. change (s_out (_, ?o)) with o. rewrite length_app, Ho.
    destruct (provider_of _ _); cbn; lia. }
  destruct (Hp Hwf) as (_ & Hm & _).
  assert (Hf13 : failed s s3 = (failed s s1 + failed s2 s3)%nat).
  { change (failed s2 s3) with (failed s1 s3). apply failed_trans; lia. }
  destruct ru as [[]|e].
  - injection Hu as Hu. rewrite Hx in Hu.
    destruct (escalated_budget (s_tables s) a st (next_escalation now (schedule_of r) (Datatypes.S (Z.to_nat (EscalationStep_ a))))
      (db_now (w_stmts (s_world s1))) Hwf Ha Hd) as [Hwf3 Hb]. rewrite Hu in Hwf3, Hb.
    split.
    + intros _. split_and!; [done|lia|]. rewrite Ho3. lia.
    + intros b Hb'. rewrite <- Hu. cbn. apply (list_elem_of_fmap_2' _ _ b); [by apply Hin|].
      unfold by_id. destruct (String.eqb_spec (ID b) (ID a)) as [E|]; [|done].
      apply NoDup_cons in Hl as [Hl _]. destruct Hl. rewrite <- E. by apply list_elem_of_fmap_2.
  - destruct Hu as [Hu [Hfault|Hno]]; [|discriminate Hno].
    rewrite Hfault, bool_decide_eq_true_2 in Hf by eauto. rewrite Hu, Hx. split; [|done].
    intros _. rewrite Hu, Hx, Ho3, Hf13, Hf. split_and!; [done|lia|lia].
Qed.
Lemma escalates_pay now l s :
  wf_rows (s_tables s) → NoDup (ID <$> l) → (∀ a, a ∈ l → a ∈ alerts (s_tables s)) →
  pays s (snd (SM_iter (escalate_one channels now) l s)).
Proof.
  revert s. induction l as [|a l IH]; intros s Hwf Hl Hin; [reflexivity|].
  destruct (escalate_pays now a l s Hwf) as [Hp Hk]; [apply Hin; left|done|intros b Hb; apply Hin; by right|].
  cbn [SM_iter]. cbv [mbind SM_mbind SM_bind]. destruct (escalate_one channels now a s) as [[[]|e] s1]; [|done].
  cbn [snd] in *. etrans; [exact Hp|]. apply NoDup_cons in Hl as [_ Hl].
  apply IH; [by apply Hp|done|exact Hk].
Qed.

Lemma watch_pays o : preserves pays (watch_step o).
Proof.
  destruct o as [|id u|id u|u]; cbn [watch_step].
  - intros s. unfold Tick, ListPendingEscalations. cbv [mbind SM_mbind SM_bind].
    pose proof (Now_pays s) as Hn. destruct (core Now s) as [[now|e] s1]; [|done]. cbn [snd] in Hn.
    etrans; [exact Hn|].
    pose proof (xquery_pays (λ _ _ x, order_by due_first (List.filter (due now) (alerts x))) s1) as Hp.
    destruct (xquery _ s1) as [[l|e] s2] eqn:Hq; [|exact Hp].
    etrans; [exact Hp|]. apply xquery_inv in Hq as (_ & _ & Hx & ->).
    intros Hwf. apply escalates_pay; [done| | |done].
    + rewrite <- Hx. apply pending_ids, Hwf.
    + rewrite Hx. by intros a [Ha _]%pending_rows.
  - unfold Ack. preserve_with ltac:(fun _ => first [apply Now_pays | apply xwrite_pays; intros ? ?; by apply update_keeps]).
  - unfold Resolve. preserve_with ltac:(fun _ => first [apply Now_pays | apply xwrite_pays; intros ? ?; by apply update_keeps]).
  - unfold MarkAllRead. preserve_with ltac:(fun _ => first [apply Now_pays | apply xwrite_pays; intros ? ?; by apply update_keeps]).
Qed.

(** C22: the escalator quiesces: however often it ticks, whatever the users
    acknowledge and resolve in between and whichever statements fail, it
    sends at most as many messages as the schedules of the stored alerts have
    steps left, and one more for each statement that failed: a step whose
    update is lost is announced again at the next tick. *)
Theorem escalation_bounded l s s' :
  wf_rows (s_tables s) → snd (watched l s) = s' →
  (Datatypes.length (s_out s') + budget (s_tables s') <=
   Datatypes.length (s_out s) + budget (s_tables s) + failed s s')%nat.
Proof.
  intros Hwf <-. assert (H : preserves pays (watched l)).
  { apply preserves_iter; [exact _|]. intros o. apply preserves_ignore, watch_pays. }
  by apply (H s).
Qed.
End Ticks.
(** ** Deduplication *)
Section Dedup.
Context {env : Env} {aj : AlertJson} (channels : Channels).

(** Every fault considered: an event that is processed is on record. *)
Lemma open_by_key_in key l a :
  open_by_key key l = Some a →
  a ∈ l ∧ DedupKey a = key ∧ is_active a = true ∧
  (∀ b, b ∈ l → DedupKey b = key → is_active b = true → LastSeenAt b <= LastSeenAt a).
Proof.
  unfold open_by_key. intros H.
  assert (Hin : ∀ b, b ∈ order_by newest (List.filter (λ a, String.eqb (DedupKey a) key && is_active a) l) ↔
                     b ∈ l ∧ DedupKey b = key ∧ is_active b = true).
  { intros b. rewrite order_by_in, !list_elem_of_In, filter_In, andb_true_iff, String.eqb_eq. tauto. }
  pose proof (order_by_sorted newest (λ a, - LastSeenAt a)
    (List.filter (λ a, String.eqb (DedupKey a) key && is_active a) l)) as Hs.
  destruct (order_by newest _) as [|a0 r] eqn:E; [done|]. injection H as ->.
  assert (Ha : a ∈ l ∧ DedupKey a = key ∧ is_active a = true) by (apply Hin; left).
  split; [apply Ha|]. split; [apply Ha|]. split; [apply Ha|]. intros b Hb Hk Hact.
  assert (Hb' : b ∈ a :: r) by by apply Hin.
  apply elem_of_cons in Hb' as [->|Hb']; [lia|].
  apply StronglySorted_inv in Hs as [_ Hs].
  - apply (proj1 (Forall_forall _ _) Hs) in Hb'. lia.
  - intros x y. unfold newest. apply eq_true_iff_eq. rewrite !Z.leb_le. lia.
Qed.
Lemma open_by_key_none key l a :
  open_by_key key l = None → a ∈ l → DedupKey a = key → is_active a = false.
Proof.
  unfold open_by_key. intros H Ha Hk.
  destruct (order_by newest _) as [|a0 r] eqn:E; [|done].
  destruct (is_active a) eqn:Hact; [|done].
  assert (Hin : a ∈ order_by newest (List.filter (λ a, String.eqb (DedupKey a) key && is_active a) l)).
  { rewrite order_by_in, list_elem_of_In, filter_In, andb_true_iff, String.eqb_eq. by rewrite <- list_elem_of_In. }
  rewrite E in Hin. by apply not_elem_of_nil in Hin.
Qed.

(** A row on which the event is recorded at [t]. *)
Definition recorded (key : string) (t : Time) (x : AlertTables) : Prop :=
  ∃ a, a ∈ alerts x ∧ DedupKey a = key ∧ LastSeenAt a = t ∧ is_active a = true.
Definition source_of (ev : IngestEvent) : string := if is_empty (Source ev) then SourceTelemetry else Source ev.
Definition key_of (ev : IngestEvent) : string := dedup_key (source_of ev) (AlertType ev) (EntityID ev).

Lemma create_inv a s r s' :
  CreateAlert a s = (r, s') →
  match r with
  | Ok _ => alerts (s_tables s') = (alerts (s_tables s) ++ [with_defaults (clock_now (w_clock (s_world s))) a])%list ∧
      ID a ∉ ID <$> alerts (s_tables s)
  | Fail _ => alerts (s_tables s') = alerts (s_tables s)
  end ∧
  alert_rules (s_tables s') = alert_rules (s_tables s) ∧
  rule_overrides (s_tables s') = rule_overrides (s_tables s) ∧
  w_clock (s_world s') = Datatypes.S (w_clock (s_world s)).
Proof.
  destruct s as [[w x] o]. unfold CreateAlert. cbv [mbind SM_mbind SM_bind core Now s_world fst snd].
  cbv [xexec xstmt s_world s_tables s_out fst snd]. destruct (stmt_fault _) as [e|]; [intros [= <- <-]; done|].
  unfold insert_alert. destruct (existsb _ _) eqn:E; [by intros [= <- <-]|].
  intros [= <- <-]. split; [|done]. split; [done|]. intros Hin. apply not_true_iff_false in E. apply E.
  apply existsb_exists. apply list_elem_of_fmap in Hin as (b & Hb & Hin). exists b.
  split; [by apply list_elem_of_In|]. unfold by_id. apply String.eqb_eq. cbn in *. congruence.
Qed.

(** A lookup changes no table and reads no clock. *)
Definition view (s : World * AlertTables * Sent) : AlertTables * nat := (s_tables s, w_clock (s_world s)).
Definition looks (s s' : World * AlertTables * Sent) : Prop := view s = view s'.
Instance looks_preorder : PreOrder looks.
Proof. split; [done|]. intros a b c. unfold looks. congruence. Qed.
Lemma xquery_looks {A} (q : Time → DB → AlertTables → A) : preserves looks (xquery q).
Proof. intros s. unfold looks, view, xquery, xstmt. by destruct (stmt_fault _). Qed.
Lemma rule_lookup_looks source ty entity : preserves looks (GetActiveRuleForType source ty entity).
Proof.
  unfold GetActiveRuleForType, GetOverrides, row_or_nil.
  preserve_with ltac:(fun _ => apply xquery_looks).
Qed.

(** The rule an event is judged by, on a healthy database. *)
Definition rule_lookup (source ty entity : string) (x : AlertTables) : option Rule * option RuleOverride :=
  match active_rule source ty (alert_rules x) with
  | None => (None, None)
  | Some r => (Some r, if is_empty entity then None else override_for (r_ID r) entity (rule_overrides x))
  end.
Lemma rule_lookup_run source ty entity s :
  healthy → fst (GetActiveRuleForType source ty entity s) = Ok (rule_lookup source ty entity (s_tables s)).
Proof.
  intros Hh. unfold GetActiveRuleForType, GetOverrides, row_or_nil, rule_lookup.
  cbv [mbind SM_mbind SM_bind SM_try]. rewrite xquery_run by done. destruct (active_rule _ _ _) as [r|]; [|done].
  destruct (is_empty entity); [done|]. by rewrite xquery_run by done.
Qed.

(** The course of an ingestion, whatever fails: a rule is settled on, an
    active alert of the key is found or taken for absent, and the event is
    counted on it or raised as a new alert. *)
Definition within (now : Time) (rule : option Rule) (o : option RuleOverride) (a : Alert) : bool :=
  Sub now (LastSeenAt a) <? Seconds (cooldown_of rule o).
Lemma ingest_inv ev s r s' :
  Ingest channels ev s = (r, s') →
  let now := clock_now (w_clock (s_world s)) in
  ∃ rule o found s1,
    s_tables s1 = s_tables s ∧ w_clock (s_world s1) = Datatypes.S (w_clock (s_world s)) ∧
    (∀ a, found = Some a → open_by_key (key_of ev) (alerts (s_tables s)) = Some a) ∧
    (healthy → (rule, o) = rule_lookup (source_of ev) (AlertType ev) (EntityID ev) (s_tables s) ∧
               found = open_by_key (key_of ev) (alerts (s_tables s))) ∧
    ((∃ a, found = Some a ∧ within now rule o a = true ∧ IncrementOccurrences (ID a) now s1 = (r, s')) ∨
     (∃ id, (∀ a, found = Some a → within now rule o a = false) ∧
        (let alert := new_alert id now ev (source_of ev) rule o in
         _ ← CreateAlert alert; dispatchToChannels channels alert rule o : AM unit) s1 = (r, s'))).
Proof.
  intros H now. destruct s as [[w x] out]. unfold Ingest in H. fold (source_of ev) (key_of ev) in H.
  cbv zeta in H. cbv [mbind SM_mbind] in H. unfold SM_bind at 1 in H.
  change (core Now (w, x, out)) with (@Ok Time now, (tick_clock w, x, out)) in H. cbv beta iota in H.
  unfold SM_bind at 1, SM_try at 1 in H.
  pose proof (rule_lookup_looks (source_of ev) (AlertType ev) (EntityID ev) (tick_clock w, x, out)) as Hl.
  pose proof (rule_lookup_run (source_of ev) (AlertType ev) (EntityID ev) (tick_clock w, x, out)) as Hr.
  destruct (GetActiveRuleForType _ _ _ _) as [looked s0]. cbn [fst snd] in Hl, Hr.
  injection Hl as Hx Hc.
  assert (Hro : ∃ rule o, (match looked with Ok p => p | Fail _ => (None, None) end) = (rule, o))
    by (destruct looked as [[rule o]|e]; eauto).
  destruct Hro as (rule & o & Hro). rewrite Hro in H. unfold SM_bind at 1, SM_try at 1 in H.
  destruct (FindOpenByDedupKey (key_of ev) s0) as [found s1] eqn:Hf.
  pose proof (xquery_looks (λ _ _ x, open_by_key (key_of ev) (alerts x)) s0) as Hl.
  unfold FindOpenByDedupKey, row_or_nil in Hf.
  pose proof Hf as Hf'. apply xquery_inv in Hf' as (_ & _ & _ & Hfound). rewrite Hf in Hl. cbn [snd] in Hl.
  injection Hl as Hx1 Hc1.
  assert (Hs1 : s_tables s1 = x ∧ w_clock (s_world s1) = Datatypes.S (w_clock w)) by (cbn in *; split; congruence).
  destruct Hs1 as [Hs1 Hw1].
  set (f := match found with Ok a => a | Fail _ => None end) in *.
  assert (Hkey : ∀ a, f = Some a → open_by_key (key_of ev) (alerts x) = Some a).
  { intros a Ha. subst f. destruct found as [a'|e]; [|done]. cbn in Hx. congruence. }
  assert (Hh : healthy → (rule, o) = rule_lookup (source_of ev) (AlertType ev) (EntityID ev) x ∧
                         f = open_by_key (key_of ev) (alerts x)).
  { intros Hh. rewrite (Hr Hh) in Hro. split; [done|]. rewrite xquery_run in Hf by done.
    injection Hf as Hf _. subst f. rewrite <- Hf. cbn in Hx. congruence. }
  exists rule, o, f.
  assert (Hcreate : ∀ rest, (id ← core GenerateUUID; rest id : AM unit) s1 = (r, s') →
            ∃ id s2, s_tables s2 = x ∧ w_clock (s_world s2) = Datatypes.S (w_clock w) ∧ rest id s2 = (r, s')).
  { intros rest Hrest. destruct s1 as [[w1 x1] o1]. cbv [mbind SM_mbind SM_bind core GenerateUUID] in Hrest.
    eexists _, _. split; [|split; [|exact Hrest]]; done. }
  cbv zeta beta in H.
  destruct f as [a|]; [destruct (within now rule o a) eqn:Hw|].
  - exists s1. split_and!; try done. left. exists a. unfold within in Hw. rewrite Hw in H. done.
  - unfold within in Hw. rewrite Hw in H. apply (Hcreate (λ id, _ ← CreateAlert (new_alert id now ev (source_of ev) rule o); dispatchToChannels channels (new_alert id now ev (source_of ev) rule o) rule o)) in H as (id & s2 & H2 & Hw2 & H). exists s2. split_and!; try done.
    right. exists id. split; [intros b [= <-]; exact Hw|exact H].
  - apply (Hcreate (λ id, _ ← CreateAlert (new_alert id now ev (source_of ev) rule o); dispatchToChannels channels (new_alert id now ev (source_of ev) rule o) rule o)) in H as (id & s2 & H2 & Hw2 & H). exists s2. split_and!; try done.
    right. exists id. split; [done|exact H].
Qed.

Lemma increment_inv id t s r s' :
  IncrementOccurrences id t s = (r, s') →
  s_tables s' = (if is_Ok r then update_alerts (by_id id) (set_seen t (s_now s)) (s_tables s) else s_tables s).
Proof. intros H. by apply xwrite_inv in H as (_ & _ & ->). Qed.
(** Sending changes no table, reads no clock, and cannot fail. *)
Definition only_sends (k : AM unit) : Prop := preserves looks k ∧ ∀ s, ∃ s', k s = (Ok tt, s').
Lemma send_to_only name msg : only_sends (send_to channels name msg).
Proof.
  split; [|intros s; rewrite send_to_run; by eexists].
  intros s. rewrite send_to_run. by destruct s as [[w x] o].
Qed.
Lemma only_sends_then k k' : only_sends k → only_sends k' → only_sends (_ ← k; k').
Proof.
  intros [Hl Hok] [Hl' Hok']. split; [by apply preserves_bind; [exact _|..]|].
  intros s. destruct (Hok s) as [s1 H1]. destruct (Hok' s1) as [s2 H2]. exists s2. by rewrite (bind_ok _ _ _ _ _ H1).
Qed.
Lemma dispatch_only a rule o : only_sends (dispatchToChannels channels a rule o).
Proof.
  unfold dispatchToChannels. induction (range _) as [|e l IH]; cbn [SM_iter].
  - split; [by intros s|]. intros s. by exists s.
  - apply (only_sends_then _ (SM_iter _ l)); [|exact IH]. destruct (should_send _ _); [apply send_to_only|].
    split; [by intros s|]. intros s. by exists s.
Qed.
Lemma raise_inv a k s r s' :
  only_sends k → (_ ← CreateAlert a; k) s = (r, s') →
  match r with
  | Ok _ => alerts (s_tables s') = (alerts (s_tables s) ++ [with_defaults (clock_now (w_clock (s_world s))) a])%list ∧
      ID a ∉ ID <$> alerts (s_tables s)
  | Fail _ => alerts (s_tables s') = alerts (s_tables s)
  end ∧
  alert_rules (s_tables s') = alert_rules (s_tables s) ∧
  rule_overrides (s_tables s') = rule_overrides (s_tables s) ∧
  w_clock (s_world s') = Datatypes.S (w_clock (s_world s)).
Proof.
  intros [Hlk Hk] H. cbv [mbind SM_mbind SM_bind] in H. destruct (CreateAlert a s) as [r1 s1] eqn:Hc.
  apply create_inv in Hc. destruct r1 as [[]|e].
  - specialize (Hlk s1). destruct (Hk s1) as [s2 Hk2]. rewrite H in Hlk, Hk2. injection Hk2 as -> _.
    cbn [snd] in Hlk. injection Hlk as Hx Hcl. rewrite <- Hx, <- Hcl. exact Hc.
  - injection H as <- <-. exact Hc.
Qed.
Lemma tables_eq (x y : AlertTables) :
  alerts x = alerts y → alert_rules x = alert_rules y → rule_overrides x = rule_overrides y → x = y.
Proof. destruct x, y. cbn. by intros -> -> ->. Qed.
Lemma seen_active t now a : is_active (set_seen t now a) = is_active a.
Proof. done. Qed.

(** C21: no event is lost, whichever lookup fails: an event that was ingested
    without an error is on record under its key, in an active alert last
    seen when it came in; an error means that nothing was written. *)
Theorem event_recorded ev s r s' :
  clock_now (w_clock (s_world s)) ≠ 0 → Ingest channels ev s = (r, s') →
  match r with
  | Ok _ => recorded (key_of ev) (clock_now (w_clock (s_world s))) (s_tables s')
  | Fail _ => s_tables s' = s_tables s
  end.
Proof.
  intros Hne H. apply ingest_inv in H. cbv zeta in H. set (now := clock_now _) in *.
  destruct H as (rule & o & found & s1 & Hx & _ & Hfound & _ & [(a & Ha & _ & H)|(id & _ & H)]).
  - apply increment_inv in H. destruct r as [[]|e]; cbn in H; [|by rewrite H].
    apply Hfound, open_by_key_in in Ha as (Hin & Hk & Hact & _). rewrite Hx in H. rewrite H.
    exists (set_seen now (s_now s1) a). split_and!; [|done..].
    cbn. apply (list_elem_of_fmap_2' _ _ a); [done|]. unfold by_id. by rewrite String.eqb_refl.
  - apply raise_inv in H as (H & Hr & Ho & _); [|apply dispatch_only]. destruct r as [[]|e]; [|apply tables_eq; congruence].
    destruct H as [H _]. eexists. rewrite H, Hx. split; [by apply elem_of_app; right; left|].
    split; [done|]. split; [|done]. cbn. unfold or_now, time_IsZero. by destruct (Z.eqb_spec now 0).
Qed.
End Dedup.
(** ** Active alerts of one key are apart *)
Section Apart.
Context {env : Env} {aj : AlertJson} (channels : Channels).
Context (c : Z) (Hc0 : 0 < c) (Hc1 : c <= 60 * second).

Record alerts_ok (t : Time) (x : AlertTables) : Prop := {
  ok_ids : NoDup (ID <$> alerts x);
  ok_times : ∀ a, a ∈ alerts x → FirstSeenAt a <= LastSeenAt a <= t;
  ok_rules : ∀ r, r ∈ alert_rules x → c <= Seconds (r_CooldownSeconds r);
  ok_overrides : ∀ o n, o ∈ rule_overrides x → o_CooldownSeconds o = Some n → 0 < n → c <= Seconds n;
  ok_apart : ∀ a b, a ∈ alerts x → b ∈ alerts x → a ≠ b → DedupKey a = DedupKey b →
    is_active a = true → is_active b = true →
    LastSeenAt a + c <= FirstSeenAt b ∨ LastSeenAt b + c <= FirstSeenAt a }.

(** Changes of the rows that leave identity, key and times, and revive no
    alert. *)
Definition same_timing (a a' : Alert) : Prop :=
  ID a' = ID a ∧ DedupKey a' = DedupKey a ∧ FirstSeenAt a' = FirstSeenAt a ∧
  LastSeenAt a' = LastSeenAt a ∧ (is_active a' = true → is_active a = true).
Definition quiet (x x' : AlertTables) : Prop :=
  alert_rules x' = alert_rules x ∧ rule_overrides x' = rule_overrides x ∧
  Forall2 same_timing (alerts x) (alerts x').
Instance same_timing_preorder : PreOrder same_timing.
Proof. split; [done|]. intros a b d (?&?&?&?&?) (?&?&?&?&?). unfold same_timing. split_and!; [congruence..|auto]. Qed.
Instance quiet_preorder : PreOrder quiet.
Proof.
  split; [intros x; split_and!; [done..|reflexivity]|].
  intros x y z (H1 & H2 & H3) (H4 & H5 & H6). split_and!; [congruence..|]. by etrans.
Qed.
Lemma update_quiet p f x :
  (∀ a, p a = true → same_timing a (f a)) → quiet x (update_alerts p f x).
Proof.
  intros Hf. split_and!; [done..|]. cbn. apply Forall2_fmap_r. apply Forall_Forall2_diag.
  apply Forall_forall. intros a _. specialize (Hf a). unfold same_timing, compose in *.
  destruct (p a); [exact (Hf eq_refl)|by split_and!].
Qed.

Lemma quiet_ok t t' x x' : quiet x x' → t <= t' → alerts_ok t x → alerts_ok t' x'.
Proof.
  intros (Hr & Ho & Hf) Ht [H1 H2 H3 H4 H5].
  assert (Hids : ID <$> alerts x' = ID <$> alerts x).
  { clear -Hf. induction Hf as [|a a' l l' Ha Hf IH]; [done|]. rewrite !fmap_cons, IH. f_equal. apply Ha. }
  assert (Hback : ∀ a', a' ∈ alerts x' → ∃ a, a ∈ alerts x ∧ same_timing a a').
  { intros a' [i Hi]%list_elem_of_lookup. destruct (Forall2_lookup_r _ _ _ _ _ Hf Hi) as (a & Ha & Hs).
    exists a. split; [by eapply list_elem_of_lookup_2|done]. }
  constructor; rewrite ?Hr, ?Ho, ?Hids; [done| |done|done|].
  - intros a' (a & Ha & (_ & _ & -> & -> & _))%Hback. specialize (H2 a Ha). lia.
  - intros a' b' Ha' Hb' Hne Hk Hacta Hactb.
    apply Hback in Ha' as Ha''. destruct Ha'' as (a & Ha & Hia & Hka & Hfa & Hla & Haa).
    apply Hback in Hb' as Hb''. destruct Hb'' as (b & Hb & Hib & Hkb & Hfb & Hlb & Hab).
    rewrite Hfa, Hla, Hfb, Hlb. apply H5; auto; [|congruence].
    intros ->. apply Hne. apply (same_row (alerts x')); [by rewrite Hids|done..|congruence].
Qed.

Lemma later_ok t t' x : t <= t' → alerts_ok t x → alerts_ok t' x.
Proof. apply quiet_ok. reflexivity. Qed.

(** The two outcomes of an event. *)
Lemma seen_ok t now u x key a :
  alerts_ok t x → t <= now → open_by_key key (alerts x) = Some a →
  alerts_ok now (update_alerts (by_id (ID a)) (set_seen now u) x).
Proof.
  intros [H1 H2 H3 H4 H5] Ht Ha. apply open_by_key_in in Ha as (Hin & Hk & Hact & Hmax).
  pose proof (H2 a Hin) as Hat.
  assert (Hback : ∀ a', a' ∈ alerts (update_alerts (by_id (ID a)) (set_seen now u) x) →
            (a' = set_seen now u a) ∨ (a' ∈ alerts x ∧ a' ≠ a)).
  { intros a' (b & -> & Hb)%list_elem_of_fmap. unfold by_id. destruct (String.eqb_spec (ID b) (ID a)) as [He|Hne].
    - left. by rewrite (same_row _ b a H1 Hb Hin He).
    - right. split; [done|]. by intros ->. }
  assert (Hother : ∀ b, b ∈ alerts x → b ≠ a → DedupKey b = DedupKey a → is_active b = true →
            LastSeenAt b + c <= FirstSeenAt a).
  { intros b Hb Hne Hkb Hactb. destruct (H5 b a Hb Hin Hne Hkb Hactb Hact) as [Hl|Hl]; [done|].
    pose proof (H2 b Hb). pose proof (Hmax b Hb ltac:(congruence) Hactb). lia. }
  constructor; [by rewrite update_ids| |done|done|].
  - intros a' [->|[Ha' _]]%Hback; [cbn; lia|]. specialize (H2 a' Ha'). lia.
  - intros a' b' [->|[Ha' Hna]]%Hback [->|[Hb' Hnb]]%Hback Hne Hkey Hacta Hactb; [done| | |by apply H5].
    + right. cbn. by apply Hother.
    + left. cbn. apply Hother; try done.
Qed.
Lemma raised_ok t now x n :
  alerts_ok t x → t <= now → ID n ∉ ID <$> alerts x → now <= FirstSeenAt n → LastSeenAt n = FirstSeenAt n →
  (∀ b, b ∈ alerts x → DedupKey b = DedupKey n → is_active b = true → LastSeenAt b + c <= now) →
  alerts_ok (LastSeenAt n) (set_alerts (alerts x ++ [n])%list x).
Proof.
  intros [H1 H2 H3 H4 H5] Ht Hid Hn Hln Hold.
  constructor; cbn [alerts set_alerts alert_rules rule_overrides]; [| |done|done|].
  - rewrite fmap_app. apply NoDup_app. split_and!; [done| |apply NoDup_singleton].
    intros i Hi Hi'%list_elem_of_singleton. by subst.
  - intros a [Ha| ->%list_elem_of_singleton]%elem_of_app; [specialize (H2 a Ha)|]; lia.
  - intros a b [Ha| ->%list_elem_of_singleton]%elem_of_app [Hb| ->%list_elem_of_singleton]%elem_of_app
      Hne Hk Hacta Hactb; [by apply H5| | |done].
    + left. specialize (Hold a Ha Hk Hacta). lia.
    + right. specialize (Hold b Hb (eq_sym Hk) Hactb). lia.
Qed.

(** ** The operations keep them apart *)
Definition later (s s' : World * AlertTables * Sent) : Prop := (w_clock (s_world s) <= w_clock (s_world s'))%nat.
Instance later_preorder : PreOrder later.
Proof. split; [intros a|intros a b d]; unfold later; lia. Qed.
Lemma xstmt_later {A} (q : Time → DB → AlertTables → result A * AlertTables) : preserves later (xstmt q).
Proof.
  intros s. unfold later, xstmt. destruct (stmt_fault _); [cbn; lia|]. destruct (q _ _ _) as [[a|e] x]; cbn; lia.
Qed.
Lemma Now_later : preserves later (core Now).
Proof. intros [[w x] o]. unfold later. cbn. lia. Qed.
Lemma UUID_later : preserves later (core GenerateUUID).
Proof. intros [[w x] o]. unfold later. cbn. lia. Qed.
Lemma send_later p msg : preserves later (send p msg).
Proof. intros [[w x] o]. unfold later. cbn. lia. Qed.
Ltac later_leaf u :=
  first [apply xstmt_later | apply Now_later | apply UUID_later | apply send_later].

Inductive op :=
| OpEvent (ev : BusEvent) | OpTick | OpFlush (window : Z)
| OpAck (id user : string) | OpResolve (id user : string) | OpMarkAllRead (user : string).
Definition run_op (o : op) : AM unit :=
  match o with
  | OpEvent ev => ProcessEvent channels ev
  | OpTick => Tick channels
  | OpFlush w => Flush channels w
  | OpAck id u => Ack id u
  | OpResolve id u => Resolve id u
  | OpMarkAllRead u => MarkAllRead u
  end.
Definition run_ops (l : list op) : AM unit := SM_iter (λ o, SM_ignore (run_op o)) l.

Lemma run_op_later o : preserves later (run_op o).
Proof.
  destruct o; cbn [run_op];
    unfold ProcessEvent, HandleSOS, Ingest, Tick, Flush, Ack, Resolve, MarkAllRead, escalate_one, flush_one,
      dispatchToChannels, send_to, GetActiveRuleForType, FindOpenByDedupKey, GetOverrides, GetRule, row_or_nil,
      CreateAlert, IncrementOccurrences, ListPendingEscalations, UpdateEscalation, ListUnflushedStormAlerts,
      UpdateMetadata, xquery, xwrite, xexec;
    cbv zeta; preserve_with later_leaf.
Qed.

Lemma acked_quiet p next u t now x :
  (∀ a, p a = true → is_active a = true) →
  quiet x (update_alerts p (λ a, set_acked (next a) u t now a) x).
Proof. intros Hp. apply update_quiet. intros a Ha. unfold same_timing. split_and!; try done. intros _. by apply Hp. Qed.
Lemma resolved_quiet p u t now x : quiet x (update_alerts p (set_resolved u t now) x).
Proof. apply update_quiet. intros a Ha. unfold same_timing. by split_and!. Qed.
Lemma metadata_quiet id m now x : quiet x (update_alerts (by_id id) (set_metadata m now) x).
Proof. by apply update_quiet. Qed.
Lemma open_active a : (Status a =? StatusOpen)%string = true → is_active a = true.
Proof. unfold is_active, status_in. cbn. by intros ->. Qed.
Lemma pending_active a : status_in pending_statuses a = true → is_active a = true.
Proof. unfold is_active, status_in. cbn. by destruct (Status a =? StatusOpen)%string, (Status a =? StatusEscalated)%string, (Status a =? StatusAcknowledged)%string. Qed.

Definition is_user_op (o : op) : bool := match o with OpEvent _ | OpTick => false | _ => true end.
Lemma user_op_quiet o : is_user_op o = true → preserves (on_tables quiet) (run_op o).
Proof.
  intros Ho. destruct o as [ev| |w|id u|id u|u]; cbn [run_op]; try discriminate Ho;
    unfold Flush, flush_one, ListUnflushedStormAlerts, UpdateMetadata, Ack, Resolve, MarkAllRead, send;
    cbv zeta; preserve_tables ltac:(fun _ =>
      first [ apply metadata_quiet | apply resolved_quiet
            | apply (acked_quiet _ (λ _, None)); intros ? [_ ?]%andb_true_iff; by apply pending_active
            | apply (acked_quiet _ NextEscalationAt); intros ? [? _]%andb_true_iff; by apply open_active ]).
Qed.
Lemma tick_quiet s s' :
  healthy → NoDup (ID <$> alerts (s_tables s)) → snd (Tick channels s) = s' → quiet (s_tables s) (s_tables s').
Proof.
  intros Hh Hnd H. destruct (tick_run channels s Hh Hnd) as (s1 & Hrun & Hr & Ho & Hf & _).
  rewrite Hrun in H. cbn in H. subst s1. split_and!; [done..|].
  eapply Forall2_impl; [exact Hf|]. intros a a'. unfold tick_row, escalates.
  destruct (due _ a) eqn:Hd; [|intros ->; reflexivity].
  destruct (due_step _ a); [|intros ->; reflexivity]. intros [u ->]. unfold same_timing. split_and!; try done.
  intros _. unfold due in Hd. apply andb_true_iff in Hd as [Hd _]. by apply pending_active.
Qed.

(** ** Events keep them apart *)
Context (Hclock : ∀ n, clock_now n <= clock_now (Datatypes.S n)).
Definition clk (s : World * AlertTables * Sent) : Time := clock_now (w_clock (s_world s)).
Definition state_ok (s : World * AlertTables * Sent) : Prop := alerts_ok (clk s) (s_tables s).

Lemma later_clk s s' : later s s' → clk s <= clk s'.
Proof.
  unfold later, clk. induction 1 as [|n Hn IH]; [lia|]. specialize (Hclock n). lia.
Qed.

Lemma cooldown_ge t x source ty entity rule o :
  alerts_ok t x → (rule, o) = rule_lookup source ty entity x → c <= Seconds (cooldown_of rule o).
Proof.
  intros [_ _ Hr Ho _]. unfold rule_lookup, cooldown_of, active_rule.
  destruct (List.find _ (alert_rules x)) as [r|] eqn:Hf.
  - apply find_some in Hf as [Hin _]. apply list_elem_of_In in Hin. intros [= -> ->].
    destruct (_ ≫= o_CooldownSeconds) as [n|] eqn:Hn; [|by apply Hr].
    destruct (Z.ltb_spec 0 n); [|by apply Hr]. destruct (is_empty entity); [done|].
    unfold override_for in Hn. destruct (order_by _ _) as [|o l] eqn:E; [done|].
    apply (Ho o n); [|done|done]. assert (Hin' : o ∈ o :: l) by left. rewrite <- E, order_by_in in Hin'.
    apply list_elem_of_In, filter_In in Hin' as [Hin' _]. by apply list_elem_of_In.
  - intros [= -> ->]. cbn. change (Seconds 300) with (300 * second). unfold second in *. cbn in *. lia.
Qed.
Lemma spaced now l d : l <= now → c <= d → (Sub now l <? d) = false → l + c <= now.
Proof. intros Hl Hd. unfold Sub, Geo.Sub. rewrite Z.ltb_ge. unfold max_int64, min_int64. lia. Qed.

(** An event found no alert of its key within the cooldown. *)
Lemma raise_ok n k s s1 r s' :
  only_sends k → state_ok s → s_tables s1 = s_tables s →
  w_clock (s_world s1) = Datatypes.S (w_clock (s_world s)) →
  FirstSeenAt n = clk s → LastSeenAt n = clk s →
  (∀ a, open_by_key (DedupKey n) (alerts (s_tables s)) = Some a → LastSeenAt a + c <= clk s) →
  (_ ← CreateAlert n; k) s1 = (r, s') → state_ok s'.
Proof.
  intros Hk Hok Hx Hw Hfn Hln Hold H. apply raise_inv in H as (H & Hr & Ho & Hw'); [|exact Hk].
  assert (Hc2 : clk s <= clk s1 <= clk s').
  { unfold clk. rewrite Hw', Hw. split; apply Hclock. }
  unfold state_ok in *. destruct r as [[]|e].
  - destruct H as [H Hid]. set (n' := with_defaults _ n) in *.
    assert (Hx' : s_tables s' = set_alerts (alerts (s_tables s) ++ [n'])%list (s_tables s))
      by (apply tables_eq; cbn; congruence).
    assert (Hl : LastSeenAt n' = FirstSeenAt n' ∧ clk s <= FirstSeenAt n' <= clk s').
    { subst n'. cbn. rewrite Hfn, Hln. unfold or_now. change (clock_now (w_clock (s_world s1))) with (clk s1).
      destruct (time_IsZero (clk s)); lia. }
    rewrite Hx'. apply (later_ok (LastSeenAt n')); [lia|].
    apply (raised_ok (clk s) (clk s)); [exact Hok|lia|by rewrite <- Hx|lia|lia|].
    intros b Hb Hkb Hact. change (DedupKey n') with (DedupKey n) in Hkb.
    destruct (open_by_key (DedupKey n) (alerts (s_tables s))) as [a|] eqn:Ha.
    + pose proof (Hold a eq_refl). apply open_by_key_in in Ha as (_ & _ & _ & Hmax). specialize (Hmax b Hb Hkb Hact). lia.
    + by rewrite (open_by_key_none _ _ _ Ha Hb Hkb) in Hact.
  - apply (later_ok (clk s)); [lia|]. replace (s_tables s') with (s_tables s); [exact Hok|]. apply tables_eq; congruence.
Qed.
Lemma count_ok key a s s1 r s' :
  healthy → state_ok s → s_tables s1 = s_tables s → w_clock (s_world s1) = Datatypes.S (w_clock (s_world s)) →
  open_by_key key (alerts (s_tables s)) = Some a →
  IncrementOccurrences (ID a) (clk s) s1 = (r, s') → state_ok s'.
Proof.
  intros Hh Hok Hx Hw Ha H. unfold IncrementOccurrences in H. rewrite xwrite_run in H by done. injection H as <- <-.
  unfold state_ok, clk, s_set in *. cbn in *. rewrite Hx, Hw. eapply later_ok; [apply Hclock|].
  eapply seen_ok; [exact Hok|done|exact Ha].
Qed.

Lemma ingest_ok ev s r s' : healthy → state_ok s → Ingest channels ev s = (r, s') → state_ok s'.
Proof.
  intros Hh Hok H. apply ingest_inv in H. cbv zeta in H. fold (clk s) in H.
  destruct H as (rule & o & found & s1 & Hx & Hw & Hfound & Hlook & H). destruct (Hlook Hh) as [Hro ->].
  destruct H as [(a & Ha & _ & H)|(id & Hold & H)]; [by eapply (count_ok (key_of ev) a s s1)|].
  eapply (raise_ok (new_alert id (clk s) ev (source_of ev) rule o)); [apply dispatch_only|exact Hok|done|done|done|done| |exact H].
  intros a Ha. specialize (Hold a Ha). eapply spaced; [|by eapply cooldown_ge|exact Hold].
  apply open_by_key_in in Ha as (Ha & _). by apply (ok_times _ _ Hok).
Qed.

Lemma sos_fields id now m :
  FirstSeenAt (sos_alert id now m) = now ∧ LastSeenAt (sos_alert id now m) = now ∧
  DedupKey (sos_alert id now m) = ("sos:" +:+ sos_string "VehicleID" "vehicle_id" m)%string.
Proof. unfold sos_alert. by destruct (match sos_float _ _ _ with Some _ => _ | None => _ end). Qed.
Lemma sos_ok ev s r s' : healthy → state_ok s → HandleSOS channels ev s = (r, s') → state_ok s'.
Proof.
  intros Hh Hok H. unfold HandleSOS in H. destruct (sos_payload ev) as [m|]; [|by injection H as _ <-].
  destruct s as [[w x] out]. cbv [mbind SM_mbind] in H. unfold SM_bind at 1 in H.
  change (core Now (w, x, out)) with (@Ok Time (clk (w, x, out)), (tick_clock w, x, out)) in H. cbv beta iota zeta in H.
  unfold SM_bind at 1, SM_try at 1, FindOpenByDedupKey, row_or_nil in H. rewrite xquery_run in H by done.
  cbv beta iota in H. cbn [s_tables s_set s_out s_world fst snd] in H.
  set (s1 := (tick_stmts (tick_clock w), x, out)) in *.
  assert (Hnew : ∀ r s', (id ← core GenerateUUID;
            _ ← CreateAlert (sos_alert id (clk (w, x, out)) m);
            _ ← send_to channels "in_app" (sos_message (sos_alert id (clk (w, x, out)) m) m);
            send_to channels "telegram" (sos_message (sos_alert id (clk (w, x, out)) m) m) : AM unit) s1 = (r, s') →
          (∀ a, open_by_key ("sos:" +:+ sos_string "VehicleID" "vehicle_id" m) (alerts x) = Some a →
             LastSeenAt a + c <= clk (w, x, out)) → state_ok s').
  { intros r1 s1' H1 Hold. cbv [mbind SM_mbind] in H1. unfold SM_bind at 1 in H1. subst s1.
    cbn [core GenerateUUID s_world s_tables s_out fst snd] in H1.
    destruct (sos_fields (gen_uuid (w_ids w)) (clk (w, x, out)) m) as (Hfs & Hls & Hdk).
    eapply (raise_ok (sos_alert (gen_uuid (w_ids w)) (clk (w, x, out)) m));
      [by apply only_sends_then; apply send_to_only|exact Hok| | |exact Hfs|exact Hls|by rewrite Hdk|exact H1]; done. }
  destruct (open_by_key _ _) as [a|] eqn:Ha; [|by eapply Hnew].
  destruct (Sub _ _ <? _) eqn:Hs.
  - cbv [SM_ignore] in H. destruct (IncrementOccurrences _ _ _) as [r1 s2] eqn:Hi. injection H as _ <-.
    eapply (count_ok _ a (w, x, out) s1 r1); [done|exact Hok|done|done|exact Ha|exact Hi].
  - eapply Hnew; [exact H|]. intros b [= <-]. apply (spaced _ _ (60 * second)); [|exact Hc1|exact Hs].
    apply open_by_key_in in Ha as (Ha & _). by apply (ok_times _ _ Hok).
Qed.

Lemma op_ok o s : healthy → state_ok s → state_ok (snd (run_op o s)).
Proof.
  intros Hh Hok. destruct (run_op o s) as [r s'] eqn:H. cbn [snd].
  pose proof (run_op_later o s) as Hl. rewrite H in Hl. cbn [snd] in Hl. apply later_clk in Hl.
  destruct (is_user_op o) eqn:Hu.
  { pose proof (user_op_quiet o Hu s) as Hq. rewrite H in Hq. by eapply quiet_ok. }
  destruct o as [ev| | | | |]; try discriminate Hu; cbn [run_op] in H.
  - unfold ProcessEvent in H. destruct (_ || _); [by eapply sos_ok|].
    destruct (normalizeEvent ev) as [i|e]; [by eapply ingest_ok|by injection H as _ <-].
  - eapply quiet_ok; [|exact Hl|exact Hok]. apply tick_quiet; [done|by destruct Hok|by rewrite H].
Qed.
End Apart.

(** C23: as long as the clock does not run back and no statement fails, two
    active alerts of one key are apart by at least [c], for every [c] that no
    rule and no override undercuts and that is at most the sixty seconds by
    which emergencies (SOS) are told apart whatever the rules say: the later
    was first seen that long after the earlier was last seen, whatever events
    come in and however alerts are acknowledged, resolved, escalated and
    flushed in between. *)
Theorem active_alerts_apart {env : Env} {aj : AlertJson} channels c l s :
  healthy → (∀ n, clock_now n <= clock_now (Datatypes.S n)) → 0 < c → c <= 60 * second →
  state_ok c s → state_ok c (snd (run_ops channels l s)).
Proof.
  intros Hh Hclock Hc0 Hc1. revert s. induction l as [|o l IH]; intros s Hok; [done|].
  unfold run_ops. cbn [SM_iter]. cbv [mbind SM_mbind SM_bind SM_ignore].
  apply IH. by apply (op_ok channels c Hc0 Hc1 Hclock).
Qed.

(** ** Concrete runs *)
(** An encoder that writes the true members only. *)
Definition true_members (l : list (string * jv)) : string :=
  fold_right (λ e s, match snd e with JBool true => (quoted (fst e) +:+ ":true," +:+ s)%string | _ => s end) "}" l.
Lemma str_app_assoc (a b d : string) : (a +:+ (b +:+ d))%string = ((a +:+ b) +:+ d)%string.
Proof. induction a as [|x a IH]; [done|]. exact (f_equal (String x) IH). Qed.
Lemma prefix_app p s : String.prefix p (p +:+ s) = true.
Proof. induction p as [|a p IH]; [by destruct s|]. change (String a p +:+ s)%string with (String a (p +:+ s))%string. cbn. destruct (Ascii.ascii_dec a a); [exact IH|congruence]. Qed.
Lemma contains_later a s p : contains s p = true → contains (a +:+ s) p = true.
Proof. intros H. induction a as [|b a IH]; [done|]. change (String.prefix p (String b (a +:+ s)) || contains (a +:+ s) p = true). by rewrite IH, orb_true_r. Qed.
Lemma contains_here p s : contains (p +:+ s) p = true.
Proof. pose proof (prefix_app p s) as H. destruct (p +:+ s) as [|b t]; cbn [contains]; by rewrite H. Qed.
Lemma true_members_spec k l : (k, JBool true) ∈ l → contains (true_members l) (quoted k +:+ ":true") = true.
Proof.
  induction l as [|[k' v] l IH]; intros H; [by apply not_elem_of_nil in H|].
  apply elem_of_cons in H as [[= <- <-]|H].
  - change (true_members ((k, JBool true) :: l)) with (quoted k +:+ (":true" +:+ ("," +:+ true_members l)))%string.
    rewrite (str_app_assoc (quoted k) ":true" _). apply contains_here.
  - specialize (IH H). destruct v as [|[]| | | |]; try exact IH.
    change (true_members ((k', JBool true) :: l)) with (quoted k' +:+ (":true," +:+ true_members l))%string.
    by apply contains_later, contains_later.
Qed.
Definition demo_json : AlertJson.
Proof.
  refine {| Marshal m := Some ("{" +:+ true_members (map_to_list m))%string; Unmarshal _ := Ok None;
            UnmarshalSchedule _ := Ok [mkStep 60 "manager" "telegram"; mkStep 300 "owner" "telegram"];
            range A m := map_to_list m |}.
  - intros k m s [= <-] Hk. apply contains_later, true_members_spec. by apply elem_of_map_to_list.
  - done.
Defined.
Definition demo_channels : Channels := <["telegram" := Some (TelegramProvider true 7)]> NewStubProviders.
Definition demo_rule : Rule :=
  mkRule "r1" "telemetry" "speeding" "Over Speeding Alert" "warning" None None "source:alert_type:entity_id"
    60 60 3 "" (Some "steps"%string) true 0 0.
Definition demo_event : IngestEvent :=
  mkIngest "telemetry" "speeding" "" "" "" "vehicle" "v1" "" None None None.
Abbreviation demo_state := ((world empty_db, mkTables [demo_rule] [] [], []) : World * AlertTables * Sent).
(** A clock that ticks once a minute. *)
Definition demo_env : Env :=
  {| clock_now n := jan1 + Z.of_nat n * minute; gen_uuid := test_uuid; db_now n := jan1 + Z.of_nat n;
     stmt_fault := no_faults; ctx_user := Some "u1"%string; ctx_ip := None; stmt_fault_rows := no_faults_ok |}.
Section Witnesses.
#[local] Existing Instance demo_json.
#[local] Existing Instance demo_env.
(** A state with one alert waiting for its first escalation. *)
Abbreviation raised_state := (snd (Ingest demo_channels demo_event demo_state)).

Lemma event_recorded_witness :
  clock_now (w_clock (s_world demo_state)) ≠ 0 ∧
  recorded (key_of demo_event) (clock_now (w_clock (s_world demo_state)))
    (s_tables (snd (Ingest demo_channels demo_event demo_state))).
Proof.
  assert (Hne : clock_now (w_clock (s_world demo_state)) ≠ 0) by (vm_compute; discriminate).
  assert (Hok : fst (Ingest demo_channels demo_event demo_state) = Ok tt) by (vm_compute; reflexivity).
  split; [exact Hne|].
  pose proof (event_recorded demo_channels demo_event demo_state _ _ Hne (surjective_pairing _)) as H.
  rewrite Hok in H. exact H.
Defined.
Abbreviation raised := (snd (Ingest demo_channels demo_event demo_state)).
Lemma raised_wf : wf_rows (s_tables raised).
Proof. split; [apply (bool_decide_unpack _); vm_compute; exact I|]. apply (bool_decide_unpack _). vm_compute. exact I. Qed.
Lemma demo_healthy : healthy.
Proof. done. Qed.

Lemma tick_refines_witness :
  NoDup (ID <$> alerts (s_tables raised)) ∧
  map (λ a, (Status a, EscalationStep_ a)) (alerts (s_tables (snd (Tick demo_channels raised)))) =
    [("escalated"%string, 1)] ∧
  (let now := clock_now (w_clock (s_world raised)) in
   let rules := alert_rules (s_tables raised) in
   fst (Tick demo_channels raised) = Ok tt ∧
   Forall2 (tick_row now rules) (alerts (s_tables raised)) (alerts (s_tables (snd (Tick demo_channels raised)))) ∧
   s_out (snd (Tick demo_channels raised)) = (s_out raised ++ mjoin (messages_of demo_channels rules <$>
     order_by due_first (List.filter (due now) (alerts (s_tables raised)))))%list).
Proof.
  split; [exact (proj1 raised_wf)|]. split; [vm_compute; reflexivity|].
  exact (tick_refines demo_channels raised _ _ demo_healthy (proj1 raised_wf) (surjective_pairing _)).
Defined.
Lemma escalation_bounded_witness :
  wf_rows (s_tables raised) ∧ budget (s_tables raised) = 2%nat ∧
  let s' := snd (watched demo_channels [WTick; WTick; WTick; WTick] raised) in
  (Datatypes.length (s_out s') + budget (s_tables s') <=
   Datatypes.length (s_out raised) + budget (s_tables raised) + failed raised s')%nat.
Proof.
  split; [exact raised_wf|]. split; [vm_compute; reflexivity|].
  exact (escalation_bounded demo_channels [WTick; WTick; WTick; WTick] raised _ raised_wf eq_refl).
Defined.
Lemma active_alerts_apart_witness :
  state_ok (60 * second) demo_state ∧
  map Occurrences (alerts (s_tables (snd (run_ops demo_channels
    [OpEvent (mkBusEvent "AlertEvent" (Ok (JObj [("alert_type", JStr "speeding"); ("vehicle_id", JStr "v1")]%string)));
     OpTick; OpMarkAllRead "u1"] demo_state)))) = [1] ∧
  state_ok (60 * second) (snd (run_ops demo_channels
    [OpEvent (mkBusEvent "AlertEvent" (Ok (JObj [("alert_type", JStr "speeding"); ("vehicle_id", JStr "v1")]%string)));
     OpTick; OpMarkAllRead "u1"] demo_state)).
Proof.
  assert (Hok : state_ok (60 * second) demo_state).
  { constructor; cbn; try by intros ? ?%not_elem_of_nil.
    - constructor.
    - intros r ->%list_elem_of_singleton. vm_compute. discriminate.
    - by intros ? ? ?%not_elem_of_nil.
    - by intros ? ? ?%not_elem_of_nil. }
  split; [exact Hok|]. split; [vm_compute; reflexivity|].
  apply (active_alerts_apart demo_channels (60 * second) _ demo_state demo_healthy); [|done|done|exact Hok].
  intros n. unfold clock_now, demo_env, minute, Dwell.minute, Dwell.second. lia.
Defined.
End Witnesses.

(** The update of the first step fails at every tick: the same step is
    announced again and again. *)
Definition lost_updates (n : nat) : option error :=
  if (4 <? Z.of_nat n) && (Z.of_nat n mod 3 =? 0) then Some (Err "database is locked") else None.
Lemma lost_updates_ok n e : lost_updates n = Some e → is_no_rows e = false.
Proof. unfold lost_updates. destruct (_ && _); [by intros [= <-]|done]. Qed.
Definition faulty_env : Env :=
  {| clock_now n := jan1 + Z.of_nat n * minute; gen_uuid := test_uuid; db_now n := jan1 + Z.of_nat n;
     stmt_fault := lost_updates; ctx_user := Some "u1"%string; ctx_ip := None; stmt_fault_rows := lost_updates_ok |}.
Example same_step_again :
  let s := snd (@Ingest faulty_env demo_json demo_channels demo_event demo_state) in
  let s' := snd (@watched faulty_env demo_json demo_channels [WTick; WTick; WTick; WTick] s) in
  (EscalationStep_ <$> alerts (s_tables s)) = [0] ∧ (EscalationStep_ <$> alerts (s_tables s')) = [0] ∧
  budget (aj := demo_json) (s_tables s) = 2%nat ∧ failed (env := faulty_env) s s' = 4%nat ∧
  (λ m, Alerts.m_Title (snd m)) <$> drop (Datatypes.length (s_out s)) (s_out s') =
    repeat "[Escalation Step 1] Over Speeding Alert"%string 4.
Proof. vm_compute. by split_and!. Qed.
End Pipeline.
