(* ===== verification/EWayBill.v ===== *)
(** * E-way bills: the service, its subscriptions and the expiry monitor

    [internal/ewaybill/service.go], [autogenerate.go], [monitor.go] and the
    schema gate of [worker.go], over the tables [eway_bills] and
    [eway_bill_events] of migrations 00031 and 00047.  The NIC API behind
    [internal/integration/ewaybill] is a parameter: what it answers to a call,
    given the calls before; the calls made are the outside of the component.
    [encoding/json] of the request bodies kept as text is a parameter too. *)
From stdpp Require Import base decidable list strings option gmap pretty.
From Stdlib Require Import ZArith Lia Ascii String.
From S2P Require Import Prelude GoFloat Shared GoTime GoMath Geofence InvoiceAggregate Database SideTables GeofenceStore.
From S2P Require Import Alerts.
Open Scope Z_scope.

Module EWB.

(** ** Records (service.go) *)
Record EWayBillRecord := mkRecord {
  rec_ID : string; rec_TripID : string; rec_EwbNumber : string; rec_IRN : option string; rec_Status : string;
  rec_GenerationDate : Time; rec_ValidUntil : Time; rec_VehicleNumber : option string;
  rec_TransporterID : option string; rec_QRCode : string; rec_FromPlace : string; rec_FromStateCode : string;
  rec_ToPlace : string; rec_ToStateCode : string; rec_GoodsValue : float64; rec_Distance : Z;
  rec_DocType : string; rec_DocNo : string; rec_DocDate : string; rec_TransporterDocNo : string;
  rec_ExtensionCount : Z; rec_CancelReason : string; rec_CancelledAt : option Time; rec_GenMode : string;
  rec_CreatedAt : Time }.
Record GeneratePartARequest := mkPartA {
  TripID : string; DocType : string; DocNo : string; DocDate : string; FromGSTIN : string; ToGSTIN : string;
  FromPlace : string; FromStateCode : string; ToPlace : string; ToStateCode : string; TransporterID : string;
  GoodsValue : float64; Distance : Z; TransporterDocNo : string; GenMode : string; Force : bool }.
Record ExtendRequest := mkExtend {
  x_EwbNumber : string; x_FromPlace : string; x_FromStateCode : string; x_RemainingDistance : Z;
  x_TransitToDate : string; x_Reason : string }.
Record Config := mkConfig { Interval : Z; ExtensionKM : float64; ExtensionLeadSeconds : Z; MinInvoiceValue : float64 }.

Definition ErrTripRequired : error := Err "trip_id is required".
Definition ErrPartBRequired : error := Err "ewb_number and vehicle_number are required".
Definition ErrGoodsValueTooLow : error := Err "goods value is 50,000 or below; e-way bill not required".
Definition ErrNotActive : error := Err "e-way bill is not active".
Definition ErrExtensionLimitExceeded : error := Err "extension limit exceeded (max 1 extension allowed)".
Definition ErrNoGeofenceEvidence : error :=
  Err "extension denied: lacking proximity/geofence evidence within destination threshold".
Definition ErrEWBNotFound : error := Err "e-way bill not found".

(** ** The provider (internal/integration/ewaybill/client.go) *)
Record GenerateRequest := mkGenerateRequest {
  g_DocumentNumber : string; g_FromGSTIN : string; g_ToGSTIN : string; g_TransporterID : string;
  g_VehicleNumber : string; g_Distance : Z; g_TotalAmount : float64 }.
Record EWayBill := mkEWayBill {
  e_EwbNumber : string; e_Status : string; e_GeneratedAt : Time; e_ValidUpto : Time; e_QRCode : string;
  e_DocumentRef : string }.
Inductive Call :=
| CallGeneratePartA (req : GenerateRequest)
| CallAttachPartB (ewbNumber vehicleNumber transporterID : string)
| CallExtend (ewbNumber : string) (req : ExtendRequest)
| CallCancel (ewbNumber reason : string).

(** What the provider answers to a call after those before it, and the JSON
    texts that are stored. *)
Class Provider := {
  respond : list Call → Call → result EWayBill;
  MarshalPartA : GeneratePartARequest → string;
  MarshalPartB : list (string * string) → string;
  MarshalExtend : ExtendRequest → string;
  QuoteReason : string → string }.

(** ** Tables *)
Record Bill := mkBill {
  ID : string; b_TripID : option string; EwbNumber : string; IRN : option string; GenerationDate : Time;
  ValidUntil : Time; b_TransporterID : option string; VehicleNumber : option string; Status : string;
  CreatedAt : Time; PartAJson : option string; PartBJson : option string; b_FromPlace : option string;
  b_FromStateCode : option string; b_ToPlace : option string; b_ToStateCode : option string;
  b_GoodsValue : option float64; b_Distance : option Z; b_DocType : option string; b_DocNo : option string;
  b_DocDate : option string; b_TransporterDocNo : option string; ExtensionCount : option Z;
  CancelReason : option string; CancelledAt : option Time; QRCode : option string; b_GenMode : option string }.
Record BillEvent := mkEvent {
  ev_ID : string; ev_EwbNumber : string; ev_TripID : string; ev_Type : string; ev_Payload : string;
  ev_CreatedBy : string; ev_CreatedAt : Time }.
(** [trips.eway_bill_ref], and the columns of [routes], [customers] and
    [company_settings] that only this component reads. *)
Record EwbTables := mkTables {
  eway_bills : list Bill; eway_bill_events : list BillEvent; eway_bill_ref : gmap string string;
  route_costs : gmap string (float64 * float64); customer_gst : gmap string (option string);
  company_gst : option (option string * string) }.
Definition set_bills (l : list Bill) (x : EwbTables) : EwbTables :=
  mkTables l (eway_bill_events x) (eway_bill_ref x) (route_costs x) (customer_gst x) (company_gst x).
Definition set_events (l : list BillEvent) (x : EwbTables) : EwbTables :=
  mkTables (eway_bills x) l (eway_bill_ref x) (route_costs x) (customer_gst x) (company_gst x).
Definition set_refs (m : gmap string string) (x : EwbTables) : EwbTables :=
  mkTables (eway_bills x) (eway_bill_events x) m (route_costs x) (customer_gst x) (company_gst x).
Abbreviation EM := (XM EwbTables (list Call)).

Definition by_number (n : string) (b : Bill) : bool := String.eqb (EwbNumber b) n.
Definition by_trip (t : string) (b : Bill) : bool := bool_decide (b_TripID b = Some t).
Definition update_bills (p : Bill → bool) (f : Bill → Bill) (x : EwbTables) : EwbTables :=
  set_bills ((λ b, if p b then f b else b) <$> eway_bills x) x.

(** The SET clauses. *)
Definition set_regenerated (r b : Bill) : Bill :=
  mkBill (ID b) (b_TripID b) (EwbNumber r) (IRN b) (GenerationDate b) (ValidUntil r) (b_TransporterID b)
    (VehicleNumber b) (Status r) (CreatedAt b) (PartAJson r) (PartBJson b) (b_FromPlace b) (b_FromStateCode b)
    (b_ToPlace b) (b_ToStateCode b) (b_GoodsValue b) (b_Distance b) (b_DocType b) (b_DocNo b) (b_DocDate b)
    (b_TransporterDocNo b) (ExtensionCount b) (CancelReason b) (CancelledAt b) (QRCode r) (b_GenMode r).
Definition set_part_b (vehicle transporter json : string) (b : Bill) : Bill :=
  mkBill (ID b) (b_TripID b) (EwbNumber b) (IRN b) (GenerationDate b) (ValidUntil b) (Some transporter)
    (Some vehicle) "active" (CreatedAt b) (PartAJson b) (Some json) (b_FromPlace b) (b_FromStateCode b)
    (b_ToPlace b) (b_ToStateCode b) (b_GoodsValue b) (b_Distance b) (b_DocType b) (b_DocNo b) (b_DocDate b)
    (b_TransporterDocNo b) (ExtensionCount b) (CancelReason b) (CancelledAt b) (QRCode b) (b_GenMode b).
Definition set_extended (until : Time) (b : Bill) : Bill :=
  mkBill (ID b) (b_TripID b) (EwbNumber b) (IRN b) (GenerationDate b) until (b_TransporterID b)
    (VehicleNumber b) "active" (CreatedAt b) (PartAJson b) (PartBJson b) (b_FromPlace b) (b_FromStateCode b)
    (b_ToPlace b) (b_ToStateCode b) (b_GoodsValue b) (b_Distance b) (b_DocType b) (b_DocNo b) (b_DocDate b)
    (b_TransporterDocNo b) ((λ n, n + 1) <$> ExtensionCount b) (CancelReason b) (CancelledAt b) (QRCode b)
    (b_GenMode b).
Definition set_cancelled (reason : string) (t : Time) (b : Bill) : Bill :=
  mkBill (ID b) (b_TripID b) (EwbNumber b) (IRN b) (GenerationDate b) (ValidUntil b) (b_TransporterID b)
    (VehicleNumber b) "cancelled" (CreatedAt b) (PartAJson b) (PartBJson b) (b_FromPlace b) (b_FromStateCode b)
    (b_ToPlace b) (b_ToStateCode b) (b_GoodsValue b) (b_Distance b) (b_DocType b) (b_DocNo b) (b_DocDate b)
    (b_TransporterDocNo b) (ExtensionCount b) (Some reason) (Some t) (QRCode b) (b_GenMode b).

Definition unique_failed (col : string) : error := Err ("UNIQUE constraint failed: " +:+ col).
Definition fk_failed : error := Err "FOREIGN KEY constraint failed".

(** [INSERT ... ON CONFLICT(trip_id) DO UPDATE SET ...].  The conflict target
    is tried first; an event that refers to the old number of the row holds
    it, where foreign keys are enforced. *)
Definition upsert_bill (foreign_keys : bool) (d : DB) (r : Bill) (x : EwbTables) : result unit * EwbTables :=
  match b_TripID r ≫= λ t, List.find (by_trip t) (eway_bills x) with
  | Some old =>
      if existsb (λ b, by_number (EwbNumber r) b && negb (String.eqb (ID b) (ID old))) (eway_bills x)
      then (Fail (unique_failed "eway_bills.ewb_number"), x)
      else if foreign_keys && negb (by_number (EwbNumber r) old) &&
              existsb (λ e, String.eqb (ev_EwbNumber e) (EwbNumber old)) (eway_bill_events x)
      then (Fail fk_failed, x)
      else (Ok tt, update_bills (λ b, String.eqb (ID b) (ID old)) (set_regenerated r) x)
  | None =>
      if existsb (λ b, String.eqb (ID b) (ID r)) (eway_bills x) then (Fail (unique_failed "eway_bills.id"), x)
      else if existsb (by_number (EwbNumber r)) (eway_bills x)
      then (Fail (unique_failed "eway_bills.ewb_number"), x)
      else if foreign_keys && negb (existsb (λ t, bool_decide (Some (TripRow.ID t) = b_TripID r)) (trips d))
      then (Fail fk_failed, x)
      else (Ok tt, set_bills (eway_bills x ++ [r])%list x)
  end.
Definition insert_event (foreign_keys : bool) (e : BillEvent) (x : EwbTables) : result unit * EwbTables :=
  if existsb (λ e', String.eqb (ev_ID e') (ev_ID e)) (eway_bill_events x)
  then (Fail (unique_failed "eway_bill_events.id"), x)
  else if foreign_keys && negb (existsb (by_number (ev_EwbNumber e)) (eway_bills x)) then (Fail fk_failed, x)
  else (Ok tt, set_events (eway_bill_events x ++ [e])%list x).

(** ** The details of a trip *)
Record TripDetails := mkDetails {
  td_TripNumber : string; td_Source : string; td_Dest : string; td_Distance : float64; td_Fare : float64;
  td_Price : float64; td_CustGST : option string; td_CompGST : option string; td_CompState : option string;
  td_VehicleNumber : option string }.
(** The zero values of the variables when the query finds no row or fails. *)
Definition no_details : TripDetails := mkDetails "" "" "" f0 f0 f0 None None None None.
Definition find_trip (id : string) (d : DB) : option TripRow.SQLTripModel :=
  List.find (λ t, String.eqb (TripRow.ID t) id) (trips d).
Definition trip_details (id : string) (d : DB) (x : EwbTables) : option TripDetails :=
  t ← find_trip id d;
  bid ← TripRow.BookingID t;
  b ← List.find (λ b, String.eqb (BookingRow.ID b) bid) (bookings d);
  r ← List.find (λ r, String.eqb (RouteRowID r) (TripRow.RouteID t)) (routes d);
  costs ← route_costs x !! TripRow.RouteID t;
  gst ← customer_gst x !! BookingRow.CustomerID b;
  let v := vid ← TripRow.VehicleID t; List.find (λ v, String.eqb (VehicleRow.ID v) vid) (vehicles d) in
  Some (mkDetails (TripRow.TripNumber t) (RouteSource r) (RouteDestination r) (fst costs) (snd costs)
          (BookingRow.Price b) gst (company_gst x ≫= fst) (snd <$> company_gst x)
          (VehicleRow.RegistrationNumber <$> v)).

(** The value the threshold is compared with: the request's, the booking's
    price, the route's fare. *)
Definition goods_value (req : GeneratePartARequest) (t : TripDetails) : float64 :=
  let v := GoodsValue req in
  let v := if (v <=? f0)%f64 then td_Price t else v in
  if (v <=? f0)%f64 then td_Fare t else v.
Definition or_text (s d : string) : string := if is_empty s then d else s.
Definition first_two (s : string) : string := String.substring 0 2 s.
Definition fill_defaults (today : string) (t : TripDetails) (req : GeneratePartARequest) : GeneratePartARequest :=
  let from := or_text (FromGSTIN req) (or_empty (td_CompGST t)) in
  let to_ := or_text (ToGSTIN req) (or_empty (td_CustGST t)) in
  mkPartA (TripID req) (or_text (DocType req) "INV") (or_text (DocNo req) (td_TripNumber t))
    (or_text (DocDate req) today) from to_ (or_text (FromPlace req) (td_Source t))
    (or_text (FromStateCode req)
       (match nonempty (td_CompState t) with
        | Some s => s
        | None => if 2 <=? len from then first_two from else "27"
        end))
    (or_text (ToPlace req) (td_Dest t))
    (or_text (ToStateCode req) (if 2 <=? len to_ then first_two to_ else "07"))
    (TransporterID req) (GoodsValue req)
    (if Distance req <=? 0 then f64_to_int64 (td_Distance t) else Distance req)
    (TransporterDocNo req) (or_text (GenMode req) "MANUAL") (Force req).

(** [haversineDistance], in kilometres. *)
Section Distance.
Context `{GoMath}.
Open Scope f64_scope.
Definition per_degree : float64 := Cephes.Pi / f64_of_Z 180.
Definition haversineDistance (lat1 lon1 lat2 lon2 : float64) : float64 :=
  let dLat := (lat2 - lat1) * per_degree in
  let dLon := (lon2 - lon1) * per_degree in
  let two := f64_of_Z 2 in
  let a := Sin (dLat / two) * Sin (dLat / two)
           + Cos (lat1 * per_degree) * Cos (lat2 * per_degree) * Sin (dLon / two) * Sin (dLon / two) in
  let c := two * Atan2 (fsqrt a) (fsqrt (f1 - a)) in
  f64_of_Z 6371 * c.
End Distance.

(** ** The service *)
Section Service.
Context {env : Env} {gm : GoMath} {columns : Columns} {provider : Provider}.
(** The configuration, and whether the connection enforces foreign keys. *)
Context (config : Config) (foreign_keys : bool).

(** [NewEWayBillService]. *)
Definition cfg : Config :=
  mkConfig (Interval config) (if (ExtensionKM config =? f0)%f64 then f64_of_Z 5 else ExtensionKM config)
    (ExtensionLeadSeconds config)
    (if (MinInvoiceValue config =? f0)%f64 then f64_of_Z 50000 else MinInvoiceValue config).

Definition ask (c : Call) : EM EWayBill := λ s,
  (respond (s_out s) c, (s_world s, s_tables s, (s_out s ++ [c])%list)).
Definition provider_error (m : EM EWayBill) : EM EWayBill := SM_wrap "ewaybill provider error" m.

Definition logEvent (ewbNumber tripID eventType payload createdBy : string) : EM unit :=
  id ← core GenerateUUID;
  SM_ignore (xexec (λ now _ x, insert_event foreign_keys
    (mkEvent id ewbNumber tripID eventType payload createdBy now) x)).

Definition scan_failed (col : string) : error := Err ("sql: Scan error: converting NULL in " +:+ col).
(** [getByQuery]: three columns are scanned into plain numbers. *)
Definition record_of (b : Bill) : result EWayBillRecord :=
  match b_GoodsValue b, b_Distance b, ExtensionCount b with
  | Some v, Some dist, Some n =>
      Ok (mkRecord (ID b) (or_empty (b_TripID b)) (EwbNumber b) (IRN b) (Status b) (GenerationDate b)
            (ValidUntil b) (nonempty (VehicleNumber b)) (b_TransporterID b) (or_empty (QRCode b))
            (or_empty (b_FromPlace b)) (or_empty (b_FromStateCode b)) (or_empty (b_ToPlace b))
            (or_empty (b_ToStateCode b)) v dist (or_empty (b_DocType b)) (or_empty (b_DocNo b))
            (or_empty (b_DocDate b)) (or_empty (b_TransporterDocNo b)) n (or_empty (CancelReason b))
            (CancelledAt b) (or_empty (b_GenMode b)) (CreatedAt b))
  | None, _, _ => Fail (scan_failed "goods_value")
  | _, None, _ => Fail (scan_failed "distance")
  | _, _, None => Fail (scan_failed "extension_count")
  end.
Definition not_found {A} (m : EM A) : EM A :=
  SM_map_err (λ e, if is_no_rows e then ErrEWBNotFound else e) m.
Definition getByQuery (p : Bill → bool) : EM EWayBillRecord :=
  b ← not_found (xquery_row (λ _ _ x, List.find p (eway_bills x)));
  SM_lift (record_of b).
Definition GetByNumber (ewbNumber : string) : EM EWayBillRecord := getByQuery (by_number ewbNumber).
(** [trip_id] is unique: the ORDER BY has one row to order. *)
Definition GetByTrip (tripID : string) : EM EWayBillRecord := getByQuery (by_trip tripID).

(** [GeneratePartA]. *)
Definition new_bill (id : string) (now : Time) (req : GeneratePartARequest) (v : float64) (vehicle : option string)
    (resp : EWayBill) : Bill :=
  mkBill id (Some (TripID req)) (e_EwbNumber resp) None (e_GeneratedAt resp) (e_ValidUpto resp)
    (Some (TransporterID req)) (nonempty vehicle) "active" now (Some (MarshalPartA req)) None
    (Some (FromPlace req)) (Some (FromStateCode req)) (Some (ToPlace req)) (Some (ToStateCode req))
    (Some v) (Some (Distance req)) (Some (DocType req)) (Some (DocNo req)) (Some (DocDate req))
    (Some (TransporterDocNo req)) (Some 0) None None (Some (e_QRCode resp)) (Some (GenMode req)).
(** The record handed back is made of the request: its id is not the row's
    when the trip had a bill. *)
Definition new_record (id : string) (now : Time) (req : GeneratePartARequest) (v : float64) (resp : EWayBill) : EWayBillRecord :=
  mkRecord id (TripID req) (e_EwbNumber resp) None "active" (e_GeneratedAt resp) (e_ValidUpto resp) None None
    (e_QRCode resp) (FromPlace req) (FromStateCode req) (ToPlace req) (ToStateCode req) v (Distance req)
    (DocType req) (DocNo req) (DocDate req) "" 0 "" None (GenMode req) now.
Definition today (req : GeneratePartARequest) : EM string :=
  if is_empty (DocDate req) then (now ← core Now; mret (FormatDate now)) else mret "".
Definition GeneratePartA (req : GeneratePartARequest) : EM EWayBillRecord :=
  (when is_empty (TripID req) fail ErrTripRequired;
   found ← SM_try (xquery_row (λ _ d x, trip_details (TripID req) d x));
   let t := match found with Ok t => t | Fail _ => no_details end in
   let v := goods_value req t in
   when (v <=? MinInvoiceValue cfg)%f64 && negb (Force req) fail ErrGoodsValueTooLow;
   date ← today req;
   let req := fill_defaults date t req in
   resp ← provider_error (ask (CallGeneratePartA (mkGenerateRequest (DocNo req) (FromGSTIN req) (ToGSTIN req)
            (TransporterID req) (or_empty (td_VehicleNumber t)) (Distance req) v)));
   id ← core GenerateUUID;
   now ← core Now;
   _ ← SM_wrap "failed to persist eway bill"
         (xexec (λ _ d x, upsert_bill foreign_keys d (new_bill id now req v (td_VehicleNumber t) resp) x));
   _ ← SM_ignore (xwrite (λ _ x, set_refs (<[TripID req := e_EwbNumber resp]> (eway_bill_ref x)) x));
   _ ← logEvent (e_EwbNumber resp) (TripID req) "PART_A_GENERATED" (MarshalPartA req) "system";
   mret (new_record id now req v resp))%go.

Definition trip_of_bill (ewbNumber : string) : EM (option string) :=
  b ← not_found (xquery_row (λ _ _ x, List.find (by_number ewbNumber) (eway_bills x)));
  mret (b_TripID b).

(** [AttachPartB]. *)
Definition AttachPartB (ewbNumber vehicleNumber transporterID : string) : EM EWayBillRecord :=
  (when is_empty ewbNumber || is_empty vehicleNumber fail ErrPartBRequired;
   trip ← trip_of_bill ewbNumber;
   _ ← provider_error (ask (CallAttachPartB ewbNumber vehicleNumber transporterID));
   now ← core Now;
   let json := MarshalPartB [("vehicle_number", vehicleNumber); ("transporter_id", transporterID);
                             ("attached_at", FormatRFC3339 now)]%string in
   _ ← xwrite (λ _ x, update_bills (by_number ewbNumber) (set_part_b vehicleNumber transporterID json) x);
   _ ← logEvent ewbNumber (or_empty trip) "PART_B_ADDED" json "system";
   GetByNumber ewbNumber)%go.

(** *** The evidence that a vehicle is near its destination *)
Definition time_column (r : Reading) : string := time_text (rd_DeviceTime r) (rd_Offset r).
Definition newest_position (vehicleID : string) (d : DB) : option (float64 * float64) :=
  p ← head (order_by (λ p q, String.leb (time_column (po_Reading q)) (time_column (po_Reading p)))
        (List.filter (λ p, String.eqb (po_VehicleID p) vehicleID) (telemetry_positions (ops d))));
  Some (rd_Latitude (po_Reading p), rd_Longitude (po_Reading p)).
Definition latest_position (vehicleID : string) (d : DB) : option (float64 * float64) :=
  p ← List.find (λ p, String.eqb (la_VehicleID p) vehicleID) (vehicle_latest_position (ops d));
  Some (rd_Latitude (la_Reading p), rd_Longitude (la_Reading p)).
(** A NULL coordinate cannot be scanned: as no row. *)
Definition newest_snapshot (vehicleID : string) (d : DB) : option (float64 * float64) :=
  p ← head (order_by (λ p q, sn_Timestamp q <=? sn_Timestamp p)
        (List.filter (λ p, bool_decide (sn_VehicleID p = Some vehicleID)) (telemetry_snapshots (ops d))));
  lat ← sn_Latitude p; lng ← sn_Longitude p; Some (lat, lng).
(** [name LIKE '%' || trip_number || '%']: trip numbers hold no wildcards. *)
Definition destination_of (tripID : string) (d : DB) : option (option (float64 * float64)) :=
  t ← find_trip tripID d;
  g ← List.find (λ g,
        (String.eqb (Geo.RouteName g) (TripRow.RouteID t) ||
         contains (ToLower (Geo.Name g)) (ToLower (TripRow.TripNumber t)) ||
         String.eqb (Geo.ID g) (TripRow.RouteID t)) &&
        (String.eqb (Geo.Kind g) "drop" || String.eqb (Geo.Kind g) "destination") && Geo.IsActive g)
        (geofences (ops d));
  (** zero coordinates are stored as NULL *)
  Some (if (Geo.CenterLat g =? f0)%f64 || (Geo.CenterLng g =? f0)%f64 then None
        else Some (Geo.CenterLat g, Geo.CenterLng g)).
Definition first_ok {A} (m k : EM A) : EM A :=
  r ← SM_try m; match r with Ok a => mret a | Fail _ => k end.
Definition near (p q : float64 * float64) : bool :=
  (haversineDistance (fst p) (snd p) (fst q) (snd q) <=? ExtensionKM cfg)%f64.
Definition verifyGeofenceEvidence (tripID vehicleID : string) : EM bool :=
  pos ← SM_try (first_ok (xquery_row (λ _ d _, latest_position vehicleID d))
          (first_ok (xquery_row (λ _ d _, newest_position vehicleID d))
             (xquery_row (λ _ d _, newest_snapshot vehicleID d))));
  match pos with
  | Fail _ => mret false
  | Ok p =>
      dest ← SM_try (xquery_row (λ _ d _, destination_of tripID d));
      mret (match dest with Ok (Some q) => near p q | _ => true end)
  end.

(** [Extend]. *)
Definition vehicle_of_trip (tripID : option string) (d : DB) : option string :=
  id ← tripID; t ← find_trip id d; TripRow.VehicleID t.
Definition bill_to_extend (ewbNumber : string) : EM (Bill * option string) :=
  r ← not_found (xquery_row (λ _ d x,
        b ← List.find (by_number ewbNumber) (eway_bills x); Some (b, vehicle_of_trip (b_TripID b) d)));
  match ExtensionCount (fst r) with Some _ => mret r | None => SM_fail (scan_failed "extension_count") end.
Definition Extend (ewbNumber : string) (req : ExtendRequest) : EM EWayBillRecord :=
  (r ← bill_to_extend ewbNumber;
   let b := fst r in
   when negb (String.eqb (Status b) "active") fail ErrNotActive;
   when 1 <=? default 0 (ExtensionCount b) fail ErrExtensionLimitExceeded;
   evidence ← match nonempty (snd r), nonempty (b_TripID b) with
              | Some vehicleID, Some tripID => verifyGeofenceEvidence tripID vehicleID
              | _, _ => mret false
              end;
   if negb evidence then
     _ ← logEvent ewbNumber (or_empty (b_TripID b)) "EXTENSION_DENIED"
           ("{" +:+ quoted "reason" +:+ ":" +:+ quoted "no_geofence_evidence" +:+ "}") "system";
     SM_fail ErrNoGeofenceEvidence
   else
     let req := mkExtend ewbNumber (x_FromPlace req) (x_FromStateCode req) (x_RemainingDistance req)
                  (x_TransitToDate req) (x_Reason req) in
     resp ← SM_wrap "ewaybill provider extend error" (ask (CallExtend ewbNumber req));
     let until := if time_IsZero (e_ValidUpto resp) then ValidUntil b + 24 * hour else e_ValidUpto resp in
     _ ← xwrite (λ _ x, update_bills (by_number ewbNumber) (set_extended until) x);
     _ ← logEvent ewbNumber (or_empty (b_TripID b)) "EXTENDED" (MarshalExtend req) "system";
     GetByNumber ewbNumber)%go.

(** [Cancel]. *)
Definition Cancel (ewbNumber reason : string) : EM EWayBillRecord :=
  trip ← trip_of_bill ewbNumber;
  _ ← SM_wrap "ewaybill provider cancel error" (ask (CallCancel ewbNumber reason));
  now ← core Now;
  _ ← xwrite (λ _ x, update_bills (by_number ewbNumber) (set_cancelled reason now) x);
  _ ← logEvent ewbNumber (or_empty trip) "CANCELLED"
        ("{" +:+ quoted "reason" +:+ ":" +:+ QuoteReason reason +:+ "}")%string "system";
  GetByNumber ewbNumber.

(** ** Subscriptions (autogenerate.go) *)
Definition isAutoGenerateEnabled : EM bool :=
  r ← SM_try (xquery_row (λ _ d _,
        List.find (λ c, String.eqb (cc_Key c) "ewaybill_auto_generate") (company_config (ops d))));
  mret (match r with
        | Ok c => let v := TrimSpace (ToLower (cc_Value c)) in
            String.eqb v "true" || String.eqb v "1" || String.eqb v "yes"
        | Fail _ => true
        end).
Definition price_of_trip (tripID : string) (d : DB) : option float64 :=
  t ← find_trip tripID d;
  bid ← TripRow.BookingID t;
  b ← List.find (λ b, String.eqb (BookingRow.ID b) bid) (bookings d);
  Some (BookingRow.Price b).
Definition auto_request (tripID : string) (price : float64) : GeneratePartARequest :=
  mkPartA tripID "" "" "" "" "" "" "" "" "" "" price 0 "" "AUTO" false.
(** The handler of ["TripConfirmedEvent"] and ["trip.confirmed"]. *)
Definition on_trip_confirmed (tripID : string) : EM unit :=
  if is_empty tripID then mret tt
  else auto ← isAutoGenerateEnabled;
       if negb auto then mret tt
       else price ← SM_try (xquery_row (λ _ d _, price_of_trip tripID d));
            match price with
            | Fail _ => mret tt
            | Ok v => if (v <=? MinInvoiceValue cfg)%f64 then mret tt
                      else SM_ignore (GeneratePartA (auto_request tripID v))
            end.
(** The handler of ["TripAssignedEvent"]. *)
Definition no_vehicle (b : Bill) : bool := match nonempty (VehicleNumber b) with Some _ => false | None => true end.
Definition on_trip_assigned (tripID vehicleID : string) : EM unit :=
  if is_empty tripID || is_empty vehicleID then mret tt
  else reg ← SM_try (xquery_row (λ _ d _,
               VehicleRow.RegistrationNumber <$> List.find (λ v, String.eqb (VehicleRow.ID v) vehicleID) (vehicles d)));
       match reg with
       | Fail _ => mret tt
       | Ok r =>
           if is_empty r then mret tt
           else b ← SM_try (xquery_row (λ _ _ x, List.find (λ b, by_trip tripID b && no_vehicle b) (eway_bills x)));
                match b with
                | Ok b => if is_empty (EwbNumber b) then mret tt else SM_ignore (AttachPartB (EwbNumber b) r "")
                | Fail _ => mret tt
                end
       end.

(** ** The expiry monitor (monitor.go) *)
Definition leadSec : Z := if ExtensionLeadSeconds config <=? 0 then 14400 else ExtensionLeadSeconds config.
Definition expiring (now : Time) (d : DB) (x : EwbTables) : list (string * string) :=
  take 50 ((λ b, (EwbNumber b, or_empty (TripRow.Status <$> (b_TripID b ≫= λ t, find_trip t d)))) <$>
    List.filter (λ b, (String.eqb (Status b) "active" || String.eqb (Status b) "part_a") &&
                      (ValidUntil b <=? now + leadSec * Dwell.second)) (eway_bills x)).
Definition monitor_one (item : string * string) : EM unit :=
  let '(ewb, status) := item in
  if existsb (String.eqb status) ["in_transit"; "started"; "reached_pickup"]%string then
    SM_ignore (Extend ewb (mkExtend ewb "" "" 0 "" "auto_expiry_monitor_extension"))
  else if existsb (String.eqb status) ["completed"; "cancelled"]%string then
    SM_ignore (Cancel ewb "trip_completed_or_cancelled")
  else mret tt.
Definition monitor_tick : EM unit :=
  items ← SM_try (xquery (λ now d x, expiring now d x));
  match items with Ok l => SM_iter monitor_one l | Fail _ => mret tt end.

(** ** The gate of the worker (worker.go) *)
(** The columns migrations 00031 and 00047 give [eway_bills]. *)
Definition eway_bills_columns : list string :=
  ["id"; "trip_id"; "ewb_number"; "irn"; "generation_date"; "valid_until"; "transporter_id"; "vehicle_number";
   "status"; "raw_response"; "created_at"; "part_a_json"; "part_b_json"; "from_place"; "from_state_code";
   "to_place"; "to_state_code"; "goods_value"; "distance"; "doc_type"; "doc_no"; "doc_date"; "transporter_doc_no";
   "extension_count"; "cancel_reason"; "cancelled_at"; "qr_code"; "ack_no"; "gen_mode"]%string.
Definition SchemaReady : EM bool :=
  n ← SM_try (xquery (λ _ _ _, List.length (List.filter (String.eqb "part_b_updated_at") eway_bills_columns)));
  mret (match n with Ok n => Nat.ltb 0 n | Fail _ => false end).
End Service.

(** ** Invariant of the bills *)
Record bills_ok (x : EwbTables) : Prop := {
  ok_ids : NoDup (ID <$> eway_bills x);
  ok_numbers : ∀ a b, a ∈ eway_bills x → b ∈ eway_bills x → EwbNumber a = EwbNumber b → a = b;
  ok_trips : ∀ a b t, a ∈ eway_bills x → b ∈ eway_bills x → b_TripID a = Some t → b_TripID b = Some t → a = b;
  ok_count : ∀ b, b ∈ eway_bills x → ∃ n, ExtensionCount b = Some n ∧ 0 <= n <= 1;
  ok_status : ∀ b, b ∈ eway_bills x → Status b = "active"%string ∨ Status b = "cancelled"%string }.

Lemma bill_by_id (l : list Bill) a b : NoDup (ID <$> l) → a ∈ l → b ∈ l → ID a = ID b → a = b.
Proof.
  intros Hnd [i Hi]%list_elem_of_lookup [j Hj]%list_elem_of_lookup Hid.
  assert (i = j) as ->; [|congruence].
  eapply (NoDup_lookup (ID <$> l)); [done|by rewrite list_lookup_fmap, Hi|by rewrite list_lookup_fmap, Hj; cbn; congruence].
Qed.
Lemma in_updated p f x b' :
  b' ∈ eway_bills (update_bills p f x) →
  ∃ b, b ∈ eway_bills x ∧ ((p b = true ∧ b' = f b) ∨ (p b = false ∧ b' = b)).
Proof.
  intros (b & -> & Hb)%list_elem_of_fmap. exists b. split; [done|]. destruct (p b); [left|right]; done.
Qed.
Lemma updated_ids p f x :
  (∀ b, ID (f b) = ID b) → ID <$> eway_bills (update_bills p f x) = ID <$> eway_bills x.
Proof.
  intros Hf. cbn. rewrite <- list_fmap_compose. apply list_fmap_ext. intros i b _. cbn. by destruct (p b).
Qed.

(** Changes of a row that leave its keys, and keep it well-formed. *)
Lemma update_ok p f x :
  bills_ok x →
  (∀ b, ID (f b) = ID b ∧ EwbNumber (f b) = EwbNumber b ∧ b_TripID (f b) = b_TripID b) →
  (∀ b, b ∈ eway_bills x → p b = true → ∃ n, ExtensionCount (f b) = Some n ∧ 0 <= n <= 1) →
  (∀ b, b ∈ eway_bills x → p b = true → Status (f b) = "active"%string ∨ Status (f b) = "cancelled"%string) →
  bills_ok (update_bills p f x).
Proof.
  intros [H1 H2 H3 H4 H5] Hf Hn Hs.
  assert (Hkeys : ∀ b', b' ∈ eway_bills (update_bills p f x) → ∃ b, b ∈ eway_bills x ∧
            b' = (if p b then f b else b) ∧ EwbNumber b' = EwbNumber b ∧ b_TripID b' = b_TripID b).
  { intros b' (b & Hb & [[Hp ->]|[Hp ->]])%in_updated; exists b; rewrite Hp; [|done]. split_and!; try done; apply Hf. }
  constructor.
  - rewrite updated_ids; [done|apply Hf].
  - intros a' b' (a & Ha & -> & Hka & _)%Hkeys (b & Hb & -> & Hkb & _)%Hkeys Heq.
    assert (a = b) as -> by (apply H2; [done..|congruence]). done.
  - intros a' b' t (a & Ha & -> & _ & Hta)%Hkeys (b & Hb & -> & _ & Htb)%Hkeys Hat Hbt.
    assert (a = b) as -> by (apply (H3 a b t); [done..|congruence|congruence]). done.
  - intros b' (b & Hb & [[Hp ->]|[Hp ->]])%in_updated; [by apply Hn|by apply H4].
  - intros b' (b & Hb & [[Hp ->]|[Hp ->]])%in_updated; [by apply Hs|by apply H5].
Qed.

Definition fresh_bill (r : Bill) : Prop :=
  ExtensionCount r = Some 0 ∧ Status r = "active"%string.
Lemma regenerated_ok r old x :
  fresh_bill r → bills_ok x → old ∈ eway_bills x →
  existsb (λ b, by_number (EwbNumber r) b && negb (String.eqb (ID b) (ID old))) (eway_bills x) = false →
  bills_ok (update_bills (λ b, String.eqb (ID b) (ID old)) (set_regenerated r) x).
Proof.
  intros [Hc Hs] [H1 H2 H3 H4 H5] Hin Hdup.
  assert (Hother : ∀ b, b ∈ eway_bills x → EwbNumber b = EwbNumber r → b = old).
  { intros b Hb Heq. apply (bill_by_id (eway_bills x)); try done. apply not_true_iff_false in Hdup.
    destruct (String.eqb_spec (ID b) (ID old)) as [|Hne]; [done|]. destruct Hdup. apply existsb_exists. exists b.
    split; [by apply list_elem_of_In|]. unfold by_number. apply andb_true_iff. split; [by apply String.eqb_eq|].
    apply negb_true_iff. by apply String.eqb_neq. }
  assert (Hrow : ∀ b', b' ∈ eway_bills (update_bills (λ b, String.eqb (ID b) (ID old)) (set_regenerated r) x) →
            b' = set_regenerated r old ∨ (b' ∈ eway_bills x ∧ b' ≠ old)).
  { intros b' (b & Hb & [[Hp ->]|[Hp ->]])%in_updated.
    - apply String.eqb_eq in Hp. left. by rewrite (bill_by_id _ b old H1 Hb Hin Hp).
    - right. split; [done|]. intros ->. by rewrite String.eqb_refl in Hp. }
  constructor.
  + by rewrite updated_ids.
  + intros a b [->|[Ha Hna]]%Hrow [->|[Hb Hnb]]%Hrow Heq; [done| | |by apply H2].
    * destruct Hnb. by apply Hother.
    * destruct Hna. by apply Hother.
  + intros a b u [->|[Ha Hna]]%Hrow [->|[Hb Hnb]]%Hrow Hta Htb; [done| | |by apply (H3 a b u)].
    * destruct Hnb. by apply (H3 b old u).
    * destruct Hna. by apply (H3 a old u).
  + intros b [->|[Hb _]]%Hrow; [exact (H4 old Hin)|by apply H4].
  + intros b [->|[Hb _]]%Hrow; [left; exact Hs|by apply H5].
Qed.
Lemma inserted_ok r x :
  fresh_bill r → bills_ok x →
  (b_TripID r ≫= λ t, List.find (by_trip t) (eway_bills x)) = None →
  existsb (λ b, String.eqb (ID b) (ID r)) (eway_bills x) = false →
  existsb (by_number (EwbNumber r)) (eway_bills x) = false →
  bills_ok (set_bills (eway_bills x ++ [r])%list x).
Proof.
  intros [Hc Hs] [H1 H2 H3 H4 H5] Hold Hid Hnum.
  assert (Hnew : ∀ b, b ∈ eway_bills x → ID b ≠ ID r ∧ EwbNumber b ≠ EwbNumber r ∧ (∀ t, b_TripID r = Some t → b_TripID b ≠ Some t)).
  { intros b Hb. apply list_elem_of_In in Hb. split_and!.
    - intros Heq. apply not_true_iff_false in Hid. apply Hid, existsb_exists. exists b. split; [done|by apply String.eqb_eq].
    - intros Heq. apply not_true_iff_false in Hnum. apply Hnum, existsb_exists. exists b. split; [done|by apply String.eqb_eq].
    - intros t Ht Heq. rewrite Ht in Hold. cbn in Hold. pose proof (find_none _ _ Hold b Hb) as Hn. unfold by_trip in Hn.
      by rewrite bool_decide_eq_true_2 in Hn. }
  constructor; cbn.
  + rewrite fmap_app. apply NoDup_app. split_and!; [done| |apply NoDup_singleton].
    intros i (b & -> & Hb)%list_elem_of_fmap Hi%list_elem_of_singleton. by destruct (Hnew b Hb).
  + intros a b [Ha| ->%list_elem_of_singleton]%elem_of_app [Hb| ->%list_elem_of_singleton]%elem_of_app Heq;
      [by apply H2|by destruct (Hnew a Ha) as (_ & [] & _)|by destruct (Hnew b Hb) as (_ & [] & _)|done].
  + intros a b t [Ha| ->%list_elem_of_singleton]%elem_of_app [Hb| ->%list_elem_of_singleton]%elem_of_app Hta Htb;
      [by apply (H3 a b t)|by destruct (proj2 (proj2 (Hnew a Ha)) t Htb)|by destruct (proj2 (proj2 (Hnew b Hb)) t Hta)|done].
  + intros b [Hb| ->%list_elem_of_singleton]%elem_of_app; [by apply H4|]. exists 0. split; [done|lia].
  + intros b [Hb| ->%list_elem_of_singleton]%elem_of_app; [by apply H5|by left].
Qed.
Lemma upsert_ok fk d r x : fresh_bill r → bills_ok x → bills_ok (snd (upsert_bill fk d r x)).
Proof.
  intros Hr Hok. unfold upsert_bill. destruct (b_TripID r ≫= _) as [old|] eqn:Hold.
  - destruct (existsb _ _) eqn:Hdup; [done|]. destruct (_ && _ && _); [done|]. apply regenerated_ok; try done.
    destruct (b_TripID r) as [t|]; [|done]. cbn in Hold. apply find_some in Hold as [Hin _]. by apply list_elem_of_In.
  - destruct (existsb _ _) eqn:Hid; [done|]. destruct (existsb (by_number _) _) eqn:Hnum; [done|].
    destruct (_ && _); [done|]. by apply inserted_ok.
Qed.

(** ** Every operation keeps it *)
Section Operations.
Context {env : Env} {gm : GoMath} {columns : Columns} {provider : Provider} (config : Config) (foreign_keys : bool).

Definition kept (x x' : EwbTables) : Prop := bills_ok x → bills_ok x'.
#[local] Instance kept_preorder : PreOrder kept.
Proof. split; unfold kept; [auto|]. intros a b d. auto. Qed.

Lemma ask_kept c : preserves (on_tables kept) (ask c).
Proof. intros [[w x] o]. unfold on_tables, kept, ask. cbn. auto. Qed.
Lemma same_bills_kept x x' : eway_bills x' = eway_bills x → kept x x'.
Proof. intros He [H1 H2 H3 H4 H5]. constructor; rewrite He; done. Qed.
Lemma event_kept fk e x : kept x (snd (insert_event fk e x)).
Proof. apply same_bills_kept. unfold insert_event. destruct (existsb _ _); [done|]. by destruct (_ && _). Qed.
Lemma part_b_kept n v t j x : kept x (update_bills (by_number n) (set_part_b v t j) x).
Proof. intros Hok. apply update_ok; [done|done| |by left]. intros b Hb _. exact (ok_count _ Hok b Hb). Qed.
Lemma cancelled_kept n r t x : kept x (update_bills (by_number n) (set_cancelled r t) x).
Proof. intros Hok. apply update_ok; [done|done| |by right]. intros b Hb _. exact (ok_count _ Hok b Hb). Qed.
Ltac bills_leaf u :=
  first [ apply event_kept | apply part_b_kept | apply cancelled_kept
        | by apply same_bills_kept | intros ?; by apply upsert_ok ].
Ltac preserve_bills := preserve_tables ltac:(fun _ => bills_leaf ()).

Lemma logEvent_kept n t e p c : preserves (on_tables kept) (logEvent foreign_keys n t e p c).
Proof. unfold logEvent. preserve_bills. Qed.

(** *** Extension *)
(** What the reads see and leave. *)
Definition reads (s s' : World * EwbTables * list Call) : Prop :=
  s_db s' = s_db s ∧ s_tables s' = s_tables s ∧ s_out s' = s_out s.
#[local] Instance reads_preorder : PreOrder reads.
Proof. split; [done|]. intros a b d (?&?&?) (?&?&?). split_and!; congruence. Qed.
Lemma xquery_row_reads {A} (q : Time → DB → EwbTables → option A) : preserves reads (xquery_row q).
Proof. intros s. destruct (xquery_row q s) as [r s'] eqn:H. by apply xquery_row_inv in H as (? & ? & ? & _). Qed.
Lemma verify_reads t v : preserves reads (verifyGeofenceEvidence config t v).
Proof.
  unfold verifyGeofenceEvidence, first_ok. preserve_with ltac:(fun _ => apply xquery_row_reads).
Qed.

(** Where a vehicle was last seen, and whether that is evidence. *)
Definition last_seen (v : string) (d : DB) : option (float64 * float64) :=
  or_else (latest_position v d) (or_else (newest_position v d) (newest_snapshot v d)).
Definition evidence (d : DB) (t v : string) : bool :=
  match last_seen v d with
  | None => false
  | Some p => match destination_of t d with Some (Some q) => near config p q | _ => true end
  end.
Lemma verify_run t v s :
  healthy → fst (verifyGeofenceEvidence config t v s) = Ok (evidence (s_db s) t v).
Proof.
  intros Hh. unfold verifyGeofenceEvidence, first_ok, evidence, last_seen.
  cbv [mbind SM_mbind SM_bind SM_try].
  repeat (rewrite xquery_row_run by done; cbn [s_set s_world s_tables s_out fst snd]).
  change (s_db (_, _, _)) with (s_db s).
  destruct (latest_position v (s_db s)) as [p|]; cbn;
    [|rewrite xquery_row_run by done; cbn; destruct (newest_position v _) as [p|]; cbn;
      [|rewrite xquery_row_run by done; cbn; destruct (newest_snapshot v _) as [p|]; cbn; [|done]]];
    rewrite xquery_row_run by done; cbn; by destruct (destination_of t _) as [[q|]|].
Qed.

Definition same_bills (x x' : EwbTables) : Prop := eway_bills x' = eway_bills x.
#[local] Instance same_bills_preorder : PreOrder same_bills.
Proof. split; unfold same_bills; [done|]. intros a b d. congruence. Qed.
Lemma event_same fk e x : same_bills x (snd (insert_event fk e x)).
Proof. unfold insert_event. destruct (existsb _ _); [done|]. by destruct (_ && _). Qed.
Lemma logEvent_same n t e p c : preserves (on_tables same_bills) (logEvent foreign_keys n t e p c).
Proof. unfold logEvent. preserve_tables ltac:(fun _ => apply event_same). Qed.
Lemma GetByNumber_same n : preserves (on_tables same_bills) (GetByNumber n).
Proof. unfold GetByNumber, getByQuery, not_found. preserve_tables ltac:(fun _ => fail). Qed.

Lemma nonempty_some o v : nonempty o = Some v → o = Some v.
Proof. destruct o as [x|]; cbn; [|done]. by destruct (is_empty x). Qed.
Lemma bill_to_extend_reads n : preserves reads (bill_to_extend n).
Proof. unfold bill_to_extend, not_found. preserve_with ltac:(fun _ => apply xquery_row_reads). Qed.
Lemma bill_to_extend_ok n s b v s0 :
  bill_to_extend n s = (Ok (b, v), s0) →
  List.find (by_number n) (eway_bills (s_tables s)) = Some b ∧ v = vehicle_of_trip (b_TripID b) (s_db s) ∧
  ∃ k, ExtensionCount b = Some k.
Proof.
  intros H. unfold bill_to_extend, not_found in H. apply bind_inv in H as [(e & _ & [=])|(p & s1 & Hq & H)].
  apply map_err_ok_inv in Hq. apply xquery_row_inv in Hq as (_ & _ & _ & Hq).
  destruct (List.find _ _) as [b'|]; [|done]. injection Hq as <-. cbn in H.
  destruct (ExtensionCount b') as [k|] eqn:Hk; [|done]. injection H as <- <- _. split_and!; eauto.
Qed.

Lemma then_fails {A} (m : EM unit) err s r s' :
  preserves (on_tables same_bills) m → (_ ← m; SM_fail err : EM A) s = (r, s') →
  eway_bills (s_tables s') = eway_bills (s_tables s) ∧ is_Ok r = false.
Proof.
  intros Hm H. specialize (Hm s). apply bind_inv in H as [(e & Hl & ->)|(u & s2 & Hl & H)]; rewrite Hl in Hm.
  - by split.
  - cbv [SM_fail] in H. injection H as <- <-. by split.
Qed.
(** After the UPDATE, whatever follows leaves the bills. *)
Lemma extend_write n until s0 (k : EM EWayBillRecord) r s' :
  preserves (on_tables same_bills) k →
  (_ ← xwrite (λ _ x, update_bills (by_number n) (set_extended until) x); k) s0 = (r, s') →
  (eway_bills (s_tables s') = eway_bills (s_tables s0) ∧ is_Ok r = false) ∨
  eway_bills (s_tables s') = eway_bills (update_bills (by_number n) (set_extended until) (s_tables s0)).
Proof.
  intros Hk H. apply bind_inv in H as [(e & Hw & ->)|(u & s1 & Hw & H)];
    apply xwrite_inv in Hw as (_ & _ & Hw); cbn [is_Ok] in Hw.
  - left. by rewrite Hw.
  - right. specialize (Hk s1). rewrite H in Hk. unfold on_tables, same_bills in Hk. cbn [snd] in Hk. by rewrite Hk, Hw.
Qed.
(** The course of an extension: either no bill changes and it fails, or the
    bill was active, never extended, and there was evidence. *)
Definition extension_granted (n : string) (s s' : World * EwbTables * list Call) : Prop :=
  ∃ b t v until s0 s1,
    List.find (by_number n) (eway_bills (s_tables s)) = Some b ∧ Status b = "active"%string ∧
    (∃ k, ExtensionCount b = Some k ∧ k < 1) ∧
    b_TripID b = Some t ∧ vehicle_of_trip (Some t) (s_db s) = Some v ∧
    reads s s0 ∧ verifyGeofenceEvidence config t v s0 = (Ok true, s1) ∧
    eway_bills (s_tables s') = eway_bills (update_bills (by_number n) (set_extended until) (s_tables s)).
Lemma extend_inv n req s r s' :
  Extend config foreign_keys n req s = (r, s') →
  (eway_bills (s_tables s') = eway_bills (s_tables s) ∧ is_Ok r = false) ∨ extension_granted n s s'.
Proof.
  intros H. unfold Extend in H. apply bind_inv in H as [(e & Hb & ->)|([b v] & s0 & Hb & H)].
  { left. pose proof (bill_to_extend_reads n s) as Hr. rewrite Hb in Hr. destruct Hr as (_ & Hr & _). cbn in Hr. by rewrite Hr. }
  pose proof (bill_to_extend_reads n s) as Hr. rewrite Hb in Hr. cbn [snd] in Hr.
  apply bill_to_extend_ok in Hb as (Hfind & -> & k & Hk). cbn [fst snd] in H. cbv zeta in H.
  assert (Hx : ∀ s1, reads s0 s1 → eway_bills (s_tables s1) = eway_bills (s_tables s)).
  { intros s1 (_ & -> & _). destruct Hr as (_ & -> & _). done. }
  destruct (String.eqb_spec (Status b) "active") as [Hst|]; cbn [negb] in H.
  2: { cbv [SM_fail] in H. injection H as <- <-. left. split; [by apply Hx|done]. }
  rewrite Hk in H. cbn [default from_option id] in H. destruct (Z.leb_spec 1 k).
  { cbv [SM_fail] in H. injection H as <- <-. left. split; [by apply Hx|done]. }
  assert (Hno : ∀ s1, reads s0 s1 → (_ ← logEvent foreign_keys n (or_empty (b_TripID b)) "EXTENSION_DENIED"
      ("{" +:+ quoted "reason" +:+ ":" +:+ quoted "no_geofence_evidence" +:+ "}") "system";
      SM_fail ErrNoGeofenceEvidence : EM EWayBillRecord) s1 = (r, s') →
      eway_bills (s_tables s') = eway_bills (s_tables s) ∧ is_Ok r = false).
  { intros s1 Hr1 H1. apply then_fails in H1 as [-> H1]; [|apply logEvent_same]. split; [by apply Hx|done]. }
  destruct (nonempty (vehicle_of_trip (b_TripID b) (s_db s))) as [v'|] eqn:Hv;
    [destruct (nonempty (b_TripID b)) as [t|] eqn:Ht|]; [|left; apply (Hno s0); [done|exact H]..].
  apply nonempty_some in Hv. apply nonempty_some in Ht.
  apply bind_inv in H as [(e & He & ->)|(ev & s1 & He & H)].
  { left. pose proof (verify_reads t v' s0) as Hr1. rewrite He in Hr1. cbn [snd] in Hr1. by rewrite (Hx _ Hr1). }
  pose proof (verify_reads t v' s0) as Hr1. rewrite He in Hr1. cbn [snd] in Hr1.
  destruct ev; cbn [negb] in H; [|left; by apply (Hno s1)].
  apply bind_inv in H as [(e & Ha & ->)|(resp & s2 & Ha & H)].
  { left. apply map_err_fail_inv in Ha as (e' & Ha & _). injection Ha as _ <-. by rewrite <- (Hx _ Hr1). }
  apply map_err_ok_inv in Ha. injection Ha as _ <-.
  apply extend_write in H; [|apply preserves_bind; [exact _|apply logEvent_same|intros _; apply GetByNumber_same]].
  destruct H as [[H Hf]|H]; [left; split; [|done]; by rewrite H, <- (Hx _ Hr1)|right].
  exists b, t, v'. eexists _, s0, s1. split_and!; [done|done|by eexists|done| |done|done|].
  - by rewrite <- Ht.
  - rewrite H. cbn. change (s_tables (s_world s1, s_tables s1, (s_out s1 ++ _)%list)) with (s_tables s1).
    by rewrite (Hx _ Hr1).
Qed.

Lemma Extend_kept n req : preserves (on_tables kept) (Extend config foreign_keys n req).
Proof.
  intros s Hok. destruct (Extend config foreign_keys n req s) as [r s'] eqn:H. cbn [snd].
  apply extend_inv in H as [[H _]|(b & t & v & until & s0 & s1 & Hb & Hst & (k & Hk & Hlt) & _ & _ & _ & _ & H)].
  - by apply (same_bills_kept (s_tables s)).
  - apply (same_bills_kept (update_bills (by_number n) (set_extended until) (s_tables s))); [done|].
    apply find_some in Hb as [Hb Hnum]. apply list_elem_of_In in Hb.
    apply update_ok; [done|done| |by left]. intros b' Hb' Hnum'.
    assert (b' = b) as ->.
    { apply (ok_numbers _ Hok); [done..|]. apply String.eqb_eq in Hnum, Hnum'. congruence. }
    exists (k + 1). cbn. rewrite Hk. split; [done|].
    destruct (ok_count _ Hok b Hb) as (k' & Hk' & Hle). rewrite Hk in Hk'. injection Hk' as <-. lia.
Qed.
Lemma GeneratePartA_kept req : preserves (on_tables kept) (GeneratePartA config foreign_keys req).
Proof.
  unfold GeneratePartA, today, provider_error. cbv zeta.
  preserve_with ltac:(fun _ => first [ apply logEvent_kept | apply ask_kept | tables_leaf ltac:(fun _ => bills_leaf ()) ]).
Qed.
Lemma AttachPartB_kept n v t : preserves (on_tables kept) (AttachPartB foreign_keys n v t).
Proof.
  unfold AttachPartB, trip_of_bill, GetByNumber, getByQuery, not_found, provider_error. cbv zeta.
  preserve_with ltac:(fun _ => first [ apply logEvent_kept | apply ask_kept | tables_leaf ltac:(fun _ => bills_leaf ()) ]).
Qed.
Lemma Cancel_kept n reason : preserves (on_tables kept) (Cancel foreign_keys n reason).
Proof.
  unfold Cancel, trip_of_bill, GetByNumber, getByQuery, not_found.
  preserve_with ltac:(fun _ => first [ apply logEvent_kept | apply ask_kept | tables_leaf ltac:(fun _ => bills_leaf ()) ]).
Qed.

Inductive op :=
| OpGenerate (req : GeneratePartARequest) | OpAttach (ewb vehicle transporter : string)
| OpExtend (ewb : string) (req : ExtendRequest) | OpCancel (ewb reason : string)
| OpConfirmed (trip : string) | OpAssigned (trip vehicle : string) | OpMonitor.
Definition run_op (o : op) : EM unit :=
  match o with
  | OpGenerate req => SM_ignore (GeneratePartA config foreign_keys req)
  | OpAttach n v t => SM_ignore (AttachPartB foreign_keys n v t)
  | OpExtend n req => SM_ignore (Extend config foreign_keys n req)
  | OpCancel n reason => SM_ignore (Cancel foreign_keys n reason)
  | OpConfirmed t => on_trip_confirmed config foreign_keys t
  | OpAssigned t v => on_trip_assigned foreign_keys t v
  | OpMonitor => monitor_tick config foreign_keys
  end.
Definition run_ops (l : list op) : EM unit := SM_iter (λ o, SM_ignore (run_op o)) l.

Ltac op_leaf u := first [ apply GeneratePartA_kept | apply AttachPartB_kept | apply Extend_kept | apply Cancel_kept
                        | tables_leaf ltac:(fun _ => bills_leaf ()) ].
Lemma run_op_kept o : preserves (on_tables kept) (run_op o).
Proof.
  destruct o; cbn [run_op]; unfold on_trip_confirmed, isAutoGenerateEnabled, on_trip_assigned, monitor_tick, monitor_one;
    preserve_with op_leaf.
Qed.

(** C27: however bills are generated, attached, extended, cancelled and swept
    by the monitor, whatever the provider answers and whichever statement
    fails: a number and a trip name one bill, a bill is active or cancelled,
    and none has been extended more than once. *)
Theorem bills_invariant l s : bills_ok (s_tables s) → bills_ok (s_tables (snd (run_ops l s))).
Proof.
  intros Hok. revert Hok. change (on_tables kept s (snd (run_ops l s))). revert s.
  change (preserves (on_tables kept) (run_ops l)). unfold run_ops. preserve_with ltac:(fun _ => apply run_op_kept).
Qed.

(** on a healthy database an extension is granted only for an active bill
    that was never extended, and on evidence: the vehicle of its trip was
    seen somewhere, and within the configured distance of the destination
    when the trip has one. *)
Theorem extension_needs_evidence n req s rec s' :
  healthy → Extend config foreign_keys n req s = (Ok rec, s') →
  ∃ b t v p, List.find (by_number n) (eway_bills (s_tables s)) = Some b ∧
    Status b = "active"%string ∧ (∃ k, ExtensionCount b = Some k ∧ k < 1) ∧
    b_TripID b = Some t ∧ vehicle_of_trip (Some t) (s_db s) = Some v ∧
    last_seen v (s_db s) = Some p ∧
    (∀ q, destination_of t (s_db s) = Some (Some q) → near config p q = true).
Proof.
  intros Hh H. apply extend_inv in H as [[_ [=]]|(b & t & v & until & s0 & s1 & Hb & Hst & Hk & Ht & Hv & Hr & Hev & _)].
  pose proof (verify_run t v s0 Hh) as Hrun. rewrite Hev in Hrun. cbn [fst] in Hrun. injection Hrun as Hrun.
  destruct Hr as (-> & _ & _) in Hrun. unfold evidence in Hrun.
  destruct (last_seen v (s_db s)) as [p|] eqn:Hp; [|done].
  exists b, t, v, p. split_and!; try done. intros q Hq. by rewrite Hq in Hrun.
Qed.

(** *** Generating again *)
Lemma Now_reads : preserves reads (core Now).
Proof. by intros [[w x] o]. Qed.
Lemma UUID_reads : preserves reads (core GenerateUUID).
Proof. by intros [[w x] o]. Qed.
Lemma reads_of {A} (m : EM A) s r s' : preserves reads m → m s = (r, s') → reads s s'.
Proof. intros Hm H. specialize (Hm s). by rewrite H in Hm. Qed.

(** An event refers to a bill by its number. *)
Definition logged (b : Bill) (x : EwbTables) : Prop := ∃ e, e ∈ eway_bill_events x ∧ ev_EwbNumber e = EwbNumber b.
Lemma upsert_blocked d r old x :
  b_TripID r ≫= (λ t, List.find (by_trip t) (eway_bills x)) = Some old → logged old x →
  EwbNumber r ≠ EwbNumber old → ∃ e, upsert_bill true d r x = (Fail e, x).
Proof.
  intros Hold (ev & Hin & Hev) Hne. unfold upsert_bill. rewrite Hold. destruct (existsb _ (eway_bills x)); [by eexists|].
  unfold by_number at 1. destruct (String.eqb_spec (EwbNumber old) (EwbNumber r)) as [He|]; [by symmetry in He|].
  assert (existsb (λ e, String.eqb (ev_EwbNumber e) (EwbNumber old)) (eway_bill_events x) = true) as ->; [|by eexists].
  apply existsb_exists. exists ev. split; [by apply list_elem_of_In|by apply String.eqb_eq].
Qed.

(** C28: where foreign keys are enforced, a trip whose bill has an event on
    record, as every generated bill has, can never be given another one, not
    even after the first was cancelled: whatever the provider issues under a
    new number, the generation fails and the bills stay as they are. *)
Theorem regeneration_fails req s r s' old :
  foreign_keys = true →
  List.find (by_trip (TripID req)) (eway_bills (s_tables s)) = Some old → logged old (s_tables s) →
  (∀ c resp, respond (s_out s) c = Ok resp → e_EwbNumber resp ≠ EwbNumber old) →
  GeneratePartA config foreign_keys req s = (r, s') →
  is_Ok r = false ∧ eway_bills (s_tables s') = eway_bills (s_tables s).
Proof.
  intros Hfk Hold Hlog Hnew H. unfold GeneratePartA in H. rewrite Hfk in H.
  destruct (is_empty (TripID req)); [cbv [SM_fail] in H; by injection H as <- <-|].
  apply bind_inv in H as [(e & Hq & ->)|(found & s1 & Hq & H)].
  { apply reads_of in Hq as (_ & -> & _); [done|]. preserve_with ltac:(fun _ => apply xquery_row_reads). }
  apply reads_of in Hq; [|preserve_with ltac:(fun _ => apply xquery_row_reads)]. cbv zeta in H.
  set (t := match found with Ok t => t | Fail _ => no_details end) in *. clearbody t.
  destruct (_ && _); [cbv [SM_fail] in H; injection H as <- <-; by destruct Hq as (_ & -> & _)|].
  assert (Htoday : preserves reads (today req)) by (unfold today; preserve_with ltac:(fun _ => apply Now_reads)).
  apply bind_inv in H as [(e & Hd & ->)|(date & s2 & Hd & H)].
  { apply reads_of in Hd; [|exact Htoday]. assert (Hr : reads s s') by by etrans. by destruct Hr as (_ & -> & _). }
  apply reads_of in Hd; [|exact Htoday]. assert (Hr2 : reads s s2) by by etrans. clear Hq Hd Htoday.
  set (req' := fill_defaults date t req) in *. assert (Htrip : TripID req' = TripID req) by done. clearbody req'.
  apply bind_inv in H as [(e & Ha & ->)|(resp & s3 & Ha & H)].
  { apply map_err_fail_inv in Ha as (e' & Ha & _). injection Ha as _ <-. split; [done|]. by destruct Hr2 as (_ & <- & _). }
  apply map_err_ok_inv in Ha. injection Ha as Hresp <-.
  assert (Hout : s_out s2 = s_out s) by apply Hr2. rewrite Hout in Hresp. apply Hnew in Hresp.
  set (s3 := (s_world s2, s_tables s2, _)) in H. assert (Hx3 : s_tables s3 = s_tables s) by apply Hr2. clearbody s3.
  apply bind_inv in H as [(e & [=] & _)|(id & s4 & Hid & H)]. apply reads_of in Hid as (_ & Hx4 & _); [|apply UUID_reads].
  apply bind_inv in H as [(e & [=] & _)|(now & s5 & Hn & H)]. apply reads_of in Hn as (_ & Hx5 & _); [|apply Now_reads].
  assert (Hx : s_tables s5 = s_tables s) by congruence.
  apply bind_inv in H as [(e & Hw & ->)|(u & s6 & Hw & _)].
  - apply map_err_fail_inv in Hw as (e' & Hw & _). apply xstmt_inv in Hw as (_ & _ & Hw & _). by rewrite Hw, Hx.
  - exfalso. apply map_err_ok_inv in Hw. apply xstmt_inv in Hw as (_ & _ & Hw). rewrite Hx in Hw.
    destruct (upsert_blocked (s_db s5) (new_bill id now req' (goods_value req t) (td_VehicleNumber t) resp) old (s_tables s))
      as [e He]; [cbn; by rewrite Htrip|done|done|]. rewrite He in Hw. discriminate Hw.
Qed.
End Operations.

(** ** Concrete runs *)
Definition demo_provider : Provider :=
  {| respond calls _ := Ok (mkEWayBill ("EWB-" +:+ pretty (Z.of_nat (List.length calls))) "ACTIVE" jan1
                              (jan1 + day) "qr" "");
     MarshalPartA _ := "{}"; MarshalPartB _ := "{}"; MarshalExtend _ := "{}"; QuoteReason r := r |}.
(** The demonstration company, its trip under way with the vehicle [v1],
    seen at one place; no zone marks the destination. *)
Definition demo_position : LatestRow :=
  mkLatestRow "v1" "acme" "imei" jan1
    (mkReading jan1 0 (f64_of_Z 18) (f64_of_Z 73) f0 f0 None None None None None "" "").
Definition demo_ops : Ops := mkOps [] [] [] [demo_position] [] [] [] [] [] [] [] [].
Definition demo_under_way : DB :=
  mkDB [TripRow.mkTripRow "t1" "TR-1" (Some "b1"%string) None (Some "v1"%string) "r1" jan1 None "in_transit" None
          "acme" 0 jan1 jan1 None None None None None]
    [demo_booking] [demo_driver] [demo_vehicle] [mkCustomerRow "c1"] [mkRouteRow "r1" "Pune" "Delhi"]
    [] [] [] [] [] [] [] (Some (mkCompanySettings true (f64_of_Z 18))) demo_ops.
Definition demo_config : Config := mkConfig 0 f0 0 f0.
Definition demo_request : GeneratePartARequest :=
  mkPartA "t1" "" "" "2026-01-01" "" "" "" "" "" "" "" (f64_of_Z 60000) 0 "" "" false.
Section Witnesses.
#[local] Existing Instance demo_provider.
#[local] Existing Instance go_columns.
#[local] Existing Instance demo_env.
#[local] Existing Instance go_math.
Abbreviation start := ((world demo_under_way, mkTables [] [] ∅ {["r1" := (f64_of_Z 1400, f64_of_Z 40000)]}
                          {["c1" := None]} None, []) : World * EwbTables * list Call).
Abbreviation billed := (snd (GeneratePartA demo_config true demo_request start)).
Definition extension : ExtendRequest := mkExtend "EWB-0" "" "" 0 "" "breakdown".

Lemma start_ok : bills_ok (s_tables start).
Proof.
  split; cbn; [constructor|..]; try by intros a b Ha%not_elem_of_nil.
  - by intros a b t Ha%not_elem_of_nil.
  - by intros b Hb%not_elem_of_nil.
  - by intros b Hb%not_elem_of_nil.
Qed.
Lemma bills_invariant_witness :
  bills_ok (s_tables start) ∧
  map (λ b, (EwbNumber b, Status b, ExtensionCount b)) (eway_bills (s_tables (snd (run_ops demo_config true
    [OpGenerate demo_request; OpExtend "EWB-0" extension; OpExtend "EWB-0" extension] start)))) =
    [("EWB-0"%string, "active"%string, Some 1)] ∧
  bills_ok (s_tables (snd (run_ops demo_config true
    [OpGenerate demo_request; OpExtend "EWB-0" extension; OpExtend "EWB-0" extension] start))).
Proof.
  split; [exact start_ok|]. split; [vm_compute; reflexivity|].
  exact (bills_invariant demo_config true _ start start_ok).
Defined.

Lemma demo_never_faults : healthy.
Proof. done. Qed.
Lemma extension_needs_evidence_witness :
  is_Ok (fst (Extend demo_config true "EWB-0" extension billed)) = true ∧
  ∃ b t v p, List.find (by_number "EWB-0") (eway_bills (s_tables billed)) = Some b ∧
    Status b = "active"%string ∧ (∃ k, ExtensionCount b = Some k ∧ k < 1) ∧
    b_TripID b = Some t ∧ vehicle_of_trip (Some t) (s_db billed) = Some v ∧
    last_seen v (s_db billed) = Some p ∧
    (∀ q, destination_of t (s_db billed) = Some (Some q) → near demo_config p q = true).
Proof.
  assert (Hok : is_Ok (fst (Extend demo_config true "EWB-0" extension billed)) = true) by (vm_compute; reflexivity).
  split; [exact Hok|]. destruct (Extend demo_config true "EWB-0" extension billed) as [[rec|e] s'] eqn:H; [|discriminate Hok].
  exact (extension_needs_evidence demo_config true "EWB-0" extension billed rec s' demo_never_faults H).
Defined.
Lemma regeneration_fails_witness :
  ∃ old, List.find (by_trip (TripID demo_request)) (eway_bills (s_tables billed)) = Some old ∧
    logged old (s_tables billed) ∧
    is_Ok (fst (GeneratePartA demo_config true demo_request billed)) = false ∧
    eway_bills (s_tables (snd (GeneratePartA demo_config true demo_request billed))) = eway_bills (s_tables billed).
Proof.
  assert (Hold : ∃ old, List.find (by_trip (TripID demo_request)) (eway_bills (s_tables billed)) = Some old ∧
                   EwbNumber old = "EWB-0"%string) by (eexists; split; vm_compute; reflexivity).
  destruct Hold as (old & Hold & Hnum). exists old. split; [exact Hold|].
  assert (Hlog : logged old (s_tables billed)).
  { unfold logged. rewrite Hnum. eexists. split; [apply list_elem_of_In; vm_compute; left; reflexivity|reflexivity]. }
  split; [exact Hlog|].
  apply (regeneration_fails demo_config true demo_request billed _ _ old eq_refl Hold Hlog); [|apply surjective_pairing].
  intros c resp H. rewrite Hnum. revert H. vm_compute. intros [= <-]. discriminate.
Defined.
End Witnesses.
End EWB.
