(* ===== verification/FuelConfig.v ===== *)
(** * The configuration reader of the fuel engine and the scorecard

    [internal/fuel/config.go]: [company_config] behind a cache of a minute,
    which is not keyed by the tenant.  The engine and the scorecard service
    each have a reader of their own. *)
From stdpp Require Import base decidable list strings option gmap.
From Stdlib Require Import ZArith Lia String.
From S2P Require Import Prelude GoFloat Shared GoTime GoMath Geofence InvoiceAggregate Database SideTables.
From S2P Require Import Alerts.
Open Scope Z_scope.

Module FuelConfig.

Definition cacheTTL : Z := 60 * Dwell.second.
Record ConfigReader := mkReader { cache : gmap string string; cacheAt : Time }.
Definition NewConfigReader : ConfigReader := mkReader ∅ 0.

Section Reader.
Context {env : Env} {gm : GoMath}.
Abbreviation CM := (SM (World * ConfigReader)).
Definition on_world {A} (m : M A) : CM A := λ s, match m (fst s) with (r, w) => (r, (w, snd s)) end.
Definition set_reader (c : ConfigReader) : CM unit := SM_modify (λ s, (fst s, c)).

Definition fresh_cache (c : ConfigReader) : CM bool :=
  if time_IsZero (cacheAt c) then mret false
  else now ← on_world Now; mret (Geo.Sub now (cacheAt c) <=? cacheTTL).
Definition config_rows (tenant : string) (d : DB) : gmap string string :=
  foldl (λ m r, <[cc_Key r := cc_Value r]> m) ∅
    (List.filter (λ r, String.eqb (cc_TenantID r) tenant) (company_config (ops d))).
(** The check is made twice, before and under the lock. *)
Definition refreshIfStale (tenant : string) : CM unit :=
  c ← SM_get snd;
  ok ← fresh_cache c;
  if ok : bool then mret tt
  else
    ok ← fresh_cache c;
    if ok : bool then mret tt
    else
      rows ← on_world (query (λ _, config_rows tenant));
      now ← on_world Now;
      set_reader (mkReader rows now).
Definition Get (tenant key : string) : CM string :=
  _ ← refreshIfStale tenant;
  SM_get (λ s, default ""%string (cache (snd s) !! key)).
Definition GetFloat (tenant key : string) (def : float64) : CM float64 :=
  raw ← Get tenant key;
  mret (if is_empty raw then def else default def (ParseFloat raw)).
Definition getDuration (tenant key : string) (def unit : Z) : CM Z :=
  raw ← Get tenant key;
  mret (if is_empty raw then def
        else match Atoi raw with
             | Some n => if n <=? 0 then def else wrap64 (n * unit)
             | None => def
             end).
Definition GetDurationMinutes (tenant key : string) (def : Z) : CM Z := getDuration tenant key def Dwell.minute.
Definition GetDurationSeconds (tenant key : string) (def : Z) : CM Z := getDuration tenant key def Dwell.second.

(** [if v, err := ...; err == nil && ok(v) { x = v }]. *)
Definition or_keep {A} (ok : A → bool) (def : A) (m : CM A) : CM A :=
  r ← SM_try m; mret (match r with Ok v => if ok v then v else def | Fail _ => def end).
Definition positive (v : float64) : bool := (f0 <? v)%f64.
Definition not_negative (v : float64) : bool := (f0 <=? v)%f64.
Definition float_key (key : string) (ok : float64 → bool) (def : float64) : CM float64 :=
  or_keep ok def (GetFloat DefaultTenant key def).

(** Reading the configuration changes no table. *)
Definition same_db (s s' : World * ConfigReader) : Prop := w_db (fst s') = w_db (fst s).
#[export] Instance same_db_preorder : PreOrder same_db.
Proof. split; [done|]. intros x y z H1 H2. unfold same_db in *. congruence. Qed.
Lemma on_world_db {A} (m : M A) : preserves (on_db eq) m → preserves same_db (on_world m).
Proof. intros Hm s. specialize (Hm (fst s)). unfold on_world. destruct (m (fst s)). by symmetry. Qed.
Lemma Get_db t key : preserves same_db (Get t key).
Proof.
  unfold Get, refreshIfStale, fresh_cache, set_reader.
  preserve_with ltac:(fun _ => first
    [ apply on_world_db, query_same | apply on_world_db, Now_same | by intros [w c] ]).
Qed.
End Reader.

(** *** The reader inside a component: [get] and [put] its place among what
    no transaction rolls back. *)
Section Zoom.
Context {env : Env} {X S : Type} (get : S → ConfigReader) (put : ConfigReader → S → S).
Definition zoom {A} (m : SM (World * ConfigReader) A) : XM X S A := λ s,
  match m (s_world s, get (s_out s)) with
  | (r, (w, c)) => (r, (w, s_tables s, put c (s_out s)))
  end.
Lemma zoom_tables P `{!PreOrder P} {A} (m : SM (World * ConfigReader) A) : preserves (on_tables P) (zoom m).
Proof. intros s. unfold on_tables, zoom. destruct (m _) as [r [w c]]. cbn. reflexivity. Qed.
Lemma zoom_parts P `{!PreOrder P} {A} (m : SM (World * ConfigReader) A) :
  preserves same_db m → preserves (on_parts P) (zoom m).
Proof.
  intros Hm s. specialize (Hm (s_world s, get (s_out s))). unfold on_parts, zoom, same_db, s_db in *.
  destruct (m _) as [r [w c]]. cbn in *. rewrite Hm. reflexivity.
Qed.
Lemma zoom_out P `{!PreOrder P} {A} (m : SM (World * ConfigReader) A) :
  (∀ c o, P o (put c o)) → preserves (on_out P) (zoom m).
Proof. intros Hp s. unfold on_out, zoom. destruct (m _) as [r [w c]]. apply Hp. Qed.
End Zoom.
End FuelConfig.
