(* ===== verification/Fuel.v ===== *)
(** * The fuel anomaly engine

    [internal/fuel/engine.go] and the configuration of [config.go]: per
    vehicle, the smoothing of the fuel level by a running median with a spike
    hold, the classification of drops and jumps, the odometer rollback, and
    the rows and alerts written for each anomaly in one unit of work.  The
    state of the engine lives in memory: no transaction rolls it back. *)
From stdpp Require Import base decidable list strings option gmap.
From Stdlib Require Import ZArith Lia Ascii String Sorting.Sorted.
From S2P Require Import Prelude GoFloat Shared GoTime GoMath Geofence Events InvoiceAggregate Database SideTables.
From S2P Require Import GeofenceStore Alerts FuelConfig.
Open Scope Z_scope.

Module Fuel.
Import FuelConfig.

(** ** Rows *)
Record snapshotRow := mkSnap {
  id : string; tripID : string; vehicleID : string; driverID : string; ts : Time; speed : float64;
  fuelLevel : float64; odometer : float64 }.
Record vehicleFuelState := mkState {
  st_vehicleID : string; sensorFitted : bool; tankCapacity : float64; unit_ : string;
  window : list float64; pendingSpike : float64; lastLevel : float64; baselineLevel : float64;
  lastOdometer : float64; lastTs : Time; refillPending : float64; stopStart : Time;
  st_tripID : string; st_driverID : string; tripActive : bool }.
Record engineConfig := mkConfig {
  medianWindow : Z; spikeDeviationPct : float64; noiseFloorPct : float64; refillThresholdL : float64;
  theftThresholdL : float64; siphonThresholdL : float64; siphonStop : Z; stopSpeedKmh : float64;
  odoToleranceKm : float64; abnormalLPerKm : float64; abnormalMarginPct : float64; levelUnit : string;
  gapTolerance : Z; weightTheft : float64; weightOdoRollback : float64 }.
Record behaviourEvent := mkBehaviour { b_eventType : string; b_severity : string; b_weight : float64 }.
Record fuelEvent := mkFuelEvent {
  eventType : string; estimated : float64; confidence : float64; before : float64; after : float64;
  odoBefore : float64; severity : string; behaviour : option behaviourEvent }.

(** [fuel_events] and [driver_behaviour_events]. *)
Record FuelEventRow := mkFuelRow {
  fr_ID : string; fr_VehicleID : string; fr_TripID : option string; fr_DriverID : option string;
  fr_EventType : string; fr_Before : float64; fr_After : float64; fr_OdoBefore : float64;
  fr_OdoAfter : float64; fr_Estimated : float64; fr_Confidence : float64; fr_Details : string;
  fr_OccurredAt : Time }.
Record BehaviourRow := mkBehaviourRow {
  br_ID : string; br_DriverID : string; br_TripID : option string; br_VehicleID : option string;
  br_EventType : string; br_Severity : string; br_Weight : float64; br_Metadata : string; br_OccurredAt : Time }.
(** [founder/alerts.AlertEvent], and the outbox row that carries it; of the
    metadata the floats are named. *)
Record AlertEvent := mkAlertEvent {
  a_ID : string; a_Priority : string; a_Title : string; a_Summary : string; a_VehicleID : string;
  a_TripID : string; a_DriverID : string; a_EventType : string; a_Estimated : float64; a_Before : float64;
  a_After : float64; a_OdoBefore : float64; a_OdoAfter : float64; a_Timestamp : Time }.
Record AlertRow := mkAlertRow { ar_ID : string; ar_AggregateID : string; ar_Event : AlertEvent; ar_CreatedAt : Time }.
(** [vehicles.fuel_sensor_fitted] and [tank_capacity_litres],
    [telemetry_snapshots.driver_id]: columns this component reads. *)
Record FuelTables := mkTables {
  fuel_events : list FuelEventRow; driver_behaviour_events : list BehaviourRow; outbox_alerts : list AlertRow;
  vehicle_fuel : gmap string (bool * option float64); snapshot_driver : gmap string string }.

(** ** Pure helpers *)
Definition fnan : float64 := SpecFloat.S754_nan.
Definition f100 : float64 := f64_of_Z 100.
Definition clampFuel (level capacity : float64) : float64 :=
  if (level <? f0)%f64 then f0 else if (capacity <? level)%f64 then capacity else level.
Definition toLitres (st : vehicleFuelState) (level : float64) : float64 :=
  if String.eqb (unit_ st) "litres" then level else fdiv (fmul level (tankCapacity st)) f100.
(** [sort.Float64s]: NaN first. *)
Definition float_less (x y : float64) : bool := (x <? y)%f64 || (is_nan x && negb (is_nan y)).
Definition sort_floats (w : list float64) : list float64 := order_by (λ x y, negb (float_less y x)) w.
Definition median (w : list float64) : float64 :=
  match sort_floats w with
  | [] => fnan
  | l => List.nth (Nat.div (List.length l - 1) 2) l fnan
  end.
(** The literal [1e-9]. *)
Definition f1e_9 : float64 := f64_decimal 1 (-9).
Definition deviates (reading med pct : float64) : bool :=
  if is_nan med then false
  else if (med <? f1e_9)%f64 then (f1e_9 <? reading)%f64
  else (fdiv pct f100 <? fdiv (fabs (fsub reading med)) med)%f64.
Definition expectedBurn (odoBefore : float64) (s : snapshotRow) (cfg : engineConfig) : float64 :=
  let odoDelta := if (f0 <? odometer s)%f64 && (f0 <? odoBefore)%f64 then fsub (odometer s) odoBefore else f0 in
  fmul (fmul odoDelta (abnormalLPerKm cfg)) (fadd f1 (fdiv (abnormalMarginPct cfg) f100)).

Definition ActiveTripStatuses : list string :=
  ["scheduled"; "assigned"; "started"; "in_transit"; "delivered"]%string.
Definition isActiveTripStatus (status : string) : bool := existsb (String.eqb status) ActiveTripStatuses.
Definition ptr (s : string) : option string := if is_empty s then None else Some s.

Definition alertPriority (severity : string) : string :=
  if String.eqb severity "critical" then "CRITICAL"
  else if String.eqb severity "high" then "HIGH"
  else if String.eqb severity "medium" then "MEDIUM"
  else "LOW".
Definition alertTitle (eventType : string) : string :=
  if String.eqb eventType "refill_detected" then "Fuel refill detected"
  else if String.eqb eventType "drain_theft_suspected" then "Suspected fuel theft/drain"
  else if String.eqb eventType "abnormal_drain" then "Abnormal fuel drain"
  else if String.eqb eventType "siphon_confirmed" then "Fuel siphon confirmed"
  else if String.eqb eventType "odometer_rollback" then "Odometer rollback"
  else eventType.
Definition details (ev : fuelEvent) : string :=
  ("{" +:+ quoted "before" +:+ ":" +:+ FormatFloat2 (before ev) +:+ "," +:+ quoted "after" +:+ ":" +:+ FormatFloat2 (after ev)
   +:+ "," +:+ quoted "est_litres" +:+ ":" +:+ FormatFloat2 (estimated ev) +:+ "," +:+ quoted "confidence" +:+ ":"
   +:+ FormatFloat2 (confidence ev) +:+ "}")%string.

(** ** The steps of the pipeline on the state *)
Definition arrive (active : bool) (driver : string) (s : snapshotRow) (st : vehicleFuelState) : vehicleFuelState :=
  let ended := tripActive st && negb active && String.eqb (st_tripID st) (tripID s) in
  mkState (st_vehicleID st) (sensorFitted st) (tankCapacity st) (unit_ st) (window st) (pendingSpike st)
    (lastLevel st) (if ended then lastLevel st else baselineLevel st) (lastOdometer st) (lastTs st)
    (if ended then f0 else refillPending st) (stopStart st) (tripID s)
    (if negb (is_empty (driverID s)) then driverID s
     else if negb (is_empty driver) then driver else st_driverID st)
    active.
(** The gap reset, judged against the time of the reading before. *)
Definition after_gap (cfg : engineConfig) (warmup : bool) (s : snapshotRow) (st : vehicleFuelState) : vehicleFuelState :=
  if negb warmup && negb (time_IsZero (lastTs st)) && (gapTolerance cfg <? Geo.Sub (ts s) (lastTs st)) then
    mkState (st_vehicleID st) (sensorFitted st) (tankCapacity st) (unit_ st) [] (pendingSpike st) (lastLevel st)
      (lastLevel st) (lastOdometer st) (lastTs st) (refillPending st) 0 (st_tripID st) (st_driverID st)
      (tripActive st)
  else st.
Definition advance (s : snapshotRow) (st : vehicleFuelState) : vehicleFuelState :=
  mkState (st_vehicleID st) (sensorFitted st) (tankCapacity st) (unit_ st) (window st) (pendingSpike st)
    (lastLevel st) (baselineLevel st) (lastOdometer st) (if lastTs st <? ts s then ts s else lastTs st)
    (refillPending st) (stopStart st) (st_tripID st) (st_driverID st) (tripActive st).
Definition set_odometer (x : float64) (st : vehicleFuelState) : vehicleFuelState :=
  mkState (st_vehicleID st) (sensorFitted st) (tankCapacity st) (unit_ st) (window st) (pendingSpike st)
    (lastLevel st) (baselineLevel st) x (lastTs st) (refillPending st) (stopStart st) (st_tripID st)
    (st_driverID st) (tripActive st).
(** [window], [pendingSpike], [lastLevel], [baselineLevel], [refillPending]
    and [stopStart]: what the level steps write. *)
Definition set_level (w : list float64) (spike last base refill : float64) (stop : Time)
    (st : vehicleFuelState) : vehicleFuelState :=
  mkState (st_vehicleID st) (sensorFitted st) (tankCapacity st) (unit_ st) w spike last base (lastOdometer st)
    (lastTs st) refill stop (st_tripID st) (st_driverID st) (tripActive st).
Definition trim (n : Z) (w : list float64) : list float64 :=
  if n <? Z.of_nat (List.length w) then drop (List.length w - Z.to_nat n) w else w.
Definition stationary (cfg : engineConfig) (s : snapshotRow) : bool := (fabs (speed s) <? stopSpeedKmh cfg)%f64.

(** [detect]. *)
Definition classify (cfg : engineConfig) (s : snapshotRow) (smoothed : float64) (status : string) (odo : float64)
    (stop : Time) (st : vehicleFuelState) : option fuelEvent :=
  let still := stationary cfg s in
  let stoppedFor := if still then Geo.Sub (ts s) stop else 0 in
  let drop := fsub (baselineLevel st) smoothed in
  let jump := fsub smoothed (baselineLevel st) in
  let theft := Some (mkBehaviour "fuel_theft_suspicion" "high" (weightTheft cfg)) in
  if still && tripActive st && negb (time_IsZero stop) && (siphonStop cfg <=? stoppedFor) &&
     (siphonThresholdL cfg <=? drop)%f64 then
    Some (mkFuelEvent "siphon_confirmed" drop f1 (baselineLevel st) smoothed odo "critical" theft)
  else if still && tripActive st && (theftThresholdL cfg <=? drop)%f64 then
    Some (mkFuelEvent "drain_theft_suspected" drop f1 (baselineLevel st) smoothed odo "high" theft)
  else if negb still && tripActive st && String.eqb status "in_transit" && (expectedBurn odo s cfg <=? drop)%f64 then
    Some (mkFuelEvent "abnormal_drain" drop (f64_decimal 9 (-1)) (baselineLevel st) smoothed odo "medium" None)
  else if (refillThresholdL cfg <=? jump)%f64 then
    Some (mkFuelEvent "refill_detected" jump f1 (baselineLevel st) smoothed odo "low" None)
  else None.
Definition detect (cfg : engineConfig) (s : snapshotRow) (smoothed delta noise : float64) (status : string)
    (odo : float64) (st : vehicleFuelState) : vehicleFuelState * list fuelEvent :=
  let still := stationary cfg s in
  let stop := if still then (if time_IsZero (stopStart st) then ts s else stopStart st) else 0 in
  match classify cfg s smoothed status odo stop st with
  | Some ev =>
      (set_level (window st) (pendingSpike st) (lastLevel st) smoothed
         (if String.eqb (eventType ev) "refill_detected" then fadd (refillPending st) (estimated ev)
          else refillPending st) stop st, [ev])
  | None =>
      (set_level (window st) (pendingSpike st) (lastLevel st)
         (if negb still || (fabs delta <? noise)%f64 then smoothed else baselineLevel st)
         (refillPending st) stop st, [])
  end.

(** From the clamp to the classification: the level of one reading. *)
Definition level_step (cfg : engineConfig) (s : snapshotRow) (status : string) (odo : float64)
    (st : vehicleFuelState) : vehicleFuelState * list fuelEvent :=
  if negb (sensorFitted st) || (tankCapacity st <=? f0)%f64 then (st, [])
  else
    let litres := toLitres st (clampFuel (fuelLevel s) (tankCapacity st)) in
    if is_nan (lastLevel st) then
      (set_level (trim (medianWindow cfg) (window st ++ [litres])%list) (pendingSpike st) litres litres (refillPending st)
         (if stationary cfg s then ts s else stopStart st) st, [])
    else
      let held := negb (is_nan (pendingSpike st)) in
      if negb held && negb (bool_decide (window st = [])) && deviates litres (median (window st)) (spikeDeviationPct cfg)
      then (set_level (window st) litres (lastLevel st) (baselineLevel st) (refillPending st) (stopStart st) st, [])
      else
        let w := trim (medianWindow cfg)
                   ((if held then (window st ++ [pendingSpike st])%list else window st) ++ [litres])%list in
        let smoothed := median w in
        let delta := fsub smoothed (lastLevel st) in
        let noise := fdiv (fmul (tankCapacity st) (noiseFloorPct cfg)) f100 in
        let st1 := set_level w fnan (lastLevel st) (baselineLevel st) (refillPending st) (stopStart st) st in
        let '(st2, evs) := detect cfg s smoothed delta noise status odo st1 in
        (set_level (window st2) (pendingSpike st2) smoothed (baselineLevel st2) (refillPending st2) (stopStart st2) st2, evs).

(** ** The engine: its memory, its configuration, its database *)
Inductive HookCall :=
| BehaviourHook (driverID : string)
| SiphonHook (vehicleID tripID driverID : string) (drop : float64) (stopMinutes : Z).
(** What outlives a transaction that is rolled back: the cache of the
    configuration, the state per vehicle, and the calls of the two hooks. *)
Record Memory := mkMemory {
  reader : ConfigReader; state : gmap string vehicleFuelState; hooks : list HookCall }.
Definition NewEngine : Memory := mkMemory NewConfigReader ∅ [].
Abbreviation FM := (XM FuelTables Memory).

Definition maxSnapshotsPerSweep : Z := 500.
(** [timeStr] compares as text with the times the driver stores, which are
    longer: of the second of [t] every stored time comes after it. *)
Definition timeStr (t : Time) : Time := t / Dwell.second * Dwell.second.
Definition text_after (t : Time) (stored : Time) : bool := timeStr t <=? stored.
(** [LIMIT n]: a negative bound is none. *)
Definition limit {A} (n : Z) (l : list A) : list A := if n <? 0 then l else take (Z.to_nat n) l.

Definition set_fuel_events l (x : FuelTables) : FuelTables :=
  mkTables l (driver_behaviour_events x) (outbox_alerts x) (vehicle_fuel x) (snapshot_driver x).
Definition set_behaviour_events l (x : FuelTables) : FuelTables :=
  mkTables (fuel_events x) l (outbox_alerts x) (vehicle_fuel x) (snapshot_driver x).
Definition set_outbox_alerts l (x : FuelTables) : FuelTables :=
  mkTables (fuel_events x) (driver_behaviour_events x) l (vehicle_fuel x) (snapshot_driver x).

(** *** The keys *)
Definition DefaultSiphonStop : Z := 20 * Dwell.minute.
Definition DefaultGapTolerance : Z := 30 * Dwell.minute.
Definition defaultConfig : engineConfig :=
  mkConfig 7 (f64_of_Z 25) (f64_decimal 15 (-1)) (f64_of_Z 20) (f64_of_Z 10) (f64_of_Z 15) DefaultSiphonStop
    (f64_of_Z 5) f1 (f64_decimal 6 (-1)) (f64_of_Z 30) "percent" DefaultGapTolerance (f64_of_Z 25) (f64_of_Z 20).

(** A state no snapshot has reached. *)
Definition zero_state (vid : string) : vehicleFuelState :=
  mkState vid false f0 "" [] fnan fnan fnan f0 0 f0 0 "" "" false.

Section Engine.
Context {env : Env} {gm : GoMath}.
Definition memory (f : Memory → Memory) : FM unit := outside f.

(** *** The configuration (config.go) *)
Abbreviation CM := (SM (World * ConfigReader)).
Definition set_reader (c : ConfigReader) (m : Memory) : Memory := mkMemory c (state m) (hooks m).
Definition in_config {A} (m : CM A) : FM A := zoom reader set_reader m.
Definition loadConfig : CM engineConfig :=
  let d := defaultConfig in
  win ← float_key "fuel.median_window" positive (f64_of_Z (medianWindow d));
  spike ← float_key "fuel.spike_deviation_pct" positive (spikeDeviationPct d);
  noise ← float_key "fuel.noise_floor_pct" not_negative (noiseFloorPct d);
  refill ← float_key "fuel.refill_threshold_litres" positive (refillThresholdL d);
  theft ← float_key "fuel.theft_drop_threshold_litres" positive (theftThresholdL d);
  siphon ← float_key "fuel.siphon_drop_threshold_litres" positive (siphonThresholdL d);
  stop ← or_keep (Z.ltb 0) (siphonStop d) (GetDurationMinutes DefaultTenant "fuel.siphon_stop_minutes" (siphonStop d));
  speed ← float_key "fuel.stop_speed_kmh" not_negative (stopSpeedKmh d);
  odo ← float_key "fuel.odometer_tolerance_km" not_negative (odoToleranceKm d);
  lpk ← float_key "fuel.abnormal_drain_l_per_km" not_negative (abnormalLPerKm d);
  margin ← float_key "fuel.abnormal_drain_margin_pct" not_negative (abnormalMarginPct d);
  wtheft ← float_key "scorecard.weight.fuel_theft_suspicion" not_negative (weightTheft d);
  wodo ← float_key "scorecard.weight.odometer_rollback" not_negative (weightOdoRollback d);
  unit ← or_keep (λ v, negb (is_empty v)) (levelUnit d) (Get DefaultTenant "fuel.level_unit");
  gap ← or_keep (Z.ltb 0) (gapTolerance d) (GetDurationMinutes DefaultTenant "fuel.gap_tolerance_minutes" (gapTolerance d));
  mret (mkConfig (f64_to_int64 win) spike noise refill theft siphon stop speed odo lpk margin unit gap wtheft wodo).

(** *** What a sweep reads *)
Definition or_zero (x : option float64) : float64 := default f0 x.
Definition row_of (x : FuelTables) (r : SnapshotRow) : snapshotRow :=
  mkSnap (sn_ID r) (or_empty (sn_TripID r)) (or_empty (sn_VehicleID r))
    (default ""%string (snapshot_driver x !! sn_ID r)) (sn_Timestamp r) (or_zero (sn_Speed r))
    (or_zero (sn_FuelLevel r)) (or_zero (sn_Odometer r)).
Definition of_vehicle (vehicleID : string) (r : SnapshotRow) : bool := bool_decide (sn_VehicleID r = Some vehicleID).
(** The DISTINCT vehicles with a snapshot in the window, in order. *)
Definition active_vehicles (since : Time) (d : DB) : list string :=
  order_by String.leb (remove_dups (List.filter (λ v, negb (is_empty v))
    (omap sn_VehicleID (List.filter (λ r, text_after since (sn_Timestamp r)) (telemetry_snapshots (ops d)))))).
Definition activeVehicles (cfg : engineConfig) : FM (list string) :=
  now ← core Now;
  xquery (λ _ d _, active_vehicles (now - gapTolerance cfg) d).
Definition vehicleMeta (vehicleID : string) : FM (bool * float64) :=
  SM_wrap "fuel: vehicle" (xquery_row (λ _ d x,
    v ← List.find (λ v, String.eqb (VehicleRow.ID v) vehicleID) (vehicles d);
    Some (match vehicle_fuel x !! VehicleRow.ID v with
          | Some (fitted, capacity) => (fitted, or_zero capacity)
          | None => (false, f0)
          end))).
Definition recent (vehicleID : string) (n : Z) (d : DB) (x : FuelTables) : list snapshotRow :=
  reverse (row_of x <$> limit n (order_by (λ r r', sn_Timestamp r' <=? sn_Timestamp r)
    (List.filter (of_vehicle vehicleID) (telemetry_snapshots (ops d))))).
Definition loadRecent (vehicleID : string) (n : Z) : FM (list snapshotRow) :=
  xquery (λ _ d x, recent vehicleID n d x).
Definition after_watermark (vehicleID : string) (after : Time) (d : DB) (x : FuelTables) : list snapshotRow :=
  row_of x <$> limit maxSnapshotsPerSweep (order_by (λ r r', sn_Timestamp r <=? sn_Timestamp r')
    (List.filter (λ r, of_vehicle vehicleID r && text_after after (sn_Timestamp r)) (telemetry_snapshots (ops d)))).
Definition loadAfter (vehicleID : string) (after : Time) : FM (list snapshotRow) :=
  if time_IsZero after then mret [] else xquery (λ _ d x, after_watermark vehicleID after d x).
(** A failure reads as no trip. *)
Definition tripStatus (tripID : string) : FM (string * string) :=
  if is_empty tripID then mret (""%string, ""%string)
  else
    r ← SM_try (xquery_row (λ _ d _,
          t ← List.find (λ t, String.eqb (TripRow.ID t) tripID) (trips d);
          Some (TripRow.Status t, or_empty (TripRow.DriverID t))));
    mret (match r with Ok p => p | Fail _ => (""%string, ""%string) end).

(** *** What a sweep writes *)
Definition insertFuelEvent (st : vehicleFuelState) (s : snapshotRow) (ev : fuelEvent) : FM unit :=
  id ← core GenerateUUID;
  xwrite (λ _ x, set_fuel_events (fuel_events x ++
    [mkFuelRow id (vehicleID s) (ptr (tripID s)) (ptr (st_driverID st)) (eventType ev) (before ev) (after ev)
       (odoBefore ev) (odometer s) (estimated ev) (confidence ev) (details ev) (timeStr (ts s))])%list x).
(** The driver of the event is never set: it is that of the state. *)
Definition insertBehaviour (st : vehicleFuelState) (s : snapshotRow) (b : behaviourEvent) : FM unit :=
  if is_empty (st_driverID st) then mret tt
  else
    id ← core GenerateUUID;
    xwrite (λ _ x, set_behaviour_events (driver_behaviour_events x ++
      [mkBehaviourRow id (st_driverID st) (ptr (tripID s)) (Some (vehicleID s)) (b_eventType b) (b_severity b)
         (b_weight b) "{}" (timeStr (ts s))])%list x).
Definition buildAlert (st : vehicleFuelState) (s : snapshotRow) (ev : fuelEvent) : FM AlertEvent :=
  id ← core GenerateUUID;
  let title := alertTitle (eventType ev) in
  mret (mkAlertEvent id (alertPriority (severity ev)) title
    (title +:+ " on vehicle " +:+ vehicleID s +:+ " (est. " +:+ FormatFloat1 (estimated ev) +:+ " L)")%string
    (vehicleID s) (tripID s) (st_driverID st) (eventType ev) (estimated ev) (before ev) (after ev)
    (lastOdometer st) (odometer s) (ts s)).
(** [SaveEvents] of the outbox writer, on one alert: [json.Marshal] refuses
    what is not a number and years above 9999. *)
Definition alert_json_ok (a : AlertEvent) : bool :=
  json_float (a_Estimated a) && json_float (a_Before a) && json_float (a_After a) && json_float (a_OdoBefore a) &&
  json_float (a_OdoAfter a) && json_time (a_Timestamp a).
Definition save_alert (aggregateID : string) (a : AlertEvent) : FM unit :=
  if alert_json_ok a then
    id ← core GenerateUUID;
    now ← core Now;
    xwrite (λ _ x, set_outbox_alerts (outbox_alerts x ++ [mkAlertRow id aggregateID a now])%list x)
  else SM_fail (Err "json: unsupported value").
Definition record_event (st : vehicleFuelState) (s : snapshotRow) (ev : fuelEvent) : FM unit :=
  _ ← insertFuelEvent st s ev;
  match behaviour ev with Some b => insertBehaviour st s b | None => mret tt end.
Fixpoint record_each (st : vehicleFuelState) (s : snapshotRow) (evs : list fuelEvent) : FM (list AlertEvent) :=
  match evs with
  | [] => mret []
  | ev :: evs' =>
      _ ← record_event st s ev;
      a ← buildAlert st s ev;
      rest ← record_each st s evs';
      mret (a :: rest)
  end.
Definition record_events (st : vehicleFuelState) (s : snapshotRow) (evs : list fuelEvent) : FM unit :=
  xtransaction
    (alerts ← record_each st s evs;
     SM_iter (save_alert (vehicleID s)) alerts).

(** *** The hooks *)
Definition call (h : HookCall) : FM unit := memory (λ m, mkMemory (reader m) (state m) (hooks m ++ [h])%list).
Definition behaviour_hook (st : vehicleFuelState) (evs : list fuelEvent) : FM unit :=
  if existsb (λ ev, negb (bool_decide (behaviour ev = None))) evs && negb (is_empty (st_driverID st))
  then call (BehaviourHook (st_driverID st)) else mret tt.
(** [int(d.Minutes())]. *)
Definition minutes_of (d : Z) : Z :=
  f64_to_int64 (fadd (f64_of_Z (Z.quot d Dwell.minute))
                  (fdiv (f64_of_Z (Z.rem d Dwell.minute)) (f64_of_Z Dwell.minute))).
Definition siphon_hook (cfg : engineConfig) (st : vehicleFuelState) (s : snapshotRow) (evs : list fuelEvent) : FM unit :=
  SM_iter (λ ev, if String.eqb (eventType ev) "siphon_confirmed"
    then call (SiphonHook (vehicleID s) (tripID s) (st_driverID st) (estimated ev) (minutes_of (siphonStop cfg)))
    else mret tt) evs.

(** *** One snapshot *)
Definition get_state (vid : string) : FM vehicleFuelState :=
  SM_get (λ s, default (zero_state vid) (state (s_out s) !! vid)).
Definition put_state (vid : string) (st : vehicleFuelState) : FM unit :=
  memory (λ m, mkMemory (reader m) (<[vid := st]> (state m)) (hooks m)).
(** The state after one snapshot, and the events that are then written: a
    transaction that fails leaves the state where it is. *)
Definition rollback_event (cfg : engineConfig) (st : vehicleFuelState) (s : snapshotRow) : option fuelEvent :=
  if (f0 <? lastOdometer st)%f64 && (odometer s <? fsub (lastOdometer st) (odoToleranceKm cfg))%f64 then
    Some (mkFuelEvent "odometer_rollback" (fsub (lastOdometer st) (odometer s)) f1 (lastOdometer st) (odometer s)
            (lastOdometer st) "high" (Some (mkBehaviour "odometer_rollback" "high" (weightOdoRollback cfg))))
  else None.
Definition odoRollback (vid : string) (cfg : engineConfig) (s : snapshotRow) : FM unit :=
  if (odometer s <=? f0)%f64 then mret tt
  else
    st ← get_state vid;
    _ ← match rollback_event cfg st s with
        | Some ev => _ ← record_events st s [ev]; behaviour_hook st [ev]
        | None => mret tt
        end;
    put_state vid (set_odometer (odometer s) st).
Definition pipeline (vid : string) (s : snapshotRow) (cfg : engineConfig) (warmup : bool) : FM unit :=
  status ← tripStatus (tripID s);
  let active := is_empty (tripID s) || isActiveTripStatus (fst status) in
  st ← get_state vid;
  _ ← put_state vid (advance s (after_gap cfg warmup s (arrive active (snd status) s st)));
  _ ← odoRollback vid cfg s;
  st' ← get_state vid;
  let '(st'', evs) := level_step cfg s (fst status) (lastOdometer st) st' in
  _ ← put_state vid st'';
  match evs with
  | [] => mret tt
  | _ => _ ← record_events st'' s evs; _ ← behaviour_hook st'' evs; siphon_hook cfg st'' s evs
  end.

(** *** A vehicle, and a sweep *)
Definition first_state (cfg : engineConfig) (vid : string) (meta : bool * float64) : vehicleFuelState :=
  mkState vid (fst meta) (snd meta) (levelUnit cfg) [] fnan fnan fnan f0 0 f0 0 "" "" false.
Definition processVehicle (vid : string) (cfg : engineConfig) : FM Z :=
  meta ← vehicleMeta vid;
  known ← SM_get (λ s, state (s_out s) !! vid);
  match known with
  | None =>
      _ ← put_state vid (first_state cfg vid meta);
      warm ← loadRecent vid (medianWindow cfg);
      _ ← SM_iter (λ s, pipeline vid s cfg true) warm;
      mret (Z.of_nat (List.length warm))
  | Some st =>
      next ← loadAfter vid (lastTs st);
      _ ← SM_iter (λ s, pipeline vid s cfg false) next;
      mret (Z.of_nat (List.length next))
  end.
Fixpoint sweep (cfg : engineConfig) (vehicles : list string) : FM Z :=
  match vehicles with
  | [] => mret 0
  | vid :: rest =>
      n ← SM_wrap "fuel: vehicle" (processVehicle vid cfg);
      m ← sweep cfg rest;
      mret (n + m)
  end.
Definition Tick : FM Z :=
  cfg ← SM_wrap "fuel: load config" (in_config loadConfig);
  vehicles ← SM_wrap "fuel: active vehicles" (activeVehicles cfg);
  sweep cfg vehicles.
End Engine.

(** ** The smoothing *)
Definition good (x : float64) : Prop := is_finite x = true ∧ valid x = true.
Definition within (lo hi x : float64) : bool := (lo <=? x)%f64 && (x <=? hi)%f64.
(** More than half of the readings of a window lie in a band. *)
Definition majority (lo hi : float64) (w : list float64) : Prop :=
  (List.length w < 2 * List.length (List.filter (within lo hi) w))%nat.
Abbreviation by_value := (λ a b, fval a <= fval b).

Lemma good_leb x y : good x → good y → negb (float_less y x) = (fval x <=? fval y).
Proof.
  intros [Hf Hv] [Hf' Hv']. unfold float_less. rewrite fltb_fval by done.
  assert (is_nan y = false) as -> by (by destruct y). cbn [andb]. rewrite orb_false_r, Z.ltb_antisym, negb_involutive. done.
Qed.
Lemma insert_floats_sorted x l :
  good x → Forall good l → StronglySorted by_value l →
  StronglySorted by_value (insert_by (λ x y, negb (float_less y x)) x l).
Proof.
  intros Hx Hl Hs. induction Hs as [|y l Hs IH Hy]; cbn [insert_by]; [repeat constructor|].
  apply Forall_cons in Hl as [Hgy Hl]. rewrite good_leb by done. destruct (Z.leb_spec (fval x) (fval y)).
  - constructor; [by constructor|]. constructor; [done|]. eapply Forall_impl; [exact Hy|]. cbn. lia.
  - constructor; [by apply IH|]. apply Forall_forall. intros z Hz.
    rewrite insert_by_perm in Hz. apply elem_of_cons in Hz as [->|Hz]; [lia|].
    by apply (proj1 (Forall_forall _ _) Hy).
Qed.
Lemma sort_floats_sorted w : Forall good w → StronglySorted by_value (sort_floats w).
Proof.
  unfold sort_floats. induction 1 as [|x w Hx Hw IH]; cbn; [constructor|].
  apply insert_floats_sorted; [done| |done]. fold (order_by (λ x y, negb (float_less y x)) w). by rewrite order_by_perm.
Qed.

(** Of a sorted list, what stands before (after) an element outside a band
    on its low (high) side is outside too. *)
Lemma filter_none {A} (p : A → bool) l : Forall (λ x, p x = false) l → List.filter p l = [].
Proof. induction 1 as [|x l Hx Hl IH]; cbn; [done|]. by rewrite Hx. Qed.
Lemma filter_len_le {A} (p : A → bool) l : (List.length (List.filter p l) <= List.length l)%nat.
Proof. induction l as [|x l IH]; cbn; [lia|]. destruct (p x); cbn; lia. Qed.
Lemma filter_app_len {A} (p : A → bool) l k :
  List.length (List.filter p (l ++ k)) = (List.length (List.filter p l) + List.length (List.filter p k))%nat.
Proof. by rewrite List.filter_app, length_app. Qed.
Lemma sorted_split (l1 l2 : list float64) m :
  StronglySorted by_value (l1 ++ m :: l2) →
  Forall (λ x, fval x <= fval m) l1 ∧ Forall (λ x, fval m <= fval x) l2.
Proof.
  induction l1 as [|x l1 IH]; cbn; intros H; apply StronglySorted_inv in H as [Hs Hx]; [by split|].
  destruct (IH Hs) as [H1 H2]. split; [|done]. constructor; [|done].
  apply Forall_app in Hx as [_ Hx]. by apply Forall_cons in Hx as [Hx _].
Qed.
Lemma within_fval lo hi x :
  good lo → good hi → good x → within lo hi x = (fval lo <=? fval x) && (fval x <=? fval hi).
Proof. intros [? ?] [? ?] [? ?]. unfold within. by rewrite !fleb_fval. Qed.
Lemma nth_split_at {A} (l : list A) k d :
  (k < List.length l)%nat → l = (take k l ++ List.nth k l d :: drop (Datatypes.S k) l)%list.
Proof.
  intros Hk. rewrite <- (take_drop k l) at 1. f_equal. revert k Hk. induction l as [|x l IH]; intros [|k] Hk; cbn in *; try lia; [done|].
  apply IH. lia.
Qed.
Lemma filter_perm_len {A} (p : A → bool) l k :
  l ≡ₚ k → List.length (List.filter p l) = List.length (List.filter p k).
Proof. induction 1; cbn; repeat case_match; cbn; lia. Qed.

Lemma median_nth w : median w = List.nth (Nat.div (List.length (sort_floats w) - 1) 2) (sort_floats w) fnan.
Proof. unfold median. by destruct (sort_floats w). Qed.

Lemma median_in_band lo hi w :
  good lo → good hi → Forall good w → majority lo hi w → within lo hi (median w) = true.
Proof.
  intros Hlo Hhi Hw Hm. unfold majority in Hm.
  assert (Hp : sort_floats w ≡ₚ w) by apply order_by_perm.
  pose proof (sort_floats_sorted _ Hw) as Hs.
  rewrite <- (filter_perm_len _ _ _ Hp), <- (Permutation_length Hp) in Hm.
  assert (Hg : Forall good (sort_floats w)) by by rewrite Hp.
  rewrite median_nth. set (l := sort_floats w) in *. clearbody l. clear Hp Hw w.
  set (k := Nat.div (List.length l - 1) 2).
  assert (Hpos : (1 <= List.length l)%nat) by (destruct l; [cbn in Hm|cbn]; lia).
  assert (Hk : (2 * k <= List.length l - 1 < 2 * k + 2)%nat).
  { pose proof (Nat.div_mod_eq (List.length l - 1) 2) as H1.
    pose proof (Nat.mod_upper_bound (List.length l - 1) 2 ltac:(lia)). subst k. lia. }
  clearbody k.
  rewrite (nth_split_at l k fnan) in Hs, Hm, Hg by lia. set (m := List.nth k l fnan) in *.
  apply sorted_split in Hs as [H1 H2]. apply Forall_app in Hg as [Hg1 Hg2].
  apply Forall_cons in Hg2 as [Hgm Hg2].
  rewrite filter_app_len, length_app, length_take, length_cons, length_drop in Hm. cbn [List.filter] in Hm.
  destruct (within lo hi m) eqn:E; [done|]. exfalso. rewrite within_fval in E by done.
  pose proof (filter_len_le (within lo hi) (take k l)) as L1. rewrite length_take in L1.
  pose proof (filter_len_le (within lo hi) (drop (Datatypes.S k) l)) as L2. rewrite length_drop in L2.
  apply andb_false_iff in E as [E|E]; apply Z.leb_gt in E.
  - rewrite (filter_none _ (take k l)) in Hm; [cbn in Hm; lia|].
    eapply Forall_impl; [exact (proj2 (Forall_and _ _) (conj H1 Hg1))|]. cbn. intros y [Hy Hgy].
    rewrite within_fval by done. apply andb_false_iff. left. apply Z.leb_gt. lia.
  - rewrite (filter_none _ (drop _ l)) in Hm; [cbn in Hm; lia|].
    eapply Forall_impl; [exact (proj2 (Forall_and _ _) (conj H2 Hg2))|]. cbn. intros y [Hy Hgy].
    rewrite within_fval by done. apply andb_false_iff. right. apply Z.leb_gt. lia.
Qed.

(** ** What one reading can report *)
Definition threshold_met (cfg : engineConfig) (s : snapshotRow) (status : string) (odo : float64)
    (st : vehicleFuelState) (ev : fuelEvent) : Prop :=
  if String.eqb (eventType ev) "refill_detected" then
    estimated ev = fsub (after ev) (before ev) ∧ (refillThresholdL cfg <=? estimated ev)%f64 = true ∧ behaviour ev = None
  else
    estimated ev = fsub (before ev) (after ev) ∧ tripActive st = true ∧
    if String.eqb (eventType ev) "abnormal_drain" then
      stationary cfg s = false ∧ status = "in_transit"%string ∧ (expectedBurn odo s cfg <=? estimated ev)%f64 = true ∧
      behaviour ev = None
    else
      stationary cfg s = true ∧
      behaviour ev = Some (mkBehaviour "fuel_theft_suspicion" "high" (weightTheft cfg)) ∧
      if String.eqb (eventType ev) "siphon_confirmed" then
        stopStart st ≠ 0 ∧ siphonStop cfg <= Geo.Sub (ts s) (stopStart st) ∧ (siphonThresholdL cfg <=? estimated ev)%f64 = true
      else eventType ev = "drain_theft_suspected"%string ∧ (theftThresholdL cfg <=? estimated ev)%f64 = true.
Lemma classify_met cfg s sm status odo stop st ev :
  (stationary cfg s = true → stop ≠ 0) →
  classify cfg s sm status odo (if stationary cfg s then stop else 0) st = Some ev →
  before ev = baselineLevel st ∧ after ev = sm ∧
  threshold_met cfg s status odo (set_level (window st) (pendingSpike st) (lastLevel st) (baselineLevel st) (refillPending st) stop st) ev.
Proof.
  intros Hstop. unfold classify, threshold_met. destruct (stationary cfg s) eqn:Hs; cbn [andb negb].
  - destruct (_ && _ && _ && _) eqn:H1; [|destruct (tripActive st && (theftThresholdL cfg <=? _)%f64) eqn:H2;
      [|destruct (refillThresholdL cfg <=? _)%f64 eqn:H3]]; intros H; injection H as <- || discriminate H; cbn; auto.
    + repeat apply andb_true_iff in H1 as [H1 ?]. split_and!; try done; [by apply Hstop|by apply Z.leb_le].
    + apply andb_true_iff in H2 as [? ?]. auto 10.
  - destruct (_ && _ && _) eqn:H1; [|destruct (refillThresholdL cfg <=? _)%f64 eqn:H3];
      intros H; injection H as <- || discriminate H; cbn; auto.
    apply andb_true_iff in H1 as [[H1 H2]%andb_true_iff H3]. apply String.eqb_eq in H2. auto 10.
Qed.

Lemma level_step_event cfg s status odo st st' evs :
  ts s ≠ 0 → level_step cfg s status odo st = (st', evs) →
  evs = [] ∨
  ∃ ev, evs = [ev] ∧ before ev = baselineLevel st ∧ after ev = median (window st') ∧ lastLevel st' = after ev ∧
    baselineLevel st' = after ev ∧ tripActive st' = tripActive st ∧ threshold_met cfg s status odo st' ev.
Proof.
  intros Hts. unfold level_step.
  destruct (negb (sensorFitted st) || _); [intros [= <- <-]; by left|].
  destruct (is_nan (lastLevel st)); [intros [= <- <-]; by left|].
  destruct (_ && _); [intros [= <- <-]; by left|]. cbv zeta. unfold detect.
  set (st1 := set_level _ fnan _ _ _ _ st).
  destruct (classify _ _ _ _ _ _ st1) as [ev|] eqn:E; intros [= <- <-]; [right|by left].
  exists ev. apply classify_met in E as (H1 & H2 & H3).
  - rewrite H2. split_and!; try done. unfold threshold_met in *. cbn in *. 
    destruct (stationary cfg s); cbn in *; [done|]. repeat case_match; naive_solver.
  - intros _. destruct (time_IsZero (stopStart st1)) eqn:Hz; [done|]. by apply Z.eqb_neq in Hz.
Qed.
(** C25: one reading yields at most one event, and that one is earned: its
    levels are the baseline before and the median of the window after, the
    litres are their difference and reach the threshold of the kind, and the
    vehicle is on an active trip (stationary for theft and siphon, in
    transit for an abnormal drain; the siphon after the configured stop).
    The baseline then restarts at the level reported. *)
Theorem event_is_earned cfg s status odo st st' evs :
  ts s ≠ 0 → level_step cfg s status odo st = (st', evs) →
  evs = [] ∨
  ∃ ev, evs = [ev] ∧ before ev = baselineLevel st ∧ after ev = median (window st') ∧ lastLevel st' = after ev ∧
    baselineLevel st' = after ev ∧ tripActive st' = tripActive st ∧ threshold_met cfg s status odo st' ev.
Proof. apply level_step_event. Qed.

(** C26: the running median holds against a minority: when more than half of
    the readings in the window lie between two levels, the smoothed level,
    and with it the level any event of this reading reports, lies between
    them, whatever the others are. *)
Theorem event_needs_majority cfg s status odo st st' ev evs lo hi :
  ts s ≠ 0 → level_step cfg s status odo st = (st', evs) → ev ∈ evs →
  good lo → good hi → Forall good (window st') → majority lo hi (window st') →
  within lo hi (after ev) = true ∧ within lo hi (lastLevel st') = true.
Proof.
  intros Hts Hl Hev Hlo Hhi Hw Hm. destruct (level_step_event _ _ _ _ _ _ _ Hts Hl) as [->|(ev' & -> & _ & H1 & H2 & _)].
  - by apply not_elem_of_nil in Hev.
  - apply list_elem_of_singleton in Hev as ->. rewrite H2, H1. split; by apply median_in_band.
Qed.

(** ** The rows of a sweep *)
Section Tables.
Context {env : Env} {gm : GoMath}.
Abbreviation FM := (XM FuelTables Memory).

(** A row of [fuel_events] and the alert about it. *)
Definition alert_of (r : FuelEventRow) (a : AlertEvent) : Prop :=
  a_VehicleID a = fr_VehicleID r ∧ ptr (a_TripID a) = fr_TripID r ∧ ptr (a_DriverID a) = fr_DriverID r ∧
  a_EventType a = fr_EventType r ∧ a_Title a = alertTitle (fr_EventType r) ∧
  a_Estimated a = fr_Estimated r ∧ a_Before a = fr_Before r ∧ a_After a = fr_After r ∧
  a_OdoAfter a = fr_OdoAfter r ∧ timeStr (a_Timestamp a) = fr_OccurredAt r ∧ alert_json_ok a = true.
Definition in_step (x : FuelTables) : Prop :=
  Forall2 (λ r a, alert_of r (ar_Event a) ∧ ar_AggregateID a = fr_VehicleID r) (fuel_events x) (outbox_alerts x).

(** What writes neither. *)
Definition same_events (x x' : FuelTables) : Prop :=
  fuel_events x' = fuel_events x ∧ outbox_alerts x' = outbox_alerts x.
#[local] Instance same_events_preorder : PreOrder same_events.
Proof. split; [done|]. intros x y z [H1 H2] [H3 H4]. split; congruence. Qed.
Lemma insertBehaviour_same st s b : preserves (on_tables same_events) (insertBehaviour st s b).
Proof. unfold insertBehaviour. preserve_tables ltac:(fun _ => done). Qed.

Definition event_row (id : string) (st : vehicleFuelState) (s : snapshotRow) (ev : fuelEvent) : FuelEventRow :=
  mkFuelRow id (vehicleID s) (ptr (tripID s)) (ptr (st_driverID st)) (eventType ev) (before ev) (after ev)
    (odoBefore ev) (odometer s) (estimated ev) (confidence ev) (details ev) (timeStr (ts s)).
Lemma record_event_ok st s ev σ σ' :
  record_event st s ev σ = (Ok tt, σ') →
  ∃ id, outbox_alerts (s_tables σ') = outbox_alerts (s_tables σ) ∧
    fuel_events (s_tables σ') = (fuel_events (s_tables σ) ++ [event_row id st s ev])%list.
Proof.
  unfold record_event, insertFuelEvent. intros H. run_ok H. run_ok Hrun.
  apply core_inv in Hrun0 as (w & _ & ->). apply xwrite_inv in Hrun as (_ & _ & Hx). cbn in Hx. exists v0.
  assert (Hs : same_events (s_tables s0) (s_tables σ')).
  { destruct (behaviour ev) as [b|].
    - pose proof (insertBehaviour_same st s b s0) as Hb. by rewrite H in Hb.
    - injection H as <-. done. }
  destruct Hs as [-> ->]. destruct v. by rewrite Hx.
Qed.
Lemma record_each_ok st s evs σ als σ' :
  record_each st s evs σ = (Ok als, σ') →
  outbox_alerts (s_tables σ') = outbox_alerts (s_tables σ) ∧
  ∃ rows, fuel_events (s_tables σ') = (fuel_events (s_tables σ) ++ rows)%list ∧
    Forall2 (λ r a, (alert_json_ok a = true → alert_of r a) ∧ fr_VehicleID r = vehicleID s) rows als.
Proof.
  revert σ als. induction evs as [|ev evs IH]; intros σ als; cbn [record_each]; intros H.
  { injection H as <- <-. split; [done|]. exists []. by rewrite app_nil_r. }
  run_ok H. run_ok H. run_ok H. injection H as <- <-. destruct v.
  apply record_event_ok in Hrun as (id & Ho & Hf).
  unfold buildAlert in Hrun0. run_ok Hrun0. injection Hrun0 as <- <-. apply core_inv in Hrun as (w & _ & ->).
  apply IH in Hrun1 as (Ho' & rows & Hf' & Hr). cbn in Ho', Hf'. split; [congruence|].
  exists (event_row id st s ev :: rows). split; [by rewrite Hf', Hf, <- app_assoc|].
  constructor; [|done]. split; [|done]. intros Hj. by repeat split.
Qed.
Lemma save_all_ok aid als σ σ' :
  SM_iter (save_alert aid) als σ = (Ok tt, σ') →
  fuel_events (s_tables σ') = fuel_events (s_tables σ) ∧
  ∃ rows, outbox_alerts (s_tables σ') = (outbox_alerts (s_tables σ) ++ rows)%list ∧
    Forall2 (λ a r, ar_Event r = a ∧ ar_AggregateID r = aid ∧ alert_json_ok a = true) als rows.
Proof.
  revert σ. induction als as [|a als IH]; intros σ; cbn [SM_iter]; intros H.
  { injection H as <-. split; [done|]. exists []. by rewrite app_nil_r. }
  run_ok H. unfold save_alert in Hrun. destruct (alert_json_ok a) eqn:Hj; [|discriminate Hrun].
  run_ok Hrun. run_ok Hrun. apply core_inv in Hrun0 as (w & _ & ->). apply core_inv in Hrun1 as (w1 & _ & ->).
  apply xwrite_inv in Hrun as (_ & _ & Hx). cbn in Hx. destruct v.
  apply IH in H as (Hf & rows & Ho & Hr). rewrite Hx in Hf, Ho. cbn in Hf, Ho. split; [done|].
  eexists (_ :: rows). rewrite Ho, <- app_assoc. split; [reflexivity|]. by constructor.
Qed.
Lemma record_events_in_step st s evs : preserves (on_tables (λ x x', in_step x → in_step x')) (record_events st s evs).
Proof.
  intros σ. unfold on_tables, record_events. destruct (xtransaction _ σ) as [r σ'] eqn:H. cbn [snd].
  apply xtransaction_spec in H. destruct r as [[]|e]; [|by destruct H as [_ ->]].
  destruct H as (σ1 & H & _ & -> & _). run_ok H. apply record_each_ok in Hrun as (Ho & rows & Hf & Hr).
  apply save_all_ok in H as (Hf' & arows & Ho' & Ha). cbn in Ho, Hf.
  unfold in_step. intros Hs. rewrite Hf', Hf, Ho', Ho. apply Forall2_app; [exact Hs|].
  clear -Hr Ha. revert arows Ha. induction Hr as [|r a rows als [Hra Hv] Hr IH]; intros arows Ha;
    inversion Ha as [|a' ar als' arows' (H1 & H2 & H3) Ha']; subst;
    constructor; [split; [by apply Hra|congruence]|by apply IH].
Qed.
Definition keeps_step (x x' : FuelTables) : Prop := in_step x → in_step x'.
#[local] Instance keeps_step_preorder : PreOrder keeps_step.
Proof. split; unfold keeps_step; [by intros x|]. intros x y z. auto. Qed.

Lemma pipeline_step vid s cfg warm : preserves (on_tables keeps_step) (pipeline vid s cfg warm).
Proof.
  unfold pipeline, tripStatus, odoRollback, behaviour_hook, siphon_hook, get_state, put_state, call, memory.
  preserve_with ltac:(fun _ => first [ apply record_events_in_step | tables_leaf ltac:(fun _ => fail) ]).
Qed.
Lemma processVehicle_step vid cfg : preserves (on_tables keeps_step) (processVehicle vid cfg).
Proof.
  unfold processVehicle, vehicleMeta, loadRecent, loadAfter, put_state, memory.
  preserve_with ltac:(fun _ => first [ apply pipeline_step | tables_leaf ltac:(fun _ => fail) ]).
Qed.
Lemma Tick_step : preserves (on_tables keeps_step) Tick.
Proof.
  assert (∀ cfg l, preserves (on_tables keeps_step) (sweep cfg l)).
  { intros cfg l. induction l as [|v l IH]; cbn [sweep];
      preserve_with ltac:(fun _ => first [ apply processVehicle_step | apply IH ]). }
  unfold Tick, activeVehicles.
  preserve_with ltac:(fun _ => first [ solve [auto] | apply zoom_tables; exact _ | tables_leaf ltac:(fun _ => fail) ]).
Qed.

(** C24: no event without its alert, no alert without its event: after a sweep
    the two tables are still in step, row by row, with the same vehicle,
    levels and litres, whichever statements failed and wherever the sweep
    was cut short. *)
Theorem events_and_alerts_in_step σ : in_step (s_tables σ) → in_step (s_tables (snd (Tick σ))).
Proof. apply Tick_step. Qed.

(** ** A vehicle whose warm-up failed *)
Definition stays (vid : string) (st : vehicleFuelState) (m m' : Memory) : Prop :=
  state m !! vid = Some st → state m' !! vid = Some st.
#[local] Instance stays_preorder vid st : PreOrder (stays vid st).
Proof. split; unfold stays; [by intros m|]. intros x y z. auto. Qed.
Lemma put_state_stays vid st vid' st' : vid' ≠ vid → preserves (on_out (stays vid st)) (put_state vid' st').
Proof. intros Hne. apply outside_out. intros m H. cbn. by rewrite lookup_insert_ne. Qed.
Ltac stays_leaf := first [ done | by apply put_state_stays ].
Lemma pipeline_stays vid st vid' s cfg warm :
  vid' ≠ vid → preserves (on_out (stays vid st)) (pipeline vid' s cfg warm).
Proof.
  intros Hne.
  assert (Hb : ∀ st s b, preserves (on_out (stays vid st)) (insertBehaviour st s b)).
  { intros. unfold insertBehaviour. preserve_out ltac:(fun _ => by intros ?). }
  assert (Hr : ∀ st1 s evs, preserves (on_out (stays vid st)) (record_events st1 s evs)).
  { intros st1 s1 evs. assert (preserves (on_out (stays vid st)) (record_each st1 s1 evs)).
    { induction evs as [|ev evs IH]; cbn [record_each]; unfold record_event, insertFuelEvent, buildAlert, insertBehaviour;
        preserve_out ltac:(fun _ => apply IH). }
    unfold record_events, save_alert. preserve_out ltac:(fun _ => by intros ?). }
  unfold pipeline, tripStatus, odoRollback, behaviour_hook, siphon_hook, get_state, call, memory.
  preserve_with ltac:(fun _ => first [ apply Hr | by apply put_state_stays | out_leaf ltac:(fun _ => by intros ?) ]).
Qed.
(** The vehicle itself: nothing to load after the zero time. *)
Lemma unwarmed_idle vid cfg st σ r σ' :
  state (s_out σ) !! vid = Some st → lastTs st = 0 → processVehicle vid cfg σ = (r, σ') →
  s_out σ' = s_out σ ∧ s_tables σ' = s_tables σ ∧ s_db σ' = s_db σ ∧ (r = Ok 0 ∨ is_Ok r = false).
Proof.
  intros Hst H0 H. unfold processVehicle in H. apply bind_inv in H as [(e & H & ->)|(meta & σ1 & H & H1)];
    unfold vehicleMeta, SM_wrap in H.
  { apply map_err_fail_inv in H as (e' & H & ->). apply xquery_row_inv in H as (Hd & Ho & Ht & _). auto. }
  apply map_err_ok_inv in H. apply xquery_row_inv in H as (Hd & Ho & Ht & _).
  cbv [mbind SM_mbind SM_bind SM_get mret SM_mret SM_ret] in H1. rewrite Ho, Hst in H1. cbn in H1.
  unfold loadAfter in H1. rewrite H0 in H1. cbn in H1. injection H1 as <- <-. auto 10.
Qed.
Lemma processVehicle_stays vid st vid' cfg :
  lastTs st = 0 → preserves (on_out (stays vid st)) (processVehicle vid' cfg).
Proof.
  intros H0. destruct (decide (vid' = vid)) as [->|Hne].
  - intros σ Hst. destruct (processVehicle vid cfg σ) as [r σ'] eqn:H.
    destruct (unwarmed_idle _ _ _ _ _ _ Hst H0 H) as (Ho & _). unfold stays. cbn [snd]. by rewrite Ho.
  - unfold processVehicle, vehicleMeta, loadRecent, loadAfter.
    preserve_with ltac:(fun _ => first
      [ by apply pipeline_stays | by apply put_state_stays | out_leaf ltac:(fun _ => by intros ?) ]).
Qed.
Lemma Tick_stays vid st : lastTs st = 0 → preserves (on_out (stays vid st)) Tick.
Proof.
  intros H0. assert (∀ cfg l, preserves (on_out (stays vid st)) (sweep cfg l)).
  { intros cfg l. induction l as [|v l IH]; cbn [sweep];
      preserve_with ltac:(fun _ => first [ by apply processVehicle_stays | apply IH ]). }
  unfold Tick, activeVehicles.
  preserve_with ltac:(fun _ => first [ solve [auto] | apply zoom_out; [exact _|by intros ? ? H1] | out_leaf ltac:(fun _ => by intros ?) ]).
Qed.
Fixpoint sweeps (n : nat) (σ : World * FuelTables * Memory) : World * FuelTables * Memory :=
  match n with O => σ | S n' => sweeps n' (snd (Tick σ)) end.

(** a warm-up that fails is never made up for: once the memory holds a
    state of the vehicle without a time - what is left when its recent
    snapshots could not be read - every later sweep takes nothing of the
    vehicle, and the state stays as it is for good. *)
Theorem failed_warmup_is_final vid st σ n :
  state (s_out σ) !! vid = Some st → lastTs st = 0 →
  let σ' := sweeps n σ in
  state (s_out σ') !! vid = Some st ∧
  ∀ cfg, s_out (snd (processVehicle vid cfg σ')) = s_out σ' ∧ s_tables (snd (processVehicle vid cfg σ')) = s_tables σ' ∧
    (fst (processVehicle vid cfg σ') = Ok 0 ∨ is_Ok (fst (processVehicle vid cfg σ')) = false).
Proof.
  intros Hst H0. cbv zeta. assert (Hs : state (s_out (sweeps n σ)) !! vid = Some st).
  { revert σ Hst. induction n as [|n IH]; intros σ Hst; cbn [sweeps]; [done|]. by apply IH, Tick_stays. }
  split; [done|]. intros cfg. destruct (processVehicle vid cfg (sweeps n σ)) as [r σ'] eqn:H.
  cbn [fst snd]. destruct (unwarmed_idle _ _ _ _ _ _ Hs H0 H) as (-> & -> & _ & Hr). auto.
Qed.

(** ** The newest snapshot *)
(** the snapshots a sweep takes are not only those after the last one: the
    watermark is compared by its second, so the newest snapshot of the
    vehicle, already processed, is taken again by every sweep, and so is any
    other of its second. *)
Theorem newest_is_read_again vid r r' d x :
  r ∈ telemetry_snapshots (ops d) → sn_VehicleID r = Some vid →
  sn_Timestamp r / Dwell.second = sn_Timestamp r' / Dwell.second →
  (List.length (List.filter (λ k, of_vehicle vid k && text_after (sn_Timestamp r') (sn_Timestamp k))
     (telemetry_snapshots (ops d))) <= 500)%nat →
  row_of x r ∈ after_watermark vid (sn_Timestamp r') d x.
Proof.
  intros Hr Hv Hs Hn. unfold after_watermark. apply list_elem_of_fmap. exists r. split; [done|].
  unfold limit, maxSnapshotsPerSweep. cbn [Z.ltb]. change (500 <? 0) with false. cbv iota.
  rewrite take_ge by (rewrite (Permutation_length (order_by_perm _ _)); lia).
  apply order_by_in, list_elem_of_In, filter_In. split; [by apply list_elem_of_In|].
  apply andb_true_iff. split; [by apply bool_decide_eq_true|]. unfold text_after, timeStr. rewrite <- Hs.
  apply Z.leb_le. pose proof (Z.mul_div_le (sn_Timestamp r) Dwell.second eq_refl). lia.
Qed.
End Tables.

(** ** A demonstration: one vehicle at rest, a tank of a hundred litres *)
Definition minute := Dwell.minute.
Definition t0 : Time := 63900000000 * Dwell.second.
Definition snapshot (id : string) (t : Time) (level : Z) : SnapshotRow :=
  mkSnapshot id None (Some "v1"%string) t None None (Some f0) (Some (f64_of_Z level)) None.
Definition demo_vehicle : VehicleRow.Vehicle :=
  VehicleRow.mkVehicleRow "v1" "MH-1" "V-1" "truck" 9 "diesel" 0 0 0 "available" None "1" 0 0 None None None None None.
(** Three readings of 80, and last one outlier of 20. *)
Definition demo_db : DB :=
  set_vehicles [demo_vehicle] (set_telemetry_snapshots
    [snapshot "s1" t0 80; snapshot "s2" (t0 + minute) 80; snapshot "s3" (t0 + 2 * minute) 80;
     snapshot "s4" (t0 + 3 * minute) 20] empty_db).
Definition demo_tables : FuelTables := mkTables [] [] [] {["v1"%string := (true, Some f100)]} {["s4"%string := "dr1"%string]}.
Definition demo_start : World * FuelTables * Memory := (world demo_db, demo_tables, NewEngine).
(** The clock a little after the last reading; one statement fails. *)
Definition fault_at (k : nat) : nat → option error := λ n, if Nat.eqb n k then Some (Err "database is locked") else None.
Lemma fault_at_ok k n e : fault_at k n = Some e → is_no_rows e = false.
Proof. unfold fault_at. destruct (Nat.eqb n k); [by intros [= <-]|discriminate]. Qed.
Definition after_readings : Time := t0 + 3 * minute + 30 * Dwell.second.
Definition demo_env : Env := quiet_env after_readings.
Definition faulty_env (k : nat) : Env := test_env after_readings (fault_at k) (fault_at_ok k).
#[local] Existing Instance demo_env.
#[local] Existing Instance go_math.
Abbreviation swept n := (sweeps n demo_start).

(** Taken again by each of the sweeps that follow, the outlier fills the
    window by itself and becomes a theft of sixty litres. *)
Example one_reading_is_a_theft :
  map (λ r, (fr_EventType r, fr_DriverID r)) (fuel_events (s_tables (swept 3))) = [] ∧
  map (λ r, (fr_EventType r, fr_DriverID r)) (fuel_events (s_tables (swept 4))) =
    [("drain_theft_suspected", Some "dr1")]%string ∧
  hooks (s_out (swept 4)) = [BehaviourHook "dr1"].
Proof. vm_compute. auto. Qed.

Abbreviation demo_reading t level := (mkSnap "s" "" "v1" "dr1" t f0 (f64_of_Z level) f0).
Definition settled : vehicleFuelState :=
  mkState "v1" true f100 "percent" (repeat (f64_of_Z 80) 3 ++ repeat (f64_of_Z 20) 3)%list (f64_of_Z 20) (f64_of_Z 80)
    (f64_of_Z 80) f0 t0 f0 t0 "" "dr1" true.
Abbreviation step := (level_step defaultConfig (demo_reading (t0 + 2 * minute) 20) "" f0 settled).
Lemma event_is_earned_witness :
  snd step ≠ [] ∧
  (snd step = [] ∨
   ∃ ev, snd step = [ev] ∧ before ev = baselineLevel settled ∧ after ev = median (window (fst step)) ∧
     lastLevel (fst step) = after ev ∧ baselineLevel (fst step) = after ev ∧
     tripActive (fst step) = tripActive settled ∧
     threshold_met defaultConfig (demo_reading (t0 + 2 * minute) 20) "" f0 (fst step) ev).
Proof.
  split; [vm_compute; discriminate|].
  apply (event_is_earned defaultConfig (demo_reading (t0 + 2 * minute) 20) "" f0 settled); [discriminate|].
  apply surjective_pairing.
Defined.

(** Five readings of seven near twenty litres outweigh two of eighty. *)
Definition low : float64 := f64_of_Z 19.
Definition high : float64 := f64_of_Z 21.
Lemma event_needs_majority_witness :
  match snd step with
  | [ev] => within low high (after ev) = true ∧ within low high (lastLevel (fst step)) = true
  | _ => False
  end.
Proof.
  destruct (snd step) as [|ev [|? ?]] eqn:E; [vm_compute in E; discriminate E| |vm_compute in E; discriminate E].
  apply (event_needs_majority defaultConfig (demo_reading (t0 + 2 * minute) 20) "" f0 settled (fst step) ev (snd step) low high).
  - discriminate.
  - apply surjective_pairing.
  - rewrite E. by left.
  - by vm_compute.
  - by vm_compute.
  - apply (bool_decide_unpack _). by vm_compute.
  - apply Nat.ltb_lt. by vm_compute.
Defined.

Lemma events_and_alerts_in_step_witness :
  in_step demo_tables ∧ List.length (fuel_events (s_tables (swept 4))) = 1%nat ∧
  in_step (s_tables (snd (Tick (swept 3)))).
Proof.
  split; [constructor|]. split; [by vm_compute|]. apply (events_and_alerts_in_step (swept 3)).
  assert (H : fuel_events (s_tables (swept 3)) = [] ∧ outbox_alerts (s_tables (swept 3)) = []) by (vm_compute; auto).
  unfold in_step. destruct H as [-> ->]. constructor.
Defined.

(** The statement that reads the recent snapshots fails, once. *)
Abbreviation failed := (sweeps (env := faulty_env 3) 1 demo_start).
Definition lost : vehicleFuelState := first_state defaultConfig "v1" (true, f100).
Lemma failed_warmup_is_final_witness :
  is_Ok (fst (Tick (env := faulty_env 3) demo_start)) = false ∧
  state (s_out (sweeps (env := faulty_env 3) 100 failed)) !! "v1"%string = Some lost.
Proof.
  split; [by vm_compute|]. refine (proj1 (failed_warmup_is_final (env := faulty_env 3) "v1" lost failed 100 _ _)); by vm_compute.
Defined.

Lemma newest_is_read_again_witness :
  row_of demo_tables (snapshot "s4" (t0 + 3 * minute) 20) ∈ after_watermark "v1" (t0 + 3 * minute) demo_db demo_tables.
Proof.
  apply (newest_is_read_again "v1" (snapshot "s4" (t0 + 3 * minute) 20) (snapshot "s4" (t0 + 3 * minute) 20)).
  - apply list_elem_of_In. vm_compute. auto.
  - done.
  - done.
  - vm_compute. lia.
Defined.
End Fuel.
