(* ===== verification/Scorecard.v ===== *)
(** * The driver scorecard

    [internal/service/scorecard_service.go]: the rolling score of a driver
    from the weighted behaviour events, its history, the leaderboard, the
    resolution of fraud events and the bonus of a settlement.  [drivers.score]
    and [drivers.tier] copy the newest row of [driver_scores]. *)
From stdpp Require Import base decidable list strings option gmap.
From Stdlib Require Import ZArith Lia Ascii String.
From S2P Require Import Prelude GoFloat Shared GoTime GoMath Geofence InvoiceAggregate Database Repository SideTables.
From S2P Require Import GeofenceStore Alerts FuelConfig Fuel.
Open Scope Z_scope.

Module Scorecard.
Import FuelConfig.
Abbreviation BehaviourRow := Fuel.BehaviourRow.
Abbreviation timeStr := Fuel.timeStr.

Record BehaviourEvent := mkBehaviourEvent {
  DriverID : string; TripID : string; VehicleID : string; EventType : string; Severity : string;
  OccurredAt : Time; Metadata : string }.
Record scorecardConfig := mkScorecardConfig {
  windowDays : Z; tierA : float64; tierB : float64; minEvents : Z; fraudCap : float64; fraudCapEnabled : bool }.
Record behaviourEventRow := mkEventRow {
  e_id : string; e_eventType : string; e_severity : string; e_weight : float64; e_occurredAt : Time; e_resolved : bool }.
Record DriverScore := mkDriverScore {
  ds_DriverID : string; ds_Score : float64; ds_Tier : string; ds_PeriodStart : Time; ds_PeriodEnd : Time;
  ds_EventCounts : gmap string Z; ds_InsufficientData : bool }.
Record ScorecardStats := mkStats { TotalDrivers : Z; TierA : Z; TierB : Z; TierC : Z; AvgScore : float64 }.
Record LeaderboardRow := mkLeader {
  lb_DriverID : string; lb_DriverCode : string; lb_DriverName : string; lb_Score : float64; lb_Tier : string;
  lb_EventCount : Z; lb_InsufficientData : bool; lb_Sparkline : string }.
Record EventBreakdown := mkBreakdown { bd_EventType : string; bd_Count : Z; bd_Penalty : float64 }.
Record ScorePoint := mkPoint { sp_Score : float64; sp_Tier : string; sp_PeriodEnd : Time; sp_ComputedAt : Time }.
Record FraudEventView := mkFraud { fv_ID : string; fv_EventType : string; fv_OccurredAt : Time; fv_Resolved : bool }.
Record DriverDetail := mkDetail {
  dd_DriverID : string; dd_DriverCode : string; dd_DriverName : string; dd_Score : float64; dd_Tier : string;
  dd_InsufficientData : bool; dd_EventCount : Z; dd_Breakdown : list EventBreakdown; dd_History : list ScorePoint;
  dd_FraudEvents : list FraudEventView }.

(** A row of [driver_scores]; the counts are the map its JSON holds. *)
Record ScoreRow := mkScoreRow {
  sr_ID : string; sr_DriverID : string; sr_Score : float64; sr_Tier : string; sr_PeriodStart : Time;
  sr_PeriodEnd : Time; sr_EventCounts : gmap string Z; sr_ComputedAt : Time }.
(** [driver_score]: the columns of [drivers], absent while NULL. *)
Record ScoreTables := mkScoreTables {
  behaviour_events : list BehaviourRow; driver_scores : list ScoreRow; driver_score : gmap string (float64 * string) }.
Definition set_behaviour l (x : ScoreTables) : ScoreTables := mkScoreTables l (driver_scores x) (driver_score x).
Definition set_scores l (x : ScoreTables) : ScoreTables := mkScoreTables (behaviour_events x) l (driver_score x).
Definition set_driver_score m (x : ScoreTables) : ScoreTables := mkScoreTables (behaviour_events x) (driver_scores x) m.

(** [behaviourEventMeta] in the metadata of an event: what [json.Unmarshal]
    makes of a text - without error? with [resolved] set? - and the text of a
    resolution by someone at some time. *)
Class MetaJson := {
  Unmarshal : string → bool * bool;
  Marshal_resolved : string → string → string;
  Unmarshal_marshal : ∀ who at_, Unmarshal (Marshal_resolved who at_) = (true, true);
  Unmarshal_empty : Unmarshal "{}" = (true, false) }.

(** ** The score of a list of events *)
Definition defaultBehaviourWeight (t : string) : float64 :=
  if String.eqb t "speeding" then f64_of_Z 8
  else if String.eqb t "harsh_braking" then f64_of_Z 6
  else if String.eqb t "harsh_accel" then f64_of_Z 6
  else if String.eqb t "idling" then f64_of_Z 3
  else if String.eqb t "night_driving" then f64_of_Z 2
  else if String.eqb t "fuel_theft_suspicion" then f64_of_Z 25
  else if String.eqb t "odometer_rollback" then f64_of_Z 20
  else f0.
Definition is_fraud (t : string) : bool := String.eqb t "fuel_theft_suspicion" || String.eqb t "odometer_rollback".
Definition severityMult (sev : string) : float64 :=
  if String.eqb sev "low" then f1
  else if String.eqb sev "medium" then f64_decimal 15 (-1)
  else if String.eqb sev "high" then f64_of_Z 2
  else f64_decimal 15 (-1).
Definition tierFor (score : float64) (cfg : scorecardConfig) : string :=
  if (tierA cfg <=? score)%f64 then "A" else if (tierB cfg <=? score)%f64 then "B" else "C".
Definition hasUnresolvedFraud (es : list behaviourEventRow) : bool :=
  existsb (λ e, is_fraud (e_eventType e) && negb (e_resolved e)) es.
Definition hour : Z := 60 * Dwell.minute.
(** [d.Hours() / 24.0]. *)
Definition days_of (d : Z) : float64 :=
  fdiv (fadd (f64_of_Z (Z.quot d hour)) (fdiv (f64_of_Z (Z.rem d hour)) (f64_of_Z hour))) (f64_of_Z 24).
Definition days_ago (now : Time) (e : behaviourEventRow) : float64 := days_of (Geo.Sub now (e_occurredAt e)).
(** What an event takes off, if it counts. *)
Definition counted (window days : float64) (e : behaviourEventRow) : bool :=
  negb (is_fraud (e_eventType e) && e_resolved e) && negb ((window <=? days)%f64 || (days <? f0)%f64).
Definition penalty_step (now : Time) (window : float64) (sum : float64) (e : behaviourEventRow) : float64 :=
  let days := days_ago now e in
  let decay := fdiv (fsub window days) window in
  if counted window days e && negb (decay <=? f0)%f64
  then fadd sum (fmul (fmul (e_weight e) (severityMult (e_severity e))) decay) else sum.
Definition clamp_score (x : float64) : float64 :=
  if (x <? f0)%f64 then f0 else if (f100 <? x)%f64 then f100 else x.
Definition count_types (es : list behaviourEventRow) : gmap string Z :=
  foldl (λ m e, <[e_eventType e := default 0 (m !! e_eventType e) + 1]> m) ∅ es.
(** The counts of the types add up to the events. *)
Definition computeScore (now : Time) (cfg : scorecardConfig) (es : list behaviourEventRow)
    : float64 * gmap string Z * bool :=
  let window := f64_of_Z (windowDays cfg) in
  (clamp_score (fsub f100 (foldl (penalty_step now window) f0 es)), count_types es,
   Z.of_nat (List.length es) <? minEvents cfg).
Definition scorecardPenalty (es : list behaviourEventRow) (t : string) (now : Time) (window : float64) : float64 :=
  foldl (λ p e,
    let days := days_ago now e in
    if String.eqb (e_eventType e) t && counted window days e
    then fadd p (fdiv (fmul (fmul (e_weight e) (severityMult (e_severity e))) (fsub window days)) window) else p) f0 es.
(** Score and tier under the fraud cap. *)
Definition capped (now : Time) (cfg : scorecardConfig) (es : list behaviourEventRow) : float64 * string :=
  let '(score, _, _) := computeScore now cfg es in
  if fraudCapEnabled cfg && hasUnresolvedFraud es then (fmin score (fraudCap cfg), "C"%string)
  else (score, tierFor score cfg).

(** ** The service *)
Section Service.
Context {env : Env} {gm : GoMath} {mj : MetaJson}.
Abbreviation ScM := (XM ScoreTables ConfigReader).
Definition config {A} (m : SM (World * ConfigReader) A) : ScM A := zoom id (λ c _, c) m.

Definition loadScorecardConfig : SM (World * ConfigReader) scorecardConfig :=
  win ← float_key "scorecard.window_days" positive (f64_of_Z 30);
  ta ← float_key "scorecard.tier_a" positive (f64_of_Z 85);
  tb ← float_key "scorecard.tier_b" not_negative (f64_of_Z 70);
  mine ← float_key "scorecard.min_events" not_negative (f64_of_Z 3);
  cap ← float_key "scorecard.fraud_cap" not_negative (f64_of_Z 69);
  raw ← SM_try (Get DefaultTenant "scorecard.fraud_cap_enabled");
  mret (mkScorecardConfig (f64_to_int64 win) ta tb (f64_to_int64 mine) cap
          (match raw with
           | Ok raw => is_empty raw || negb (String.eqb raw "false")
           | Fail _ => true
           end)).
Definition pct (key : string) (def : float64) : SM (World * ConfigReader) float64 :=
  r ← SM_try (GetFloat DefaultTenant key def); mret (match r with Ok v => v | Fail _ => def end).
(** [now.Add(-time.Duration(windowDays) * 24 * time.Hour)]. *)
Definition period_start (now : Time) (cfg : scorecardConfig) : Time :=
  now + wrap64 (- wrap64 (wrap64 (windowDays cfg * 24) * hour)).

Definition in_window (driverID : string) (from : Time) (r : BehaviourRow) : bool :=
  String.eqb (Fuel.br_DriverID r) driverID && (timeStr from <=? timeStr (Fuel.br_OccurredAt r)).
Definition event_row (r : BehaviourRow) : behaviourEventRow :=
  let '(ok, resolved) := Unmarshal (Fuel.br_Metadata r) in
  mkEventRow (Fuel.br_ID r) (Fuel.br_EventType r) (Fuel.br_Severity r) (Fuel.br_Weight r) (Fuel.br_OccurredAt r)
    (ok && resolved).
Definition events_of (driverID : string) (from : Time) (x : ScoreTables) : list behaviourEventRow :=
  event_row <$> order_by (λ r r', Fuel.br_OccurredAt r <=? Fuel.br_OccurredAt r')
    (List.filter (in_window driverID from) (behaviour_events x)).
Definition eventsInWindow (driverID : string) (from : Time) : ScM (list behaviourEventRow) :=
  xquery (λ _ _ x, events_of driverID from x).

(** [WriteBehaviourEvent]. *)
Definition or_text (s d : string) : string := if is_empty s then d else s.
Definition WriteBehaviourEvent (evt : BehaviourEvent) : ScM unit :=
  (when is_empty (EventType evt) fail Err "scorecard: behaviour event requires event_type";
   when is_empty (DriverID evt) fail Err "scorecard: behaviour event requires driver_id";
   at_ ← (if time_IsZero (OccurredAt evt) then core Now else mret (OccurredAt evt));
   weight ← config (pct ("scorecard.weight." +:+ EventType evt) (defaultBehaviourWeight (EventType evt)));
   id ← core GenerateUUID;
   xwrite (λ _ x, set_behaviour (behaviour_events x ++
     [Fuel.mkBehaviourRow id (DriverID evt) (Fuel.ptr (TripID evt)) (Fuel.ptr (VehicleID evt)) (EventType evt)
        (or_text (Severity evt) "medium") weight (or_text (Metadata evt) "{}") (timeStr at_)])%list x))%go.

(** [RecomputeDriverScore]. *)
Definition insert_score (r : ScoreRow) : ScM unit := xwrite (λ _ x, set_scores (driver_scores x ++ [r])%list x).
(** [UPDATE drivers ... WHERE id = ?]. *)
Definition update_driver (driverID : string) (score : float64) (tier : string) : ScM unit :=
  xexec (λ _ d x, (Ok tt,
    if existsb (λ r, String.eqb (DriverRow.ID r) driverID) (drivers d)
    then set_driver_score (<[driverID := (score, tier)]> (driver_score x)) x else x)).
Definition RecomputeDriverScore (driverID : string) : ScM DriverScore :=
  cfg ← config loadScorecardConfig;
  now ← core Now;
  let from := period_start now cfg in
  es ← eventsInWindow driverID from;
  let '(_, counts, insufficient) := computeScore now cfg es in
  let '(score, tier) := capped now cfg es in
  _ ← SM_wrap "scorecard: persist score for"
        (xtransaction
           (id ← core GenerateUUID;
            _ ← insert_score (mkScoreRow id driverID score tier (timeStr from) (timeStr now) counts (timeStr now));
            update_driver driverID score tier));
  mret (mkDriverScore driverID score tier from now counts insufficient).

(** [RecomputeAllDrivers]: the first error, after every driver was tried. *)
Fixpoint recompute_each (ds : list string) (first : option error) : ScM (option error) :=
  match ds with
  | [] => mret first
  | d :: ds' =>
      r ← SM_try (RecomputeDriverScore d);
      recompute_each ds' (match first, r with
                          | Some e, _ => Some e
                          | None, Fail e => Some e
                          | None, Ok _ => None
                          end)
  end.
Definition scored_in_window (from : Time) (x : ScoreTables) : list string :=
  remove_dups (Fuel.br_DriverID <$>
    List.filter (λ r, negb (is_empty (Fuel.br_DriverID r)) && (timeStr from <=? timeStr (Fuel.br_OccurredAt r)))
      (behaviour_events x)).
Definition decayed (from : Time) (d : DB) (x : ScoreTables) : list string :=
  List.filter (λ i, bool_decide (is_Some (driver_score x !! i)) && negb (existsb (String.eqb i) (scored_in_window from x)))
    (DriverRow.ID <$> drivers d).
Definition RecomputeAllDrivers : ScM unit :=
  cfg ← config loadScorecardConfig;
  now ← core Now;
  let from := period_start now cfg in
  ds ← xquery (λ _ _ x, scored_in_window from x);
  e ← recompute_each ds None;
  dec ← xquery (λ _ d x, decayed from d x);
  e ← recompute_each dec e;
  match e with Some e => SM_fail e | None => mret tt end.

(** [ResolveFraudEvent]. *)
Definition set_metadata (m : string) (r : BehaviourRow) : BehaviourRow :=
  Fuel.mkBehaviourRow (Fuel.br_ID r) (Fuel.br_DriverID r) (Fuel.br_TripID r) (Fuel.br_VehicleID r)
    (Fuel.br_EventType r) (Fuel.br_Severity r) (Fuel.br_Weight r) m (Fuel.br_OccurredAt r).
Definition by_event (id : string) (r : BehaviourRow) : bool := String.eqb (Fuel.br_ID r) id.
(** [logAudit] of the legacy services: the user is the one given. *)
Definition logAudit (userID action table recordID old new_ : string) : M unit :=
  SM_ignore (id ← GenerateUUID;
    CreateAuditLog (mkAuditRow id (Some userID) action table recordID (Some old) (Some new_) getUserIP)).
Definition ResolveFraudEvent (eventID adminUserID : string) : ScM unit :=
  (r ← SM_map_err (λ _, Err "scorecard: behaviour event not found")
         (xquery_row (λ _ _ x, List.find (by_event eventID) (behaviour_events x)));
   when negb (is_fraud (Fuel.br_EventType r)) fail Err "scorecard: event is not a fraud-cap event";
   when snd (Unmarshal (Fuel.br_Metadata r)) fail Err "scorecard: event already resolved";
   now ← core Now;
   let updated := Marshal_resolved adminUserID (FormatDateTime now) in
   _ ← xtransaction (xwrite (λ _ x,
         set_behaviour ((λ r, if by_event eventID r then set_metadata updated r else r) <$> behaviour_events x) x));
   _ ← core (logAudit adminUserID "fraud_event_resolved" "driver_behaviour_events" eventID (Fuel.br_Metadata r) updated);
   if is_empty (Fuel.br_DriverID r) then mret tt
   else _ ← RecomputeDriverScore (Fuel.br_DriverID r); mret tt)%go.

(** [BonusForPayout]: every failure is no bonus. *)
Definition bonus_key (tier : string) : string * float64 :=
  if String.eqb tier "A" then ("scorecard.bonus_a_pct"%string, f64_of_Z 5)
  else if String.eqb tier "B" then ("scorecard.bonus_b_pct"%string, f64_of_Z 2)
  else ("scorecard.bonus_c_pct"%string, f0).
Definition or_none {A} (m : ScM A) (k : A → ScM float64) : ScM float64 :=
  r ← SM_try m; match r with Ok a => k a | Fail _ => mret f0 end.
Definition BonusForPayout (driverID : string) (netPayout : float64) : ScM float64 :=
  cfg ← config loadScorecardConfig;
  or_none (xquery_row (λ _ d x,
    _ ← List.find (λ r, String.eqb (DriverRow.ID r) driverID) (drivers d); Some (driver_score x !! driverID)))
  (λ score,
    match score with
    | None => mret f0
    | Some (_, tier) =>
        if is_empty tier then mret f0
        else
          now ← core Now;
          or_none (xquery (λ _ _ x,
            Z.of_nat (List.length (List.filter (in_window driverID (period_start now cfg)) (behaviour_events x)))))
          (λ n,
            if n <? minEvents cfg then mret f0
            else
              p ← config (pct (fst (bonus_key tier)) (snd (bonus_key tier)));
              mret (fdiv (fmul netPayout p) f100))
    end).

(** *** The pages *)
(** [PreferredDrivers]. *)
Record PreferredDriver := mkPreferred {
  pd_DriverID : string; pd_DriverCode : string; pd_DriverName : string; pd_Score : float64; pd_Tier : string }.
Definition full_name (r : DriverRow.Driver) : string := (DriverRow.FirstName r +:+ " " +:+ DriverRow.LastName r)%string.
Definition preferred (x : ScoreTables) (r : DriverRow.Driver) : option PreferredDriver :=
  st ← driver_score x !! DriverRow.ID r;
  if (String.eqb (snd st) "A" || String.eqb (snd st) "B") && String.eqb (DriverRow.Status r) "available"
  then Some (mkPreferred (DriverRow.ID r) (DriverRow.DriverID r) (full_name r) (fst st) (snd st)) else None.
Definition PreferredDrivers (limit_ : Z) : ScM (list PreferredDriver) :=
  let n := if limit_ <=? 0 then 20 else limit_ in
  xquery (λ _ d x, take (Z.to_nat n) (order_by (λ p q, (pd_Score q <=? pd_Score p)%f64) (omap (preferred x) (drivers d)))).

(** [sparklineSVG]. *)
Definition f64_min (xs : list float64) (x : float64) : float64 := foldl (λ m y, if (y <? m)%f64 then y else m) x xs.
Definition f64_max (xs : list float64) (x : float64) : float64 := foldl (λ m y, if (m <? y)%f64 then y else m) x xs.
Definition sparkline_point (n : Z) (lo hi : float64) (i : nat) (sc : float64) : string :=
  let x := fmul (fdiv (f64_of_Z (Z.of_nat i)) (f64_of_Z (n - 1))) (f64_of_Z 120) in
  let y := fsub (f64_of_Z 30) (fmul (fdiv (fsub sc lo) (fsub hi lo)) (f64_of_Z 28)) in
  (FormatFloat1 x +:+ "," +:+ FormatFloat1 y)%string.
Definition sparkline_head : string :=
  ("<svg width=" +:+ quoted "120" +:+ " height=" +:+ quoted "32" +:+ " viewBox=" +:+ quoted "0 0 120 32" +:+ " class="
   +:+ quoted "inline-block align-middle" +:+ " aria-hidden=" +:+ quoted "true" +:+ "><polyline fill=" +:+ quoted "none"
   +:+ " stroke=" +:+ quoted "currentColor" +:+ " stroke-width=" +:+ quoted "2" +:+ " stroke-linejoin=" +:+ quoted "round"
   +:+ " stroke-linecap=" +:+ quoted "round" +:+ " points=")%string.
Definition sparklineSVG (scores : list float64) : string :=
  match scores with
  | [] | [_] => ""%string
  | x :: _ =>
      let lo := f64_min scores x in
      let hi := f64_max scores x in
      let hi := if (hi =? lo)%f64 then fadd lo f1 else hi in
      (sparkline_head +:+ quoted (String.concat " " (imap (sparkline_point (Z.of_nat (List.length scores)) lo hi) scores))
       +:+ "/></svg>")%string
  end.

(** [Leaderboard]: drivers never scored show as 100 and A. *)
Definition shown_score (x : ScoreTables) (r : DriverRow.Driver) : float64 * string :=
  default (f100, "A"%string) (driver_score x !! DriverRow.ID r).
Definition ranks_before (x : ScoreTables) (r r' : DriverRow.Driver) : bool :=
  let s := fst (shown_score x r) in
  let s' := fst (shown_score x r') in
  (s' <? s)%f64 ||
  ((s =? s')%f64 && (String.ltb (DriverRow.FirstName r) (DriverRow.FirstName r') ||
     (String.eqb (DriverRow.FirstName r) (DriverRow.FirstName r') &&
      String.leb (DriverRow.LastName r) (DriverRow.LastName r')))).
Definition ranked (tenant : string) (n : Z) (d : DB) (x : ScoreTables) : list (DriverRow.Driver * (float64 * string)) :=
  (λ r, (r, shown_score x r)) <$> take (Z.to_nat n) (order_by (ranks_before x)
    (List.filter (λ r, String.eqb (DriverRow.TenantID r) tenant) (drivers d))).
Definition count_in (from : Time) (x : ScoreTables) (driverID : string) : Z :=
  Z.of_nat (List.length (List.filter (in_window driverID from) (behaviour_events x))).
(** The last fourteen scores, oldest first. *)
Definition last_scores (x : ScoreTables) (driverID : string) : list float64 :=
  let h := sr_Score <$> order_by (λ r r', sr_PeriodEnd r <=? sr_PeriodEnd r')
             (List.filter (λ r, String.eqb (sr_DriverID r) driverID) (driver_scores x)) in
  drop (List.length h - 14) h.
Definition tier_is (t : string) (r : LeaderboardRow) : bool := String.eqb (lb_Tier r) t.
Definition stats_of (out : list LeaderboardRow) : ScorecardStats :=
  let n := Z.of_nat (List.length out) in
  let a := Z.of_nat (List.length (List.filter (tier_is "A") out)) in
  let b := Z.of_nat (List.length (List.filter (tier_is "B") out)) in
  let sum := foldl (λ s r, fadd s (lb_Score r)) f0 out in
  mkStats n a b (n - a - b) (if 0 <? n then fdiv sum (f64_of_Z n) else sum).
Definition Leaderboard (tenant : string) (limit_ : Z) : ScM (list LeaderboardRow * ScorecardStats) :=
  let n := if limit_ <=? 0 then 50 else if 200 <? limit_ then 200 else limit_ in
  cfg ← config loadScorecardConfig;
  now ← core Now;
  let from := period_start now cfg in
  rows ← xquery (λ _ d x, ranked tenant n d x);
  match rows with
  | [] => mret ([], stats_of [])
  | _ =>
      counts ← xquery (λ _ _ x, count_in from x);
      history ← xquery (λ _ _ x, last_scores x);
      let out := (λ '(r, (score, tier)),
        let i := DriverRow.ID r in
        mkLeader i (DriverRow.DriverID r) (full_name r) score tier (counts i) (counts i <? minEvents cfg)
          (sparklineSVG (history i))) <$> rows in
      mret (out, stats_of out)
  end.

(** [DriverDetail]. *)
Definition eventResolved (id : string) : ScM bool :=
  r ← xquery_row (λ _ _ x, List.find (by_event id) (behaviour_events x));
  let '(ok, resolved) := Unmarshal (Fuel.br_Metadata r) in mret (ok && resolved).
Fixpoint with_resolution (fs : list FraudEventView) : ScM (list FraudEventView) :=
  match fs with
  | [] => mret []
  | f :: fs' =>
      r ← SM_try (eventResolved (fv_ID f));
      rest ← with_resolution fs';
      mret (mkFraud (fv_ID f) (fv_EventType f) (fv_OccurredAt f) (match r with Ok b => b | Fail _ => false end) :: rest)
  end.
Definition breakdown (es : list behaviourEventRow) (now : Time) (window : float64) : list EventBreakdown :=
  let counts := count_types es in
  (λ t, mkBreakdown t (default 0 (counts !! t)) (scorecardPenalty es t now window)) <$>
    order_by String.leb (remove_dups (e_eventType <$> es)).
Definition history_of (driverID : string) (x : ScoreTables) : list ScorePoint :=
  (λ r, mkPoint (sr_Score r) (sr_Tier r) (sr_PeriodEnd r) (sr_ComputedAt r)) <$>
    take 30 (order_by (λ r r', sr_PeriodEnd r' <=? sr_PeriodEnd r)
      (List.filter (λ r, String.eqb (sr_DriverID r) driverID) (driver_scores x))).
Definition fraud_of (driverID : string) (from : Time) (x : ScoreTables) : list FraudEventView :=
  (λ r, mkFraud (Fuel.br_ID r) (Fuel.br_EventType r) (Fuel.br_OccurredAt r) false) <$>
    order_by (λ r r', Fuel.br_OccurredAt r' <=? Fuel.br_OccurredAt r)
      (List.filter (λ r, in_window driverID from r && is_fraud (Fuel.br_EventType r)) (behaviour_events x)).
Definition GetDriverDetail (driverID : string) : ScM DriverDetail :=
  cfg ← config loadScorecardConfig;
  now ← core Now;
  let from := period_start now cfg in
  r ← SM_wrap "scorecard: driver" (xquery_row (λ _ d _,
        List.find (λ r, String.eqb (DriverRow.ID r) driverID) (drivers d)));
  es ← eventsInWindow driverID from;
  let '(_, _, insufficient) := computeScore now cfg es in
  let score := fst (capped now cfg es) in
  let tier := if fraudCapEnabled cfg && hasUnresolvedFraud es then "C"%string else tierFor score cfg in
  history ← xquery (λ _ _ x, history_of driverID x);
  frauds ← xquery (λ _ _ x, fraud_of driverID from x);
  frauds ← with_resolution frauds;
  mret (mkDetail driverID (DriverRow.DriverID r) (full_name r) score tier insufficient
          (Z.of_nat (List.length es)) (breakdown es now (f64_of_Z (windowDays cfg))) history frauds).
End Service.


Abbreviation State := (World * ScoreTables * ConfigReader)%type.

(** ** Scores and history *)
Section Theorems.
Context {env : Env} {gm : GoMath} {mj : MetaJson}.


(** The newest row of a driver, in the order of writing. *)
Definition newest (i : string) (x : ScoreTables) : option ScoreRow :=
  last (List.filter (λ r, String.eqb (sr_DriverID r) i) (driver_scores x)).
Definition has_driver (d : DB) (i : string) : bool := existsb (λ r, String.eqb (DriverRow.ID r) i) (drivers d).
(** What [drivers] shows is the newest row of the history. *)
Definition agrees (d : DB) (x : ScoreTables) : Prop :=
  ∀ i score tier, driver_score x !! i = Some (score, tier) →
    has_driver d i = true ∧ ∃ r, newest i x = Some r ∧ sr_Score r = score ∧ sr_Tier r = tier.
Definition keeps_agreed (p p' : DB * ScoreTables) : Prop :=
  drivers (fst p') = drivers (fst p) ∧ (agrees (fst p) (snd p) → agrees (fst p') (snd p')).
#[local] Instance keeps_agreed_preorder : PreOrder keeps_agreed.
Proof. split; [by intros p|]. intros p q r [H1 H2] [H3 H4]. split; [congruence|auto]. Qed.

Lemma agrees_drivers d d' x : drivers d' = drivers d → agrees d x → agrees d' x.
Proof. intros Hd Ha i s t Hi. unfold has_driver. rewrite Hd. by apply Ha. Qed.
Lemma newest_other i r x :
  sr_DriverID r ≠ i → newest i (set_scores (driver_scores x ++ [r]) x) = newest i x.
Proof.
  intros Hne. unfold newest. cbn [driver_scores set_scores]. rewrite List.filter_app. cbn.
  apply String.eqb_neq in Hne. by rewrite Hne, app_nil_r.
Qed.
Lemma newest_this r x : newest (sr_DriverID r) (set_scores (driver_scores x ++ [r]) x) = Some r.
Proof.
  unfold newest. cbn [driver_scores set_scores]. rewrite List.filter_app. cbn. rewrite String.eqb_refl. apply last_snoc.
Qed.
(** Both writes of a recompute, together. *)
Lemma agrees_scored d x r :
  agrees d x →
  agrees d (if has_driver d (sr_DriverID r)
            then set_driver_score (<[sr_DriverID r := (sr_Score r, sr_Tier r)]> (driver_score x))
                   (set_scores (driver_scores x ++ [r]) x)
            else set_scores (driver_scores x ++ [r]) x).
Proof.
  intros Ha i s t Hi. destruct (decide (sr_DriverID r = i)) as [<-|Hne].
  - destruct (has_driver d (sr_DriverID r)) eqn:Hd.
    + cbn in Hi. rewrite lookup_insert_eq in Hi. injection Hi as <- <-. split; [done|]. exists r. split; [|done].
      exact (newest_this r x).
    + apply Ha in Hi as [Hi _]. by rewrite Hi in Hd.
  - assert (Hi' : driver_score x !! i = Some (s, t)).
    { destruct (has_driver d _); [cbn in Hi; by rewrite lookup_insert_ne in Hi|done]. }
    apply Ha in Hi' as (H1 & r' & H2 & H3). split; [done|]. exists r'. split; [|done].
    rewrite <- H2. destruct (has_driver d _); [|by apply newest_other]. by rewrite <- (newest_other i r x Hne).
Qed.

Lemma config_agreed {A} (m : SM (World * ConfigReader) A) :
  preserves same_db m → preserves (on_parts keeps_agreed) (config m).
Proof. apply zoom_parts, _. Qed.
Lemma GetFloat_db t key def : preserves same_db (GetFloat t key def).
Proof. unfold GetFloat. preserve_with ltac:(fun _ => apply Get_db). Qed.
Lemma pct_db key def : preserves same_db (pct key def).
Proof. unfold pct. preserve_with ltac:(fun _ => apply GetFloat_db). Qed.
Lemma loadScorecardConfig_db : preserves same_db loadScorecardConfig.
Proof.
  unfold loadScorecardConfig, float_key, or_keep. preserve_with ltac:(fun _ => first [ apply GetFloat_db | apply Get_db ]).
Qed.
(** A write of the events alone. *)
Lemma behaviour_agreed now l d x : keeps_agreed (d, x) (d, (λ _ x, set_behaviour l x) (now : Time) x).
Proof. by split. Qed.

Lemma persist_agreed driverID score tier from now counts :
  preserves (on_parts keeps_agreed)
    (xtransaction (S := ConfigReader)
       (id ← core GenerateUUID;
        _ ← insert_score (mkScoreRow id driverID score tier from now counts now); update_driver driverID score tier)).
Proof.
  intros σ. unfold on_parts. destruct (xtransaction _ σ) as [r σ'] eqn:H. apply xtransaction_spec in H. cbn [snd].
  destruct r as [[]|e]; [|destruct H as [-> ->]; reflexivity].
  destruct H as (σ1 & H & -> & -> & _). run_ok H. injection Hrun as <- <-. run_ok H.
  unfold insert_score in Hrun. apply xwrite_inv in Hrun as (Hd & _ & Hx).
  apply xstmt_inv in H as (Hd' & _ & H). injection H as H. split; cbn [fst snd]; [by rewrite Hd', Hd|].
  intros Ha. rewrite Hd', <- H, Hd. cbn in Hx. rewrite Hx.
  exact (agrees_scored _ _ (mkScoreRow _ driverID score tier from now counts now) Ha).
Qed.
Lemma Recompute_agreed driverID : preserves (on_parts keeps_agreed) (RecomputeDriverScore driverID).
Proof.
  unfold RecomputeDriverScore, eventsInWindow.
  preserve_with ltac:(fun _ => first
    [ apply persist_agreed | apply config_agreed, loadScorecardConfig_db | parts_leaf ltac:(fun _ => fail) ]).
Qed.
Lemma RecomputeAll_agreed : preserves (on_parts keeps_agreed) RecomputeAllDrivers.
Proof.
  assert (He : ∀ ds e, preserves (on_parts keeps_agreed) (recompute_each ds e)).
  { intros ds. induction ds as [|d ds IH]; intros e; cbn [recompute_each];
      preserve_with ltac:(fun _ => first [ apply Recompute_agreed | apply IH ]). }
  unfold RecomputeAllDrivers.
  preserve_with ltac:(fun _ => first
    [ apply He | apply config_agreed, loadScorecardConfig_db | parts_leaf ltac:(fun _ => fail) ]).
Qed.
Lemma logAudit_agreed u a t i o n : preserves (on_parts keeps_agreed) (core (S := ConfigReader) (logAudit u a t i o n)).
Proof.
  apply (core_parts _ _ only_audit).
  - intros d d' x [rows ->]. split; [done|]. cbn. by apply agrees_drivers.
  - unfold logAudit, CreateAuditLog. preserve. apply stmt_on_db; [exact _|]. intros now d. cbn.
    case_match; [reflexivity|]. by eexists.
Qed.
Lemma Write_agreed evt : preserves (on_parts keeps_agreed) (WriteBehaviourEvent evt).
Proof.
  unfold WriteBehaviourEvent.
  preserve_with ltac:(fun _ => first [ apply config_agreed, pct_db | parts_leaf ltac:(fun _ => by split) ]).
Qed.
Lemma Resolve_agreed eventID who : preserves (on_parts keeps_agreed) (ResolveFraudEvent eventID who).
Proof.
  unfold ResolveFraudEvent.
  preserve_with ltac:(fun _ => first
    [ apply logAudit_agreed | apply Recompute_agreed | parts_leaf ltac:(fun _ => by split) ]).
Qed.

Inductive Command :=
| Write (evt : BehaviourEvent) | Recompute (driverID : string) | RecomputeAll | Resolve (eventID who : string).
Definition perform (c : Command) : XM ScoreTables ConfigReader unit :=
  match c with
  | Write evt => WriteBehaviourEvent evt
  | Recompute d => SM_ignore (RecomputeDriverScore d)
  | RecomputeAll => RecomputeAllDrivers
  | Resolve i who => ResolveFraudEvent i who
  end.
Definition run (cs : list Command) (σ : State) : State := foldl (λ σ c, snd (perform c σ)) σ cs.
Lemma perform_agreed c : preserves (on_parts keeps_agreed) (perform c).
Proof.
  destruct c; cbn [perform]; [apply Write_agreed| |apply RecomputeAll_agreed|apply Resolve_agreed].
  apply preserves_ignore, Recompute_agreed.
Qed.

(** the score and tier that [drivers] shows for a driver are those of the
    newest row of the driver's history, after any sequence of operations and
    whichever statements fail: the two are written together or not at all. *)
Theorem shown_score_is_newest cs σ :
  agrees (s_db σ) (s_tables σ) → agrees (s_db (run cs σ)) (s_tables (run cs σ)).
Proof.
  unfold run. revert σ. induction cs as [|c cs IH]; intros σ Ha; cbn [foldl]; [done|].
  apply IH. exact (proj2 (perform_agreed c σ) Ha).
Qed.

(** ** The score of a driver *)
Lemma clamp_range x : is_nan x = false → (f0 <=? clamp_score x)%f64 = true ∧ (clamp_score x <=? f100)%f64 = true.
Proof.
  intros Hx. unfold clamp_score. destruct (x <? f0)%f64 eqn:H0; [done|].
  destruct (f100 <? x)%f64 eqn:H1; [done|]. by split; apply fleb_of_not_fltb.
Qed.
Lemma clamp_nan x : is_nan (clamp_score x) = is_nan x.
Proof. unfold clamp_score. destruct x as [[]|[]| |[] m e]; try done; by repeat case_match. Qed.
Lemma not_negative_nan x : not_negative x = true → is_nan x = false.
Proof. by destruct x as [[]|[]| |[] m e]. Qed.
Lemma fmin_cases x y : is_nan x = false → is_nan y = false → fmin x y = x ∨ fmin x y = y.
Proof.
  intros Hx Hy. unfold fmin. rewrite Hx, Hy. cbn [andb]. destruct (_ && _).
  - destruct x as [[]|[]| |[] m e]; auto.
  - destruct (_ || _); auto.
Qed.
Lemma float_key_ok key ok def v s s' : ok def = true → float_key key ok def s = (Ok v, s') → ok v = true.
Proof.
  intros Hd H. unfold float_key, or_keep in H. run_ok H. injection H as <- <-.
  destruct v0 as [x|e]; [|done]. destruct (ok x) eqn:E; done.
Qed.
Lemma loadScorecardConfig_cap cfg s s' : loadScorecardConfig s = (Ok cfg, s') → not_negative (fraudCap cfg) = true.
Proof.
  intros H. unfold loadScorecardConfig in H. do 6 run_ok H. injection H as <- _. cbn [fraudCap].
  by apply float_key_ok in Hrun3.
Qed.
Lemma zoom_inv {A} (m : SM (World * ConfigReader) A) (s s' : State) r :
  config m s = (r, s') → s_tables s' = s_tables s ∧ ∃ c', m (s_world s, s_out s) = (r, c').
Proof. unfold config, zoom. destruct (m _) as [r1 [w c]] eqn:E. intros [= <- <-]. split; [done|]. by eexists. Qed.

(** the score of a recompute is that of the events in the window, between
    0 and 100; while a fraud event among them is unresolved it is at most the
    cap, and the tier is C; otherwise the tier follows the thresholds. *)
Theorem recomputed_score_bounded i σ ds σ' :
  RecomputeDriverScore i σ = (Ok ds, σ') →
  ∃ now cfg, let es := events_of i (period_start now cfg) (s_tables σ) in
    let base := fst (fst (computeScore now cfg es)) in
    let fraud := fraudCapEnabled cfg && hasUnresolvedFraud es in
    ds_PeriodEnd ds = now ∧
    (is_nan base = false →
       (f0 <=? base)%f64 = true ∧ (base <=? f100)%f64 = true ∧
       (f0 <=? ds_Score ds)%f64 = true ∧ (ds_Score ds <=? base)%f64 = true ∧
       (fraud = true → (ds_Score ds <=? fraudCap cfg)%f64 = true)) ∧
    (fraud = true → ds_Tier ds = "C"%string) ∧
    (fraud = false → ds_Score ds = base ∧ ds_Tier ds = tierFor base cfg).
Proof.
  intros H. unfold RecomputeDriverScore in H. run_ok H. apply zoom_inv in Hrun as (Ht & c' & Hcfg).
  apply loadScorecardConfig_cap in Hcfg. rename v into cfg. run_ok H. apply core_inv in Hrun as (w & _ & ->).
  rename v into now. run_ok H. apply xquery_inv in Hrun as (_ & _ & _ & ->). cbn [s_tables snd fst] in H.
  rewrite Ht in H. exists now, cfg. cbv zeta. set (es := events_of i (period_start now cfg) (s_tables σ)) in *.
  unfold capped in H. destruct (computeScore now cfg es) as [[base counts] ins] eqn:Hc.
  assert (Hb : is_nan base = false → (f0 <=? base)%f64 = true ∧ (base <=? f100)%f64 = true).
  { unfold computeScore in Hc. injection Hc as <- _ _. rewrite clamp_nan. apply clamp_range. }
  cbn [fst] in *. pose proof (not_negative_nan _ Hcfg) as Hn. destruct (_ && _) eqn:Hf; run_ok H; injection H as <- _;
    cbn; (split; [done|]); (split; [|done]); intros Hx; specialize (Hb Hx) as [H1 H2].
  - destruct (fmin_le base (fraudCap cfg) Hx Hn) as [H3 H4]. split_and!; try done.
    by destruct (fmin_cases base (fraudCap cfg) Hx Hn) as [->| ->].
  - split_and!; try done. by apply fleb_refl.
Qed.

(** ** Resolution *)
Lemma find_updated id m (l : list BehaviourRow) r :
  List.find (by_event id) l = Some r →
  List.find (by_event id) ((λ r, if by_event id r then set_metadata m r else r) <$> l) = Some (set_metadata m r).
Proof.
  induction l as [|y l IH]; cbn; [done|]. destruct (by_event id y) eqn:E.
  - intros [= ->]. unfold by_event in *. cbn. by rewrite E.
  - rewrite E. exact IH.
Qed.
Definition resolved_event (id : string) (x : ScoreTables) : Prop :=
  ∃ r, List.find (by_event id) (behaviour_events x) = Some r ∧ is_fraud (Fuel.br_EventType r) = true ∧
    snd (Unmarshal (Fuel.br_Metadata r)) = true.
Definition same_behaviour (x x' : ScoreTables) : Prop := behaviour_events x' = behaviour_events x.
#[local] Instance same_behaviour_preorder : PreOrder same_behaviour.
Proof. split; [done|]. intros x y z H1 H2. unfold same_behaviour in *. congruence. Qed.
Lemma Recompute_behaviour i : preserves (on_tables same_behaviour) (RecomputeDriverScore i).
Proof.
  unfold RecomputeDriverScore, eventsInWindow, config.
  assert (Hu : ∀ i sc t, preserves (on_tables same_behaviour) (update_driver i sc t)).
  { intros. apply xstmt_on; [exact _|]. intros. cbn. by case_match. }
  preserve_with ltac:(fun _ => first
    [ apply zoom_tables; exact _
    | apply xtransaction_on; [exact _|]; preserve_with ltac:(fun _ => first [ apply Hu | tables_leaf ltac:(fun _ => done) ])
    | tables_leaf ltac:(fun _ => done) ]).
Qed.

(** a fraud event is resolved once: after a resolution that succeeded,
    every later one of the same event is refused and writes nothing. *)
Theorem fraud_resolved_once id who σ σ' who' :
  ResolveFraudEvent id who σ = (Ok tt, σ') →
  resolved_event id (s_tables σ') ∧
  is_Ok (fst (ResolveFraudEvent id who' σ')) = false ∧
  s_tables (snd (ResolveFraudEvent id who' σ')) = s_tables σ'.
Proof.
  intros H. assert (Hr : resolved_event id (s_tables σ')).
  { unfold ResolveFraudEvent in H. run_ok H. apply map_err_ok_inv, xquery_row_inv in Hrun as (_ & _ & Ht & Hr).
    destruct (negb (is_fraud _)) eqn:Hf; [discriminate H|]. destruct (snd (Unmarshal _)) eqn:Hu; [discriminate H|].
    run_ok H. apply core_inv in Hrun as (w & _ & ->). run_ok H. destruct v1. apply xtransaction_spec in Hrun as (s1 & Hw & _ & Hx & _).
    apply xwrite_inv in Hw as (_ & _ & Hw). cbn in Hw. run_ok H. apply core_inv in Hrun as (w2 & _ & ->).
    assert (Hs : behaviour_events (s_tables σ') = behaviour_events (s_tables s1)).
    { destruct (is_empty _); [injection H as <-; cbn; by rewrite Hx|]. run_ok H. injection H as <-.
      pose proof (Recompute_behaviour (Fuel.br_DriverID v) (w2, s_tables s0, s_out s0)) as Hb. unfold on_tables in Hb.
      rewrite Hrun in Hb. unfold on_tables, same_behaviour in Hb. cbn in Hb. by rewrite Hb, Hx. }
    eexists. split_and!.
    - rewrite Hs, Hw. cbn. rewrite Ht. by apply find_updated.
    - cbn. by apply negb_false_iff.
    - cbn. by rewrite Unmarshal_marshal. }
  split; [done|]. destruct Hr as (r & Hfind & Hfraud & Hres).
  destruct (ResolveFraudEvent id who' σ') as [res τ] eqn:H2. cbn [fst snd]. unfold ResolveFraudEvent in H2.
  apply bind_inv in H2 as [(e & H2 & ->)|(r' & s1 & H2 & H3)].
  - apply map_err_fail_inv in H2 as (e' & H2 & _). by apply xquery_row_inv in H2 as (_ & _ & -> & _).
  - apply map_err_ok_inv, xquery_row_inv in H2 as (_ & _ & Ht & Hr'). rewrite Hfind in Hr'. injection Hr' as <-.
    rewrite Hfraud, Hres in H3. cbn in H3. injection H3 as <- <-. by split.
Qed.
End Theorems.

(** ** A demonstration *)
Definition resolved_text (who at_ : string) : string :=
  ("{" +:+ quoted "resolved" +:+ ":true," +:+ quoted "resolved_by" +:+ ":" +:+ quoted who +:+ ","
   +:+ quoted "resolved_at" +:+ ":" +:+ quoted at_ +:+ "}")%string.
Definition demo_unmarshal (s : string) : bool * bool := (true, negb (String.eqb s "{}")).
Definition demo_json : MetaJson :=
  {| Unmarshal := demo_unmarshal; Marshal_resolved := resolved_text;
     Unmarshal_marshal := λ who at_, eq_refl; Unmarshal_empty := eq_refl |}.
#[local] Existing Instance demo_json.
#[local] Existing Instance go_math.
Definition t0 : Time := 63900000000 * Dwell.second.
Definition demo_env : Env := quiet_env t0.
#[local] Existing Instance demo_env.
Definition theft : BehaviourEvent := mkBehaviourEvent "d1" "" "v1" "fuel_theft_suspicion" "high" (t0 - 24 * hour) "".
Definition demo_start : State := (world (set_drivers [demo_driver] empty_db), mkScoreTables [] [] ∅, NewConfigReader).
Abbreviation scored := (run [Write theft; Recompute "d1"] demo_start).
Abbreviation cleared := (run [Resolve "id-0" "u1"] scored).
Definition shown (σ : State) : option (Z * string) := (λ p, (f64_to_int64 (fst p), snd p)) <$> driver_score (s_tables σ) !! "d1"%string.

Lemma shown_score_is_newest_witness :
  shown scored = Some (51, "C")%string ∧ shown cleared = Some (100, "A")%string ∧ agrees (s_db cleared) (s_tables cleared).
Proof.
  split; [by vm_compute|]. split; [by vm_compute|].
  apply (shown_score_is_newest [Resolve "id-0" "u1"]%string scored).
  assert (Ha : ∀ d, agrees d (mkScoreTables [] [] ∅)) by (intros d i s t H; cbn in H; by rewrite lookup_empty in H).
  assert (Hs : ∀ cs σ, agrees (s_db σ) (s_tables σ) → agrees (s_db (run cs σ)) (s_tables (run cs σ))).
  { intros cs. unfold run. induction cs as [|c cs IH]; intros σ Hσ; cbn [foldl]; [done|].
    apply IH. exact (proj2 (perform_agreed c σ) Hσ). }
  apply Hs, Ha.
Defined.
Lemma recomputed_score_bounded_witness :
  is_Ok (fst (RecomputeDriverScore "d1" scored)) = true ∧
  ∃ ds, fst (RecomputeDriverScore "d1" scored) = Ok ds ∧
  ∃ now cfg, let es := events_of "d1" (period_start now cfg) (s_tables scored) in
    ds_PeriodEnd ds = now ∧ (fraudCapEnabled cfg && hasUnresolvedFraud es = true → ds_Tier ds = "C"%string).
Proof.
  assert (Hok : is_Ok (fst (RecomputeDriverScore "d1" scored)) = true) by (vm_compute; reflexivity).
  split; [exact Hok|]. destruct (RecomputeDriverScore "d1" scored) as [[ds|e] σ'] eqn:H; [|discriminate Hok].
  exists ds. split; [done|]. destruct (recomputed_score_bounded "d1" scored ds σ' H) as (now & cfg & H1 & _ & H2 & _).
  exists now, cfg. by split.
Defined.
Lemma fraud_resolved_once_witness :
  is_Ok (fst (ResolveFraudEvent "id-0" "u1" scored)) = true ∧
  is_Ok (fst (ResolveFraudEvent "id-0" "u2" (snd (ResolveFraudEvent "id-0" "u1" scored)))) = false.
Proof.
  assert (Hok : fst (ResolveFraudEvent "id-0" "u1" scored) = Ok tt) by (vm_compute; reflexivity).
  split; [by rewrite Hok|].
  refine (proj1 (proj2 (fraud_resolved_once "id-0" "u1" scored _ "u2" _))). rewrite <- Hok. apply surjective_pairing.
Defined.

(** A resolution whose recompute fails is an error, and yet final: the cap
    stays, and asking again is refused. *)
Definition locked_env : Env := test_env t0 (Fuel.fault_at (w_stmts (s_world scored) + 5)) (Fuel.fault_at_ok _).
Abbreviation half := (ResolveFraudEvent (env := locked_env) "id-0" "u1" scored).
Example failed_resolution_is_final :
  is_Ok (fst half) = false ∧ shown (snd half) = Some (51, "C")%string ∧
  match ResolveFraudEvent "id-0" "u1" (snd half) with
  | (Fail e, σ) => e = Err "scorecard: event already resolved" ∧ shown σ = Some (51, "C")%string
  | _ => False
  end.
Proof. vm_compute. auto. Qed.
End Scorecard.
