(* ===== verification/Settlement.v ===== *)
(** * Driver settlements

    [internal/service/driver_settlement_service.go]: the payout of a driver
    for a trip - the fare of the rate model, less commission, approved
    expenses and tax, plus the bonus of the scorecard - its row and its
    lines, and what becomes of it: confirmed, disputed, paid.  The alert of
    the operations desk and the event bus are the outside of the component. *)
From stdpp Require Import base decidable list strings option gmap.
From Stdlib Require Import ZArith Lia Ascii String.
From S2P Require Import Prelude GoFloat Shared GoTime GoMath Geofence InvoiceAggregate Database SideTables.
From S2P Require Import GeofenceStore Alerts FuelConfig Fuel Scorecard.
Open Scope Z_scope.

Module Settlement.
Abbreviation timeStr := Fuel.timeStr.

(** ** Records *)
Record SettlementLine := mkLine {
  l_ID : string; l_SettlementID : string; l_TripID : string; l_LineType : string; l_Label : string;
  l_Amount : float64; l_RefID : string; l_CreatedAt : Time }.
(** [map[string]interface{}] of floats. *)
Abbreviation Basis := (list (string * float64)).
(** A row of [driver_settlements]; read back it comes with its lines. *)
Record DriverSettlementRecord := mkSettlement {
  ID : string; TripID : string; DriverID : string; GrossFare : float64; CommissionAmount : float64;
  AdvancesKharcha : float64; Deductions : float64; PerformanceBonus : float64; TDSRate : float64;
  TDSAmount : float64; NetPayout : float64; RateModel : string; RateBasisJSON : option Basis; Status : string;
  PaymentRef : option string; PaidAt : option Time; ConfirmedAt : option Time; DisputedAt : option Time;
  DisputeReason : option string; CreatedAt : Time; UpdatedAt : Time }.
Abbreviation Settled := (DriverSettlementRecord * list SettlementLine)%type.
Record RateResult := mkRate { r_GrossFare : float64; r_Commission : float64; r_RateModel : string; r_RateBasis : Basis }.
Record Expense := mkExpense {
  x_ID : string; x_TripID : option string; x_DriverID : string; x_Category : string; x_Status : string; x_Amount : float64 }.

(** The tables; [drivers.pan], [routes.distance] and the scorecard's are
    read. *)
Record SettleTables := mkTables {
  driver_settlements : list DriverSettlementRecord; settlement_lines : list SettlementLine;
  driver_expenses : list Expense; driver_pan : gmap string string; route_distance : gmap string float64;
  score_tables : Scorecard.ScoreTables }.
Definition set_settlements l (x : SettleTables) : SettleTables :=
  mkTables l (settlement_lines x) (driver_expenses x) (driver_pan x) (route_distance x) (score_tables x).
Definition set_lines l (x : SettleTables) : SettleTables :=
  mkTables (driver_settlements x) l (driver_expenses x) (driver_pan x) (route_distance x) (score_tables x).
(** What leaves the component, and the reader of the scorecard. *)
Inductive Message :=
| SettlementGenerated (settlementID tripID driverID : string) (net : float64) (at_ : Time)
| DriverPayoutSettled (settlementID tripID driverID : string) (net : float64) (paymentRef : string) (at_ : Time)
| SettlementDispute (tripID settlementID reason : string).
Record Outside := mkOutside { reader : FuelConfig.ConfigReader; messages : list Message }.
(** What is wired: the bus, the scorecard, the operations alerts; and the
    fares of the legacy bridge. *)
Record Service := mkService {
  has_events : bool; has_scorecard : bool; has_opsAlerts : bool;
  defaultFare : float64; defaultAdvances : float64; defaultDeductions : float64 }.

Definition ErrSettlementNotFound : error := Err "settlement_not_found".
Definition ErrTripNotFound : error := Err "trip_not_found".
Definition ErrDriverNotAssigned : error := Err "driver_not_assigned".
Definition ErrBookingPriceMissing : error := Err "booking_price_missing".

Definition by_id (id : string) (s : DriverSettlementRecord) : bool := String.eqb (ID s) id.
Definition by_trip (t : string) (s : DriverSettlementRecord) : bool := String.eqb (TripID s) t.
Definition not_negative_of (x : float64) : float64 := if (x <? f0)%f64 then f0 else x.
Definition is_positive (x : float64) : bool := (f0 <? x)%f64.

(** ** The SET clauses *)
Definition set_amounts (new_ : DriverSettlementRecord) (now : Time) (s : DriverSettlementRecord) : DriverSettlementRecord :=
  mkSettlement (ID s) (TripID s) (DriverID s) (GrossFare new_) (CommissionAmount new_) (AdvancesKharcha new_)
    (Deductions new_) (PerformanceBonus new_) (TDSRate new_) (TDSAmount new_) (NetPayout new_) (RateModel new_)
    (RateBasisJSON new_) (Status s) (PaymentRef s) (PaidAt s) (ConfirmedAt s) (DisputedAt s) (DisputeReason s)
    (CreatedAt s) now.
Definition set_state (status : string) (ref : option string) (paid confirmed disputed : option Time)
    (reason : option string) (now : Time) (s : DriverSettlementRecord) : DriverSettlementRecord :=
  mkSettlement (ID s) (TripID s) (DriverID s) (GrossFare s) (CommissionAmount s) (AdvancesKharcha s) (Deductions s)
    (PerformanceBonus s) (TDSRate s) (TDSAmount s) (NetPayout s) (RateModel s) (RateBasisJSON s) status ref paid
    confirmed disputed reason (CreatedAt s) now.
Definition set_paid (ref : string) (at_ now : Time) (s : DriverSettlementRecord) : DriverSettlementRecord :=
  set_state "paid" (Some ref) (Some at_) (ConfirmedAt s) (DisputedAt s) (DisputeReason s) now s.
Definition set_confirmed (now : Time) (s : DriverSettlementRecord) : DriverSettlementRecord :=
  set_state (Status s) (PaymentRef s) (PaidAt s) (Some now) (DisputedAt s) (DisputeReason s) now s.
Definition set_disputed (reason : string) (now : Time) (s : DriverSettlementRecord) : DriverSettlementRecord :=
  set_state "disputed" (PaymentRef s) (PaidAt s) (ConfirmedAt s) (Some now) (Some reason) now s.
(** The columns an upsert of the legacy bridge takes over. *)
Definition set_processed (new_ : DriverSettlementRecord) (s : DriverSettlementRecord) : DriverSettlementRecord :=
  mkSettlement (ID s) (TripID s) (DriverID s) (GrossFare new_) (CommissionAmount s) (AdvancesKharcha new_)
    (Deductions new_) (PerformanceBonus new_) (TDSRate s) (TDSAmount s) (NetPayout new_) (RateModel s)
    (RateBasisJSON s) "paid" (PaymentRef new_) (PaidAt new_) (ConfirmedAt s) (DisputedAt s) (DisputeReason s)
    (CreatedAt s) (UpdatedAt new_).
Definition update_settlements (p : DriverSettlementRecord → bool) (f : DriverSettlementRecord → DriverSettlementRecord)
    (x : SettleTables) : SettleTables :=
  set_settlements ((λ s, if p s then f s else s) <$> driver_settlements x) x.

Definition unique_failed (col : string) : error := Err ("UNIQUE constraint failed: " +:+ col).
Definition insert_settlement (s : DriverSettlementRecord) (x : SettleTables) : result unit * SettleTables :=
  if existsb (by_id (ID s)) (driver_settlements x) then (Fail (unique_failed "driver_settlements.id"), x)
  else if existsb (by_trip (TripID s)) (driver_settlements x) then (Fail (unique_failed "driver_settlements.trip_id"), x)
  else (Ok tt, set_settlements (driver_settlements x ++ [s])%list x).
Definition insert_line (l : SettlementLine) (x : SettleTables) : result unit * SettleTables :=
  if existsb (λ k, String.eqb (l_ID k) (l_ID l)) (settlement_lines x) then (Fail (unique_failed "settlement_lines.id"), x)
  else (Ok tt, set_lines (settlement_lines x ++ [l])%list x).

(** ** The lines of a settlement *)
Definition basis_of (k : string) (b : Basis) : option float64 :=
  snd <$> List.find (λ p, String.eqb (fst p) k) b.
(** A line before it has an id: type, label, amount, reference. *)
Record LineItem := mkItem { i_type : string; i_label : string; i_amount : float64; i_ref : string }.
Definition fare_label (r : RateResult) : string :=
  if String.eqb (r_RateModel r) "per_km" then
    match basis_of "km" (r_RateBasis r), basis_of "rate_per_km" (r_RateBasis r) with
    | Some km, Some rate => ("Trip fare (per_km " +:+ FormatFloat1 km +:+ " km x " +:+ FormatFloat2 rate +:+ ")")%string
    | _, _ => "Trip fare (per_km)"
    end
  else ("Trip fare (" +:+ r_RateModel r +:+ ")")%string.
Definition percent_of (r : RateResult) : float64 :=
  match basis_of "commission_pct" (r_RateBasis r) with Some p => fmul p f100 | None => f64_of_Z 5 end.
Definition optional (b : bool) (l : list LineItem) : list LineItem := if b then l else [].
Definition buildLines (r : RateResult) (advances : float64) (adv : list LineItem) (deductions : float64)
    (ded : list LineItem) (tdsRate tds : float64) (section : string) (bonus : float64) : list LineItem :=
  (mkItem "gross_fare" (fare_label r) (r_GrossFare r) "" ::
   optional (is_positive (r_Commission r))
     [mkItem "commission" ("Platform commission " +:+ FormatFloat1 (percent_of r) +:+ "%") (fneg (r_Commission r)) ""] ++
   optional (is_positive advances)
     (match adv with [] => [mkItem "advances" "Advances & kharcha" (fneg advances) ""] | _ => adv end) ++
   optional (is_positive deductions) ded ++
   optional (is_positive tds)
     [mkItem "tds" ("TDS u/s " +:+ section +:+ " @" +:+ FormatFloat0 tdsRate +:+ "%") (fneg tds) ""] ++
   optional (is_positive bonus) [mkItem "adjustment" "Performance bonus" bonus ""])%list.

(** The expenses of a trip that count, and their sum in table order. *)
Definition is_advance (c : string) : bool :=
  String.eqb c "kharcha" || String.eqb c "advance" || String.eqb c "fuel" || String.eqb c "toll".
Definition approved (tripID driverID : string) (x : Expense) : bool :=
  bool_decide (x_TripID x = Some tripID) && String.eqb (x_DriverID x) driverID && String.eqb (x_Status x) "approved".
Definition total_of (l : list Expense) : float64 := foldl (λ s x, fadd s (x_Amount x)) f0 l.
Definition advance_item (x : Expense) : LineItem :=
  mkItem "advances" ("Approved expense (" +:+ x_Category x +:+ ") #" +:+ x_ID x) (fneg (x_Amount x)) (x_ID x).
Definition deduction_item (x : Expense) : LineItem :=
  mkItem "deduction" ("Approved deduction (" +:+ x_Category x +:+ ") #" +:+ x_ID x) (fneg (x_Amount x)) (x_ID x).
(** What is left to tax, and to pay. *)
Definition before_tax (r : RateResult) (advances deductions : float64) : float64 :=
  fsub (fsub (fsub (r_GrossFare r) (r_Commission r)) advances) deductions.
Definition after_tax (r : RateResult) (advances deductions tds : float64) : float64 :=
  fsub (before_tax r advances deductions) tds.
Definition json_basis (b : Basis) : bool := forallb (λ p, is_finite (snd p)) b.

(** ** The service *)
Section Service.
Context {env : Env} {gm : GoMath} {mj : Scorecard.MetaJson} (svc : Service).
Abbreviation SeM := (XM SettleTables Outside).

Definition emit (m : Message) : SeM unit := outside (λ o, mkOutside (reader o) (messages o ++ [m])%list).
(** The scorecard runs on its tables and its reader. *)
Definition in_score {A} (m : XM Scorecard.ScoreTables FuelConfig.ConfigReader A) : SeM A := λ s,
  match m (s_world s, score_tables (s_tables s), reader (s_out s)) with
  | (r, (w, t, c)) =>
      (r, (w, mkTables (driver_settlements (s_tables s)) (settlement_lines (s_tables s)) (driver_expenses (s_tables s))
                (driver_pan (s_tables s)) (route_distance (s_tables s)) t,
           mkOutside c (messages (s_out s))))
  end.
Definition bonus_for (driverID : string) (net : float64) : SeM float64 :=
  if has_scorecard svc then in_score (Scorecard.BonusForPayout driverID net) else mret f0.

(** [getConfig]: of whichever tenant comes first. *)
Definition getConfig (key : string) : SeM string :=
  r ← SM_try (xquery_row (λ _ d _, List.find (λ r, String.eqb (cc_Key r) key) (company_config (ops d))));
  mret (match r with Ok r => cc_Value r | Fail _ => ""%string end).
Definition getConfigFloat (key : string) (def : float64) : SeM float64 :=
  v ← getConfig key;
  mret (if is_empty v then def else default def (ParseFloat v)).
Definition or_zero (m : SeM float64) : SeM float64 := r ← SM_try m; mret (match r with Ok v => v | Fail _ => f0 end).

Definition calculateGrossFare (bookingID routeID : string) : SeM RateResult :=
  model ← getConfig "settlement_rate_model";
  let model := if is_empty model then "per_km"%string else model in
  if String.eqb model "per_km" then
    km ← (if is_empty routeID then mret f0 else or_zero (xquery_row (λ _ _ x, route_distance x !! routeID)));
    let km := if (km <=? f0)%f64 then f100 else km in
    rate ← getConfigFloat "settlement_rate_per_km" (f64_decimal 119 (-1));
    mret (mkRate (fmul km rate) f0 "per_km" [("km", km); ("rate_per_km", rate)]%string)
  else if String.eqb model "fixed" then
    fixed ← getConfigFloat "settlement_fixed_fare" (f64_of_Z 5000);
    mret (mkRate fixed f0 "fixed" [("fixed", fixed)]%string)
  else if String.eqb model "commission_pct" then
    fare ← (if is_empty bookingID then mret f0
            else or_zero (xquery_row (λ _ d _,
                   BookingRow.Price <$> List.find (λ b, String.eqb (BookingRow.ID b) bookingID) (bookings d))));
    if (fare <=? f0)%f64 then SM_fail ErrBookingPriceMissing
    else
      p ← getConfigFloat "settlement_commission_pct" (f64_of_Z 5);
      let pct := fdiv p f100 in
      let commission := fmul fare pct in
      mret (mkRate (fsub fare commission) commission "commission_pct" [("fare", fare); ("commission_pct", pct)]%string)
  else mret (mkRate (f64_of_Z 1000) f0 "fixed" [("fixed", f64_of_Z 1000)]%string).

Definition expenses (adv : bool) (tripID driverID : string) : SeM (list Expense) :=
  xquery (λ _ _ x, List.filter (λ e, approved tripID driverID e && Bool.eqb (is_advance (x_Category e)) adv) (driver_expenses x)).
Definition getApprovedAdvances (tripID driverID : string) : SeM (float64 * list LineItem) :=
  l ← expenses true tripID driverID; mret (total_of l, advance_item <$> l).
Definition getApprovedDeductions (tripID driverID : string) : SeM (float64 * list LineItem) :=
  l ← expenses false tripID driverID; mret (total_of l, deduction_item <$> l).

(** [calculateTDS]: rate, amount, section. *)
Definition calculateTDS (driverID : string) (base : float64) : SeM (float64 * float64 * string) :=
  pan ← SM_try (xquery_row (λ _ d x,
          _ ← List.find (λ r, String.eqb (DriverRow.ID r) driverID) (drivers d); Some (driver_pan x !! driverID)));
  section ← getConfig "tds_section";
  let section := if is_empty section then "194C"%string else section in
  let with_pan := match pan with Ok (Some p) => negb (is_empty (TrimSpace p)) | _ => false end in
  rate ← (if with_pan then getConfigFloat "tds_rate_with_pan" f1
          else getConfigFloat "tds_rate_without_pan" (f64_of_Z 2));
  mret (rate, fmul base (fdiv rate f100), section).

(** [findByTripID]: the lines are left out when they cannot be read. *)
Definition lines_of (id : string) (x : SettleTables) : list SettlementLine :=
  order_by (λ l k, l_CreatedAt l <=? l_CreatedAt k)
    (List.filter (λ l, String.eqb (l_SettlementID l) id) (settlement_lines x)).
Definition not_found {A} (m : SeM A) : SeM A :=
  SM_map_err (λ e, if is_no_rows e then ErrSettlementNotFound else e) m.
Definition findByTripID (tripID : string) : SeM Settled :=
  s ← not_found (xquery_row (λ _ _ x, List.find (by_trip tripID) (driver_settlements x)));
  l ← SM_try (xquery (λ _ _ x, lines_of (ID s) x));
  mret (s, match l with Ok l => l | Fail _ => [] end).

(** [GenerateSettlement]. *)
Definition trip_parties (tripID : string) (d : DB) : option (option string * option string * string) :=
  t ← List.find (λ t, String.eqb (TripRow.ID t) tripID) (trips d);
  Some (TripRow.DriverID t, TripRow.BookingID t, TripRow.RouteID t).
Definition insert_each (settlementID tripID : string) (items : list LineItem) : SeM unit :=
  SM_iter (λ i,
    id ← core GenerateUUID;
    SM_wrap "insert settlement line" (xexec (λ now _ x,
      insert_line (mkLine ("stl-ln-" +:+ id) settlementID tripID (i_type i) (i_label i) (i_amount i) (i_ref i) (timeStr now)) x)))
  items.
Definition contains_unique (e : error) : bool := contains (error_msg e) "UNIQUE".
(** The row is written; [None]: another writer came first. *)
Definition write_row (force : bool) (row : Time → DriverSettlementRecord) (tripID settlementID : string)
    : SeM (option string) :=
  let insert := xexec (λ now _ x, insert_settlement (row (timeStr now)) x) in
  if force then
    old ← SM_try (xquery_row (λ _ _ x, ID <$> List.find (by_trip tripID) (driver_settlements x)));
    match old with
    | Ok id =>
        if is_empty id then SM_fail (Wrap "lookup existing settlement" (Err "<nil>"))
        else
          _ ← SM_wrap "clear old settlement lines" (xwrite (λ _ x,
                set_lines (List.filter (λ l, negb (String.eqb (l_SettlementID l) id)) (settlement_lines x)) x));
          _ ← SM_wrap "update settlement" (xwrite (λ now, update_settlements (by_id id) (set_amounts (row now) (timeStr now))));
          mret (Some id)
    | Fail e =>
        if is_no_rows e then _ ← SM_wrap "insert settlement" insert; mret (Some settlementID)
        else SM_fail (Wrap "lookup existing settlement" e)
    end
  else
    r ← SM_try insert;
    match r with
    | Ok _ => mret (Some settlementID)
    | Fail e => if contains_unique e then mret None else SM_fail (Wrap "insert settlement" e)
    end.
Record Computed := mkComputed {
  c_rate : RateResult; c_advances : float64; c_adv : list LineItem; c_deductions : float64; c_ded : list LineItem;
  c_tdsRate : float64; c_tds : float64; c_section : string; c_bonus : float64; c_net : float64 }.
Definition items_of (c : Computed) : list LineItem :=
  buildLines (c_rate c) (c_advances c) (c_adv c) (c_deductions c) (c_ded c) (c_tdsRate c) (c_tds c) (c_section c) (c_bonus c).
Definition new_row (id tripID driverID : string) (c : Computed) (now : Time) : DriverSettlementRecord :=
  mkSettlement id tripID driverID (r_GrossFare (c_rate c)) (r_Commission (c_rate c)) (c_advances c) (c_deductions c)
    (c_bonus c) (c_tdsRate c) (c_tds c) (c_net c) (r_RateModel (c_rate c)) (Some (r_RateBasis (c_rate c))) "pending"
    None None None None None now now.
(** Steps 3 to 6. *)
Definition compute (tripID driverID bookingID routeID : string) : SeM Computed :=
  rate ← calculateGrossFare bookingID routeID;
  '(advances, adv) ← getApprovedAdvances tripID driverID;
  '(deductions, ded) ← getApprovedDeductions tripID driverID;
  '(tdsRate, tds, section) ← calculateTDS driverID (not_negative_of (before_tax rate advances deductions));
  let net := after_tax rate advances deductions tds in
  bonus ← bonus_for driverID net;
  let net := if has_scorecard svc then fadd net bonus else net in
  mret (mkComputed rate advances adv deductions ded tdsRate tds section bonus (not_negative_of net)).
Definition store_settlement (force : bool) (tripID driverID : string) (c : Computed) : SeM (option string) :=
  id ← core GenerateUUID;
  let settlementID := ("stl-" +:+ id)%string in
  if negb (json_basis (r_RateBasis (c_rate c))) then SM_fail (Wrap "marshal rate basis" (Err "json: unsupported value"))
  else
    now ← core Now;
    r ← xtransaction_opt
      (r ← write_row force (new_row settlementID tripID driverID c) tripID settlementID;
       match r with
       | Some id => _ ← insert_each id tripID (items_of c); mret (Some id)
       | None => mret None
       end);
    match r with
    | Some id =>
        _ ← (if has_events svc then emit (SettlementGenerated id tripID driverID (c_net c) now) else mret tt);
        mret (Some id)
    | None => mret None
    end.
Definition GenerateSettlement (tripID : string) (force : bool) : SeM Settled :=
  parties ← SM_map_err (λ e, if is_no_rows e then ErrTripNotFound else Wrap "lookup trip" e)
              (xquery_row (λ _ d _, trip_parties tripID d));
  let '(driver, booking, route) := parties in
  match nonempty driver with
  | None => SM_fail ErrDriverNotAssigned
  | Some driverID =>
      existing ← (if force then mret None
                  else r ← SM_try (findByTripID tripID);
                       mret (match r with Ok s => Some s | Fail _ => None end));
      match existing with
      | Some s => mret s
      | None =>
          c ← compute tripID driverID (or_empty booking) route;
          _ ← store_settlement force tripID driverID c;
          findByTripID tripID
      end
  end.

(** ** The life of a settlement *)
Definition GetSettlement (id : string) : SeM Settled :=
  s ← not_found (xquery_row (λ _ _ x, List.find (by_id id) (driver_settlements x)));
  findByTripID (TripID s).
Definition page {A} (limit offset : Z) (l : list A) : list A := take (Z.to_nat limit) (drop (Z.to_nat offset) l).
Definition ListSettlements (status driverID : string) (limit offset : Z) : SeM (list Settled) :=
  let n := if limit <=? 0 then 50 else limit in
  ids ← xquery (λ _ _ x, page n offset (TripID <$> order_by (λ s t, CreatedAt t <=? CreatedAt s)
          (List.filter (λ s, (is_empty status || String.eqb (Status s) status) &&
                             (is_empty driverID || String.eqb (DriverID s) driverID)) (driver_settlements x))));
  foldr (λ t rest, r ← SM_try (findByTripID t); l ← rest; mret (match r with Ok s => s :: l | Fail _ => l end))
    (mret []) ids.
(** The status read first decides nothing. *)
Definition MarkPaid (id paymentRef : string) (paidAt : Time) : SeM Settled :=
  s ← not_found (xquery_row (λ _ _ x, List.find (by_id id) (driver_settlements x)));
  _ ← xwrite (λ now, update_settlements (by_id id) (set_paid paymentRef (timeStr paidAt) (timeStr now)));
  _ ← (if has_events svc
       then emit (DriverPayoutSettled id (TripID s) (DriverID s) (NetPayout s) paymentRef paidAt) else mret tt);
  findByTripID (TripID s).
Definition ConfirmSettlement (id : string) : SeM Settled :=
  s ← SM_map_err (λ _, ErrSettlementNotFound) (xquery_row (λ _ _ x, List.find (by_id id) (driver_settlements x)));
  _ ← xwrite (λ now, update_settlements (by_id id) (set_confirmed (timeStr now)));
  findByTripID (TripID s).
(** The expected amount of the request is not looked at. *)
Definition DisputeSettlement (id reason : string) (expectedNet : float64) : SeM Settled :=
  s ← SM_map_err (λ _, ErrSettlementNotFound) (xquery_row (λ _ _ x, List.find (by_id id) (driver_settlements x)));
  _ ← xwrite (λ now, update_settlements (by_id id) (set_disputed reason (timeStr now)));
  _ ← (if has_opsAlerts svc then emit (SettlementDispute (TripID s) id reason) else mret tt);
  findByTripID (TripID s).

(** ** The legacy bridge *)
Definition bridge_row (id tripID driverID : string) (fare advances deductions bonus net : float64) (status : string)
    (ref : option string) (paid : option Time) (created updated : Time) : DriverSettlementRecord :=
  mkSettlement id tripID driverID fare f0 advances deductions bonus f0 f0 net "fixed" None status ref paid None None None
    created updated.
Definition net_with_bonus (driverID : string) (fare advances deductions : float64) : SeM (float64 * float64) :=
  let net := fsub (fsub fare advances) deductions in
  bonus ← bonus_for driverID net;
  mret (bonus, not_negative_of (if has_scorecard svc then fadd net bonus else net)).
Definition stored_or (tripID : string) (s : DriverSettlementRecord) : SeM Settled :=
  r ← SM_try (findByTripID tripID); mret (match r with Ok s => s | Fail _ => (s, []) end).
(** [ON CONFLICT(trip_id) DO NOTHING]; the id is new. *)
Definition insert_unless_there (s : DriverSettlementRecord) (x : SettleTables) : result unit * SettleTables :=
  if existsb (by_trip (TripID s)) (driver_settlements x) then (Ok tt, x) else insert_settlement s x.
(** [ON CONFLICT(trip_id) DO UPDATE]. *)
Definition upsert_paid (s : DriverSettlementRecord) (x : SettleTables) : result unit * SettleTables :=
  if existsb (by_trip (TripID s)) (driver_settlements x)
  then (Ok tt, update_settlements (by_trip (TripID s)) (set_processed s) x) else insert_settlement s x.
Definition CreateSettlementForTrip (tripID : string) (fare advances deductions : float64) : SeM Settled :=
  t ← SM_try (xquery_row (λ _ d _, trip_parties tripID d));
  let driverID := match t with Ok (Some d, _, _) => d | _ => "drv-default"%string end in
  '(bonus, net) ← net_with_bonus driverID fare advances deductions;
  id ← core GenerateUUID;
  created ← core Now;
  updated ← core Now;
  let s := bridge_row ("stl-" +:+ id) tripID driverID fare advances deductions bonus net "pending" None None
             (timeStr created) (timeStr updated) in
  _ ← SM_wrap "create settlement" (xexec (λ _ _ x, insert_unless_there s x));
  stored_or tripID s.
Definition ProcessFinancialSettlement (tripID paymentRef : string) : SeM Settled :=
  t ← SM_map_err (λ _, Err "trip not found") (xquery_row (λ _ d _, trip_parties tripID d));
  let '(driver, booking, _) := t in
  match driver with
  | None => SM_fail (Err "cannot process settlement for trip without assigned driver")
  | Some driverID =>
      price ← match booking with
              | Some b => or_zero (xquery_row (λ _ d _,
                            BookingRow.Price <$> List.find (λ r, String.eqb (BookingRow.ID r) b) (bookings d)))
              | None => mret f0
              end;
      let fare := if is_positive price then price else defaultFare svc in
      let fare := if (fare <=? f0)%f64 then f64_of_Z 1000 else fare in
      sum ← SM_try (xquery (λ _ _ x, total_of (List.filter
              (λ e, bool_decide (x_TripID e = Some tripID) && String.eqb (x_Status e) "approved") (driver_expenses x))));
      let advances := not_negative_of (match sum with Ok s => s | Fail _ => defaultAdvances svc end) in
      let deductions := if (defaultDeductions svc <? f0)%f64 then f64_of_Z 50 else defaultDeductions svc in
      '(bonus, net) ← net_with_bonus driverID fare advances deductions;
      now ← core Now;
      id ← core GenerateUUID;
      stamp ← core Now;
      let s := bridge_row ("stl-" +:+ id) tripID driverID fare advances deductions bonus net "paid" (Some paymentRef)
                 (Some (timeStr now)) (timeStr stamp) (timeStr stamp) in
      _ ← SM_wrap "process settlement" (xexec (λ _ _ x, upsert_paid s x));
      stored_or tripID s
  end.
End Service.

(** ** The books *)
Definition of_header (l : SettlementLine) (s : DriverSettlementRecord) : Prop :=
  ID s = l_SettlementID l ∧ TripID s = l_TripID l.
(** One settlement per trip, ids apart, and every line under its header. *)
Record books_ok (x : SettleTables) : Prop := mkBooks {
  bk_ids : NoDup (ID <$> driver_settlements x);
  bk_trips : NoDup (TripID <$> driver_settlements x);
  bk_lines : ∀ l, l ∈ settlement_lines x → ∃ s, s ∈ driver_settlements x ∧ of_header l s }.
Definition keeps_books (x x' : SettleTables) : Prop := books_ok x → books_ok x'.
#[local] Instance keeps_books_preorder : PreOrder keeps_books.
Proof. split; unfold keeps_books; [by intros x|]. intros x y z. auto. Qed.

Lemma updated_keys {B} (k : DriverSettlementRecord → B) (p : DriverSettlementRecord → bool) (f : DriverSettlementRecord → DriverSettlementRecord) (l : list DriverSettlementRecord) :
  (∀ s, k (f s) = k s) → k <$> ((λ s, if p s then f s else s) <$> l) = k <$> l.
Proof. intros Hk. rewrite <- list_fmap_compose. apply list_fmap_ext. intros i s _. cbn. by destruct (p s). Qed.
Lemma update_books p f (x : SettleTables) :
  (∀ s, ID (f s) = ID s ∧ TripID (f s) = TripID s) → books_ok x → books_ok (update_settlements p f x).
Proof.
  intros Hf [H1 H2 H3]. split; cbn.
  - rewrite updated_keys; [done|]. intros s. apply Hf.
  - rewrite updated_keys; [done|]. intros s. apply Hf.
  - intros l Hl. destruct (H3 l Hl) as (s & Hs & Hh). exists (if p s then f s else s). split.
    + apply list_elem_of_fmap. by exists s.
    + destruct (p s); [|done]. destruct (Hf s) as [Hi Ht]. unfold of_header in *. by rewrite Hi, Ht.
Qed.
Lemma key_absent {B} (k : DriverSettlementRecord → B) (test : DriverSettlementRecord → bool) v (l : list DriverSettlementRecord) :
  (∀ s, test s = false → k s ≠ v) → existsb test l = false → v ∉ k <$> l.
Proof.
  intros Ht He Hin. apply list_elem_of_fmap in Hin as (s & -> & Hs). apply list_elem_of_In in Hs.
  destruct (test s) eqn:E; [|by apply (Ht s E)].
  assert (existsb test l = true) by (apply existsb_exists; eauto). congruence.
Qed.
Lemma insert_books s x : books_ok x → books_ok (snd (insert_settlement s x)).
Proof.
  intros [H1 H2 H3]. unfold insert_settlement. destruct (existsb (by_id _) _) eqn:E1; [by split|].
  destruct (existsb (by_trip _) _) eqn:E2; [by split|]. split; cbn.
  - rewrite fmap_app. apply NoDup_app. split_and!; [done| |apply NoDup_singleton].
    intros i Hi Hj. apply list_elem_of_singleton in Hj as ->. revert Hi.
    apply (key_absent ID (by_id (ID s))); [|done]. intros r Hr. by apply String.eqb_neq in Hr.
  - rewrite fmap_app. apply NoDup_app. split_and!; [done| |apply NoDup_singleton].
    intros i Hi Hj. apply list_elem_of_singleton in Hj as ->. revert Hi.
    apply (key_absent TripID (by_trip (TripID s))); [|done]. intros r Hr. by apply String.eqb_neq in Hr.
  - intros l Hl. destruct (H3 l Hl) as (r & Hr & Hh). exists r. split; [|done]. apply elem_of_app. by left.
Qed.
(** The header of the lines that are inserted. *)
Definition header_of (id tripID : string) (x : SettleTables) : Prop :=
  ∃ s, s ∈ driver_settlements x ∧ ID s = id ∧ TripID s = tripID.
Lemma insert_line_books l x :
  header_of (l_SettlementID l) (l_TripID l) x → books_ok x → books_ok (snd (insert_line l x)).
Proof.
  intros (s & Hs & Hi & Ht) [H1 H2 H3]. unfold insert_line. destruct (existsb _ _); [by split|]. split; cbn; [done..|].
  intros k Hk. apply elem_of_app in Hk as [Hk|Hk]; [by apply H3|]. apply list_elem_of_singleton in Hk as ->. by exists s.
Qed.
Lemma clear_books id x : books_ok x → books_ok (set_lines (List.filter (λ l, negb (String.eqb (l_SettlementID l) id)) (settlement_lines x)) x).
Proof.
  intros [H1 H2 H3]. split; cbn; [done..|]. intros l Hl. apply list_elem_of_In, filter_In in Hl as [Hl _].
  apply H3. by apply list_elem_of_In.
Qed.

Section Books.
Context {env : Env} {gm : GoMath} {mj : Scorecard.MetaJson} (svc : Service).
Abbreviation SeM := (XM SettleTables Outside).
(** The header written, and then its lines: what the transaction commits. *)
Definition under_header (id tripID : string) (x x' : SettleTables) : Prop :=
  header_of id tripID x ∧ books_ok x → header_of id tripID x' ∧ books_ok x'.
#[local] Instance under_header_preorder id t : PreOrder (under_header id t).
Proof. split; unfold under_header; [by intros x|]. intros x y z. auto. Qed.
Lemma insert_each_books id tripID items :
  preserves (on_tables (under_header id tripID)) (insert_each id tripID items : SeM unit).
Proof.
  unfold insert_each. preserve_tables ltac:(fun _ =>
    unfold under_header; intros [Hh Hb]; split; [|by apply insert_line_books];
    unfold insert_line; case_match; exact Hh).
Qed.
Lemma find_trip_row t x s :
  List.find (by_trip t) (driver_settlements x) = Some s → header_of (ID s) t x.
Proof.
  intros [Hs Ht]%find_some. exists s. split; [by apply list_elem_of_In|]. split; [done|]. by apply String.eqb_eq in Ht.
Qed.
Lemma update_header p f id t (x : SettleTables) :
  (∀ s, ID (f s) = ID s ∧ TripID (f s) = TripID s) → header_of id t x → header_of id t (update_settlements p f x).
Proof.
  intros Hf (s & Hs & Hi & Ht). exists (if p s then f s else s). split; [by apply list_elem_of_fmap; exists s|].
  destruct (p s); [|done]. destruct (Hf s). split; congruence.
Qed.
Lemma insert_ok s x x' : insert_settlement s x = (Ok tt, x') → header_of (ID s) (TripID s) x' ∧ x' = set_settlements (driver_settlements x ++ [s])%list x.
Proof.
  unfold insert_settlement. repeat case_match; intros [= <-]. split; [|done]. exists s. split; [|done].
  cbn. apply elem_of_app. right. by left.
Qed.
Lemma write_row_books force row t id σ i σ' :
  (∀ now, ID (row now) = id ∧ TripID (row now) = t) →
  write_row force row t id σ = (Ok (Some i), σ') → books_ok (s_tables σ) →
  header_of i t (s_tables σ') ∧ books_ok (s_tables σ').
Proof.
  intros Hrow H Hb.
  assert (Hins : ∀ σ1 σ2 : World * SettleTables * Outside, s_tables σ1 = s_tables σ →
    xexec (λ now _ x, insert_settlement (row (timeStr now)) x) σ1 = (Ok tt, σ2) →
    header_of id t (s_tables σ2) ∧ books_ok (s_tables σ2)).
  { intros σ1 σ2 Ht Hx. apply xstmt_inv in Hx as (_ & _ & Hx).
    pose proof (insert_books (row (timeStr (db_now (w_stmts (s_world σ1))))) (s_tables σ1)) as Hk. rewrite Hx in Hk. cbn in Hk.
    apply insert_ok in Hx as [Hh _]. destruct (Hrow (timeStr (db_now (w_stmts (s_world σ1))))) as [<- <-].
    split; [exact Hh|]. apply Hk. by rewrite Ht. }
  unfold write_row in H. destruct force.
  - run_ok H. cbv [SM_try] in Hrun. destruct (xquery_row _ σ) as [r s1] eqn:Hq. injection Hrun as <- <-.
    apply xquery_row_inv in Hq as (_ & _ & Ht & Hq). destruct r as [old|e].
    + destruct (is_empty old); [discriminate H|]. run_ok H. run_ok H. injection H as <- <-.
      apply map_err_ok_inv, xwrite_inv in Hrun as (_ & _ & Hx). apply map_err_ok_inv, xwrite_inv in Hrun0 as (_ & _ & Hy).
      rewrite Hy, Hx, Ht. cbn [is_Ok]. destruct (List.find _ _) as [old_row|] eqn:Hf; [|discriminate Hq]. injection Hq as <-.
      split; [apply update_header; [done|]; exact (find_trip_row _ _ _ Hf)|]. apply update_books; [done|]. by apply clear_books.
    + destruct (is_no_rows e); [|discriminate H]. run_ok H. injection H as <- <-. destruct v.
      apply map_err_ok_inv in Hrun. by apply (Hins s1).
  - run_ok H. cbv [SM_try] in Hrun. destruct (xexec _ σ) as [r s1] eqn:Hq. injection Hrun as <- <-.
    destruct r as [[]|e]; [|destruct (contains_unique e); discriminate H]. injection H as <- <-. by apply (Hins σ).
Qed.
Lemma store_books force t driver c : preserves (on_tables keeps_books) (store_settlement svc force t driver c).
Proof.
  unfold store_settlement, emit. preserve_with ltac:(fun _ => first [ tables_leaf ltac:(fun _ => fail) | idtac ]).
  intros σ. unfold on_tables, keeps_books. destruct (xtransaction_opt _ σ) as [r σ'] eqn:Hr. cbn [snd].
  apply xtransaction_opt_spec in Hr. destruct r as [[i|]|e]; [|by destruct Hr as [_ ->]..].
  destruct Hr as (s1 & Hr & _ & -> & _). intros Hb. run_ok Hr. destruct v as [id|]; [|discriminate Hr]. run_ok Hr. injection Hr as <- <-.
  apply write_row_books in Hrun as [Hh Hb']; [|done|done].
  pose proof (insert_each_books id t (items_of c) s) as Hi. rewrite Hrun0 in Hi. by apply Hi.
Qed.
Lemma in_score_books {A} (m : XM Scorecard.ScoreTables FuelConfig.ConfigReader A) :
  preserves (on_tables keeps_books) (in_score m).
Proof.
  intros σ. unfold on_tables, in_score. destruct (m _) as [r [[w t] c]]. cbn. unfold keeps_books.
  intros [H1 H2 H3]. by split.
Qed.
Ltac books_leaf := first
  [ apply store_books | apply in_score_books
  | tables_leaf ltac:(fun _ => fail) ].
Lemma findByTripID_books t : preserves (on_tables keeps_books) (findByTripID t).
Proof. unfold findByTripID, not_found. preserve_with ltac:(fun _ => books_leaf). Qed.
Lemma bonus_books d n : preserves (on_tables keeps_books) (bonus_for svc d n).
Proof. unfold bonus_for. preserve_with ltac:(fun _ => books_leaf). Qed.
Lemma compute_books t d b r : preserves (on_tables keeps_books) (compute svc t d b r).
Proof.
  unfold compute, calculateGrossFare, calculateTDS, getApprovedAdvances, getApprovedDeductions, expenses,
    getConfigFloat, getConfig, or_zero.
  preserve_with ltac:(fun _ => first [ apply bonus_books | books_leaf ]).
Qed.
Lemma Generate_books t force : preserves (on_tables keeps_books) (GenerateSettlement svc t force).
Proof.
  unfold GenerateSettlement. preserve_with ltac:(fun _ => first [ apply compute_books | apply findByTripID_books | books_leaf ]).
Qed.
Lemma insert_unless_books s x : books_ok x → books_ok (snd (insert_unless_there s x)).
Proof. unfold insert_unless_there. case_match; [done|]. apply insert_books. Qed.
Lemma upsert_books s x : books_ok x → books_ok (snd (upsert_paid s x)).
Proof. unfold upsert_paid. case_match; [by apply update_books|]. apply insert_books. Qed.
Lemma net_books d f a e : preserves (on_tables keeps_books) (net_with_bonus svc d f a e).
Proof. unfold net_with_bonus. preserve_with ltac:(fun _ => apply bonus_books). Qed.

Inductive Command :=
| Generate (tripID : string) (force : bool) | Pay (id ref : string) (at_ : Time) | Confirm (id : string)
| Dispute (id reason : string) (expectedNet : float64) | Create (tripID : string) (fare advances deductions : float64)
| Process (tripID ref : string).
Definition perform (c : Command) : SeM Settled :=
  match c with
  | Generate t force => GenerateSettlement svc t force
  | Pay id ref at_ => MarkPaid svc id ref at_
  | Confirm id => ConfirmSettlement id
  | Dispute id reason n => DisputeSettlement svc id reason n
  | Create t f a d => CreateSettlementForTrip svc t f a d
  | Process t ref => ProcessFinancialSettlement svc t ref
  end.
Definition run (cs : list Command) (σ : World * SettleTables * Outside) := foldl (λ σ c, snd (perform c σ)) σ cs.
Lemma perform_books c : preserves (on_tables keeps_books) (perform c).
Proof.
  destruct c; cbn [perform]; [apply Generate_books|..];
    unfold MarkPaid, ConfirmSettlement, DisputeSettlement, CreateSettlementForTrip, ProcessFinancialSettlement, stored_or,
      not_found, emit, or_zero;
    preserve_with ltac:(fun _ => first
      [ apply findByTripID_books | apply net_books
      | tables_leaf ltac:(fun _ => intros ?; first
          [ by apply update_books | by apply insert_unless_books | by apply upsert_books ]) ]).
Qed.

End Books.

(** ** What a generated settlement holds *)
Definition amounts (s : DriverSettlementRecord) :=
  (GrossFare s, CommissionAmount s, AdvancesKharcha s, Deductions s, PerformanceBonus s, TDSRate s, TDSAmount s,
   NetPayout s, RateModel s, RateBasisJSON s).
Definition line_item (l : SettlementLine) : LineItem := mkItem (l_LineType l) (l_Label l) (l_Amount l) (l_RefID l).
Definition lines_under (id : string) (x : SettleTables) : list SettlementLine :=
  List.filter (λ l, String.eqb (l_SettlementID l) id) (settlement_lines x).
(** The row of the trip has the amounts, and the lines of the row are the
    items, in order. *)
Definition holds (t driver id : string) (c : Computed) (x : SettleTables) : Prop :=
  ∃ s, List.find (by_trip t) (driver_settlements x) = Some s ∧ ID s = id ∧
    amounts s = amounts (new_row id t driver c 0) ∧ line_item <$> lines_under id x = items_of c.

(** The lines of one computation: its advances and deductions are lines of
    those types, so only its first line is of the fare. *)
Definition of_computation (c : Computed) : Prop :=
  Forall (λ i, i_type i = "advances"%string) (c_adv c) ∧ Forall (λ i, i_type i = "deduction"%string) (c_ded c).
Definition whole (x : SettleTables) : Prop :=
  ∀ id, lines_under id x = [] ∨ ∃ c, of_computation c ∧ line_item <$> lines_under id x = items_of c.
Definition sound (x : SettleTables) : Prop := books_ok x ∧ whole x.
Definition keeps_sound (x x' : SettleTables) : Prop := sound x → sound x'.
#[local] Instance keeps_sound_preorder : PreOrder keeps_sound.
Proof. split; unfold keeps_sound; [by intros x|]. intros x y z. auto. Qed.
Lemma sound_headers x x' : books_ok x' → settlement_lines x' = settlement_lines x → sound x → sound x'.
Proof. intros Hb Hl [_ Hw]. split; [done|]. intros id. unfold lines_under. rewrite Hl. apply Hw. Qed.
Lemma sound_insert s x : sound x → sound (snd (insert_settlement s x)).
Proof.
  intros H. apply (sound_headers x); [by apply insert_books, H| |done]. unfold insert_settlement. by repeat case_match.
Qed.

Lemma sound_update p f (x : SettleTables) :
  (∀ s, ID (f s) = ID s ∧ TripID (f s) = TripID s) → sound x → sound (update_settlements p f x).
Proof. intros Hf H. apply (sound_headers x); [by apply update_books, H|done|done]. Qed.

Section Breakdown.
Context {env : Env} {gm : GoMath} {mj : Scorecard.MetaJson} (svc : Service).
Abbreviation State := (World * SettleTables * Outside)%type.

Lemma find_app_new (t : string) l s :
  existsb (by_trip t) l = false → by_trip t s = true → List.find (by_trip t) (l ++ [s]) = Some s.
Proof.
  induction l as [|y l IH]; cbn; [by intros _ ->|]. destruct (by_trip t y); [done|]. exact IH.
Qed.
Lemma find_update t id f l s :
  (∀ r, TripID (f r) = TripID r) → NoDup (ID <$> l) → List.find (by_trip t) l = Some s → ID s = id →
  List.find (by_trip t) ((λ r, if by_id id r then f r else r) <$> l) = Some (f s).
Proof.
  intros Hf Hnd Hs Hid. induction l as [|y l IH]; cbn in *; [done|]. apply NoDup_cons in Hnd as [Hy Hnd].
  destruct (by_trip t y) eqn:E.
  - injection Hs as ->. assert (by_id id s = true) as -> by by apply String.eqb_eq.
    unfold by_trip in *. by rewrite Hf, E.
  - assert (by_id id y = false) as ->.
    { apply String.eqb_neq. intros He. apply Hy. rewrite He. apply list_elem_of_fmap. exists s. split; [done|].
      apply list_elem_of_In. by apply find_some in Hs as [Hs _]. }
    rewrite E. by apply IH.
Qed.
Lemma no_lines_under id (x : SettleTables) :
  books_ok x → existsb (by_id id) (driver_settlements x) = false → lines_under id x = [].
Proof.
  intros Hb Hn. unfold lines_under. destruct (List.filter _ _) as [|l ls] eqn:E; [done|]. exfalso.
  assert (Hl : In l (List.filter (λ l, String.eqb (l_SettlementID l) id) (settlement_lines x))) by (rewrite E; by left).
  apply filter_In in Hl as [Hl Hi]. apply String.eqb_eq in Hi. apply list_elem_of_In in Hl.
  destruct (bk_lines x Hb l Hl) as (s & Hs & Hh & _).
  assert (existsb (by_id id) (driver_settlements x) = true); [|congruence].
  apply existsb_exists. exists s. split; [by apply list_elem_of_In|]. apply String.eqb_eq. congruence.
Qed.
Lemma insert_each_ok id t items (σ σ' : State) :
  insert_each id t items σ = (Ok tt, σ') →
  driver_settlements (s_tables σ') = driver_settlements (s_tables σ) ∧
  line_item <$> lines_under id (s_tables σ') = (line_item <$> lines_under id (s_tables σ)) ++ items.
Proof.
  revert σ. unfold insert_each. induction items as [|i items IH]; intros σ; cbn [SM_iter]; intros H.
  { injection H as <-. by rewrite app_nil_r. }
  run_ok H. run_ok Hrun. apply core_inv in Hrun0 as (w & _ & ->). apply map_err_ok_inv, xstmt_inv in Hrun as (_ & _ & Hx).
  apply IH in H as [H1 H2]. unfold insert_line in Hx. destruct (existsb _ _); [discriminate Hx|]. injection Hx as _ Hx.
  rewrite <- Hx in H1, H2. split; [exact H1|]. rewrite H2. unfold lines_under. cbn. rewrite List.filter_app. cbn.
  rewrite String.eqb_refl, fmap_app, <- app_assoc. cbn. by destruct i.
Qed.
Lemma write_row_holds force t driver c id i (σ σ' : State) :
  books_ok (s_tables σ) → write_row force (new_row id t driver c) t id σ = (Ok (Some i), σ') →
  (∃ s, List.find (by_trip t) (driver_settlements (s_tables σ')) = Some s ∧ ID s = i ∧
     amounts s = amounts (new_row i t driver c 0)) ∧ lines_under i (s_tables σ') = [].
Proof.
  intros Hb H.
  assert (Hins : ∀ σ1 σ2 : State, s_tables σ1 = s_tables σ →
    xexec (λ now _ x, insert_settlement (new_row id t driver c (timeStr now)) x) σ1 = (Ok tt, σ2) →
    (∃ s, List.find (by_trip t) (driver_settlements (s_tables σ2)) = Some s ∧ ID s = id ∧
       amounts s = amounts (new_row id t driver c 0)) ∧ lines_under id (s_tables σ2) = []).
  { intros σ1 σ2 Ht Hx. apply xstmt_inv in Hx as (_ & _ & Hx). rewrite Ht in Hx. unfold insert_settlement in Hx.
    cbn [ID TripID new_row] in Hx. destruct (existsb (by_id id) _) eqn:E1; [discriminate Hx|].
    destruct (existsb (by_trip t) _) eqn:E2; [discriminate Hx|]. injection Hx as <-. split.
    - eexists. split; [apply find_app_new; [done|apply String.eqb_refl]|done].
    - by apply (no_lines_under id (s_tables σ)). }
  unfold write_row in H. destruct force.
  - run_ok H. cbv [SM_try] in Hrun. destruct (xquery_row _ σ) as [r s1] eqn:Hq. injection Hrun as <- <-.
    apply xquery_row_inv in Hq as (_ & _ & Ht & Hq). destruct r as [old|e].
    + destruct (is_empty old); [discriminate H|]. run_ok H. run_ok H. injection H as <- <-.
      apply map_err_ok_inv, xwrite_inv in Hrun as (_ & _ & Hx). apply map_err_ok_inv, xwrite_inv in Hrun0 as (_ & _ & Hy).
      cbn [is_Ok] in *. destruct (List.find _ _) as [s0'|] eqn:Hf; [|discriminate Hq]. injection Hq as Hid.
      rewrite Hy, Hx, Ht. split.
      * eexists. split; [cbn; apply find_update; [done|exact (bk_ids _ Hb)|exact Hf|exact Hid]|]. split; [exact Hid|done].
      * unfold lines_under. cbn. induction (settlement_lines (s_tables σ)) as [|l ls IH]; [done|]. cbn.
        destruct (String.eqb (l_SettlementID l) old) eqn:E; cbn; [exact IH|]. by rewrite E.
    + destruct (is_no_rows e); [|discriminate H]. run_ok H. injection H as <- <-. destruct v.
      apply map_err_ok_inv in Hrun. by apply (Hins s1).
  - run_ok H. cbv [SM_try] in Hrun. destruct (xexec _ σ) as [r s1] eqn:Hq. injection Hrun as <- <-.
    destruct r as [[]|e]; [|destruct (contains_unique e); discriminate H]. injection H as <- <-. by apply (Hins σ).
Qed.
Lemma store_holds force t driver c (σ σ' : State) id :
  books_ok (s_tables σ) → store_settlement svc force t driver c σ = (Ok (Some id), σ') →
  holds t driver id c (s_tables σ').
Proof.
  intros Hb H. unfold store_settlement in H. run_ok H. apply core_inv in Hrun as (w & _ & ->).
  destruct (negb _); [discriminate H|]. run_ok H. apply core_inv in Hrun as (w1 & _ & ->). run_ok H.
  apply xtransaction_opt_spec in Hrun. destruct v1 as [i|]; [|discriminate H]. destruct Hrun as (s1 & Hbody & _ & Ht & _).
  run_ok H. injection H as -> <-.
  assert (s_tables s0 = s_tables s) as ->.
  { destruct (has_events svc); by injection Hrun as _ <-. }
  run_ok Hbody. destruct v2 as [j|]; [|discriminate Hbody]. run_ok Hbody. injection Hbody as -> <-. destruct v2.
  apply write_row_holds in Hrun0 as [(r & Hf & Hi & Ha) Hn]; [|done]. apply insert_each_ok in Hrun1 as [Hs Hl].
  rewrite Ht. exists r. rewrite Hs. split_and!; [done..|]. rewrite Hl. by rewrite Hn.
Qed.
Lemma bonus_tables d n (σ σ' : State) r : bonus_for svc d n σ = (r, σ') → s_tables σ' = s_tables σ.
Proof.
  unfold bonus_for. destruct (has_scorecard svc); [|by intros [= _ <-]]. unfold in_score.
  assert (Hp : preserves (on_tables eq) (Scorecard.BonusForPayout d n)).
  { unfold Scorecard.BonusForPayout, Scorecard.or_none, Scorecard.config.
    preserve_with ltac:(fun _ => first [ apply FuelConfig.zoom_tables; exact _ | tables_leaf ltac:(fun _ => fail) ]). }
  specialize (Hp (s_world σ, score_tables (s_tables σ), reader (s_out σ))). unfold on_tables in Hp.
  destruct (Scorecard.BonusForPayout d n _) as [r1 [[w t1] c1]]. cbn in Hp. intros [= _ <-]. unfold s_tables in *. cbn in *.
  rewrite <- Hp. by destruct (snd (fst σ)).
Qed.
Lemma compute_tables t d b r (σ σ' : State) res : compute svc t d b r σ = (res, σ') → s_tables σ' = s_tables σ.
Proof.
  intros H. assert (Hp : preserves (on_tables eq) (compute svc t d b r)).
  { unfold compute, calculateGrossFare, calculateTDS, getApprovedAdvances, getApprovedDeductions, expenses,
      getConfigFloat, getConfig, or_zero.
    preserve_with ltac:(fun _ => tables_leaf ltac:(fun _ => fail)). intros τ. unfold on_tables.
    destruct (bonus_for svc _ _ τ) as [r1 τ1] eqn:Hb. by apply bonus_tables in Hb. }
  specialize (Hp σ). rewrite H in Hp. by symmetry.
Qed.
Lemma find_inv t (σ σ' : State) r :
  findByTripID t σ = (r, σ') →
  s_tables σ' = s_tables σ ∧ ∀ s, r = Ok s → List.find (by_trip t) (driver_settlements (s_tables σ)) = Some (fst s).
Proof.
  intros H. unfold findByTripID in H. apply bind_inv in H as [(e & H & ->)|(a & s1 & H & H1)].
  - apply map_err_fail_inv in H as (e' & H & _). apply xquery_row_inv in H as (_ & _ & Ht & _). by split.
  - apply map_err_ok_inv, xquery_row_inv in H as (_ & _ & Ht & Hf). cbv [mbind SM_mbind SM_bind SM_try] in H1.
    destruct (xquery _ s1) as [l s2] eqn:Hq. apply xquery_inv in Hq as (_ & _ & Hq & _).
    injection H1 as <- <-. split; [by rewrite Hq|]. by intros s [= <-].
Qed.
Lemma store_tables force t driver c (σ σ' : State) :
  store_settlement svc force t driver c σ = (Ok None, σ') → s_tables σ' = s_tables σ.
Proof.
  intros H. unfold store_settlement in H. run_ok H. apply core_inv in Hrun as (w & _ & ->).
  destruct (negb _); [discriminate H|]. run_ok H. apply core_inv in Hrun as (w1 & _ & ->). run_ok H.
  apply xtransaction_opt_spec in Hrun. destruct v1 as [i|]; [run_ok H; discriminate H|]. injection H as <-.
  by destruct Hrun as [_ ->].
Qed.

(** *** Recomputations *)
Lemma lines_apart id j l x :
  id ≠ j → l_SettlementID l = id → lines_under j (snd (insert_line l x)) = lines_under j x.
Proof.
  intros Hne Hl. unfold insert_line. destruct (existsb _ _); [done|]. unfold lines_under. cbn. rewrite List.filter_app. cbn.
  rewrite Hl. apply String.eqb_neq in Hne. by rewrite Hne, app_nil_r.
Qed.
Lemma insert_each_apart id t items j (σ σ' : State) r :
  id ≠ j → insert_each id t items σ = (r, σ') → lines_under j (s_tables σ') = lines_under j (s_tables σ).
Proof.
  intros Hne H.
  assert (Hp : preserves (on_tables (λ x x', lines_under j x' = lines_under j x)) (insert_each id t items : XM SettleTables Outside unit)).
  { assert (PreOrder (λ x x', lines_under j x' = lines_under j x)).
    { split; [by intros x|]. intros x y z H1 H2. by rewrite H2, H1. }
    unfold insert_each. preserve_tables ltac:(fun _ => cbn; by apply (lines_apart id)). }
  specialize (Hp σ). by rewrite H in Hp.
Qed.
Lemma write_row_apart force t driver c id i j (σ σ' : State) :
  write_row force (new_row id t driver c) t id σ = (Ok (Some i), σ') → i ≠ j →
  lines_under j (s_tables σ') = lines_under j (s_tables σ).
Proof.
  intros H Hne.
  assert (Hins : ∀ σ1 σ2 : State, xexec (λ now _ x, insert_settlement (new_row id t driver c (timeStr now)) x) σ1 = (Ok tt, σ2) →
    lines_under j (s_tables σ2) = lines_under j (s_tables σ1)).
  { intros σ1 σ2 Hx. apply xstmt_inv in Hx as (_ & _ & Hx). unfold insert_settlement in Hx.
    destruct (existsb (by_id _) _); [discriminate Hx|]. destruct (existsb (by_trip _) _); [discriminate Hx|]. by injection Hx as <-. }
  unfold write_row in H. destruct force.
  - run_ok H. cbv [SM_try] in Hrun. destruct (xquery_row _ σ) as [r s1] eqn:Hq. injection Hrun as <- <-.
    apply xquery_row_inv in Hq as (_ & _ & Ht & _). destruct r as [old|e].
    + destruct (is_empty old); [discriminate H|]. run_ok H. run_ok H. injection H as <- <-.
      apply map_err_ok_inv, xwrite_inv in Hrun as (_ & _ & Hx). apply map_err_ok_inv, xwrite_inv in Hrun0 as (_ & _ & Hy).
      cbn [is_Ok] in *. rewrite Hy, Hx, Ht. unfold lines_under. cbn.
      induction (settlement_lines (s_tables σ)) as [|l ls IH]; [done|]. cbn.
      destruct (String.eqb_spec (l_SettlementID l) old) as [E|E]; cbn; [|by rewrite IH].
      rewrite E. apply String.eqb_neq in Hne. by rewrite Hne.
    + destruct (is_no_rows e); [|discriminate H]. run_ok H. injection H as _ <-. destruct v.
      apply map_err_ok_inv in Hrun. rewrite (Hins _ _ Hrun). by rewrite Ht.
  - run_ok H. cbv [SM_try] in Hrun. destruct (xexec _ σ) as [r s1] eqn:Hq. injection Hrun as <- <-.
    destruct r as [[]|e]; [|destruct (contains_unique e); discriminate H]. injection H as _ <-. by apply (Hins σ).
Qed.
(** A settlement stored leaves its own lines and those of the others. *)
Lemma store_sound force t driver c : of_computation c → preserves (on_tables keeps_sound) (store_settlement svc force t driver c).
Proof.
  intros Hc σ. unfold on_tables, keeps_sound. intros [Hb Hw].
  pose proof (store_books svc force t driver c σ Hb) as Hb'.
  destruct (store_settlement svc force t driver c σ) as [r σ'] eqn:H. cbn [snd] in *. split; [exact Hb'|].
  unfold store_settlement in H. apply bind_inv in H as [(e & H & _)|(id & s1 & H & H1)];
    [by apply core_inv in H as (w & _ & ->)|]. apply core_inv in H as (w & _ & ->).
  destruct (negb _); [by injection H1 as _ <-|].
  apply bind_inv in H1 as [(e & H & _)|(now & s1 & H & H1)]; [by apply core_inv in H as (w1 & _ & ->)|].
  apply core_inv in H as (w1 & _ & ->).
  assert (Hgo : ∀ q s2, xtransaction_opt (r ← write_row force (new_row ("stl-" +:+ id) t driver c) t ("stl-" +:+ id);
       match r with
       | Some id => _ ← insert_each id t (items_of c); mret (Some id)
       | None => mret None
       end) (w1, s_tables σ, s_out σ) = (q, s2) → whole (s_tables s2)).
  { intros q s2 Hx. apply xtransaction_opt_spec in Hx. destruct q as [[i|]|e]; [|by destruct Hx as [_ ->]..].
    destruct Hx as (s3 & Hbody & _ & -> & _). run_ok Hbody. destruct v as [k|]; [|discriminate Hbody]. run_ok Hbody.
    injection Hbody as -> <-. destruct v. pose proof Hrun as Hrow. apply write_row_holds in Hrun as [_ Hn]; [|done].
    pose proof Hrun0 as Heach. apply insert_each_ok in Heach as [_ Hl]. intros j. destruct (decide (i = j)) as [<-|Hne].
    - right. exists c. split; [done|]. by rewrite Hl, Hn.
    - rewrite (insert_each_apart _ _ _ j _ _ _ Hne Hrun0), (write_row_apart _ _ _ _ _ _ j _ _ Hrow Hne). apply Hw. }
  apply bind_inv in H1 as [(e & H & _)|(q & s2 & H & H1)]; apply Hgo in H; [done|].
  destruct q as [i|]; [|by injection H1 as _ <-]. destruct (has_events svc).
  - cbv [mbind SM_mbind SM_bind emit outside SM_modify mret SM_mret SM_ret] in H1. by injection H1 as _ <-.
  - by injection H1 as _ <-.
Qed.
Lemma compute_wf t d b r (σ σ' : State) c : compute svc t d b r σ = (Ok c, σ') → of_computation c.
Proof.
  intros H. unfold compute in H. run_ok H. run_ok H. destruct v0 as [adv_total adv]. run_ok H. destruct v0 as [ded_total ded].
  run_ok H. destruct v0 as [[rate tds] section]. run_ok H. injection H as <- _. unfold of_computation. cbn [c_adv c_ded].
  unfold getApprovedAdvances in Hrun0. run_ok Hrun0. injection Hrun0 as _ <- _.
  unfold getApprovedDeductions in Hrun1. run_ok Hrun1. injection Hrun1 as _ <- _.
  split; apply Forall_fmap, Forall_true; done.
Qed.
Lemma find_same t : preserves (on_tables eq) (findByTripID t : XM SettleTables Outside Settled).
Proof. unfold findByTripID, not_found. preserve_with ltac:(fun _ => tables_leaf ltac:(fun _ => fail)). Qed.
Lemma read_keeps {A} (m : XM SettleTables Outside A) : preserves (on_tables eq) m → preserves (on_tables keeps_sound) m.
Proof. apply preserves_weaken. unfold on_tables, keeps_sound. by intros σ σ' ->. Qed.
Lemma Generate_sound t force : preserves (on_tables keeps_sound) (GenerateSettlement svc t force).
Proof.
  assert (Hrest : ∀ d b r, preserves (on_tables keeps_sound)
    (c ← compute svc t d b r; _ ← store_settlement svc force t d c; findByTripID t)).
  { intros d b r σ. unfold on_tables, keeps_sound. cbv [mbind SM_mbind SM_bind].
    destruct (compute svc t d b r σ) as [[c|e] s1] eqn:Hc; cbn [snd]; apply compute_tables in Hc as Ht; [|by rewrite Ht].
    intros Hs. rewrite <- Ht in Hs. pose proof (store_sound force t d c (compute_wf _ _ _ _ _ _ _ Hc) s1 Hs) as H1.
    destruct (store_settlement _ _ _ _ _ s1) as [[o|e] s2]; cbn [snd] in *; [|done].
    pose proof (find_same t s2) as H2. unfold on_tables in H2. by rewrite <- H2. }
  unfold GenerateSettlement. apply preserves_bind; [exact _| |intros [[driver booking] route]].
  { apply read_keeps. preserve_with ltac:(fun _ => tables_leaf ltac:(fun _ => fail)). }
  destruct (nonempty driver); [|apply preserves_fail; exact _]. apply preserves_bind; [exact _| |intros [old|]].
  - apply read_keeps. preserve_with ltac:(fun _ => apply find_same).
  - apply preserves_ret. exact _.
  - apply Hrest.
Qed.
Lemma perform_sound c : preserves (on_tables keeps_sound) (perform svc c).
Proof.
  destruct c; cbn [perform]; [apply Generate_sound|..];
    unfold MarkPaid, ConfirmSettlement, DisputeSettlement, CreateSettlementForTrip, ProcessFinancialSettlement, stored_or,
      not_found, emit, or_zero, net_with_bonus;
    preserve_with ltac:(fun _ => first
      [ apply read_keeps, find_same
      | apply read_keeps; intros ? ; unfold on_tables; match goal with |- context [bonus_for svc ?d ?n ?s] =>
          let E := fresh in destruct (bonus_for svc d n s) eqn:E; symmetry; exact (bonus_tables _ _ _ _ _ E) end
      | tables_leaf ltac:(fun _ => intros Hs; first
          [ by apply sound_update
          | unfold insert_unless_there; case_match; [done|by apply sound_insert]
          | unfold upsert_paid; case_match; [by apply sound_update|by apply sound_insert] ]) ]).
Qed.


Lemma find_frame t (σ σ' : State) r : findByTripID t σ = (r, σ') → s_db σ' = s_db σ ∧ s_out σ' = s_out σ.
Proof.
  intros H. unfold findByTripID in H. apply bind_inv in H as [(e & H & _)|(a & s1 & H & H1)].
  - apply map_err_fail_inv in H as (e' & H & _). by apply xquery_row_inv in H as (Hd & Ho & _).
  - apply map_err_ok_inv, xquery_row_inv in H as (Hd & Ho & _). cbv [mbind SM_mbind SM_bind SM_try] in H1.
    destruct (xquery _ s1) as [l s2] eqn:Hq. apply xquery_inv in Hq as (Hd' & Ho' & _).
    injection H1 as _ <-. split; congruence.
Qed.
Lemma rolled_back {X O A} (fn : XM X O (option A)) (σ σ' : World * X * O) :
  xtransaction_opt fn σ = (Ok None, σ') → ∃ σ1 σ2, fn σ1 = (Ok None, σ2).
Proof.
  unfold xtransaction_opt. destruct (stmt_fault _); [done|]. destruct (fn _) as [[[i|]|e] s3] eqn:Hb; [|by eexists _, _|done].
  by destruct (stmt_fault _).
Qed.
Lemma forced_is_stored t driver c (σ σ' : State) : store_settlement svc true t driver c σ ≠ (Ok None, σ').
Proof.
  intros H. unfold store_settlement in H. run_ok H. destruct (negb _); [discriminate H|]. run_ok H. run_ok H.
  destruct v1 as [i|]; [run_ok H; discriminate H|]. apply rolled_back in Hrun1 as (s3 & s4 & Hb).
  run_ok Hb. destruct v1 as [k|]; [run_ok Hb; discriminate Hb|]. unfold write_row in Hrun1. run_ok Hrun1.
  destruct v1 as [old|e].
  - destruct (is_empty old); [discriminate Hrun1|]. run_ok Hrun1. run_ok Hrun1. discriminate Hrun1.
  - destruct (is_no_rows e); [|discriminate Hrun1]. run_ok Hrun1. discriminate Hrun1.
Qed.

(** C19: a settlement that was generated says what was computed for its trip.
    Either - without force - nothing was written, and what is returned was
    there; or the steps of the computation were run for the driver, the
    booking and the route the trip has, on the tables as they were, and the
    trip's row has the fare, deductions, tax, bonus and payout they gave, its
    lines the items they gave and no others.  It is the row that is
    returned. *)
Theorem generated_as_computed force t rec lines (σ σ' : State) :
  books_ok (s_tables σ) → GenerateSettlement svc t force σ = (Ok (rec, lines), σ') →
  List.find (by_trip t) (driver_settlements (s_tables σ')) = Some rec ∧
  (force = false ∧ s_tables σ' = s_tables σ ∨
   ∃ driver booking route c σ1 σ2,
     trip_parties t (s_db σ) = Some (Some driver, booking, route) ∧
     s_db σ1 = s_db σ ∧ s_tables σ1 = s_tables σ ∧ s_out σ1 = s_out σ ∧
     compute svc t driver (or_empty booking) route σ1 = (Ok c, σ2) ∧ holds t driver (ID rec) c (s_tables σ')).
Proof.
  intros Hb H. unfold GenerateSettlement in H. run_ok H. apply map_err_ok_inv, xquery_row_inv in Hrun as (Hdb & Ho & Ht & Hp).
  destruct v as [[driver booking] route]. destruct (nonempty driver) as [d|] eqn:Hd; [|discriminate H]. run_ok H.
  assert (Hv : s_tables s0 = s_tables s ∧ s_db s0 = s_db s ∧ s_out s0 = s_out s ∧
    ∀ r, v = Some r → force = false ∧ List.find (by_trip t) (driver_settlements (s_tables s)) = Some (fst r)).
  { destruct force; [by injection Hrun as <- <-|]. run_ok Hrun. cbv [SM_try] in Hrun0.
    destruct (findByTripID t s) as [r1 s2] eqn:Hf. injection Hrun0 as <- <-. injection Hrun as <- <-.
    apply find_frame in Hf as Hfr. destruct Hfr as [Hf3 Hf4].
    apply find_inv in Hf as [Hf1 Hf2]. split_and!; [done..|]. intros r Hr. split; [done|].
    destruct r1; [|done]. injection Hr as ->. by apply Hf2. }
  destruct Hv as (Hs0 & Hs1 & Hs2 & Hv). destruct v as [old|].
  { injection H as -> <-. destruct (Hv _ eq_refl) as [-> Hv']. split; [by rewrite Hs0|left; split; congruence]. }
  run_ok H. pose proof (compute_tables _ _ _ _ _ _ _ Hrun0) as Hc. run_ok H.
  apply find_inv in H as [Hf1 Hf2]. specialize (Hf2 _ eq_refl). cbn [fst] in Hf2. rewrite <- Hf1 in Hf2. split; [done|].
  assert (Hdr : driver = Some d).
  { unfold nonempty in Hd. destruct driver as [d'|]; [|done]. destruct d'; [done|]. by injection Hd as ->. }
  destruct v0 as [id|].
  - right. apply store_holds in Hrun1; [|by rewrite Hc, Hs0, Ht]. rewrite <- Hf1 in Hrun1.
    pose proof Hrun1 as (r & Hr & Hid & _). rewrite Hf2 in Hr. injection Hr as <-. rewrite <- Hid in Hrun1.
    exists d, booking, route, v, s0, s1. rewrite <- Hdr. split_and!; [done|congruence|congruence|congruence|done|done].
  - left. destruct force; [by apply forced_is_stored in Hrun1|]. apply store_tables in Hrun1. split; [done|congruence].
Qed.

(** without force a settlement that exists is what is returned, and
    nothing is written or announced: asking again changes nothing. *)
Theorem generate_is_idempotent t driver booking route rec (σ : State) :
  healthy → trip_parties t (s_db σ) = Some (Some driver, booking, route) → driver ≠ ""%string →
  List.find (by_trip t) (driver_settlements (s_tables σ)) = Some rec →
  let (r, σ') := GenerateSettlement svc t false σ in
  r = Ok (rec, lines_of (ID rec) (s_tables σ)) ∧ s_tables σ' = s_tables σ ∧ s_db σ' = s_db σ ∧
  s_out σ' = s_out σ.
Proof.
  intros Hh Ht Hd Hf. destruct (GenerateSettlement svc t false σ) as [r σ'] eqn:H.
  unfold GenerateSettlement, findByTripID, not_found in H.
  cbv [mbind SM_mbind SM_bind SM_map_err SM_try mret SM_mret SM_ret] in H.
  rewrite xquery_row_run in H by done. rewrite Ht in H. cbn in H.
  assert (nonempty (Some driver) = Some driver) as Hn.
  { unfold nonempty. destruct driver; [done|reflexivity]. }
  cbn in Hn. rewrite Hn in H. rewrite xquery_row_run in H by done. cbn in H. unfold s_tables, s_set in *. cbn in H. rewrite Hf in H.
  rewrite xquery_run in H by done. cbn in H. by injection H as <- <-.
Qed.
End Breakdown.

(** ** A demonstration: a booking of a thousand, a commission of five per cent *)
#[local] Existing Instance Scorecard.demo_json.
#[local] Existing Instance go_math.
#[local] Existing Instance demo_env.
Definition demo_trip : TripRow.SQLTripModel :=
  TripRow.mkTripRow "t1" "TR-1" (Some "b1"%string) (Some "d1"%string) None "r1" (jan1 + 5 * day) None "delivered" None
    "acme" 0 jan1 jan1 None None None None None.
Definition demo_ops (rows : list ConfigRow) : Ops := mkOps [] [] [] [] [] [] [] [] [] [] [] rows.
Definition demo_office (rows : list ConfigRow) : DB :=
  set_ops (demo_ops rows) (set_trips [demo_trip] Database.demo_db).
Definition demo_service : Service := mkService true true true f0 (f64_of_Z 200) (f64_of_Z 50).
Definition demo_tables : SettleTables :=
  mkTables [] [] [mkExpense "e1" (Some "t1"%string) "d1" "toll" "approved" (f64_of_Z 100)] ∅ ∅ (Scorecard.mkScoreTables [] [] ∅).
Definition demo_start (rows : list ConfigRow) : World * SettleTables * Outside :=
  (world (demo_office rows), demo_tables, mkOutside FuelConfig.NewConfigReader []).
Definition commission_model : list ConfigRow := [mkConfigRow "acme" "settlement_rate_model" "commission_pct"].
Abbreviation history cs rows := (run demo_service cs (demo_start rows)).
Definition payouts (σ : World * SettleTables * Outside) : list (string * Z) :=
  (λ s, (Status s, f64_to_int64 (NetPayout s))) <$> driver_settlements (s_tables σ).
Definition line_amounts (σ : World * SettleTables * Outside) : list (string * Z) :=
  (λ l, (l_LineType l, f64_to_int64 (l_Amount l))) <$> settlement_lines (s_tables σ).

Lemma demo_books rows : books_ok (s_tables (demo_start rows)).
Proof. split; cbn; [constructor|constructor|]. intros l Hl. by apply not_elem_of_nil in Hl. Qed.

(** The fare is net of the commission, and the commission is taken off it:
    of a thousand, 950 and then 900 before tolls and tax. *)
Example commission_taken_twice :
  line_amounts (history [Generate "t1" false] commission_model) =
    [("gross_fare", 950); ("commission", -50); ("advances", -100); ("tds", -16)]%string ∧
  payouts (history [Generate "t1" false] commission_model) = [("pending", 784)]%string.
Proof. vm_compute. auto. Qed.
(** The amounts of the delivery event are what a later computation returns. *)
Example event_settlement_stays :
  payouts (history [Create "t1" (f64_of_Z 1200) (f64_of_Z 200) (f64_of_Z 50); Generate "t1" false] commission_model) =
    [("pending", 950)]%string.
Proof. vm_compute. auto. Qed.
(** A settlement that is paid can be paid again, computed anew, disputed. *)
Definition twice_paid : list Command :=
  [Generate "t1" false; Pay "stl-id-0" "UTR-1" jan1; Pay "stl-id-0" "UTR-2" jan1; Generate "t1" true;
   Dispute "stl-id-0" "short" f0].
Definition payments (σ : World * SettleTables * Outside) : nat :=
  List.length (List.filter (λ m, match m with DriverPayoutSettled _ _ _ _ _ _ => true | _ => false end) (messages (s_out σ))).
Example paid_is_not_final :
  payments (history twice_paid commission_model) = 2%nat ∧
  payouts (history twice_paid commission_model) = [("disputed", 784)]%string.
Proof. vm_compute. auto. Qed.

Abbreviation generated := (GenerateSettlement demo_service "t1" false (demo_start commission_model)).
Lemma generated_as_computed_witness :
  is_Ok (fst generated) = true ∧
  ∃ rec lines, fst generated = Ok (rec, lines) ∧
    List.find (by_trip "t1") (driver_settlements (s_tables (snd generated))) = Some rec ∧
    ∃ c, holds "t1" "d1" (ID rec) c (s_tables (snd generated)).
Proof.
  assert (Hok : is_Ok (fst generated) = true) by (vm_compute; reflexivity). split; [exact Hok|].
  assert (Hw : List.length (driver_settlements (s_tables (snd generated))) = 1%nat) by (vm_compute; reflexivity).
  destruct generated as [[[rec lines]|e] σ'] eqn:H; [|discriminate Hok]. exists rec, lines. split; [done|]. cbn [snd] in *.
  destruct (generated_as_computed demo_service false "t1" rec lines (demo_start commission_model) σ' (demo_books _) H)
    as [Hf [[_ Hs]|(driver & booking & route & c & s1 & s2 & Hp & _ & _ & _ & _ & Hh)]].
  - rewrite Hs in Hw. discriminate Hw.
  - split; [exact Hf|]. vm_compute in Hp. injection Hp as <- _ _. by exists c.
Defined.
Lemma generate_is_idempotent_witness :
  is_Ok (fst (GenerateSettlement demo_service "t1" false (snd generated))) = true ∧
  s_tables (snd (GenerateSettlement demo_service "t1" false (snd generated))) = s_tables (snd generated).
Proof.
  split; [by vm_compute|].
  assert (Hf : ∃ rec, List.find (by_trip "t1") (driver_settlements (s_tables (snd generated))) = Some rec).
  { destruct (List.find _ _) as [rec|] eqn:E; [by exists rec|]. vm_compute in E. discriminate E. }
  destruct Hf as [rec Hf].
  pose proof (generate_is_idempotent demo_service "t1" "d1" (Some "b1"%string) "r1" rec (snd generated)) as H.
  destruct (GenerateSettlement demo_service "t1" false (snd generated)) as [r σ'].
  refine (proj1 (proj2 (H _ _ _ Hf))); [by intros n|by vm_compute|discriminate].
Defined.
End Settlement.
