(* ===== verification/Kharcha.v ===== *)
(** * The expenses of the drivers

    [internal/service/kharcha_service.go]: claims of the drivers, their
    approval and rejection, the ledger and its totals.  An approval lands on
    the settlement of the trip, when there is one.  The tables here are the
    ledger's: the expenses themselves, the audit of fuel claims
    ([FuelClaims]), the toll tags ([Fastag]), and the books of the
    settlements ([Settlement]), which read the expenses. *)
From stdpp Require Import base decidable list strings option gmap.
From Stdlib Require Import ZArith Lia Ascii String.
From S2P Require Import Prelude GoFloat Shared GoTime GoMath Geofence InvoiceAggregate Database Repository SideTables.
From S2P Require Import GeofenceStore Alerts FuelConfig Fuel Scorecard Settlement.
Open Scope Z_scope.

(** ** The tables of the ledger *)
Module Ledger.
(** A row of [driver_expenses]. *)
Record ExpenseRow := mkExpenseRow {
  ID : string; TripID : option string; DriverID : option string; ExpenseType : string; Category : string;
  Amount : float64; Description : option string; ReceiptURL : option string; Status : string;
  ApprovedBy : option string; ApprovedAt : option Time; RejectedReason : option string; CreatedAt : Time;
  AuditStatus : string; FuelLitres : option float64; IdempotencyKey : option string;
  Latitude : option float64; Longitude : option float64 }.
(** A row of [fuel_claim_audits]: one per expense. *)
Record auditCheck := mkCheck { ch_Type : string; ch_Expected : float64; ch_Available : bool }.
Record ClaimAuditRow := mkClaimAudit {
  ca_ID : string; ca_ExpenseID : string; ca_TripID : option string; ca_VehicleID : option string;
  ca_DriverID : option string; ca_LitresClaimed : option float64; ca_ExpectedLevel : option float64;
  ca_ExpectedOdo : option float64; ca_LevelDeltaPct : option float64; ca_OdometerDeltaKm : option float64;
  ca_TankCapacity : option float64; ca_KmplUsed : option float64; ca_VarianceLitres : option float64;
  ca_VariancePct : option float64;
  ca_Result : string; ca_Checks : option (list auditCheck); ca_ReviewedBy : option string;
  ca_ReviewedAt : option Time; ca_ReviewNote : option string; ca_CreatedAt : Time }.
(** [fastag_tags], [fastag_transactions]. *)
Record TagRow := mkTag {
  tg_ID : string; tg_TagID : string; tg_VehicleID : option string; tg_VehicleNumber : option string;
  tg_Balance : float64; tg_LastSync : option Time }.
Record TollRow := mkToll {
  tl_ID : string; tl_TenantID : string; tl_TagID : string; tl_VehicleID : option string; tl_VehicleNumber : string;
  tl_TripID : option string; tl_PlazaID : string; tl_PlazaName : string; tl_Amount : float64; tl_Timestamp : Time;
  tl_Status : string; tl_Source : string; tl_Reconciled : bool; tl_KharchaID : option string }.

(** [fuel_events] and the columns of [vehicles] are read. *)
Record Tables := mkTables {
  expenses : list ExpenseRow; claim_audits : list ClaimAuditRow; tags : list TagRow; tolls : list TollRow;
  books : Settlement.SettleTables; fuel_events : list Fuel.FuelEventRow;
  vehicle_fuel : gmap string (bool * option float64) }.
Definition set_expenses l (x : Tables) : Tables :=
  mkTables l (claim_audits x) (tags x) (tolls x) (books x) (fuel_events x) (vehicle_fuel x).
Definition set_claim_audits l (x : Tables) : Tables :=
  mkTables (expenses x) l (tags x) (tolls x) (books x) (fuel_events x) (vehicle_fuel x).
Definition set_tags l (x : Tables) : Tables :=
  mkTables (expenses x) (claim_audits x) l (tolls x) (books x) (fuel_events x) (vehicle_fuel x).
Definition set_tolls l (x : Tables) : Tables :=
  mkTables (expenses x) (claim_audits x) (tags x) l (books x) (fuel_events x) (vehicle_fuel x).
Definition set_books b (x : Tables) : Tables :=
  mkTables (expenses x) (claim_audits x) (tags x) (tolls x) b (fuel_events x) (vehicle_fuel x).

(** The messages of the settlements, and the reader of the fuel audit. *)
Record Outside := mkOutside { o_settle : Settlement.Outside; o_reader : FuelConfig.ConfigReader }.
Abbreviation State := (World * Tables * Outside)%type.
Abbreviation LM := (XM Tables Outside).

(** The columns of an expense the settlements select. *)
Definition settled_view (e : ExpenseRow) : Settlement.Expense :=
  Settlement.mkExpense (ID e) (TripID e) (or_empty (DriverID e)) (Category e) (Status e) (Amount e).
Definition with_expenses (l : list Settlement.Expense) (b : Settlement.SettleTables) : Settlement.SettleTables :=
  Settlement.mkTables (Settlement.driver_settlements b) (Settlement.settlement_lines b) l (Settlement.driver_pan b)
    (Settlement.route_distance b) (Settlement.score_tables b).
(** The tables the settlement service sees. *)
Definition view (x : Tables) : Settlement.SettleTables := with_expenses (settled_view <$> expenses x) (books x).
(** An operation of the settlement service on these tables. *)
Definition in_books {A} (m : XM Settlement.SettleTables Settlement.Outside A) : LM A := λ s,
  match m (s_world s, view (s_tables s), o_settle (s_out s)) with
  | (r, (w, b, o)) => (r, (w, set_books b (s_tables s), mkOutside o (o_reader (s_out s))))
  end.

Definition by_id (id : string) (e : ExpenseRow) : bool := String.eqb (ID e) id.
Definition find_expense (id : string) (x : Tables) : option ExpenseRow := List.find (by_id id) (expenses x).
Definition update_expenses (p : ExpenseRow → bool) (f : ExpenseRow → ExpenseRow) (x : Tables) : Tables :=
  set_expenses ((λ e, if p e then f e else e) <$> expenses x) x.
Definition count_expenses (p : ExpenseRow → bool) (x : Tables) : Z := Z.of_nat (List.length (List.filter p (expenses x))).
Definition set_status (status : string) (by_ : option string) (at_ : option Time) (reason : option string)
    (e : ExpenseRow) : ExpenseRow :=
  mkExpenseRow (ID e) (TripID e) (DriverID e) (ExpenseType e) (Category e) (Amount e) (Description e) (ReceiptURL e)
    status by_ at_ reason (CreatedAt e) (AuditStatus e) (FuelLitres e) (IdempotencyKey e) (Latitude e) (Longitude e).
Definition set_audit_status (a : string) (e : ExpenseRow) : ExpenseRow :=
  mkExpenseRow (ID e) (TripID e) (DriverID e) (ExpenseType e) (Category e) (Amount e) (Description e) (ReceiptURL e)
    (Status e) (ApprovedBy e) (ApprovedAt e) (RejectedReason e) (CreatedAt e) a (FuelLitres e) (IdempotencyKey e)
    (Latitude e) (Longitude e).

(** The key of the partial unique index. *)
Definition sync_key (e : ExpenseRow) : option string := nonempty (IdempotencyKey e).
Definition same_key (e f : ExpenseRow) : bool :=
  match sync_key e, sync_key f with Some k, Some l => String.eqb k l | _, _ => false end.
Definition insert_expense (e : ExpenseRow) (x : Tables) : result unit * Tables :=
  if is_nan (Amount e) then (Fail (Err "NOT NULL constraint failed: driver_expenses.amount"), x)
  else if existsb (by_id (ID e)) (expenses x) then (Fail (Err "UNIQUE constraint failed: driver_expenses.id"), x)
  else if existsb (same_key e) (expenses x)
  then (Fail (Err "UNIQUE constraint failed: driver_expenses.idempotency_key"), x)
  else (Ok tt, set_expenses (expenses x ++ [e])%list x).
End Ledger.

Module Kharcha.
Import Ledger.

(** ** What the pages show *)
Record KharchaExpense := mkView {
  v_ID : string; v_TripID : string; v_TripNumber : string; v_DriverID : string; v_DriverName : string;
  v_Category : string; v_Amount : float64; v_Description : string; v_ReceiptURL : option string; v_Status : string;
  v_RejectedReason : option string; v_ApprovedBy : option string; v_ApprovedAt : option Time; v_CreatedAt : Time;
  v_AuditStatus : string; v_FuelLitres : option float64; v_VarianceLitres : option float64;
  v_VariancePct : option float64 }.
Definition ExpectedLitres (e : KharchaExpense) : float64 :=
  match v_FuelLitres e, v_VarianceLitres e with Some l, Some v => fsub l v | _, _ => f0 end.
Record KharchaStats := mkStats { PendingCount : Z; ApprovedToday : Z; MonthTotal : float64; UnsettledTotal : float64 }.

Definition trip_number (d : DB) (t : option string) : string :=
  match List.find (λ r, bool_decide (Some (TripRow.ID r) = t)) (trips d) with
  | Some r => TripRow.TripNumber r | None => ""
  end.
Definition driver_name (d : DB) (v : option string) : string :=
  match List.find (λ r, bool_decide (Some (DriverRow.ID r) = v)) (drivers d) with
  | Some r => (DriverRow.FirstName r +:+ " " +:+ DriverRow.LastName r)%string | None => ""
  end.
Definition audit_of (x : Tables) (id : string) : option ClaimAuditRow :=
  List.find (λ a, String.eqb (ca_ExpenseID a) id) (claim_audits x).
(** The SELECT with its three LEFT JOINs. *)
Definition joined (d : DB) (x : Tables) (e : ExpenseRow) : KharchaExpense :=
  mkView (ID e) (or_empty (TripID e)) (trip_number d (TripID e)) (or_empty (DriverID e)) (driver_name d (DriverID e))
    (Category e) (Amount e) (or_empty (Description e)) (ReceiptURL e) (Status e) (RejectedReason e) (ApprovedBy e)
    (ApprovedAt e) (CreatedAt e) (AuditStatus e) (FuelLitres e) (audit_of x (ID e) ≫= ca_VarianceLitres)
    (audit_of x (ID e) ≫= ca_VariancePct).

Definition pending (e : ExpenseRow) : bool := String.eqb (Status e) "pending".
Definition validCategories : list string :=
  ["advance"; "fuel"; "toll"; "food"; "repair"; "other"; "rto"; "tyre"; "bhatta"]%string.
Definition month_of (t : Time) : Z * Z := let '(y, m, _) := date_of t in (y, m).

(** The SET clause of an approval on the settlement; a NULL result violates
    the column. *)
Definition deduct (amount : float64) (s : Settlement.DriverSettlementRecord) : option Settlement.DriverSettlementRecord :=
  let a := fadd (Settlement.AdvancesKharcha s) amount in
  let n := fsub (Settlement.NetPayout s) amount in
  if is_nan a || is_nan n then None
  else Some (Settlement.mkSettlement (Settlement.ID s) (Settlement.TripID s) (Settlement.DriverID s)
    (Settlement.GrossFare s) (Settlement.CommissionAmount s) a (Settlement.Deductions s) (Settlement.PerformanceBonus s)
    (Settlement.TDSRate s) (Settlement.TDSAmount s) (if (f0 <? n)%f64 then n else f0) (Settlement.RateModel s)
    (Settlement.RateBasisJSON s) (Settlement.Status s) (Settlement.PaymentRef s) (Settlement.PaidAt s)
    (Settlement.ConfirmedAt s) (Settlement.DisputedAt s) (Settlement.DisputeReason s) (Settlement.CreatedAt s)
    (Settlement.UpdatedAt s)).
Definition deduct_from (id : string) (amount : float64) (b : Settlement.SettleTables) : result unit * Settlement.SettleTables :=
  if existsb (λ s, Settlement.by_id id s && negb (bool_decide (is_Some (deduct amount s)))) (Settlement.driver_settlements b)
  then (Fail (Err "NOT NULL constraint failed: driver_settlements"), b)
  else (Ok tt, Settlement.update_settlements (Settlement.by_id id) (λ s, default s (deduct amount s)) b).
(** Runs a statement on the books among the other tables. *)
Definition on_books {A} (q : Settlement.SettleTables → result A * Settlement.SettleTables) (x : Tables) : result A * Tables :=
  match q (books x) with (r, b) => (r, set_books b x) end.

Section Service.
Context {env : Env}.

(** [logAudit] of the legacy services: no user. *)
Definition logAudit (action table recordID : string) (newValues : option string) : LM unit :=
  SM_ignore
    (id ← core GenerateUUID;
     core (CreateAuditLog (mkAuditRow id None action table recordID None newValues getUserIP))).

Definition fuelAuditEnforce : LM bool :=
  r ← SM_try (xquery_row (λ _ d _,
        List.find (λ r, String.eqb (cc_TenantID r) DefaultTenant && String.eqb (cc_Key r) "fuel.audit_enforce")
          (company_config (ops d))));
  mret (match r with Ok r => String.eqb (cc_Value r) "true" | Fail _ => false end).

(** [UPDATE ... WHERE id = ? AND status = 'pending']: the rows affected. *)
Definition update_pending (id : string) (f : ExpenseRow → ExpenseRow) : LM Z :=
  xexec (λ _ _ x,
    let hit e := by_id id e && pending e in (Ok (count_expenses hit x), update_expenses hit f x)).
Definition processed_already : error := Err "expense already processed or not found".
(** The enforcement gate, before the status is touched. *)
Definition audit_gate (id : string) : LM unit :=
  enforce ← fuelAuditEnforce;
  if enforce : bool then
    a ← SM_map_err (λ _, Err "expense not found") (xquery_row (λ _ _ x, AuditStatus <$> find_expense id x));
    if String.eqb a "needs_review"
    then SM_fail (Err "claim flagged by fuel audit (needs review); review at /fuel/audit") else mret tt
  else mret tt.
(** The settlement of the trip, if there is one: header and line, each
    error dropped. *)
Definition charge_settlement (id tripID driverID : string) (amount : float64) : LM unit :=
  category ← SM_try (xquery_row (λ _ _ x, Category <$> find_expense id x));
  let category := match category with Ok c => c | Fail _ => ""%string end in
  sid ← SM_try (xquery_row (λ _ _ x, Settlement.ID <$>
          List.find (λ s, String.eqb (Settlement.TripID s) tripID && String.eqb (Settlement.DriverID s) driverID)
            (Settlement.driver_settlements (books x))));
  match sid with
  | Ok sid =>
      if is_empty sid then mret tt
      else
        _ ← SM_ignore (xexec (λ _ _ x, on_books (deduct_from sid amount) x));
        lid ← core GenerateUUID;
        SM_ignore (xexec (λ now _ x, on_books (Settlement.insert_line
          (Settlement.mkLine ("stl-ln-" +:+ lid) sid tripID "deduction"
             ("Approved expense (" +:+ category +:+ ") #" +:+ id) (fneg amount) id (Fuel.timeStr now))) x))
  | Fail _ => mret tt
  end.
Definition ApproveExpense (expenseID approvedBy : string) : LM unit :=
  _ ← xtransaction
    (now ← core Now;
     _ ← audit_gate expenseID;
     n ← update_pending expenseID (λ e, set_status "approved" (Some approvedBy) (Some now) (RejectedReason e) e);
     if n =? 0 then SM_fail processed_already
     else
       e ← xquery_row (λ _ _ x, find_expense expenseID x);
       let tripID := or_empty (TripID e) in
       let driverID := or_empty (DriverID e) in
       if is_empty tripID || is_empty driverID then mret tt
       else charge_settlement expenseID tripID driverID (Amount e));
  logAudit "approve_kharcha" "driver_expenses" expenseID None.

Definition RejectExpense (expenseID rejectedBy reason : string) : LM unit :=
  if is_empty reason then SM_fail (Err "rejection reason is required")
  else
    n ← update_pending expenseID (λ e, set_status "rejected" (Some rejectedBy) (ApprovedAt e) (Some reason) e);
    if n =? 0 then SM_fail processed_already
    else logAudit "reject_kharcha" "driver_expenses" expenseID (Some reason).

Record CreateExpenseOpts := mkOpts {
  o_TripID : string; o_DriverID : string; o_Category : string; o_Amount : float64; o_Description : string;
  o_ReceiptURL : string; o_FuelLitres : float64; o_IdempotencyKey : string; o_Latitude : option float64;
  o_Longitude : option float64 }.
(** The id under an idempotency key; an error counts as none. *)
Definition by_sync_key (k : string) : LM (option string) :=
  r ← SM_try (xquery_row (λ _ _ x, ID <$> List.find (λ e, bool_decide (IdempotencyKey e = Some k)) (expenses x)));
  mret (match r with Ok id => if is_empty id then None else Some id | Fail _ => None end).
Definition new_expense (o : CreateExpenseOpts) (id : string) (now : Time) : ExpenseRow :=
  mkExpenseRow id (Fuel.ptr (o_TripID o)) (Fuel.ptr (o_DriverID o)) (o_Category o) (o_Category o) (o_Amount o)
    (Fuel.ptr (o_Description o)) (Fuel.ptr (o_ReceiptURL o)) "pending" None None None now "pending"
    (if String.eqb (o_Category o) "fuel" && (f0 <? o_FuelLitres o)%f64 then Some (o_FuelLitres o) else None)
    (Fuel.ptr (o_IdempotencyKey o)) (o_Latitude o) (o_Longitude o).
Definition CreateExpenseWithOpts (o : CreateExpenseOpts) : LM string :=
  if (o_Amount o <=? f0)%f64 then SM_fail (Err "amount must be greater than zero")
  else if negb (existsb (String.eqb (o_Category o)) validCategories)
  then SM_fail (Err ("invalid category: " +:+ o_Category o))
  else
    id ← core GenerateUUID;
    let key := o_IdempotencyKey o in
    known ← (if is_empty key then mret None else by_sync_key key);
    match known with
    | Some old => mret old
    | None =>
        now ← core Now;
        r ← SM_try (xexec (λ _ _ x, insert_expense (new_expense o id now) x));
        match r with
        | Ok _ => _ ← logAudit "create_kharcha" "driver_expenses" id None; mret id
        | Fail e =>
            known ← (if is_empty key then mret None else by_sync_key key);
            match known with Some old => mret old | None => SM_fail e end
        end
    end.
Definition CreateExpense (tripID driverID category : string) (amount : float64) (description receiptURL : string)
    (fuelLitres : float64) (idempotencyKey : list string) : LM string :=
  CreateExpenseWithOpts (mkOpts tripID driverID category amount description receiptURL fuelLitres
    (default ""%string (head idempotencyKey)) None None).

(** ** Reading *)
Definition oldest_first (l : list ExpenseRow) : list ExpenseRow := order_by (λ e f, CreatedAt e <=? CreatedAt f) l.
Definition newest_first (l : list ExpenseRow) : list ExpenseRow := order_by (λ e f, CreatedAt f <=? CreatedAt e) l.
Definition ListPendingExpenses : LM (list KharchaExpense) :=
  xquery (λ _ d x, joined d x <$> oldest_first (List.filter pending (expenses x))).
Definition ListLedger (tripID : string) : LM (list KharchaExpense) :=
  xquery (λ _ d x, joined d x <$> take 200 (newest_first (List.filter
    (λ e, is_empty tripID || bool_decide (TripID e = Some tripID)) (expenses x)))).
Definition GetExpenseByID (id : string) : LM KharchaExpense :=
  SM_wrap "expense not found" (xquery_row (λ _ d x, joined d x <$> find_expense id x)).

(** [SUM]: how the engine rounds is its own. *)
Context (sql_sum : list float64 → float64).
Definition SUM (p : ExpenseRow → bool) (x : Tables) : float64 :=
  match List.filter p (expenses x) with [] => f0 | l => sql_sum (Amount <$> l) end.
Definition or_default {A} (def : A) (m : LM A) : LM A :=
  r ← SM_try m; mret (match r with Ok v => v | Fail _ => def end).
Definition approved_on (p : Time → bool) (e : ExpenseRow) : bool :=
  String.eqb (Status e) "approved" && match ApprovedAt e with Some t => p t | None => false end.
Definition GetKharchaStats : LM KharchaStats :=
  n ← or_default 0 (xquery (λ _ _ x, count_expenses pending x));
  today ← core Now;
  a ← or_default 0 (xquery (λ _ _ x,
        count_expenses (approved_on (λ t, bool_decide (date_of t = date_of today))) x));
  m ← or_default f0 (xquery (λ now _ x, SUM (approved_on (λ t, bool_decide (month_of t = month_of now))) x));
  u ← or_default f0 (xquery (λ _ _ x,
        SUM (λ e, pending e || String.eqb (Status e) "approved") x));
  mret (mkStats n a m u).
End Service.
End Kharcha.
