(* ===== verification/FuelClaims.v ===== *)
(** * The audit of fuel claims

    [internal/service/fuel_audit_service.go]: a claim for fuel against the
    refills the engine saw and the distance driven, the verdict and its row,
    the review by hand, the queue and the report of consumption. *)
From stdpp Require Import base decidable list strings option gmap.
From Stdlib Require Import ZArith Lia Ascii String.
From S2P Require Import Prelude GoFloat Shared GoTime GoMath Geofence InvoiceAggregate Database Repository SideTables.
From S2P Require Import GeofenceStore Alerts FuelConfig Fuel Scorecard Settlement Kharcha.
Open Scope Z_scope.

Module FuelClaims.
Import Ledger.

(** ** Records *)
Record fuelRefillEvent := mkRefill {
  rf_ID : string; rf_EstimatedLitres : float64; rf_Confidence : float64; rf_OccurredAt : Time;
  rf_OdometerBefore : float64; rf_OdometerAfter : float64 }.
Record FuelAuditClaim := mkClaim {
  c_ExpenseID : string; c_TripID : string; c_TripNumber : string; c_DriverID : string; c_DriverName : string;
  c_VehicleID : string; c_VehicleReg : string; c_Category : string; c_Amount : float64; c_FuelLitres : option float64;
  c_Status : string; c_AuditStatus : string; c_ExpectedLevel : option float64; c_ExpectedOdo : option float64;
  c_ExpectedBest : float64; c_VarianceLitres : float64; c_VariancePct : float64; c_Result : string;
  c_KmplUsed : float64; c_OdometerDeltaKm : float64; c_TankCapacity : float64; c_LevelDeltaPct : float64;
  c_CreatedAt : Time; c_ReviewedBy : option string; c_ReviewedAt : option Time; c_ReviewNote : option string;
  c_RefillEvents : list fuelRefillEvent }.
Record FuelAuditStats := mkStats {
  s_Pending : Z; s_NeedsReview : Z; s_Passed : Z; s_Failed : Z; s_AvgVariancePct : float64; s_EnforceMode : bool }.
Record fuelAuditConfig := mkConfig { claimTolerancePct : float64; crosscheckMarginPct : float64; kmplDefault : float64 }.
(** A pending claim: [r_tripStart] is [None] when it is not valid. *)
Record auditClaimRow := mkRow {
  r_expenseID : string; r_tripID : string; r_driverID : string; r_createdAt : Time; r_fuelLitres : option float64;
  r_vehicleID : string; r_tripStart : option Time }.
Record vehicleAuditMeta := mkMeta { sensorFitted : bool; tankCapacity : float64; kmpl : float64; regNumber : string }.
Record KmplRow := mkKmpl {
  k_VehicleID : string; k_RegistrationNo : string; k_OdometerDeltaKm : float64; k_RefillLitres : float64;
  k_ComputedKmpl : float64; k_ConfiguredKmpl : float64; k_VariancePct : float64; k_TripCount : Z }.

Definition f30days : Z := wrap64 (30 * 24 * 60 * Dwell.minute).
(** [datetime(t)]: whole seconds. *)
Definition datetime (t : Time) : Z := t / Dwell.second.

(** ** The verdict *)
Definition auditVerdict (claimed expectedBest tolerancePct : float64) (crosscheckOK : bool) : string * float64 * float64 :=
  let v := fsub claimed expectedBest in
  let pct := if (expectedBest <=? f0)%f64 then if (f0 <? claimed)%f64 then f100 else f0
             else fmul (fdiv (fabs v) expectedBest) f100 in
  (if negb crosscheckOK || (tolerancePct <? pct)%f64 then "needs_review"%string else "passed"%string, v, pct).
(** Expected from the level, from the odometer, and what of it there is. *)
Record Evidence := mkEvidence {
  e_level : float64; e_odo : float64; e_levelAvailable : bool; e_odoAvailable : bool; e_levelDeltaPct : float64;
  e_odoDelta : float64; e_kmpl : float64 }.
Definition gather (cfg : fuelAuditConfig) (m : vehicleAuditMeta) (refills : list fuelRefillEvent) (odoDelta : float64) : Evidence :=
  let level := foldl (λ s r, fadd s (rf_EstimatedLitres r)) f0 refills in
  let k := if (kmpl m <=? f0)%f64 then kmplDefault cfg else kmpl m in
  mkEvidence level (if (f0 <? odoDelta)%f64 then fdiv odoDelta k else f0)
    (sensorFitted m && (f0 <? tankCapacity m)%f64 && negb (match refills with [] => true | _ => false end))
    (f0 <? odoDelta)%f64
    (if (f0 <? tankCapacity m)%f64 then fmul (fdiv level (tankCapacity m)) f100 else f0) odoDelta k.
Definition checks_of (e : Evidence) : list auditCheck :=
  [mkCheck "level" (e_level e) (e_levelAvailable e); mkCheck "odometer" (e_odo e) (e_odoAvailable e)].
Definition crosscheck (marginPct : float64) (e : Evidence) : bool :=
  if e_levelAvailable e && e_odoAvailable e then
    let m := fmax (e_level e) (e_odo e) in
    let denom := if (m <=? f0)%f64 then f1 else m in
    (fmul (fdiv (fabs (fsub (e_level e) (e_odo e))) denom) f100 <=? marginPct)%f64
  else true.
Definition expected_best (e : Evidence) : float64 :=
  if e_levelAvailable e
  then if e_odoAvailable e then fdiv (fadd (e_level e) (e_odo e)) (f64_of_Z 2) else e_level e
  else e_odo e.
Definition judge (cfg : fuelAuditConfig) (claimed : float64) (e : Evidence) : string * float64 * float64 :=
  auditVerdict claimed (expected_best e) (claimTolerancePct cfg) (crosscheck (crosscheckMarginPct cfg) e).
(** [json.Marshal]; the text is empty when it fails, and does not parse back. *)
Definition marshal_checks (l : list auditCheck) : option (list auditCheck) :=
  if forallb (λ c, is_finite (ch_Expected c)) l then Some l else None.
(** A column of floats: NaN is stored as NULL. *)
Definition column (x : float64) : option float64 := if is_nan x then None else Some x.
Definition valid_float (x : float64) (valid : bool) : option float64 := if valid then column x else None.
Definition audit_row (c : auditClaimRow) (m : vehicleAuditMeta) (e : Evidence) (verdict : string * float64 * float64)
    (id : string) : ClaimAuditRow :=
  let '(res, v, pct) := verdict in
  mkClaimAudit id (r_expenseID c) (Fuel.ptr (r_tripID c)) (Fuel.ptr (r_vehicleID c)) (Fuel.ptr (r_driverID c))
    (column (default f0 (r_fuelLitres c))) (valid_float (e_level e) (e_levelAvailable e)) (valid_float (e_odo e) (e_odoAvailable e))
    (column (e_levelDeltaPct e)) (column (e_odoDelta e)) (column (tankCapacity m)) (column (e_kmpl e)) (column v) (column pct) res (marshal_checks (checks_of e))
    None None None (r_createdAt c).

(** ** The table of audits *)
Definition by_expense (id : string) (a : ClaimAuditRow) : bool := String.eqb (ca_ExpenseID a) id.
(** The columns an upsert takes over. *)
Definition take_over (new_ old : ClaimAuditRow) : ClaimAuditRow :=
  mkClaimAudit (ca_ID old) (ca_ExpenseID old) (ca_TripID old) (ca_VehicleID old) (ca_DriverID old)
    (ca_LitresClaimed new_) (ca_ExpectedLevel new_) (ca_ExpectedOdo new_) (ca_LevelDeltaPct new_)
    (ca_OdometerDeltaKm new_) (ca_TankCapacity new_) (ca_KmplUsed new_) (ca_VarianceLitres new_)
    (ca_VariancePct new_) (ca_Result new_) (ca_Checks new_) (ca_ReviewedBy old) (ca_ReviewedAt old)
    (ca_ReviewNote old) (ca_CreatedAt new_).
Definition upsert_audit (a : ClaimAuditRow) (x : Tables) : result unit * Tables :=
  if existsb (by_expense (ca_ExpenseID a)) (claim_audits x)
  then (Ok tt, set_claim_audits ((λ b, if by_expense (ca_ExpenseID a) b then take_over a b else b) <$> claim_audits x) x)
  else if existsb (λ b, String.eqb (ca_ID b) (ca_ID a)) (claim_audits x)
  then (Fail (Err "UNIQUE constraint failed: fuel_claim_audits.id"), x)
  else (Ok tt, set_claim_audits (claim_audits x ++ [a])%list x).
Definition reviewed (verdict : string) (by_ note : option string) (at_ : Time) (a : ClaimAuditRow) : ClaimAuditRow :=
  mkClaimAudit (ca_ID a) (ca_ExpenseID a) (ca_TripID a) (ca_VehicleID a) (ca_DriverID a) (ca_LitresClaimed a)
    (ca_ExpectedLevel a) (ca_ExpectedOdo a) (ca_LevelDeltaPct a) (ca_OdometerDeltaKm a) (ca_TankCapacity a)
    (ca_KmplUsed a) (ca_VarianceLitres a) (ca_VariancePct a) verdict (ca_Checks a) by_ (Some at_) note (ca_CreatedAt a).

(** [parseDBTime]: RFC 3339, or the format of SQLite; a fraction of the
    second is read where the layout has none. *)
Definition parseDBTime (s : string) : option Time :=
  if is_empty s then None
  else match Parse_rfc3339 s with Some t => Some t | None => Parse_second s end.

(** ** The service *)
Section Service.
Context {env : Env} {gm : GoMath}.
(** The text in which the driver stores a time, where a query delivers it
    as text; how the engine sums, and orders its groups. *)
Context (column_text : Time → string) (sql_avg sql_sum : list float64 → float64) (group_order : list string → list string).

Definition set_reader (c : FuelConfig.ConfigReader) (o : Outside) : Outside := mkOutside (o_settle o) c.
Definition in_config {A} (m : SM (World * FuelConfig.ConfigReader) A) : LM A := FuelConfig.zoom o_reader set_reader m.
Definition loadAuditConfig : LM fuelAuditConfig :=
  in_config (
    t ← FuelConfig.float_key "fuel.claim_tolerance_pct" FuelConfig.not_negative (f64_of_Z 20);
    c ← FuelConfig.float_key "fuel.claim_crosscheck_margin_pct" FuelConfig.not_negative (f64_of_Z 25);
    k ← FuelConfig.float_key "fuel.kmpl_default" FuelConfig.positive (f64_of_Z 4);
    mret (mkConfig t c k)).

Definition trip_of (d : DB) (t : option string) : option TripRow.SQLTripModel :=
  List.find (λ r, bool_decide (Some (TripRow.ID r) = t)) (trips d).
Definition departure (d : DB) (t : option string) : option Time :=
  t ← trip_of d t; parseDBTime (column_text (TripRow.DepartureTime t)).
Definition trip_vehicle (d : DB) (t : option string) : string :=
  match trip_of d t with Some t => or_empty (TripRow.VehicleID t) | None => "" end.
Definition awaits_audit (e : ExpenseRow) : bool :=
  String.eqb (Category e) "fuel" && String.eqb (AuditStatus e) "pending" && Kharcha.pending e.
Definition claim_row (d : DB) (e : ExpenseRow) : auditClaimRow :=
  mkRow (ID e) (or_empty (TripID e)) (or_empty (DriverID e)) (CreatedAt e) (FuelLitres e) (trip_vehicle d (TripID e))
    (departure d (TripID e)).
Definition pendingFuelClaims : LM (list auditClaimRow) :=
  xquery (λ _ d x, claim_row d <$> Kharcha.oldest_first (List.filter awaits_audit (expenses x))).

Definition vehicleMeta (id : string) : LM vehicleAuditMeta :=
  SM_wrap ("fuel audit: vehicle " +:+ id) (xquery_row (λ _ d x,
    v ← List.find (λ v, String.eqb (VehicleRow.ID v) id) (vehicles d);
    let '(fitted, cap) := default (false, None) (vehicle_fuel x !! id) in
    Some (mkMeta fitted (default f0 cap) (default f0 (VehicleRow.CurrentMileage v)) (VehicleRow.RegistrationNumber v)))).

(** The latest earlier claim of the trip, when there is one and its time
    reads. *)
Definition earlier_claim (c : auditClaimRow) (e : ExpenseRow) : bool :=
  bool_decide (TripID e = Some (r_tripID c)) && String.eqb (Category e) "fuel" &&
  negb (String.eqb (ID e) (r_expenseID c)) && (datetime (CreatedAt e) <? datetime (r_createdAt c)).
Definition latest (l : list Time) : option Time :=
  match l with [] => None | t :: l => Some (foldl Z.max t l) end.
Definition claimWindowStart (c : auditClaimRow) : LM Time :=
  let start := default 0 (r_tripStart c) in
  prev ← SM_try (xquery (λ _ _ x, latest (CreatedAt <$> List.filter (earlier_claim c) (expenses x))));
  let start := match prev with
    | Ok (Some t) => match parseDBTime (column_text t) with Some t => if start <? t then t else start | None => start end
    | _ => start
    end in
  mret (if time_IsZero start then r_createdAt c - f30days else start).

Definition in_window (from to : Time) (t : Time) : bool := (datetime from <? datetime t) && (datetime t <=? datetime to).
Definition refill_row (r : Fuel.FuelEventRow) : fuelRefillEvent :=
  let or0 x := if is_nan x then f0 else x in
  mkRefill (Fuel.fr_ID r) (or0 (Fuel.fr_Estimated r)) (or0 (Fuel.fr_Confidence r)) (Fuel.fr_OccurredAt r)
    (or0 (Fuel.fr_OdoBefore r)) (or0 (Fuel.fr_OdoAfter r)).
Definition is_refill (r : Fuel.FuelEventRow) : bool := String.eqb (Fuel.fr_EventType r) "refill_detected".
Definition refillsInWindow (vehicleID : string) (from to : Time) : LM (list fuelRefillEvent) :=
  xquery (λ _ _ x, refill_row <$> order_by (λ r s, Fuel.fr_OccurredAt r <=? Fuel.fr_OccurredAt s)
    (List.filter (λ r, String.eqb (Fuel.fr_VehicleID r) vehicleID && is_refill r && in_window from to (Fuel.fr_OccurredAt r))
       (fuel_events x))).

(** [MIN], [MAX] of the odometers that are there. *)
Definition odometers (vehicleID : string) (inside : Time → bool) (d : DB) : list float64 :=
  omap (λ s, if bool_decide (sn_VehicleID s = Some vehicleID) && inside (sn_Timestamp s)
             then match sn_Odometer s with Some o => if (f0 <? o)%f64 then Some o else None | None => None end else None)
    (telemetry_snapshots (ops d)).
Definition least (l : list float64) : option float64 :=
  match l with [] => None | x :: l => Some (foldl (λ m y, if (y <? m)%f64 then y else m) x l) end.
Definition greatest (l : list float64) : option float64 :=
  match l with [] => None | x :: l => Some (foldl (λ m y, if (m <? y)%f64 then y else m) x l) end.
Definition bounds (vehicleID : string) (inside : Time → bool) (d : DB) : option (float64 * float64) :=
  lo ← least (odometers vehicleID inside d); hi ← greatest (odometers vehicleID inside d); Some (lo, hi).
Definition route_km (tripID : string) (d : DB) (x : Tables) : option float64 :=
  t ← List.find (λ t, String.eqb (TripRow.ID t) tripID) (trips d);
  Settlement.route_distance (books x) !! TripRow.RouteID t.
Definition odometerDelta (c : auditClaimRow) (start : Time) : LM float64 :=
  b ← xquery (λ _ d _, bounds (r_vehicleID c) (in_window start (r_createdAt c)) d);
  match b with
  | Some (lo, hi) => let delta := fsub hi lo in mret (if (f0 <=? delta)%f64 then delta else f0)
  | None =>
      if is_empty (r_tripID c) then mret f0
      else r ← SM_try (xquery_row (λ _ d x, route_km (r_tripID c) d x));
           mret (match r with Ok km => if (f0 <? km)%f64 then km else f0 | Fail _ => f0 end)
  end.

(** The row and the status of the expense in one transaction. *)
Definition write_audit (c : auditClaimRow) (m : vehicleAuditMeta) (e : Evidence) (verdict : string * float64 * float64) : LM unit :=
  xtransaction
    (id ← core GenerateUUID;
     _ ← xexec (λ _ _ x, upsert_audit (audit_row c m e verdict id) x);
     xwrite (λ _, update_expenses (by_id (r_expenseID c)) (set_audit_status (fst (fst verdict))))).
Definition auditOne (cfg : fuelAuditConfig) (c : auditClaimRow) : LM unit :=
  if is_empty (r_vehicleID c) then mret tt
  else
    m ← vehicleMeta (r_vehicleID c);
    start ← claimWindowStart c;
    refills ← refillsInWindow (r_vehicleID c) start (r_createdAt c);
    delta ← odometerDelta c start;
    let e := gather cfg m refills delta in
    write_audit c m e (judge cfg (default f0 (r_fuelLitres c)) e).
Fixpoint audit_all (cfg : fuelAuditConfig) (cs : list auditClaimRow) (n : Z) : LM Z :=
  match cs with
  | [] => mret n
  | c :: cs =>
      r ← SM_try (auditOne cfg c);
      audit_all cfg cs (if is_Ok r then n + 1 else n)
  end.
Definition AuditPendingClaims : LM Z :=
  cfg ← loadAuditConfig;
  cs ← SM_wrap "fuel audit: load pending claims" pendingFuelClaims;
  audit_all cfg cs 0.
Definition RunAudit : LM Z := AuditPendingClaims.

Definition ReviewClaim (expenseID verdict note userID : string) : LM unit :=
  if negb (String.eqb verdict "passed" || String.eqb verdict "failed")
  then SM_fail (Err ("invalid verdict: " +:+ verdict +:+ " (expected passed|failed)"))
  else
    now ← core Now;
    xtransaction
      (n ← xexec (λ _ _ x,
         (Ok (Z.of_nat (List.length (List.filter (by_expense expenseID) (claim_audits x)))),
          set_claim_audits ((λ a, if by_expense expenseID a then reviewed verdict (Fuel.ptr userID) (Fuel.ptr note) now a else a)
            <$> claim_audits x) x));
       if n =? 0 then SM_fail (Err "claim audit row not found")
       else xwrite (λ _, update_expenses (by_id expenseID) (set_audit_status verdict))).

(** ** Reading *)
Definition ExpectedBestFromChecks (level odo : option float64) (checks : option (list auditCheck)) : float64 :=
  match checks with
  | None => match odo, level with Some o, _ => o | None, Some l => l | None, None => f0 end
  | Some l =>
      let last t := foldl (λ r c, if ch_Available c && String.eqb (ch_Type c) t then Some (ch_Expected c) else r) None l in
      match last "level"%string, last "odometer"%string with
      | Some v, Some o => fdiv (fadd v o) (f64_of_Z 2)
      | Some v, None => v
      | None, Some o => o
      | None, None => f0
      end
  end.
Definition or_zero (x : option float64) : float64 := default f0 x.
(** The variance and the result are scanned into values that take no NULL. *)
Definition scanAuditClaim (d : DB) (x : Tables) (e : ExpenseRow) : result FuelAuditClaim :=
  match Kharcha.audit_of x (ID e) with
  | Some a =>
      match ca_VarianceLitres a, ca_VariancePct a with
      | Some v, Some p =>
          let vid := trip_vehicle d (TripID e) in
          Ok (mkClaim (ID e) (or_empty (TripID e)) (Kharcha.trip_number d (TripID e)) (or_empty (DriverID e))
                (Kharcha.driver_name d (DriverID e)) vid
                (match List.find (λ v, String.eqb (VehicleRow.ID v) vid) (vehicles d) with
                 | Some v => VehicleRow.RegistrationNumber v | None => ""%string end)
                (Category e) (Amount e) (FuelLitres e) (Status e) (AuditStatus e) (ca_ExpectedLevel a) (ca_ExpectedOdo a)
                (ExpectedBestFromChecks (ca_ExpectedLevel a) (ca_ExpectedOdo a) (ca_Checks a)) v p (ca_Result a)
                (or_zero (ca_KmplUsed a)) (or_zero (ca_OdometerDeltaKm a)) (or_zero (ca_TankCapacity a))
                (or_zero (ca_LevelDeltaPct a)) (CreatedAt e) (ca_ReviewedBy a) (ca_ReviewedAt a) (ca_ReviewNote a) [])
      | _, _ => Fail (Err "converting NULL to float64 is unsupported")
      end
  | None => Fail (Err "converting NULL to float64 is unsupported")
  end.
Fixpoint scanAuditClaims (d : DB) (x : Tables) (l : list ExpenseRow) : result (list FuelAuditClaim) :=
  match l with
  | [] => Ok []
  | e :: l => c ← scanAuditClaim d x e; cs ← scanAuditClaims d x l; Ok (c :: cs)
  end.
Definition is_fuel (e : ExpenseRow) : bool := String.eqb (Category e) "fuel".
Definition queue (x : Tables) : list ExpenseRow :=
  take 200 (Kharcha.newest_first (List.filter is_fuel (expenses x))).
Definition ListAuditClaims : LM (list FuelAuditClaim) :=
  xexec (λ _ d x, (scanAuditClaims d x (queue x), x)).
Definition with_refills (l : list fuelRefillEvent) (c : FuelAuditClaim) : FuelAuditClaim :=
  mkClaim (c_ExpenseID c) (c_TripID c) (c_TripNumber c) (c_DriverID c) (c_DriverName c) (c_VehicleID c) (c_VehicleReg c)
    (c_Category c) (c_Amount c) (c_FuelLitres c) (c_Status c) (c_AuditStatus c) (c_ExpectedLevel c) (c_ExpectedOdo c)
    (c_ExpectedBest c) (c_VarianceLitres c) (c_VariancePct c) (c_Result c) (c_KmplUsed c) (c_OdometerDeltaKm c)
    (c_TankCapacity c) (c_LevelDeltaPct c) (c_CreatedAt c) (c_ReviewedBy c) (c_ReviewedAt c) (c_ReviewNote c) l.
Definition scan_one (id : string) : LM FuelAuditClaim :=
  SM_wrap "claim not found" (xexec (λ _ d x,
    (match find_expense id x with Some e => scanAuditClaim d x e | None => Fail ErrNoRows end, x))).
(** The start of the trip is read with one layout here. *)
Definition detail_start (tripID : string) : LM (option Time) :=
  if is_empty tripID then mret None
  else
    r ← SM_try (xquery_row (λ _ d _, List.find (λ t, String.eqb (TripRow.ID t) tripID) (trips d)));
    mret (match r with Ok t => Parse_second (column_text (TripRow.DepartureTime t)) | Fail _ => None end).
Definition GetAuditDetail (expenseID : string) : LM FuelAuditClaim :=
  c ← scan_one expenseID;
  if is_empty (c_VehicleID c) then mret c
  else
    start ← detail_start (c_TripID c);
    w ← claimWindowStart (mkRow (c_ExpenseID c) (c_TripID c) "" (c_CreatedAt c) None "" start);
    r ← SM_try (refillsInWindow (c_VehicleID c) w (c_CreatedAt c));
    mret (match r with Ok l => with_refills l c | Fail _ => c end).

(** [EnforceMode] of the cached configuration; the approval reads its own. *)
Definition EnforceMode : LM bool :=
  r ← SM_try (in_config (FuelConfig.Get DefaultTenant "fuel.audit_enforce"));
  mret (match r with Ok v => String.eqb v "true" | Fail _ => false end).
Definition audit_is (a : string) (e : ExpenseRow) : bool := is_fuel e && String.eqb (AuditStatus e) a.
Definition GetAuditStats : LM FuelAuditStats :=
  p ← Kharcha.or_default 0 (xquery (λ _ _ x, count_expenses (audit_is "pending") x));
  n ← Kharcha.or_default 0 (xquery (λ _ _ x, count_expenses (audit_is "needs_review") x));
  o ← Kharcha.or_default 0 (xquery (λ _ _ x, count_expenses (audit_is "passed") x));
  f ← Kharcha.or_default 0 (xquery (λ _ _ x, count_expenses (audit_is "failed") x));
  v ← Kharcha.or_default f0 (xquery (λ _ _ x,
        match omap ca_VariancePct (claim_audits x) with [] => f0 | l => sql_avg l end));
  e ← EnforceMode;
  mret (mkStats p n o f v e).

Definition within (from to : Time) (t : Time) : bool := (datetime from <=? datetime t) && (datetime t <=? datetime to).
Definition refills_of (from to : Time) (x : Tables) : list Fuel.FuelEventRow :=
  List.filter (λ r, is_refill r && within from to (Fuel.fr_OccurredAt r)) (fuel_events x).
Definition refill_total (from to : Time) (x : Tables) (vid : string) : float64 :=
  match omap (λ r, if String.eqb (Fuel.fr_VehicleID r) vid then column (Fuel.fr_Estimated r) else None) (refills_of from to x) with
  | [] => f0 | l => sql_sum l
  end.
Definition kmpl_row (cfg : fuelAuditConfig) (from to : Time) (vr : string * float64) : LM KmplRow :=
  let '(vid, litres) := vr in
  b ← Kharcha.or_default None (xquery (λ _ d _, bounds vid (within from to) d));
  let odo := match b with Some (lo, hi) => if (lo <? hi)%f64 then fsub hi lo else f0 | None => f0 end in
  v ← SM_try (xquery_row (λ _ d _, List.find (λ v, String.eqb (VehicleRow.ID v) vid) (vehicles d)));
  n ← Kharcha.or_default 0 (xquery (λ _ d _, Z.of_nat (List.length (List.filter
        (λ t, bool_decide (TripRow.VehicleID t = Some vid) && within from to (TripRow.DepartureTime t)) (trips d)))));
  let reg := match v with Ok v => VehicleRow.RegistrationNumber v | Fail _ => ""%string end in
  let configured := match v with
    | Ok v => match VehicleRow.CurrentMileage v with Some k => if (f0 <? k)%f64 then k else kmplDefault cfg | None => kmplDefault cfg end
    | Fail _ => kmplDefault cfg end in
  let computed := if (f0 <? litres)%f64 && (f0 <? odo)%f64 then fdiv odo litres else f0 in
  mret (mkKmpl vid reg odo litres computed configured
    (if (f0 <? configured)%f64 then fmul (fdiv (fsub computed configured) configured) f100 else f0) n).
Fixpoint each {A B} (f : A → LM B) (l : list A) : LM (list B) :=
  match l with [] => mret [] | a :: l => b ← f a; r ← each f l; mret (b :: r) end.
Definition KmplReport (from to : Time) : LM (list KmplRow) :=
  cfg ← loadAuditConfig;
  groups ← xquery (λ _ _ x,
    (λ v, (v, refill_total from to x v)) <$> group_order (remove_dups (Fuel.fr_VehicleID <$> refills_of from to x)));
  each (kmpl_row cfg from to) groups.
End Service.
End FuelClaims.
