(* ===== verification/Fastag.v ===== *)
(** * Toll tags

    [internal/fastag] and the stub of [internal/integration/fastag]: the
    wallets of the tags, the tolls pulled from the provider, and their
    reconciliation with the trips, which books each toll as an approved
    expense of the driver. *)
From stdpp Require Import base decidable list strings option gmap pretty.
From Stdlib Require Import ZArith Lia Ascii String SpecFloat.
From S2P Require Import Prelude GoFloat Shared GoTime GoMath Geofence InvoiceAggregate Database Repository SideTables.
From S2P Require Import GeofenceStore DwellWorker Alerts FuelConfig Fuel Scorecard Settlement Kharcha.
Open Scope Z_scope.

Module Fastag.
Import Ledger.

(** ** Records *)
Record Config := mkConfig { AutoKharcha : bool; MerchantID : string; Provider : string }.
Record ClientConfig := mkClientConfig { Enabled : bool; UseMock : bool }.
Record Balance := mkBalance { b_VehicleNumber : string; b_TagID : string; b_Balance : float64; b_UpdatedAt : Time }.
Record DeductTollRequest := mkDeduct {
  q_VehicleNumber : string; q_TagID : string; q_PlazaID : string; q_PlazaName : string; q_Amount : float64;
  q_TripID : string; q_Source : string }.
Record TollTransaction := mkTxn {
  x_TransactionID : string; x_VehicleNumber : string; x_TagID : string; x_PlazaID : string; x_PlazaName : string;
  x_Amount : float64; x_Timestamp : Time; x_Status : string }.
Record ReconcileResult := mkResult {
  Pulled : Z; Matched : Z; Unmatched : Z; KharchaCreated : Z; UnmatchedIDs : list string }.
Record candidateTrip := mkCandidate {
  ct_ID : string; ct_DriverID : option string; ct_DepartureTime : Time; ct_ArrivalTime : Time }.

(** The operations of the aggregator. *)
Class Client := {
  GetBalance : string → string → LM Balance;
  DeductToll : DeductTollRequest → LM TollTransaction;
  ListTransactions : string → Z → LM (list TollTransaction) }.

(** ** Configuration *)
Definition is_yes (v : string) : bool :=
  let v := ToLower (TrimSpace v) in String.eqb v "true" || String.eqb v "1" || String.eqb v "yes".
Definition apply_key (cfg : Config) (r : ConfigRow) : Config :=
  if String.eqb (cc_Key r) "fastag_auto_kharcha" then mkConfig (is_yes (cc_Value r)) (MerchantID cfg) (Provider cfg)
  else if String.eqb (cc_Key r) "fastag_merchant_id" then mkConfig (AutoKharcha cfg) (cc_Value r) (Provider cfg)
  else if String.eqb (cc_Key r) "fastag_provider" then mkConfig (AutoKharcha cfg) (MerchantID cfg) (cc_Value r)
  else cfg.

(** ** The greedy match *)
Definition hour : Z := 60 * Dwell.minute.
Definition in_trip_window (at_ : Time) (t : candidateTrip) : bool :=
  (ct_DepartureTime t - hour <=? at_) && (at_ <=? ct_ArrivalTime t + hour).
Definition delta (at_ : Time) (t : candidateTrip) : float64 :=
  fabs (Worker.Seconds (Geo.Sub at_ (ct_DepartureTime t))).
(** The best so far with its distance. *)
Definition closer (at_ : Time) (best : option (candidateTrip * float64)) (t : candidateTrip) : option (candidateTrip * float64) :=
  let least := match best with Some (_, m) => m | None => Cephes.MaxFloat64 end in
  if in_trip_window at_ t && (delta at_ t <? least)%f64 then Some (t, delta at_ t) else best.
Definition best_trip (at_ : Time) (trips : list candidateTrip) : option candidateTrip :=
  fst <$> foldl (closer at_) None trips.
Definition matching_statuses : list string :=
  ["scheduled"; "assigned"; "started"; "reached_pickup"; "in_transit"; "delivered"; "completed"]%string.

(** The layouts of [parseTimeFlexible]. *)
Definition Parse_space_zone : string → option Time :=
  whole (let? d := date_ in let? _ := space_ in let? t := hour_minute in let? _ := char_ ":" in let? s := second_ in
         let? z := (λ s, match s with String "Z" _ => None | _ => zone_ s end) in pret (d, ns t + s - ns z)).
Definition Parse_T : string → option Time :=
  whole (let? d := date_ in let? _ := char_ "T" in let? t := hour_minute in let? _ := char_ ":" in let? s := second_ in
         pret (d, ns t + s)).
Fixpoint first_layout (ps : list (string → option Time)) (s : string) : option Time :=
  match ps with [] => None | p :: ps => match p s with Some t => Some t | None => first_layout ps s end end.

(** ** The tables *)
Definition insert_toll (t : TollRow) (x : Tables) : result unit * Tables :=
  if is_nan (tl_Amount t) then (Fail (Err "NOT NULL constraint failed: fastag_transactions.amount"), x)
  else if existsb (λ r, String.eqb (tl_ID r) (tl_ID t)) (tolls x)
  then (Fail (Err "UNIQUE constraint failed: fastag_transactions.id"), x)
  else (Ok tt, set_tolls (tolls x ++ [t])%list x).
Definition settle_toll (trip : string) (kharcha : option string) (t : TollRow) : TollRow :=
  mkToll (tl_ID t) (tl_TenantID t) (tl_TagID t) (tl_VehicleID t) (tl_VehicleNumber t) (Some trip) (tl_PlazaID t)
    (tl_PlazaName t) (tl_Amount t) (tl_Timestamp t) (tl_Status t) (tl_Source t) true kharcha.
Definition update_tolls (p : TollRow → bool) (f : TollRow → TollRow) (x : Tables) : Tables :=
  set_tolls ((λ t, if p t then f t else t) <$> tolls x) x.
Definition toll_is (id : string) (t : TollRow) : bool := String.eqb (tl_ID t) id.
Definition debit (amount : float64) (now : Time) (t : TagRow) : TagRow :=
  mkTag (tg_ID t) (tg_TagID t) (tg_VehicleID t) (tg_VehicleNumber t) (fsub (tg_Balance t) amount) (Some now).
Definition of_vehicle (v : string) (t : TollRow) : bool := is_empty v || String.eqb (tl_VehicleNumber t) v.

Section Service.
Context {env : Env}.

Definition LoadConfig : LM Config :=
  r ← SM_try (xquery (λ _ d _, foldl apply_key (mkConfig true "" "MOCK") (company_config (ops d))));
  mret (match r with Ok c => c | Fail _ => mkConfig true "" "MOCK" end).

(** *** The stub client, on the same database *)
Section Stub.
Context (cfg : ClientConfig).
Definition disabled : error := Err "fastag integration disabled".
Definition stub_balance (v t : string) : LM Balance :=
  now ← core Now; mret (mkBalance v t (f64_decimal 247550 (-2)) now).
Definition stub_GetBalance (vehicleNumber tagID : string) : LM Balance :=
  if negb (Enabled cfg) then SM_fail disabled
  else if is_empty vehicleNumber && is_empty tagID
  then SM_fail (Err "neither vehicle_number nor tag_id provided")
  else
    let hit t := if negb (is_empty vehicleNumber)
                 then bool_decide (tg_VehicleNumber t = Some vehicleNumber) || bool_decide (tg_VehicleID t = Some vehicleNumber)
                 else String.eqb (tg_TagID t) tagID in
    r ← SM_try (xquery_row (λ _ _ x, List.find hit (tags x)));
    match r with
    | Ok t =>
        now ← (match tg_LastSync t with Some s => mret s | None => core Now end);
        mret (mkBalance (or_empty (tg_VehicleNumber t)) (tg_TagID t) (tg_Balance t) now)
    | Fail e =>
        if negb (is_no_rows e) then SM_fail e
        else if negb (UseMock cfg) && negb (is_empty vehicleNumber)
        then SM_fail (Wrap ("fastag: no tag for vehicle " +:+ vehicleNumber) e)
        else stub_balance vehicleNumber tagID
    end.
Definition stub_DeductToll (q : DeductTollRequest) : LM TollTransaction :=
  if negb (Enabled cfg) then SM_fail disabled
  else
    id ← core GenerateUUID;
    now ← core Now;
    let source := if is_empty (q_Source q) then "MANUAL"%string else q_Source q in
    r ← SM_try (xexec (λ _ _ x, insert_toll
      (mkToll id "1" (q_TagID q) None (q_VehicleNumber q) (Some (q_TripID q)) (q_PlazaID q) (q_PlazaName q) (q_Amount q)
         now "SUCCESS" source false None) x));
    _ ← (match r with
         | Ok _ =>
             SM_ignore (xexec (λ _ _ x,
               let l := (λ t, if String.eqb (tg_TagID t) (q_TagID q) || bool_decide (tg_VehicleNumber t = Some (q_VehicleNumber q))
                              then debit (q_Amount q) now t else t) <$> tags x in
               if existsb (λ t, is_nan (tg_Balance t)) l
               then (Fail (Err "NOT NULL constraint failed: fastag_tags.balance"), x) else (Ok tt, set_tags l x)))
         | Fail _ => mret tt
         end);
    mret (mkTxn id (q_VehicleNumber q) (q_TagID q) (q_PlazaID q) (q_PlazaName q) (q_Amount q) now "SUCCESS").
Definition txn_of (t : TollRow) : TollTransaction :=
  mkTxn (tl_ID t) (tl_VehicleNumber t) (tl_TagID t) (tl_PlazaID t) (tl_PlazaName t) (tl_Amount t) (tl_Timestamp t) (tl_Status t).
Definition pad3 (n : Z) : string := String (digit_char (n / 100 mod 10)) (pad2 (n mod 100)).
Fixpoint made_up (v : string) (now : Time) (i : Z) (k : nat) : LM (list TollTransaction) :=
  match k with
  | O => mret []
  | S k =>
      id ← core GenerateUUID;
      r ← made_up v now (i + 1) k;
      mret (mkTxn id v ("TAG" +:+ v) ("PLZ" +:+ pad3 (i + 1)) ("Toll Plaza " +:+ pretty (i + 1))
              (fadd (f64_of_Z 85) (fmul (f64_of_Z i) (f64_of_Z 5))) (now - i * hour) "SUCCESS" :: r)
  end.
Definition newest_tolls (l : list TollRow) : list TollRow := order_by (λ t u, tl_Timestamp u <=? tl_Timestamp t) l.
Definition stub_ListTransactions (vehicleNumber : string) (limit : Z) : LM (list TollTransaction) :=
  if negb (Enabled cfg) then SM_fail disabled
  else
    let n := if limit <=? 0 then 10 else limit in
    r ← SM_try (xquery (λ _ _ x, txn_of <$> take (Z.to_nat n) (newest_tolls (List.filter (of_vehicle vehicleNumber) (tolls x)))));
    match r with
    | Ok (t :: l) => mret (t :: l)
    | _ => now ← core Now; made_up vehicleNumber now 0 (Z.to_nat n)
    end.
Definition stub : Client := {|
  GetBalance := stub_GetBalance; DeductToll := stub_DeductToll; ListTransactions := stub_ListTransactions |}.
End Stub.

(** *** The reconciliation *)
Context {client : Client} (column_text : Time → string) (config : Config).
Definition parseTimeFlexible (s : string) : LM Time :=
  match first_layout [Parse_rfc3339; Parse_space_zone; Parse_second; Parse_T; Parse_date] s with
  | Some t => mret t
  | None => core Now
  end.
Definition persist (p : TollTransaction) : LM unit :=
  seen ← SM_try (xquery (λ _ _ (x : Tables), existsb (λ t, String.eqb (tl_TagID t) (x_TagID p) && (tl_Timestamp t =? x_Timestamp p) &&
                                         (tl_Amount t =? x_Amount p)%f64) (tolls x)));
  if (match seen with Ok b => b | Fail _ => false end) : bool then mret tt
  else
    id ← (if is_empty (x_TransactionID p) then core GenerateUUID else mret (x_TransactionID p));
    SM_ignore (xexec (λ _ _ x, insert_toll
      (mkToll id "1" (x_TagID p) None (x_VehicleNumber p) None (x_PlazaID p) (x_PlazaName p) (x_Amount p) (x_Timestamp p)
         "SUCCESS" "PROVIDER" false None) x)).
Definition unreconciled (v : string) (x : Tables) : list TollRow :=
  order_by (λ t u, tl_Timestamp t <=? tl_Timestamp u) (List.filter (λ t, of_vehicle v t && negb (tl_Reconciled t)) (tolls x)).
Definition registration (d : DB) (vid : option string) : option string :=
  VehicleRow.RegistrationNumber <$> List.find (λ v, bool_decide (Some (VehicleRow.ID v) = vid)) (vehicles d).
(** Id, driver, departure, and the text of the arrival. *)
Definition candidate_rows (v : string) (now : Time) (d : DB) : list (string * option string * Time * string) :=
  (λ t, (TripRow.ID t, TripRow.DriverID t, TripRow.DepartureTime t,
         match TripRow.ArrivalTime t with Some a => column_text a | None => FormatDateTime now end)) <$>
  order_by (λ t u, TripRow.DepartureTime t <=? TripRow.DepartureTime u)
    (List.filter (λ t, (bool_decide (registration d (TripRow.VehicleID t) = Some v) || is_empty v ||
                        bool_decide (TripRow.VehicleID t = Some v)) &&
                       existsb (String.eqb (TripRow.Status t)) matching_statuses) (trips d)).
Fixpoint read_candidates (rows : list (string * option string * Time * string)) : LM (list candidateTrip) :=
  match rows with
  | [] => mret []
  | (id, driver, dep, arr) :: rows =>
      a ← parseTimeFlexible arr; r ← read_candidates rows; mret (mkCandidate id driver dep a :: r)
  end.
Definition toll_expense (id : string) (trip : candidateTrip) (t : TollRow) (now : Time) : ExpenseRow :=
  mkExpenseRow id (Some (ct_ID trip)) (Some (or_empty (ct_DriverID trip))) "toll" "toll" (tl_Amount t)
    (Some (if is_empty (tl_PlazaName t) then "FASTag Toll Plaza deduction" else "FASTag toll at " +:+ tl_PlazaName t)%string)
    None "approved" None (Some now) None now "pending" None None None None.
(** The expense that was booked, if it was. *)
Definition book_toll (trip : candidateTrip) (t : TollRow) : LM (option string) :=
  if AutoKharcha config then
    id ← core GenerateUUID;
    r ← SM_try (xexec (λ now _ x, insert_expense (toll_expense id trip t (Fuel.timeStr now)) x));
    mret (if is_Ok r then Some id else None)
  else mret None.
Record Tally := mkTally { n_matched : Z; n_kharcha : Z; unmatched_ids : list string }.
Definition match_one (cands : list candidateTrip) (n : Tally) (t : TollRow) : LM Tally :=
  match best_trip (tl_Timestamp t) cands with
  | Some trip =>
      k ← book_toll trip t;
      _ ← SM_ignore (xwrite (λ _, update_tolls (toll_is (tl_ID t)) (settle_toll (ct_ID trip) k)));
      mret (mkTally (n_matched n + 1) (match (k : option string) with Some _ => n_kharcha n + 1 | None => n_kharcha n end) (unmatched_ids n))
  | None => mret (mkTally (n_matched n) (n_kharcha n) (unmatched_ids n ++ [tl_ID t])%list)
  end.
Fixpoint match_all (cands : list candidateTrip) (n : Tally) (l : list TollRow) : LM Tally :=
  match l with [] => mret n | t :: l => n ← match_one cands n t; match_all cands n l end.
Definition Reconcile (vehicleNumber : string) : LM ReconcileResult :=
  r ← SM_try (ListTransactions vehicleNumber 10);
  let pulled := match r with Ok l => l | Fail _ => [] end in
  _ ← SM_iter persist pulled;
  todo ← xquery (λ _ _ x, unreconciled vehicleNumber x);
  rows ← xquery (λ now d _, candidate_rows vehicleNumber now d);
  cands ← read_candidates rows;
  n ← match_all cands (mkTally 0 0 []) todo;
  mret (mkResult (Z.of_nat (List.length pulled)) (n_matched n) (Z.of_nat (List.length (unmatched_ids n))) (n_kharcha n)
          (unmatched_ids n)).

(** *** The pages *)
Definition ListTolls (vehicleNumber : string) (limit : Z) : LM (list TollRow) :=
  xquery (λ _ _ x, take (Z.to_nat (if limit <=? 0 then 50 else limit))
    (newest_tolls (List.filter (of_vehicle vehicleNumber) (tolls x)))).
End Service.
(** What an aggregator of tolls may write. *)
Definition only_tolls (x x' : Tables) : Prop :=
  expenses x' = expenses x ∧ claim_audits x' = claim_audits x ∧ books x' = books x.
#[export] Instance only_tolls_preorder : PreOrder only_tolls.
Proof. split; [done|]. intros x y z (H1 & H2 & H3) (H4 & H5 & H6). split_and!; congruence. Qed.
Class LawfulClient {env : Env} (c : Client) : Prop := {
  deduct_only q : preserves (on_tables only_tolls) (DeductToll q);
  list_only v n : preserves (on_tables only_tolls) (ListTransactions v n) }.

Lemma insert_toll_only t x : only_tolls x (snd (insert_toll t x)).
Proof. unfold insert_toll. by repeat case_match. Qed.
Section Stub.
Context {env : Env} (cfg : ClientConfig).
#[export] Instance stub_lawful : LawfulClient (stub cfg).
Proof.
  split.
  - intros q. cbn. unfold stub_DeductToll. preserve_tables ltac:(fun _ => first
      [apply insert_toll_only|cbn; case_match; done]).
  - intros v n. cbn. unfold stub_ListTransactions.
    assert (Hm : ∀ now i k, preserves (on_tables only_tolls) (made_up v now i k)).
    { intros now i k. revert i. induction k as [|k IH]; intros i; cbn [made_up]; [preserve_tables ltac:(fun _ => fail)|].
      preserve_with ltac:(fun _ => first [apply IH|tables_leaf ltac:(fun _ => fail)]). }
    preserve_with ltac:(fun _ => first [apply Hm|tables_leaf ltac:(fun _ => fail)]).
Qed.
End Stub.

(** ** The match *)
Lemma fltb_trans x y z : fltb x y = true → fltb y z = true → fltb x z = true.
Proof.
  unfold fltb, SFltb, SFcompare.
  destruct x as [sx|sx| |sx mx ex], y as [sy|sy| |sy my ey], z as [sz|sz| |sz mz ez]; try done;
    repeat match goal with s : bool |- _ => destruct s end; try done;
    destruct (Z.compare_spec ex ey), (Z.compare_spec ey ez), (Z.compare_spec ex ez); subst; try lia; try done;
    change (Pos.compare_cont Eq ?a ?b) with (Pos.compare a b).
    all: change (Pos.compare_cont Eq mx my) with (Pos.compare mx my); change (Pos.compare_cont Eq my mz) with (Pos.compare my mz); change (Pos.compare_cont Eq mx mz) with (Pos.compare mx mz).
    all: destruct (Pos.compare_spec mx my), (Pos.compare_spec my mz), (Pos.compare_spec mx mz); subst; try done; try lia.
Qed.

Section Match.
Context (at_ : Time).
Definition eligible (t : candidateTrip) : Prop := in_trip_window at_ t = true ∧ (delta at_ t <? Cephes.MaxFloat64)%f64 = true.
(** The best of the trips looked at: none in its window is nearer. *)
Definition best_of (l : list candidateTrip) (best : option (candidateTrip * float64)) : Prop :=
  match best with
  | Some (t, m) => t ∈ l ∧ eligible t ∧ m = delta at_ t ∧
      ∀ u, u ∈ l → in_trip_window at_ u = true → (delta at_ u <? m)%f64 = false
  | None => ∀ u, u ∈ l → ¬ eligible u
  end.
Lemma fltb_irrefl x : (x <? x)%f64 = false.
Proof.
  unfold fltb, SFltb, SFcompare. destruct x as [s|s| |s m e]; try done; destruct s; try done.
  all: rewrite Z.compare_refl; change (Pos.compare_cont Eq m m) with (Pos.compare m m); by rewrite Pos.compare_refl.
Qed.
Lemma closer_best l best t : best_of l best → best_of (l ++ [t]) (closer at_ best t).
Proof.
  unfold closer. intros Hb.
  destruct (in_trip_window at_ t && _) eqn:E.
  - apply andb_true_iff in E as [Hw Hd]. destruct best as [[b m]|]; cbn in *.
    + destruct Hb as (Hin & [Hbw Hbm] & -> & Hall). split_and!; [set_solver| |done|].
      * split; [done|]. exact (fltb_trans _ _ _ Hd Hbm).
      * intros u [Hu | ->%list_elem_of_singleton]%elem_of_app Huw; [|apply fltb_irrefl].
        destruct (fltb (delta at_ u) (delta at_ t)) eqn:Hc; [|done].
        by rewrite <-(Hall u Hu Huw), (fltb_trans _ _ _ Hc Hd).
    + split_and!; [set_solver|done|done|].
      intros u [Hu | ->%list_elem_of_singleton]%elem_of_app Huw; [|apply fltb_irrefl].
      destruct (fltb (delta at_ u) (delta at_ t)) eqn:Hc; [|done].
      destruct (Hb u Hu). split; [done|]. exact (fltb_trans _ _ _ Hc Hd).
  - destruct best as [[b m]|]; cbn in *.
    + destruct Hb as (Hin & He & -> & Hall). split_and!; [set_solver|done|done|].
      intros u [Hu | ->%list_elem_of_singleton]%elem_of_app Huw; [by apply Hall|]. by rewrite Huw in E.
    + intros u [Hu | ->%list_elem_of_singleton]%elem_of_app; [by apply Hb|]. intros [H1 H2]. by rewrite H1, H2 in E.
Qed.
Lemma foldl_best l : best_of l (foldl (closer at_) None l).
Proof.
  induction l as [|t l IH] using rev_ind; [by intros u ?%elem_of_nil|].
  rewrite foldl_app. by apply closer_best.
Qed.
(** a toll goes to a trip whose window, an hour before the departure to an hour after
    the arrival, holds it, and no trip of a window that holds it departed at a moment
    nearer to the toll; it goes to none only when no such trip exists. *)
Theorem best_trip_spec (l : list candidateTrip) :
  match best_trip at_ l with
  | Some t => t ∈ l ∧ in_trip_window at_ t = true ∧
      ∀ u, u ∈ l → in_trip_window at_ u = true → (delta at_ u <? delta at_ t)%f64 = false
  | None => ∀ u, u ∈ l → in_trip_window at_ u = true → (delta at_ u <? Cephes.MaxFloat64)%f64 = false
  end.
Proof.
  unfold best_trip. pose proof (foldl_best l) as H. destruct (foldl _ None l) as [[t m]|]; cbn in *.
  - destruct H as (Hin & [Hw _] & -> & Hall). done.
  - intros u Hu Hw. destruct (fltb _ _) eqn:E; [|done]. by destruct (H u Hu).
Qed.
End Match.
End Fastag.
