(* ===== verification/Charges.v ===== *)
(** * No expense is charged twice

    The expenses of the drivers have four writers: the claims and their
    approval ([Kharcha]), the audit of fuel claims ([FuelClaims]), the toll
    reconciliation ([Fastag]), and the settlements ([Settlement]), which read
    them.  Whatever the four do, in whatever order and with whichever
    statements failing, an expense is on one line of one settlement at most,
    and only when it was approved; and the audit of a claim says what its
    expense says. *)
From stdpp Require Import base decidable list strings option gmap pretty.
From Stdlib Require Import ZArith Lia Ascii String.
From S2P Require Import Prelude GoFloat Shared GoTime GoMath Geofence InvoiceAggregate Database Repository SideTables.
From S2P Require Import GeofenceStore Alerts FuelConfig Fuel Scorecard Settlement Kharcha FuelClaims Fastag.
Open Scope Z_scope.

Module Charges.
Import Ledger.

(** ** Charges of a settlement *)
Definition non_empty_ref (r : string) : option string := if is_empty r then None else Some r.
Definition charge_of (l : Settlement.SettlementLine) : option string := non_empty_ref (Settlement.l_RefID l).
Definition item_charge (i : Settlement.LineItem) : option string := non_empty_ref (Settlement.i_ref i).
(** The expense a line of a trip stands for. *)
Definition backs (e : Settlement.Expense) (ref trip : string) (amount : float64) : Prop :=
  Settlement.x_ID e = ref ∧ Settlement.x_Status e = "approved"%string ∧ Settlement.x_TripID e = Some trip ∧
  amount = fneg (Settlement.x_Amount e).
Definition line_backed (l : Settlement.SettlementLine) (es : list Settlement.Expense) : Prop :=
  ∀ r, charge_of l = Some r → ∃ e, e ∈ es ∧ backs e r (Settlement.l_TripID l) (Settlement.l_Amount l).
Record charges_ok (b : Settlement.SettleTables) : Prop := mkCharges {
  ch_books : Settlement.books_ok b;
  ch_ids : NoDup (Settlement.x_ID <$> Settlement.driver_expenses b);
  ch_lines : ∀ l, l ∈ Settlement.settlement_lines b → line_backed l (Settlement.driver_expenses b);
  ch_once : NoDup (omap charge_of (Settlement.settlement_lines b)) }.
Definition keeps_charges (b b' : Settlement.SettleTables) : Prop :=
  Settlement.driver_expenses b' = Settlement.driver_expenses b ∧ (charges_ok b → charges_ok b').
#[local] Instance keeps_charges_preorder : PreOrder keeps_charges.
Proof. split; [by intros b|]. intros b1 b2 b3 [H1 H2] [H3 H4]. split; [congruence|auto]. Qed.

(** What leaves expenses and lines alone keeps the charges with the books. *)
Lemma charges_of_books b b' :
  Settlement.driver_expenses b' = Settlement.driver_expenses b →
  Settlement.settlement_lines b' = Settlement.settlement_lines b →
  (Settlement.books_ok b → Settlement.books_ok b') → keeps_charges b b'.
Proof. intros He Hl Hb. split; [done|]. intros [H1 H2 H3 H4]. split; [by apply Hb|by rewrite He|by rewrite He, Hl|by rewrite Hl]. Qed.
Lemma update_charges p f b :
  (∀ s, Settlement.ID (f s) = Settlement.ID s ∧ Settlement.TripID (f s) = Settlement.TripID s) →
  keeps_charges b (Settlement.update_settlements p f b).
Proof. intros Hf. apply charges_of_books; [done..|]. by apply Settlement.update_books. Qed.
Lemma insert_charges s b : keeps_charges b (snd (Settlement.insert_settlement s b)).
Proof.
  apply charges_of_books; [unfold Settlement.insert_settlement; by repeat case_match..|]. apply Settlement.insert_books.
Qed.

Lemma omap_filter_sub {A B} (f : A → option B) (p : A → bool) l : omap f (List.filter p l) `sublist_of` omap f l.
Proof.
  induction l as [|a l IH]; cbn; [constructor|]. destruct (p a); cbn; destruct (f a); first [done|by constructor].
Qed.
Lemma clear_charges id b :
  keeps_charges b (Settlement.set_lines
    (List.filter (λ l, negb (String.eqb (Settlement.l_SettlementID l) id)) (Settlement.settlement_lines b)) b).
Proof.
  split; [done|]. intros [H1 H2 H3 H4]. split; [by apply Settlement.clear_books|done| |].
  - intros l Hl. apply list_elem_of_In, filter_In in Hl as [Hl _]. by apply H3, list_elem_of_In.
  - by eapply sublist_NoDup, omap_filter_sub.
Qed.

(** ** A line at a time *)
Lemma charge_line_ok l b :
  Settlement.header_of (Settlement.l_SettlementID l) (Settlement.l_TripID l) b → charges_ok b →
  line_backed l (Settlement.driver_expenses b) →
  (∀ r, charge_of l = Some r → r ∉ omap charge_of (Settlement.settlement_lines b)) →
  charges_ok (snd (Settlement.insert_line l b)).
Proof.
  intros Hh [H1 H2 H3 H4] Hb Hn. pose proof (Settlement.insert_line_books l b Hh H1) as H5.
  unfold Settlement.insert_line in *. destruct (existsb _ _); [by split|]. split; cbn in *; [done|done| |].
  - intros k Hk. apply elem_of_app in Hk as [Hk|Hk]; [by apply H3|]. by apply list_elem_of_singleton in Hk as ->.
  - rewrite omap_app. apply NoDup_app. split; [done|]. cbn. destruct (charge_of l) as [r|] eqn:E; cbn.
    + split; [|apply NoDup_singleton]. intros i Hi Hj. apply list_elem_of_singleton in Hj as ->. by apply (Hn r).
    + split; [|constructor]. intros i _ Hi. by apply not_elem_of_nil in Hi.
Qed.
(** Items that may be written under a trip. *)
Record chargeable (t : string) (items : list Settlement.LineItem) (es : list Settlement.Expense) : Prop := mkChargeable {
  cb_backed : ∀ i r, i ∈ items → item_charge i = Some r → ∃ e, e ∈ es ∧ backs e r t (Settlement.i_amount i);
  cb_once : NoDup (omap item_charge items) }.
Definition disjoint_charges (items : list Settlement.LineItem) (b : Settlement.SettleTables) : Prop :=
  ∀ i r, i ∈ items → item_charge i = Some r → r ∉ omap charge_of (Settlement.settlement_lines b).

(** ** The items of a computation *)
Lemma non_empty_ref_inv s r : non_empty_ref s = Some r → s = r ∧ r ≠ ""%string.
Proof. unfold non_empty_ref. destruct s; [done|]. by intros [= <-]. Qed.
Lemma charges_sub (f : Settlement.Expense → Settlement.LineItem) l :
  (∀ e, Settlement.i_ref (f e) = Settlement.x_ID e) → omap item_charge (f <$> l) `sublist_of` (Settlement.x_ID <$> l).
Proof.
  intros Hf. induction l as [|e l IH]; cbn; [constructor|]. unfold item_charge at 1, non_empty_ref. rewrite Hf.
  destruct (is_empty _); by constructor.
Qed.
Lemma filter_ids_sub (p : Settlement.Expense → bool) l :
  (Settlement.x_ID <$> List.filter p l) `sublist_of` (Settlement.x_ID <$> l).
Proof. induction l as [|e l IH]; cbn; [constructor|]. destruct (p e); cbn; by constructor. Qed.
Lemma filter_elem {A} (p : A → bool) l x : x ∈ List.filter p l ↔ x ∈ l ∧ p x = true.
Proof. rewrite !list_elem_of_In. apply filter_In. Qed.

Section Items.
Context (t driver : string) (es : list Settlement.Expense) (Hids : NoDup (Settlement.x_ID <$> es)).
Definition chosen (adv : bool) (e : Settlement.Expense) : bool :=
  Settlement.approved t driver e && Bool.eqb (Settlement.is_advance (Settlement.x_Category e)) adv.
Definition charged_items : list Settlement.LineItem :=
  (Settlement.advance_item <$> List.filter (chosen true) es) ++ (Settlement.deduction_item <$> List.filter (chosen false) es).
Lemma charged_once : NoDup (omap item_charge charged_items).
Proof.
  unfold charged_items. rewrite omap_app. apply NoDup_app. split_and!.
  - eapply sublist_NoDup; [exact Hids|]. etrans; [by apply charges_sub|apply filter_ids_sub].
  - intros r Ha Hd.
    apply list_elem_of_omap in Ha as (i & Hi & Hr). apply list_elem_of_omap in Hd as (j & Hj & Hs).
    apply list_elem_of_fmap in Hi as (e & -> & He). apply list_elem_of_fmap in Hj as (f & -> & Hf).
    apply filter_elem in He as [He Hp]. apply filter_elem in Hf as [Hf Hq].
    assert (e = f) as ->.
    { apply (NoDup_map_inj Settlement.x_ID es); [done..|].
      apply non_empty_ref_inv in Hr as [Hr _], Hs as [Hs _]. cbn in Hr, Hs. congruence. }
    unfold chosen in *. apply andb_true_iff in Hp as [_ Hp], Hq as [_ Hq].
    by destruct (Settlement.is_advance _).
  - eapply sublist_NoDup; [exact Hids|]. etrans; [by apply charges_sub|apply filter_ids_sub].
Qed.
Lemma charged_backed i r : i ∈ charged_items → item_charge i = Some r → ∃ e, e ∈ es ∧ backs e r t (Settlement.i_amount i).
Proof.
  intros Hi Hr.
  assert (∃ adv e, e ∈ es ∧ chosen adv e = true ∧ Settlement.i_ref i = Settlement.x_ID e ∧
            Settlement.i_amount i = fneg (Settlement.x_Amount e)) as (adv & e & He & Hc & Href & Ha).
  { apply elem_of_app in Hi as [Hi|Hi]; apply list_elem_of_fmap in Hi as (e & -> & He); apply filter_elem in He as [He Hc];
      eauto 10. }
  exists e. split; [done|]. unfold item_charge in Hr. rewrite Href in Hr.
  apply non_empty_ref_inv in Hr as [<- _]. unfold chosen, Settlement.approved in Hc.
  rewrite !andb_true_iff, bool_decide_eq_true in Hc. destruct Hc as [[[Ht _] Hs] _]. apply String.eqb_eq in Hs.
  by split_and!.
Qed.
(** The lines of a settlement charge some of these. *)
Lemma optional_charges b k : omap item_charge (Settlement.optional b k) `sublist_of` omap item_charge k.
Proof. destruct b; cbn; [done|apply sublist_nil_l]. Qed.
Lemma plain_charges b ty label x : omap item_charge (Settlement.optional b [Settlement.mkItem ty label x ""]) = [].
Proof. by destruct b. Qed.
Lemma advance_charges (adv : list Settlement.LineItem) x :
  omap item_charge (match adv with [] => [Settlement.mkItem "advances" "Advances & kharcha" x ""] | _ => adv end)
  = omap item_charge adv.
Proof. by destruct adv. Qed.
Lemma built_charges rate adv ded rate' tds section bonus :
  chargeable t (Settlement.buildLines rate adv (Settlement.advance_item <$> List.filter (chosen true) es) ded
    (Settlement.deduction_item <$> List.filter (chosen false) es) rate' tds section bonus) es.
Proof.
  set (l := Settlement.buildLines _ _ _ _ _ _ _ _ _).
  assert (Hall : omap item_charge l `sublist_of` omap item_charge charged_items).
  { unfold l, Settlement.buildLines, charged_items. cbn [omap list_omap].
    change (item_charge (Settlement.mkItem "gross_fare" (Settlement.fare_label rate) (Settlement.r_GrossFare rate) ""))
      with (@None string). rewrite !omap_app, !plain_charges, !app_nil_r, app_nil_l.
    apply sublist_app; [|apply optional_charges]. etrans; [apply optional_charges|]. by rewrite advance_charges. }
  split; [|eapply sublist_NoDup; [exact charged_once|exact Hall]].
  intros i r Hi Hr. unfold l, Settlement.buildLines in Hi.
  assert (Hin : i ∈ charged_items); [|by apply charged_backed].
  assert (Hplain : ∀ b ty label x, i ∉ Settlement.optional b [Settlement.mkItem ty label x ""]).
  { intros [] ty label x H; [|by apply not_elem_of_nil in H]. apply list_elem_of_singleton in H as ->. discriminate Hr. }
  apply elem_of_cons in Hi as [->|Hi]; [discriminate Hr|]. rewrite !elem_of_app in Hi.
  destruct Hi as [Hi|[Hi|[Hi|[Hi|Hi]]]]; try by apply Hplain in Hi.
  - destruct (Settlement.is_positive _); [|by apply not_elem_of_nil in Hi]. apply elem_of_app. left.
    destruct (Settlement.advance_item <$> _); [|done]. apply list_elem_of_singleton in Hi as ->. discriminate Hr.
  - destruct (Settlement.is_positive _); [|by apply not_elem_of_nil in Hi]. apply elem_of_app. by right.
Qed.
End Items.

Section Settle.
Context {env : Env} {gm : GoMath} {mj : Scorecard.MetaJson} (svc : Settlement.Service).
Abbreviation SeM := (XM Settlement.SettleTables Settlement.Outside).
Abbreviation SeState := (World * Settlement.SettleTables * Settlement.Outside)%type.

Lemma insert_each_charges id t items (σ σ' : SeState) r :
  Settlement.insert_each id t items σ = (r, σ') →
  Settlement.header_of id t (s_tables σ) → charges_ok (s_tables σ) →
  chargeable t items (Settlement.driver_expenses (s_tables σ)) → disjoint_charges items (s_tables σ) →
  charges_ok (s_tables σ') ∧ Settlement.driver_expenses (s_tables σ') = Settlement.driver_expenses (s_tables σ).
Proof.
  revert σ. unfold Settlement.insert_each. induction items as [|i items IH]; intros σ H Hh Hc [Hb Ho] Hd.
  { injection H as _ <-. done. }
  cbn [SM_iter] in H. apply bind_inv in H as [(e & H & ->)|([] & s1 & H & H')].
  - apply bind_inv in H as [(e' & H & _)|(u & s1 & H & H1)]; [apply core_inv in H as (w & _ & ->); done|].
    apply core_inv in H as (w & _ & ->). apply map_err_fail_inv in H1 as (e' & H1 & _).
    apply xstmt_inv in H1 as (_ & _ & H1 & _). by rewrite H1.
  - run_ok H. apply core_inv in Hrun as (w & _ & ->). apply map_err_ok_inv, xstmt_inv in H as (_ & _ & Hx).
    cbn [s_tables fst snd] in Hx.
    match type of Hx with context [Settlement.insert_line ?k _] => set (l := k) in * end.
    assert (Hl : charge_of l = item_charge i) by done.
    assert (Hs : s_tables s1 = snd (Settlement.insert_line l (s_tables σ))) by (by rewrite Hx).
    assert (Hk : Settlement.settlement_lines (s_tables s1) = Settlement.settlement_lines (s_tables σ) ++ [l] ∧
                 Settlement.driver_settlements (s_tables s1) = Settlement.driver_settlements (s_tables σ) ∧
                 Settlement.driver_expenses (s_tables s1) = Settlement.driver_expenses (s_tables σ)).
    { unfold Settlement.insert_line in Hx. destruct (existsb _ _); [discriminate Hx|]. injection Hx as <-. done. }
    destruct Hk as (Hk1 & Hk2 & Hk3). cbn [omap list_omap] in Ho.
    apply IH in H' as [H1 H2].
    + split; [done|congruence].
    + destruct Hh as (s & Hs1 & Hs2). exists s. by rewrite Hk2.
    + rewrite Hs. apply charge_line_ok; [done|done| |].
      * intros r' Hr'. apply (Hb i); [by left|congruence].
      * intros r' Hr'. apply (Hd i); [by left|congruence].
    + rewrite Hk3. split; [intros j r' Hj; apply Hb; by right|]. destruct (item_charge i); [by apply NoDup_cons in Ho as [_ Ho]|done].
    + intros j r' Hj Hr'. rewrite Hk1, omap_app. intros [Hin|Hin]%elem_of_app; [exact (Hd j r' (list_elem_of_further _ _ _ Hj) Hr' Hin)|].
      cbn in Hin. rewrite Hl in Hin. destruct (item_charge i) as [q|]; [|by apply not_elem_of_nil in Hin].
      apply list_elem_of_singleton in Hin as ->. apply NoDup_cons in Ho as [Ho _]. apply Ho.
      apply list_elem_of_omap. by exists j.
Qed.
(** *** The computation *)
Lemma compute_chargeable t d b r (σ σ' : SeState) c :
  NoDup (Settlement.x_ID <$> Settlement.driver_expenses (s_tables σ)) →
  Settlement.compute svc t d b r σ = (Ok c, σ') →
  chargeable t (Settlement.items_of c) (Settlement.driver_expenses (s_tables σ)).
Proof.
  intros Hids H. unfold Settlement.compute in H. run_ok H.
  assert (Hs : s_tables s = s_tables σ).
  { assert (Hp : preserves (on_tables eq) (Settlement.calculateGrossFare b r)).
    { unfold Settlement.calculateGrossFare, Settlement.getConfigFloat, Settlement.getConfig, Settlement.or_zero.
      preserve_tables ltac:(fun _ => fail). }
    specialize (Hp σ). rewrite Hrun in Hp. by symmetry. }
  run_ok H. unfold Settlement.getApprovedAdvances, Settlement.expenses in Hrun0. run_ok Hrun0.
  apply xquery_inv in Hrun1 as (_ & _ & Hs1 & Hv). injection Hrun0 as <- <-.
  run_ok H. unfold Settlement.getApprovedDeductions, Settlement.expenses in Hrun0. run_ok Hrun0.
  apply xquery_inv in Hrun1 as (_ & _ & Hs2 & Hw). injection Hrun0 as <- <-.
  run_ok H. destruct v0 as [[rate tds] section]. run_ok H. injection H as <- _.
  rewrite Hs1, Hs in Hw. rewrite Hs in Hv. subst v1 v2. unfold Settlement.items_of. cbn. by apply built_charges.
Qed.

(** *** The row, and then the lines *)
Definition no_lines_of (t : string) (b : Settlement.SettleTables) : Prop :=
  ∀ l, l ∈ Settlement.settlement_lines b → Settlement.l_TripID l ≠ t.
Lemma no_header_no_lines t b :
  charges_ok b → existsb (Settlement.by_trip t) (Settlement.driver_settlements b) = false → no_lines_of t b.
Proof.
  intros Hc Hn l Hl Ht. destruct (Settlement.bk_lines _ (ch_books _ Hc) l Hl) as (s & Hs & _ & Hst).
  assert (existsb (Settlement.by_trip t) (Settlement.driver_settlements b) = true); [|congruence].
  apply existsb_exists. exists s. split; [by apply list_elem_of_In|]. apply String.eqb_eq. congruence.
Qed.
Lemma cleared_no_lines t b s :
  charges_ok b → List.find (Settlement.by_trip t) (Settlement.driver_settlements b) = Some s →
  no_lines_of t (Settlement.set_lines (List.filter (λ l, negb (String.eqb (Settlement.l_SettlementID l) (Settlement.ID s)))
    (Settlement.settlement_lines b)) b).
Proof.
  intros Hc [Hs Ht]%find_some l Hl Hlt. cbn in Hl. apply filter_elem in Hl as [Hl Hn].
  destruct (Settlement.bk_lines _ (ch_books _ Hc) l Hl) as (s' & Hs' & Hi & Hst). apply String.eqb_eq in Ht.
  assert (s = s') as <-.
  { apply (NoDup_map_inj Settlement.TripID (Settlement.driver_settlements b));
      [exact (Settlement.bk_trips _ (ch_books _ Hc))|by apply list_elem_of_In|done|congruence]. }
  by rewrite Hi, String.eqb_refl in Hn.
Qed.
Lemma no_lines_disjoint t items b es :
  charges_ok b → no_lines_of t b → es = Settlement.driver_expenses b → chargeable t items es → disjoint_charges items b.
Proof.
  intros Hc Hn -> [Hb _] i r Hi Hr Hin. destruct (Hb i r Hi Hr) as (e & He & Hid & _ & Ht & _).
  apply list_elem_of_omap in Hin as (l & Hl & Hlr). destruct (ch_lines _ Hc l Hl r Hlr) as (f & Hf & Hif & _ & Htf & _).
  assert (e = f) as <- by (apply (NoDup_map_inj Settlement.x_ID (Settlement.driver_expenses b));
    [exact (ch_ids _ Hc)|done|done|congruence]).
  apply (Hn l Hl). congruence.
Qed.
Lemma write_row_charges force row t id (σ σ' : SeState) i :
  (∀ now, Settlement.ID (row now) = id ∧ Settlement.TripID (row now) = t) →
  Settlement.write_row force row t id σ = (Ok (Some i), σ') → charges_ok (s_tables σ) →
  charges_ok (s_tables σ') ∧ no_lines_of t (s_tables σ') ∧
  Settlement.driver_expenses (s_tables σ') = Settlement.driver_expenses (s_tables σ).
Proof.
  intros Hrow H Hc.
  assert (Hins : ∀ σ1 σ2 : SeState, s_tables σ1 = s_tables σ →
    xexec (λ now _ x, Settlement.insert_settlement (row (Settlement.timeStr now)) x) σ1 = (Ok tt, σ2) →
    charges_ok (s_tables σ2) ∧ no_lines_of t (s_tables σ2) ∧
    Settlement.driver_expenses (s_tables σ2) = Settlement.driver_expenses (s_tables σ)).
  { intros σ1 σ2 Ht Hx. apply xstmt_inv in Hx as (_ & _ & Hx). rewrite Ht in Hx.
    match type of Hx with Settlement.insert_settlement ?s _ = _ =>
      pose proof (insert_charges s (s_tables σ)) as [He Hk]; destruct (Hrow (Settlement.timeStr (db_now (w_stmts (s_world σ1))))) as [_ Htr] end.
    rewrite Hx in He, Hk. cbn [snd] in *. split; [by apply Hk|]. split; [|done].
    unfold Settlement.insert_settlement in Hx. rewrite Htr in Hx. destruct (existsb (Settlement.by_id _) _); [discriminate Hx|].
    destruct (existsb (Settlement.by_trip t) _) eqn:E; [discriminate Hx|]. injection Hx as <-.
    exact (no_header_no_lines t (s_tables σ) Hc E). }
  unfold Settlement.write_row in H. destruct force.
  - run_ok H. cbv [SM_try] in Hrun. destruct (xquery_row _ σ) as [r s1] eqn:Hq. injection Hrun as <- <-.
    apply xquery_row_inv in Hq as (_ & _ & Ht & Hq). destruct r as [old|e].
    + destruct (is_empty old); [discriminate H|]. run_ok H. run_ok H. injection H as <- <-.
      apply map_err_ok_inv, xwrite_inv in Hrun as (_ & _ & Hx). apply map_err_ok_inv, xwrite_inv in Hrun0 as (_ & _ & Hy).
      cbn [is_Ok] in *. rewrite Ht in Hx. destruct (List.find _ _) as [s0'|] eqn:Hf; [|discriminate Hq]. injection Hq as <-.
      rewrite Hy, Hx. destruct (clear_charges (Settlement.ID s0') (s_tables σ)) as [_ Hk].
      split; [by apply update_charges, Hk|]. split; [|done]. exact (cleared_no_lines t (s_tables σ) s0' Hc Hf).
    + destruct (is_no_rows e); [|discriminate H]. run_ok H. injection H as <- <-. destruct v.
      apply map_err_ok_inv in Hrun. by apply (Hins s1).
  - run_ok H. cbv [SM_try] in Hrun. destruct (xexec _ σ) as [r s1] eqn:Hq. injection Hrun as <- <-.
    destruct r as [[]|e]; [|destruct (Settlement.contains_unique e); discriminate H]. injection H as <- <-. by apply (Hins σ).
Qed.
Lemma store_body_charges force t driver c id (σ σ' : SeState) i :
  (r ← Settlement.write_row force (Settlement.new_row id t driver c) t id;
   match r with
   | Some id => _ ← Settlement.insert_each id t (Settlement.items_of c); mret (Some id)
   | None => mret None
   end) σ = (Ok (Some i), σ') →
  charges_ok (s_tables σ) → chargeable t (Settlement.items_of c) (Settlement.driver_expenses (s_tables σ)) →
  charges_ok (s_tables σ') ∧ Settlement.driver_expenses (s_tables σ') = Settlement.driver_expenses (s_tables σ).
Proof.
  intros Hr Hc Hch. run_ok Hr. destruct v as [j|]; [|discriminate Hr]. run_ok Hr. injection Hr as -> <-.
  pose proof Hrun as Hhead. apply write_row_charges in Hrun as (Hc1 & Hn & He); [|done|done].
  apply Settlement.write_row_books in Hhead as [Hh _]; [|done|by apply ch_books].
  rewrite <- He in Hch |- *. 
  eapply insert_each_charges; [exact Hrun0|exact Hh|exact Hc1|exact Hch|]. exact (no_lines_disjoint _ _ _ _ Hc1 Hn eq_refl Hch).
Qed.
Lemma store_charges force t driver c (σ σ' : SeState) r :
  Settlement.store_settlement svc force t driver c σ = (r, σ') → charges_ok (s_tables σ) →
  chargeable t (Settlement.items_of c) (Settlement.driver_expenses (s_tables σ)) →
  charges_ok (s_tables σ') ∧ Settlement.driver_expenses (s_tables σ') = Settlement.driver_expenses (s_tables σ).
Proof.
  intros H Hc Hch. unfold Settlement.store_settlement in H.
  apply bind_inv in H as [(e & H & _)|(u & s1 & H & H1)]; [apply core_inv in H as (w & _ & ->); done|].
  apply core_inv in H as (w & _ & ->). destruct (negb _); [injection H1 as _ <-; done|].
  apply bind_inv in H1 as [(e & H & _)|(now & s2 & H & H1)]; [apply core_inv in H as (w1 & _ & ->); done|].
  apply core_inv in H as (w1 & _ & ->). apply bind_inv in H1 as [(e & H & _)|(o & s3 & H & H1)].
  { apply xtransaction_opt_spec in H as [_ H]. by rewrite H. }
  assert (s_tables σ' = s_tables s3) as ->.
  { clear -H1. destruct o as [i|]; [|by injection H1 as _ <-].
    cbv [mbind SM_mbind SM_bind] in H1. destruct (Settlement.has_events svc); by injection H1 as _ <-. }
  apply xtransaction_opt_spec in H. destruct o as [i|]; [|by destruct H as [_ ->]].
  destruct H as (s4 & Hr & _ & -> & _). by apply store_body_charges in Hr.
Qed.

(** No settlement operation writes an expense. *)
Definition same_expenses (b b' : Settlement.SettleTables) : Prop :=
  Settlement.driver_expenses b' = Settlement.driver_expenses b.
#[local] Instance same_expenses_preorder : PreOrder same_expenses.
Proof. split; unfold same_expenses; [done|congruence]. Qed.
Lemma store_settlement_expenses force t d c (σ σ' : SeState) r :
  Settlement.store_settlement svc force t d c σ = (r, σ') →
  Settlement.driver_expenses (s_tables σ') = Settlement.driver_expenses (s_tables σ).
Proof.
  intros H. assert (Hp : preserves (on_tables same_expenses) (Settlement.store_settlement svc force t d c)).
  { unfold Settlement.store_settlement, Settlement.write_row, Settlement.insert_each, Settlement.emit.
    preserve_with ltac:(fun _ => first
      [ apply xtransaction_opt_on; [exact _|]; preserve_tables ltac:(fun _ => unfold same_expenses, Settlement.insert_settlement,
          Settlement.insert_line; cbn; repeat case_match; reflexivity)
      | tables_leaf ltac:(fun _ => fail) ]). }
  specialize (Hp σ). by rewrite H in Hp.
Qed.
Lemma read_then {A B} (m : SeM A) (f : A → SeM B) (σ σ' : SeState) r :
  preserves (on_tables eq) m → (m ≫= f) σ = (r, σ') →
  s_tables σ' = s_tables σ ∨ ∃ a s1, s_tables s1 = s_tables σ ∧ m σ = (Ok a, s1) ∧ f a s1 = (r, σ').
Proof.
  intros Hp H. specialize (Hp σ). apply bind_inv in H as [(e & H & _)|(a & s1 & H & H1)]; rewrite H in Hp; [by left|].
  right. by exists a, s1.
Qed.
Lemma find_reads t : preserves (on_tables eq) (Settlement.findByTripID t).
Proof. unfold Settlement.findByTripID, Settlement.not_found. preserve_tables ltac:(fun _ => fail). Qed.
Lemma bonus_reads d n : preserves (on_tables eq) (Settlement.bonus_for svc d n).
Proof. intros σ. unfold on_tables. destruct (Settlement.bonus_for svc d n σ) as [r s] eqn:H. by apply Settlement.bonus_tables in H. Qed.
Lemma Generate_charges t force : preserves (on_tables keeps_charges) (Settlement.GenerateSettlement svc t force).
Proof.
  intros σ. unfold on_tables. destruct (Settlement.GenerateSettlement svc t force σ) as [r σ'] eqn:H. cbn [snd].
  assert (Hsame : ∀ b, b = s_tables σ → keeps_charges (s_tables σ) b) by (intros b ->; reflexivity).
  unfold Settlement.GenerateSettlement in H. apply read_then in H; [|preserve_tables ltac:(fun _ => fail)].
  destruct H as [H|([[driver booking] route] & s1 & Hs1 & _ & H)]; [by apply Hsame|].
  destruct (nonempty driver) as [d|]; [|injection H as _ <-; by apply Hsame].
  apply read_then in H; [|preserve_with ltac:(fun _ => first [apply find_reads|tables_leaf ltac:(fun _ => fail)])].
  destruct H as [H|(existing & s2 & Hs2 & _ & H)]; [apply Hsame; congruence|].
  destruct existing as [s|]; [injection H as _ <-; apply Hsame; congruence|].
  assert (Hc : s_tables s2 = s_tables σ) by congruence. clear Hs1 Hs2.
  apply bind_inv in H as [(e & H & _)|(c & s3 & H & H1)].
  { apply Settlement.compute_tables in H. apply Hsame. congruence. }
  pose proof (Settlement.compute_tables _ _ _ _ _ _ _ _ H) as Hs3.
  assert (Hk : ∀ s4 r4, Settlement.store_settlement svc force t d c s3 = (r4, s4) → keeps_charges (s_tables σ) (s_tables s4)).
  { intros s4 r4 Hst. split.
    - apply store_settlement_expenses in Hst. congruence.
    - intros Hok. apply store_charges in Hst as [Hst _]; [done|congruence|]. rewrite Hs3.
      eapply compute_chargeable; [|exact H]. rewrite Hc. apply Hok. }
  apply bind_inv in H1 as [(e & Hst & _)|(o & s4 & Hst & Hf)]; [by apply Hk in Hst|].
  pose proof (find_reads t s4) as Hr. rewrite Hf in Hr. unfold on_tables in Hr. cbn [snd] in Hr. rewrite <- Hr. by apply Hk in Hst.
Qed.

Lemma perform_charges c : preserves (on_tables keeps_charges) (Settlement.perform svc c).
Proof.
  assert (Hsame : ∀ A (m : SeM A), preserves (on_tables eq) m → preserves (on_tables keeps_charges) m).
  { intros A m. apply preserves_weaken. intros s s'. unfold on_tables. intros ->. reflexivity. }
  assert (Hfind : ∀ t, preserves (on_tables keeps_charges) (Settlement.findByTripID t)) by (intros; apply Hsame, find_reads).
  destruct c; cbn [Settlement.perform]; [apply Generate_charges|..];
    unfold Settlement.MarkPaid, Settlement.ConfirmSettlement, Settlement.DisputeSettlement, Settlement.CreateSettlementForTrip,
      Settlement.ProcessFinancialSettlement, Settlement.stored_or, Settlement.not_found, Settlement.emit, Settlement.or_zero,
      Settlement.net_with_bonus, Settlement.insert_unless_there, Settlement.upsert_paid;
    preserve_with ltac:(fun _ => first
      [ apply Hfind | apply Hsame, bonus_reads
      | tables_leaf ltac:(fun _ => repeat case_match; cbn [snd]; first
          [ by apply update_charges | apply insert_charges | reflexivity ]) ]).
Qed.

End Settle.
(** ** The ledger *)
Record ledger_ok (x : Tables) : Prop := mkLedgerOk {
  lk_charges : charges_ok (view x);
  lk_keys : NoDup (omap sync_key (expenses x));
  lk_audits : NoDup (ca_ExpenseID <$> claim_audits x);
  lk_verdict : ∀ a, a ∈ claim_audits x → ∃ e, e ∈ expenses x ∧ ID e = ca_ExpenseID a ∧ AuditStatus e = ca_Result a;
  lk_audited : ∀ e, e ∈ expenses x → AuditStatus e ≠ "pending"%string →
    ∃ a, a ∈ claim_audits x ∧ ca_ExpenseID a = ID e }.
(** The invariant is kept, and no expense disappears. *)
Definition keeps (x x' : Tables) : Prop :=
  (ledger_ok x → ledger_ok x') ∧ ∀ id, id ∈ ID <$> expenses x → id ∈ ID <$> expenses x'.
#[local] Instance keeps_preorder : PreOrder keeps.
Proof. split; [by intros x|]. intros x y z [H1 H2] [H3 H4]. split; auto. Qed.

Lemma view_ids x : Settlement.x_ID <$> Settlement.driver_expenses (view x) = ID <$> expenses x.
Proof. cbn. by rewrite <- list_fmap_compose. Qed.
Lemma expense_ids x : ledger_ok x → NoDup (ID <$> expenses x).
Proof. intros H. rewrite <- view_ids. apply H. Qed.
Lemma one_expense x e f : ledger_ok x → e ∈ expenses x → f ∈ expenses x → ID e = ID f → e = f.
Proof. intros H. apply (NoDup_map_inj ID). by apply expense_ids. Qed.

Lemma books_ok_ext b b' :
  Settlement.driver_settlements b' = Settlement.driver_settlements b →
  Settlement.settlement_lines b' = Settlement.settlement_lines b → Settlement.books_ok b → Settlement.books_ok b'.
Proof. intros H1 H2 [B1 B2 B3]. split; rewrite ?H1, ?H2; done. Qed.
(** Other tables, and the books when their expenses stay. *)
Lemma keeps_other x x' :
  expenses x' = expenses x → claim_audits x' = claim_audits x → books x' = books x → keeps x x'.
Proof.
  intros He Ha Hb. split; [|by rewrite He]. intros [H1 H2 H3 H4 H5]. unfold view in *.
  split; rewrite ?He, ?Ha, ?Hb; try done. unfold view. by rewrite He, Hb.
Qed.
Lemma keeps_books b x : (charges_ok (view x) → charges_ok (view (set_books b x))) → keeps x (set_books b x).
Proof. intros Hb. split; [|done]. intros [H1 H2 H3 H4 H5]. split; [by apply Hb|done..]. Qed.

(** *** A new expense *)
Lemma backed_more l es e : line_backed l es → line_backed l (es ++ [e]).
Proof. intros H r Hr. destruct (H r Hr) as (f & Hf & Hb). exists f. split; [|done]. apply elem_of_app. by left. Qed.
Lemma insert_keeps e x : AuditStatus e = "pending"%string → keeps x (snd (insert_expense e x)).
Proof.
  intros Hp. unfold insert_expense. destruct (is_nan _); [done|]. destruct (existsb (by_id _) _) eqn:Hid; [done|].
  destruct (existsb (same_key _) _) eqn:Hkey; [done|]. cbn [snd]. split.
  2:{ intros id Hi. cbn. rewrite fmap_app. apply elem_of_app. by left. }
  assert (Hfresh : ∀ f, f ∈ expenses x → ID f ≠ ID e).
  { intros f Hf Heq. assert (existsb (by_id (ID e)) (expenses x) = true); [|congruence].
    apply existsb_exists. exists f. split; [by apply list_elem_of_In|]. by apply String.eqb_eq. }
  intros H. pose proof (expense_ids x H) as Hids. destruct H as [[H1 H2 H3 H4] H5 H6 H7 H8]. split; cbn.
  - split; [by apply (books_ok_ext (view x))| | |exact H4].
    + cbn. rewrite (fmap_app settled_view). apply (NoDup_map_snoc Settlement.x_ID); [done|].
      intros s Hs. apply list_elem_of_fmap in Hs as (f & -> & Hf). cbn. by apply Hfresh.
    + intros l Hl. cbn. rewrite fmap_app. apply backed_more. by apply H3.
  - rewrite omap_app. apply NoDup_app. split; [done|]. cbn. destruct (sync_key e) as [k|] eqn:Ek; cbn.
    + split; [|apply NoDup_singleton]. intros k' Hk Hk'. apply list_elem_of_singleton in Hk' as ->.
      apply list_elem_of_omap in Hk as (f & Hf & Hfk).
      assert (existsb (same_key e) (expenses x) = true); [|congruence]. apply existsb_exists. exists f.
      split; [by apply list_elem_of_In|]. unfold same_key. rewrite Ek, Hfk. apply String.eqb_refl.
    + split; [|constructor]. intros k _ Hk. by apply not_elem_of_nil in Hk.
  - done.
  - intros a Ha. destruct (H7 a Ha) as (f & Hf & Hr). exists f. split; [|done]. apply elem_of_app. by left.
  - intros f Hf Hs. apply elem_of_app in Hf as [Hf|Hf]; [by apply H8|]. apply list_elem_of_singleton in Hf as ->. congruence.
Qed.

(** *** A change of status *)
Section Updates.
Context (p : ExpenseRow → bool) (f : ExpenseRow → ExpenseRow).
Definition upd (e : ExpenseRow) : ExpenseRow := if p e then f e else e.
Lemma upd_elem x e : e ∈ expenses (update_expenses p f x) ↔ ∃ e0, e = upd e0 ∧ e0 ∈ expenses x.
Proof. apply list_elem_of_fmap. Qed.
Lemma upd_keys {B} (k : ExpenseRow → B) x : (∀ e, k (f e) = k e) → k <$> expenses (update_expenses p f x) = k <$> expenses x.
Proof.
  intros Hk. cbn. rewrite <- list_fmap_compose. apply list_fmap_ext. intros i e _. cbn. by destruct (p e).
Qed.
Lemma upd_sync x : (∀ e, sync_key (f e) = sync_key e) → omap sync_key (expenses (update_expenses p f x)) = omap sync_key (expenses x).
Proof.
  intros Hk. cbn. induction (expenses x) as [|e l IH]; [done|]. cbn. rewrite IH.
  assert (sync_key (if p e then f e else e) = sync_key e) as -> by (by destruct (p e)). done.
Qed.
End Updates.
Lemma status_keeps p s by_ at_ reason x :
  (∀ e, p e = true → Kharcha.pending e = true) →
  keeps x (update_expenses p (λ e, set_status s (by_ e) (at_ e) (reason e) e) x).
Proof.
  intros Hp. split; [|intros id Hi; by rewrite (upd_keys _ _ ID)]. intros H. pose proof (expense_ids x H) as Hids.
  destruct H as [[H1 H2 H3 H4] H5 H6 H7 H8]. set (f := λ e, set_status _ _ _ _ e). split.
  - split; [by apply (books_ok_ext (view x))|rewrite view_ids; by rewrite (upd_keys p f ID)| |exact H4].
    intros l Hl r Hr. destruct (H3 l Hl r Hr) as (e & He & Hb). cbn in He. apply list_elem_of_fmap in He as (e0 & -> & He).
    exists (settled_view (upd p f e0)). split.
    + cbn. apply list_elem_of_fmap. exists (upd p f e0). split; [done|]. apply upd_elem. by exists e0.
    + unfold upd. destruct (p e0) eqn:E; [|done]. exfalso. apply Hp in E. unfold Kharcha.pending in E.
      apply String.eqb_eq in E. destruct Hb as (_ & Hs & _). cbn in Hs. congruence.
  - by rewrite upd_sync.
  - done.
  - intros a Ha. destruct (H7 a Ha) as (e & He & Hi & Hr). exists (upd p f e). split; [apply upd_elem; by exists e|].
    unfold upd. by destruct (p e).
  - intros e He Hs. apply upd_elem in He as (e0 & -> & He). destruct (H8 e0 He) as (a & Ha & Hi).
    + intros Hpe. apply Hs. unfold upd. by destruct (p e0).
    + exists a. split; [done|]. rewrite Hi. unfold upd. by destruct (p e0).
Qed.

(** *** A verdict: the row of the audit and the status together *)
Lemma set_audit_view v p x : view (update_expenses p (set_audit_status v) x) = view x.
Proof.
  unfold view. f_equal. cbn. rewrite <- list_fmap_compose. apply list_fmap_ext. intros i e _. cbn. by destruct (p e).
Qed.
Record verdict_written (id v : string) (x x1 : Tables) : Prop := mkWritten {
  vw_expenses : expenses x1 = expenses x;
  vw_books : books x1 = books x;
  vw_nodup : NoDup (ca_ExpenseID <$> claim_audits x1);
  vw_rows : ∀ a, a ∈ claim_audits x1 → if String.eqb (ca_ExpenseID a) id then ca_Result a = v else a ∈ claim_audits x;
  vw_kept : ∀ a, a ∈ claim_audits x → ca_ExpenseID a ∈ ca_ExpenseID <$> claim_audits x1;
  vw_there : id ∈ ca_ExpenseID <$> claim_audits x1 }.
Lemma verdict_ok id v x x1 :
  ledger_ok x → id ∈ ID <$> expenses x → verdict_written id v x x1 →
  ledger_ok (update_expenses (by_id id) (set_audit_status v) x1).
Proof.
  intros [H1 H2 H3 H4 H5] Hid [V1 V2 V3 V4 V5 V6]. split.
  - rewrite set_audit_view. unfold view. by rewrite V1, V2.
  - rewrite upd_sync by done. by rewrite V1.
  - exact V3.
  - intros a Ha. cbn in Ha. specialize (V4 a Ha). destruct (String.eqb_spec (ca_ExpenseID a) id) as [Hi|Hn].
    + apply list_elem_of_fmap in Hid as (e & -> & He). exists (upd (by_id (ID e)) (set_audit_status v) e). split.
      { apply upd_elem. exists e. by rewrite V1. }
      unfold upd, by_id. by rewrite String.eqb_refl.
    + destruct (H4 a V4) as (e & He & Hie & Hr). exists (upd (by_id id) (set_audit_status v) e). split.
      { apply upd_elem. exists e. by rewrite V1. }
      assert (by_id id e = false) as Hb by (apply String.eqb_neq; congruence). unfold upd. by rewrite Hb.
  - intros e He Hs. apply upd_elem in He as (e0 & -> & He). rewrite V1 in He.
    assert (Hx : ID (upd (by_id id) (set_audit_status v) e0) = ID e0) by (unfold upd; by destruct (by_id id e0)). rewrite Hx.
    unfold upd in Hs. destruct (by_id id e0) eqn:E.
    + apply String.eqb_eq in E. rewrite E. apply list_elem_of_fmap in V6 as (a & Ha & Hin). by exists a.
    + destruct (H5 e0 He Hs) as (a & Ha & Hi). apply V5 in Ha. rewrite Hi in Ha.
      apply list_elem_of_fmap in Ha as (a' & Ha & Hin). by exists a'.
Qed.
Lemma upsert_written a x x1 :
  NoDup (ca_ExpenseID <$> claim_audits x) → FuelClaims.upsert_audit a x = (Ok tt, x1) →
  verdict_written (ca_ExpenseID a) (ca_Result a) x x1.
Proof.
  intros Hnd. unfold FuelClaims.upsert_audit. destruct (existsb (FuelClaims.by_expense _) _) eqn:E.
  - intros [= <-].
    set (g := λ b, if FuelClaims.by_expense (ca_ExpenseID a) b then FuelClaims.take_over a b else b).
    assert (Hk : ca_ExpenseID <$> (g <$> claim_audits x) = ca_ExpenseID <$> claim_audits x).
    { rewrite <- list_fmap_compose. apply list_fmap_ext. intros i b _. unfold g. cbn. by destruct (FuelClaims.by_expense _ b). }
    split; cbn; try done.
    + by rewrite Hk.
    + intros b Hb. apply list_elem_of_fmap in Hb as (c & -> & Hc). unfold g, FuelClaims.by_expense.
      destruct (String.eqb (ca_ExpenseID c) (ca_ExpenseID a)) eqn:Ec; cbn; by rewrite Ec.
    + intros b Hb. fold g. rewrite Hk. apply list_elem_of_fmap. by exists b.
    + fold g. rewrite Hk. apply existsb_exists in E as (b & Hb & Eb). apply String.eqb_eq in Eb. rewrite <- Eb.
      apply list_elem_of_fmap. exists b. split; [done|]. by apply list_elem_of_In.
  - destruct (existsb (λ b, String.eqb (ca_ID b) _) _); [done|]. intros [= <-]. split; cbn; try done.
    + apply (NoDup_map_snoc ca_ExpenseID); [done|]. intros b Hb He.
      assert (existsb (FuelClaims.by_expense (ca_ExpenseID a)) (claim_audits x) = true); [|congruence].
      apply existsb_exists. exists b. split; [by apply list_elem_of_In|]. by apply String.eqb_eq.
    + intros b Hb. apply elem_of_app in Hb as [Hb|Hb].
      * destruct (String.eqb_spec (ca_ExpenseID b) (ca_ExpenseID a)) as [He|_]; [|done]. exfalso.
        assert (existsb (FuelClaims.by_expense (ca_ExpenseID a)) (claim_audits x) = true); [|congruence].
        apply existsb_exists. exists b. split; [by apply list_elem_of_In|]. by apply String.eqb_eq.
      * apply list_elem_of_singleton in Hb as ->. by rewrite String.eqb_refl.
    + intros b Hb. rewrite fmap_app. apply elem_of_app. left. apply list_elem_of_fmap. by exists b.
    + rewrite fmap_app. apply elem_of_app. right. by apply list_elem_of_singleton.
Qed.
Lemma review_written id v by_ note at_ x :
  NoDup (ca_ExpenseID <$> claim_audits x) → id ∈ ca_ExpenseID <$> claim_audits x →
  verdict_written id v x (set_claim_audits
    ((λ a, if FuelClaims.by_expense id a then FuelClaims.reviewed v by_ note at_ a else a) <$> claim_audits x) x).
Proof.
  intros Hnd Hid. set (g := λ a, if FuelClaims.by_expense id a then _ else a).
  assert (Hk : ca_ExpenseID <$> (g <$> claim_audits x) = ca_ExpenseID <$> claim_audits x).
  { rewrite <- list_fmap_compose. apply list_fmap_ext. intros i b _. unfold g. cbn. by destruct (FuelClaims.by_expense _ b). }
  split; cbn; rewrite ?Hk; try done.
  - intros b Hb. apply list_elem_of_fmap in Hb as (c & -> & Hc). unfold g, FuelClaims.by_expense.
    destruct (String.eqb (ca_ExpenseID c) id) eqn:Ec; cbn; by rewrite Ec.
  - intros b Hb. apply list_elem_of_fmap. by exists b.
Qed.

(** ** The operations *)
#[local] Existing Instance Fastag.only_tolls_preorder.
Lemma only_tolls_keeps x x' : Fastag.only_tolls x x' → keeps x x'.
Proof. intros (H1 & H2 & H3). by apply keeps_other. Qed.
Lemma on_books_keeps {A} (q : Settlement.SettleTables → result A * Settlement.SettleTables) x :
  (∀ es b, snd (q (with_expenses es b)) = with_expenses es (snd (q b))) →
  keeps_charges (view x) (snd (q (view x))) → keeps x (snd (Kharcha.on_books q x)).
Proof.
  intros Hq [_ Hk]. unfold Kharcha.on_books. pose proof (Hq (settled_view <$> expenses x) (books x)) as E.
  destruct (q (books x)) as [r b]. cbn [snd] in *. apply keeps_books. intros Hc. apply Hk in Hc. unfold view in *.
  rewrite E in Hc. exact Hc.
Qed.
Lemma deduct_keeps sid am x : keeps x (snd (Kharcha.on_books (Kharcha.deduct_from sid am) x)).
Proof.
  apply on_books_keeps; [intros es b; unfold Kharcha.deduct_from; cbn; by case_match|].
  unfold Kharcha.deduct_from. case_match; [reflexivity|]. cbn [snd]. apply update_charges. intros s.
  unfold Kharcha.deduct. by case_match.
Qed.

Section Operations.
Context {env : Env} {gm : GoMath} {mj : Scorecard.MetaJson}.

Lemma legacy_audit_same P `{!PreOrder P} a t r v : preserves (on_tables P) (Kharcha.logAudit a t r v).
Proof. unfold Kharcha.logAudit. preserve_tables ltac:(fun _ => fail). Qed.

(** The line of an approval, under the settlement of the trip. *)
Lemma charge_line_keeps l x :
  ledger_ok x → Settlement.header_of (Settlement.l_SettlementID l) (Settlement.l_TripID l) (books x) →
  line_backed l (settled_view <$> expenses x) →
  (∀ r, charge_of l = Some r → r ∉ omap charge_of (Settlement.settlement_lines (books x))) →
  ledger_ok (snd (Kharcha.on_books (Settlement.insert_line l) x)).
Proof.
  intros Hok Hh Hb Hn. pose proof (charge_line_ok l (view x) Hh (lk_charges _ Hok) Hb Hn) as Hc.
  unfold Kharcha.on_books. destruct (Settlement.insert_line l (books x)) as [r b] eqn:E. cbn [snd].
  destruct (keeps_books b x) as [Hk _]; [|by apply Hk]. intros _. unfold view in *. revert Hc E. unfold Settlement.insert_line. cbn.
  destruct (existsb _ _); intros Hc [= _ <-]; exact Hc.
Qed.
Lemma settlement_of_trip t d x sid :
  Settlement.ID <$> List.find (λ s, String.eqb (Settlement.TripID s) t && String.eqb (Settlement.DriverID s) d)
    (Settlement.driver_settlements (books x)) = Some sid → Settlement.header_of sid t (books x).
Proof.
  destruct (List.find _ _) as [s|] eqn:E; [|done]. intros [= <-]. apply find_some in E as [Hs Ht].
  apply andb_true_iff in Ht as [Ht _]. apply String.eqb_eq in Ht. exists s. split_and!; [by apply list_elem_of_In|done..].
Qed.
Lemma deduct_tables sid am x (x' := snd (Kharcha.on_books (Kharcha.deduct_from sid am) x)) :
  expenses x' = expenses x ∧ Settlement.settlement_lines (books x') = Settlement.settlement_lines (books x) ∧
  ∀ i t, Settlement.header_of i t (books x) → Settlement.header_of i t (books x').
Proof.
  unfold x', Kharcha.on_books, Kharcha.deduct_from. destruct (existsb _ _); cbn; [done|]. split_and!; [done..|].
  intros i t. apply Settlement.update_header. intros s. unfold Kharcha.deduct. by case_match.
Qed.
Definition approved_now (id t : string) (am : float64) (x : Tables) : Prop :=
  ∃ e, e ∈ expenses x ∧ ID e = id ∧ Status e = "approved"%string ∧ TripID e = Some t ∧ Amount e = am.
Definition not_charged (id : string) (x : Tables) : Prop :=
  id ∉ omap charge_of (Settlement.settlement_lines (books x)).
Lemma charge_settlement_ok id t d am (σ σ' : State) r :
  Kharcha.charge_settlement id t d am σ = (r, σ') → ledger_ok (s_tables σ) →
  approved_now id t am (s_tables σ) → not_charged id (s_tables σ) → ledger_ok (s_tables σ').
Proof.
  intros H Hok Ha Hn. unfold Kharcha.charge_settlement in H. cbv [mbind SM_mbind SM_bind SM_try SM_ignore] in H.
  destruct (xquery_row _ σ) as [rc s1] eqn:H1. apply xquery_row_inv in H1 as (_ & _ & H1 & _).
  destruct (xquery_row _ s1) as [rs s2] eqn:H2. apply xquery_row_inv in H2 as (_ & _ & H2 & Hs).
  destruct rs as [sid|e]; [|injection H as _ <-; by rewrite H2, H1].
  destruct (is_empty sid); [injection H as _ <-; by rewrite H2, H1|].
  destruct (xexec _ s2) as [rd s3] eqn:H3. cbn [snd] in H. destruct (core GenerateUUID s3) as [ru s4] eqn:H4.
  pose proof (core_inv _ _ _ _ H4) as [w [_ E4]].
  assert (Hd : s_tables s3 = s_tables s2 ∨ s_tables s3 = snd (Kharcha.on_books (Kharcha.deduct_from sid am) (s_tables s2))).
  { apply xstmt_inv in H3 as (_ & _ & H3). destruct rd as [[]|e]; [right; by rewrite H3|left; by destruct H3]. }
  rewrite H2, H1 in Hd. rewrite H1 in Hs.
  assert (Hok3 : ledger_ok (s_tables s3) ∧ approved_now id t am (s_tables s3) ∧ not_charged id (s_tables s3) ∧
                 Settlement.header_of sid t (books (s_tables s3))).
  { apply settlement_of_trip in Hs. destruct Hd as [-> | ->]; [done|].
    destruct (deduct_tables sid am (s_tables σ)) as (D1 & D2 & D3). unfold approved_now, not_charged. rewrite D1, D2.
    split_and!; [by apply deduct_keeps|done|done|by apply D3]. }
  destruct Hok3 as (Hok3 & (e & He & Hi & Hst & Ht & Ham) & Hn3 & Hh3). clear Hd.
  destruct ru as [lid|e']; [|injection H as _ <-; by subst s4].
  destruct (xexec _ s4) as [rl s5] eqn:H5. injection H as _ <-. apply xstmt_inv in H5 as (_ & _ & H5). subst s4. cbn [s_tables fst snd] in H5.
  destruct rl as [[]|e']; [|destruct H5 as [-> _]; done].
  match type of H5 with Kharcha.on_books (Settlement.insert_line ?k) _ = _ =>
    pose proof (charge_line_keeps k (s_tables s3) Hok3 Hh3) as Hk end.
  rewrite H5 in Hk. apply Hk.
  - intros q Hq. apply non_empty_ref_inv in Hq as [Hq _]. cbn in Hq. exists (settled_view e). split.
    { apply list_elem_of_fmap. by exists e. }
    split_and!; cbn; [congruence|done|done|by rewrite Ham].
  - intros q Hq. apply non_empty_ref_inv in Hq as [Hq _]. cbn in Hq. by rewrite <- Hq.
Qed.
Lemma update_pending_keeps id s by_ at_ reason :
  preserves (on_tables keeps) (Kharcha.update_pending id (λ e, set_status s (by_ e) (at_ e) (reason e) e)).
Proof.
  unfold Kharcha.update_pending. preserve_tables ltac:(fun _ => cbn [snd]; apply status_keeps; intros e He;
    apply andb_true_iff in He; apply He).
Qed.
(** A pending expense is on no line. *)
Lemma pending_not_charged id e x :
  ledger_ok x → e ∈ expenses x → ID e = id → Kharcha.pending e = true → not_charged id x.
Proof.
  intros Hok He Hi Hp Hin. apply list_elem_of_omap in Hin as (l & Hl & Hr).
  destruct (ch_lines _ (lk_charges _ Hok) l Hl id Hr) as (f & Hf & Hif & Hsf & _).
  cbn in Hf. apply list_elem_of_fmap in Hf as (f0 & -> & Hf). cbn in *.
  assert (e = f0) as <- by (apply (one_expense x); [done..|congruence]).
  unfold Kharcha.pending in Hp. apply String.eqb_eq in Hp. congruence.
Qed.
Lemma find_expense_spec id x e : find_expense id x = Some e → e ∈ expenses x ∧ ID e = id.
Proof. intros [He Hi]%find_some. split; [by apply list_elem_of_In|by apply String.eqb_eq]. Qed.

Definition approve_body (id by_ : string) : LM unit :=
  now ← core Now;
  _ ← Kharcha.audit_gate id;
  n ← Kharcha.update_pending id (λ e, set_status "approved" (Some by_) (Some now) (RejectedReason e) e);
  if n =? 0 then SM_fail Kharcha.processed_already
  else
    e ← xquery_row (λ _ _ x, find_expense id x);
    let tripID := or_empty (TripID e) in
    let driverID := or_empty (DriverID e) in
    if is_empty tripID || is_empty driverID then mret tt
    else Kharcha.charge_settlement id tripID driverID (Amount e).
Lemma gate_same P `{!PreOrder P} id : preserves (on_tables P) (Kharcha.audit_gate id).
Proof. unfold Kharcha.audit_gate, Kharcha.fuelAuditEnforce. preserve_tables ltac:(fun _ => fail). Qed.
Lemma approve_body_ok id by_ (σ σ' : State) :
  approve_body id by_ σ = (Ok tt, σ') → ledger_ok (s_tables σ) → ledger_ok (s_tables σ').
Proof.
  intros H Hok. unfold approve_body in H. run_ok H. apply core_inv in Hrun as [w [_ ->]]. run_ok H.
  pose proof (gate_same eq id (w, s_tables σ, s_out σ)) as Hg. rewrite Hrun in Hg. unfold on_tables in Hg. cbn in Hg.
  run_ok H. apply xstmt_inv in Hrun0 as (_ & _ & Hx). rewrite <- Hg in Hx. injection Hx as Hn Hx.
  destruct (v1 =? 0) eqn:En; [discriminate H|]. run_ok H. apply xquery_row_inv in Hrun0 as (_ & _ & Ht & Hf).
  set (f := λ e, set_status _ _ _ _ e) in *. set (hit := λ e, by_id id e && Kharcha.pending e) in *.
  assert (Hk : keeps (s_tables σ) (s_tables s0)).
  { rewrite <- Hx. apply status_keeps. intros e He. apply andb_true_iff in He. apply He. }
  destruct (is_empty _ || is_empty _) eqn:Ee; [injection H as <-; rewrite Ht; by apply Hk|].
  assert (Hhit : ∃ e0, e0 ∈ expenses (s_tables σ) ∧ hit e0 = true).
  { unfold count_expenses in Hn. destruct (List.filter hit (expenses (s_tables σ))) as [|e0 l] eqn:E; [by subst v1|].
    exists e0. apply filter_elem. rewrite E. by left. }
  destruct Hhit as (e0 & He0 & Hh). apply andb_true_iff in Hh as [Hi0 Hp0]. apply String.eqb_eq in Hi0.
  eapply charge_settlement_ok; [exact H|rewrite Ht; by apply Hk| |].
  - apply find_expense_spec in Hf as [Hv Hi]. exists v2. rewrite Ht. split_and!; [done|done| | |done].
    + rewrite <- Hx in Hv. apply upd_elem in Hv as (e1 & -> & He1). unfold upd in Hi |- *.
      assert (e1 = e0) as ->.
      { apply (one_expense (s_tables σ)); [done..|]. destruct (hit e1); cbn in Hi; congruence. }
      assert (hit e0 = true) as -> by (unfold hit, by_id; by rewrite Hi0, String.eqb_refl, Hp0). done.
    + apply orb_false_iff in Ee as [Ee _]. by destruct (TripID v2).
  - rewrite Ht. unfold not_charged. rewrite <- Hx. exact (pending_not_charged id e0 (s_tables σ) Hok He0 Hi0 Hp0).
Qed.
(** Errors are kept out by the transaction; what it commits is sound. *)
Definition keeps_ok (x x' : Tables) : Prop := ledger_ok x → ledger_ok x'.
#[local] Instance keeps_ok_preorder : PreOrder keeps_ok.
Proof. split; unfold keeps_ok; [by intros x|]. intros x y z. auto. Qed.
Lemma keeps_weak (A : Type) (m : LM A) : preserves (on_tables keeps) m → preserves (on_tables keeps_ok) m.
Proof. apply preserves_weaken. intros s s' [H _]. exact H. Qed.
Lemma xtransaction_ok {A} (m : LM A) :
  (∀ s a s', m s = (Ok a, s') → ledger_ok (s_tables s) → ledger_ok (s_tables s')) → preserves (on_tables keeps_ok) (xtransaction m).
Proof.
  intros Hm s. unfold on_tables, keeps_ok. destruct (xtransaction m s) as [r s'] eqn:H. apply xtransaction_spec in H. cbn [snd].
  destruct r as [a|e]; [|by destruct H as [_ ->]]. destruct H as (s1 & H & _ & -> & _). apply (Hm _ _ _ H).
Qed.
Lemma Approve_ok id by_ : preserves (on_tables keeps_ok) (Kharcha.ApproveExpense id by_).
Proof.
  unfold Kharcha.ApproveExpense. apply preserves_bind; [exact _| |intros []; apply legacy_audit_same; exact _].
  apply xtransaction_ok. intros s [] s'. apply approve_body_ok.
Qed.
Lemma Reject_ok id by_ reason : preserves (on_tables keeps) (Kharcha.RejectExpense id by_ reason).
Proof.
  unfold Kharcha.RejectExpense. preserve_with ltac:(fun _ => first [apply update_pending_keeps|apply legacy_audit_same; exact _]).
Qed.
Lemma Create_ok o : preserves (on_tables keeps) (Kharcha.CreateExpenseWithOpts o).
Proof.
  unfold Kharcha.CreateExpenseWithOpts, Kharcha.by_sync_key.
  preserve_with ltac:(fun _ => first [apply legacy_audit_same; exact _|tables_leaf ltac:(fun _ => by apply insert_keeps)]).
Qed.

(** *** The audit *)
Section Audit.
Context (column_text : Time → string).
Definition known (id : string) (x : Tables) : Prop := id ∈ ID <$> expenses x.
Lemma write_audit_ok c m e v (σ σ' : State) r :
  FuelClaims.write_audit c m e v σ = (r, σ') → known (FuelClaims.r_expenseID c) (s_tables σ) → ledger_ok (s_tables σ) →
  ledger_ok (s_tables σ') ∧ ID <$> expenses (s_tables σ') = ID <$> expenses (s_tables σ).
Proof.
  intros H Hid Hok. apply xtransaction_spec in H. destruct r as [[]|err]; [|by destruct H as [_ ->]].
  destruct H as (s1 & H & _ & -> & _). run_ok H. apply core_inv in Hrun as [w [_ ->]]. run_ok H.
  apply xstmt_inv in Hrun as (_ & _ & Hu). destruct v1. cbn [s_tables fst snd] in Hu.
  apply xwrite_inv in H as (_ & _ & Hw). cbn [is_Ok] in Hw. rewrite Hw.
  apply upsert_written in Hu as Hv; [|apply Hok].
  assert (Hx : ∃ id' res, FuelClaims.audit_row c m e v v0 = id' ∧ ca_ExpenseID id' = FuelClaims.r_expenseID c ∧ ca_Result id' = res ∧
            res = fst (fst v)).
  { unfold FuelClaims.audit_row. destruct v as [[res vl] vp]. by eexists _, _. }
  destruct Hx as (row & res & Hr & He & Hres & ->). rewrite Hr, He, Hres in Hv. split; [by eapply verdict_ok|].
  rewrite upd_keys by done. by rewrite (vw_expenses _ _ _ _ Hv).
Qed.
Lemma audit_reads {A} (m : LM A) (σ σ' : State) r : preserves (on_tables eq) m → m σ = (r, σ') → s_tables σ' = s_tables σ.
Proof. intros Hp H. specialize (Hp σ). by rewrite H in Hp. Qed.
Lemma window_same P `{!PreOrder P} c : preserves (on_tables P) (FuelClaims.claimWindowStart column_text c).
Proof. unfold FuelClaims.claimWindowStart. preserve_tables ltac:(fun _ => fail). Qed.
Lemma auditOne_ok cfg c (σ σ' : State) r :
  FuelClaims.auditOne column_text cfg c σ = (r, σ') → known (FuelClaims.r_expenseID c) (s_tables σ) → ledger_ok (s_tables σ) →
  ledger_ok (s_tables σ') ∧ ID <$> expenses (s_tables σ') = ID <$> expenses (s_tables σ).
Proof.
  intros H Hid Hok. unfold FuelClaims.auditOne in H. destruct (is_empty _); [injection H as _ <-; done|].
  assert (Hread : ∀ A B (m : LM A) (f : A → LM B) (s s' : State) r', preserves (on_tables eq) m → (m ≫= f) s = (r', s') →
    s_tables s = s_tables σ → s_tables s' = s_tables σ ∨ ∃ a s1, s_tables s1 = s_tables σ ∧ f a s1 = (r', s')).
  { intros A B m f s s' r' Hp Hm Hs. apply bind_inv in Hm as [(e & Hm & _)|(a & s1 & Hm & Hf)];
      apply audit_reads in Hm; [left|done|right|done]; [congruence|]. exists a, s1. split; [congruence|done]. }
  apply Hread in H; [|unfold FuelClaims.vehicleMeta; preserve_tables ltac:(fun _ => fail)|done].
  destruct H as [->|(m & s1 & H1 & H)]; [done|]. apply Hread in H; [|apply window_same; exact _|done].
  destruct H as [->|(w & s2 & H2 & H)]; [done|].
  apply Hread in H; [|unfold FuelClaims.refillsInWindow; preserve_tables ltac:(fun _ => fail)|done].
  destruct H as [->|(refills & s3 & H3 & H)]; [done|].
  apply Hread in H; [|unfold FuelClaims.odometerDelta; preserve_tables ltac:(fun _ => fail)|done].
  destruct H as [->|(delta & s4 & H4 & H)]; [done|]. apply write_audit_ok in H; rewrite ?H4; [|done..].
  by rewrite H4 in H.
Qed.
Lemma audit_all_ok cfg cs n (σ σ' : State) r :
  FuelClaims.audit_all column_text cfg cs n σ = (r, σ') → (∀ c, c ∈ cs → known (FuelClaims.r_expenseID c) (s_tables σ)) →
  ledger_ok (s_tables σ) → ledger_ok (s_tables σ').
Proof.
  revert n σ. induction cs as [|c cs IH]; intros n σ H Hid Hok; cbn [FuelClaims.audit_all] in H; [by injection H as _ <-|].
  cbv [mbind SM_mbind SM_bind SM_try] in H. destruct (FuelClaims.auditOne _ _ c σ) as [r1 s1] eqn:H1.
  apply auditOne_ok in H1 as [Hok1 Hk]; [|apply Hid; by left|done]. eapply IH; [exact H| |done].
  intros d Hd. unfold known. rewrite Hk. apply Hid. by right.
Qed.
Lemma order_by_elem {A} (le : A → A → bool) l x : x ∈ order_by le l ↔ x ∈ l.
Proof. apply order_by_in. Qed.
Lemma Audit_ok : preserves (on_tables keeps_ok) (FuelClaims.AuditPendingClaims column_text).
Proof.
  intros σ. unfold on_tables, keeps_ok. destruct (FuelClaims.AuditPendingClaims column_text σ) as [r σ'] eqn:H. cbn [snd].
  intros Hok. unfold FuelClaims.AuditPendingClaims in H.
  assert (Hc : preserves (on_tables eq) FuelClaims.loadAuditConfig).
  { unfold FuelClaims.loadAuditConfig, FuelClaims.in_config. apply FuelConfig.zoom_tables. exact _. }
  apply bind_inv in H as [(e & H & _)|(cfg & s1 & H & H1)]; apply audit_reads in H; [by rewrite H|done| |done].
  apply bind_inv in H1 as [(e & H1 & _)|(cs & s2 & H1 & H2)].
  - apply map_err_fail_inv in H1 as (e' & H1 & _). apply xquery_inv in H1 as (_ & _ & H1 & _). by rewrite H1, H.
  - apply map_err_ok_inv, xquery_inv in H1 as (_ & _ & H1 & Hcs). eapply audit_all_ok; [exact H2| |by rewrite H1, H].
    intros c Hin. subst cs. apply list_elem_of_fmap in Hin as (e & -> & He). unfold Kharcha.oldest_first in He.
    apply order_by_elem, filter_elem in He as [He _]. unfold known. rewrite H1. apply list_elem_of_fmap. by exists e.
Qed.
End Audit.
Lemma Review_ok id v note user : preserves (on_tables keeps_ok) (FuelClaims.ReviewClaim id v note user).
Proof.
  unfold FuelClaims.ReviewClaim. destruct (negb _); [apply preserves_fail; exact _|].
  apply preserves_bind; [exact _|apply core_on; exact _|intros now]. apply xtransaction_ok.
  intros s [] s' H Hok. run_ok H. apply xstmt_inv in Hrun as (_ & _ & Hx). injection Hx as Hn Hx.
  destruct (v0 =? 0) eqn:En; [discriminate H|]. apply xwrite_inv in H as (_ & _ & H). cbn [is_Ok] in H. rewrite H, <- Hx.
  assert (Hid : id ∈ ca_ExpenseID <$> claim_audits (s_tables s)).
  { destruct (List.filter (FuelClaims.by_expense id) (claim_audits (s_tables s))) as [|a l] eqn:E; [by subst v0|].
    assert (Ha : a ∈ List.filter (FuelClaims.by_expense id) (claim_audits (s_tables s))) by (rewrite E; by left).
    apply filter_elem in Ha as [Ha Hi]. apply String.eqb_eq in Hi. rewrite <- Hi. apply list_elem_of_fmap. by exists a. }
  eapply verdict_ok; [exact Hok| |by apply review_written; [apply Hok|]].
  apply list_elem_of_fmap in Hid as (a & -> & Ha). destruct (lk_verdict _ Hok a Ha) as (e & He & Hi & _).
  rewrite <- Hi. apply list_elem_of_fmap. by exists e.
Qed.

(** *** Tolls and settlements *)
Section Tolls.
Context {client : Fastag.Client} {law : Fastag.LawfulClient client} (column_text : Time → string) (config : Fastag.Config).
Lemma persist_only p : preserves (on_tables Fastag.only_tolls) (Fastag.persist p).
Proof. unfold Fastag.persist. preserve_tables ltac:(fun _ => apply Fastag.insert_toll_only). Qed.
Lemma read_candidates_same P `{!PreOrder P} rows : preserves (on_tables P) (Fastag.read_candidates rows : LM _).
Proof.
  induction rows as [|[[[id d] dep] arr] rows IH]; cbn [Fastag.read_candidates]; [preserve_tables ltac:(fun _ => fail)|].
  unfold Fastag.parseTimeFlexible. preserve_with ltac:(fun _ => first [apply IH|tables_leaf ltac:(fun _ => fail)]).
Qed.
Lemma match_all_ok cands n l : preserves (on_tables keeps) (Fastag.match_all config cands n l).
Proof.
  revert n. induction l as [|t l IH]; intros n; cbn [Fastag.match_all]; [preserve_tables ltac:(fun _ => fail)|].
  unfold Fastag.match_one, Fastag.book_toll. preserve_with ltac:(fun _ => first
    [ apply IH | tables_leaf ltac:(fun _ => first [by apply insert_keeps|by apply keeps_other]) ]).
Qed.
Lemma only_weak {A} (m : LM A) : preserves (on_tables Fastag.only_tolls) m → preserves (on_tables keeps) m.
Proof. apply preserves_weaken. intros s s'. apply only_tolls_keeps. Qed.
Lemma Reconcile_ok v : preserves (on_tables keeps) (Fastag.Reconcile column_text config v).
Proof.
  unfold Fastag.Reconcile. preserve_with ltac:(fun _ => first
    [ apply only_weak, Fastag.list_only | apply only_weak, persist_only | apply read_candidates_same; exact _ | apply match_all_ok
    | tables_leaf ltac:(fun _ => fail) ]).
Qed.
End Tolls.

Lemma in_books_ok svc c : preserves (on_tables keeps) (in_books (Settlement.perform svc c)).
Proof.
  intros [[w x] o]. unfold on_tables, in_books. cbn.
  pose proof (perform_charges svc c (w, view x, o_settle o)) as [He Hk]. cbn in He, Hk.
  destruct (Settlement.perform svc c _) as [r [[w' b] o']]. cbn in *. apply keeps_books. intros Hc. apply Hk in Hc.
  destruct b as [b1 b2 b3 b4 b5 b6]. cbn in He. unfold view, with_expenses in *. cbn in *. by rewrite <- He.
Qed.

(** ** Every history *)
Inductive Command :=
| Claim (o : Kharcha.CreateExpenseOpts) | Approve (id by_ : string) | Reject (id by_ reason : string)
| Audit | Review (id verdict note user : string)
| Toll (q : Fastag.DeductTollRequest) | ReconcileTolls (vehicle : string)
| Settle (c : Settlement.Command).
Section Histories.
Context {client : Fastag.Client} (column_text : Time → string) (config : Fastag.Config) (svc : Settlement.Service).
Definition step (c : Command) (σ : State) : State :=
  match c with
  | Claim o => snd (Kharcha.CreateExpenseWithOpts o σ)
  | Approve id by_ => snd (Kharcha.ApproveExpense id by_ σ)
  | Reject id by_ reason => snd (Kharcha.RejectExpense id by_ reason σ)
  | Audit => snd (FuelClaims.AuditPendingClaims column_text σ)
  | Review id v note user => snd (FuelClaims.ReviewClaim id v note user σ)
  | Toll q => snd (Fastag.DeductToll q σ)
  | ReconcileTolls v => snd (Fastag.Reconcile column_text config v σ)
  | Settle c => snd (in_books (Settlement.perform svc c) σ)
  end.
Definition run (cs : list Command) (σ : State) : State := foldl (λ σ c, step c σ) σ cs.
Context {law : Fastag.LawfulClient client}.
Lemma step_ok c σ : ledger_ok (s_tables σ) → ledger_ok (s_tables (step c σ)).
Proof.
  destruct c; cbn [step].
  - apply (keeps_weak _ _ (Create_ok o) σ).
  - apply (Approve_ok id by_ σ).
  - apply (keeps_weak _ _ (Reject_ok id by_ reason) σ).
  - apply (Audit_ok column_text σ).
  - apply (Review_ok id verdict note user σ).
  - apply (keeps_weak _ _ (only_weak _ (Fastag.deduct_only q)) σ).
  - apply (keeps_weak _ _ (Reconcile_ok column_text config vehicle) σ).
  - apply (keeps_weak _ _ (in_books_ok svc c) σ).
Qed.
Lemma run_ok_ cs σ : ledger_ok (s_tables σ) → ledger_ok (s_tables (run cs σ)).
Proof.
  unfold run. revert σ. induction cs as [|c cs IH]; intros σ Hok; cbn [foldl]; [done|]. by apply IH, step_ok.
Qed.

(** C6: no expense is charged twice.  Claims, approvals, rejections, audits,
    tolls and settlements, in any order and with any statement failing:
    two lines of settlements never stand for the same expense, and the one
    that does stands for an approved expense of its own trip, with its
    amount. *)
Theorem charged_once_at_most cs σ :
  ledger_ok (s_tables σ) →
  let x := s_tables (run cs σ) in
  NoDup (omap charge_of (Settlement.settlement_lines (books x))) ∧
  ∀ l r, l ∈ Settlement.settlement_lines (books x) → charge_of l = Some r →
    ∃ e, find_expense r x = Some e ∧ Status e = "approved"%string ∧ TripID e = Some (Settlement.l_TripID l) ∧
         Settlement.l_Amount l = fneg (Amount e).
Proof.
  intros Hok. cbn zeta. pose proof (run_ok_ cs σ Hok) as H. split; [exact (ch_once _ (lk_charges _ H))|].
  intros l r Hl Hr. destruct (ch_lines _ (lk_charges _ H) l Hl r Hr) as (e & He & Hi & Hs & Ht & Ha).
  cbn in He. apply list_elem_of_fmap in He as (e0 & -> & He). cbn in *. exists e0. split; [|done].
  destruct (find_expense r (s_tables (run cs σ))) as [f|] eqn:E.
  - apply find_expense_spec in E as [Hf Hif]. f_equal. apply (one_expense (s_tables (run cs σ))); [done..|congruence].
  - unfold find_expense in E. apply (find_none _ _) with (x := e0) in E; [|by apply list_elem_of_In].
    apply String.eqb_neq in E. congruence.
Qed.

(** a verdict and its claim agree.  The row of an audit and the status
    of its expense are written together or not at all, by the sweep and by
    the review: in any history they say the same, and a claim that is no
    longer pending has its row. *)
Theorem verdicts_agree cs σ :
  ledger_ok (s_tables σ) →
  let x := s_tables (run cs σ) in
  ∀ e, e ∈ expenses x →
    match Kharcha.audit_of x (ID e) with
    | Some a => ca_Result a = AuditStatus e
    | None => AuditStatus e = "pending"%string
    end.
Proof.
  intros Hok. cbn zeta. pose proof (run_ok_ cs σ Hok) as H. set (x := s_tables (run cs σ)) in *. intros e He.
  unfold Kharcha.audit_of. destruct (List.find _ _) as [a|] eqn:E.
  - apply find_some in E as [Ha Hi]. apply list_elem_of_In in Ha. apply String.eqb_eq in Hi.
    destruct (lk_verdict _ H a Ha) as (f & Hf & Hif & Hr). assert (e = f) as -> by (apply (one_expense x); [done..|congruence]).
    by symmetry.
  - destruct (decide (AuditStatus e = "pending"%string)) as [|Hn]; [done|]. destruct (lk_audited _ H e He Hn) as (a & Ha & Hi).
    apply (find_none _ _) with (x := a) in E; [|by apply list_elem_of_In]. apply String.eqb_neq in E. congruence.
Qed.
End Histories.

End Operations.

(** ** A demonstration: a fuel claim and a meal on a trip that is settled *)
#[local] Existing Instance Scorecard.demo_json.
#[local] Existing Instance go_math.
#[local] Existing Instance demo_env.
Definition demo_trip : TripRow.SQLTripModel :=
  TripRow.mkTripRow "t1" "TR-1" (Some "b1"%string) (Some "d1"%string) (Some "v1"%string) "r1" (jan1 + day / 2) None "delivered"
    None "acme" 0 jan1 jan1 None None None None None.
Definition demo_office : DB := set_ops (Settlement.demo_ops Settlement.commission_model) (set_trips [demo_trip] Database.demo_db).
Definition demo_books : Settlement.SettleTables :=
  Settlement.mkTables [] [] [] ∅ ∅ (Scorecard.mkScoreTables [] [] ∅).
Definition demo_start : State :=
  (world demo_office, mkTables [] [] [] [] demo_books [] ∅, mkOutside (Settlement.mkOutside FuelConfig.NewConfigReader []) FuelConfig.NewConfigReader).
Definition demo_client : Fastag.Client := Fastag.stub (Fastag.mkClientConfig true true).
Definition demo_config : Fastag.Config := Fastag.mkConfig true "" "MOCK".
Definition claim_of (category key : string) (amount : Z) : Kharcha.CreateExpenseOpts :=
  Kharcha.mkOpts "t1" "d1" category (f64_of_Z amount) "" "" (f64_of_Z 90) key None None.
Abbreviation history cs :=
  (@run demo_env go_math demo_client FormatRFC3339 demo_config Settlement.demo_service cs demo_start).
Definition claims (σ : State) : list (string * string * string) := (λ e, (ID e, Status e, AuditStatus e)) <$> expenses (s_tables σ).
Definition charges (σ : State) : list (string * string * Z) :=
  omap (λ l, match charge_of l with Some r => Some (r, Settlement.l_LineType l, f64_to_int64 (Settlement.l_Amount l)) | None => None end)
    (Settlement.settlement_lines (books (s_tables σ))).
Lemma demo_ok : ledger_ok (s_tables demo_start).
Proof.
  split; [|cbn; constructor|cbn; constructor|by intros a ?%not_elem_of_nil|by intros e ?%not_elem_of_nil].
  split; [|cbn; constructor|by intros l ?%not_elem_of_nil|cbn; constructor].
  split; [cbn; constructor|cbn; constructor|by intros l ?%not_elem_of_nil].
Qed.
(** Two claims and their audit, a settlement, an approval, the settlement
    computed anew, a second approval. *)
Definition busy_day : list Command :=
  [Claim (claim_of "food" "k1" 300); Settle (Settlement.Generate "t1" false); Approve "id-0" "m1"; Approve "id-0" "m2";
   Settle (Settlement.Generate "t1" true); Approve "id-0" "m1"].
Lemma charged_once_at_most_witness :
  charges (history busy_day) = [("id-0", "deduction", -300)]%string ∧
  NoDup (omap charge_of (Settlement.settlement_lines (books (s_tables (history busy_day))))).
Proof.
  split; [by vm_compute|].
  exact (proj1 (@charged_once_at_most demo_env go_math demo_client FormatRFC3339 demo_config Settlement.demo_service
    (Fastag.stub_lawful _) busy_day demo_start demo_ok)).
Defined.
Definition audited_day : list Command :=
  [Claim (claim_of "fuel" "k1" 9000); Audit; Claim (claim_of "fuel" "k1" 100); Review "id-0" "passed" "bill seen" "m1"].
Lemma verdicts_agree_witness :
  claims (history audited_day) = [("id-0", "pending", "passed")]%string ∧
  ∀ e, e ∈ expenses (s_tables (history audited_day)) →
    match Kharcha.audit_of (s_tables (history audited_day)) (ID e) with
    | Some a => ca_Result a = AuditStatus e
    | None => AuditStatus e = "pending"%string
    end.
Proof.
  split; [by vm_compute|].
  exact (@verdicts_agree demo_env go_math demo_client FormatRFC3339 demo_config Settlement.demo_service
    (Fastag.stub_lawful _) audited_day demo_start demo_ok).
Defined.
End Charges.
