(* ===== verification/ClaimHistory.v ===== *)
(** * What becomes of a claim

    Over any history of the four writers of the expenses ([Charges]): a
    decision is final, a retry is the same claim, an approval is all or
    nothing and stops at the gate, and a toll is booked as the
    reconciliation says it is. *)
From stdpp Require Import base decidable list strings option gmap pretty.
From Stdlib Require Import ZArith Lia Ascii String.
From S2P Require Import Prelude GoFloat Shared GoTime GoMath Geofence InvoiceAggregate Database Repository SideTables.
From S2P Require Import GeofenceStore DwellWorker Alerts FuelConfig Fuel Scorecard Settlement Kharcha FuelClaims Fastag Charges.
Open Scope Z_scope.

Module ClaimHistory.
Import Ledger.

(** ** A claim and what it becomes *)
Definition same_claim (e e' : ExpenseRow) : Prop :=
  (∃ s by_ at_ r a, e' = set_audit_status a (set_status s by_ at_ r e)) ∧
  (Kharcha.pending e = false → ∃ a, e' = set_audit_status a e).
#[export] Instance same_claim_preorder : PreOrder same_claim.
Proof.
  split.
  - intros e. split; [exists (Status e), (ApprovedBy e), (ApprovedAt e), (RejectedReason e), (AuditStatus e)|intros _; exists (AuditStatus e)];
      by destruct e.
  - intros e1 e2 e3 [(s & b & t & r & a & ->) H2] [(s' & b' & t' & r' & a' & ->) H3]. split; [exists s', b', t', r', a'; done|].
    intros Hp. destruct (H2 Hp) as [a2 E]. destruct (H3 ltac:(by rewrite E)) as [a3 ->]. exists a3. by rewrite E.
Qed.
(** The old claims come first and in their order; new ones are behind. *)
Definition follows (x x' : Tables) : Prop :=
  ∃ l new, expenses x' = (l ++ new)%list ∧ Forall2 same_claim (expenses x) l.
#[export] Instance follows_preorder : PreOrder follows.
Proof.
  split.
  - intros x. exists (expenses x), []. split; [by rewrite app_nil_r|]. reflexivity.
  - intros x y z (l1 & n1 & E1 & H1) (l2 & n2 & E2 & H2). rewrite E1 in H2.
    apply Forall2_app_inv_l in H2 as (k1 & k2 & Hk1 & Hk2 & ->). exists k1, (k2 ++ n2)%list.
    split; [by rewrite E2, app_assoc|]. by transitivity l1.
Qed.
Lemma follows_same x x' : expenses x' = expenses x → follows x x'.
Proof. intros E. exists (expenses x), []. split; [by rewrite app_nil_r|]. reflexivity. Qed.
Lemma follows_more e x : follows x (snd (insert_expense e x)).
Proof.
  unfold insert_expense. repeat case_match; cbn [snd]; try reflexivity. exists (expenses x), [e]. split; [done|]. reflexivity.
Qed.
Lemma follows_update p f x : (∀ e, p e = true → same_claim e (f e)) → follows x (update_expenses p f x).
Proof.
  intros Hf. exists ((λ e, if p e then f e else e) <$> expenses x), []. split; [by rewrite app_nil_r|].
  apply Forall2_fmap_r, Forall_Forall2_diag, Forall_forall. intros e _. cbn. destruct (p e) eqn:E; [by apply Hf|reflexivity].
Qed.
Lemma decided_same s by_ at_ r e : Kharcha.pending e = true → same_claim e (set_status s by_ at_ r e).
Proof. intros Hp. split; [exists s, by_, at_, r, (AuditStatus e); by destruct e|congruence]. Qed.
Lemma audited_same a e : same_claim e (set_audit_status a e).
Proof.
  split; [|by exists a]. exists (Status e), (ApprovedBy e), (ApprovedAt e), (RejectedReason e), a. by destruct e.
Qed.
Lemma follows_find x x' e : follows x x' → e ∈ expenses x → ∃ e', e' ∈ expenses x' ∧ same_claim e e'.
Proof.
  intros (l & new & E & H) He. apply list_elem_of_lookup in He as [i Hi].
  destruct (Forall2_lookup_l _ _ _ _ _ H Hi) as (e' & Hi' & Hs). exists e'. split; [|done].
  rewrite E. apply elem_of_app. left. by eapply list_elem_of_lookup_2.
Qed.

(** What a claim is about, and what was decided on it. *)
Definition subject (e : ExpenseRow) : string * option string * option string * string * float64 :=
  (ID e, TripID e, DriverID e, Category e, Amount e).
Definition decision (e : ExpenseRow) : string * option string * option Time * option string :=
  (Status e, ApprovedBy e, ApprovedAt e, RejectedReason e).
(** The same key, whatever else was sent. *)
Definition retry_of (o o' : Kharcha.CreateExpenseOpts) : Prop :=
  Kharcha.o_IdempotencyKey o ≠ ""%string ∧ Kharcha.o_IdempotencyKey o' = Kharcha.o_IdempotencyKey o.

(** ** The operations *)
Section Operations.
#[local] Existing Instance Fastag.only_tolls_preorder.
Context {env : Env} {gm : GoMath} {mj : Scorecard.MetaJson}.
Context {client : Fastag.Client} {law : Fastag.LawfulClient client}.
Context (column_text : Time → string) (config : Fastag.Config) (svc : Settlement.Service).
Ltac leaf := first
  [ apply follows_more
  | apply follows_update; intros ? [_ ?]%andb_true_iff; by apply decided_same
  | apply follows_update; intros; apply audited_same
  | apply follows_same; cbn; unfold Kharcha.on_books, FuelClaims.upsert_audit; by repeat case_match ].
Ltac follow := preserve_with ltac:(fun _ => first
  [ apply Charges.legacy_audit_same; exact _ | apply Charges.gate_same; exact _ | apply Charges.window_same; exact _
  | apply Charges.read_candidates_same; exact _ | apply xtransaction_on; [exact _|]; follow
  | tables_leaf ltac:(fun _ => leaf) ]).
Lemma approve_follows id by_ : preserves (on_tables follows) (Kharcha.ApproveExpense id by_).
Proof. unfold Kharcha.ApproveExpense, Kharcha.update_pending, Kharcha.charge_settlement. follow. Qed.
Lemma reject_follows id by_ reason : preserves (on_tables follows) (Kharcha.RejectExpense id by_ reason).
Proof. unfold Kharcha.RejectExpense, Kharcha.update_pending. follow. Qed.
Lemma create_follows o : preserves (on_tables follows) (Kharcha.CreateExpenseWithOpts o).
Proof. unfold Kharcha.CreateExpenseWithOpts, Kharcha.by_sync_key. follow. Qed.
Lemma audit_one_follows cfg c : preserves (on_tables follows) (FuelClaims.auditOne column_text cfg c).
Proof.
  unfold FuelClaims.auditOne, FuelClaims.vehicleMeta, FuelClaims.refillsInWindow, FuelClaims.odometerDelta, FuelClaims.write_audit.
  follow.
Qed.
Lemma audit_follows : preserves (on_tables follows) (FuelClaims.AuditPendingClaims column_text).
Proof.
  assert (Hall : ∀ cfg cs n, preserves (on_tables follows) (FuelClaims.audit_all column_text cfg cs n)).
  { intros cfg cs. induction cs as [|c cs IH]; intros n; cbn [FuelClaims.audit_all];
      preserve_with ltac:(fun _ => first [apply audit_one_follows|apply IH]). }
  unfold FuelClaims.AuditPendingClaims, FuelClaims.pendingFuelClaims, FuelClaims.loadAuditConfig, FuelClaims.in_config.
  preserve_with ltac:(fun _ => first [apply Hall|apply FuelConfig.zoom_tables; exact _|tables_leaf ltac:(fun _ => leaf)]).
Qed.
Lemma review_follows id v note user : preserves (on_tables follows) (FuelClaims.ReviewClaim id v note user).
Proof. unfold FuelClaims.ReviewClaim. follow. Qed.
Lemma only_follows {A} (m : LM A) : preserves (on_tables Fastag.only_tolls) m → preserves (on_tables follows) m.
Proof. apply preserves_weaken. intros s s' (H & _). by apply follows_same. Qed.
Lemma match_follows cands n l : preserves (on_tables follows) (Fastag.match_all config cands n l).
Proof.
  revert n. induction l as [|t l IH]; intros n; cbn [Fastag.match_all]; [follow|].
  unfold Fastag.match_one, Fastag.book_toll.
  preserve_with ltac:(fun _ => first [apply IH|tables_leaf ltac:(fun _ => leaf)]).
Qed.
Lemma reconcile_follows v : preserves (on_tables follows) (Fastag.Reconcile column_text config v).
Proof.
  unfold Fastag.Reconcile. preserve_with ltac:(fun _ => first
    [ apply only_follows, Fastag.list_only | apply only_follows, Charges.persist_only
    | apply Charges.read_candidates_same; exact _ | apply match_follows | tables_leaf ltac:(fun _ => leaf) ]).
Qed.
Lemma step_follows c σ : follows (s_tables σ) (s_tables (Charges.step column_text config svc c σ)).
Proof.
  destruct c; cbn [Charges.step].
  - apply (create_follows o σ).
  - apply (approve_follows id by_ σ).
  - apply (reject_follows id by_ reason σ).
  - apply (audit_follows σ).
  - apply (review_follows id verdict note user σ).
  - apply (only_follows _ (Fastag.deduct_only q) σ).
  - apply (reconcile_follows vehicle σ).
  - apply follows_same. unfold in_books. destruct (Settlement.perform _ _ _) as [r [[w b] o]]. done.
Qed.
Lemma run_follows cs σ : follows (s_tables σ) (s_tables (Charges.run column_text config svc cs σ)).
Proof.
  unfold Charges.run. revert σ. induction cs as [|c cs IH]; intros σ; cbn [foldl]; [reflexivity|].
  etrans; [apply step_follows|apply IH].
Qed.

(** C8: a decision is final.  Whatever claims, approvals, rejections, audits,
    tolls and settlements follow, an expense is still there, of the same
    driver and trip and with the same amount, and once it was approved or
    rejected it stays so, by whom and with the reason. *)
Theorem decided_is_final cs σ e :
  e ∈ expenses (s_tables σ) →
  ∃ e', e' ∈ expenses (s_tables (Charges.run column_text config svc cs σ)) ∧ subject e' = subject e ∧
    (Status e ≠ "pending"%string → decision e' = decision e).
Proof.
  intros He. destruct (follows_find _ _ e (run_follows cs σ) He) as (e' & He' & (s & b & t & r & a & E) & Hd).
  exists e'. split; [done|]. split; [by rewrite E|]. intros Hs. destruct Hd as [a' ->]; [|done].
  by apply String.eqb_neq.
Qed.
(** *** Retries *)
Definition keyed (x : Tables) (k id : string) : Prop := ∃ e, e ∈ expenses x ∧ ID e = id ∧ IdempotencyKey e = Some k.
Lemma omap_once {A B} (f : A → option B) l a b k :
  NoDup (omap f l) → a ∈ l → b ∈ l → f a = Some k → f b = Some k → a = b.
Proof.
  induction l as [|c l IH]; intros Hn Ha Hb Hfa Hfb; [by apply not_elem_of_nil in Ha|]. cbn in Hn.
  assert (Hout : ∀ d, d ∈ l → f d = Some k → f c = Some k → False).
  { intros d Hd Hfd Hc. rewrite Hc in Hn. apply NoDup_cons in Hn as [Hn _]. apply Hn, list_elem_of_omap. by exists d. }
  assert (Hn' : NoDup (omap f l)) by (destruct (f c); [by apply NoDup_cons in Hn as [_ ?]|done]).
  apply elem_of_cons in Ha as [-> | Ha], Hb as [-> | Hb]; [done|exfalso; by eapply Hout..|by apply IH].
Qed.
Lemma keyed_once x k id e :
  Charges.ledger_ok x → k ≠ ""%string → keyed x k id → e ∈ expenses x → IdempotencyKey e = Some k → ID e = id.
Proof.
  intros Hok Hk (f & Hf & <- & Hkf) He Hke. f_equal.
  assert (Hs : ∀ d, IdempotencyKey d = Some k → sync_key d = Some k).
  { intros d Hd. unfold sync_key. rewrite Hd. by destruct k. }
  eapply omap_once; [apply Hok|done|done|by apply Hs..].
Qed.
Lemma by_sync_key_inv k (s s' : State) r :
  Kharcha.by_sync_key k s = (r, s') →
  s_tables s' = s_tables s ∧ ∃ o, r = Ok o ∧ ∀ id, o = Some id → keyed (s_tables s) k id.
Proof.
  unfold Kharcha.by_sync_key. cbv [mbind SM_mbind SM_bind SM_try mret SM_mret SM_ret]. intros H.
  destruct (xquery_row _ s) as [q s1] eqn:H1. apply xquery_row_inv in H1 as (_ & _ & Ht & Hq). injection H as <- <-.
  split; [done|]. eexists. split; [done|]. intros id. destruct q as [i|e]; [|done]. destruct (is_empty i); [done|].
  intros [= <-]. destruct (List.find _ _) as [e|] eqn:E; [|done]. injection Hq as <-. apply find_some in E as [He Hk].
  exists e. split_and!; [by apply list_elem_of_In|done|by apply bool_decide_eq_true in Hk].
Qed.
Lemma insert_keyed o id now x :
  fst (insert_expense (Kharcha.new_expense o id now) x) = Ok tt → Kharcha.o_IdempotencyKey o ≠ ""%string →
  keyed (snd (insert_expense (Kharcha.new_expense o id now) x)) (Kharcha.o_IdempotencyKey o) id.
Proof.
  unfold insert_expense. repeat (case_match; [done|]). intros _ Hk. eexists. cbn [snd expenses set_expenses].
  split; [apply elem_of_app; right; by left|]. split; [done|]. cbn. unfold Fuel.ptr. by destruct (Kharcha.o_IdempotencyKey o).
Qed.
Lemma logged a t id v (s s' : State) r : Kharcha.logAudit a t id v s = (r, s') → s_tables s' = s_tables s.
Proof. intros H. pose proof (Charges.legacy_audit_same eq a t id v s) as E. by rewrite H in E. Qed.
(** A creation ends with a claim under its key, or changes nothing. *)
Lemma claim_created_inv o (σ σ' : State) r :
  Kharcha.CreateExpenseWithOpts o σ = (r, σ') → Kharcha.o_IdempotencyKey o ≠ ""%string →
  (s_tables σ' = s_tables σ ∧ ∀ id, r = Ok id → keyed (s_tables σ) (Kharcha.o_IdempotencyKey o) id) ∨
  (∃ id now, insert_expense (Kharcha.new_expense o id now) (s_tables σ) = (Ok tt, s_tables σ') ∧ ∀ id', r = Ok id' → id' = id).
Proof.
  intros H Hk. unfold Kharcha.CreateExpenseWithOpts in H. destruct (_ <=? _)%f64; [injection H as <- <-; by left|].
  destruct (negb _); [injection H as <- <-; by left|]. cbv zeta in H.
  assert (is_empty (Kharcha.o_IdempotencyKey o) = false) as Hne by (by destruct (Kharcha.o_IdempotencyKey o)).
  rewrite Hne in H.
  apply bind_inv in H as [(e & H & ->)|(id & s1 & H & H1)]; apply core_inv in H as [w [_ E1]]; [subst; by left|].
  apply bind_inv in H1 as [(e & H1 & ->)|(known & s2 & H1 & H2)]; apply by_sync_key_inv in H1 as (E2 & k & Er & Hkn).
  { left. split; [by rewrite E2, E1|done]. }
  injection Er as <-. rewrite E1 in E2, Hkn. cbn [s_tables fst snd] in E2, Hkn. destruct known as [old|].
  { injection H2 as <- <-. left. split; [done|]. intros i [= <-]. by apply Hkn. }
  apply bind_inv in H2 as [(e & H2 & ->)|(now & s3 & H2 & H3)]; apply core_inv in H2 as [w2 [_ E3]].
  { left. subst σ'. split; [by rewrite E2|done]. }
  subst s3. cbv [mbind SM_mbind SM_bind SM_try] in H3. destruct (xexec _ _) as [q s4] eqn:H4.
  apply xstmt_inv in H4 as (_ & _ & H4). cbn [s_tables fst snd] in H4. rewrite E2 in H4. destruct q as [[]|e].
  - right. exists id, now. destruct (Kharcha.logAudit _ _ _ _ s4) as [l s5] eqn:H5. apply logged in H5.
    destruct l; injection H3 as <- <-; (split; [by rewrite H5|]); [by intros i [= <-]|done].
  - destruct H4 as [H4 _]. destruct (Kharcha.by_sync_key _ s4) as [k' s5] eqn:H5.
    apply by_sync_key_inv in H5 as (E5 & k & -> & Hk'). left.
    rewrite H4 in E5, Hk'. destruct k as [old|]; injection H3 as <- <-; (split; [done|]); [|done].
    intros i [= <-]. by apply Hk'.
Qed.
Lemma follows_keyed x x' k id : follows x x' → keyed x k id → keyed x' k id.
Proof.
  intros Hf (e & He & Hi & Hk). destruct (follows_find _ _ e Hf He) as (e' & He' & (s & b & t & r & a & ->) & _). by eexists.
Qed.

(** C9: a retried claim is the same claim.  A driver's phone sends a claim
    again under its key, at any later time, with other contents even and
    with any statement failing: nothing is written, and what succeeds
    answers the id of the first. *)
Theorem retried_claim_is_the_same o o' cs (σ σ1 σ2 : State) id r :
  Charges.ledger_ok (s_tables σ) → retry_of o o' →
  Kharcha.CreateExpenseWithOpts o σ = (Ok id, σ1) →
  Kharcha.CreateExpenseWithOpts o' (Charges.run column_text config svc cs σ1) = (r, σ2) →
  s_tables σ2 = s_tables (Charges.run column_text config svc cs σ1) ∧ ∀ id', r = Ok id' → id' = id.
Proof.
  intros Hok [Hk Hk'] H1 H2. set (k := Kharcha.o_IdempotencyKey o) in *. set (σr := Charges.run _ _ _ cs σ1) in *.
  assert (Hkeyed : keyed (s_tables σ1) k id).
  { destruct (claim_created_inv _ _ _ _ H1 Hk) as [[-> Hr]|(i & now & Hi & Hr)]; [by apply Hr|]. rewrite (Hr id eq_refl).
    pose proof (insert_keyed o i now (s_tables σ)) as Hin. rewrite Hi in Hin. by apply Hin. }
  assert (Hokr : Charges.ledger_ok (s_tables σr)).
  { apply (Charges.run_ok_ column_text config svc cs). pose proof (Charges.step_ok column_text config svc (Charges.Claim o) σ Hok) as E.
    cbn [Charges.step] in E. by rewrite H1 in E. }
  apply (follows_keyed _ _ _ _ (run_follows cs σ1)) in Hkeyed. fold σr in Hkeyed.
  destruct (claim_created_inv _ _ _ _ H2) as [[-> Hr]|(i & now & Hi & Hr)]; [by rewrite Hk'| |].
  - split; [done|]. intros id' E. destruct (Hr id' E) as (e & He & <- & Hke). rewrite Hk' in Hke. by apply (keyed_once (s_tables σr) k).
  - exfalso. destruct Hkeyed as (e & He & _ & Hke). revert Hi. unfold insert_expense.
    assert (existsb (same_key (Kharcha.new_expense o' i now)) (expenses (s_tables σr)) = true) as ->; [|by repeat case_match].
    apply existsb_exists. exists e. split; [by apply list_elem_of_In|]. unfold same_key, sync_key. cbn. rewrite Hke, Hk'.
    unfold Fuel.ptr. destruct k as [|a k]; [done|]. apply String.eqb_refl.
Qed.
(** *** The approval *)
Definition enforce_row (d : DB) : option ConfigRow :=
  List.find (λ r, String.eqb (cc_TenantID r) DefaultTenant && String.eqb (cc_Key r) "fuel.audit_enforce") (company_config (ops d)).
(** The configuration asks for the gate, and is read: it is the second
    statement of an approval. *)
Definition enforcing (σ : State) : Prop :=
  stmt_fault (S (w_stmts (s_world σ))) = None ∧ cc_Value <$> enforce_row (s_db σ) = Some "true"%string.
Lemma gate_inv id (s s' : State) :
  Kharcha.audit_gate id s = (Ok tt, s') → stmt_fault (w_stmts (s_world s)) = None →
  cc_Value <$> enforce_row (s_db s) = Some "true"%string →
  ∃ e, find_expense id (s_tables s) = Some e ∧ AuditStatus e ≠ "needs_review"%string.
Proof.
  intros H Hf Hc. unfold Kharcha.audit_gate in H. run_ok H. unfold Kharcha.fuelAuditEnforce in Hrun.
  cbv [mbind SM_mbind SM_bind SM_try mret SM_mret SM_ret] in Hrun. unfold xquery_row, xstmt in Hrun. rewrite Hf in Hrun.
  fold (enforce_row (w_db (s_world s))) in Hrun. change (w_db (s_world s)) with (s_db s) in Hrun.
  destruct (enforce_row (s_db s)) as [row|]; [|done]. cbn in Hc. injection Hc as Hc. injection Hrun as <- <-. rewrite Hc in H.
  cbn in H. run_ok H. apply map_err_ok_inv, xquery_row_inv in Hrun as (_ & _ & _ & Hq). cbn in Hq.
  destruct (find_expense id (s_tables s)) as [e|]; [|done]. injection Hq as <-. exists e. split; [done|].
  intros E. by rewrite E in H.
Qed.
Definition same_claims (x x' : Tables) : Prop := expenses x' = expenses x ∧ claim_audits x' = claim_audits x.
#[local] Instance same_claims_preorder : PreOrder same_claims.
Proof. split; [by intros x|]. intros x y z [H1 H2] [H3 H4]. split; congruence. Qed.
Lemma charge_same id t d am : preserves (on_tables same_claims) (Kharcha.charge_settlement id t d am).
Proof.
  unfold Kharcha.charge_settlement. preserve_tables ltac:(fun _ => unfold Kharcha.on_books; by repeat case_match).
Qed.
Definition approved_rows (id by_ : string) (now : Time) (l : list ExpenseRow) : list ExpenseRow :=
  (λ e, if by_id id e && Kharcha.pending e then set_status "approved" (Some by_) (Some now) (RejectedReason e) e else e) <$> l.
(** C7: an approval is all or nothing, and stops at the gate.  When it
    succeeds, the claim was pending and is approved, by whom and when, no
    other claim changed, and in enforcement mode the audit had not flagged
    it; when it fails, nothing changed, the books included. *)
Theorem approval_is_all_or_nothing id by_ (σ σ' : State) r :
  Kharcha.ApproveExpense id by_ σ = (r, σ') →
  match r with
  | Ok _ =>
      (∃ e, e ∈ expenses (s_tables σ) ∧ ID e = id ∧ Status e = "pending"%string) ∧
      (∃ now, expenses (s_tables σ') = approved_rows id by_ now (expenses (s_tables σ))) ∧
      claim_audits (s_tables σ') = claim_audits (s_tables σ) ∧
      (enforcing σ → ∃ e, find_expense id (s_tables σ) = Some e ∧ AuditStatus e ≠ "needs_review"%string)
  | Fail _ => s_tables σ' = s_tables σ
  end.
Proof.
  intros H. unfold Kharcha.ApproveExpense in H. apply bind_inv in H as [(e & H & ->)|(u & s1 & H & H1)].
  { by apply xtransaction_spec in H as [_ H]. }
  assert (r = Ok tt) as ->.
  { unfold Kharcha.logAudit, SM_ignore in H1. by injection H1 as <- _. }
  apply logged in H1. rewrite H1. clear H1. apply xtransaction_spec in H as (s2 & H & _ & -> & _).
  run_ok H. apply core_inv in Hrun as [w [Hw ->]]. injection Hw as <- <-.
  run_ok H. destruct v.
  match type of Hrun with Kharcha.audit_gate _ ?s0 = _ => pose proof (Charges.gate_same eq id s0) as Hg end.
  rewrite Hrun in Hg. unfold on_tables in Hg. cbn in Hg.
  run_ok H. apply xstmt_inv in Hrun0 as (_ & _ & Hx). rewrite <- Hg in Hx. injection Hx as Hn Hx. clear Hg.
  destruct (v =? 0) eqn:En; [discriminate H|]. run_ok H. apply xquery_row_inv in Hrun0 as (_ & _ & Ht & _).
  assert (Hs : same_claims (s_tables s0) (s_tables s2)).
  { rewrite <- Ht. destruct (is_empty _ || is_empty _) in H; [injection H as _ <-; reflexivity|].
    pose proof (charge_same id (or_empty (TripID v0)) (or_empty (DriverID v0)) (Amount v0) s3) as Hc. by rewrite H in Hc. }
  destruct Hs as [Hs1 Hs2]. rewrite Hs1, Hs2, <- Hx. split_and!.
  - unfold count_expenses in Hn. destruct (List.filter _ _) as [|e l] eqn:E; [by subst v|].
    assert (He : e ∈ e :: l) by left. rewrite <- E in He. apply Charges.filter_elem in He as [He Hh].
    apply andb_true_iff in Hh as [Hi Hp]. apply String.eqb_eq in Hi, Hp. by exists e.
  - by eexists.
  - done.
  - intros [Hf Hc]. by apply gate_inv in Hrun.
Qed.
(** *** The tolls *)
Definition toll_key (t : TollRow) : string * Time * float64 := (tl_ID t, tl_Timestamp t, tl_Amount t).
Definition booked_for (l : list TollRow) (e : ExpenseRow) : Prop :=
  Status e = "approved"%string ∧ Category e = "toll"%string ∧ ∃ t, t ∈ l ∧ Amount e = tl_Amount t.
Record matched_to (l : list TollRow) (n n' : Fastag.Tally) (x x' : Tables) (new : list ExpenseRow) : Prop := mkMatched {
  mt_expenses : expenses x' = (expenses x ++ new)%list;
  mt_tolls : toll_key <$> tolls x' = toll_key <$> tolls x;
  mt_counted : Fastag.n_kharcha n' = Fastag.n_kharcha n + Z.of_nat (List.length new);
  mt_matched : Z.of_nat (List.length new) <= Fastag.n_matched n' - Fastag.n_matched n;
  mt_off : Fastag.AutoKharcha config = false → new = [];
  mt_booked : Forall (booked_for l) new }.
Lemma settle_keys p trip k x : toll_key <$> tolls (Fastag.update_tolls p (Fastag.settle_toll trip k) x) = toll_key <$> tolls x.
Proof. cbn. rewrite <- list_fmap_compose. apply list_fmap_ext. intros i t _. cbn. by destruct (p t). Qed.
Lemma book_inv trip t (s s' : State) r :
  Fastag.book_toll config trip t s = (r, s') →
  tolls (s_tables s') = tolls (s_tables s) ∧
  match r with
  | Ok k => ∃ new, expenses (s_tables s') = (expenses (s_tables s) ++ new)%list ∧ Forall (booked_for [t]) new ∧
      List.length new = (match k with Some _ => 1 | None => 0 end)%nat ∧ (Fastag.AutoKharcha config = false → new = [])
  | Fail _ => True
  end.
Proof.
  unfold Fastag.book_toll. destruct (Fastag.AutoKharcha config); [|intros [= <- <-]; split; [done|]; exists []; by rewrite app_nil_r].
  intros H. apply bind_inv in H as [(e & H & ->)|(id & s1 & H & H1)]; apply core_inv in H as [w [_ E]].
  { by subst. }
  cbv [mbind SM_mbind SM_bind SM_try mret SM_mret SM_ret] in H1. destruct (xexec _ s1) as [q s2] eqn:H2. injection H1 as <- <-.
  apply xstmt_inv in H2 as (_ & _ & H2). subst s1. cbn [s_tables fst snd] in H2. destruct q as [[]|e]; cbn [is_Ok].
  - unfold insert_expense in H2. repeat (case_match; [discriminate H2|]). injection H2 as H2. rewrite <- H2. cbn. split; [done|].
    eexists [_]. split; [done|]. split; [|done]. apply Forall_singleton. split_and!; [done..|]. exists t. by split; [left|].
  - destruct H2 as [-> _]. split; [done|]. exists []. by rewrite app_nil_r.
Qed.
Lemma match_one_inv cands n t (s s' : State) n' :
  Fastag.match_one config cands n t s = (Ok n', s') → ∃ new, matched_to [t] n n' (s_tables s) (s_tables s') new.
Proof.
  unfold Fastag.match_one. destruct (Fastag.best_trip _ _) as [trip|].
  - intros H. run_ok H. apply book_inv in Hrun as (Ht & new & He & Hb & Hl & Hoff). exists new. rename v into k.
    cbv [mbind SM_mbind SM_bind SM_ignore mret SM_mret SM_ret] in H. destruct (xwrite _ s0) as [q s1] eqn:H1. injection H as <- <-.
    apply xwrite_inv in H1 as (_ & _ & H1). rewrite H1. split.
    + by destruct (is_Ok q).
    + rewrite <- Ht. destruct (is_Ok q); [apply settle_keys|done].
    + cbn. rewrite Hl. destruct k; lia.
    + cbn. rewrite Hl. destruct k; lia.
    + done.
    + done.
  - intros [= <- <-]. exists []. split; cbn; try done; [by rewrite app_nil_r|lia..].
Qed.
Lemma match_all_inv cands l n (s s' : State) n' :
  Fastag.match_all config cands n l s = (Ok n', s') → ∃ new, matched_to l n n' (s_tables s) (s_tables s') new.
Proof.
  revert n s. induction l as [|t l IH]; intros n s H; cbn [Fastag.match_all] in H.
  - injection H as <- <-. exists []. split; try done; [by rewrite app_nil_r|cbn; lia..].
  - run_ok H. apply match_one_inv in Hrun as [n1 [A1 A2 A3 A4 A5 A6]]. apply IH in H as [n2 [B1 B2 B3 B4 B5 B6]].
    exists (n1 ++ n2)%list. split.
    + by rewrite B1, A1, app_assoc.
    + congruence.
    + rewrite length_app. lia.
    + rewrite length_app. lia.
    + intros Hoff. by rewrite A5, B5.
    + apply Forall_app. split; (eapply Forall_impl; [eassumption|]); intros e (H1 & H2 & t' & Ht & Ha); split_and!; try done;
        exists t'; (split; [|done]); [apply list_elem_of_singleton in Ht as ->; by left|by right].
Qed.
Lemma settled_tables (m : SM State unit) (s s' : State) r :
  preserves (on_tables Fastag.only_tolls) m → m s = (r, s') → expenses (s_tables s') = expenses (s_tables s).
Proof. intros Hm H. specialize (Hm s). rewrite H in Hm. apply Hm. Qed.
(** C10: the tolls are booked as the reconciliation says.  It adds as many
    expenses as it reports, behind the others, each approved and with the
    amount of a toll of the table, no more than the tolls it matched, and
    none when the booking is switched off; whatever provider answers, and
    with any statement failing. *)
Theorem tolls_are_booked_as_reported v (σ σ' : State) res :
  Fastag.Reconcile column_text config v σ = (Ok res, σ') →
  ∃ new, expenses (s_tables σ') = (expenses (s_tables σ) ++ new)%list ∧
    Fastag.KharchaCreated res = Z.of_nat (List.length new) ∧ Fastag.KharchaCreated res <= Fastag.Matched res ∧
    (Fastag.AutoKharcha config = false → new = []) ∧
    Forall (booked_for (tolls (s_tables σ'))) new.
Proof.
  intros H. unfold Fastag.Reconcile in H. cbv [SM_try mbind SM_mbind SM_bind] in H.
  destruct (Fastag.ListTransactions v 10 σ) as [q s1] eqn:H1.
  assert (E1 : expenses (s_tables s1) = expenses (s_tables σ)).
  { pose proof (Fastag.list_only v 10 σ) as Hl. rewrite H1 in Hl. apply Hl. }
  cbv zeta in H. set (pulled := match q with Ok l => l | Fail _ => [] end) in H.
  destruct (SM_iter Fastag.persist pulled s1) as [[u|e] s2] eqn:H2; [|discriminate H].
  apply settled_tables in H2; [|apply preserves_iter; [exact _|intros ?; apply Charges.persist_only]].
  destruct (xquery _ s2) as [[todo|e] s3] eqn:H3; [|discriminate H]. apply xquery_inv in H3 as (_ & _ & E3 & Htodo).
  destruct (xquery _ s3) as [[rows|e] s4] eqn:H4; [|discriminate H]. apply xquery_inv in H4 as (_ & _ & E4 & _).
  destruct (Fastag.read_candidates rows s4) as [[cands|e] s5] eqn:H5; [|discriminate H].
  pose proof (Charges.read_candidates_same eq rows s4) as E5. rewrite H5 in E5. unfold on_tables in E5. cbn [snd] in E5.
  destruct (Fastag.match_all _ _ _ _ s5) as [[n|e] s6] eqn:H6; [|discriminate H]. injection H as <- <-.
  apply match_all_inv in H6 as (new & [M1 M2 M3 M4 M5 M6]). exists new.
  assert (E : s_tables s5 = s_tables s2) by congruence. rewrite E in M1, M2.
  split; [by rewrite M1, H2, E1|]. cbn in *. split; [lia|]. split; [lia|]. split; [done|].
  apply Forall_forall. intros e He. rewrite Forall_forall in M6. destruct (M6 e He) as (Hs & Hc & t & Ht & Ha). split_and!; [done..|].
  rewrite Htodo in Ht. unfold Fastag.unreconciled in Ht. apply order_by_in, Charges.filter_elem in Ht as [Ht _].
  assert (Hk : toll_key t ∈ toll_key <$> tolls (s_tables s6)) by (rewrite M2; apply list_elem_of_fmap; by exists t).
  apply list_elem_of_fmap in Hk as (t' & Hk & Ht'). exists t'. split; [done|]. injection Hk as _ _ Hk. by rewrite Ha.
Qed.
End Operations.
(** ** A demonstration *)
#[local] Existing Instance Scorecard.demo_json.
#[local] Existing Instance go_math.
#[local] Existing Instance demo_env.
Abbreviation history cs := (Charges.run (env := demo_env) (client := Charges.demo_client) FormatRFC3339 Charges.demo_config
  Settlement.demo_service cs Charges.demo_start).
Definition approved_day : list Charges.Command :=
  [Charges.Claim (Charges.claim_of "food" "k1" 300); Charges.Approve "id-0" "m1"].
Definition after_it : list Charges.Command :=
  [Charges.Reject "id-0" "m2" "no bill"; Charges.Claim (Charges.claim_of "food" "k1" 900);
   Charges.Settle (Settlement.Generate "t1" false)].
Abbreviation later := (Charges.run (env := demo_env) (client := Charges.demo_client) FormatRFC3339 Charges.demo_config
  Settlement.demo_service after_it (history approved_day)).
Lemma decided_is_final_witness :
  Charges.claims later = [("id-0", "approved", "pending")]%string ∧
  ∀ e, e ∈ expenses (s_tables (history approved_day)) → Status e ≠ "pending"%string →
    ∃ e', e' ∈ expenses (s_tables later) ∧ Status e' = Status e.
Proof.
  split; [by vm_compute|]. intros e He Hs.
  destruct (@decided_is_final demo_env go_math Charges.demo_client (Fastag.stub_lawful _) FormatRFC3339 Charges.demo_config
    Settlement.demo_service after_it _ e He) as (e' & He' & _ & Hd).
  exists e'. split; [exact He'|]. by injection (Hd Hs).
Defined.
Abbreviation first_claim := (Kharcha.CreateExpenseWithOpts (env := demo_env) (Charges.claim_of "food" "k1" 300) Charges.demo_start).
Abbreviation retried := (Kharcha.CreateExpenseWithOpts (env := demo_env) (Charges.claim_of "fuel" "k1" 900)
  (Charges.run (env := demo_env) (client := Charges.demo_client) FormatRFC3339 Charges.demo_config Settlement.demo_service
     [Charges.Approve "id-0" "m1"] (snd first_claim))).
Lemma retried_claim_is_the_same_witness :
  fst retried = Ok "id-0"%string ∧ ∀ id, fst retried = Ok id → id = "id-0"%string.
Proof.
  split; [by vm_compute|].
  apply (@retried_claim_is_the_same demo_env go_math Charges.demo_client (Fastag.stub_lawful _) FormatRFC3339 Charges.demo_config
    Settlement.demo_service (Charges.claim_of "food" "k1" 300) (Charges.claim_of "fuel" "k1" 900) [Charges.Approve "id-0" "m1"]
    Charges.demo_start (snd first_claim) (snd retried) "id-0" (fst retried) Charges.demo_ok);
    [split; [discriminate|reflexivity]|by vm_compute|by destruct retried].
Defined.
Abbreviation approval := (Kharcha.ApproveExpense (env := demo_env) "id-0" "m1" (snd first_claim)).
Lemma approval_is_all_or_nothing_witness :
  is_Ok (fst approval) = true ∧
  ∃ now, expenses (s_tables (snd approval)) = approved_rows "id-0" "m1" now (expenses (s_tables (snd first_claim))).
Proof.
  assert (Hok : is_Ok (fst approval) = true) by (vm_compute; reflexivity). split; [exact Hok|].
  pose proof (@approval_is_all_or_nothing demo_env "id-0" "m1" (snd first_claim) (snd approval) (fst approval)) as H.
  destruct approval as [[u|e] s']; [|discriminate Hok]. exact (proj1 (proj2 (H eq_refl))).
Defined.
Abbreviation reconciled := (Fastag.Reconcile (env := demo_env) (client := Charges.demo_client) FormatRFC3339 Charges.demo_config
  "KA01AB1234" Charges.demo_start).
(** The stub answers ten tolls of its own making when the table has none:
    they are kept, and each becomes an approved expense of the driver. *)
Lemma tolls_are_booked_as_reported_witness :
  match fst reconciled with Ok r => (Fastag.Pulled r, Fastag.KharchaCreated r) = (10, 10) | Fail _ => False end ∧
  ∃ new, expenses (s_tables (snd reconciled)) = (expenses (s_tables Charges.demo_start) ++ new)%list ∧
    ∀ e, e ∈ new → Status e = "approved"%string.
Proof.
  assert (Hok : match fst reconciled with Ok r => (Fastag.Pulled r, Fastag.KharchaCreated r) = (10, 10) | Fail _ => False end)
    by (vm_compute; reflexivity).
  split; [exact Hok|].
  pose proof (λ res, @tolls_are_booked_as_reported demo_env Charges.demo_client (Fastag.stub_lawful _) FormatRFC3339
    Charges.demo_config "KA01AB1234" Charges.demo_start (snd reconciled) res) as H.
  destruct reconciled as [[res|e] s']; [|destruct Hok]. destruct (H res eq_refl) as (new & H1 & _ & _ & _ & H2).
  exists new. split; [exact H1|]. intros e He. rewrite Forall_forall in H2. exact (proj1 (H2 e He)).
Defined.

(** *** What the dropped errors cost *)
Definition fault_at (k : nat) (n : nat) : option error := if Nat.eqb n k then Some (Err "database is locked") else None.
Lemma locked_at_ok k n e : fault_at k n = Some e → is_no_rows e = false.
Proof. unfold fault_at. case_match; [by intros [= <-]|done]. Qed.
Definition locked_at (k : nat) : Env := test_env (jan1 + day) (fault_at k) (locked_at_ok k).
Definition one_toll : TollRow :=
  mkToll "x1" "1" "TAG1" None "KA01AB1234" None "P1" "Plaza" (f64_of_Z 85) (jan1 + day / 2) "SUCCESS" "PROVIDER" false None.
Definition toll_start : State :=
  (world Charges.demo_office, mkTables [] [] [] [one_toll] Charges.demo_books [] ∅, s_out Charges.demo_start).
(** A toll whose mark as reconciled fails is booked again by the next run. *)
Example toll_booked_twice :
  (λ e, (f64_to_int64 (Amount e), Status e)) <$>
    expenses (s_tables (Charges.run (env := locked_at 5) (client := Charges.demo_client) FormatRFC3339 Charges.demo_config
      Settlement.demo_service [Charges.ReconcileTolls "KA01AB1234"; Charges.ReconcileTolls "KA01AB1234"] toll_start))
  = [(85, "approved"); (85, "approved")]%string.
Proof. vm_compute. reflexivity. Qed.
Definition gated_office : DB :=
  set_ops (Settlement.demo_ops [mkConfigRow DefaultTenant "fuel.audit_enforce" "true"]) (set_trips [Charges.demo_trip] Database.demo_db).
Definition gated_start : State := (world gated_office, s_tables Charges.demo_start, s_out Charges.demo_start).
Abbreviation gated := (Charges.run (env := demo_env) (client := Charges.demo_client) FormatRFC3339 Charges.demo_config
  Settlement.demo_service [Charges.Claim (Charges.claim_of "fuel" "" 9000); Charges.Audit] gated_start).
(** The gate refuses a flagged claim, and lets it through when its
    configuration cannot be read. *)
Example gate_opens_on_a_fault :
  fst (Kharcha.ApproveExpense (env := demo_env) "id-0" "m1" gated) =
    Fail (Err "claim flagged by fuel audit (needs review); review at /fuel/audit") ∧
  fst (Kharcha.ApproveExpense (env := locked_at (S (w_stmts (s_world gated)))) "id-0" "m1" gated) = Ok tt.
Proof. vm_compute. auto. Qed.
(** One fuel claim without an audit row hides the whole queue. *)
Example unaudited_claim_hides_the_queue :
  is_Ok (fst (FuelClaims.ListAuditClaims (env := demo_env) gated)) = true ∧
  fst (FuelClaims.ListAuditClaims (env := demo_env)
    (Charges.step (env := demo_env) (client := Charges.demo_client) FormatRFC3339 Charges.demo_config Settlement.demo_service
       (Charges.Claim (Charges.claim_of "fuel" "" 500)) gated)) = Fail (Err "converting NULL to float64 is unsupported").
Proof. vm_compute. auto. Qed.
End ClaimHistory.
