(* ===== verification/Tokens.v ===== *)
(** * Tokens and roles

    [internal/auth]: the hash of a token (session.go), the signed token of
    the API (apitoken.go), the store of reset tokens (reset_token.go), the
    policy for passwords (password.go), the tables of roles; and the
    protection of requests against other sites (internal/middleware/csrf.go).
    The base64 codec of Go is executable here, with its round trip. *)
From stdpp Require Import base decidable list strings option gmap.
From Stdlib Require Import ZArith Lia Ascii String.
From S2P Require Import Prelude GoCrypto Shared GoTime Database.
Open Scope Z_scope.

(** ** [base64.RawURLEncoding] *)
Module Base64.
(** Groups of three bytes are four numbers of six bits. *)
Fixpoint enc (l : list Z) : list Z :=
  match l with
  | [] => []
  | [a] => [a / 4; a mod 4 * 16]
  | [a; b] => [a / 4; a mod 4 * 16 + b / 16; b mod 16 * 4]
  | a :: b :: c :: l => a / 4 :: a mod 4 * 16 + b / 16 :: b mod 16 * 4 + c / 64 :: c mod 64 :: enc l
  end.
(** The bits behind the last byte are not looked at. *)
Fixpoint dec (l : list Z) : option (list Z) :=
  match l with
  | [] => Some []
  | [_] => None
  | [a; b] => Some [a * 4 + b / 16]
  | [a; b; c] => Some [a * 4 + b / 16; b mod 16 * 16 + c / 4]
  | a :: b :: c :: d :: l =>
      r ← dec l; Some (a * 4 + b / 16 :: b mod 16 * 16 + c / 4 :: c mod 4 * 64 + d :: r)
  end.
Definition digit (n : Z) : ascii :=
  byte_of (if n <? 26 then 65 + n else if n <? 52 then 71 + n else if n <? 62 then n - 4 else if n =? 62 then 45 else 95).
Definition value (c : ascii) : option Z :=
  let v := byte_val c in
  if (65 <=? v) && (v <=? 90) then Some (v - 65)
  else if (97 <=? v) && (v <=? 122) then Some (v - 71)
  else if (48 <=? v) && (v <=? 57) then Some (v + 4)
  else if v =? 45 then Some 62 else if v =? 95 then Some 63 else None.
Definition line_end (c : ascii) : bool := (byte_val c =? 10) || (byte_val c =? 13).
Definition EncodeToString (s : string) : string := string_of_list_ascii (digit <$> enc (bytes s)).
Definition DecodeString (s : string) : option string :=
  l ← mapM value (List.filter (λ c, negb (line_end c)) (list_ascii_of_string s)); of_bytes <$> dec l.

Definition byte (z : Z) : Prop := 0 <= z < 256.
Definition six (z : Z) : Prop := 0 <= z < 64.
Lemma enc_six l : Forall byte l → Forall six (enc l).
Proof.
  revert l. fix IH 1. intros [|a [|b [|c l]]] H; [constructor|..]; cbn [enc];
    repeat match goal with H : Forall byte (_ :: _) |- _ => apply Forall_cons in H as [? H] end;
    repeat (apply Forall_cons_2); try (by apply IH); try constructor; unfold byte, six in *; Z.to_euclidean_division_equations; lia.
Qed.
Lemma dec_enc l : Forall byte l → dec (enc l) = Some l.
Proof.
  revert l. fix IH 1. intros [|a [|b [|c l]]] H; [done|..]; cbn [enc dec];
    repeat match goal with H : Forall byte (_ :: _) |- _ => apply Forall_cons in H as [? H] end.
  3: rewrite (IH l H); cbn [mbind option_bind].
  all: repeat f_equal; unfold byte in *; Z.to_euclidean_division_equations; lia.
Qed.
Lemma bytes_byte s : Forall byte (bytes s).
Proof. apply Forall_forall. intros z Hz. apply list_elem_of_fmap in Hz as (c & -> & _). apply byte_val_range. Qed.
Lemma digit_all (P : ascii → Z → Prop) : (∀ n, (n < 64)%nat → P (digit (Z.of_nat n)) (Z.of_nat n)) → ∀ z, six z → P (digit z) z.
Proof. intros H z [Hz1 Hz2]. specialize (H (Z.to_nat z) ltac:(lia)). by rewrite Z2Nat.id in H by lia. Qed.
Lemma value_digit z : six z → value (digit z) = Some z.
Proof. revert z. apply (digit_all (λ c z, value c = Some z)). intros n Hn. do 64 (destruct n as [|n]; [reflexivity|]). lia. Qed.
Lemma digit_plain z : six z → line_end (digit z) = false ∧ digit z ≠ "."%char.
Proof. revert z. apply (digit_all (λ c z, line_end c = false ∧ c ≠ "."%char)). intros n Hn. do 64 (destruct n as [|n]; [done|]). lia. Qed.
Lemma decode_encode s : DecodeString (EncodeToString s) = Some s.
Proof.
  unfold DecodeString, EncodeToString. rewrite list_ascii_of_string_of_list_ascii. pose proof (enc_six _ (bytes_byte s)) as H6.
  assert (mapM value (List.filter (λ c, negb (line_end c)) (digit <$> enc (bytes s))) = Some (enc (bytes s))) as ->.
  { induction H6 as [|z l Hz Hl IH]; [done|]. cbn. destruct (digit_plain z Hz) as [-> _]. cbn. by rewrite value_digit, IH. }
  cbn. rewrite dec_enc by apply bytes_byte. cbn. by rewrite of_bytes_bytes.
Qed.
Lemma encode_plain s : Forall (λ c, c ≠ "."%char) (list_ascii_of_string (EncodeToString s)).
Proof.
  unfold EncodeToString. rewrite list_ascii_of_string_of_list_ascii. apply Forall_fmap.
  eapply Forall_impl; [apply enc_six, bytes_byte|]. intros z Hz. by apply digit_plain.
Qed.
End Base64.

(** ** Tokens of the API *)
Module ApiToken.
Record APITokenClaims := mkClaims { UserID : string; Role : string; TenantID : string; IssuedAt : Z; ExpiresAt : Z }.
Definition ErrTokenInvalid : error := Err "api token invalid".
Definition ErrTokenExpired : error := Err "api token expired".
Definition ErrTokenRevoked : error := Err "api token revoked or user inactive".
(** [time.Time.Unix]. *)
Definition Unix (t : Time) : Z := t / 1000000000 - 62135596800.
(** [strings.SplitN(token, ".", 2)] when it has two parts. *)
Fixpoint cut_dot (s : string) : option (string * string) :=
  match s with
  | EmptyString => None
  | String c s =>
      if Ascii.eqb c "." then Some (""%string, s)
      else match cut_dot s with Some (a, b) => Some (String c a, b) | None => None end
  end.
Definition computeHMAC (secret data : string) : string := Base64.EncodeToString (hmac_sha256 secret data).
Definition sign (secret payload : string) : string := (payload +:+ "." +:+ computeHMAC secret payload)%string.
Lemma cut_sign p q : Forall (λ c, c ≠ "."%char) (list_ascii_of_string p) → cut_dot (p +:+ "." +:+ q) = Some (p, q).
Proof.
  induction p as [|c p IH]; intros H; [done|]. cbn in H. apply Forall_cons in H as [Hc H].
  change ((String c p) +:+ "." +:+ q)%string with (String c (p +:+ "." +:+ q)). cbn [cut_dot].
  apply Ascii.eqb_neq in Hc. rewrite Hc. by rewrite (IH H).
Qed.
Lemma cut_dot_inv s p q : cut_dot s = Some (p, q) → s = (p +:+ "." +:+ q)%string.
Proof.
  revert p. induction s as [|c s IH]; [done|]. intros p. cbn [cut_dot]. destruct (Ascii.eqb c ".") eqn:E.
  - apply Ascii.eqb_eq in E as ->. by intros [= <- <-].
  - destruct (cut_dot s) as [[a b]|]; [|done]. intros [= <- <-]. by rewrite (IH a eq_refl).
Qed.

Section Token.
Context {env : Env} (marshal : APITokenClaims → string) (unmarshal : string → option APITokenClaims).
(** The claims with the times an issuer left out. *)
Definition with_iat (t : Z) (c : APITokenClaims) : APITokenClaims := mkClaims (UserID c) (Role c) (TenantID c) t (ExpiresAt c).
Definition with_exp (t : Z) (c : APITokenClaims) : APITokenClaims := mkClaims (UserID c) (Role c) (TenantID c) (IssuedAt c) t.
Definition token_of (secret : string) (c : APITokenClaims) : string := sign secret (Base64.EncodeToString (marshal c)).
Definition IssueAPIToken (secret : string) (c : APITokenClaims) : M string :=
  c ← (if IssuedAt c =? 0 then now ← Now; mret (with_iat (Unix now) c) else mret c);
  c ← (if ExpiresAt c =? 0 then now ← Now; mret (with_exp (Unix (now + day)) c) else mret c);
  mret (token_of secret c).
Definition ParseAPIToken (secret token : string) : M APITokenClaims :=
  match cut_dot token with
  | None => SM_fail ErrTokenInvalid
  | Some (payload, sig) =>
      if negb (hmac_Equal sig (computeHMAC secret payload)) then SM_fail ErrTokenInvalid
      else
        match Base64.DecodeString payload ≫= unmarshal with
        | None => SM_fail ErrTokenInvalid
        | Some claims => now ← Now; if ExpiresAt claims <? Unix now then SM_fail ErrTokenExpired else mret claims
        end
  end.

Lemma parse_inv secret token (w w' : World) c :
  ParseAPIToken secret token w = (Ok c, w') →
  (∃ payload, token = sign secret payload ∧ (Base64.DecodeString payload ≫= unmarshal) = Some c) ∧
  Unix (clock_now (w_clock w)) <= ExpiresAt c ∧ w_db w' = w_db w ∧ w_stmts w' = w_stmts w.
Proof.
  unfold ParseAPIToken. destruct (cut_dot token) as [[p s]|] eqn:Hc; [|discriminate].
  destruct (hmac_Equal s _) eqn:Hs; [|discriminate]. cbn [negb]. apply String.eqb_eq in Hs. subst s.
  destruct (_ ≫= unmarshal) as [c'|] eqn:Hu; [|discriminate]. intros H. run_ok H. injection Hrun as <- <-.
  destruct (_ <? _) eqn:E; [discriminate H|]. injection H as <- <-. split_and!; [|by apply Z.ltb_ge|done|done].
  exists p. split; [by apply cut_dot_inv|done].
Qed.
Lemma parse_issued secret c (w : World) :
  unmarshal (marshal c) = Some c → Unix (clock_now (w_clock w)) <= ExpiresAt c →
  ParseAPIToken secret (token_of secret c) w = (Ok c, tick_clock w).
Proof.
  intros Hu He. unfold ParseAPIToken, token_of, sign. rewrite cut_sign by apply Base64.encode_plain.
  unfold hmac_Equal. rewrite String.eqb_refl. cbn [negb]. rewrite Base64.decode_encode. cbn [mbind option_bind]. rewrite Hu.
  cbv [mbind SM_mbind SM_bind Now]. apply Z.ltb_ge in He. by rewrite He.
Qed.
Lemma issue_inv secret c (w w' : World) token :
  IssueAPIToken secret c w = (Ok token, w') →
  ∃ c', token = token_of secret c' ∧ UserID c' = UserID c ∧ Role c' = Role c ∧ TenantID c' = TenantID c ∧
    (ExpiresAt c ≠ 0 → ExpiresAt c' = ExpiresAt c) ∧ (IssuedAt c ≠ 0 → IssuedAt c' = IssuedAt c).
Proof.
  unfold IssueAPIToken. intros H. run_ok H. rename Hrun into H1. run_ok H. rename Hrun into H2. injection H as <- _.
  exists v0. split; [done|].
  destruct (IssuedAt c =? 0) eqn:E1; [run_ok H1; injection H1 as <- _|injection H1 as <- _];
    (destruct (ExpiresAt _ =? 0) eqn:E2 in H2; [run_ok H2; injection H2 as <- _|injection H2 as <- _]);
    cbn in *; split_and!; try done; lia.
Qed.
End Token.
End ApiToken.

(** ** Reset tokens *)
Module ResetToken.
Record entry := mkEntry { email : string; expires : Time }.
Abbreviation store := (gmap string entry).
Definition lifetime (ttl : Z) : Z := if ttl <=? 0 then 30 * 60 * 1000000000 else ttl.
Definition live (now : Time) (kv : string * entry) : Prop := (expires (snd kv) <? now) = false.
#[export] Instance live_decision now kv : Decision (live now kv).
Proof. apply bool_eq_dec. Defined.
Definition sweepLocked (now : Time) (m : store) : store := filter (live now) m.
(** The entry is made with a later reading of the clock than the sweep. *)
Definition create_at (key e : string) (ttl : Z) (now now2 : Time) (m : store) : store :=
  <[key := mkEntry e (now2 + lifetime ttl)]> (sweepLocked now m).
Definition consume_at (key : string) (now : Time) (m : store) : option string * store :=
  let m := sweepLocked now m in
  (match m !! key with Some e => if expires e <? now then None else Some (email e) | None => None end, delete key m).
End ResetToken.

(** ** Passwords *)
Module Password.
Definition ErrWeakPassword : error :=
  Err "password must be at least 8 characters and include at least one letter and one digit".
Section Policy.
(** Whether one of the runes of a text is a letter, a digit. *)
Context (has_letter has_digit : string → bool).
Definition ValidatePassword (p : string) : result unit :=
  if len p <? 8 then Fail ErrWeakPassword
  else if negb (has_letter p) || negb (has_digit p) then Fail ErrWeakPassword else Ok tt.
End Policy.
(** [strings.ToUpper] of one byte: a byte that is no rune of its own is
    replaced by U+FFFD. *)
Definition upper_byte (c : ascii) : string :=
  let v := byte_val c in
  if (97 <=? v) && (v <=? 122) then String (byte_of (v - 32)) ""
  else if v <? 128 then String c ""
  else of_bytes [239; 191; 189].
Definition sanitizeName (name : string) : string :=
  match TrimSpace name with EmptyString => "" | String c s => (upper_byte c +:+ s)%string end.
End Password.

(** ** Roles *)
Module Roles.
Definition RoleNameForID (id : Z) : string :=
  if id =? 1 then "admin" else if id =? 2 then "dispatcher" else if id =? 3 then "accountant"
  else if id =? 4 then "viewer" else if id =? 5 then "driver" else if id =? 6 then "org_admin" else "dispatcher".
Definition DefaultRoleID (r : string) : Z :=
  if String.eqb r "admin" then 1 else if String.eqb r "dispatcher" then 2 else if String.eqb r "accountant" then 3
  else if String.eqb r "viewer" then 4 else if String.eqb r "driver" then 5 else if String.eqb r "org_admin" then 6 else 2.
(** The middleware has a table of its own. *)
Definition roleIDFromName (r : string) : Z :=
  if String.eqb r "admin" then 1 else if String.eqb r "dispatcher" then 2 else if String.eqb r "accountant" then 3 else 4.
Definition RoleRequired (allowed : list Z) (role : string) : bool := existsb (Z.eqb (roleIDFromName role)) allowed.
(** The roles that may act on a resource. *)
Definition permissions (resource : string) : option (list Z) :=
  snd <$> List.find (λ kv, String.eqb (fst kv) resource) [("users", [1; 6]); ("drivers", [1; 6; 2]); ("vehicles", [1; 6; 2; 5]); ("customers", [1; 6; 2]);
    ("routes", [1; 6; 2; 5]); ("bookings", [1; 6; 2]); ("trips", [1; 6; 2; 5]); ("invoices", [1; 6; 3]);
    ("payments", [1; 6; 3]); ("reports", [1; 6; 2; 3])]%string.
Definition readResources : list string :=
  ["drivers"; "vehicles"; "customers"; "routes"; "bookings"; "trips"; "invoices"; "payments"; "reports"]%string.
Definition HasPermission (role : Z) (resource action : string) : bool :=
  if (role =? 4) && existsb (String.eqb resource) readResources && String.eqb action "read" then true
  else match permissions resource with Some l => existsb (Z.eqb role) l | None => false end.
(** The names and the numbers of the roles are the same roles; the
    middleware takes the owner of an organisation for a viewer. *)
Example roles_round_trip :
  (λ r, RoleNameForID (DefaultRoleID r)) <$> ["admin"; "dispatcher"; "accountant"; "viewer"; "driver"; "org_admin"]%string
  = ["admin"; "dispatcher"; "accountant"; "viewer"; "driver"; "org_admin"]%string ∧
  roleIDFromName "org_admin" = 4 ∧ DefaultRoleID "org_admin" = 6.
Proof. done. Qed.
End Roles.

(** ** Requests from another site *)
Module Csrf.
Record Request := mkRequest {
  Method : string; Authorization : string; Origin : string; Referer : string; Host : string; XForwardedHost : string;
  RemoteAddr : string; has_cookie : bool }.
Section Protect.
(** [url.Parse(s)] and the host of the result; whether an address is that of
    a trusted proxy; [strings.EqualFold]. *)
Context (url_host : string → option string) (IsTrustedProxy : string → bool) (EqualFold : string → string → bool).
Definition isSafeMethod (m : string) : bool := existsb (String.eqb m) ["GET"; "HEAD"; "OPTIONS"; "TRACE"]%string.
Definition hasOriginHeader (r : Request) : bool := negb (is_empty (Origin r)) || negb (is_empty (Referer r)).
Fixpoint before_comma (s : string) : string :=
  match s with EmptyString => "" | String c s => if Ascii.eqb c "," then "" else String c (before_comma s) end.
Definition sameOrigin (r : Request) : bool :=
  let origin := if is_empty (Origin r) then Referer r else Origin r in
  if is_empty origin then true
  else
    match url_host origin with
    | None => false
    | Some h =>
        let host := if IsTrustedProxy (RemoteAddr r) && negb (is_empty (XForwardedHost r))
                    then TrimSpace (before_comma (XForwardedHost r)) else Host r in
        EqualFold h host
    end.
(** Whether the request goes through. *)
Definition csrfProtect (strict : bool) (r : Request) : bool :=
  isSafeMethod (Method r) || String.prefix "Bearer " (Authorization r) || negb (has_cookie r) ||
  (sameOrigin r && negb (strict && negb (hasOriginHeader r))).
End Protect.
End Csrf.
