(* ===== verification/Auth.v ===== *)
(** * Users, sessions and logins

    [internal/repository/sqlite/auth.go] with the statements of
    [db/generated/sqlite], [internal/service/auth_service.go],
    [user_service.go], the cookie of [internal/auth/session.go], the
    principal of an API request ([internal/middleware/api_auth.go]) and the
    password flows of [internal/handlers/auth.go]. *)
From stdpp Require Import base decidable list strings option gmap.
From Stdlib Require Import ZArith Lia Ascii String.
From S2P Require Import Prelude GoCrypto Shared GoTime Database Repository SideTables Alerts Tokens.
Open Scope Z_scope.

Module Auth.

(** ** Tables *)
Record UserRow := mkUser {
  ID : string; Email : string; PasswordHash : string; Name : string; Phone : option string; RoleID : Z;
  Status : string; LastLoginAt : option Time; ThemePreference : string; CreatedAt : Time; UpdatedAt : Time }.
Record RoleRow := mkRole { ro_ID : Z; ro_Name : string }.
Record SessionRow := mkSession {
  se_ID : string; se_UserID : string; se_TokenHash : string; se_ExpiresAt : Time; se_CreatedAt : Time }.
Record Tables := mkTables { users : list UserRow; roles : list RoleRow; sessions : list SessionRow }.
Definition set_users l (x : Tables) : Tables := mkTables l (roles x) (sessions x).
Definition set_sessions l (x : Tables) : Tables := mkTables (users x) (roles x) l.
(** In memory: the reset tokens, and how much randomness was drawn. *)
Record Memory := mkMemory { resets : ResetToken.store; drawn : nat }.
Abbreviation State := (World * Tables * Memory)%type.
Abbreviation AM := (XM Tables Memory).

(** A user with its role; the role is empty when it was not found. *)
Record User := mkUserR { u_row : UserRow; u_Role : RoleRow }.
Record SessionWithUser := mkSU {
  su_UserID : string; su_ExpiresAt : Time; su_UserName : string; su_RoleName : string; su_UserStatus : string }.
Record SessionData := mkData { UserID : string; Role : string; d_Name : string; Expires : Z; Token : string }.
Record LoginResult := mkLogin { l_User : User; SessionToken : string }.

Definition by_id (id : string) (u : UserRow) : bool := String.eqb (ID u) id.
Definition by_email (e : string) (u : UserRow) : bool := String.eqb (Email u) e.
Definition find_user (id : string) (x : Tables) : option UserRow := List.find (by_id id) (users x).
Definition find_email (e : string) (x : Tables) : option UserRow := List.find (by_email e) (users x).
Definition find_role (id : Z) (x : Tables) : option RoleRow := List.find (λ r, ro_ID r =? id) (roles x).
(** The row of [sessions] with its user and its role. *)
Definition joined (hash : string) (x : Tables) : option SessionWithUser :=
  head (omap (λ s,
    if String.eqb (se_TokenHash s) hash then
      u ← find_user (se_UserID s) x; r ← find_role (RoleID u) x;
      Some (mkSU (se_UserID s) (se_ExpiresAt s) (Name u) (ro_Name r) (Status u))
    else None) (sessions x)).
Definition insert_user (u : UserRow) (x : Tables) : result UserRow * Tables :=
  if existsb (by_id (ID u)) (users x) then (Fail (Err "UNIQUE constraint failed: users.id"), x)
  else if existsb (by_email (Email u)) (users x) then (Fail (Err "UNIQUE constraint failed: users.email"), x)
  else (Ok u, set_users (users x ++ [u])%list x).
Definition insert_session (s : SessionRow) (x : Tables) : result unit * Tables :=
  if existsb (λ t, String.eqb (se_ID t) (se_ID s)) (sessions x) then (Fail (Err "UNIQUE constraint failed: sessions.id"), x)
  else (Ok tt, set_sessions (sessions x ++ [s])%list x).
Definition map_user (id : string) (f : UserRow → UserRow) (x : Tables) : Tables :=
  set_users ((λ u, if by_id id u then f u else u) <$> users x) x.
(** [UPDATE ... WHERE id = ? RETURNING ...]. *)
Definition update_user (id : string) (f : UserRow → UserRow) (x : Tables) : result UserRow * Tables :=
  match find_user id x with Some u => (Ok (f u), map_user id f x) | None => (Fail ErrNoRows, x) end.
Definition with_details (email name : string) (phone : option string) (role : Z) (status : string) (now : Time) (u : UserRow) : UserRow :=
  mkUser (ID u) email (PasswordHash u) name phone role status (LastLoginAt u) (ThemePreference u) (CreatedAt u) now.
Definition with_password (h : string) (now : Time) (u : UserRow) : UserRow :=
  mkUser (ID u) (Email u) h (Name u) (Phone u) (RoleID u) (Status u) (LastLoginAt u) (ThemePreference u) (CreatedAt u) now.
Definition with_theme (t : string) (now : Time) (u : UserRow) : UserRow :=
  mkUser (ID u) (Email u) (PasswordHash u) (Name u) (Phone u) (RoleID u) (Status u) (LastLoginAt u) t (CreatedAt u) now.
Definition with_login (now : Time) (u : UserRow) : UserRow :=
  mkUser (ID u) (Email u) (PasswordHash u) (Name u) (Phone u) (RoleID u) (Status u) (Some now) (ThemePreference u) (CreatedAt u) (UpdatedAt u).
(** An update of an email that another user has. *)
Definition email_taken (id e : string) (x : Tables) : bool := existsb (λ u, negb (by_id id u) && by_email e u) (users x).

(** ** What the code calls: randomness and bcrypt *)
Class Crypto := {
  (** The n-th draw of random bytes. *)
  random_bytes : nat → result string;
  (** A hash draws a salt. *)
  bcrypt_hash : nat → string → result string;
  bcrypt_check : string → string → bool;
  bcrypt_hashed n p h : bcrypt_hash n p = Ok h → bcrypt_check h p = true }.

Definition ErrInvalidCredentials : error := Err "invalid email or password".
Definition ErrUserNotFound : error := Err "user not found".
Definition ErrUserEmailExists : error := Err "user with this email already exists".
Definition ErrUnauthorized : error := Err "unauthorized".
Definition ErrSessionExpired : error := Err "session has expired".
Definition ErrUserEmailRequired : error := Err "email is required".
Definition ErrUserPhoneRequired : error := Err "phone number is required".
Definition ErrWeakPassword : error := Err "password must be at least 8 characters".
Definition active (s : string) : bool := String.eqb s "active".
Definition no_role : RoleRow := mkRole 0 "".
Definition hour24 : Z := day.

Section Service.
Context {env : Env} {cr : Crypto}.
(** [tokenSecret]; [SessionMaxAge]; whether this connection enforces foreign
    keys. *)
Context (secret : string) (session_max_age : Z) (foreign_keys : bool).

(** *** Randomness *)
Definition draw {A} (f : nat → result A) : AM A :=
  n ← SM_get (λ s : State, drawn (s_out s));
  _ ← outside (λ m, mkMemory (resets m) (S (drawn m)));
  SM_lift (f n).
Definition HashToken (token : string) : string := hex_encode (hmac_sha256 secret token).
Definition GenerateSecureToken : AM string := b ← draw random_bytes; mret (hex_encode b).
Definition HashPassword (p : string) : AM string := draw (λ n, bcrypt_hash n p).
Definition generateTemporaryPassword : AM string := b ← draw random_bytes; mret (Base64.EncodeToString b).

(** *** The store *)
Definition GetRoleByID (id : Z) : AM RoleRow := xquery_row (λ _ _ x, find_role id x).
(** The role of a user; an error leaves it empty. *)
Definition with_role (u : UserRow) : AM User :=
  r ← SM_try (GetRoleByID (RoleID u));
  mret (mkUserR u (match r with Ok r => r | Fail _ => no_role end)).
Definition GetUserByID (id : string) : AM User := u ← xquery_row (λ _ _ x, find_user id x); with_role u.
Definition GetUserByEmail (e : string) : AM User := u ← xquery_row (λ _ _ x, find_email e x); with_role u.
Definition CreateUserRow (u : Time → UserRow) : AM User := r ← xexec (λ now _ x, insert_user (u now) x); with_role r.
Definition UpdateUserRow (u : UserRow) (role : Z) : AM User :=
  r ← xexec (λ now _ x,
    if email_taken (ID u) (Email u) x then (Fail (Err "UNIQUE constraint failed: users.email"), x)
    else update_user (ID u) (with_details (Email u) (Name u) (Phone u) role (Status u) now) x);
  with_role r.
Definition UpdateUserPassword (id h : string) : AM User :=
  r ← xexec (λ now _ x, update_user id (with_password h now) x); with_role r.
Definition UpdateUserThemePreference (id theme : string) : AM User :=
  r ← xexec (λ now _ x, update_user id (with_theme theme now) x); with_role r.
Definition UpdateUserLastLogin (id : string) : AM User :=
  r ← xexec (λ now _ x, update_user id (with_login now) x); with_role r.
Definition DeleteUserRow (id : string) : AM unit :=
  xwrite (λ _ x, let x := set_users (List.filter (λ u, negb (by_id id u)) (users x)) x in
                 if foreign_keys then set_sessions (List.filter (λ s, negb (String.eqb (se_UserID s) id)) (sessions x)) x else x).
Definition CreateSession (id user hash : string) (expires : Time) : AM unit :=
  xexec (λ now _ x, insert_session (mkSession id user hash expires now) x).
Definition GetSessionByToken (h : string) : AM SessionWithUser := xquery_row (λ _ _ x, joined h x).
Definition DeleteSession (h : string) : AM unit :=
  xwrite (λ _ x, set_sessions (List.filter (λ s, negb (String.eqb (se_TokenHash s) h)) (sessions x)) x).

Definition logAudit (user : option string) (action table recordID : string) : AM unit :=
  SM_ignore
    (id ← core GenerateUUID;
     core (CreateAuditLog (mkAuditRow id user action table recordID None None getUserIP))).

(** *** AuthService *)
Definition open_session (user : string) (max_age : Z) : AM string :=
  token ← GenerateSecureToken;
  id ← core GenerateUUID;
  now ← core Now;
  _ ← CreateSession id user (HashToken token) (now + max_age);
  mret token.
Definition Login (email password : string) : AM LoginResult :=
  u ← SM_map_err (λ _, ErrInvalidCredentials) (GetUserByEmail email);
  if negb (bcrypt_check (PasswordHash (u_row u)) password) then SM_fail ErrInvalidCredentials
  else if negb (active (Status (u_row u))) then SM_fail ErrUnauthorized
  else
    _ ← SM_try (UpdateUserLastLogin (ID (u_row u)));
    token ← open_session (ID (u_row u)) hour24;
    _ ← logAudit (Some (ID (u_row u))) "login" "users" (ID (u_row u));
    mret (mkLogin u token).
Definition CreateSessionForUser (id : string) : AM LoginResult :=
  u ← GetUserByID id;
  if negb (active (Status (u_row u))) then SM_fail ErrUnauthorized
  else
    token ← open_session (ID (u_row u)) (if 0 <? session_max_age then session_max_age else hour24);
    mret (mkLogin u token).
Definition ValidateSessionToken (token : string) : AM SessionData :=
  s ← GetSessionByToken (HashToken token);
  now ← core Now;
  if su_ExpiresAt s <? now then SM_fail ErrUnauthorized
  else if negb (active (su_UserStatus s)) then SM_fail ErrUnauthorized
  else mret (mkData (su_UserID s) (su_RoleName s) (su_UserName s) (ApiToken.Unix (su_ExpiresAt s)) token).
Definition ValidateAPITokenUser (id : string) : AM (string * bool) :=
  u ← GetUserByID id;
  if negb (active (Status (u_row u))) then mret (""%string, false) else mret (ro_Name (u_Role u), true).
Definition Logout (token : string) : AM unit := DeleteSession (HashToken token).
Definition RevokeSessionToken (token : string) : AM unit := Logout token.
Definition ChangePassword (id old new_ : string) : AM unit :=
  u ← GetUserByID id;
  if negb (active (Status (u_row u))) then SM_fail ErrUnauthorized
  else if negb (bcrypt_check (PasswordHash (u_row u)) old) then SM_fail ErrInvalidCredentials
  else if len new_ <? 8 then SM_fail ErrWeakPassword
  else h ← HashPassword new_; _ ← UpdateUserPassword id h; mret tt.
Definition GetProfile (id : string) : AM User := GetUserByID id.
(** The time zone is no column: it is lost. *)
Definition UpdateProfile (id name phone timezone : string) : AM User :=
  u ← GetUserByID id;
  if negb (active (Status (u_row u))) then SM_fail ErrUnauthorized
  else
    let r := u_row u in
    UpdateUserRow (mkUser (ID r) (Email r) (PasswordHash r) (Password.sanitizeName name) (nonempty (Some phone)) (RoleID r)
      (Status r) (LastLoginAt r) (ThemePreference r) (CreatedAt r) (UpdatedAt r)) (ro_ID (u_Role u)).
Definition VerifySession (token : string) : AM User :=
  s ← SM_map_err (λ _, ErrSessionExpired) (GetSessionByToken (HashToken token));
  now ← core Now;
  if su_ExpiresAt s <? now then _ ← SM_ignore (DeleteSession (HashToken token)); SM_fail ErrSessionExpired
  else SM_map_err (λ _, ErrUserNotFound) (GetUserByID (su_UserID s)).

(** *** UserService *)
Definition email_known (email : string) : AM bool := r ← SM_try (GetUserByEmail email); mret (is_Ok r).
Definition new_user (id email h name phone : string) (role : Z) (status : string) (now : Time) : UserRow :=
  mkUser id email h (Password.sanitizeName name) (nonempty (Some phone)) role status None "system" now now.
Definition CreateUser (email name phone : string) (role : Z) (status : string) : AM User :=
  if is_empty email then SM_fail ErrUserEmailRequired
  else if is_empty phone then SM_fail ErrUserPhoneRequired
  else
    known ← email_known email;
    if known : bool then SM_fail ErrUserEmailExists
    else
      _ ← SM_map_err (λ _, Err "invalid role") (GetRoleByID role);
      p ← generateTemporaryPassword;
      h ← HashPassword p;
      id ← core GenerateUUID;
      CreateUserRow (new_user id email h name phone role status).
Definition CreateUserWithPassword (email name phone password : string) (role : Z) (status : string) : AM User :=
  if is_empty email then SM_fail ErrUserEmailRequired
  else if is_empty phone then SM_fail ErrUserPhoneRequired
  else if len password <? 8 then SM_fail ErrWeakPassword
  else
    known ← email_known email;
    if known : bool then SM_fail ErrUserEmailExists
    else
      _ ← SM_map_err (λ _, Err "invalid role") (GetRoleByID role);
      h ← HashPassword password;
      id ← core GenerateUUID;
      CreateUserRow (new_user id email h name phone role status).
(** The existing user of an email; the zero value when there is an error. *)
Definition existing_of (email : string) : AM (string * string) :=
  r ← SM_try (GetUserByEmail email);
  mret (match r with Ok u => (ID (u_row u), Email (u_row u)) | Fail _ => (""%string, ""%string) end).
Definition UpdateUser (id email name phone : string) (role : Z) (status : string) : AM User :=
  u ← SM_map_err (λ _, ErrUserNotFound) (GetUserByID id);
  e ← existing_of email;
  let r := u_row u in
  if negb (String.eqb (fst e) (ID r)) && String.eqb (snd e) email then SM_fail ErrUserEmailExists
  else
    UpdateUserRow (mkUser (ID r) email (PasswordHash r) (Password.sanitizeName name) (nonempty (Some phone)) (RoleID r) status
      (LastLoginAt r) (ThemePreference r) (CreatedAt r) (UpdatedAt r)) role.
Definition DeleteUser (id : string) : AM unit := DeleteUserRow id.
Section Policy.
Context (has_letter has_digit : string → bool).
Definition SetPasswordByEmail (email new_ : string) : AM unit :=
  u ← SM_map_err (λ _, ErrUserNotFound) (GetUserByEmail email);
  _ ← SM_lift (Password.ValidatePassword has_letter has_digit new_);
  h ← HashPassword new_; _ ← UpdateUserPassword (ID (u_row u)) h; mret tt.
End Policy.
(** The temporary password is told to nobody. *)
Definition ResetPassword (id : string) : AM unit :=
  p ← generateTemporaryPassword; h ← HashPassword p; _ ← UpdateUserPassword id h; mret tt.
Definition UpdateThemePreference (id theme : string) : AM User :=
  if negb (existsb (String.eqb theme) ["light"; "dark"; "system"]%string)
  then SM_fail (Err "invalid theme preference: must be 'light', 'dark', or 'system'")
  else UpdateUserThemePreference id theme.

(** *** Reset tokens *)
Definition set_resets (m : ResetToken.store) (o : Memory) : Memory := mkMemory m (drawn o).
Definition CreateReset (ttl : Z) (email : string) : AM string :=
  token ← GenerateSecureToken;
  now ← core Now;
  now2 ← core Now;
  _ ← outside (λ o, set_resets (ResetToken.create_at (HashToken token) email ttl now now2 (resets o)) o);
  mret token.
Definition ConsumeReset (token : string) : AM (option string) :=
  now ← core Now;
  m ← SM_get (λ s : State, resets (s_out s));
  let '(r, m) := ResetToken.consume_at (HashToken token) now m in
  _ ← outside (set_resets m);
  mret r.
(** The link of a forgotten password, when there is a user to give it to. *)
Definition ForgotPassword (ttl : Z) (email : string) : AM (option string) :=
  if is_empty email then mret None
  else
    u ← SM_try (GetUserByEmail email);
    match u with
    | Ok u =>
        if active (Status (u_row u))
        then t ← SM_try (CreateReset ttl email); mret (match t with Ok t => Some t | Fail _ => None end)
        else mret None
    | Fail _ => mret None
    end.
Definition RedeemReset (has_letter has_digit : string → bool) (token new_ : string) : AM unit :=
  if is_empty token then SM_fail (Err "token and password are required")
  else
    email ← ConsumeReset token;
    match email with
    | Some email => SetPasswordByEmail has_letter has_digit email new_
    | None => SM_fail (Err "this reset link is invalid or has expired")
    end.

(** *** The cookie, and the principal of a request *)
(** [gorilla/securecookie]; the validator may be absent. *)
Context (cookie_decode : string → option SessionData) (cookie_encode : SessionData → option string) (validator : bool).
(** The value of the cookie that is set. *)
Definition CreateSessionWithToken (user role name token : string) : AM string :=
  now ← core Now;
  mret (default ""%string (cookie_encode (mkData user role name (ApiToken.Unix (now + hour24)) token))).
Definition CreateSessionCookie (user role name : string) : AM string := CreateSessionWithToken user role name "".
Definition ValidateSession (cookie : option string) : AM (option SessionData) :=
  match cookie ≫= cookie_decode with
  | None => mret None
  | Some d =>
      now ← core Now;
      if Expires d <? ApiToken.Unix now then mret None
      else if validator && negb (is_empty (Token d)) then
        v ← SM_try (ValidateSessionToken (Token d));
        mret (match v with Ok v => Some (mkData (UserID v) (Role v) (d_Name v) (Expires d) (Token d)) | Fail _ => None end)
      else mret (Some d)
  end.
Definition RevokeSession (cookie : option string) : AM unit :=
  if validator then
    match cookie ≫= cookie_decode with
    | Some d => if is_empty (Token d) then mret tt else SM_ignore (RevokeSessionToken (Token d))
    | None => mret tt
    end
  else mret tt.
(** Registration logs in: without a session of the server when that fails. *)
Definition Register (email name phone password : string) : AM string :=
  u ← CreateUserWithPassword email name phone password (Roles.DefaultRoleID "viewer") "active";
  s ← SM_try (CreateSessionForUser (ID (u_row u)));
  match s with
  | Ok s => CreateSessionWithToken (ID (u_row u)) "viewer" (Name (u_row u)) (SessionToken s)
  | Fail _ => CreateSessionCookie (ID (u_row u)) "viewer" (Name (u_row u))
  end.
Definition LoginCookie (email password : string) : AM string :=
  r ← Login email password;
  CreateSessionWithToken (ID (u_row (l_User r))) (ro_Name (u_Role (l_User r))) (Name (u_row (l_User r))) (SessionToken r).

Record apiPrincipal := mkPrincipal { p_UserID : string; p_Role : string; p_TenantID : string }.
Context (unmarshal : string → option ApiToken.APITokenClaims) (api_secret : string).
Context (tenantResolver : string → AM string) (default_tenant : string).
Definition bearer (authorization : string) : option string :=
  if String.prefix "Bearer " authorization then Some (substring 7 (String.length authorization - 7) authorization) else None.
Definition resolveAPIPrincipal (authorization : string) (cookie : option string) : AM apiPrincipal :=
  match bearer authorization with
  | Some token =>
      c ← core (ApiToken.ParseAPIToken unmarshal api_secret token);
      if validator then
        v ← SM_map_err (λ _, ApiToken.ErrTokenRevoked) (ValidateAPITokenUser (ApiToken.UserID c));
        let '(live, act) := v in
        if negb act then SM_fail ApiToken.ErrTokenRevoked
        else mret (mkPrincipal (ApiToken.UserID c) (if is_empty live then ApiToken.Role c else live) (ApiToken.TenantID c))
      else mret (mkPrincipal (ApiToken.UserID c) (ApiToken.Role c) (ApiToken.TenantID c))
  | None =>
      d ← ValidateSession cookie;
      match d with
      | None => SM_fail ApiToken.ErrTokenInvalid
      | Some d =>
          t ← SM_try (tenantResolver (UserID d));
          mret (mkPrincipal (UserID d) (Role d) (match t with Ok t => t | Fail _ => default_tenant end))
      end
  end.
End Service.
End Auth.
