(* ===== verification/AuthSafety.v ===== *)
(** * Who is let in

    Over [Auth]: the identity a request is given is that of an active user,
    a session that was logged out stays out, a reset link works once, and a
    password changes with the old one alone; with what the code leaves open. *)
From stdpp Require Import base decidable list strings option gmap.
From Stdlib Require Import ZArith Lia Ascii String.
From S2P Require Import Prelude GoCrypto Shared GoTime Database Repository SideTables Alerts Tokens Auth.
Open Scope Z_scope.

Module AuthSafety.
Import Auth.
#[local] Opaque ApiToken.computeHMAC Base64.EncodeToString hmac_sha256.

(** ** Tokens of the API *)
Section ApiTokens.
Context {env : Env} (marshal : ApiToken.APITokenClaims → string) (unmarshal : string → option ApiToken.APITokenClaims).
(** The text before the first dot, signed, and what it says. *)
Definition signed_claims (secret token : string) (c : ApiToken.APITokenClaims) : Prop :=
  ∃ payload, ApiToken.cut_dot token = Some (payload, ApiToken.computeHMAC secret payload) ∧
    (Base64.DecodeString payload ≫= unmarshal) = Some c.
Lemma parse_signed secret token (w : World) c :
  fst (ApiToken.ParseAPIToken unmarshal secret token w) = Ok c ↔
  signed_claims secret token c ∧ ApiToken.Unix (clock_now (w_clock w)) <= ApiToken.ExpiresAt c.
Proof.
  unfold signed_claims, ApiToken.ParseAPIToken. split.
  - destruct (ApiToken.cut_dot token) as [[p s]|]; [|discriminate]. destruct (hmac_Equal s _) eqn:Hs; [|discriminate].
    cbn [negb]. apply String.eqb_eq in Hs as ->. destruct (_ ≫= unmarshal) as [c'|] eqn:Hu; [|discriminate].
    cbv [mbind SM_mbind SM_bind Now]. destruct (_ <? _) eqn:E; [discriminate|]. intros [= ->].
    split; [by exists p|]. by apply Z.ltb_ge.
  - intros [(p & -> & Hu) He]. unfold hmac_Equal. rewrite String.eqb_refl. cbn [negb]. rewrite Hu.
    cbv [mbind SM_mbind SM_bind Now]. apply Z.ltb_ge in He. by rewrite He.
Qed.
Lemma pair_fst {A B} (a a' : A) (b b' : B) : (a, b) = (a', b') → a = a'.
Proof. by intros [= -> _]. Qed.
(** The claims issued for [c]: a time that was left out is the clock's, the
    end a day after it. *)
Definition filled (c : ApiToken.APITokenClaims) (w : World) : ApiToken.APITokenClaims :=
  let n := w_clock w in
  let none := ApiToken.IssuedAt c =? 0 in
  ApiToken.mkClaims (ApiToken.UserID c) (ApiToken.Role c) (ApiToken.TenantID c)
    (if none then ApiToken.Unix (clock_now n) else ApiToken.IssuedAt c)
    (if ApiToken.ExpiresAt c =? 0 then ApiToken.Unix (clock_now (if none then S n else n) + day) else ApiToken.ExpiresAt c).
Lemma issue_filled secret c (w w' : World) token :
  ApiToken.IssueAPIToken marshal secret c w = (Ok token, w') → token = ApiToken.token_of marshal secret (filled c w).
Proof.
  unfold ApiToken.IssueAPIToken, filled. cbv [mbind SM_mbind SM_bind mret SM_mret SM_ret Now]. destruct c as [u r t i e].
  cbn [ApiToken.IssuedAt ApiToken.UserID ApiToken.Role ApiToken.TenantID ApiToken.ExpiresAt].
  destruct (i =? 0); cbn [ApiToken.ExpiresAt ApiToken.with_iat]; destruct (e =? 0); intros H;
    apply pair_fst in H; by apply (f_equal (λ r, match r with Ok t => t | Fail _ => token end)) in H.
Qed.
(** C14: a token of the API is read back as the claims it was issued for,
    with the times that were left out filled in - issued when it was issued,
    ending a day later - as long as it has not run out, and then not at all;
    and only texts signed with the secret are read at all. *)
Theorem api_token_round_trip secret c token (w w1 w2 : World) :
  unmarshal (marshal (filled c w)) = Some (filled c w) →
  ApiToken.IssueAPIToken marshal secret c w = (Ok token, w1) →
  ∀ t r,
    (fst (ApiToken.ParseAPIToken unmarshal secret token w2) = Ok r ↔
      r = filled c w ∧ ApiToken.Unix (clock_now (w_clock w2)) <= ApiToken.ExpiresAt (filled c w)) ∧
    (fst (ApiToken.ParseAPIToken unmarshal secret t w2) = Ok r → signed_claims secret t r).
Proof.
  intros Hj H t r. apply issue_filled in H as ->. set (c' := filled c w) in *. split.
  - rewrite parse_signed. unfold signed_claims, ApiToken.token_of, ApiToken.sign.
    rewrite ApiToken.cut_sign by apply Base64.encode_plain. split.
    + intros [(p & Hp & Hu) He]. apply (Some_inj (_, _) (p, _)), pair_fst in Hp. subst p. rewrite Base64.decode_encode in Hu. cbn in Hu. rewrite Hj in Hu. by injection Hu as <-.
    + intros [-> He]. split; [|done]. eexists. split; [done|]. rewrite Base64.decode_encode. cbn. by apply Hj.
  - by intros [Hs _]%parse_signed.
Qed.
End ApiTokens.

(** ** Who a request is *)
Section Requests.
Context {env : Env} {cr : Crypto}.
Lemma xstmt_world {A} (q : Time → DB → Tables → result A * Tables) (s s' : State) r :
  xstmt q s = (r, s') → s_world s' = tick_stmts (s_world s).
Proof. unfold xstmt. destruct (stmt_fault _); [by intros [= _ <-]|]. by destruct (q _ _ _) as [[a|e] x]; intros [= _ <-]. Qed.
(** The role that was read, or none: there is none, or its statement failed. *)
Lemma with_role_inv u (s s' : State) r :
  with_role u s = (r, s') →
  s_tables s' = s_tables s ∧ ∃ ro, r = Ok (mkUserR u ro) ∧
  (find_role (RoleID u) (s_tables s) = Some ro ∨
   ro = no_role ∧ (find_role (RoleID u) (s_tables s) = None ∨ stmt_fault (w_stmts (s_world s)) ≠ None)).
Proof.
  unfold with_role, GetRoleByID. cbv [mbind SM_mbind SM_bind SM_try mret SM_mret SM_ret]. intros H.
  destruct (xquery_row _ s) as [q s1] eqn:H1. apply xstmt_inv in H1 as (_ & _ & Hq). injection H as <- <-.
  destruct q as [ro|e].
  - destruct (find_role _ _) as [ro'|] eqn:E; [|discriminate Hq]. injection Hq as <- <-. split; [done|]. eexists. split; [done|]. by left.
  - destruct Hq as [-> Hq]. split; [done|]. eexists. split; [done|]. right. split; [done|].
    destruct Hq as [Hf|Hq]; [right; by rewrite Hf|left]. by destruct (find_role _ _).
Qed.
Lemma user_of_query (q : Tables → option UserRow) (s s' : State) u :
  (r ← xquery_row (λ _ _ x, q x); with_role r) s = (Ok u, s') →
  s_tables s' = s_tables s ∧ q (s_tables s) = Some (u_row u) ∧
  (find_role (RoleID (u_row u)) (s_tables s) = Some (u_Role u) ∨
   u_Role u = no_role ∧ (find_role (RoleID (u_row u)) (s_tables s) = None ∨ stmt_fault (S (w_stmts (s_world s))) ≠ None)).
Proof.
  intros H. run_ok H. apply xstmt_world in Hrun as Hw. apply xquery_row_inv in Hrun as (_ & _ & Ht & Hq).
  apply with_role_inv in H as (Ht' & ro & [= ->] & Hr). rewrite Ht, Hw in Hr. split_and!; [congruence|done|done].
Qed.
Lemma joined_inv h x su :
  joined h x = Some su → ∃ s u r, s ∈ sessions x ∧ se_TokenHash s = h ∧ find_user (se_UserID s) x = Some u ∧
    find_role (RoleID u) x = Some r ∧ su = mkSU (se_UserID s) (se_ExpiresAt s) (Name u) (ro_Name r) (Status u).
Proof.
  unfold joined. intros H. apply head_Some in H as [l H]. assert (Hin : su ∈ su :: l) by left. rewrite <- H in Hin.
  apply list_elem_of_omap in Hin as (s & Hs & E). destruct (String.eqb _ h) eqn:Eh; [|done]. apply String.eqb_eq in Eh.
  destruct (find_user _ x) as [u|] eqn:Hu; [|done]. cbn in E. destruct (find_role _ x) as [r|] eqn:Hr; [|done].
  injection E as <-. by exists s, u, r.
Qed.
Section Principal.
Context (secret : string) (cookie_decode : string → option SessionData)
  (unmarshal : string → option ApiToken.APITokenClaims) (api_secret : string) (tenantResolver : string → AM string)
  (default_tenant : string).
(** A user that is active, with the role it has now. *)
Definition current (x : Tables) (user role : string) : Prop :=
  ∃ u r, find_user user x = Some u ∧ Status u = "active"%string ∧ find_role (RoleID u) x = Some r ∧ role = ro_Name r.
Lemma validate_inv token (s s' : State) d :
  ValidateSessionToken secret token s = (Ok d, s') →
  current (s_tables s) (UserID d) (Role d) ∧ s_tables s' = s_tables s ∧
  ∃ su, joined (HashToken secret token) (s_tables s) = Some su ∧ clock_now (w_clock (s_world s)) <= su_ExpiresAt su.
Proof.
  unfold ValidateSessionToken, GetSessionByToken. intros H. run_ok H. apply xstmt_world in Hrun as Hw.
  apply xquery_row_inv in Hrun as (_ & _ & Ht & Hq). run_ok H. apply core_inv in Hrun as [w [Hn ->]].
  injection Hn as <- <-. destruct (_ <? _) eqn:E; [discriminate H|]. destruct (active _) eqn:Ea; [|discriminate H].
  injection H as <- <-. apply joined_inv in Hq as Hj. destruct Hj as (se & u & r & _ & _ & Hu & Hr & ->). cbn in *.
  apply String.eqb_eq in Ea. split; [by exists u, r|]. split; [done|]. eexists. split; [done|]. cbn.
  rewrite Hw in E. apply Z.ltb_ge in E. exact E.
Qed.
Lemma parse_no_statement token (w w' : World) r :
  ApiToken.ParseAPIToken unmarshal api_secret token w = (r, w') → w_stmts w' = w_stmts w.
Proof.
  unfold ApiToken.ParseAPIToken. destruct (ApiToken.cut_dot token) as [[p q]|]; [|by intros [= _ <-]].
  destruct (negb _); [by intros [= _ <-]|]. destruct (_ ≫= unmarshal) as [c|]; [|by intros [= _ <-]].
  cbv [mbind SM_mbind SM_bind Now]. destruct (_ <? _); by intros [= _ <-].
Qed.
(** C11: a request is let in as an active user with the role that user has now.
    Two holes are left: a bearer whose role is missing or blank, or could not
    be read because that statement failed, keeps the role its token was
    issued with; and a cookie that carries no token of the server is taken at
    its word until it runs out. *)
Theorem admitted_is_current authorization cookie (σ σ' : State) p :
  resolveAPIPrincipal secret cookie_decode true unmarshal api_secret tenantResolver default_tenant authorization cookie σ = (Ok p, σ') →
  current (s_tables σ) (p_UserID p) (p_Role p) ∨
  (∃ token c u, bearer authorization = Some token ∧ signed_claims unmarshal api_secret token c ∧
     find_user (p_UserID p) (s_tables σ) = Some u ∧ Status u = "active"%string ∧
     p_UserID p = ApiToken.UserID c ∧ p_Role p = ApiToken.Role c ∧
     (stmt_fault (S (w_stmts (s_world σ))) ≠ None ∨ ∀ r, find_role (RoleID u) (s_tables σ) = Some r → ro_Name r = ""%string)) ∨
  (∃ d, bearer authorization = None ∧ (cookie ≫= cookie_decode) = Some d ∧ Token d = ""%string ∧
     ApiToken.Unix (clock_now (w_clock (s_world σ))) <= Expires d ∧ p_UserID p = UserID d ∧ p_Role p = Role d).
Proof.
  intros H. unfold resolveAPIPrincipal in H. destruct (bearer authorization) as [token|] eqn:Eb.
  - run_ok H. apply core_inv in Hrun as [w [Hc ->]]. apply parse_no_statement in Hc as Hw.
    assert (Hs : signed_claims unmarshal api_secret token v).
    { apply (parse_signed unmarshal api_secret token (s_world σ)). by rewrite Hc. }
    run_ok H. apply map_err_ok_inv in Hrun. unfold ValidateAPITokenUser in Hrun. run_ok Hrun.
    apply user_of_query in Hrun0 as (Ht & Hu & Hr). cbn [s_tables fst snd] in Hu, Hr.
    destruct (active _) eqn:Ea; cbn [negb] in Hrun; [|injection Hrun as <- <-; discriminate H].
    apply String.eqb_eq in Ea. injection Hrun as <- <-. cbn [negb] in H. injection H as <- _. cbn [p_UserID p_Role].
    destruct (is_empty _) eqn:Er.
    + right. left. exists token, v, (u_row v1). split_and!; try done. cbn [s_world s_tables fst snd] in Hr. rewrite Hw in Hr.
      destruct Hr as [Hr|[_ [Hr|Hf]]]; [|right; intros r Hr'; by rewrite Hr in Hr'|by left].
      right. intros r Hr'. rewrite Hr in Hr'. injection Hr' as <-. by apply String.eqb_eq in Er.
    + left. destruct Hr as [Hr|[E _]]; [|rewrite E in Er; discriminate Er]. by exists (u_row v1), (u_Role v1).
  - run_ok H. unfold ValidateSession in Hrun. destruct (cookie ≫= cookie_decode) as [d|] eqn:Ed; [|injection Hrun as <- <-; discriminate H].
    run_ok Hrun. apply core_inv in Hrun0 as [w [Hn ->]]. injection Hn as <- <-.
    destruct (_ <? _) eqn:Ee; [injection Hrun as <- <-; discriminate H|]. apply Z.ltb_ge in Ee.
    destruct (is_empty (Token d)) eqn:Et; cbn [andb negb] in Hrun.
    + injection Hrun as <- <-. cbv [mbind SM_mbind SM_bind SM_try] in H. destruct (tenantResolver _ _) as [t s1]. injection H as <- _.
      right. right. exists d. apply String.eqb_eq in Et. by split_and!.
    + cbv [mbind SM_mbind SM_bind SM_try] in Hrun. destruct (ValidateSessionToken _ _ _) as [q s1] eqn:Hv.
      destruct q as [q|e]; injection Hrun as <- <-; [|discriminate H]. apply validate_inv in Hv as (Hc & _ & _).
      cbv [mbind SM_mbind SM_bind SM_try] in H. destruct (tenantResolver _ _) as [t s2]. injection H as <- _. left. exact Hc.
Qed.
End Principal.
End Requests.

(** ** Histories *)
Inductive Command :=
| SignIn (email password : string) | SignOut (token : string) | SignUp (email name phone password : string)
| SessionFor (user : string) | Verify (token : string)
| NewUser (email name phone : string) (role : Z) (status : string)
| EditUser (id email name phone : string) (role : Z) (status : string) | RemoveUser (id : string)
| NewPassword (id old new_ : string) | Profile (id name phone timezone : string) | Temporary (id : string)
| Theme (id theme : string) | Forgot (email : string) | Redeem (token password : string).
(** What concerns reset links: one was given out, one was redeemed. *)
Inductive Outcome := Given (token email : string) | Redeemed (token : string) | Nothing.
Ltac unfold_operations :=
  unfold LoginCookie, Login, Register, CreateSessionCookie, CreateSessionWithToken, CreateSessionForUser, VerifySession, Logout,
    CreateUser, CreateUserWithPassword, UpdateUser, DeleteUser, ChangePassword, UpdateProfile, ResetPassword,
    UpdateThemePreference, ForgotPassword, RedeemReset, CreateReset, ConsumeReset, SetPasswordByEmail, email_known, existing_of,
    generateTemporaryPassword, GenerateSecureToken, HashPassword, draw, GetUserByID, GetUserByEmail, CreateUserRow, UpdateUserRow,
    UpdateUserPassword, UpdateUserThemePreference, UpdateUserLastLogin, DeleteUserRow, GetSessionByToken, DeleteSession,
    logAudit, with_role, GetRoleByID.
Section Histories.
Context {env : Env} {cr : Crypto} (secret : string) (max_age ttl : Z) (foreign_keys : bool)
  (has_letter has_digit : string → bool) (cookie_encode : SessionData → option string).
Definition quietly {A} (p : result A * State) : Outcome * State := (Nothing, snd p).
Definition step (c : Command) (σ : State) : Outcome * State :=
  match c with
  | SignIn e p => quietly (LoginCookie secret cookie_encode e p σ)
  | SignOut t => quietly (Logout secret t σ)
  | SignUp e n ph p => quietly (Register secret max_age cookie_encode e n ph p σ)
  | SessionFor u => quietly (CreateSessionForUser secret max_age u σ)
  | Verify t => quietly (VerifySession secret t σ)
  | NewUser e n ph r st => quietly (CreateUser e n ph r st σ)
  | EditUser id e n ph r st => quietly (UpdateUser id e n ph r st σ)
  | RemoveUser id => quietly (DeleteUser foreign_keys id σ)
  | NewPassword id o n => quietly (ChangePassword id o n σ)
  | Profile id n ph tz => quietly (UpdateProfile id n ph tz σ)
  | Temporary id => quietly (ResetPassword id σ)
  | Theme id t => quietly (UpdateThemePreference id t σ)
  | Forgot e =>
      match ForgotPassword secret ttl e σ with (Ok (Some t), σ) => (Given t e, σ) | (_, σ) => (Nothing, σ) end
  | Redeem t p =>
      match RedeemReset secret has_letter has_digit t p σ with (Ok _, σ) => (Redeemed t, σ) | (Fail _, σ) => (Nothing, σ) end
  end.
Fixpoint run (cs : list Command) (σ : State) : list Outcome * State :=
  match cs with
  | [] => ([], σ)
  | c :: cs => let (o, σ) := step c σ in let (os, σ) := run cs σ in (o :: os, σ)
  end.

(** *** Sessions *)
Context (h : string).
(** No session has the hash, and no randomness that is still to come makes
    one. *)
Definition unused (σ : State) : Prop := ∀ n b, (drawn (s_out σ) <= n)%nat → random_bytes n = Ok b → HashToken secret (hex_encode b) ≠ h.
Definition apart (σ : State) : Prop := (∀ s, s ∈ sessions (s_tables σ) → se_TokenHash s ≠ h) ∧ unused σ.
Definition stays_apart (σ σ' : State) : Prop := apart σ → apart σ'.
#[local] Instance stays_apart_preorder : PreOrder stays_apart.
Proof. split; unfold stays_apart; [by intros s|]. intros x y z. auto. Qed.
Lemma xstmt_apart {A} (q : Time → DB → Tables → result A * Tables) :
  (∀ now d x s, s ∈ sessions (snd (q now d x)) → s ∈ sessions x ∨ se_TokenHash s ≠ h) → preserves stays_apart (xstmt q).
Proof.
  intros Hq σ [H1 H2]. unfold apart, unused. destruct (xstmt q σ) as [r σ'] eqn:H. apply xstmt_inv in H as (_ & Ho & H). cbn [snd].
  rewrite Ho. split; [|done]. intros s Hs. destruct r as [a|e]; [|destruct H as [Ht _]; rewrite Ht in Hs; by apply H1].
  destruct (Hq (db_now (w_stmts (s_world σ))) (s_db σ) (s_tables σ) s) as [Hin|Hin]; [by rewrite H|by apply H1|done].
Qed.
Lemma xquery_apart {A} (q : Time → DB → Tables → A) : preserves stays_apart (xquery q).
Proof. apply xstmt_apart. by left. Qed.
Lemma xquery_row_apart {A} (q : Time → DB → Tables → option A) : preserves stays_apart (xquery_row q).
Proof. apply xstmt_apart. intros now d x s. left. by destruct (q now d x). Qed.
Lemma core_apart {A} (m : M A) : preserves stays_apart (core m).
Proof. intros σ H. unfold core. by destruct (m _). Qed.
Lemma outside_apart f : (∀ o, drawn o <= drawn (f o))%nat → preserves stays_apart (outside f).
Proof. intros Hf σ [H1 H2]. split; [exact H1|]. intros n b Hn. apply H2. specialize (Hf (s_out σ)). change (drawn (f (s_out σ)) <= n)%nat in Hn. lia. Qed.
Ltac apart_leaf := first
  [ apply xquery_apart | apply xquery_row_apart | apply core_apart
  | apply outside_apart; intros []; cbn; lia
  | apply xstmt_apart; intros ? ? ? row; cbn; intros Hrow; left; revert Hrow; unfold update_user, insert_user; repeat case_match; cbn;
    rewrite ?list_elem_of_filter; try done; rewrite list_elem_of_In, filter_In, <- list_elem_of_In; tauto ].
Ltac keep_apart := preserve_with ltac:(fun _ => apart_leaf).
Lemma draw_inv {A} (f : nat → result A) (s s' : State) r :
  draw f s = (r, s') → r = f (drawn (s_out s)) ∧ s' = (s_world s, s_tables s, mkMemory (resets (s_out s)) (S (drawn (s_out s)))).
Proof. unfold draw. destruct s as [[w x] o]. cbv [mbind SM_mbind SM_bind SM_get outside SM_modify SM_lift]. by intros [= <- <-]. Qed.
Lemma open_session_apart user age : preserves stays_apart (open_session secret user age).
Proof.
  intros σ [H1 H2]. destruct (open_session secret user age σ) as [r σ'] eqn:H. cbn [snd]. unfold open_session, GenerateSecureToken in H.
  assert (Hgo : ∀ s r1, draw random_bytes σ = (r1, s) → apart s ∧ ∀ b, r1 = Ok b → HashToken secret (hex_encode b) ≠ h).
  { intros s r1 Hd. apply draw_inv in Hd as [-> ->]. split; [split; [exact H1|]|]; cbn.
    - intros n b Hn. apply H2. cbn in Hn. lia.
    - intros b Hb. by apply (H2 (drawn (s_out σ)) b). }
  apply bind_inv in H as [(e & H & ->)|(token & s1 & H & Hr)];
    apply bind_inv in H as [(e' & H & E)|(b & s2 & H & E)]; apply Hgo in H as [Ha Hb]; [exact Ha|discriminate E|discriminate E|].
  injection E as <- <-. specialize (Hb b eq_refl).
  assert (Hrest : preserves stays_apart (id ← core GenerateUUID; now ← core Now;
    _ ← CreateSession id user (HashToken secret (hex_encode b)) (now + age); mret (hex_encode b) : AM string)).
  { unfold CreateSession. preserve_with ltac:(fun _ => first [apply core_apart|apply xstmt_apart; intros now d x s;
      unfold insert_session; destruct (existsb _ _); cbn; [by left|];
      intros [Hs | ->%list_elem_of_singleton]%elem_of_app; [by left|by right]]). }
  specialize (Hrest s2 Ha). by rewrite Hr in Hrest.
Qed.
Ltac operation := unfold_operations; preserve_with ltac:(fun _ => first [apply open_session_apart|apart_leaf]).
Definition operation_of (c : Command) : AM unit :=
  match c with
  | SignIn e p => SM_ignore (LoginCookie secret cookie_encode e p)
  | SignOut t => Logout secret t
  | SignUp e n ph p => SM_ignore (Register secret max_age cookie_encode e n ph p)
  | SessionFor u => SM_ignore (CreateSessionForUser secret max_age u)
  | Verify t => SM_ignore (VerifySession secret t)
  | NewUser e n ph r st => SM_ignore (CreateUser e n ph r st)
  | EditUser id e n ph r st => SM_ignore (UpdateUser id e n ph r st)
  | RemoveUser id => DeleteUser foreign_keys id
  | NewPassword id o n => ChangePassword id o n
  | Profile id n ph tz => SM_ignore (UpdateProfile id n ph tz)
  | Temporary id => ResetPassword id
  | Theme id t => SM_ignore (UpdateThemePreference id t)
  | Forgot e => SM_ignore (ForgotPassword secret ttl e)
  | Redeem t p => RedeemReset secret has_letter has_digit t p
  end.
Lemma step_state c σ : snd (step c σ) = snd (operation_of c σ).
Proof.
  destruct c; cbn [step operation_of quietly snd]; unfold SM_ignore; try done; try by destruct (_ σ).
  - by destruct (ForgotPassword secret ttl email σ) as [[[t|]|e] s].
  - by destruct (RedeemReset _ _ _ _ _ σ) as [[[]|e] s].
Qed.
Lemma operation_apart c : preserves stays_apart (operation_of c).
Proof. destruct c; cbn [operation_of]. all: operation. Qed.
Lemma run_apart cs σ : apart σ → apart (snd (run cs σ)).
Proof.
  revert σ. induction cs as [|c cs IH]; intros σ H; cbn [run]; [done|].
  pose proof (operation_apart c σ H) as Hc. rewrite <- step_state in Hc. destruct (step c σ) as [o σ1].
  specialize (IH σ1 Hc). by destruct (run cs σ1).
Qed.
End Histories.

Section SignedOut.
Context {env : Env} {cr : Crypto} (secret : string) (max_age ttl : Z) (foreign_keys : bool)
  (has_letter has_digit : string → bool) (cookie_encode : SessionData → option string).
Lemma apart_refused token (σ : State) :
  apart secret (HashToken secret token) σ →
  is_Ok (fst (ValidateSessionToken secret token σ)) = false ∧ is_Ok (fst (VerifySession secret token σ)) = false.
Proof.
  intros [Ha _]. split.
  - destruct (ValidateSessionToken secret token σ) as [[d|e] s] eqn:H; [|done]. apply validate_inv in H as (_ & _ & su & Hj & _).
    apply joined_inv in Hj as (se & _ & _ & Hin & Hh & _). by destruct (Ha se).
  - destruct (VerifySession secret token σ) as [[u|e] s] eqn:H; [|done]. unfold VerifySession in H. run_ok H.
    apply map_err_ok_inv in Hrun. unfold GetSessionByToken in Hrun. apply xquery_row_inv in Hrun as (_ & _ & _ & Hj).
    apply joined_inv in Hj as (se & _ & _ & Hin & Hh & _). by destruct (Ha se).
Qed.
(** C12: a session that was logged out stays out.  Once its logout succeeded
    its token opens nothing any more, whatever logins, registrations, changes
    of users and passwords follow and whichever statements fail, as long as
    no token is drawn that hashes like it. *)
Theorem signed_out_stays_out token cs (σ σ1 : State) :
  unused secret (HashToken secret token) σ →
  Logout secret token σ = (Ok tt, σ1) →
  let σ2 := snd (run secret max_age ttl foreign_keys has_letter has_digit cookie_encode cs σ1) in
  is_Ok (fst (ValidateSessionToken secret token σ2)) = false ∧ is_Ok (fst (VerifySession secret token σ2)) = false.
Proof.
  intros Hu H. cbn zeta. apply apart_refused, run_apart. unfold Logout, DeleteSession in H.
  apply xwrite_inv in H as (_ & Ho & Ht). cbn [is_Ok] in Ht. split; [|by unfold unused; rewrite Ho].
  intros s Hs. rewrite Ht in Hs. cbn in Hs. apply list_elem_of_In, filter_In in Hs as [_ Hs].
  destruct (String.eqb_spec (se_TokenHash s) (HashToken secret token)) as [E|E]; [discriminate Hs|done].
Qed.
End SignedOut.

(** *** Reset links *)
Section Resets.
Context {env : Env} {cr : Crypto} (secret : string) (max_age ttl : Z) (foreign_keys : bool)
  (has_letter has_digit : string → bool) (cookie_encode : SessionData → option string) (h : string).
Definition same_resets (o o' : Memory) : Prop := resets o' = resets o.
#[local] Instance same_resets_preorder : PreOrder same_resets.
Proof. split; [by intros o|]. intros o1 o2 o3 H1 H2. unfold same_resets in *. congruence. Qed.
Definition about_reset (c : Command) : bool := match c with Forgot _ | Redeem _ _ => true | _ => false end.
Ltac same := unfold_operations; unfold open_session, CreateSession; unfold_operations; preserve_out ltac:(fun _ => done).
Lemma other_resets c σ :
  about_reset c = false →
  resets (s_out (snd (step secret max_age ttl foreign_keys has_letter has_digit cookie_encode c σ))) = resets (s_out σ).
Proof.
  intros Hc. rewrite step_state.
  assert (Hp : preserves (on_out same_resets) (operation_of secret max_age ttl foreign_keys has_letter has_digit cookie_encode c)).
  { destruct c; try discriminate Hc; cbn [operation_of]; same. }
  apply (Hp σ).
Qed.
(** Whether a link with the hash is outstanding. *)
Definition outstanding (m : ResetToken.store) : nat := match m !! h with Some _ => 1 | None => 0 end.
Lemma sweep_outstanding now m : (outstanding (ResetToken.sweepLocked now m) <= outstanding m)%nat.
Proof.
  unfold outstanding, ResetToken.sweepLocked. destruct (filter _ m !! h) as [e|] eqn:E; [|lia].
  apply map_lookup_filter_Some in E as [-> _]. lia.
Qed.
Definition given (o : Outcome) : nat :=
  match o with Given t _ => if String.eqb (HashToken secret t) h then 1 else 0 | _ => 0 end.
Definition redeemed (o : Outcome) : nat :=
  match o with Redeemed t => if String.eqb (HashToken secret t) h then 1 else 0 | _ => 0 end.
Lemma create_inv_ email (σ σ' : State) r :
  CreateReset secret ttl email σ = (r, σ') →
  match r with
  | Ok t => ∃ now now2, resets (s_out σ') = ResetToken.create_at (HashToken secret t) email ttl now now2 (resets (s_out σ))
  | Fail _ => resets (s_out σ') = resets (s_out σ)
  end.
Proof.
  unfold CreateReset, GenerateSecureToken. intros H. apply bind_inv in H as [(e & H & ->)|(t & s1 & H & H1)].
  - apply bind_inv in H as [(e' & H & _)|(b & s2 & H & E)]; [|discriminate E]. by apply draw_inv in H as [_ ->].
  - run_ok H. apply draw_inv in Hrun as [_ ->]. injection H as <- <-.
    cbv [mbind SM_mbind SM_bind core Now outside SM_modify mret SM_mret SM_ret] in H1. injection H1 as <- <-. by eexists _, _.
Qed.
Lemma consume_inv token (σ σ' : State) r :
  ConsumeReset secret token σ = (r, σ') →
  ∃ now, r = Ok (fst (ResetToken.consume_at (HashToken secret token) now (resets (s_out σ)))) ∧
    resets (s_out σ') = snd (ResetToken.consume_at (HashToken secret token) now (resets (s_out σ))).
Proof.
  unfold ConsumeReset. intros H. cbv [mbind SM_mbind SM_bind core Now SM_get outside SM_modify mret SM_mret SM_ret] in H.
  eexists. cbn [fst snd] in H. destruct (ResetToken.consume_at _ _ _) as [q m] eqn:E in H. injection H as <- <-. unfold s_out in *. cbn [snd] in *. by rewrite E.
Qed.
Lemma forgot_outstanding email (σ σ' : State) o :
  step secret max_age ttl foreign_keys has_letter has_digit cookie_encode (Forgot email) σ = (o, σ') →
  (redeemed o + outstanding (resets (s_out σ')) <= given o + outstanding (resets (s_out σ)))%nat.
Proof.
  cbn [step]. destruct (ForgotPassword _ _ _ σ) as [r s] eqn:H.
  assert (Hr : match r with
    | Ok (Some t) => (outstanding (resets (s_out s)) <= given (Given t email) + outstanding (resets (s_out σ)))%nat
    | _ => (outstanding (resets (s_out s)) <= outstanding (resets (s_out σ)))%nat end).
  { unfold ForgotPassword in H. destruct (is_empty email); [injection H as <- <-; done|].
    assert (Hg : preserves (on_out same_resets) (GetUserByEmail email)) by same. specialize (Hg σ).
    cbv [mbind SM_mbind SM_bind SM_try] in H. destruct (GetUserByEmail email σ) as [q s1]. cbn [snd] in Hg. unfold on_out, same_resets in Hg.
    rewrite <- Hg. destruct q as [u|e]; [|injection H as <- <-; done]. destruct (active _); [|injection H as <- <-; done].
    destruct (CreateReset _ _ _ s1) as [q s2] eqn:Hq. apply create_inv_ in Hq. injection H as <- <-. destruct q as [t|e]; [|by rewrite Hq].
    destruct Hq as (now & now2 & ->). unfold ResetToken.create_at, outstanding, given.
    destruct (String.eqb_spec (HashToken secret t) h) as [->|Hn]; [rewrite lookup_insert_eq; lia|].
    rewrite lookup_insert_ne by done. apply sweep_outstanding. }
  destruct r as [[t|]|e]; intros [= <- <-]; cbn [redeemed given] in *; lia.
Qed.
Lemma redeem_outstanding token password (σ σ' : State) o :
  step secret max_age ttl foreign_keys has_letter has_digit cookie_encode (Redeem token password) σ = (o, σ') →
  (redeemed o + outstanding (resets (s_out σ')) <= given o + outstanding (resets (s_out σ)))%nat.
Proof.
  cbn [step]. destruct (RedeemReset _ _ _ _ _ σ) as [r s] eqn:H.
  assert (Hr : (redeemed (if is_Ok r then Redeemed token else Nothing) + outstanding (resets (s_out s)) <= outstanding (resets (s_out σ)))%nat).
  { unfold RedeemReset in H. destruct (is_empty token); [injection H as <- <-; done|].
    cbv [mbind SM_mbind SM_bind] in H. destruct (ConsumeReset _ _ σ) as [q s1] eqn:Hq. apply consume_inv in Hq as (now & -> & E).
    unfold ResetToken.consume_at in *. cbn [fst snd] in *. pose proof (sweep_outstanding now (resets (s_out σ))) as Hs.
    set (m := ResetToken.sweepLocked now (resets (s_out σ))) in *.
    assert (Hrest : resets (s_out s) = resets (s_out s1) ∧ (is_Ok r = true → is_Some (m !! HashToken secret token))).
    { destruct (m !! HashToken secret token) as [en|]; [destruct (_ <? _)|]; try (injection H as <- <-; split; done).
      split; [|done]. assert (Hg : preserves (on_out same_resets) (SetPasswordByEmail has_letter has_digit (ResetToken.email en) password)) by same.
      specialize (Hg s1). rewrite H in Hg. exact Hg. }
    destruct Hrest as [-> Hp]. rewrite E. unfold redeemed, outstanding in *.
    destruct (String.eqb_spec (HashToken secret token) h) as [Eh|Hn].
    - rewrite <- Eh in *. rewrite lookup_delete_eq. destruct r as [u|e]; cbn [is_Ok] in *; [|lia].
      destruct (Hp eq_refl) as [en En]. rewrite En in Hs. rewrite String.eqb_refl. lia.
    - rewrite lookup_delete_ne by done. destruct (is_Ok r); [|lia].
      apply String.eqb_neq in Hn. rewrite Hn. lia. }
  destruct r as [[]|e]; intros [= <- <-]; cbn [is_Ok redeemed given] in *; lia.
Qed.
Definition count (f : Outcome → nat) (os : list Outcome) : nat := sum_list (f <$> os).
Lemma run_outstanding cs os (σ σ' : State) :
  run secret max_age ttl foreign_keys has_letter has_digit cookie_encode cs σ = (os, σ') →
  (count redeemed os + outstanding (resets (s_out σ')) <= count given os + outstanding (resets (s_out σ)))%nat.
Proof.
  revert os σ. induction cs as [|c cs IH]; intros os σ H; cbn [run] in H; [injection H as <- <-; done|].
  destruct (step _ _ _ _ _ _ _ c σ) as [o s1] eqn:Hc. destruct (run _ _ _ _ _ _ _ cs s1) as [os' s2] eqn:Hr.
  injection H as <- <-. apply IH in Hr.
  assert (Hc' : ∀ f, count f (o :: os') = (f o + count f os')%nat) by done. rewrite !Hc'.
  assert (Ho : (redeemed o + outstanding (resets (s_out s1)) <= given o + outstanding (resets (s_out σ)))%nat).
  { destruct (about_reset c) eqn:Ea.
    - destruct c; try discriminate Ea; [by eapply forgot_outstanding|by eapply redeem_outstanding].
    - pose proof (other_resets c σ Ea) as E. rewrite Hc in E. cbn [snd] in E. rewrite E.
      assert (redeemed o = 0%nat) as ->; [|lia]. destruct c; try discriminate Ea; injection Hc as <- _; done. }
  lia.
Qed.
(** C13: a link to reset a password works once.  In any history, interleaved
    with anything else, a link is redeemed at most as often as one that
    hashes like it was given out. *)
Theorem reset_link_works_once cs os (σ σ' : State) :
  resets (s_out σ) = ∅ →
  run secret max_age ttl foreign_keys has_letter has_digit cookie_encode cs σ = (os, σ') →
  (count redeemed os <= count given os)%nat.
Proof. intros He H. apply run_outstanding in H. rewrite He in H. unfold outstanding in H at 2. rewrite lookup_empty in H. lia. Qed.
End Resets.

(** ** Passwords *)
Section Passwords.
Context {env : Env} {cr : Crypto}.
(** The rows after the password of a user was set, and nothing else. *)
Definition password_set (id hash : string) (now : Time) (x x' : Tables) : Prop :=
  users x' = (λ u, if by_id id u then with_password hash now u else u) <$> users x ∧
  roles x' = roles x ∧ sessions x' = sessions x.
Lemma set_password_inv id hash (s s' : State) r :
  UpdateUserPassword id hash s = (r, s') →
  match r with
  | Ok _ => ∃ now, password_set id hash now (s_tables s) (s_tables s')
  | Fail _ => s_tables s' = s_tables s
  end.
Proof.
  unfold UpdateUserPassword. intros H. apply bind_inv in H as [(e & H & ->)|(u & s1 & H & H1)].
  - by apply xstmt_inv in H as (_ & _ & H & _).
  - apply xstmt_inv in H as (_ & _ & H). apply with_role_inv in H1 as (Ht & ro & -> & _). rewrite Ht.
    unfold update_user in H. destruct (find_user _ _); [|discriminate H]. injection H as _ <-. by eexists.
Qed.
(** a password changes with the old one alone.  A change that succeeds was
    of an active user who gave the current password; the new one, of eight
    bytes at least, is what the stored hash accepts from then on, no other
    user changes, and the sessions stay open; a change that fails changes
    nothing. *)
Theorem password_needs_the_old_one id old new_ (σ σ' : State) r :
  ChangePassword id old new_ σ = (r, σ') →
  match r with
  | Ok _ => ∃ u hash now, find_user id (s_tables σ) = Some u ∧ Status u = "active"%string ∧
      bcrypt_check (PasswordHash u) old = true ∧ 8 <= len new_ ∧ bcrypt_check hash new_ = true ∧
      password_set id hash now (s_tables σ) (s_tables σ')
  | Fail _ => s_tables σ' = s_tables σ
  end.
Proof.
  unfold ChangePassword. intros H. apply bind_inv in H as [(e & H & ->)|(u & s1 & H & H1)].
  { assert (Hp : preserves (on_tables eq) (GetUserByID id)).
    { unfold GetUserByID, with_role, GetRoleByID. preserve_tables ltac:(fun _ => fail). }
    specialize (Hp σ). rewrite H in Hp. by symmetry. }
  apply user_of_query in H as (Ht & Hu & _). destruct (active _) eqn:Ea; cbn [negb] in H1; [|by injection H1 as <- <-].
  destruct (bcrypt_check _ old) eqn:Eo; cbn [negb] in H1; [|by injection H1 as <- <-].
  destruct (len new_ <? 8) eqn:El; [by injection H1 as <- <-|]. apply String.eqb_eq in Ea. apply Z.ltb_ge in El.
  apply bind_inv in H1 as [(e & H1 & ->)|(hash & s2 & H1 & H2)]; apply draw_inv in H1 as [Eh ->]; [done|].
  symmetry in Eh. apply bcrypt_hashed in Eh.
  apply bind_inv in H2 as [(e & H2 & ->)|(v & s3 & H2 & H3)]; apply set_password_inv in H2; cbn [s_tables fst snd] in H2.
  - congruence.
  - injection H3 as <- <-. destruct H2 as [now H2]. rewrite Ht in H2. by exists (u_row u), hash, now.
Qed.
End Passwords.

(** ** A demonstration *)
#[local] Existing Instance demo_env.
Definition demo_check (h p : string) : bool := String.eqb h ("$" +:+ p)%string.
(** One draw, and no randomness after it. *)
Definition demo_crypto : Crypto.
Proof.
  refine {| random_bytes := λ n, if Nat.eqb n 0 then Ok "a"%string else Fail (Err "no entropy");
            bcrypt_hash := λ _ p, Ok ("$" +:+ p)%string; bcrypt_check := demo_check |}.
  intros n p h [= <-]. apply String.eqb_refl.
Defined.
#[local] Existing Instance demo_crypto.
Definition demo_user : UserRow :=
  mkUser "u1" "asha@acme.in" "$old passw0rd" "Asha" (Some "98"%string) 2 "active" None "system" jan1 jan1.
Definition demo_roles : list RoleRow := [mkRole 1 "admin"; mkRole 2 "dispatcher"; mkRole 4 "viewer"].
Definition demo_start (l : list SessionRow) : State := (world Database.demo_db, mkTables [demo_user] demo_roles l, mkMemory ∅ 0).
Definition demo_claims : ApiToken.APITokenClaims := ApiToken.mkClaims "u1" "admin" "acme" 1 (ApiToken.Unix (jan1 + 9 * day)).
Definition demo_unmarshal (s : string) : option ApiToken.APITokenClaims := if String.eqb s "u1" then Some demo_claims else None.
Definition demo_token : string := ApiToken.token_of ApiToken.UserID "k" demo_claims.
Abbreviation read_back := (fst (ApiToken.ParseAPIToken demo_unmarshal "k" demo_token (world Database.demo_db))).
Definition timeless : ApiToken.APITokenClaims := ApiToken.mkClaims "u1" "dispatcher" "acme" 0 0.
Definition timeless_unmarshal (s : string) : option ApiToken.APITokenClaims :=
  if String.eqb s "u1" then Some (filled timeless (world Database.demo_db)) else None.
Lemma api_token_round_trip_witness :
  filled timeless (world Database.demo_db) = ApiToken.mkClaims "u1" "dispatcher" "acme" (ApiToken.Unix (clock_now 0)) (ApiToken.Unix (clock_now 1 + day)) ∧
  ∀ r, fst (ApiToken.ParseAPIToken timeless_unmarshal "k" (ApiToken.token_of ApiToken.UserID "k" (filled timeless (world Database.demo_db))) (world Database.demo_db)) = Ok r ↔
    r = filled timeless (world Database.demo_db) ∧ ApiToken.Unix (clock_now 0) <= ApiToken.ExpiresAt (filled timeless (world Database.demo_db)).
Proof.
  split; [vm_compute; reflexivity|]. intros r.
  assert (Hj : timeless_unmarshal (ApiToken.UserID (filled timeless (world Database.demo_db))) = Some (filled timeless (world Database.demo_db)))
    by (vm_compute; reflexivity).
  exact (proj1 (api_token_round_trip ApiToken.UserID timeless_unmarshal "k" timeless
    (ApiToken.token_of ApiToken.UserID "k" (filled timeless (world Database.demo_db))) (world Database.demo_db)
    (tick_clock (tick_clock (world Database.demo_db))) (world Database.demo_db) Hj eq_refl ""%string r)).
Defined.

Definition demo_session : SessionRow := mkSession "s1" "u1" (HashToken "k" "t1") (jan1 + 2 * day) jan1.
Definition demo_cookie (s : string) : option SessionData :=
  if String.eqb s "c1" then Some (mkData "u1" "admin" "Asha" (ApiToken.Unix (jan1 + 2 * day)) "t1") else None.
Abbreviation request authorization cookie := (resolveAPIPrincipal "k" demo_cookie true demo_unmarshal "k" (λ _, mret "acme"%string)
  "default" authorization cookie (demo_start [demo_session])).
(** The cookie says admin; the user is a dispatcher now. *)
Lemma admitted_is_current_witness :
  match fst (request "" (Some "c1"%string)) with
  | Ok p => current (s_tables (demo_start [demo_session])) (p_UserID p) (p_Role p) ∧ p_Role p = "dispatcher"%string
  | Fail _ => False
  end.
Proof.
  assert (Hr : match fst (request "" (Some "c1"%string)) with Ok p => p_Role p = "dispatcher"%string | Fail _ => False end)
    by (vm_compute; reflexivity).
  pose proof (admitted_is_current "k" demo_cookie demo_unmarshal "k" (λ _, mret "acme"%string) "default" "" (Some "c1"%string)
    (demo_start [demo_session])) as H.
  destruct (request "" (Some "c1"%string)) as [[p|e] s]; [|destruct Hr]. cbn [fst] in *. split; [|exact Hr].
  destruct (H s p eq_refl) as [Hc|[(t & _ & _ & Hb & _)|(d & _ & Hd & Ht & _)]]; [exact Hc|discriminate Hb|].
  injection Hd as <-. discriminate Ht.
Defined.

Abbreviation signed_out := (Logout "k" "t1" (demo_start [demo_session])).
Abbreviation history cs σ := (run "k" day 0 true (λ _, true) (λ _, true) (λ d, Some (Token d)) cs σ).
Lemma signed_out_stays_out_witness :
  is_Ok (fst signed_out) = true ∧
  is_Ok (fst (ValidateSessionToken "k" "t1" (snd (history [SignIn "asha@acme.in" "old passw0rd"] (snd signed_out))))) = false.
Proof.
  assert (Hok : is_Ok (fst signed_out) = true) by (vm_compute; reflexivity). split; [exact Hok|].
  assert (Hu : unused "k" (HashToken "k" "t1") (demo_start [demo_session])).
  { intros [|n] b _ Hb; [|discriminate Hb]. injection Hb as <-. vm_compute. discriminate. }
  pose proof (signed_out_stays_out "k" day 0 true (λ _, true) (λ _, true) (λ d, Some (Token d)) "t1"
    [SignIn "asha@acme.in" "old passw0rd"] (demo_start [demo_session]) (snd signed_out) Hu) as H.
  destruct signed_out as [[[]|e] s]; [|discriminate Hok]. exact (proj1 (H eq_refl)).
Defined.

Abbreviation redeemed_twice := (history [Forgot "asha@acme.in"; Redeem "61" "new passw0rd"; Redeem "61" "newer passw0rd"] (demo_start [])).
Lemma reset_link_works_once_witness :
  fst redeemed_twice = [Given "61" "asha@acme.in"; Redeemed "61"; Nothing]%string ∧
  (count (redeemed "k" (HashToken "k" "61")) (fst redeemed_twice) <= count (given "k" (HashToken "k" "61")) (fst redeemed_twice))%nat.
Proof.
  split; [by vm_compute|].
  apply (reset_link_works_once "k" day 0 true (λ _, true) (λ _, true) (λ d, Some (Token d)) (HashToken "k" "61")
    [Forgot "asha@acme.in"; Redeem "61" "new passw0rd"; Redeem "61" "newer passw0rd"] (fst redeemed_twice) (demo_start [])
    (snd redeemed_twice)); [reflexivity|by destruct redeemed_twice].
Defined.

Abbreviation changed := (ChangePassword "u1" "old passw0rd" "new passw0rd" (demo_start [demo_session])).
Lemma password_needs_the_old_one_witness :
  is_Ok (fst changed) = true ∧
  ∃ hash now, bcrypt_check hash "new passw0rd" = true ∧ password_set "u1" hash now (s_tables (demo_start [demo_session])) (s_tables (snd changed)).
Proof.
  assert (Hok : is_Ok (fst changed) = true) by (vm_compute; reflexivity). split; [exact Hok|].
  pose proof (password_needs_the_old_one "u1" "old passw0rd" "new passw0rd" (demo_start [demo_session]) (snd changed) (fst changed)) as H.
  destruct changed as [[[]|e] s]; [|discriminate Hok]. destruct (H eq_refl) as (u & hash & now & _ & _ & _ & _ & H5 & H6).
  by exists hash, now.
Defined.

(** *** What is left open *)
(** A session goes on after the password was changed. *)
Example sessions_survive_a_new_password :
  is_Ok (fst (ValidateSessionToken "k" "t1" (snd changed))) = true.
Proof. vm_compute. reflexivity. Qed.
(** A cookie without a token of the server opens the door of a user that was
    suspended. *)
Definition loose_cookie (s : string) : option SessionData :=
  Some (mkData "u1" "viewer" "Asha" (ApiToken.Unix (jan1 + 2 * day)) "").
Example loose_cookie_of_a_suspended_user :
  let σ := snd (UpdateUser "u1" "asha@acme.in" "Asha" "98" 2 "suspended" (demo_start [])) in
  is_Ok (fst (resolveAPIPrincipal "k" loose_cookie true demo_unmarshal "k" (λ _, mret "acme"%string) "default" "" (Some "c1"%string) σ)) = true.
Proof. vm_compute. reflexivity. Qed.
(** The first letter of a name that is not ASCII is destroyed. *)
Example first_letter_lost :
  Password.sanitizeName (of_bytes [195; 137; 118; 97]) = of_bytes [239; 191; 189; 137; 118; 97].
Proof. vm_compute. reflexivity. Qed.
(** A profile that is saved while the role cannot be read loses its role. *)
Definition fault_at_1 (n : nat) : option error := if Nat.eqb n 1 then Some (Err "database is locked") else None.
Lemma fault_at_1_ok n e : fault_at_1 n = Some e → is_no_rows e = false.
Proof. unfold fault_at_1. case_match; [by intros [= <-]|done]. Qed.
Example profile_loses_the_role :
  RoleID <$> users (s_tables (snd (UpdateProfile (env := test_env jan1 fault_at_1 fault_at_1_ok) "u1" "Asha" "98" "" (demo_start [])))) = [0].
Proof. vm_compute. reflexivity. Qed.
End AuthSafety.
