(* ===== verification/Experiments.v ===== *)
(** * Experiments and variants

    [internal/service/experiments_service.go], what it uses of
    [founder_audit_service.go], and the split of the dashboard in
    [internal/experiments/experiments.go]: the life of an experiment, the
    variant of a subject, also with requests interleaved statement by
    statement, and the metrics of the two variants. *)
From stdpp Require Import base decidable list strings option gmap pretty.
From Stdlib Require Import ZArith Lia Ascii String.
From S2P Require Import Prelude GoFloat GoCrypto Shared Database SideTables Geofence GeofenceStore RateLimit Fastag.
Open Scope Z_scope.

(** ** The dashboard's split (internal/experiments) *)
Module Sha1.
(** [sha1.Sum], on the word operations of SHA-256. *)
Import Sha256.
Definition rotl (n x : Z) : Z := Z.lor (w32 (Z.shiftl x n)) (Z.shiftr x (32 - n)).
Fixpoint expand (n : nat) (w : list Z) : list Z :=
  match n with
  | O => w
  | Datatypes.S n => expand n (rotl 1 (Z.lxor (Z.lxor (nth 2 w 0) (nth 7 w 0)) (Z.lxor (nth 13 w 0) (nth 15 w 0))) :: w)
  end.
Record st := mkSha1 { a : Z; b : Z; c : Z; d : Z; e : Z }.
Definition mix (i : nat) (s : st) : Z * Z :=
  if Nat.ltb i 20 then (ch (b s) (c s) (d s), 1518500249)
  else if Nat.ltb i 40 then (Z.lxor (Z.lxor (b s) (c s)) (d s), 1859775393)
  else if Nat.ltb i 60 then (maj (b s) (c s) (d s), 2400959708)
  else (Z.lxor (Z.lxor (b s) (c s)) (d s), 3395469782).
Definition step (s : st) (iw : nat * Z) : st :=
  let (f, k) := mix (fst iw) s in
  mkSha1 (w32 (rotl 5 (a s) + f + e s + k + snd iw)) (a s) (rotl 30 (b s)) (c s) (d s).
Definition add (s t : st) : st :=
  mkSha1 (w32 (a s + a t)) (w32 (b s + b t)) (w32 (c s + c t)) (w32 (d s + d t)) (w32 (e s + e t)).
Definition block (s : st) (w : list Z) : st := add s (foldl step s (combine (List.seq 0 80) (rev (expand 64 (rev w))))).
Fixpoint chunks (n : nat) (w : list Z) (s : st) : st :=
  match n with O => s | Datatypes.S n => chunks n (skipn 16 w) (block s (firstn 16 w)) end.
Definition start : st := mkSha1 1732584193 4023233417 2562383102 271733878 3285377520.
Definition Sum (text : string) : string :=
  let msg := bytes text in
  let w := words (msg ++ padding (Z.of_nat (List.length msg))) in
  let s := chunks (Nat.div (List.length w) 16) w start in
  of_bytes (be32 (a s) ++ be32 (b s) ++ be32 (c s) ++ be32 (d s) ++ be32 (e s)).
Example sum_abc : hex_encode (Sum "abc") = "a9993e364706816aba3e25717850c26c9cd0d89d"%string.
Proof. vm_compute. reflexivity. Qed.
End Sha1.

Module Split.
Definition VariantA : string := "A".
Definition VariantB : string := "B".
(** The first eight digits of the digest as an unsigned 64-bit integer. *)
Definition bucket (tenantID userID : string) : Z :=
  foldl (λ z d, (z * 256 + d) mod 2 ^ 64) 0 (take 8 (bytes (hex_encode (Sha1.Sum (tenantID +:+ ":" +:+ userID)))))
  mod 100.
Definition Assign (rollout : Z) (force tenantID userID : string) : string :=
  if String.eqb force VariantA then VariantA
  else if String.eqb force VariantB then VariantB
  else if rollout <=? 0 then VariantA
  else if 100 <=? rollout then VariantB
  else if bucket tenantID userID <? rollout then VariantB else VariantA.

Record Event := mkEvent {
  ev_ID : string; ev_TenantID : string; ev_UserID : string; ev_Experiment : string; ev_Variant : string;
  ev_Event : string; ev_Meta : string; ev_CreatedAt : Time }.
Section Recorder.
Context {env : Env}.
Definition UnixNano (t : Time) : Z := t - 62135596800 * Dwell.second.
(** [newID]: two readings of the clock. *)
Definition newID (prefix : string) : XM (list Event) unit string :=
  n1 ← core Now; n2 ← core Now;
  mret (prefix +:+ "-" +:+ pretty (UnixNano n1) +:+ "-" +:+ pretty (UnixNano n2 / 1000000 mod 100000))%string.
(** A failure is logged; [meta] is the JSON of the metadata. *)
Definition Record_ (tenantID userID experiment variant event meta : string) : XM (list Event) unit unit :=
  id ← newID "evt"; at_ ← core Now;
  SM_ignore (xexec (λ _ _ l,
    if existsb (λ e, String.eqb (ev_ID e) id) l then (Fail (Err "UNIQUE constraint failed: experiment_events.id"), l)
    else (Ok tt, (l ++ [mkEvent id tenantID userID experiment variant event meta at_])%list))).
End Recorder.

(** A larger rollout keeps everyone in the treatment who was in it. *)
Lemma assign_monotone r1 r2 force tenantID userID :
  r1 <= r2 → Assign r1 force tenantID userID = VariantB → Assign r2 force tenantID userID = VariantB.
Proof.
  unfold Assign. intros Hr. destruct (String.eqb force VariantA); [done|]. destruct (String.eqb force VariantB); [done|].
  destruct (Z.leb_spec r1 0); [done|]. destruct (Z.leb_spec r2 0); [lia|]. destruct (Z.leb_spec 100 r2); [done|].
  destruct (Z.leb_spec 100 r1); [lia|]. destruct (Z.ltb_spec (bucket tenantID userID) r1); [|done].
  destruct (Z.ltb_spec (bucket tenantID userID) r2); [done|lia].
Qed.
Example assign_demo : map (λ r, Assign r "" "1" "u1") [0; 25; 50; 75; 100] = ["A"; "A"; "B"; "B"; "B"]%string.
Proof. vm_compute. reflexivity. Qed.
End Split.

(** ** Experiments (internal/service) *)
Module Experiments.
Definition ExperimentStatusDraft : string := "draft".
Definition ExperimentStatusRunning : string := "running".
Definition ExperimentStatusPaused : string := "paused".
Definition ExperimentStatusCompleted : string := "completed".
Definition ExperimentStatusArchived : string := "archived".
Definition VariantA : string := "a".
Definition VariantB : string := "b".

Record Experiment := mkExperiment {
  ID : string; TenantID : string; Name : string; Description : string; LabelA : string; LabelB : string;
  TrafficSplit : float64; Status : string; StartDate : option Time; EndDate : option Time; MetricName : string;
  CreatedBy : string; CreatedAt : Time; UpdatedAt : Time }.
Record ExperimentAssignment := mkAssignment {
  as_ID : string; as_ExperimentID : string; as_TenantID : string; as_SubjectType : string; as_SubjectID : string;
  as_Variant : string; as_AssignedAt : Time }.
Record AuditEntry := mkEntry {
  fa_ID : string; fa_TenantID : string; fa_ActorID : string; fa_ActorRole : string; fa_Action : string;
  fa_ResourceType : string; fa_ResourceID : string; fa_Details : string; fa_CreatedAt : Time }.
Record Tables := mkTables {
  experiments : list Experiment; assignments : list ExperimentAssignment; founder_audit : list AuditEntry }.
Definition set_experiments l (x : Tables) : Tables := mkTables l (assignments x) (founder_audit x).
Definition set_assignments l (x : Tables) : Tables := mkTables (experiments x) l (founder_audit x).
Definition set_founder_audit l (x : Tables) : Tables := mkTables (experiments x) (assignments x) l.
Abbreviation State := (World * Tables * unit)%type.
Abbreviation EM := (XM Tables unit).

Definition with_status (s : string) (now : Time) (e : Experiment) : Experiment :=
  mkExperiment (ID e) (TenantID e) (Name e) (Description e) (LabelA e) (LabelB e) (TrafficSplit e) s
    (StartDate e) (EndDate e) (MetricName e) (CreatedBy e) (CreatedAt e) now.
Definition by_id (id : string) (e : Experiment) : bool := String.eqb (ID e) id.
Definition of_subject (experimentID subjectType subjectID : string) (a : ExperimentAssignment) : bool :=
  String.eqb (as_ExperimentID a) experimentID && String.eqb (as_SubjectType a) subjectType &&
  String.eqb (as_SubjectID a) subjectID.
Definition assigned (experimentID subjectType subjectID : string) (x : Tables) : option string :=
  as_Variant <$> List.find (of_subject experimentID subjectType subjectID) (assignments x).
Definition find_experiment (id : string) (x : Tables) : option Experiment := List.find (by_id id) (experiments x).
Definition named (tenantID name : string) (x : Tables) : option Experiment :=
  List.find (λ e, String.eqb (TenantID e) tenantID && String.eqb (Name e) name) (experiments x).
(** The columns and constraints of the schema. *)
Definition statuses : list string :=
  [ExperimentStatusDraft; ExperimentStatusRunning; ExperimentStatusPaused; ExperimentStatusCompleted; ExperimentStatusArchived].
Definition subject_types : list string := ["user"; "driver"; "vehicle"; "customer"]%string.
Definition insert_experiment (e : Experiment) (x : Tables) : result unit * Tables :=
  if existsb (by_id (ID e)) (experiments x) then (Fail (Err "UNIQUE constraint failed: experiments_spec16.id"), x)
  else if is_nan (TrafficSplit e) then (Fail (Err "NOT NULL constraint failed: experiments_spec16.traffic_split"), x)
  else (Ok tt, set_experiments (experiments x ++ [e])%list x).
Definition insert_assignment (foreign_keys : bool) (a : ExperimentAssignment) (x : Tables) : result unit * Tables :=
  if existsb (λ b, String.eqb (as_ID b) (as_ID a)) (assignments x) then
    (Fail (Err "UNIQUE constraint failed: experiment_assignments.id"), x)
  else if existsb (of_subject (as_ExperimentID a) (as_SubjectType a) (as_SubjectID a)) (assignments x) then
    (Fail (Err "UNIQUE constraint failed: experiment_assignments.experiment_id, experiment_assignments.subject_type, experiment_assignments.subject_id"), x)
  else if negb (bool_decide (as_SubjectType a ∈ subject_types)) then
    (Fail (Err "CHECK constraint failed: subject_type"), x)
  else if foreign_keys && negb (existsb (by_id (as_ExperimentID a)) (experiments x)) then
    (Fail (Err "FOREIGN KEY constraint failed"), x)
  else (Ok tt, set_assignments (assignments x ++ [a])%list x).
Definition insert_entry (e : AuditEntry) (x : Tables) : result unit * Tables :=
  if existsb (λ f, String.eqb (fa_ID f) (fa_ID e)) (founder_audit x) then
    (Fail (Err "UNIQUE constraint failed: founder_audit.id"), x)
  else (Ok tt, set_founder_audit (founder_audit x ++ [e])%list x).

(** The hash of experiment, kind and subject, written one after the other. *)
Definition percentage (experimentID subjectType subjectID : string) : float64 :=
  fdiv (f64_of_Z (Limiter.fnv32a (experimentID +:+ subjectType +:+ subjectID) mod 10000)) f100.
Definition computeVariant (experimentID subjectType subjectID : string) (trafficSplit : float64) : string :=
  if fltb (percentage experimentID subjectType subjectID) trafficSplit then VariantB else VariantA.

Section Service.
(** [audit] tells whether the audit service is wired. *)
Context {env : Env} (foreign_keys audit : bool).

Definition or_default (tenantID : string) : string := if is_empty tenantID then DefaultTenant else tenantID.
Definition RecordAudit (tenant actor role action kind id details : string) : EM unit :=
  fid ← core (GenerateDisplayID "fa");
  now ← core Now;
  SM_map_err (Wrap "insert founder audit")
    (xexec (λ _ _ x, insert_entry (mkEntry fid (or_default tenant) actor role action kind id details now) x)).
Definition recordAudit (action id detail : string) : EM unit :=
  if negb audit then mret tt
  else SM_ignore (RecordAudit DefaultTenant "system" "admin" action "experiment" id detail).
Definition CountByStatus (tenantID status : string) : EM Z :=
  xquery (λ _ _ x, Z.of_nat (List.length (List.filter
    (λ e, String.eqb (TenantID e) (or_default tenantID) && String.eqb (Status e) status) (experiments x)))).

(** The errors print the split. *)
Definition CreateExperiment (quoted_name : string → string) (exp : Experiment) : EM string :=
  now ← core Now;
  if (TrafficSplit exp <? f0)%f64 || (f100 <? TrafficSplit exp)%f64 then
    SM_fail (Err "traffic_split must be between 0 and 100")
  else
    id ← core (GenerateDisplayID "exp");
    _ ← SM_map_err (Wrap "insert experiment") (xexec (λ _ _ x, insert_experiment
      (mkExperiment id (or_default (TenantID exp)) (Name exp) (Description exp)
         (if is_empty (LabelA exp) then "control" else LabelA exp)%string
         (if is_empty (LabelB exp) then "treatment" else LabelB exp)%string
         (TrafficSplit exp) ExperimentStatusDraft (StartDate exp) (EndDate exp) (MetricName exp) (CreatedBy exp) now now) x));
    _ ← recordAudit "experiment_create" id (quoted_name (Name exp));
    mret id.

(** [UPDATE ... SET status WHERE id = ? AND status IN (...)]: the rows. *)
Definition move_row (from : list string) (to id : string) (now : Time) (e : Experiment) : Experiment :=
  if by_id id e && bool_decide (Status e ∈ from) then with_status to now e else e.
Definition transition (from : list string) (to id complaint : string) : EM unit :=
  now ← core Now;
  n ← xexec (λ _ _ x,
    (Ok (List.length (List.filter (λ e, by_id id e && bool_decide (Status e ∈ from)) (experiments x))),
     set_experiments (move_row from to id now <$> experiments x) x));
  if Nat.eqb n 0 then SM_fail (Err ("experiment " +:+ id +:+ " not found or " +:+ complaint)) else mret tt.
Definition StartExperiment (id : string) : EM unit :=
  _ ← transition [ExperimentStatusDraft] ExperimentStatusRunning id "not in draft status";
  recordAudit "experiment_start" id "{}".
Definition PauseExperiment (id : string) : EM unit :=
  transition [ExperimentStatusRunning] ExperimentStatusPaused id "not running".
Definition ResumeExperiment (id : string) : EM unit :=
  transition [ExperimentStatusPaused] ExperimentStatusRunning id "not paused".
Definition CompleteExperiment (id : string) : EM unit :=
  _ ← transition [ExperimentStatusRunning; ExperimentStatusPaused] ExperimentStatusCompleted id "not in running/paused status";
  recordAudit "experiment_complete" id "{}".
Definition ArchiveExperiment (id : string) : EM unit :=
  transition [ExperimentStatusCompleted] ExperimentStatusArchived id "not completed".

Definition not_found (e : error) : error := if is_no_rows e then Err "experiment not found" else e.
Definition GetExperiment (id : string) : EM Experiment :=
  SM_map_err not_found (xquery_row (λ _ _ x, find_experiment id x)).
Definition GetExperimentByName (tenantID name : string) : EM Experiment :=
  SM_map_err not_found (xquery_row (λ _ _ x, named tenantID name x)).
Definition ListExperiments (tenantID status : string) : EM (list Experiment) :=
  xquery (λ _ _ x, order_by (λ e f, CreatedAt f <=? CreatedAt e) (List.filter
    (λ e, String.eqb (TenantID e) (or_default tenantID) && (is_empty status || String.eqb (Status e) status)) (experiments x))).

Definition lookup_assignment (experimentID subjectType subjectID : string) : EM string :=
  xquery_row (λ _ _ x, assigned experimentID subjectType subjectID x).
Definition within_dates (now : Time) (e : Experiment) : result unit :=
  if match StartDate e with Some t => now <? t | None => false end then
    Fail (Err ("experiment " +:+ ID e +:+ " has not started yet"))
  else if match EndDate e with Some t => t <? now | None => false end then
    Fail (Err ("experiment " +:+ ID e +:+ " has ended"))
  else Ok tt.
Definition store_assignment (tenantID experimentID subjectType subjectID variant : string) : EM unit :=
  id ← core (GenerateDisplayID "expa");
  xexec (λ now _ x, insert_assignment foreign_keys
    (mkAssignment id experimentID tenantID subjectType subjectID variant now) x).
Definition AssignVariant (tenantID experimentID subjectType subjectID : string) : EM string :=
  r ← SM_try (lookup_assignment experimentID subjectType subjectID);
  match r with
  | Ok v => mret v
  | Fail err =>
      if negb (is_no_rows err) then SM_fail (Wrap "assignment lookup failed" err)
      else
        exp ← GetExperiment experimentID;
        if negb (String.eqb (Status exp) ExperimentStatusRunning) then
          SM_fail (Err ("experiment " +:+ experimentID +:+ " is not running (status: " +:+ Status exp +:+ ")"))
        else
          now ← core Now;
          _ ← SM_lift (within_dates now exp);
          let variant := computeVariant experimentID subjectType subjectID (TrafficSplit exp) in
          r ← SM_try (store_assignment tenantID experimentID subjectType subjectID variant);
          match r with
          | Ok _ => mret variant
          | Fail err =>
              r ← SM_try (lookup_assignment experimentID subjectType subjectID);
              match r with Ok v => mret v | Fail _ => SM_fail (Wrap "failed to persist assignment" err) end
          end
  end.
Definition GetAssignment (experimentID subjectType subjectID : string) : EM string :=
  r ← SM_try (lookup_assignment experimentID subjectType subjectID);
  match r with
  | Ok v => mret v
  | Fail err => if is_no_rows err then mret ""%string else SM_fail err
  end.
Definition ListAssignments (experimentID : string) : EM (list ExperimentAssignment) :=
  xquery (λ _ _ x, order_by (λ a b, as_AssignedAt b <=? as_AssignedAt a)
    (List.filter (λ a, String.eqb (as_ExperimentID a) experimentID) (assignments x))).
Definition EvaluateFeatureFlag (tenantID experimentName subjectType subjectID : string) : EM string :=
  let tenantID := or_default tenantID in
  r ← SM_try (GetExperimentByName tenantID experimentName);
  match r with
  | Fail _ => mret VariantA
  | Ok exp =>
      if negb (String.eqb (Status exp) ExperimentStatusRunning) then mret VariantA
      else
        r ← SM_try (AssignVariant tenantID (ID exp) subjectType subjectID);
        mret match r with Ok v => v | Fail _ => VariantA end
  end.
Definition IsInTreatment (tenantID experimentName subjectType subjectID : string) : EM bool :=
  v ← EvaluateFeatureFlag tenantID experimentName subjectType subjectID;
  mret (String.eqb v VariantB).
End Service.

(** *** Metrics *)
Record experimentMetricDetail := mkDetail {
  d_Variant : string; MetricValue : float64; SubjectType : string; SubjectID : string }.
(** [encoding/json] on it: what is no number has no JSON. *)
Class MetricJson := {
  Marshal : experimentMetricDetail → result string;
  Unmarshal : string → option experimentMetricDetail }.
Record VariantMetrics := mkMetrics {
  Variant : string; Count : Z; AvgMetric : float64; MinMetric : float64; MaxMetric : float64 }.
Record ExperimentResults := mkResults {
  ExperimentID : string; r_VariantA : VariantMetrics; r_VariantB : VariantMetrics; TotalSubjects : Z }.

(** One more value for a variant, with the sum so far. *)
Definition measure (m : VariantMetrics * float64) (v : float64) : VariantMetrics * float64 :=
  let n := Count (fst m) + 1 in
  (mkMetrics (Variant (fst m)) n (AvgMetric (fst m))
     (if (n =? 1) || (v <? MinMetric (fst m))%f64 then v else MinMetric (fst m))
     (if (MaxMetric (fst m) <? v)%f64 then v else MaxMetric (fst m)),
   fadd (snd m) v).
Definition averaged (m : VariantMetrics * float64) : VariantMetrics :=
  let (vm, sum) := m in
  if 0 <? Count vm then mkMetrics (Variant vm) (Count vm) (fdiv sum (f64_of_Z (Count vm))) (MinMetric vm) (MaxMetric vm) else vm.
Definition tally (m : (VariantMetrics * float64) * (VariantMetrics * float64)) (d : experimentMetricDetail) :=
  if String.eqb (d_Variant d) VariantA then (measure (fst m) (MetricValue d), snd m)
  else if String.eqb (d_Variant d) VariantB then (fst m, measure (snd m) (MetricValue d))
  else m.
Definition no_metrics (variant : string) : VariantMetrics * float64 := (mkMetrics variant 0 f0 f0 f0, f0).
Definition results_of (experimentID : string) (ds : list experimentMetricDetail) : ExperimentResults :=
  let m := foldl tally (no_metrics VariantA, no_metrics VariantB) ds in
  let a := averaged (fst m) in let b := averaged (snd m) in
  mkResults experimentID a b (Count a + Count b).
Definition metric_of (experimentID : string) (e : AuditEntry) : bool :=
  String.eqb (fa_ResourceType e) "experiment" && String.eqb (fa_ResourceID e) experimentID &&
  String.eqb (fa_Action e) "experiment_metric".

Section Metrics.
Context {env : Env} {js : MetricJson}.
Definition RecordMetric (tenantID experimentID subjectType subjectID : string) (metricValue : float64) : EM unit :=
  variant ← GetAssignment experimentID subjectType subjectID;
  if is_empty variant then SM_fail (Err ("subject not assigned to experiment " +:+ experimentID))
  else
    payload ← SM_map_err (Wrap "marshal metric detail") (SM_lift (Marshal (mkDetail variant metricValue subjectType subjectID)));
    id ← core (GenerateDisplayID "fa");
    SM_map_err (Wrap "insert experiment metric")
      (xexec (λ now _ x, insert_entry
        (mkEntry id tenantID subjectID "system" "experiment_metric" "experiment" experimentID payload now) x)).
(** A text that is no detail is passed over. *)
Definition GetExperimentResults (experimentID : string) : EM ExperimentResults :=
  rows ← SM_map_err (Wrap "query experiment results")
    (xquery (λ _ _ x, order_by (λ e f, fa_CreatedAt e <=? fa_CreatedAt f) (List.filter (metric_of experimentID) (founder_audit x))));
  mret (results_of experimentID (omap (λ e, Unmarshal (fa_Details e)) rows)).
End Metrics.

(** *** Requests interleaved

    [AssignVariant] runs in no transaction: between two of its statements
    anything may happen.  Its statements one at a time. *)
Record request := mkRequest { q_TenantID : string; q_ExperimentID : string; q_SubjectType : string; q_SubjectID : string }.
Inductive pc :=
| Lookup | Load | Decide (e : Experiment) | Store (variant : string) | Reread (err : error)
| Answered (r : result string).

(** Everything else that writes these tables. *)
Inductive operation :=
| OpCreate (e : Experiment) | OpStart (id : string) | OpPause (id : string) | OpResume (id : string)
| OpComplete (id : string) | OpArchive (id : string) | OpAssign (q : request) | OpMetric (q : request) (v : float64).
Inductive turn := Turn (i : nat) | Other (o : operation).

Section Machine.
Context {env : Env} {js : MetricJson} (foreign_keys audit : bool) (quoted_name : string → string).
Definition assign_step (q : request) (p : pc) : EM pc :=
  match p with
  | Lookup =>
      r ← SM_try (lookup_assignment (q_ExperimentID q) (q_SubjectType q) (q_SubjectID q));
      mret match r with
           | Ok v => Answered (Ok v)
           | Fail err => if negb (is_no_rows err) then Answered (Fail (Wrap "assignment lookup failed" err)) else Load
           end
  | Load =>
      r ← SM_try (GetExperiment (q_ExperimentID q));
      mret match r with
           | Fail err => Answered (Fail err)
           | Ok exp =>
               if negb (String.eqb (Status exp) ExperimentStatusRunning) then
                 Answered (Fail (Err ("experiment " +:+ q_ExperimentID q +:+ " is not running (status: " +:+ Status exp +:+ ")")))
               else Decide exp
           end
  | Decide exp =>
      now ← core Now;
      mret match within_dates now exp with
           | Fail err => Answered (Fail err)
           | Ok _ => Store (computeVariant (q_ExperimentID q) (q_SubjectType q) (q_SubjectID q) (TrafficSplit exp))
           end
  | Store v =>
      r ← SM_try (store_assignment foreign_keys (q_TenantID q) (q_ExperimentID q) (q_SubjectType q) (q_SubjectID q) v);
      mret match r with Ok _ => Answered (Ok v) | Fail err => Reread err end
  | Reread err =>
      r ← SM_try (lookup_assignment (q_ExperimentID q) (q_SubjectType q) (q_SubjectID q));
      mret match r with Ok v => Answered (Ok v) | Fail _ => Answered (Fail (Wrap "failed to persist assignment" err)) end
  | Answered r => mret (Answered r)
  end.
Definition perform (o : operation) : EM unit :=
  match o with
  | OpCreate e => SM_ignore (CreateExperiment audit quoted_name e)
  | OpStart id => SM_ignore (StartExperiment audit id)
  | OpPause id => SM_ignore (PauseExperiment id)
  | OpResume id => SM_ignore (ResumeExperiment id)
  | OpComplete id => SM_ignore (CompleteExperiment audit id)
  | OpArchive id => SM_ignore (ArchiveExperiment id)
  | OpAssign q => SM_ignore (AssignVariant foreign_keys (q_TenantID q) (q_ExperimentID q) (q_SubjectType q) (q_SubjectID q))
  | OpMetric q v => SM_ignore (RecordMetric (q_TenantID q) (q_ExperimentID q) (q_SubjectType q) (q_SubjectID q) v)
  end.
(** The requests under way, and what they share. *)
Definition System : Type := list (request * pc) * State.
Definition take_turn (s : System) (t : turn) : System :=
  match t with
  | Turn i =>
      match fst s !! i with
      | Some (q, p) =>
          match assign_step q p (snd s) with
          | (Ok p', σ) => (<[i := (q, p')]> (fst s), σ)
          | (Fail _, σ) => (fst s, σ)
          end
      | None => s
      end
  | Other o => (fst s, snd (perform o (snd s)))
  end.
Definition schedule (ts : list turn) (s : System) : System := foldl take_turn s ts.
Fixpoint alone (n : nat) (q : request) (p : pc) : EM pc :=
  match n with O => mret p | S n => p ← assign_step q p; alone n q p end.
End Machine.

(** ** The variant of a subject *)
Definition grows (x x' : Tables) : Prop := ∃ l, assignments x' = (assignments x ++ l)%list.
#[export] Instance grows_preorder : PreOrder grows.
Proof.
  split; [intros x; exists []; by rewrite app_nil_r|]. intros x y z [l Hl] [m Hm]. exists (l ++ m)%list. by rewrite Hm, Hl, app_assoc.
Qed.
Lemma grows_same x x' : assignments x' = assignments x → grows x x'.
Proof. intros H. exists []. by rewrite H, app_nil_r. Qed.
Lemma find_app {A} (f : A → bool) l m : List.find f (l ++ m) = match List.find f l with Some a => Some a | None => List.find f m end.
Proof. induction l as [|a l IH]; cbn; [done|]. by destruct (f a). Qed.
Lemma assigned_grows e t s x x' v : grows x x' → assigned e t s x = Some v → assigned e t s x' = Some v.
Proof. unfold assigned. intros [l Hl]. rewrite Hl, find_app. by destruct (List.find _ (assignments x)). Qed.
Lemma insert_grows fk a x : grows x (snd (insert_assignment fk a x)).
Proof. unfold insert_assignment. repeat case_match; cbn; try reflexivity. by eexists. Qed.
Lemma find_existsb {A} (f : A → bool) l : existsb f l = false → List.find f l = None.
Proof. induction l as [|a l IH]; cbn; [done|]. by destruct (f a). Qed.
Lemma insert_assigned fk a x x' :
  insert_assignment fk a x = (Ok tt, x') →
  assigned (as_ExperimentID a) (as_SubjectType a) (as_SubjectID a) x' = Some (as_Variant a).
Proof.
  unfold insert_assignment. destruct (existsb _ _); [done|]. destruct (existsb (of_subject _ _ _) _) eqn:E; [done|].
  repeat case_match; try done. intros [= <-]. unfold assigned. cbn. rewrite find_app, (find_existsb _ _ E). cbn.
  unfold of_subject. by rewrite !String.eqb_refl.
Qed.

Section Agreement.
Context {env : Env} {js : MetricJson} (foreign_keys audit : bool) (quoted_name : string → string).
Ltac grow := unfold GetAssignment, GetExperiment, lookup_assignment, store_assignment, recordAudit, RecordAudit;
  preserve_tables ltac:(fun _ => first [ apply insert_grows | by apply grows_same
    | unfold insert_experiment, insert_entry; repeat case_match; by apply grows_same ]).
Lemma transition_grows from to id c : preserves (on_tables grows) (transition from to id c).
Proof. unfold transition. grow. Qed.
Lemma AssignVariant_grows t e k s : preserves (on_tables grows) (AssignVariant foreign_keys t e k s).
Proof. unfold AssignVariant. grow. Qed.
Lemma perform_grows o : preserves (on_tables grows) (perform foreign_keys audit quoted_name o).
Proof.
  destruct o; cbn [perform]; unfold StartExperiment, PauseExperiment, ResumeExperiment, CompleteExperiment, ArchiveExperiment,
    CreateExperiment, RecordMetric; apply preserves_ignore; try apply transition_grows; try apply AssignVariant_grows;
    repeat (apply preserves_bind; [exact _|first [apply transition_grows|idtac]|intros ?]); grow.
Qed.
Lemma step_grows q p : preserves (on_tables grows) (assign_step foreign_keys q p).
Proof. destruct p; cbn [assign_step]; grow. Qed.
(** What a request was told is what the table has. *)
Definition recorded (q : request) (v : string) (x : Tables) : Prop :=
  assigned (q_ExperimentID q) (q_SubjectType q) (q_SubjectID q) x = Some v.
Lemma lookup_recorded q v (σ σ' : State) :
  lookup_assignment (q_ExperimentID q) (q_SubjectType q) (q_SubjectID q) σ = (Ok v, σ') → recorded q v (s_tables σ').
Proof. unfold lookup_assignment. intros (_ & _ & Ht & Hq)%xquery_row_inv. unfold recorded. by rewrite Ht. Qed.
Lemma store_recorded q v (σ σ' : State) u :
  store_assignment foreign_keys (q_TenantID q) (q_ExperimentID q) (q_SubjectType q) (q_SubjectID q) v σ = (Ok u, σ') →
  recorded q v (s_tables σ').
Proof.
  unfold store_assignment. intros H. run_ok H. apply xstmt_inv in H as (_ & _ & H). destruct u. by apply insert_assigned in H.
Qed.
Lemma step_recorded q p v (σ σ' : State) :
  assign_step foreign_keys q p σ = (Ok (Answered (Ok v)), σ') → p = Answered (Ok v) ∨ recorded q v (s_tables σ').
Proof.
  intros H. destruct p; cbn [assign_step] in H; cbv [mbind SM_mbind SM_bind SM_try mret SM_mret SM_ret] in H.
  - destruct (lookup_assignment _ _ _ σ) as [[w|e] s] eqn:E; [|by destruct (negb (is_no_rows e))].
    injection H as <- <-. right. by apply lookup_recorded in E.
  - destruct (GetExperiment _ σ) as [[w|e] s]; [by destruct (negb _)|done].
  - destruct (core Now σ) as [[w|e'] s]; [by destruct (within_dates w e)|done].
  - destruct (store_assignment _ _ _ _ _ _ σ) as [[w|e] s] eqn:E; [|done]. injection H as <- <-. right.
    by apply store_recorded in E.
  - destruct (lookup_assignment _ _ _ σ) as [[w|e] s] eqn:E; [|done]. injection H as <- <-. right. by apply lookup_recorded in E.
  - injection H as -> <-. by left.
Qed.
Definition told (s : System) : Prop :=
  ∀ i q v, fst s !! i = Some (q, Answered (Ok v)) → recorded q v (s_tables (snd s)).
Lemma turn_told t s : told s → told (take_turn foreign_keys audit quoted_name s t).
Proof.
  intros Ht. destruct t as [i|o]; cbn [take_turn].
  - destruct (fst s !! i) as [[q p]|] eqn:Hi; [|done]. pose proof (step_grows q p (snd s)) as Hg. unfold on_tables in Hg.
    destruct (assign_step _ q p (snd s)) as [[p'|e] σ] eqn:Hs; cbn [snd] in Hg;
      [|intros j q' v Hj; exact (assigned_grows _ _ _ _ _ _ Hg (Ht j q' v Hj))].
    intros j q' v Hj. cbn [fst snd] in *. destruct (decide (i = j)) as [->|Hne].
    + rewrite list_lookup_insert_eq in Hj by (by eapply lookup_lt_Some). injection Hj as <- ->.
      destruct (step_recorded _ _ _ _ _ Hs) as [->|Hr]; [|exact Hr]. exact (assigned_grows _ _ _ _ _ _ Hg (Ht j q v Hi)).
    + rewrite list_lookup_insert_ne in Hj by done. exact (assigned_grows _ _ _ _ _ _ Hg (Ht j q' v Hj)).
  - intros j q v Hj. exact (assigned_grows _ _ _ _ _ _ (perform_grows o (snd s)) (Ht j q v Hj)).
Qed.
Lemma schedule_told ts s : told s → told (schedule foreign_keys audit quoted_name ts s).
Proof. revert s. induction ts as [|t ts IH]; intros s H; [done|]. apply IH, turn_told, H. Qed.
Lemma fresh_told qs (σ : State) : told ((λ q, (q, Lookup)) <$> qs, σ).
Proof. intros i q v H. cbn in H. rewrite list_lookup_fmap in H. by destruct (qs !! i). Qed.

(** requests that ask for the variant of the same subject are told the
    same one, and the one on record.  However their statements interleave,
    with each other and with everything else that is done to experiments, and
    whichever statements fail. *)
Theorem variant_is_agreed ts qs (σ : State) i j q r v w :
  let s := schedule foreign_keys audit quoted_name ts ((λ q, (q, Lookup)) <$> qs, σ) in
  fst s !! i = Some (q, Answered (Ok v)) →
  fst s !! j = Some (r, Answered (Ok w)) →
  q_ExperimentID q = q_ExperimentID r → q_SubjectType q = q_SubjectType r → q_SubjectID q = q_SubjectID r →
  v = w ∧ recorded q v (s_tables (snd s)).
Proof.
  intros s Hi Hj He Ht Hs. pose proof (schedule_told ts _ (fresh_told qs σ)) as H. fold s in H.
  pose proof (H i q v Hi) as H1. pose proof (H j r w Hj) as H2. split; [|done].
  unfold recorded in *. rewrite He, Ht, Hs in H1. rewrite H1 in H2. by injection H2.
Qed.
End Agreement.

(** The statements one at a time, with nothing between them, are
    [AssignVariant]. *)
Section Alone.
Context {env : Env} (foreign_keys : bool).
Lemma alone_answered n q r (σ : State) : alone foreign_keys n q (Answered r) σ = (Ok (Answered r), σ).
Proof. revert σ. induction n as [|n IH]; intros σ; [done|]. cbn [alone assign_step]. apply IH. Qed.
Lemma alone_step n q p (σ : State) :
  alone foreign_keys (S n) q p σ =
  match assign_step foreign_keys q p σ with (Ok p', σ') => alone foreign_keys n q p' σ' | (Fail e, σ') => (Fail e, σ') end.
Proof. done. Qed.
Ltac next := rewrite alone_step; cbn [assign_step q_TenantID q_ExperimentID q_SubjectType q_SubjectID];
  cbv [mbind SM_mbind SM_bind SM_try mret SM_mret SM_ret SM_lift].
Lemma alone_is_AssignVariant q (σ : State) :
  alone foreign_keys 5 q Lookup σ =
  match AssignVariant foreign_keys (q_TenantID q) (q_ExperimentID q) (q_SubjectType q) (q_SubjectID q) σ with
  | (r, σ') => (Ok (Answered r), σ')
  end.
Proof.
  destruct q as [t e k s]. cbn [q_TenantID q_ExperimentID q_SubjectType q_SubjectID]. unfold AssignVariant. next.
  destruct (lookup_assignment e k s σ) as [[v|err] σ1]; [by rewrite alone_answered|].
  destruct (negb (is_no_rows err)); [by rewrite alone_answered|]. next.
  destruct (GetExperiment e σ1) as [[exp|err1] σ2]; [|by rewrite alone_answered].
  destruct (negb _); [by rewrite alone_answered|]. next.
  destruct (core Now σ2) as [[now|err2] σ3] eqn:En; [|discriminate En].
  destruct (within_dates now exp); [|by rewrite alone_answered]. next.
  destruct (store_assignment _ _ _ _ _ _ σ3) as [[u|err3] σ4]; [by rewrite alone_answered|]. next.
  by destruct (lookup_assignment e k s σ4) as [[v|err4] σ5].
Qed.
End Alone.

(** ** The life of an experiment *)
Inductive leads_to : string → string → Prop :=
| Started : leads_to ExperimentStatusDraft ExperimentStatusRunning
| Paused : leads_to ExperimentStatusRunning ExperimentStatusPaused
| Resumed : leads_to ExperimentStatusPaused ExperimentStatusRunning
| CompletedRunning : leads_to ExperimentStatusRunning ExperimentStatusCompleted
| CompletedPaused : leads_to ExperimentStatusPaused ExperimentStatusCompleted
| Archived : leads_to ExperimentStatusCompleted ExperimentStatusArchived.
(** The same experiment, split and dates, with its status further on. *)
Definition further (e e' : Experiment) : Prop :=
  ID e' = ID e ∧ TenantID e' = TenantID e ∧ Name e' = Name e ∧ TrafficSplit e' = TrafficSplit e ∧
  StartDate e' = StartDate e ∧ EndDate e' = EndDate e ∧ rtc leads_to (Status e) (Status e').
#[export] Instance further_preorder : PreOrder further.
Proof.
  split; [intros e; by split_and!|]. intros e1 e2 e3 (?&?&?&?&?&?&Hr1) (?&?&?&?&?&?&Hr2).
  split_and!; try congruence. by etrans.
Qed.
Definition evolves (x x' : Tables) : Prop :=
  ∃ l new, experiments x' = (l ++ new)%list ∧ Forall2 further (experiments x) l ∧
    Forall (λ e, rtc leads_to ExperimentStatusDraft (Status e)) new.
#[export] Instance evolves_preorder : PreOrder evolves.
Proof.
  split.
  - intros x. exists (experiments x), []. rewrite app_nil_r. split_and!; [done|reflexivity|constructor].
  - intros x y z (l & n & Hy & Hl & Hn) (l' & n' & Hz & Hl' & Hn'). rewrite Hy in Hl'.
    apply Forall2_app_inv_l in Hl' as (l1 & l2 & H1 & H2 & ->). exists l1, (l2 ++ n')%list.
    split_and!; [by rewrite Hz, app_assoc|by etrans|]. apply Forall_app. split; [|done].
    clear - Hn H2. induction H2 as [|e e' n l2 He _ IH]; [constructor|]. apply Forall_cons in Hn as [Hd Hn].
    constructor; [|by apply IH]. etrans; [exact Hd|]. by destruct He as (_&_&_&_&_&_&He).
Qed.
Lemma evolves_same x x' : experiments x' = experiments x → evolves x x'.
Proof. intros H. exists (experiments x), []. rewrite app_nil_r. split_and!; [done|reflexivity|constructor]. Qed.
Lemma evolves_created e x : evolves x (snd (insert_experiment (mkExperiment (ID e) (TenantID e) (Name e) (Description e) (LabelA e)
  (LabelB e) (TrafficSplit e) ExperimentStatusDraft (StartDate e) (EndDate e) (MetricName e) (CreatedBy e) (CreatedAt e) (UpdatedAt e)) x)).
Proof.
  unfold insert_experiment. repeat case_match; try reflexivity. exists (experiments x). eexists. split; [done|].
  split; [reflexivity|]. repeat constructor.
Qed.
Lemma evolves_moved from to id now x :
  (∀ s, s ∈ from → leads_to s to) → evolves x (set_experiments (move_row from to id now <$> experiments x) x).
Proof.
  intros Hf. eexists _, []. cbn. rewrite app_nil_r. split_and!; [done| |constructor].
  apply Forall2_fmap_r, Forall_Forall2_diag, Forall_forall. intros e _. unfold move_row.
  cbn. destruct (by_id id e); cbn [andb]; [|apply (reflexivity (R := further))].
  case_bool_decide as Hs; [|apply (reflexivity (R := further))]. split_and!; try done. cbn. by apply rtc_once, Hf.
Qed.

Section Lives.
Context {env : Env} {js : MetricJson} (foreign_keys audit : bool) (quoted_name : string → string).
Ltac arrows := intros s Hs; repeat (apply elem_of_cons in Hs as [->|Hs]; [constructor|]); by apply not_elem_of_nil in Hs.
Ltac evolve := unfold GetAssignment, GetExperiment, lookup_assignment, store_assignment, recordAudit, RecordAudit, transition;
  preserve_tables ltac:(fun _ => first
    [ by apply evolves_same | apply evolves_moved; arrows
    | unfold insert_assignment, insert_entry; repeat case_match; by apply evolves_same
    | match goal with |- evolves _ (snd (insert_experiment ?e _)) => exact (evolves_created e _) end ]).
Lemma perform_evolves o : preserves (on_tables evolves) (perform foreign_keys audit quoted_name o).
Proof.
  destruct o; cbn [perform]; unfold StartExperiment, PauseExperiment, ResumeExperiment, CompleteExperiment, ArchiveExperiment,
    CreateExperiment, RecordMetric, AssignVariant; evolve.
Qed.
Lemma step_evolves q p : preserves (on_tables evolves) (assign_step foreign_keys q p).
Proof. destruct p; cbn [assign_step]; evolve. Qed.
Lemma schedule_evolves ts s : evolves (s_tables (snd s)) (s_tables (snd (schedule foreign_keys audit quoted_name ts s))).
Proof.
  revert s. induction ts as [|t ts IH]; intros s; [reflexivity|]. etrans; [|apply IH].
  destruct t as [i|o]; cbn [take_turn]; [|apply perform_evolves].
  destruct (fst s !! i) as [[q p]|]; [|reflexivity]. pose proof (step_evolves q p (snd s)) as H. unfold on_tables in H.
  by destruct (assign_step _ q p (snd s)) as [[p'|e] σ].
Qed.
(** What no longer moves, and what never comes back. *)
Lemma archived_stays s : rtc leads_to ExperimentStatusArchived s → s = ExperimentStatusArchived.
Proof. intros H. inversion H as [|? ? ? Ha]; subst; [done|inversion Ha]. Qed.
Lemma completed_stays s :
  rtc leads_to ExperimentStatusCompleted s → s = ExperimentStatusCompleted ∨ s = ExperimentStatusArchived.
Proof.
  intros H. inversion H as [|? y ? Ha Hr]; subst; [by left|]. inversion Ha; subst. right. by apply archived_stays.
Qed.
(** an experiment goes its way - drafted, running and paused, completed,
    archived - and never back; its name, dates and split stay what they were
    created as, so a subject cannot change sides by a change of the split.
    For every interleaving of operations and whichever statements fail. *)
Theorem experiment_goes_its_way ts (s : System) k e :
  experiments (s_tables (snd s)) !! k = Some e →
  ∃ e', experiments (s_tables (snd (schedule foreign_keys audit quoted_name ts s))) !! k = Some e' ∧ further e e' ∧
    (Status e = ExperimentStatusCompleted → Status e' ≠ ExperimentStatusRunning) ∧
    (Status e = ExperimentStatusArchived → Status e' = ExperimentStatusArchived).
Proof.
  intros Hk. destruct (schedule_evolves ts s) as (l & new & He & Hl & _).
  destruct (Forall2_lookup_l _ _ _ _ _ Hl Hk) as (e' & Hk' & Hf). exists e'.
  split; [by rewrite He, lookup_app_l by (by eapply lookup_lt_Some)|]. split; [done|].
  destruct Hf as (_&_&_&_&_&_&Hr). split; intros E; rewrite E in Hr.
  - destruct (completed_stays _ Hr) as [-> | ->]; discriminate.
  - by apply archived_stays.
Qed.
End Lives.

(** ** The split *)
(** A larger split keeps in the treatment whoever is in it. *)
Lemma larger_split experimentID subjectType subjectID s1 s2 :
  fltb s1 s2 = true →
  computeVariant experimentID subjectType subjectID s1 = VariantB →
  computeVariant experimentID subjectType subjectID s2 = VariantB.
Proof.
  unfold computeVariant. intros Hs. destruct (fltb _ s1) eqn:E; [|done]. by rewrite (Fastag.fltb_trans _ _ _ E Hs).
Qed.
(** The three texts are hashed one after the other, with nothing between:
    a kind and a subject that read alike share their side. *)
Lemma boundaries_unmarked e t s e' t' s' split_ :
  (e +:+ t +:+ s = e' +:+ t' +:+ s')%string → computeVariant e t s split_ = computeVariant e' t' s' split_.
Proof. unfold computeVariant, percentage. by intros ->. Qed.

(** ** The metrics *)
Definition values (variant : string) (ds : list experimentMetricDetail) : list float64 :=
  MetricValue <$> List.filter (λ d, String.eqb (d_Variant d) variant) ds.
Lemma tally_values ds m :
  foldl tally m ds = (foldl measure (fst m) (values VariantA ds), foldl measure (snd m) (values VariantB ds)).
Proof.
  revert m. induction ds as [|d ds IH]; intros [a b]; [done|]. cbn [foldl]. rewrite IH. unfold tally, values.
  cbn [List.filter]. destruct (String.eqb_spec (d_Variant d) VariantA) as [E|E].
  - rewrite E. cbn. done.
  - by destruct (String.eqb (d_Variant d) VariantB).
Qed.
(** The summary of some values. *)
Definition summarises (m : VariantMetrics * float64) (vs : list float64) : Prop :=
  Count (fst m) = Z.of_nat (List.length vs) ∧ snd m = foldl fadd f0 vs ∧
  (vs ≠ [] → MinMetric (fst m) ∈ vs ∧ ∀ v, v ∈ vs → fltb v (MinMetric (fst m)) = false) ∧
  (MaxMetric (fst m) ∈ f0 :: vs ∧ ∀ v, v ∈ vs → fltb (MaxMetric (fst m)) v = false).
Lemma not_above x y z : fltb x y = false → fltb z y = true → fltb x z = false.
Proof. intros H1 H2. destruct (fltb x z) eqn:E; [|done]. by rewrite (Fastag.fltb_trans _ _ _ E H2) in H1. Qed.
Lemma not_below x y z : fltb y x = false → fltb y z = true → fltb z x = false.
Proof. intros H1 H2. destruct (fltb z x) eqn:E; [|done]. by rewrite (Fastag.fltb_trans _ _ _ H2 E) in H1. Qed.
Lemma measure_summarises m vs v : summarises m vs → summarises (measure m v) (vs ++ [v])%list.
Proof.
  intros (Hc & Hs & Hmin & Hmax & Hall). unfold measure. split_and!; cbn [fst snd Count MinMetric MaxMetric].
  - rewrite Hc, length_app. cbn. lia.
  - by rewrite Hs, foldl_app.
  - intros _. destruct (decide (vs = [])) as [->|Hne].
    + rewrite Hc. cbn. split; [set_solver|]. intros u ->%list_elem_of_singleton. apply Fastag.fltb_irrefl.
    + assert ((Count (fst m) + 1 =? 1) = false) as ->.
      { apply Z.eqb_neq. rewrite Hc. destruct vs; [done|]. cbn. lia. }
      destruct (Hmin Hne) as [Hin Hle]. cbn [orb]. destruct (fltb v (MinMetric (fst m))) eqn:E.
      * split; [set_solver|]. intros u [Hu | ->%list_elem_of_singleton]%elem_of_app; [|apply Fastag.fltb_irrefl].
        by apply (not_above _ _ _ (Hle u Hu)).
      * split; [set_solver|]. intros u [Hu | ->%list_elem_of_singleton]%elem_of_app; [by apply Hle|done].
  - destruct (fltb (MaxMetric (fst m)) v); set_solver.
  - intros u Hu. destruct (fltb (MaxMetric (fst m)) v) eqn:E;
      apply elem_of_app in Hu as [Hu | ->%list_elem_of_singleton]; try done.
    + by apply (not_below _ _ _ (Hall u Hu)).
    + apply Fastag.fltb_irrefl.
    + by apply Hall.
Qed.
Lemma measures_summarise vs variant : summarises (foldl measure (no_metrics variant) vs) vs.
Proof.
  induction vs as [|v vs IH] using rev_ind; [|rewrite foldl_app; by apply measure_summarises].
  split_and!; [done|done|done|set_solver|set_solver].
Qed.
Lemma averaged_keeps m vs : summarises m vs →
  Count (averaged m) = Z.of_nat (List.length vs) ∧ MinMetric (averaged m) = MinMetric (fst m) ∧
  MaxMetric (averaged m) = MaxMetric (fst m) ∧
  (vs ≠ [] → AvgMetric (averaged m) = fdiv (foldl fadd f0 vs) (f64_of_Z (Z.of_nat (List.length vs)))).
Proof.
  destruct m as [vm sum]. intros (Hc & Hs & _). cbn [fst snd] in *. unfold averaged.
  destruct (Z.ltb_spec 0 (Count vm)) as [Hl|Hl]; cbn; split_and!; try done.
  - intros _. by rewrite Hs, Hc.
  - intros Hn. rewrite Hc in Hl. destruct vs; [done|]. cbn in Hl. lia.
Qed.
(** What is reported of a variant: how many values, their mean, the least of
    them, and the greatest of them and zero. *)
Lemma results_are_of_the_metrics experimentID ds :
  let r := results_of experimentID ds in
  TotalSubjects r = Count (r_VariantA r) + Count (r_VariantB r) ∧
  ∀ variant m, (variant, m) ∈ [(VariantA, r_VariantA r); (VariantB, r_VariantB r)] →
    let vs := values variant ds in
    Count m = Z.of_nat (List.length vs) ∧
    (vs ≠ [] → AvgMetric m = fdiv (foldl fadd f0 vs) (f64_of_Z (Z.of_nat (List.length vs))) ∧
       MinMetric m ∈ vs ∧ ∀ v, v ∈ vs → fltb v (MinMetric m) = false) ∧
    MaxMetric m ∈ f0 :: vs ∧ (∀ v, v ∈ vs → fltb (MaxMetric m) v = false).
Proof.
  intros r. split; [done|]. intros variant m Hm vs. unfold r, results_of in Hm. rewrite tally_values in Hm. cbn [fst snd r_VariantA r_VariantB] in Hm.
  assert (Hv : m = averaged (foldl measure (no_metrics variant) vs)).
  { unfold vs. rewrite !elem_of_cons in Hm. by destruct Hm as [[= -> ->]|[[= -> ->]|[]%not_elem_of_nil]]. }
  pose proof (measures_summarise vs variant) as Hs. destruct (averaged_keeps _ _ Hs) as (H1 & H2 & H3 & H4).
  destruct Hs as (_ & _ & Hmin & Hmax & Hall). rewrite Hv, H2, H3. split; [done|]. split; [|done].
  intros Hn. split; [by apply H4|by apply Hmin].
Qed.

(** ** A demonstration *)
Definition demo_env : Env := quiet_env (jan1 + 40 * day).
#[local] Existing Instance demo_env.
Definition demo_json : MetricJson := {| Marshal d := Fail (Err ""); Unmarshal s := None |}.
#[local] Existing Instance demo_json.
Definition exp (id status : string) (split_ : float64) (start : option Time) : Experiment :=
  mkExperiment id "1" "pricing" "" "control" "treatment" split_ status start None "margin" "u1" jan1 jan1.
Definition demo_state (l : list Experiment) : State := (world empty_db, mkTables l [] [], tt).
Definition driver1 : request := mkRequest "1" "x1" "driver" "d1".
Abbreviation requests := ((λ q, (q, Lookup)) <$> [driver1; driver1]).
Abbreviation played ts s := (schedule true true (λ n, n) ts s).
(** Both see no assignment and write one: the second one's write is refused,
    and it reads what the first wrote. *)
Definition race : list turn := [Turn 0; Turn 1; Turn 0; Turn 1; Turn 0; Turn 1; Turn 0; Turn 1; Other (OpPause "x1"); Turn 1]%nat%string.
Lemma variant_is_agreed_witness :
  let s := played race (requests, demo_state [exp "x1" "running" f100 None]) in
  VariantB = VariantB ∧ recorded driver1 VariantB (s_tables (snd s)).
Proof.
  apply (variant_is_agreed true true (λ n, n) race [driver1; driver1] (demo_state [exp "x1" "running" f100 None]) 0 1
    driver1 driver1 VariantB VariantB); [vm_compute; reflexivity..|reflexivity|reflexivity|reflexivity].
Defined.
Definition course : list turn := Other <$> [OpStart "x1"; OpStart "x1"; OpPause "x1"; OpComplete "x1"; OpResume "x1"]%string.
Lemma experiment_goes_its_way_witness :
  ∃ e', experiments (s_tables (snd (played course ([], demo_state [exp "x1" "draft" f100 None])))) !! 0%nat = Some e' ∧
    further (exp "x1" "draft" f100 None) e' ∧
    (Status (exp "x1" "draft" f100 None) = ExperimentStatusCompleted → Status e' ≠ ExperimentStatusRunning) ∧
    (Status (exp "x1" "draft" f100 None) = ExperimentStatusArchived → Status e' = ExperimentStatusArchived).
Proof.
  apply (experiment_goes_its_way true true (λ n, n) course ([], demo_state [exp "x1" "draft" f100 None]) 0 (exp "x1" "draft" f100 None)).
  reflexivity.
Defined.
Example course_ends : Status <$> experiments (s_tables (snd (played course ([], demo_state [exp "x1" "draft" f100 None])))) = ["completed"%string].
Proof. vm_compute. reflexivity. Qed.

(** The greatest of a variant's metrics starts at zero: values that are all
    negative have a greatest one that none of them is. *)
Example losses_have_a_maximum_of_zero :
  let r := r_VariantA (results_of "x1" [mkDetail "a" (f64_of_Z (-5)) "driver" "d1"; mkDetail "a" (f64_of_Z (-3)) "driver" "d2"]) in
  MaxMetric r = f0 ∧ MinMetric r = f64_of_Z (-5) ∧ Count r = 2.
Proof. vm_compute. auto. Qed.
(** A name that is used again is found as the experiment that had it first:
    the new one is running and nobody is in it. *)
Example name_used_again :
  let old := exp "x0" "archived" f100 None in
  let new := exp "x1" "running" f100 None in
  fst (EvaluateFeatureFlag true "1" "pricing" "driver" "d1" (demo_state [old; new])) = Ok VariantA ∧
  fst (EvaluateFeatureFlag true "1" "pricing" "driver" "d1" (demo_state [new])) = Ok VariantB.
Proof. vm_compute. auto. Qed.
(** Nothing keeps an experiment to its tenant: whoever has its identifier
    starts and stops it, and is told its variants. *)
Example any_tenant_assigns :
  fst (AssignVariant true "other" "x1" "driver" "d1" (demo_state [exp "x1" "running" f100 None])) = Ok VariantB.
Proof. vm_compute. reflexivity. Qed.
End Experiments.
