(* ===== verification/Features.v ===== *)
(** * Feature flags of an organisation

    [internal/features/features.go] and [gate.go]: the catalog, the order in
    which a feature is decided, the grants kept per organisation, and the
    copy of them that is read for a minute. *)
From stdpp Require Import base decidable list strings option gmap.
From Stdlib Require Import ZArith Lia Ascii String.
From S2P Require Import Prelude Shared GoTime Database SideTables Geofence.
Open Scope Z_scope.

Module Features.
Definition TierCore : string := "core".
Definition TierAddon : string := "addon".
Record Feature := mkFeature {
  Key : string; Name : string; Category : string; Tier : string; EnvFlag : string; EnvDefaultOn : bool }.
(** Without the descriptions. *)
Definition Catalog : list Feature :=
  [ mkFeature "telemetry" "GPS Telemetry & Live Tracking" "Operations" TierAddon "TELEMETRY_ENABLED" true;
    mkFeature "geofences" "Geofences & Detention Billing" "Operations" TierAddon "TELEMETRY_ENABLED" true;
    mkFeature "fuel_audit" "Fuel Audit & KMPL Reports" "Operations" TierAddon "TELEMETRY_ENABLED" true;
    mkFeature "share_links" "Public Trip Share Links" "Operations" TierCore "" false;
    mkFeature "customer_portal" "Customer Portal" "Operations" TierCore "" false;
    mkFeature "fastag" "FASTag Toll Reconciliation" "Commerce & Finance" TierAddon "INTEGRATION_FASTAG_ENABLED" false;
    mkFeature "ewaybill" "GST e-Way Bills" "Commerce & Finance" TierCore "INTEGRATION_EWAYBILL_ENABLED" false;
    mkFeature "gst_einvoice" "GST e-Invoice (IRN)" "Commerce & Finance" TierAddon "INTEGRATION_GSTN_ENABLED" false;
    mkFeature "accounting_sync" "Accounting Sync (Tally/Zoho)" "Commerce & Finance" TierAddon "INTEGRATION_ACCOUNTING_ENABLED" false;
    mkFeature "razorpay" "Online Payments (Razorpay)" "Commerce & Finance" TierCore "" false;
    mkFeature "settlements" "Driver Settlements & TDS" "Commerce & Finance" TierCore "" false;
    mkFeature "scorecard" "Driver Safety Scorecard" "Insights" TierAddon "TELEMETRY_ENABLED" true;
    mkFeature "pnl" "Trip P&L Engine" "Insights" TierAddon "" false;
    mkFeature "experiments" "A/B Experiments" "Insights" TierCore "" false;
    mkFeature "agent" "AI Ops Assistant" "Intelligence" TierAddon "AGENT_ENABLED" false;
    mkFeature "rag" "Knowledge Search (RAG)" "Intelligence" TierAddon "RAG_ENABLED" false;
    mkFeature "founder" "Founder Signals & Digest" "Intelligence" TierCore "" false;
    mkFeature "pwa" "Progressive Web App" "Platform" TierCore "PWA_ENABLED" false ]%string.
Definition ByKey (key : string) : option Feature := List.find (λ f, String.eqb (Key f) key) Catalog.

(** A row of [feature_flags]; the key is the organisation and the feature. *)
Record FlagRow := mkFlag { TenantID : string; feature : string; enabled : bool; UpdatedBy : string; UpdatedAt : string }.
Abbreviation Tables := (list FlagRow).
Abbreviation Flags := (gmap string bool).
Record cachedOrg := mkCached { flags : Flags; fetched : Time }.
Abbreviation Cache := (gmap string cachedOrg).
Abbreviation State := (World * Tables * Cache)%type.
Abbreviation FM := (XM Tables Cache).

Definition of_row (tenantID key : string) (r : FlagRow) : bool := String.eqb (TenantID r) tenantID && String.eqb (feature r) key.
Definition granted (tenantID key : string) (l : Tables) : option bool := enabled <$> List.find (of_row tenantID key) l.
Definition flags_of (tenantID : string) (l : Tables) : Flags :=
  foldr (λ r m, if String.eqb (TenantID r) tenantID then <[feature r := enabled r]> m else m) ∅ l.
(** [INSERT ... ON CONFLICT(tenant_id, feature) DO UPDATE]. *)
Definition upsert (r : FlagRow) (l : Tables) : Tables :=
  if existsb (of_row (TenantID r) (feature r)) l then (λ q, if of_row (TenantID r) (feature r) q then r else q) <$> l
  else (l ++ [r])%list.

Definition cacheTTL : Z := 60 * Dwell.second.
Definition ErrUnknownFeature : error := Err "features: unknown feature key".
(** [envState]: nothing when the process does not decide. *)
Definition envState (lookup : string → string) (f : Feature) : option bool :=
  if is_empty (EnvFlag f) then None
  else
    let v := lookup (EnvFlag f) in
    if String.eqb v "true" || String.eqb v "1" then Some true
    else if String.eqb v "false" || String.eqb v "0" then Some false
    else if EnvDefaultOn f then Some true else None.
(** A feature, from the grants of the organisation. *)
Definition resolve (lookup : string → string) (m : Flags) (f : Feature) : bool :=
  match m !! Key f with
  | Some v => v
  | None => match envState lookup f with Some v => v | None => String.eqb (Tier f) TierCore end
  end.
Definition SnapshotEntry : Type := Feature * bool.
Inductive response := Serve | Forbidden (msg : string) | NotFound.

Section Registry.
Context {env : Env} (lookup : string → string).
Definition read_cache (tenantID : string) : FM (option cachedOrg) := SM_get (λ s, s_out s !! tenantID).
(** A query that fails leaves the organisation without grants. *)
Definition load (tenantID : string) : FM Flags :=
  r ← SM_try (xquery (λ _ _ l, flags_of tenantID l));
  mret match r with Ok m => m | Fail _ => ∅ end.
Definition keep (tenantID : string) (m : Flags) : FM unit :=
  now ← core Now; outside (<[tenantID := mkCached m now]>).
Definition fetch (tenantID : string) : FM Flags := m ← load tenantID; _ ← keep tenantID m; mret m.
Definition flagsFor (tenantID : string) : FM Flags :=
  c ← read_cache tenantID;
  match c with
  | None => fetch tenantID
  | Some c => now ← core Now; if Geo.Sub now (fetched c) <? cacheTTL then mret (flags c) else fetch tenantID
  end.
Definition Enabled (tenantID key : string) : FM bool :=
  match ByKey key with
  | None => mret false
  | Some f => m ← flagsFor tenantID; mret (resolve lookup m f)
  end.
Definition Snapshot (tenantID : string) : FM (list SnapshotEntry) :=
  m ← flagsFor tenantID; mret ((λ f, (f, resolve lookup m f)) <$> Catalog).
Definition invalidate (tenantID : string) : FM unit := outside (delete tenantID).
Definition Set_ (tenantID key : string) (on : bool) (updatedBy : string) : FM unit :=
  match ByKey key with
  | None => SM_fail ErrUnknownFeature
  | Some _ =>
      now ← core Now;
      _ ← xwrite (λ _, upsert (mkFlag tenantID key on updatedBy (FormatRFC3339 now)));
      invalidate tenantID
  end.
(** [Gate]; the organisation of a request that names none is the default. *)
Definition Gate (key tenantID : string) : FM response :=
  let tenantID := if is_empty tenantID then DefaultTenant else tenantID in
  on ← Enabled tenantID key;
  if on : bool then mret Serve
  else
    let f := default (mkFeature "" "" "" "" "" false) (ByKey key) in
    if String.eqb (Tier f) TierAddon then
      mret (Forbidden ("This add-on is not enabled for your organisation. Contact your account manager to enable " +:+ Name f +:+ "."))
    else mret NotFound.
End Registry.

(** ** Histories

    The operations of a process, and the writes of others to the table. *)
Inductive command :=
| Ask (tenantID key : string) | Page (tenantID : string) | Open_ (key tenantID : string)
| Grant (tenantID key : string) (on : bool) (updatedBy : string) | Elsewhere (r : FlagRow).
Section Histories.
Context {env : Env} (lookup : string → string).
Definition perform (c : command) : FM unit :=
  match c with
  | Ask t k => SM_ignore (Enabled lookup t k)
  | Page t => SM_ignore (Snapshot lookup t)
  | Open_ k t => SM_ignore (Gate lookup k t)
  | Grant t k on by_ => SM_ignore (Set_ t k on by_)
  | Elsewhere r => xwrite (λ _, upsert r)
  end.
Definition run (cs : list command) (σ : State) : State := foldl (λ σ c, snd (perform c σ)) σ cs.
Definition grants (tenantID : string) (c : command) : bool :=
  match c with
  | Grant t k _ _ => String.eqb t tenantID && match ByKey k with Some _ => true | None => false end
  | _ => false
  end.

Lemma granted_flags t k l : flags_of t l !! k = granted t k l.
Proof.
  unfold granted. induction l as [|r l IH]; cbn; [by rewrite lookup_empty|]. unfold of_row at 1.
  destruct (String.eqb_spec (TenantID r) t); cbn [andb]; [|exact IH].
  destruct (String.eqb_spec (feature r) k) as [<-|Hne]; [by rewrite lookup_insert_eq|].
  by rewrite lookup_insert_ne.
Qed.
Abbreviation clock σ := (w_clock (s_world σ)).
(** Either what was kept, not a minute ago, or what the table has. *)
Lemma flagsFor_inv t (σ σ' : State) r :
  healthy → flagsFor t σ = (r, σ') →
  s_tables σ' = s_tables σ ∧ ∃ m, r = Ok m ∧
  ((∃ c, s_out σ !! t = Some c ∧ m = flags c ∧ s_out σ' = s_out σ ∧ Geo.Sub (clock_now (clock σ)) (fetched c) < cacheTTL) ∨
   (∃ n, (clock σ <= n)%nat ∧ m = flags_of t (s_tables σ) ∧ s_out σ' = <[t := mkCached m (clock_now n)]> (s_out σ))).
Proof.
  intros Hh H. destruct σ as [[w l] o]. cbn.
  assert (Hf : ∀ w', fetch t (w', l, o) = (Ok (flags_of t l),
    (tick_clock (tick_stmts w'), l, <[t := mkCached (flags_of t l) (clock_now (w_clock w'))]> o))).
  { intros w'. unfold fetch, load, keep. cbv [mbind SM_mbind SM_bind SM_try mret SM_mret SM_ret]. by rewrite xquery_run. }
  unfold flagsFor, read_cache in H. cbv [mbind SM_mbind SM_bind SM_get] in H. cbn [s_out snd] in H.
  destruct (o !! t) as [c|] eqn:Hc.
  - cbv [core Now] in H. cbn [s_world fst snd s_tables s_out] in H. destruct (Z.ltb_spec (Geo.Sub (clock_now (w_clock w)) (fetched c)) cacheTTL).
    + injection H as <- <-. split; [done|]. eexists. split; [done|]. left. by exists c.
    + rewrite Hf in H. injection H as <- <-. split; [done|]. eexists. split; [done|]. right. eexists. split; [|done]. cbn. lia.
  - rewrite Hf in H. injection H as <- <-. split; [done|]. eexists. split; [done|]. right. eexists. split; [|done]. cbn. lia.
Qed.
Lemma perform_inv c t (σ : State) cached :
  healthy → s_out (snd (perform c σ)) !! t = Some cached →
  grants t c = false ∧ (s_out σ !! t = Some cached ∨
    ∃ n, (clock σ <= n)%nat ∧ cached = mkCached (flags_of t (s_tables σ)) (clock_now n)).
Proof.
  intros Hh.
  assert (Hf : ∀ u (σ' : State) r, flagsFor u σ = (r, σ') → s_out σ' !! t = Some cached →
    s_out σ !! t = Some cached ∨ ∃ n, (clock σ <= n)%nat ∧ cached = mkCached (flags_of t (s_tables σ)) (clock_now n)).
  { intros u σ' r H Ht. apply flagsFor_inv in H as (_ & m & _ & [(c' & _ & _ & Ho & _)|(n & Hn & -> & Ho)]); [|..|done]; rewrite Ho in Ht; [by left|].
    destruct (decide (u = t)) as [->|Hne]; [|left; by rewrite lookup_insert_ne in Ht].
    rewrite lookup_insert_eq in Ht. injection Ht as <-. right. by exists n. }
  assert (Hg : ∀ A u (g : Flags → A), s_out (snd (SM_ignore (m ← flagsFor u; mret (g m)) σ)) !! t = Some cached →
    s_out σ !! t = Some cached ∨ ∃ n, (clock σ <= n)%nat ∧ cached = mkCached (flags_of t (s_tables σ)) (clock_now n)).
  { intros A u g H. unfold SM_ignore in H. cbv [mbind SM_mbind SM_bind mret SM_mret SM_ret] in H.
    destruct (flagsFor u σ) as [[m|e] σ'] eqn:E; exact (Hf _ _ _ E H). }
  destruct c as [u k|u|k u|u k on by_|r]; cbn [perform grants]; intros H.
  - split; [done|]. unfold Enabled in H. destruct (ByKey k); [by apply Hg in H|by left].
  - split; [done|]. by apply Hg in H.
  - split; [done|]. unfold Gate, Enabled in H. destruct (ByKey k) as [f|].
    + unfold SM_ignore in H. cbv [mbind SM_mbind SM_bind mret SM_mret SM_ret] in H.
      destruct (flagsFor _ σ) as [[m|e] σ'] eqn:E; [|exact (Hf _ _ _ E H)].
      destruct (resolve lookup m f); [exact (Hf _ _ _ E H)|]. destruct (String.eqb _ TierAddon); exact (Hf _ _ _ E H).
    + left. exact H.
  - unfold SM_ignore, Set_ in H. destruct (ByKey k) as [f|].
    + cbv [mbind SM_mbind SM_bind] in H. cbn [core Now] in H. rewrite xwrite_run in H by done. cbn in H.
      destruct (String.eqb_spec u t) as [->|Hne]; [by rewrite lookup_delete_eq in H|]. rewrite lookup_delete_ne in H by done. by auto.
    + rewrite andb_false_r. by auto.
  - split; [done|]. left. rewrite xwrite_run in H by done. exact H.
Qed.
(** The copy kept of an organisation's grants is what the table had at some
    point of the history after its last grant here, and is marked with a
    reading of the clock made since. *)
Lemma kept_copy cs (σ : State) t c :
  healthy → s_out σ = ∅ → s_out (run cs σ) !! t = Some c →
  ∃ cs1 cs2 n, cs = (cs1 ++ cs2)%list ∧ Forall (λ d, grants t d = false) cs2 ∧ (clock (run cs1 σ) <= n)%nat ∧
    c = mkCached (flags_of t (s_tables (run cs1 σ))) (clock_now n).
Proof.
  intros Hh He. revert c. induction cs as [|d cs IH] using rev_ind; intros c H; [cbn in H; by rewrite He, lookup_empty in H|].
  unfold run in H. rewrite foldl_app in H. cbn [foldl] in H. apply perform_inv in H as [Hg [H|(n & Hn & ->)]]; [| |done].
  - destruct (IH c H) as (cs1 & cs2 & n & -> & Hf & Hn & Hc). exists cs1, (cs2 ++ [d])%list, n.
    split_and!; [by rewrite app_assoc|by apply Forall_app; split; [|constructor]|done|done].
  - exists cs, [d], n. split_and!; [done|by constructor|done|done].
Qed.

(** a feature is decided by grants at most a minute old, and none made
    through this process is missed: the answer is the one for the table of
    feature flags as it was at some point after the organisation's last grant
    here, either now or, by the clock, less than a minute ago.  The grant of
    that table wins, then the process, then the tier. *)
Theorem grants_are_a_minute_old_at_most cs (σ σ' : State) t k f b :
  healthy → s_out σ = ∅ → ByKey k = Some f →
  Enabled lookup t k (run cs σ) = (Ok b, σ') →
  ∃ cs1 cs2, cs = (cs1 ++ cs2)%list ∧ Forall (λ d, grants t d = false) cs2 ∧
    b = match granted t (Key f) (s_tables (run cs1 σ)) with
        | Some v => v
        | None => match envState lookup f with Some v => v | None => String.eqb (Tier f) TierCore end
        end ∧
    (cs2 = [] ∨ ∃ n, (clock (run cs1 σ) <= n)%nat ∧ clock_now (clock (run cs σ)) - clock_now n < cacheTTL).
Proof.
  intros Hh He Hk H. unfold Enabled in H. rewrite Hk in H. run_ok H. injection H as <- <-.
  apply flagsFor_inv in Hrun as (_ & m & [= <-] & Hm); [|done].
  setoid_rewrite <- granted_flags. destruct Hm as [(c & Hc & -> & _ & Ha)|(n & _ & -> & _)].
  - apply (kept_copy _ _ _ _ Hh He) in Hc as (cs1 & cs2 & n & -> & Hf & Hn & ->). cbn [flags fetched] in *.
    exists cs1, cs2. split_and!; [done|done|done|]. right. exists n. split; [done|].
    unfold Geo.Sub, cacheTTL, Dwell.second, GoFloat.min_int64, GoFloat.max_int64 in *. lia.
  - exists cs, []. rewrite app_nil_r. split_and!; [done|constructor|done|by left].
Qed.
End Histories.

(** ** A demonstration *)
Definition demo_env : Env := quiet_env jan1.
#[local] Existing Instance demo_env.
Definition no_process (_ : string) : string := "".
Definition demo_state : State := (world empty_db, [], ∅).
Definition some_day : list command :=
  [Ask "acme" "pnl"; Grant "acme" "pnl" true "u1"; Open_ "pnl" "acme"; Elsewhere (mkFlag "acme" "pnl" false "u2" "")]%string.
(** The other process took the grant back; here it is still given. *)
Lemma grants_are_a_minute_old_at_most_witness :
  ∃ cs1 cs2, some_day = (cs1 ++ cs2)%list ∧ Forall (λ d, grants "acme" d = false) cs2 ∧
    true = match granted "acme" "pnl" (s_tables (run no_process cs1 demo_state)) with
           | Some v => v
           | None => match envState no_process (mkFeature "pnl" "Trip P&L Engine" "Insights" TierAddon "" false) with
                     | Some v => v | None => String.eqb TierAddon TierCore end
           end ∧
    (cs2 = [] ∨ ∃ n, (w_clock (s_world (run no_process cs1 demo_state)) <= n)%nat ∧
       clock_now (w_clock (s_world (run no_process some_day demo_state))) - clock_now n < cacheTTL).
Proof.
  apply (grants_are_a_minute_old_at_most no_process some_day demo_state
    (snd (Enabled no_process "acme" "pnl" (run no_process some_day demo_state))) "acme" "pnl"
    (mkFeature "pnl" "Trip P&L Engine" "Insights" TierAddon "" false) true); [done|done|reflexivity|vm_compute; reflexivity].
Defined.

(** A grant that is made while a request loads the old grants is missed: the
    request keeps what it loaded after the grant emptied the copy. *)
Example grant_overtaken :
  let old := load "acme" demo_state in
  let granted_ := snd (Set_ "acme" "pnl" true "u1" (snd old)) in
  match fst old with
  | Ok m =>
      let after := snd (keep "acme" m granted_) in
      fst (Enabled no_process "acme" "pnl" after) = Ok false ∧ granted "acme" "pnl" (s_tables after) = Some true
  | Fail _ => False
  end.
Proof. vm_compute. auto. Qed.
(** A load that fails is kept for a minute as an organisation without grants:
    what it paid for is refused, and what was revoked is served. *)
Definition fault_at_0 (n : nat) : option error := if Nat.eqb n 0 then Some (Err "database is locked") else None.
Lemma fault_at_0_ok n e : fault_at_0 n = Some e → is_no_rows e = false.
Proof. unfold fault_at_0. case_match; [by intros [= <-]|done]. Qed.
Example fault_forgets_the_grants :
  let env := test_env jan1 fault_at_0 fault_at_0_ok in
  let rows := [mkFlag "acme" "pnl" true "u1" ""; mkFlag "acme" "settlements" false "u1" ""]%string in
  let after := snd (Enabled (env := env) no_process "acme" "pnl" (world empty_db, rows, ∅)) in
  fst (Gate (env := env) no_process "pnl" "acme" after) =
    Ok (Forbidden "This add-on is not enabled for your organisation. Contact your account manager to enable Trip P&L Engine.") ∧
  fst (Gate (env := env) no_process "settlements" "acme" after) = Ok Serve.
Proof. vm_compute. auto. Qed.
(** A core feature is off also where an organisation's grant was taken back. *)
Example core_revoked :
  fst (Gate no_process "settlements" "acme" (world empty_db, [mkFlag "acme" "settlements" false "u1" ""], ∅)) = Ok NotFound.
Proof. vm_compute. reflexivity. Qed.
End Features.
